(* ===== verification/_CoqProject ===== *)
-Q . S2P
Prelude.v
Layout.v
Spinlock.v
Queue.v
Proc.v
KLogic.v
Sched.v
Fork.v
SchedInv.v
SchedOps.v
Life.v
Exit.v
SchedSystem.v
Boot.v
SchedClaims.v
LifeClaims.v
CString.v
Ulib.v
Kalloc.v
Vm.v
VmMap.v
VmSpace.v
VmUser.v
VmClaims.v
VmCopy.v
VmIO.v
VmFree.v
VmDemo.v
Pipe.v
Grep.v
GrepLoop.v
Sleeplock.v
Ring.v
BufCache.v
Bio.v
BioSpec.v
BioClaims.v
Log.v
LogRun.v
LogClaims.v
Crash.v
LogCap.v
LogWrite.v
Printf.v
ByteRing.v
Uart.v
UartClaims.v
Console.v
ConsoleClaims.v
BlockIO.v
Fs.v
Inode.v
Dir.v
FsBlocks.v
FsAlloc.v
DirPath.v
FsRead.v
FsGrow.v
FsBmap.v
FsWrite.v
FsFile.v
FsDir.v
Sh.v
ShGrammar.v
ShParse.v
ShRun.v
ShClaims.v
File.v
FileOps.v
FileClaims.v
ShProc.v
ShSession.v
Malloc.v
MallocInv.v
MallocOps.v
MallocClaims.v
Virtio.v
VirtioInv.v
VirtioSteps.v
VirtioClaims.v
