(* ===== verification/Prelude.v ===== *)
(** * Verification of the xv6 kernel of projects/project_1c

    The program is xv6-riscv with a multi-level feedback queue scheduler and a
    scheduling log (src/projects/project_1c); project_1b is its earlier
    round-robin state.  This library models the kernel's core and five pieces of
    user code as Rocq functions and proves what they promise.

    ** Conventions

    A piece of C is a function of the monad [M S A] below: from a state [S] it
    returns a value and a new state, or panics with the kernel's message, or
    leaves the defined part of C ([Fault]: an access outside an object), or
    never returns ([Hang]).  Integers are [Z] with their width written out
    ([u8], [u32], [i32], ... below); memory is a finite map of bytes.  Loops
    over a bounded range recurse on it; other loops carry fuel, and the theorem
    about the loop shows that its fuel is enough, so [Hang] then means a loop
    that the code never leaves.  Locks are real in the model: taking a lock
    twice, releasing a free one, or unbalanced [pop_off] panics as in the code.
    A handler that goes to sleep or calls [swtch] ends there; what follows is
    another step, taken when the scheduler comes back to it.  Between these points
    a handler, and a round of the scheduler, is one step.

    ** Parts, files and what is shown

    Queues and processes.  Queue.v is queue.c, three linked lists in one array:
    the operations refine lists ([queue_refinement]); [dequeue] of an empty
    table leaves the array ([dequeue_never_empty]); an [enqueue_back] in the
    middle of [remove_pid] loses its process ([dequeue_race]: [scheduler] calls
    [dequeue] with interrupts on and no lock).  Spinlock.v is spinlock.c with the
    race of harts on one lock.  Layout.v, Proc.v, Sched.v and Fork.v are proc.c,
    proc.h and the timer part of trap.c: the process table, the scheduler, yield,
    sleep, wakeup, kill, nice, fork, exit, wait, the log.  KLogic.v has their
    proof rules; SchedInv.v and SchedOps.v the invariant between processes,
    queues, locks and the CPU; SchedOps.v, Life.v and Exit.v that every operation
    keeps it; SchedSystem.v the transition system of all operations in any order
    ([any_step]; [sys_step] leaves out the rounds without a RUNNABLE process and
    the exit of init, which the code does not withstand), and Boot.v its initial
    state.  SchedClaims.v and LifeClaims.v: what an execution can come to, a
    process is queued exactly when it is RUNNABLE, ids are unique, and the effect
    of every operation on every branch.

    Memory.  CString.v is string.c on byte memory.  Kalloc.v is kalloc.c, a
    stack of pages linked through the pages.  Vm.v is vm.c with page tables in
    memory; VmMap.v to VmFree.v its proofs: page tables as finite maps, uvmalloc
    and uvmdealloc, uvmcopy, copyout and copyin, uvmfree returning every page.

    Devices.  ByteRing.v holds the theory of byte rings with free-running
    counters; Uart.v and UartClaims.v are uart.c (bytes leave in the order in
    which they were accepted, and interrupts empty the ring); Console.v and
    ConsoleClaims.v are console.c and kernel printf's output (line editing and
    reads, and who is woken).  Pipe.v is pipe.c: which bytes each run of a call
    moves, and that none is duplicated or reordered.

    Disk.  Sleeplock.v is sleeplock.c with the race of processes.  BufCache.v is
    the contract of a buffer cache and Bio.v, BioSpec.v, BioClaims.v the one of
    bio.c, an LRU ring of 30 buffers, which keeps it.  Log.v is log.c over any
    such cache; LogRun.v to LogClaims.v, Crash.v, LogCap.v and LogWrite.v show
    that a transaction reaches the disk whole or not at all whatever the crash
    point, how much the log can take, and a whole system call.  BlockIO.v is the
    contract that fs.c needs, kept by the log; Fs.v, Inode.v and Dir.v are all of
    fs.c.  FsBlocks.v and FsAlloc.v treat the block allocator, FsRead.v reads of
    files as slices of their bytes, FsGrow.v and FsBmap.v how a file gets blocks,
    FsWrite.v and FsFile.v writes and reading back what was written, DirPath.v
    names and paths, FsDir.v lookups.  Virtio.v is virtio_disk.c, the driver with
    its descriptors and rings; VirtioInv.v the device, the system of processes,
    interrupts and device, and its invariant, VirtioSteps.v that the steps keep
    it, VirtioClaims.v that the driver implements the one-step transfer that the
    buffer cache assumes, and what the device can do inside a request.

    Descriptors.  File.v is file.c, pipealloc and the descriptor calls of
    sysfile.c, with the descriptor arrays of all processes; FileOps.v the
    invariant between reference counts, descriptors and pipe ends and that every
    call keeps it, FileClaims.v what follows for any order of calls.

    User code.  Ulib.v is ulib.c, Grep.v and GrepLoop.v grep.c (the matcher
    against the language of its patterns; the output does not depend on how the
    input is cut into reads), Printf.v user/printf.c and kernel/printf.c against
    one grammar of formats.  Sh.v is the parser of sh.c; ShGrammar.v its tokens and
    the grammar of lines, ShParse.v the parser's run against it and ShClaims.v
    what it accepts, returns and prints.  ShRun.v is the rest of sh.c, runcmd and
    main, as trees of system calls; ShProc.v gives the answers of the kernel and
    the meaning of commands, ShSession.v relates lines and sessions to it.
    Malloc.v is umalloc.c; MallocInv.v its free list as a sorted list of blocks,
    MallocOps.v free and malloc on it, MallocClaims.v the programs that use it.

    Interfaces between components are classes with laws: [HasLocks] and
    [SleepEnv] (locks in a component's state), [ProcEnv] (memory, files and
    inodes for the process table), [BufCache] and [BufCacheLaws], [BlockEnv] and
    [BlockLaws], [Printer] and [PrinterLaws], [FileEnv] and [FileLaws] (pages,
    inodes and user memory for the file table).  A client is proved against the
    class; Bio.v, BlockIO.v, Printf.v and ConsoleClaims.v give the instances.

    ** Bounds and fuel

    Queue links are followed with fuel for the whole table; strings with fuel for
    every byte of memory; the inner loop of grep with its buffer size, its outer
    loop with the input left; [uartstart] with the ring size; [balloc] with the
    number of bitmap blocks; [readi] and [writei] with the number of blocks that
    a range can touch.  Counters of processes, ticks and references are kept
    below their overflow by hypotheses that the theorems name.

    ** Not modelled

    More than one hart, except in the races of Spinlock.v and Sleeplock.v (the
    Makefile runs one CPU), and interrupts inside a handler or a round of the
    scheduler, except in [dequeue_race].  Assembly, machine-mode boot, and traps
    from user space, which are registers and privilege switches; the dispatch of
    syscall.c and sysproc.c, which hands arguments on.  The interrupt controller;
    inside bio.c and log.c a disk transfer is one step on a map of blocks.  The
    calls on paths of sysfile.c and exec.c, which combine fs.c, the file table and
    vm.c.  A copy of user memory that fails in the middle of a block is modelled in
    Inode.v but left out of the theorem on writes ([partial_copy] shows its
    effect); the disk's error status panics ([fails_badly] in VirtioClaims.v).  The
    other user programs are sequences of system calls; mkfs, tests, generated
    files, project_1b and the C++ exercises are left out. *)
From stdpp Require Export base tactics list strings gmap.
From Stdlib Require Export ZArith Lia.

Open Scope Z_scope.

(** ** Outcomes of C code *)

(** A piece of C either finishes, panics, leaves the defined part of C (an
    access outside an object), or never returns. *)
Inductive res (A : Type) : Type :=
  | Ok (a : A)
  | Panic (msg : string)
  | Fault
  | Hang.
Arguments Ok {_} a.
Arguments Panic {_} msg.
Arguments Fault {_}.
Arguments Hang {_}.

#[global] Instance res_ret : MRet res := @Ok.
#[global] Instance res_bind : MBind res := λ A B f m,
  match m with
  | Ok a => f a
  | Panic s => Panic s
  | Fault => Fault
  | Hang => Hang
  end.

(** Stateful C code over a state [S]. *)
Definition M (S A : Type) : Type := S → res (A * S).

#[global] Instance M_ret S : MRet (M S) := λ A a s, Ok (a, s).
#[global] Instance M_bind S : MBind (M S) := λ A B f m s,
  match m s with
  | Ok (a, s') => f a s'
  | Panic e => Panic e
  | Fault => Fault
  | Hang => Hang
  end.

Section monad_ops.
Context {S : Type}.

Definition gets {A} (f : S → A) : M S A := λ s, Ok (f s, s).
Definition modify (f : S → S) : M S unit := λ s, Ok (tt, f s).
Definition panic {A} (msg : string) : M S A := λ _, Panic msg.
Definition fault {A} : M S A := λ _, Fault.
Definition hang {A} : M S A := λ _, Hang.
Definition lift {A} (r : res A) : M S A := λ s,
  match r with
  | Ok a => Ok (a, s)
  | Panic e => Panic e
  | Fault => Fault
  | Hang => Hang
  end.

(** [for(x in l) f(x)] *)
Fixpoint forM {A} (l : list A) (f : A → M S unit) : M S unit :=
  match l with
  | [] => mret tt
  | x :: l' => f x ;; forM l' f
  end.

(** [for(x in l) { ... if(..) return b; }]: the first result, if any. *)
Fixpoint for_untilM {A B} (l : list A) (f : A → M S (option B)) : M S (option B) :=
  match l with
  | [] => mret None
  | x :: l' => r ← f x ;
               match r with
               | Some b => mret (Some b)
               | None => for_untilM l' f
               end
  end.
End monad_ops.

(** ** A total-correctness Hoare triple: from [P] the code returns normally,
    in a state where [Q] holds. *)
Definition triple {S A} (P : S → Prop) (m : M S A) (Q : A → S → Prop) : Prop :=
  ∀ s, P s → ∃ a s', m s = Ok (a, s') ∧ Q a s'.

Section triple_rules.
Context {S : Type}.
Implicit Types P : S → Prop.

Lemma triple_ret {A} P (a : A) : triple P (mret a) (λ b s, b = a ∧ P s).
Proof. intros s Hs. exists a, s. done. Qed.

Lemma triple_bind {A B} P (m : M S A) (R : A → S → Prop) (f : A → M S B) Q :
  triple P m R → (∀ a, triple (R a) (f a) Q) → triple P (m ≫= f) Q.
Proof.
  intros Hm Hf s Hs. destruct (Hm s Hs) as (a & s1 & E & HR).
  destruct (Hf a s1 HR) as (b & s2 & E2 & HQ).
  exists b, s2. split; [|done]. unfold mbind, M_bind. by rewrite E.
Qed.

Lemma triple_conseq {A} P P' (m : M S A) (Q Q' : A → S → Prop) :
  triple P' m Q' → (∀ s, P s → P' s) → (∀ a s, Q' a s → Q a s) → triple P m Q.
Proof.
  intros Hm HP HQ s Hs. destruct (Hm s (HP s Hs)) as (a & s' & E & H).
  exists a, s'. auto.
Qed.

Lemma triple_forM {A} (I : S → Prop) (l : list A) (f : A → M S unit) :
  (∀ x, x ∈ l → triple I (f x) (λ _, I)) → triple I (forM l f) (λ _, I).
Proof.
  induction l as [|x l IH]; intros Hf; simpl.
  - intros s Hs. exists tt, s. done.
  - eapply triple_bind.
    + apply Hf. set_solver.
    + intros a. apply IH. intros y Hy. apply Hf. set_solver.
Qed.
End triple_rules.

(** Run the first of two computations. *)
Lemma bind_Ok_eq {S A B} (m : M S A) (f : A → M S B) s a s' :
  m s = Ok (a, s') → (m ≫= f) s = f a s'.
Proof. unfold mbind, M_bind. by intros ->. Qed.

Lemma gets_bind {S A B} (g : S → A) (f : A → M S B) s : (gets g ≫= f) s = f (g s) s.
Proof. done. Qed.
Lemma modify_bind {S B} (g : S → S) (f : unit → M S B) s : (modify g ≫= f) s = f tt (g s).
Proof. done. Qed.

(** A counting loop, by an invariant of the counter and the state. *)
Lemma forM_count {S} (P : Z → S → Prop) (f : Z → M S unit) (n : nat) (a : Z) s :
  (∀ i s, a ≤ i < a + Z.of_nat n → P i s → ∃ s', f i s = Ok (tt, s') ∧ P (i + 1) s') →
  P a s → ∃ s', forM (seqZ a (Z.of_nat n)) f s = Ok (tt, s') ∧ P (a + Z.of_nat n) s'.
Proof.
  revert a s. induction n as [|n IH]; intros a s Hf Ha.
  - exists s. split; [done|]. by rewrite Z.add_0_r.
  - rewrite seqZ_cons by lia. replace (Z.pred (Z.of_nat (Datatypes.S n))) with (Z.of_nat n) by lia.
    destruct (Hf a s) as (s1 & E1 & H1); [lia|done|].
    destruct (IH (Z.succ a) s1) as (s2 & E2 & H2).
    { intros i s' Hi. apply Hf. lia. } { by rewrite <-Z.add_1_r. }
    exists s2. split; [|by replace (a + Z.of_nat (Datatypes.S n)) with (Z.succ a + Z.of_nat n) by lia].
    cbn [forM]. by rewrite (bind_Ok_eq _ _ _ _ _ E1).
Qed.

(** ** Machine-width integers *)
Definition u8 (z : Z) : Z := z mod 2 ^ 8.
Definition u16 (z : Z) : Z := z mod 2 ^ 16.
Definition u32 (z : Z) : Z := z mod 2 ^ 32.
Definition u64 (z : Z) : Z := z mod 2 ^ 64.
Definition i8 (z : Z) : Z := (z + 2 ^ 7) mod 2 ^ 8 - 2 ^ 7.
Definition i32 (z : Z) : Z := (z + 2 ^ 31) mod 2 ^ 32 - 2 ^ 31.
Definition i64 (z : Z) : Z := (z + 2 ^ 63) mod 2 ^ 64 - 2 ^ 63.

Lemma u64_small z : 0 ≤ z < 2 ^ 64 → u64 z = z.
Proof. intros. unfold u64. by apply Z.mod_small. Qed.
Lemma u32_small z : 0 ≤ z < 2 ^ 32 → u32 z = z.
Proof. intros. unfold u32. by apply Z.mod_small. Qed.
Lemma i32_small z : - 2 ^ 31 ≤ z < 2 ^ 31 → i32 z = z.
Proof. intros. unfold i32. rewrite Z.mod_small; lia. Qed.
Lemma i64_small z : - 2 ^ 63 ≤ z < 2 ^ 63 → i64 z = z.
Proof. intros. unfold i64. rewrite Z.mod_small; lia. Qed.

(** ** C arrays: a list read and written at a [Z] index.  Outside the array
    there is nothing to read. *)
Definition zidx {A} (l : list A) (i : Z) : option A :=
  if decide (0 ≤ i) then l !! Z.to_nat i else None.
Definition zupd {A} (l : list A) (i : Z) (x : A) : option (list A) :=
  if decide (0 ≤ i < Z.of_nat (length l)) then Some (<[Z.to_nat i := x]> l) else None.

Section arrays.
Context {A : Type}.
Implicit Types l : list A.

Lemma zidx_Some l i x :
  zidx l i = Some x ↔ 0 ≤ i < Z.of_nat (length l) ∧ l !! Z.to_nat i = Some x.
Proof.
  unfold zidx. case_decide; split.
  - intros Hl. split; [|done]. apply lookup_lt_Some in Hl. lia.
  - by intros [_ ?].
  - done.
  - intros [? _]. lia.
Qed.

Lemma zidx_is_Some l i : is_Some (zidx l i) ↔ 0 ≤ i < Z.of_nat (length l).
Proof.
  split.
  - intros [x Hx%zidx_Some]. tauto.
  - intros H. unfold zidx. rewrite decide_True by lia. apply lookup_lt_is_Some. lia.
Qed.

Lemma zupd_Some l i x l' :
  zupd l i x = Some l' ↔
  0 ≤ i < Z.of_nat (length l) ∧ l' = <[Z.to_nat i := x]> l.
Proof. unfold zupd. case_decide; naive_solver. Qed.

Lemma zidx_insert l i j x :
  0 ≤ i < Z.of_nat (length l) →
  zidx (<[Z.to_nat i := x]> l) j = if decide (i = j) then Some x else zidx l j.
Proof.
  intros Hi. unfold zidx. case_decide as Hj.
  - case_decide as Hij.
    + subst. rewrite list_lookup_insert_eq by lia. done.
    + rewrite list_lookup_insert_ne by lia. done.
  - rewrite decide_False by lia. done.
Qed.
End arrays.

(** ** Integers in memory: little endian *)
Fixpoint le_bytes (n : nat) (v : Z) : list Z :=
  match n with O => [] | S n => v mod 256 :: le_bytes n (v / 256) end.
Fixpoint le_value (l : list Z) : Z :=
  match l with [] => 0 | b :: l => b + 256 * le_value l end.

Lemma length_le_bytes n v : length (le_bytes n v) = n.
Proof. revert v. induction n; intros v; simpl; [done|]. by rewrite IHn. Qed.

Lemma le_value_bytes n v : 0 ≤ v < 256 ^ Z.of_nat n → le_value (le_bytes n v) = v.
Proof.
  revert v. induction n as [|n IH]; intros v Hv; simpl.
  - change (256 ^ Z.of_nat 0) with 1 in Hv. lia.
  - rewrite Nat2Z.inj_succ, Z.pow_succ_r in Hv by lia. rewrite IH.
    + pose proof (Z.div_mod v 256). lia.
    + split; [apply Z.div_pos; lia|]. apply Z.div_lt_upper_bound; lia.
Qed.

(** An index that is in range stays in range. *)
Lemma list_insert_some {A} (l : list A) i x y : l !! i = Some y → <[i := x]> l !! i = Some x.
Proof. intros H%lookup_lt_Some. by apply list_lookup_insert_eq. Qed.

Lemma bind_ext_elem {A B} (f g : A → list B) (l : list A) :
  (∀ x, x ∈ l → f x = g x) → l ≫= f = l ≫= g.
Proof.
  induction l as [|x l IH]; intros H; [done|]. cbn [mbind list_bind]. f_equal; [apply H; set_solver|].
  apply IH. intros y Hy. apply H. set_solver.
Qed.

(** A check of the numbers below [k], by evaluation. *)
Lemma forallb_upto (P : Z → bool) (k : nat) :
  forallb (λ j, P (Z.of_nat j)) (seq 0 k) = true → ∀ i, 0 ≤ i < Z.of_nat k → P i = true.
Proof.
  intros H i Hi. rewrite forallb_forall in H. specialize (H (Z.to_nat i)). cbv beta in H.
  rewrite Z2Nat.id in H by lia. apply H. apply in_seq. lia.
Qed.

(** ** Tactics *)

(** Run the monadic plumbing of a definition one step. *)
Ltac mstep := unfold mbind, mret, M_bind, M_ret, res_bind, res_ret, gets, modify, lift, panic, fault, hang; cbn.

(** Break a hypothesis-level conjunction or existential everywhere. *)
Ltac break :=
  repeat match goal with
  | H : _ ∧ _ |- _ => destruct H
  | H : ∃ _, _ |- _ => destruct H
  end.
