(* ===== verification/Layout.v ===== *)
(** * Addresses: kernel/memlayout.h and the Sv39 macros of kernel/riscv.h

    Physical and virtual addresses and page table entries are 64-bit unsigned
    numbers. *)
From S2P Require Import Prelude.

Definition PGSIZE : Z := 4096.
Definition PGSHIFT : Z := 12.
Definition PGROUNDUP (sz : Z) : Z := Z.land (u64 (sz + PGSIZE - 1)) (Z.lnot (PGSIZE - 1)).
Definition PGROUNDDOWN (a : Z) : Z := Z.land a (Z.lnot (PGSIZE - 1)).

Definition PTE_V : Z := Z.shiftl 1 0.
Definition PTE_R : Z := Z.shiftl 1 1.
Definition PTE_W : Z := Z.shiftl 1 2.
Definition PTE_X : Z := Z.shiftl 1 3.
Definition PTE_U : Z := Z.shiftl 1 4.
Definition PA2PTE (pa : Z) : Z := u64 (Z.shiftl (Z.shiftr pa 12) 10).
Definition PTE2PA (pte : Z) : Z := u64 (Z.shiftl (Z.shiftr pte 10) 12).
Definition PTE_FLAGS (pte : Z) : Z := Z.land pte 0x3FF.
Definition PXMASK : Z := 0x1FF.
Definition PXSHIFT (level : Z) : Z := PGSHIFT + 9 * level.
Definition PX (level va : Z) : Z := Z.land (Z.shiftr va (PXSHIFT level)) PXMASK.
Definition MAXVA : Z := Z.shiftl 1 (9 + 9 + 9 + 12 - 1).

Definition UART0 : Z := 0x10000000.
Definition VIRTIO0 : Z := 0x10001000.
Definition PLIC : Z := 0x0c000000.
Definition KERNBASE : Z := 0x80000000.
Definition PHYSTOP : Z := KERNBASE + 128 * 1024 * 1024.
Definition TRAMPOLINE : Z := MAXVA - PGSIZE.
Definition KSTACK (p : Z) : Z := TRAMPOLINE - (p + 1) * 2 * PGSIZE.
Definition TRAPFRAME : Z := TRAMPOLINE - PGSIZE.

(** ** Rounding to pages *)

Lemma land_page a : Z.land a (Z.lnot (PGSIZE - 1)) = a / PGSIZE * PGSIZE.
Proof.
  unfold PGSIZE. replace (4096 - 1) with (Z.ones 12) by reflexivity.
  rewrite <- Z.ldiff_land, Z.ldiff_ones_r by lia.
  by rewrite Z.shiftl_mul_pow2, Z.shiftr_div_pow2 by lia.
Qed.

Lemma PGROUNDDOWN_spec a : PGROUNDDOWN a mod PGSIZE = 0 ∧ PGROUNDDOWN a ≤ a < PGROUNDDOWN a + PGSIZE.
Proof.
  unfold PGROUNDDOWN. rewrite land_page. unfold PGSIZE. rewrite Z.mod_mul by lia. split; [done|].
  pose proof (Z.div_mod a 4096). pose proof (Z.mod_pos_bound a 4096). lia.
Qed.

Lemma PGROUNDDOWN_nonneg a : 0 ≤ a → 0 ≤ PGROUNDDOWN a.
Proof.
  intros H. unfold PGROUNDDOWN. rewrite land_page. apply Z.mul_nonneg_nonneg; [|done]. by apply Z.div_pos.
Qed.

Lemma PGROUNDUP_spec sz : 0 ≤ sz < 2 ^ 64 - PGSIZE →
  PGROUNDUP sz mod PGSIZE = 0 ∧ sz ≤ PGROUNDUP sz < sz + PGSIZE.
Proof.
  intros Hsz. unfold PGROUNDUP. rewrite land_page, u64_small by (unfold PGSIZE in *; lia).
  unfold PGSIZE in *. rewrite Z.mod_mul by lia. split; [done|].
  pose proof (Z.div_mod (sz + 4096 - 1) 4096). pose proof (Z.mod_pos_bound (sz + 4096 - 1) 4096). lia.
Qed.

(** A multiple of the page size is determined by any address in its page. *)
Lemma page_unique p q x : p mod PGSIZE = 0 → q mod PGSIZE = 0 →
  p ≤ x < p + PGSIZE → q ≤ x < q + PGSIZE → p = q.
Proof.
  unfold PGSIZE. intros Hp Hq. pose proof (Z.div_mod p 4096). pose proof (Z.div_mod q 4096). lia.
Qed.
Lemma page_add p k : p mod PGSIZE = 0 → (p + k * PGSIZE) mod PGSIZE = 0.
Proof. unfold PGSIZE. intros H. by rewrite Z.mod_add. Qed.

(** ** The three indices of a virtual address *)

Lemma PX_div level va : 0 ≤ level → PX level va = va / 2 ^ (12 + 9 * level) mod 512.
Proof.
  intros H. unfold PX, PXSHIFT, PGSHIFT, PXMASK. replace 0x1FF with (Z.ones 9) by reflexivity.
  rewrite Z.land_ones, Z.shiftr_div_pow2 by lia. done.
Qed.

Lemma PX_range level va : 0 ≤ level → 0 ≤ PX level va < 512.
Proof. intros H. rewrite PX_div by done. apply Z.mod_pos_bound. lia. Qed.

Lemma PX_value va : 0 ≤ va < MAXVA →
  va = PX 2 va * 2 ^ 30 + PX 1 va * 2 ^ 21 + PX 0 va * 2 ^ 12 + va mod PGSIZE.
Proof.
  intros H. rewrite !PX_div by lia. change MAXVA with 274877906944 in H. unfold PGSIZE in *.
  change (2 ^ (12 + 9 * 2)) with (2 ^ 30). change (2 ^ (12 + 9 * 1)) with (2 ^ 21). change (2 ^ (12 + 9 * 0)) with (2 ^ 12).
  rewrite (Z.mod_small (va / 2 ^ 30)) by (split; [apply Z.div_pos; lia|apply Z.div_lt_upper_bound; lia]).
  replace (va / 2 ^ 21) with (va / 2 ^ 12 / 2 ^ 9) by (rewrite Z.div_div by lia; done).
  replace (va / 2 ^ 30) with (va / 2 ^ 12 / 2 ^ 9 / 2 ^ 9) by (rewrite !Z.div_div by lia; done).
  change (2 ^ 12) with 4096. change (2 ^ 9) with 512. change (2 ^ 30) with (512 * 512 * 4096).
  change (2 ^ 21) with (512 * 4096). pose proof (Z.div_mod va 4096 ltac:(lia)) as E0.
  pose proof (Z.div_mod (va / 4096) 512 ltac:(lia)) as E1.
  pose proof (Z.div_mod (va / 4096 / 512) 512 ltac:(lia)) as E2. lia.
Qed.

(** Pages with the same three indices are the same page. *)
Lemma PX_inj va va' : 0 ≤ va < MAXVA → 0 ≤ va' < MAXVA → va mod PGSIZE = 0 → va' mod PGSIZE = 0 →
  PX 2 va = PX 2 va' → PX 1 va = PX 1 va' → PX 0 va = PX 0 va' → va = va'.
Proof. intros H1 H2 Ha Hb E2 E1 E0. rewrite (PX_value va), (PX_value va') by done. congruence. Qed.

(** ** Page table entries *)

Lemma PTE2PA_PA2PTE pa fl : 0 ≤ pa < 2 ^ 56 → pa mod PGSIZE = 0 → 0 ≤ fl < 2 ^ 10 →
  PTE2PA (Z.lor (PA2PTE pa) fl) = pa.
Proof.
  intros Hp Ha Hf. unfold PTE2PA, PA2PTE. rewrite (u64_small (Z.shiftl (Z.shiftr pa 12) 10)).
  - rewrite Z.shiftr_lor, Z.shiftr_shiftl_l by lia. change (10 - 10) with 0. rewrite Z.shiftl_0_r.
    rewrite (Z.shiftr_div_pow2 fl), Z.div_small by lia. rewrite Z.lor_0_r.
    rewrite Z.shiftl_mul_pow2, Z.shiftr_div_pow2 by lia. unfold PGSIZE in Ha.
    pose proof (Z.div_mod pa 4096). change (2 ^ 12) with 4096. rewrite u64_small; lia.
  - rewrite Z.shiftl_mul_pow2, Z.shiftr_div_pow2 by lia. split.
    + apply Z.mul_nonneg_nonneg; [apply Z.div_pos; lia|lia].
    + assert (pa / 2 ^ 12 < 2 ^ 44) by (apply Z.div_lt_upper_bound; lia). lia.
Qed.

(** The low ten bits of an entry are its flags. *)
Lemma PTE_flags_lor pa fl mask : 0 ≤ pa < 2 ^ 56 → 0 ≤ fl < 2 ^ 10 → 0 ≤ mask < 2 ^ 10 →
  Z.land (Z.lor (PA2PTE pa) fl) mask = Z.land fl mask.
Proof.
  intros Hp Hf Hm. rewrite Z.land_lor_distr_l. unfold PA2PTE. unfold u64.
  rewrite <- Z.land_ones, <- Z.land_assoc by lia.
  replace (Z.land (Z.shiftl (Z.shiftr pa 12) 10) (Z.land (Z.ones 64) mask)) with 0; [done|].
  symmetry. apply Z.bits_inj'. intros n Hn. rewrite !Z.land_spec, Z.bits_0.
  destruct (decide (n < 10)).
  - rewrite Z.shiftl_spec_low by done. done.
  - rewrite (Z.bits_above_log2 mask); [by rewrite !andb_false_r|lia|].
    destruct (decide (mask = 0)) as [->|]; [simpl; lia|]. apply Z.log2_lt_pow2; [lia|].
    apply Z.lt_le_trans with (2 ^ 10); [lia|]. apply Z.pow_le_mono_r; lia.
Qed.

Lemma PTE_lor_range pa fl : 0 ≤ pa < 2 ^ 56 → 0 ≤ fl < 2 ^ 10 → 0 ≤ Z.lor (PA2PTE pa) fl < 2 ^ 64.
Proof.
  intros Hp Hf. unfold PA2PTE, u64. set (x := Z.shiftl _ _ mod _).
  assert (Hx : 0 ≤ x < 2 ^ 64) by (apply Z.mod_pos_bound; lia). split; [apply Z.lor_nonneg; lia|].
  destruct (decide (Z.lor x fl = 0)) as [->|Hz]; [lia|].
  assert (0 ≤ Z.lor x fl) by (apply Z.lor_nonneg; lia).
  apply Z.log2_lt_pow2; [lia|]. rewrite Z.log2_lor by lia. apply Z.max_lub_lt.
  - destruct (decide (x = 0)) as [->|]; [simpl; lia|]. apply Z.log2_lt_pow2; lia.
  - destruct (decide (fl = 0)) as [->|]; [simpl; lia|].
    apply Z.lt_le_trans with 10; [apply Z.log2_lt_pow2; lia|lia].
Qed.
