(* ===== verification/Spinlock.v ===== *)
(** * Spin locks and interrupt nesting: kernel/spinlock.c

    A [hart] holds what the code keeps per CPU: the interrupt-enable bit of
    [sstatus] and the [noff]/[intena] words of [struct cpu].  [push_off],
    [pop_off], [acquire], [release] and [holding] are functions on a lock and
    the hart that runs them.  A component with locks in its state gives an
    instance of [HasLocks] and uses [acquireM]/[releaseM].  The last section
    is the race between harts: the atomic steps of [acquire] and [release] of
    any number of harts on one lock, interleaved in any order. *)
From S2P Require Import Prelude.

Record spinlock := mklock { lk_name : string; lk_locked : Z; lk_cpu : option nat }.

Record hart := mkhart { hartid : nat; sie : bool; noff : Z; intena : bool }.

Definition initlock (name : string) : spinlock := mklock name 0 None.

Definition push_off (h : hart) : hart :=
  let old := sie h in
  mkhart (hartid h) false (noff h + 1) (if bool_decide (noff h = 0) then old else intena h).

Definition pop_off (h : hart) : res hart :=
  if sie h then Panic "pop_off - interruptible"
  else if bool_decide (noff h < 1) then Panic "pop_off"
  else
    let n := noff h - 1 in
    Ok (mkhart (hartid h) (if bool_decide (n = 0) && intena h then true else sie h) n (intena h)).

Definition holding (lk : spinlock) (h : hart) : bool :=
  bool_decide (lk_locked lk ≠ 0) && bool_decide (lk_cpu lk = Some (hartid h)).

(** [__sync_lock_test_and_set(&lk->locked, 1)] and the assignments to [cpu]. *)
Definition test_and_set (lk : spinlock) : Z * spinlock :=
  (lk_locked lk, mklock (lk_name lk) 1 (lk_cpu lk)).
Definition set_cpu (c : option nat) (lk : spinlock) : spinlock :=
  mklock (lk_name lk) (lk_locked lk) c.
Definition lock_release (lk : spinlock) : spinlock :=
  mklock (lk_name lk) 0 (lk_cpu lk).

(** [acquire] as one hart runs it alone.  A lock that another hart holds is
    never released while this hart spins: [Hang]. *)
Definition acquire (lk : spinlock) (h : hart) : res (spinlock * hart) :=
  let h1 := push_off h in
  if holding lk h1 then Panic "acquire"
  else
    let '(old, lk1) := test_and_set lk in
    if bool_decide (old ≠ 0) then Hang
    else Ok (set_cpu (Some (hartid h1)) lk1, h1).

Definition release (lk : spinlock) (h : hart) : res (spinlock * hart) :=
  if negb (holding lk h) then Panic "release"
  else
    h' ← pop_off h;
    Ok (lock_release (set_cpu None lk), h').

(** ** Locks inside a component's state *)

Class HasLocks (S L : Type) := {
  get_hart : S → hart;
  set_hart : hart → S → S;
  get_lock : L → S → spinlock;
  set_lock : L → spinlock → S → S }.

Section locks.
Context {S L : Type} `{!HasLocks S L}.

Definition acquireM (l : L) : M S unit := λ s,
  '(lk, h) ← acquire (get_lock l s) (get_hart s);
  Ok (tt, set_hart h (set_lock l lk s)).
Definition releaseM (l : L) : M S unit := λ s,
  '(lk, h) ← release (get_lock l s) (get_hart s);
  Ok (tt, set_hart h (set_lock l lk s)).
Definition holdingM (l : L) : M S bool :=
  gets (λ s, holding (get_lock l s) (get_hart s)).
End locks.

(** ** Facts about one hart *)

(** Interrupts are off whenever a [push_off] is pending. *)
Definition hart_ok (h : hart) : Prop := 0 ≤ noff h ∧ (0 < noff h → sie h = false).
Definition lock_free (lk : spinlock) : Prop := lk_locked lk = 0.
Definition held_by (i : nat) (lk : spinlock) : spinlock := mklock (lk_name lk) 1 (Some i).
Definition freed (lk : spinlock) : spinlock := mklock (lk_name lk) 0 None.

(** The hart after a matched [push_off] and [pop_off]: only [intena] may have
    been overwritten. *)
Definition settle (h : hart) : hart :=
  mkhart (hartid h) (sie h) (noff h) (if bool_decide (noff h = 0) then sie h else intena h).

Lemma push_off_ok h : hart_ok h → hart_ok (push_off h).
Proof. intros [H _]. split; simpl; [lia|done]. Qed.

Lemma settle_ok h : hart_ok h → hart_ok (settle h).
Proof. done. Qed.

Lemma pop_push_off h : hart_ok h → pop_off (push_off h) = Ok (settle h).
Proof.
  intros [H1 H2]. unfold pop_off, push_off, settle. simpl.
  rewrite bool_decide_false by lia. do 2 f_equal; [|lia].
  rewrite (bool_decide_ext (noff h + 1 - 1 = 0) (noff h = 0)) by lia.
  case_bool_decide as Hn; simpl; [by destruct (sie h)|].
  symmetry. apply H2. lia.
Qed.

Lemma acquire_ok lk h :
  lock_free lk → acquire lk h = Ok (held_by (hartid h) lk, push_off h).
Proof.
  unfold lock_free, acquire, holding, test_and_set. intros ->.
  by rewrite (bool_decide_false (0 ≠ 0)) by tauto.
Qed.

Lemma release_ok lk h :
  hart_ok h → release (held_by (hartid h) lk) (push_off h) = Ok (freed lk, settle h).
Proof.
  intros Hh. unfold release, holding, held_by. simpl.
  rewrite !bool_decide_true by done. simpl.
  by rewrite (pop_push_off h Hh).
Qed.

Lemma acquire_again lk h : acquire (held_by (hartid h) lk) h = Panic "acquire".
Proof. unfold acquire, holding, held_by. simpl. by rewrite !bool_decide_true by done. Qed.

(** ** Nesting *)

Inductive intr_op := Push | Pop.

Definition run_intr (o : intr_op) (h : hart) : res hart :=
  match o with Push => Ok (push_off h) | Pop => pop_off h end.
Fixpoint run_intrs (l : list intr_op) (h : hart) : res hart :=
  match l with
  | [] => Ok h
  | o :: l' => h' ← run_intr o h; run_intrs l' h'
  end.

(** Every [push_off] is matched by a later [pop_off]. *)
Inductive balanced : list intr_op → Prop :=
  | bal_nil : balanced []
  | bal_nest l1 l2 : balanced l1 → balanced l2 → balanced (Push :: l1 ++ Pop :: l2).

Lemma run_intrs_app l1 l2 h :
  run_intrs (l1 ++ l2) h = h' ← run_intrs l1 h; run_intrs l2 h'.
Proof.
  revert h. induction l1 as [|o l1 IH]; intros h; [done|]. simpl.
  unfold mbind, res_bind in *. by destruct (run_intr o h).
Qed.

(** Same interrupt state, same depth; [intena] is only meaningful while a
    [push_off] is pending. *)
Definition hart_same (h h' : hart) : Prop :=
  hartid h' = hartid h ∧ sie h' = sie h ∧ noff h' = noff h ∧
  (0 < noff h → intena h' = intena h).

#[global] Instance hart_same_preorder : PreOrder hart_same.
Proof.
  split; [done|]. intros x y z (A1 & A2 & A3 & A4) (B1 & B2 & B3 & B4).
  split_and!; try congruence. intros H. rewrite B4, A4 by lia. done.
Qed.

(** [push_off] and [pop_off] nest.  Any properly bracketed sequence of
    them, however deep, runs without a panic and leaves the interrupt-enable
    bit and the depth exactly as they were: interrupts come back only with the
    outermost [pop_off], and stay off if they were off to begin with. *)
Theorem push_pop_nesting l h :
  balanced l → hart_ok h → ∃ h', run_intrs l h = Ok h' ∧ hart_same h h' ∧ hart_ok h'.
Proof.
  intros Hl. revert h. induction Hl as [|l1 l2 _ IH1 _ IH2]; intros h Hh.
  - by exists h.
  - destruct (IH1 (push_off h) (push_off_ok h Hh)) as (h1 & E1 & (I1 & S1 & N1 & T1) & O1).
    simpl in *.
    assert (Hp : pop_off h1 = Ok (settle h)).
    { rewrite <- (pop_push_off h Hh). unfold pop_off, push_off.
      rewrite I1, S1, N1. simpl. destruct Hh as [Hh _].
      rewrite T1 by lia. done. }
    destruct (IH2 (settle h) (settle_ok h Hh)) as (h2 & E2 & Hs2 & O2).
    exists h2. split_and!; [|etrans; [|exact Hs2]|done].
    + rewrite run_intrs_app, E1. simpl. rewrite Hp. done.
    + split_and!; try done. simpl. intros H. rewrite bool_decide_false by lia. done.
Qed.

Lemma push_pop_nesting_witness :
  ∃ h', run_intrs [Push; Push; Pop; Push; Pop; Pop] (mkhart 0 true 0 false) = Ok h' ∧
    hart_same (mkhart 0 true 0 false) h' ∧ hart_ok h'.
Proof.
  apply (push_pop_nesting [Push; Push; Pop; Push; Pop; Pop]).
  - apply (bal_nest [Push; Pop; Push; Pop] []); [|constructor].
    apply (bal_nest [] [Push; Pop]); [constructor|].
    apply (bal_nest [] []); constructor.
  - split; simpl; [lia|intros H; lia].
Defined.

(** ** The race between harts *)

(** Where a hart is in [acquire]/[release] of the lock. *)
Inductive pc : Type :=
  | Outside      (** not using the lock *)
  | Spinning     (** in the [while] of [acquire] *)
  | Swapped      (** the atomic swap returned 0; [cpu] not yet recorded *)
  | Inside       (** [acquire] has returned *)
  | Leaving.     (** in [release], [cpu] cleared, [locked] not yet *)

#[global] Instance pc_eq_dec : EqDecision pc.
Proof. solve_decision. Defined.

Record shared := mkshared { sh_lock : spinlock; sh_pc : nat → pc; sh_panic : bool }.

Definition pc_set (h : nat) (p : pc) (f : nat → pc) : nat → pc :=
  λ k, if decide (k = h) then p else f k.
Definition on_hart (h : nat) : hart := mkhart h false 1 true.

(** One atomic step of one hart. *)
Inductive race : shared → shared → Prop :=
  | race_enter h s : sh_pc s h = Outside →
      holding (sh_lock s) (on_hart h) = false →
      race s (mkshared (sh_lock s) (pc_set h Spinning (sh_pc s)) (sh_panic s))
  | race_enter_panic h s : sh_pc s h = Outside →
      holding (sh_lock s) (on_hart h) = true →
      race s (mkshared (sh_lock s) (sh_pc s) true)
  | race_swap h s old lk : sh_pc s h = Spinning →
      test_and_set (sh_lock s) = (old, lk) →
      race s (mkshared lk (pc_set h (if bool_decide (old ≠ 0) then Spinning else Swapped) (sh_pc s)) (sh_panic s))
  | race_record h s : sh_pc s h = Swapped →
      race s (mkshared (set_cpu (Some h) (sh_lock s)) (pc_set h Inside (sh_pc s)) (sh_panic s))
  | race_leave h s : sh_pc s h = Inside →
      holding (sh_lock s) (on_hart h) = true →
      race s (mkshared (set_cpu None (sh_lock s)) (pc_set h Leaving (sh_pc s)) (sh_panic s))
  | race_leave_panic h s : sh_pc s h = Inside →
      holding (sh_lock s) (on_hart h) = false →
      race s (mkshared (sh_lock s) (sh_pc s) true)
  | race_unlock h s : sh_pc s h = Leaving →
      race s (mkshared (lock_release (sh_lock s)) (pc_set h Outside (sh_pc s)) (sh_panic s)).

Definition owns (p : pc) : Prop := p = Swapped ∨ p = Inside ∨ p = Leaving.
Definition race0 (name : string) : shared := mkshared (initlock name) (λ _, Outside) false.

(** The lock word is 0 and nobody owns it, or it is 1 and one hart does; the
    recorded CPU is the owner's while it is inside. *)
Definition race_inv (s : shared) : Prop :=
  sh_panic s = false ∧
  ∃ owner : option nat,
    (∀ h, owns (sh_pc s h) ↔ owner = Some h) ∧
    lk_locked (sh_lock s) = (if owner is Some _ then 1 else 0) ∧
    lk_cpu (sh_lock s) =
      match owner with
      | Some o => if decide (sh_pc s o = Inside) then Some o else None
      | None => None
      end.

Lemma pc_set_eq h p f : pc_set h p f h = p.
Proof. unfold pc_set. by rewrite decide_True. Qed.
Lemma pc_set_ne h p f k : k ≠ h → pc_set h p f k = f k.
Proof. intros. unfold pc_set. by rewrite decide_False. Qed.

(** An owner whose program counter changes but stays an owner's. *)
Lemma owns_stay h p f owner :
  (∀ k, owns (f k) ↔ owner = Some k) → owner = Some h → owns p →
  ∀ k, owns (pc_set h p f k) ↔ owner = Some k.
Proof.
  intros HO E Hp k. destruct (decide (k = h)) as [->|Hne].
  - rewrite pc_set_eq. tauto.
  - by rewrite pc_set_ne.
Qed.

(** A hart that owns nothing before or after. *)
Lemma owns_none h p f owner :
  (∀ k, owns (f k) ↔ owner = Some k) → ¬ owns (f h) → ¬ owns p →
  ∀ k, owns (pc_set h p f k) ↔ owner = Some k.
Proof.
  intros HO Hf Hp k. destruct (decide (k = h)) as [->|Hne].
  - rewrite pc_set_eq, <- HO. tauto.
  - by rewrite pc_set_ne.
Qed.

Ltac owns_dec := unfold owns in *; intuition congruence.

Lemma race_inv_step s s' : race s s' → race_inv s → race_inv s'.
Proof.
  intros Hs (Hp & owner & HO & HL & HC).
  destruct Hs as [h s Hpc Hh|h s Hpc Hh|h s old lk Hpc Ht|h s Hpc|h s Hpc Hh|h s Hpc Hh|h s Hpc];
    unfold race_inv; simpl; (assert (Hoh := HO h); rewrite Hpc in Hoh).
  - split; [done|]. exists owner. split_and!; [|done|].
    + apply owns_none; [done| |]; rewrite ?Hpc; owns_dec.
    + rewrite HC. destruct owner as [o|]; [|done].
      rewrite pc_set_ne; [done|]. intros ->. assert (owns Outside) by tauto. owns_dec.
  - exfalso. unfold holding in Hh. apply andb_prop in Hh as [_ Hh%bool_decide_eq_true].
    rewrite HC in Hh. destruct owner as [o|]; [|done]. case_decide; simplify_eq.
    simpl in *. congruence.
  - split; [done|]. injection Ht as <- <-. simpl. rewrite HL.
    destruct owner as [o|]; case_bool_decide; try lia.
    + exists (Some o). split_and!; [|done|].
      * apply owns_none; [done| |]; rewrite ?Hpc; owns_dec.
      * rewrite HC, pc_set_ne; [done|]. intros ->. assert (owns Spinning) by tauto. owns_dec.
    + exists (Some h). split_and!; [|done|by rewrite pc_set_eq].
      intros k. destruct (decide (k = h)) as [->|Hne].
      * rewrite pc_set_eq. owns_dec.
      * rewrite pc_set_ne by done. rewrite HO. split; congruence.
  - split; [done|]. assert (E : owner = Some h) by (apply Hoh; owns_dec).
    exists owner. split_and!; [apply owns_stay; [done|done|owns_dec]|done|].
    rewrite E, pc_set_eq. done.
  - split; [done|]. assert (E : owner = Some h) by (apply Hoh; owns_dec).
    exists owner. split_and!; [apply owns_stay; [done|done|owns_dec]|done|].
    rewrite E, pc_set_eq. done.
  - exfalso. assert (E : owner = Some h) by (apply Hoh; owns_dec). subst owner.
    unfold holding in Hh. rewrite HL, HC, decide_True in Hh by done.
    simpl in Hh. by rewrite bool_decide_true in Hh by done.
  - split; [done|]. assert (E : owner = Some h) by (apply Hoh; owns_dec). subst owner.
    exists None. split_and!; [|done|].
    + intros k. destruct (decide (k = h)) as [->|Hne].
      * rewrite pc_set_eq. owns_dec.
      * rewrite pc_set_ne by done. rewrite HO. split; congruence.
    + rewrite HC, Hpc. done.
Qed.

Lemma race_inv_init name : race_inv (race0 name).
Proof. split; [done|]. exists None. split_and!; [|done..]. intros h. simpl. owns_dec. Qed.

Lemma race_inv_reach name s : rtc race (race0 name) s → race_inv s.
Proof.
  intros H. pose proof (race_inv_init name) as HI. revert HI.
  induction H as [|x y z Hs _ IH]; intros HI; [done|].
  by eapply IH, race_inv_step.
Qed.

(** C10: mutual exclusion.  However the atomic steps of [acquire] and
    [release] of any number of harts interleave on a fresh lock, at most one
    hart is between the successful swap of [acquire] and the final store of
    [release]; a hart inside always sees itself as the holder, so the
    [release] panic is never reached, nor the [acquire] panic by a hart that
    does not hold the lock. *)
Theorem spinlock_mutual_exclusion name s h1 h2 :
  rtc race (race0 name) s →
  (owns (sh_pc s h1) → owns (sh_pc s h2) → h1 = h2) ∧
  (sh_pc s h1 = Inside → holding (sh_lock s) (on_hart h1) = true) ∧
  sh_panic s = false.
Proof.
  intros (Hp & owner & HO & HL & HC)%race_inv_reach. split_and!; [| |done].
  - rewrite !HO. congruence.
  - intros Hi. assert (E : owner = Some h1) by (apply HO; rewrite Hi; owns_dec).
    unfold holding. rewrite HL, HC, E, decide_True by done. simpl.
    by rewrite bool_decide_true.
Qed.

Lemma spinlock_mutual_exclusion_witness :
  ∃ s, rtc race (race0 "pid") s ∧ sh_pc s 1%nat = Inside ∧ sh_pc s 2%nat = Spinning ∧
    holding (sh_lock s) (on_hart 1) = true ∧ sh_panic s = false.
Proof.
  eexists (mkshared (mklock "pid" 1 (Some 1%nat)) _ false).
  assert (R : rtc race (race0 "pid")
     (mkshared (mklock "pid" 1 (Some 1%nat))
        (pc_set 1 Inside (pc_set 2 Spinning (pc_set 1 Swapped (pc_set 2 Spinning (pc_set 1 Spinning (λ _, Outside))))))
        false)).
  { eapply rtc_l; [apply (race_enter 1%nat (race0 "pid")); done|].
    eapply rtc_l; [apply (race_enter 2%nat); done|].
    eapply rtc_l; [eapply (race_swap 1%nat); done|].
    eapply rtc_l; [eapply (race_swap 2%nat); done|].
    eapply rtc_l; [apply (race_record 1%nat); done|]. apply rtc_refl. }
  destruct (spinlock_mutual_exclusion "pid" _ 1%nat 2%nat R) as (_ & Hh & Hp).
  split_and!; [exact R|done|done|apply Hh; done|exact Hp].
Defined.
