(* ===== verification/Queue.v ===== *)
(** * The process queues of the scheduler: kernel/queue.c and kernel/queue.h

    Three doubly linked lists share one table [qtable].  The first [NPROC]
    entries are the nodes of the processes; queue [q] has its head at
    [NPROC + 2q] and its tail at [NPROC + 2q + 1].  The definitions follow the
    C statement by statement over the state [list qentry]; an index outside
    the table is a [Fault].  The abstraction [rep] relates a table to three
    lists of process indices, and every operation is proved to be the list
    operation it stands for.  The last part is about the search loop of
    [dequeue], whose counter is unsigned: with every queue empty it runs on
    into the entries of the processes. *)
From S2P Require Import Prelude.

Definition NPROC : Z := 64.
Definition EMPTY : Z := -1.
Definition NUM_QUEUES : Z := 3.
Definition QTABLE_SIZE : Z := NPROC + 2 * NUM_QUEUES.
Definition QUEUE_HIGH : Z := 2.
Definition QUEUE_MEDIUM : Z := 1.
Definition QUEUE_LOW : Z := 0.
Definition DEFAULT_PASS : Z := 1.
Definition UINT16_MAX : Z := 65535.

(** [struct qentry]: the three words of a node. *)
Record qentry := mkq { pass : Z; prev : Z; next : Z }.

(** The macros [gethead], [gettail]. *)
Definition gethead (q : Z) : Z := NPROC + Z.shiftl q 1.
Definition gettail (q : Z) : Z := NPROC + Z.shiftl q 1 + 1.

(** [qtable[i].f] and [qtable[i].f = v]. *)
Definition rd (f : qentry → Z) (i : Z) : M (list qentry) Z := λ qt,
  match zidx qt i with Some e => Ok (f e, qt) | None => Fault end.
Definition upd (f : qentry → qentry) (i : Z) : M (list qentry) unit := λ qt,
  match zidx qt i with
  | Some e => Ok (tt, <[Z.to_nat i := f e]> qt)
  | None => Fault
  end.
Definition set_pass (v i : Z) := upd (λ e, mkq v (prev e) (next e)) i.
Definition set_prev (v i : Z) := upd (λ e, mkq (pass e) v (next e)) i.
Definition set_next (v i : Z) := upd (λ e, mkq (pass e) (prev e) v) i.

(** The macros [firstid] and [nonempty]. *)
Definition firstid (q : Z) : M (list qentry) Z := rd next q.
Definition nonempty (q : Z) : M (list qentry) bool :=
  f ← firstid q; mret (bool_decide (f < NPROC)).

Definition enqueue (queue_num to_insert p : Z) : M (list qentry) unit :=
  let curr := gethead queue_num in
  set_pass p to_insert ;;
  n ← rd next curr;
  set_next n to_insert ;;
  set_prev curr to_insert ;;
  set_next to_insert curr ;;
  n' ← rd next to_insert;
  set_prev to_insert n'.

Definition enqueue_back (queue_num to_insert p : Z) : M (list qentry) unit :=
  curr ← rd prev (gettail queue_num);
  set_pass p to_insert ;;
  n ← rd next curr;
  set_next n to_insert ;;
  set_prev curr to_insert ;;
  set_next to_insert curr ;;
  n' ← rd next to_insert;
  set_prev to_insert n'.

Definition remove_pid (pid_to_delete : Z) : M (list qentry) unit :=
  p ← rd prev pid_to_delete;
  n ← rd next pid_to_delete;
  set_next n p ;;
  n' ← rd next pid_to_delete;
  p' ← rd prev pid_to_delete;
  set_prev p' n' ;;
  set_next 999 pid_to_delete ;;
  set_prev 999 pid_to_delete.

(** [for (i = QUEUE_HIGH; i >= QUEUE_LOW; --i)] of [dequeue], with [i] a
    [uint64_t].  [None] is the normal exit of the loop, [Some idx] the
    [break]. *)
Fixpoint dequeue_scan (fuel : nat) (i : Z) : M (list qentry) (option Z) :=
  match fuel with
  | O => hang
  | S fuel' =>
      if bool_decide (QUEUE_LOW ≤ i) then
        let idx := u64 (NPROC + u64 (Z.shiftl i 1)) in
        ne ← nonempty idx;
        if (ne : bool) then mret (Some idx)
        else dequeue_scan fuel' (u64 (i - 1))
      else mret None
  end.

(** At most 36 iterations: 68, 66, 64, 62, ..., 2, 0, then an index outside
    the table. *)
Definition SCAN_FUEL : nat := 36.

Definition dequeue : M (list qentry) Z :=
  found ← dequeue_scan SCAN_FUEL QUEUE_HIGH;
  let head := match found with Some idx => i32 idx | None => EMPTY end in
  if bool_decide (head = EMPTY) then mret head
  else
    to_delete ← firstid head;
    remove_pid (i32 to_delete) ;;
    mret (i64 to_delete).

(** [for (i = QTABLE_SIZE - (num_queues << 1); i < QTABLE_SIZE; i += 2)] *)
Fixpoint initialize_loop (k : nat) (i : Z) : M (list qentry) unit :=
  match k with
  | O => mret tt
  | S k' =>
      set_next (i + 1) i ;;
      set_prev i (i + 1) ;;
      set_pass 0 i ;;
      set_pass UINT16_MAX (i + 1) ;;
      initialize_loop k' (i + 2)
  end.
Definition initialize (num_queues : Z) : M (list qentry) unit :=
  initialize_loop (Z.to_nat num_queues) (QTABLE_SIZE - Z.shiftl num_queues 1).

(** The table of a freshly loaded kernel: zeroed storage. *)
Definition qtable0 : list qentry := replicate (Z.to_nat QTABLE_SIZE) (mkq 0 0 0).

(** ** Abstraction *)

Definition nxt (qt : list qentry) (i : Z) : option Z := next <$> zidx qt i.
Definition prv (qt : list qentry) (i : Z) : option Z := prev <$> zidx qt i.

(** The nodes of [p], in order, are linked both ways. *)
Fixpoint linked (qt : list qentry) (p : list Z) : Prop :=
  match p with
  | a :: (b :: _) as p' => nxt qt a = Some b ∧ prv qt b = Some a ∧ linked qt p'
  | _ => True
  end.

Definition path (q : Z) (l : list Z) : list Z := gethead q :: l ++ [gettail q].

(** The contents of the three queues, LOW first. *)
Record queues := mkqs { qlow : list Z; qmed : list Z; qhigh : list Z }.
Definition qget (Q : queues) (k : Z) : list Z :=
  if decide (k = QUEUE_LOW) then qlow Q
  else if decide (k = QUEUE_MEDIUM) then qmed Q else qhigh Q.
Definition qset (Q : queues) (k : Z) (l : list Z) : queues :=
  if decide (k = QUEUE_LOW) then mkqs l (qmed Q) (qhigh Q)
  else if decide (k = QUEUE_MEDIUM) then mkqs (qlow Q) l (qhigh Q)
  else mkqs (qlow Q) (qmed Q) l.
Definition qall (Q : queues) : list Z := qlow Q ++ qmed Q ++ qhigh Q.
Definition is_queue (k : Z) : Prop := QUEUE_LOW ≤ k ≤ QUEUE_HIGH.

Record rep (qt : list qentry) (Q : queues) : Prop := mkrep {
  rep_length : Z.of_nat (length qt) = QTABLE_SIZE;
  rep_nodup : NoDup (qall Q);
  rep_range : ∀ x, x ∈ qall Q → 0 ≤ x < NPROC;
  rep_linked : ∀ k, is_queue k → linked qt (path k (qget Q k)) }.

(** ** Running the table accesses *)
Section accesses.
Implicit Types qt : list qentry.

Lemma rd_ok f i qt e : zidx qt i = Some e → rd f i qt = Ok (f e, qt).
Proof. intros H. unfold rd. by rewrite H. Qed.

Lemma upd_ok f i qt e :
  zidx qt i = Some e → upd f i qt = Ok (tt, <[Z.to_nat i := f e]> qt).
Proof. intros H. unfold upd. by rewrite H. Qed.

Lemma nxt_Some qt i v : nxt qt i = Some v ↔ ∃ e, zidx qt i = Some e ∧ next e = v.
Proof. unfold nxt. destruct (zidx qt i); naive_solver. Qed.
Lemma prv_Some qt i v : prv qt i = Some v ↔ ∃ e, zidx qt i = Some e ∧ prev e = v.
Proof. unfold prv. destruct (zidx qt i); naive_solver. Qed.

Lemma nxt_range qt i v : nxt qt i = Some v → 0 ≤ i < Z.of_nat (length qt).
Proof. intros (e & [? _]%zidx_Some & _)%nxt_Some. done. Qed.
Lemma prv_range qt i v : prv qt i = Some v → 0 ≤ i < Z.of_nat (length qt).
Proof. intros (e & [? _]%zidx_Some & _)%prv_Some. done. Qed.

(** Effect of one assignment on the links. *)
Definition agree_upd (i : Z) (dn dp : option Z) (qt qt' : list qentry) : Prop :=
  length qt' = length qt ∧
  (∀ j, nxt qt' j = if decide (j = i) then (match dn with Some v => Some v | None => nxt qt j end)
                    else nxt qt j) ∧
  (∀ j, prv qt' j = if decide (j = i) then (match dp with Some v => Some v | None => prv qt j end)
                    else prv qt j).

Ltac solve_agree :=
  intros qt v i Hr; pose proof Hr as Hi;
  apply zidx_is_Some in Hi as [e He]; eexists;
  split; [exact (upd_ok _ _ _ e He)|];
  split; [by rewrite length_insert|];
  split; intros j; unfold nxt, prv; rewrite zidx_insert by exact Hr;
  repeat case_decide; subst; rewrite ?He; try done; congruence.

Lemma set_next_ok : ∀ qt v i, 0 ≤ i < Z.of_nat (length qt) →
  ∃ qt', set_next v i qt = Ok (tt, qt') ∧ agree_upd i (Some v) None qt qt'.
Proof. solve_agree. Qed.
Lemma set_prev_ok : ∀ qt v i, 0 ≤ i < Z.of_nat (length qt) →
  ∃ qt', set_prev v i qt = Ok (tt, qt') ∧ agree_upd i None (Some v) qt qt'.
Proof. solve_agree. Qed.
Lemma set_pass_ok : ∀ qt v i, 0 ≤ i < Z.of_nat (length qt) →
  ∃ qt', set_pass v i qt = Ok (tt, qt') ∧ agree_upd i None None qt qt'.
Proof. solve_agree. Qed.

Lemma rd_next_ok qt i v : nxt qt i = Some v → rd next i qt = Ok (v, qt).
Proof. intros (e & He & <-)%nxt_Some. by apply rd_ok. Qed.
Lemma rd_prev_ok qt i v : prv qt i = Some v → rd prev i qt = Ok (v, qt).
Proof. intros (e & He & <-)%prv_Some. by apply rd_ok. Qed.
End accesses.

(** ** Inserting between two linked nodes *)
Definition splice (curr to_insert p : Z) : M (list qentry) unit :=
  set_pass p to_insert ;;
  n ← rd next curr;
  set_next n to_insert ;;
  set_prev curr to_insert ;;
  set_next to_insert curr ;;
  n' ← rd next to_insert;
  set_prev to_insert n'.

Lemma bind_ok {S A B} (m : M S A) (f : A → M S B) s a s' :
  m s = Ok (a, s') → (m ≫= f) s = f a s'.
Proof. intros H. unfold mbind, M_bind. by rewrite H. Qed.

Lemma splice_ok qt a b x p :
  nxt qt a = Some b → 0 ≤ b < Z.of_nat (length qt) → 0 ≤ x < Z.of_nat (length qt) →
  a ≠ x → b ≠ x →
  ∃ qt', splice a x p qt = Ok (tt, qt') ∧ length qt' = length qt ∧
    (∀ j, nxt qt' j = if decide (j = a) then Some x else if decide (j = x) then Some b else nxt qt j) ∧
    (∀ j, prv qt' j = if decide (j = b) then Some x else if decide (j = x) then Some a else prv qt j).
Proof.
  intros Hn Hb Hx Hax Hbx. pose proof (nxt_range _ _ _ Hn) as Ha. unfold splice.
  destruct (set_pass_ok qt p x Hx) as (q1 & E1 & L1 & N1 & P1).
  rewrite (bind_ok _ _ _ _ _ E1).
  assert (Hn1 : nxt q1 a = Some b) by (rewrite N1; by case_decide).
  rewrite (bind_ok _ _ _ _ _ (rd_next_ok _ _ _ Hn1)).
  destruct (set_next_ok q1 b x) as (q2 & E2 & L2 & N2 & P2); [lia|].
  rewrite (bind_ok _ _ _ _ _ E2).
  destruct (set_prev_ok q2 a x) as (q3 & E3 & L3 & N3 & P3); [lia|].
  rewrite (bind_ok _ _ _ _ _ E3).
  destruct (set_next_ok q3 x a) as (q4 & E4 & L4 & N4 & P4); [lia|].
  rewrite (bind_ok _ _ _ _ _ E4).
  assert (Hn4 : nxt q4 x = Some b).
  { rewrite N4, N3, N2. repeat case_decide; congruence. }
  rewrite (bind_ok _ _ _ _ _ (rd_next_ok _ _ _ Hn4)).
  destruct (set_prev_ok q4 x b) as (q5 & E5 & L5 & N5 & P5); [lia|].
  exists q5. split; [done|]. split; [lia|]. split; intros j.
  - rewrite N5, N4, N3, N2, N1. repeat case_decide; congruence.
  - rewrite P5, P4, P3, P2, P1. repeat case_decide; congruence.
Qed.

(** Unlinking a node. *)
Lemma remove_ok qt a x b :
  nxt qt a = Some x → prv qt x = Some a → nxt qt x = Some b → prv qt b = Some x →
  a ≠ x → b ≠ x →
  ∃ qt', remove_pid x qt = Ok (tt, qt') ∧ length qt' = length qt ∧
    (∀ j, nxt qt' j = if decide (j = x) then Some 999 else if decide (j = a) then Some b else nxt qt j) ∧
    (∀ j, prv qt' j = if decide (j = x) then Some 999 else if decide (j = b) then Some a else prv qt j).
Proof.
  intros Hna Hpx Hnx Hpb Hax Hbx.
  pose proof (nxt_range _ _ _ Hna). pose proof (prv_range _ _ _ Hpx).
  pose proof (prv_range _ _ _ Hpb). unfold remove_pid.
  rewrite (bind_ok _ _ _ _ _ (rd_prev_ok _ _ _ Hpx)).
  rewrite (bind_ok _ _ _ _ _ (rd_next_ok _ _ _ Hnx)).
  destruct (set_next_ok qt b a) as (q1 & E1 & L1 & N1 & P1); [lia|].
  rewrite (bind_ok _ _ _ _ _ E1).
  assert (Hn1 : nxt q1 x = Some b) by (rewrite N1; case_decide; congruence).
  assert (Hp1 : prv q1 x = Some a) by (rewrite P1; case_decide; congruence).
  rewrite (bind_ok _ _ _ _ _ (rd_next_ok _ _ _ Hn1)).
  rewrite (bind_ok _ _ _ _ _ (rd_prev_ok _ _ _ Hp1)).
  destruct (set_prev_ok q1 a b) as (q2 & E2 & L2 & N2 & P2); [lia|].
  rewrite (bind_ok _ _ _ _ _ E2).
  destruct (set_next_ok q2 999 x) as (q3 & E3 & L3 & N3 & P3); [lia|].
  rewrite (bind_ok _ _ _ _ _ E3).
  destruct (set_prev_ok q3 999 x) as (q4 & E4 & L4 & N4 & P4); [lia|].
  exists q4. split; [done|]. split; [lia|]. split; intros j.
  - rewrite N4, N3, N2, N1. repeat case_decide; congruence.
  - rewrite P4, P3, P2, P1. repeat case_decide; congruence.
Qed.

(** ** Lists of linked nodes *)
Section linked_lists.
Implicit Types qt : list qentry.
Implicit Types p : list Z.

Lemma linked_cons2 qt a b p :
  linked qt (a :: b :: p) ↔ nxt qt a = Some b ∧ prv qt b = Some a ∧ linked qt (b :: p).
Proof. done. Qed.

Lemma linked_app qt p a r :
  linked qt (p ++ a :: r) ↔ linked qt (p ++ [a]) ∧ linked qt (a :: r).
Proof.
  induction p as [|x p IH]; simpl; [naive_solver|].
  destruct p as [|y p]; simpl in *; [naive_solver|]. rewrite IH. naive_solver.
Qed.

Lemma linked_frame qt qt' p :
  linked qt p →
  (∀ a, a ∈ p → Some a ≠ last p → nxt qt' a = nxt qt a) →
  (∀ b, b ∈ p → Some b ≠ head p → prv qt' b = prv qt b) →
  NoDup p → linked qt' p.
Proof.
  induction p as [|a [|b p] IH]; intros HL HN HP HD; [done|done|].
  apply linked_cons2 in HL as (Hn & Hp & HL).
  apply NoDup_cons in HD as [Ha HD]. apply linked_cons2. split_and!.
  - rewrite HN; [done|set_solver|]. simpl. intros E.
    symmetry in E. apply last_Some_elem_of in E. set_solver.
  - rewrite HP; [done|set_solver|]. simpl. set_solver.
  - apply IH; [done| | |done].
    + intros c Hc Hl. apply HN; [set_solver|]. simpl in *. done.
    + intros c Hc Hh. apply HP; [set_solver|]. simpl. set_solver.
Qed.

Lemma gethead_eq k : gethead k = 64 + 2 * k.
Proof. unfold gethead, NPROC. rewrite Z.shiftl_mul_pow2 by lia. lia. Qed.
Lemma gettail_eq k : gettail k = 65 + 2 * k.
Proof. unfold gettail, NPROC. rewrite Z.shiftl_mul_pow2 by lia. lia. Qed.

Lemma elem_of_path k l x : x ∈ path k l ↔ x = gethead k ∨ x ∈ l ∨ x = gettail k.
Proof. unfold path. set_solver. Qed.
End linked_lists.

Section queues_facts.
Implicit Types Q : queues.

(** The processes of the other two queues. *)
Definition qrest Q k : list Z :=
  if decide (k = QUEUE_LOW) then qmed Q ++ qhigh Q
  else if decide (k = QUEUE_MEDIUM) then qlow Q ++ qhigh Q
  else qlow Q ++ qmed Q.

Lemma qall_split Q k : qall Q ≡ₚ qget Q k ++ qrest Q k.
Proof. unfold qall, qget, qrest. repeat case_decide; solve_Permutation. Qed.

Lemma qget_qset_eq Q k l : qget (qset Q k l) k = l.
Proof. unfold qget, qset. repeat case_decide; done. Qed.
Lemma qget_qset_ne Q k k' l :
  is_queue k → is_queue k' → k ≠ k' → qget (qset Q k l) k' = qget Q k'.
Proof.
  unfold is_queue, qget, qset, QUEUE_LOW, QUEUE_MEDIUM, QUEUE_HIGH.
  intros. repeat case_decide; simpl; try done; lia.
Qed.
Lemma qset_id Q k : qset Q k (qget Q k) = Q.
Proof. unfold qget, qset. destruct Q. repeat case_decide; done. Qed.
Lemma qset_qset Q k l l' : qset (qset Q k l) k l' = qset Q k l'.
Proof. unfold qset. repeat case_decide; done. Qed.
Lemma qrest_qset Q k l : qrest (qset Q k l) k = qrest Q k.
Proof. unfold qrest, qset. repeat case_decide; done. Qed.
Lemma qall_qset Q k l : qall (qset Q k l) ≡ₚ l ++ qrest Q k.
Proof. rewrite (qall_split _ k), qget_qset_eq, qrest_qset. done. Qed.
Lemma qget_other Q k k' x :
  is_queue k → is_queue k' → k ≠ k' → x ∈ qget Q k' → x ∈ qrest Q k.
Proof.
  unfold is_queue, qget, qrest, QUEUE_LOW, QUEUE_MEDIUM, QUEUE_HIGH.
  intros. repeat case_decide; try lia; set_solver.
Qed.
Lemma qget_all Q k x : x ∈ qget Q k → x ∈ qall Q.
Proof. rewrite (qall_split Q k). set_solver. Qed.
Lemma qall_get Q x : x ∈ qall Q ↔ ∃ k, is_queue k ∧ x ∈ qget Q k.
Proof.
  split; [|intros (k & _ & ?); by eapply qget_all].
  unfold qall. rewrite !elem_of_app. intros [?|[?|?]].
  - by exists QUEUE_LOW.
  - by exists QUEUE_MEDIUM.
  - by exists QUEUE_HIGH.
Qed.
Lemma qget_unique Q k k' x :
  NoDup (qall Q) → is_queue k → is_queue k' → x ∈ qget Q k → x ∈ qget Q k' → k = k'.
Proof.
  intros HD Hk Hk' Hx Hx'. destruct (decide (k = k')) as [|Hne]; [done|].
  rewrite (qall_split Q k) in HD. apply NoDup_app in HD as (_ & HD & _).
  exfalso. apply (HD x Hx). by apply (qget_other Q k k').
Qed.
End queues_facts.

Section rep_facts.
Variables (qt : list qentry) (Q : queues).
Hypothesis HR : rep qt Q.

Lemma rep_get_range k x : x ∈ qget Q k → 0 ≤ x < NPROC.
Proof. intros Hx. apply (rep_range _ _ HR). by eapply qget_all. Qed.

Lemma path_node_range k x : is_queue k → x ∈ path k (qget Q k) → 0 ≤ x < QTABLE_SIZE.
Proof.
  intros Hk. rewrite elem_of_path, gethead_eq, gettail_eq.
  unfold is_queue, QUEUE_LOW, QUEUE_HIGH, QTABLE_SIZE, NPROC, NUM_QUEUES in *.
  intros [->|[Hx| ->]]; [lia| |lia]. apply rep_get_range in Hx. unfold NPROC in *. lia.
Qed.

Lemma path_NoDup k : is_queue k → NoDup (path k (qget Q k)).
Proof.
  intros Hk. unfold is_queue, QUEUE_LOW, QUEUE_HIGH in Hk.
  assert (HD : NoDup (qget Q k)).
  { pose proof (rep_nodup _ _ HR) as HD. rewrite (qall_split Q k) in HD.
    by apply NoDup_app in HD as [? _]. }
  assert (Hr : ∀ x, x ∈ qget Q k → x < 64) by (intros x Hx%rep_get_range; unfold NPROC in Hx; lia).
  unfold path. rewrite gethead_eq, gettail_eq. apply NoDup_cons; split.
  - rewrite elem_of_app, list_elem_of_singleton. intros [Hx%Hr|]; lia.
  - apply NoDup_app. split_and!; [done| |apply NoDup_singleton].
    intros x Hx%Hr. rewrite list_elem_of_singleton. lia.
Qed.

Lemma path_disjoint k k' x :
  is_queue k → is_queue k' → k ≠ k' →
  x ∈ path k (qget Q k) → x ∉ path k' (qget Q k').
Proof.
  intros Hk Hk' Hne. rewrite !elem_of_path, !gethead_eq, !gettail_eq.
  unfold is_queue, QUEUE_LOW, QUEUE_HIGH in *.
  assert (Hr : ∀ j, x ∈ qget Q j → x < 64) by (intros j Hx%rep_get_range; unfold NPROC in Hx; lia).
  intros H1 H2. assert (H : x ∈ qget Q k ∧ x ∈ qget Q k').
  { destruct H1 as [?|[H1|?]], H2 as [?|[H2|?]]; try done;
      try apply Hr in H1; try apply Hr in H2; lia. }
  destruct H as [Hx Hx']. apply Hne.
  by apply (qget_unique Q k k' x (rep_nodup _ _ HR)).
Qed.
End rep_facts.

(** Changing one queue's list: the other queues' nodes must keep their links. *)
Lemma rep_change qt qt' Q k l' :
  rep qt Q → is_queue k → length qt' = length qt →
  NoDup (l' ++ qrest Q k) → (∀ x, x ∈ l' → 0 ≤ x < NPROC) →
  linked qt' (path k l') →
  (∀ k' j, is_queue k' → k' ≠ k → j ∈ path k' (qget Q k') →
           nxt qt' j = nxt qt j ∧ prv qt' j = prv qt j) →
  rep qt' (qset Q k l').
Proof.
  intros HR Hk HL HD Hrng Hlk Hfr. split.
  - rewrite HL. apply (rep_length _ _ HR).
  - by rewrite qall_qset.
  - intros x. rewrite qall_qset, elem_of_app. intros [?|Hx]; [auto|].
    apply (rep_range _ _ HR). rewrite (qall_split Q k). set_solver.
  - intros k' Hk'. destruct (decide (k' = k)) as [->|Hne].
    + by rewrite qget_qset_eq.
    + rewrite qget_qset_ne by done. apply (linked_frame qt).
      * by apply (rep_linked _ _ HR).
      * intros a Ha _. by apply (Hfr k').
      * intros b Hb _. by apply (Hfr k').
      * by apply (path_NoDup qt).
Qed.

Lemma splice_rep qt Q k p1 a b p2 l' x p :
  rep qt Q → is_queue k → 0 ≤ x < NPROC → x ∉ qall Q →
  path k (qget Q k) = p1 ++ a :: b :: p2 →
  path k l' = p1 ++ a :: x :: b :: p2 →
  l' ≡ₚ x :: qget Q k →
  ∃ qt', splice a x p qt = Ok (tt, qt') ∧ rep qt' (qset Q k l').
Proof.
  intros HR Hk Hx Hnx E E' Hperm.
  pose proof (rep_linked _ _ HR k Hk) as HL. rewrite E in HL.
  apply linked_app in HL as [HL1 HL2]. apply linked_cons2 in HL2 as (Hab & Hba & HL2).
  assert (Hin : a ∈ path k (qget Q k) ∧ b ∈ path k (qget Q k)) by (rewrite E; set_solver).
  destruct Hin as [Hina Hinb].
  assert (Hxp : ∀ k', is_queue k' → x ∉ path k' (qget Q k')).
  { intros k' Hk'. rewrite elem_of_path, gethead_eq, gettail_eq.
    unfold is_queue, QUEUE_LOW, NPROC in *. intros [?|[Hx'%qget_all|?]]; [lia|done|lia]. }
  pose proof (path_node_range _ _ HR k b Hk Hinb) as Hb.
  pose proof (rep_length _ _ HR) as Hlen.
  pose proof (path_NoDup _ _ HR k Hk) as HND. rewrite E in HND.
  apply NoDup_app in HND as (HD1 & HD12 & HND).
  apply NoDup_cons in HND as [Ha' HND'].
  destruct (splice_ok qt a b x p) as (qt' & Ex & L' & N' & P'); [done|lia| | | |].
  { unfold QTABLE_SIZE, NPROC, NUM_QUEUES in *. lia. }
  { intros ->. by eapply Hxp. }
  { intros ->. by eapply Hxp. }
  exists qt'. split; [done|]. apply (rep_change qt); try done.
  - rewrite Hperm. simpl. rewrite <- qall_split. apply NoDup_cons.
    split; [done|]. apply (rep_nodup _ _ HR).
  - intros y. rewrite Hperm. intros [->|Hy]%elem_of_cons; [done|].
    by apply (rep_get_range _ _ HR k).
  - rewrite E'. assert (Hxn : x ∉ p1 ++ a :: b :: p2) by (rewrite <- E; auto).
    apply linked_app. split; [|apply linked_cons2; split_and!; [| |apply linked_cons2; split_and!]].
    + apply (linked_frame qt); [done| | |].
      * intros c Hc Hl. rewrite last_snoc in Hl. rewrite N'.
        repeat case_decide; set_solver.
      * intros c Hc _. rewrite P'. repeat case_decide; set_solver.
      * apply NoDup_app. split_and!; [done|set_solver|apply NoDup_singleton].
    + rewrite N'. by case_decide.
    + rewrite P'. repeat case_decide; set_solver.
    + rewrite N'. repeat case_decide; set_solver.
    + rewrite P'. by case_decide.
    + apply (linked_frame qt); [done| | |done].
      * intros c Hc _. rewrite N'. repeat case_decide; set_solver.
      * intros c Hc Hh. rewrite P'. simpl in Hh. repeat case_decide; set_solver.
  - intros k' j Hk' Hne Hj. pose proof (path_disjoint _ _ HR k' k j Hk' Hk Hne Hj) as Hd.
    specialize (Hxp k' Hk'). rewrite N', P'. repeat case_decide; set_solver.
Qed.

Lemma remove_rep qt Q k p1 a x b p2 l' :
  rep qt Q → is_queue k →
  path k (qget Q k) = p1 ++ a :: x :: b :: p2 →
  path k l' = p1 ++ a :: b :: p2 →
  qget Q k ≡ₚ x :: l' →
  ∃ qt', remove_pid x qt = Ok (tt, qt') ∧ rep qt' (qset Q k l').
Proof.
  intros HR Hk E E' Hperm.
  pose proof (rep_linked _ _ HR k Hk) as HL. rewrite E in HL.
  apply linked_app in HL as [HL1 HL2]. apply linked_cons2 in HL2 as (Hax & Hxa & HL2).
  apply linked_cons2 in HL2 as (Hxb & Hbx & HL2).
  pose proof (path_NoDup _ _ HR k Hk) as HND. rewrite E in HND.
  apply NoDup_app in HND as (HD1 & HD12 & HD2).
  apply NoDup_cons in HD2 as [Ha HD2]. apply NoDup_cons in HD2 as [Hx HD2].
  destruct (remove_ok qt a x b) as (qt' & Ex & L' & N' & P'); try done; [set_solver..|].
  exists qt'. split; [done|]. apply (rep_change qt); try done.
  - pose proof (rep_nodup _ _ HR) as HD. rewrite (qall_split Q k), Hperm in HD.
    simpl in HD. by apply NoDup_cons in HD as [_ ?].
  - intros y Hy. apply (rep_get_range _ _ HR k). rewrite Hperm. set_solver.
  - rewrite E'. apply linked_app. split; [|apply linked_cons2; split_and!].
    + apply (linked_frame qt); [done| | |].
      * intros c Hc Hl. rewrite last_snoc in Hl. rewrite N'.
        repeat case_decide; set_solver.
      * intros c Hc _. rewrite P'. repeat case_decide; set_solver.
      * apply NoDup_app. split_and!; [done|set_solver|apply NoDup_singleton].
    + rewrite N'. repeat case_decide; set_solver.
    + rewrite P'. repeat case_decide; set_solver.
    + apply (linked_frame qt); [done| | |done].
      * intros c Hc _. rewrite N'. repeat case_decide; set_solver.
      * intros c Hc Hh. rewrite P'. simpl in Hh. repeat case_decide; set_solver.
  - intros k' j Hk' Hne Hj. pose proof (path_disjoint _ _ HR k' k j Hk' Hk Hne Hj) as Hd.
    rewrite E in Hd. rewrite N', P'. repeat case_decide; set_solver.
Qed.

(** ** The operations on the abstraction *)

Lemma enqueue_back_ok qt Q k x p :
  rep qt Q → is_queue k → 0 ≤ x < NPROC → x ∉ qall Q →
  ∃ qt', enqueue_back k x p qt = Ok (tt, qt') ∧ rep qt' (qset Q k (qget Q k ++ [x])).
Proof.
  intros HR Hk Hx Hn.
  assert (∃ p1 a, gethead k :: qget Q k = p1 ++ [a]) as (p1 & a & E).
  { destruct (qget Q k) as [|y l] using rev_ind; [by exists [], (gethead k)|].
    by exists (gethead k :: l), y. }
  assert (E1 : path k (qget Q k) = p1 ++ a :: gettail k :: []).
  { unfold path. rewrite app_comm_cons, E, <- (assoc_L (++)). done. }
  pose proof (rep_linked _ _ HR k Hk) as HL. rewrite E1 in HL.
  apply linked_app in HL as [_ (_ & Hp & _)].
  unfold enqueue_back. rewrite (bind_ok _ _ _ _ _ (rd_prev_ok _ _ _ Hp)).
  apply (splice_rep _ _ _ p1 a (gettail k) []); try done.
  - unfold path. rewrite app_comm_cons, app_comm_cons, E, <- !(assoc_L (++)). done.
  - by rewrite Permutation_app_comm.
Qed.

Lemma enqueue_ok qt Q k x p :
  rep qt Q → is_queue k → 0 ≤ x < NPROC → x ∉ qall Q →
  ∃ qt', enqueue k x p qt = Ok (tt, qt') ∧ rep qt' (qset Q k (x :: qget Q k)).
Proof.
  intros HR Hk Hx Hn. unfold enqueue. fold (splice (gethead k) x p).
  destruct (qget Q k) as [|y l] eqn:E.
  - apply (splice_rep _ _ _ [] (gethead k) (gettail k) []); try done.
    + by rewrite E.
    + by rewrite E.
  - apply (splice_rep _ _ _ [] (gethead k) y (l ++ [gettail k])); try done.
    + by rewrite E.
    + by rewrite E.
Qed.

(** [initialize]: whatever the links were, three empty queues. *)
Lemma initialize_step k i qt :
  0 ≤ i → i + 1 < Z.of_nat (length qt) →
  ∃ qt', initialize_loop (S k) i qt = initialize_loop k (i + 2) qt' ∧
    length qt' = length qt ∧
    (∀ j, nxt qt' j = if decide (j = i) then Some (i + 1) else nxt qt j) ∧
    (∀ j, prv qt' j = if decide (j = i + 1) then Some i else prv qt j).
Proof.
  intros Hi HL. cbn [initialize_loop].
  destruct (set_next_ok qt (i + 1) i) as (q1 & E1 & L1 & N1 & P1); [lia|].
  destruct (set_prev_ok q1 i (i + 1)) as (q2 & E2 & L2 & N2 & P2); [lia|].
  destruct (set_pass_ok q2 0 i) as (q3 & E3 & L3 & N3 & P3); [lia|].
  destruct (set_pass_ok q3 UINT16_MAX (i + 1)) as (q4 & E4 & L4 & N4 & P4); [lia|].
  exists q4. split; [|split; [lia|]].
  - by rewrite (bind_ok _ _ _ _ _ E1), (bind_ok _ _ _ _ _ E2), (bind_ok _ _ _ _ _ E3),
      (bind_ok _ _ _ _ _ E4).
  - split; intros j.
    + rewrite N4, N3, N2, N1. repeat case_decide; done.
    + rewrite P4, P3, P2, P1. repeat case_decide; done.
Qed.

Lemma initialize_ok qt :
  Z.of_nat (length qt) = QTABLE_SIZE →
  ∃ qt', initialize NUM_QUEUES qt = Ok (tt, qt') ∧ rep qt' (mkqs [] [] []).
Proof.
  intros HL. unfold QTABLE_SIZE, NPROC, NUM_QUEUES in HL.
  change (initialize NUM_QUEUES) with (initialize_loop 3 64).
  destruct (initialize_step 2 64 qt) as (q1 & E1 & L1 & N1 & P1); [lia..|].
  destruct (initialize_step 1 66 q1) as (q2 & E2 & L2 & N2 & P2); [lia..|].
  destruct (initialize_step 0 68 q2) as (q3 & E3 & L3 & N3 & P3); [lia..|].
  exists q3. split; [exact (eq_trans E1 (eq_trans E2 E3))|].
  split; simpl; [unfold QTABLE_SIZE, NPROC, NUM_QUEUES; lia|constructor|set_solver|].
  intros k Hk. replace (qget _ k) with (@nil Z) by (unfold qget; repeat case_decide; done).
  unfold is_queue, QUEUE_LOW, QUEUE_HIGH in Hk.
  unfold path. simpl. rewrite gethead_eq, gettail_eq, N3, N2, N1, P3, P2, P1.
  assert (k = 0 ∨ k = 1 ∨ k = 2) as [->|[->| ->]] by lia; done.
Qed.

(** The first element of a queue is what [firstid] of its head reads. *)
Lemma firstid_rep qt Q k :
  rep qt Q → is_queue k →
  rd next (gethead k) qt =
    Ok (match qget Q k with x :: _ => x | [] => gettail k end, qt).
Proof.
  intros HR Hk. apply rd_next_ok. pose proof (rep_linked _ _ HR k Hk) as HL.
  unfold path in HL. destruct (qget Q k) as [|x l]; simpl in HL; naive_solver.
Qed.

Lemma nonempty_rep qt Q k :
  rep qt Q → is_queue k →
  nonempty (gethead k) qt = Ok (bool_decide (qget Q k ≠ []), qt).
Proof.
  intros HR Hk. unfold nonempty, firstid.
  rewrite (bind_ok _ _ _ _ _ (firstid_rep qt Q k HR Hk)).
  unfold mret, M_ret. do 2 f_equal. apply bool_decide_ext.
  destruct (qget Q k) as [|x l] eqn:E.
  - rewrite gettail_eq. unfold is_queue, QUEUE_LOW, QUEUE_HIGH, NPROC in *.
    split; [intros ?; exfalso; lia|done].
  - assert (0 ≤ x < NPROC) by (apply (rep_get_range _ _ HR k); rewrite E; set_solver).
    split; [done|lia].
Qed.

Lemma scan_idx i : 0 ≤ i ≤ 2 → u64 (NPROC + u64 (Z.shiftl i 1)) = gethead i.
Proof.
  intros Hi. rewrite gethead_eq, Z.shiftl_mul_pow2 by lia. unfold NPROC.
  rewrite (u64_small (i * 2 ^ 1)) by lia. rewrite u64_small; lia.
Qed.

Lemma scan_step fuel i qt Q :
  rep qt Q → is_queue i →
  dequeue_scan (S fuel) i qt =
    if bool_decide (qget Q i ≠ []) then Ok (Some (gethead i), qt)
    else dequeue_scan fuel (u64 (i - 1)) qt.
Proof.
  intros HR Hi. simpl dequeue_scan. unfold is_queue in Hi.
  rewrite bool_decide_true by lia. unfold QUEUE_LOW, QUEUE_HIGH in *.
  rewrite scan_idx by lia.
  rewrite (bind_ok _ _ _ _ _ (nonempty_rep qt Q i HR Hi)).
  by destruct (bool_decide (qget Q i ≠ [])).
Qed.

(** The queue [dequeue] serves: the highest that is not empty. *)
Definition top_queue (Q : queues) : option Z :=
  match qhigh Q, qmed Q, qlow Q with
  | _ :: _, _, _ => Some QUEUE_HIGH
  | [], _ :: _, _ => Some QUEUE_MEDIUM
  | [], [], _ :: _ => Some QUEUE_LOW
  | [], [], [] => None
  end.

Lemma top_queue_Some Q k :
  top_queue Q = Some k → is_queue k ∧ qget Q k ≠ [] ∧
    ∀ k', is_queue k' → k < k' → qget Q k' = [].
Proof.
  unfold top_queue, is_queue, QUEUE_LOW, QUEUE_MEDIUM, QUEUE_HIGH.
  assert (Hq : ∀ k', 0 ≤ k' ≤ 2 → k' = 0 ∨ k' = 1 ∨ k' = 2) by lia.
  destruct Q as [l m h]; simpl. intros H.
  destruct h, m, l; simplify_eq; split_and!; try lia; try done;
    intros k' Hk' ?; destruct (Hq k' Hk') as [->|[->| ->]]; try lia; done.
Qed.

Lemma top_queue_None Q : top_queue Q = None ↔ qall Q = [].
Proof.
  unfold top_queue, qall. destruct Q as [[|??] [|??] [|??]]; simpl; naive_solver.
Qed.

(** The first three rounds of the loop, on tables that represent queues. *)
Lemma scan_three fuel qt Q :
  rep qt Q →
  dequeue_scan (S (S (S fuel))) QUEUE_HIGH qt =
    match top_queue Q with
    | Some k => Ok (Some (gethead k), qt)
    | None => dequeue_scan fuel (2 ^ 64 - 1) qt
    end.
Proof.
  intros HR.
  assert (Hq : ∀ k, 0 ≤ k ≤ 2 → is_queue k) by done.
  rewrite (scan_step (S (S fuel)) QUEUE_HIGH qt Q HR) by (apply Hq; unfold QUEUE_HIGH; lia).
  replace (u64 (QUEUE_HIGH - 1)) with QUEUE_MEDIUM by reflexivity.
  rewrite (scan_step (S fuel) QUEUE_MEDIUM qt Q HR) by (apply Hq; unfold QUEUE_MEDIUM; lia).
  replace (u64 (QUEUE_MEDIUM - 1)) with QUEUE_LOW by reflexivity.
  rewrite (scan_step fuel QUEUE_LOW qt Q HR) by (apply Hq; unfold QUEUE_LOW; lia).
  replace (u64 (QUEUE_LOW - 1)) with (2 ^ 64 - 1) by reflexivity.
  unfold top_queue. destruct Q as [[|??] [|??] [|??]]; reflexivity.
Qed.

Lemma scan_top qt Q k :
  rep qt Q → top_queue Q = Some k →
  dequeue_scan SCAN_FUEL QUEUE_HIGH qt = Ok (Some (gethead k), qt).
Proof.
  intros HR Ht. unfold SCAN_FUEL. by rewrite (scan_three 33 qt Q HR), Ht.
Qed.

Lemma dequeue_ok qt Q k x l :
  rep qt Q → top_queue Q = Some k → qget Q k = x :: l →
  ∃ qt', dequeue qt = Ok (x, qt') ∧ rep qt' (qset Q k l).
Proof.
  intros HR Ht E. destruct (top_queue_Some Q k Ht) as (Hk & _ & _).
  assert (Hx : 0 ≤ x < NPROC) by (apply (rep_get_range _ _ HR k); rewrite E; set_solver).
  unfold dequeue. rewrite (bind_ok _ _ _ _ _ (scan_top qt Q k HR Ht)).
  assert (Hh : i32 (gethead k) = gethead k).
  { rewrite gethead_eq. unfold is_queue, QUEUE_LOW, QUEUE_HIGH in Hk. apply i32_small. lia. }
  rewrite Hh. rewrite bool_decide_false.
  2:{ rewrite gethead_eq. unfold is_queue, QUEUE_LOW, QUEUE_HIGH, EMPTY in *. lia. }
  unfold firstid. rewrite (bind_ok _ _ _ _ _ (firstid_rep qt Q k HR Hk)), E.
  unfold NPROC in Hx. rewrite i32_small, i64_small by lia.
  destruct (remove_rep qt Q k [] (gethead k) x
              (match l with y :: _ => y | [] => gettail k end)
              (match l with _ :: l' => l' ++ [gettail k] | [] => [] end) l)
    as (qt' & Er & HR'); try done.
  - rewrite E. unfold path. by destruct l.
  - unfold path. by destruct l.
  - by rewrite E.
  - exists qt'. split; [|done]. by rewrite (bind_ok _ _ _ _ _ Er).
Qed.

(** ** Sequences of operations *)

(** What the callers ask of the queues, and what the queues promise. *)
Inductive qop : Type :=
  | OpInit
  | OpPush (k x : Z)     (** [enqueue]: at the front *)
  | OpAppend (k x : Z)   (** [enqueue_back] *)
  | OpTake.              (** [dequeue] *)

#[global] Instance is_queue_dec k : Decision (is_queue k).
Proof. unfold is_queue. apply _. Defined.

(** The abstract queues.  [None]: the caller broke the contract (a process
    queued twice, an index that is no process, nothing to take). *)
Definition spec_op (op : qop) (Q : queues) : option (list Z * queues) :=
  match op with
  | OpInit => Some ([], mkqs [] [] [])
  | OpPush k x =>
      if decide (is_queue k ∧ 0 ≤ x < NPROC ∧ x ∉ qall Q)
      then Some ([], qset Q k (x :: qget Q k)) else None
  | OpAppend k x =>
      if decide (is_queue k ∧ 0 ≤ x < NPROC ∧ x ∉ qall Q)
      then Some ([], qset Q k (qget Q k ++ [x])) else None
  | OpTake =>
      match top_queue Q with
      | Some k => match qget Q k with
                  | x :: l => Some ([x], qset Q k l)
                  | [] => None
                  end
      | None => None
      end
  end.

Definition run_op (op : qop) : M (list qentry) (list Z) :=
  match op with
  | OpInit => initialize NUM_QUEUES ;; mret []
  | OpPush k x => enqueue k x DEFAULT_PASS ;; mret []
  | OpAppend k x => enqueue_back k x DEFAULT_PASS ;; mret []
  | OpTake => x ← dequeue; mret [x]
  end.

Fixpoint spec_ops (ops : list qop) (Q : queues) : option (list Z * queues) :=
  match ops with
  | [] => Some ([], Q)
  | op :: ops' =>
      '(o, Q1) ← spec_op op Q; '(o', Q2) ← spec_ops ops' Q1; mret (o ++ o', Q2)
  end.

Fixpoint run_ops (ops : list qop) : M (list qentry) (list Z) :=
  match ops with
  | [] => mret []
  | op :: ops' => o ← run_op op; o' ← run_ops ops'; mret (o ++ o')
  end.

Lemma run_op_ok op qt Q o Q' :
  rep qt Q → spec_op op Q = Some (o, Q') →
  ∃ qt', run_op op qt = Ok (o, qt') ∧ rep qt' Q'.
Proof.
  intros HR. destruct op as [|k x|k x|]; simpl.
  - intros [= <- <-]. destruct (initialize_ok qt (rep_length _ _ HR)) as (qt' & E & HR').
    exists qt'. split; [|done]. by rewrite (bind_ok _ _ _ _ _ E).
  - case_decide as Hc; intros [= <- <-]. destruct Hc as (Hk & Hx & Hn).
    destruct (enqueue_ok qt Q k x DEFAULT_PASS HR Hk Hx Hn) as (qt' & E & HR').
    exists qt'. split; [|done]. by rewrite (bind_ok _ _ _ _ _ E).
  - case_decide as Hc; intros [= <- <-]. destruct Hc as (Hk & Hx & Hn).
    destruct (enqueue_back_ok qt Q k x DEFAULT_PASS HR Hk Hx Hn) as (qt' & E & HR').
    exists qt'. split; [|done]. by rewrite (bind_ok _ _ _ _ _ E).
  - destruct (top_queue Q) as [k|] eqn:Ht; [|done].
    destruct (qget Q k) as [|x l] eqn:El; [done|]. intros [= <- <-].
    destruct (dequeue_ok qt Q k x l HR Ht El) as (qt' & E & HR').
    exists qt'. split; [|done]. by rewrite (bind_ok _ _ _ _ _ E).
Qed.

(** C3: as long as the callers keep the contract of the queues (no process is
    queued twice, nothing is taken from empty queues), every sequence of
    [initialize], [enqueue], [enqueue_back] and [dequeue] on the shared table
    runs without touching memory outside it, returns exactly the processes
    that three FIFO queues with a highest-non-empty-first rule return, and
    leaves the table representing those queues. *)
Theorem queue_refinement ops qt Q o Q' :
  rep qt Q → spec_ops ops Q = Some (o, Q') →
  ∃ qt', run_ops ops qt = Ok (o, qt') ∧ rep qt' Q'.
Proof.
  revert qt Q o. induction ops as [|op ops IH]; intros qt Q o HR; simpl.
  - intros [= <- <-]. by exists qt.
  - intros ([o1 Q1] & E1 & H)%bind_Some. apply bind_Some in H as ([o2 Q2] & E2 & [= <- <-]).
    destruct (run_op_ok _ _ _ _ _ HR E1) as (qt1 & R1 & HR1).
    destruct (IH _ _ _ HR1 E2) as (qt2 & R2 & HR2).
    exists qt2. split; [|done].
    by rewrite (bind_ok _ _ _ _ _ R1), (bind_ok _ _ _ _ _ R2).
Qed.

Lemma rep_boot : ∃ qt, initialize NUM_QUEUES qtable0 = Ok (tt, qt) ∧ rep qt (mkqs [] [] []).
Proof. by apply initialize_ok. Qed.

Definition ops_example : list qop :=
  [OpAppend 1 5; OpAppend 1 7; OpAppend 2 9; OpPush 0 3; OpTake; OpTake; OpAppend 1 5; OpTake; OpTake; OpTake].

Lemma queue_refinement_witness :
  ∃ qt qt', rep qt (mkqs [] [] []) ∧
    run_ops ops_example qt = Ok ([9; 5; 7; 5; 3], qt') ∧ rep qt' (mkqs [] [] []).
Proof.
  destruct rep_boot as (qt & _ & HR).
  destruct (queue_refinement ops_example qt (mkqs [] [] []) [9; 5; 7; 5; 3] (mkqs [] [] []) HR)
    as (qt' & E & HR'); [vm_compute; reflexivity|].
  exists qt, qt'. auto.
Defined.

(** ** The search loop on every table *)

(** The words of the table are unsigned. *)
Definition words (qt : list qentry) : Prop := Forall (λ e, 0 ≤ next e) qt.

Definition scan_index (i : Z) : Z := u64 (NPROC + u64 (Z.shiftl i 1)).

Lemma scan_unfold fuel i qt :
  0 ≤ i →
  dequeue_scan (S fuel) i qt =
    match zidx qt (scan_index i) with
    | Some e => if bool_decide (next e < NPROC) then Ok (Some (scan_index i), qt)
                else dequeue_scan fuel (u64 (i - 1)) qt
    | None => Fault
    end.
Proof.
  intros Hi. cbn [dequeue_scan]. rewrite bool_decide_true by done.
  cbv zeta. fold (scan_index i). unfold nonempty, firstid, rd, mbind, M_bind.
  destruct (zidx qt (scan_index i)) as [e|]; [|done].
  unfold mret, M_ret. by case_bool_decide.
Qed.

Lemma u64_nonneg z : 0 ≤ u64 z.
Proof. unfold u64. by apply Z.mod_pos_bound. Qed.

Lemma scan_found fuel i qt r qt' :
  0 ≤ i → dequeue_scan fuel i qt = Ok (r, qt') →
  qt' = qt ∧ ∃ idx v, r = Some idx ∧ nxt qt idx = Some v ∧ v < NPROC.
Proof.
  revert i. induction fuel as [|fuel IH]; intros i Hi; [done|].
  rewrite scan_unfold by done.
  destruct (zidx qt (scan_index i)) as [e|] eqn:E; [|done]. case_bool_decide as Hv.
  - intros [= <- <-]. split; [done|]. exists (scan_index i), (next e). unfold nxt. by rewrite E.
  - apply IH, u64_nonneg.
Qed.

(** The loop leaves the table before its counter comes round again. *)
Lemma scan_no_hang (n : nat) qt :
  Z.of_nat (length qt) = QTABLE_SIZE →
  dequeue_scan (S n) (u64 (Z.of_nat n - 33)) qt ≠ Hang.
Proof.
  intros HL. induction n as [|n IH]; rewrite scan_unfold by apply u64_nonneg.
  - replace (zidx qt _) with (@None qentry); [done|]. symmetry.
    apply eq_None_not_Some. rewrite zidx_is_Some, HL. vm_compute. intuition congruence.
  - destruct (zidx qt _); [|done]. case_bool_decide; [done|].
    replace (u64 (u64 (Z.of_nat (S n) - 33) - 1)) with (u64 (Z.of_nat n - 33)); [done|].
    unfold u64. rewrite Zminus_mod_idemp_l. f_equal. lia.
Qed.

(** C13: whatever the table holds, [dequeue] never reports an empty queue: the
    loop counter is unsigned, so the test [i >= QUEUE_LOW] never ends the
    search.  Either the search reaches memory outside the table or [dequeue]
    returns the index of some process slot; it never hangs, and it never
    returns [EMPTY]. *)
Theorem dequeue_never_empty qt :
  Z.of_nat (length qt) = QTABLE_SIZE → words qt →
  dequeue qt ≠ Hang ∧
  ∀ r qt', dequeue qt = Ok (r, qt') → 0 ≤ r < NPROC ∧ r ≠ EMPTY.
Proof.
  intros HL HW.
  assert (Hnz : ∀ x, zidx qt x = None ∨ ∃ e, zidx qt x = Some e ∧ 0 ≤ next e).
  { intros x. destruct (zidx qt x) as [e|] eqn:E; [right|by left].
    exists e. split; [done|]. apply zidx_Some in E as [_ E].
    by apply (Forall_lookup_1 _ _ _ _ HW E). }
  pose proof (scan_no_hang 35 qt HL) as Hs.
  change (dequeue_scan 36 (u64 (Z.of_nat 35 - 33)) qt)
    with (dequeue_scan SCAN_FUEL QUEUE_HIGH qt) in Hs.
  unfold dequeue. unfold mbind at 1 4, M_bind at 1 4.
  destruct (dequeue_scan SCAN_FUEL QUEUE_HIGH qt) as [[r q]| | |] eqn:Esc; try done.
  apply scan_found in Esc as (-> & idx & v & -> & Hv & Hlt); [|done].
  pose proof (nxt_range _ _ _ Hv) as Hi. rewrite HL in Hi.
  unfold QTABLE_SIZE, NPROC, NUM_QUEUES in *.
  rewrite i32_small by lia. rewrite bool_decide_false by (unfold EMPTY; lia).
  unfold firstid. rewrite (bind_ok _ _ _ _ _ (rd_next_ok _ _ _ Hv)).
  assert (0 ≤ v) as Hv0.
  { apply nxt_Some in Hv as (e & He & <-). destruct (Hnz idx); naive_solver. }
  rewrite i32_small, i64_small by lia.
  unfold mbind, M_bind. split.
  - unfold remove_pid, rd, set_next, set_prev, upd, mbind, M_bind.
    repeat (case_match; simplify_eq; try done).
  - intros r qt'. destruct (remove_pid v qt) as [[[] q]| | |]; try done.
    intros [= <- <-]. unfold EMPTY. lia.
Qed.

(** The table [procinit] leaves, and the table after a first search of its
    empty queues. *)
Definition qtable_boot : list qentry :=
  match initialize NUM_QUEUES qtable0 with Ok (_, q) => q | _ => [] end.
Definition qtable_boot1 : list qentry :=
  match dequeue qtable_boot with Ok (_, q) => q | _ => [] end.

Lemma dequeue_never_empty_witness :
  dequeue qtable_boot = Ok (0, qtable_boot1) ∧ 0 ≤ 0 < NPROC ∧ 0 ≠ EMPTY.
Proof.
  assert (HW : words qtable_boot).
  { apply Forall_forall. intros e He. apply (bool_decide_eq_true_1 (0 ≤ next e)).
    revert e He. apply Forall_forall.
    apply (bool_decide_eq_true_1 (Forall (λ e, bool_decide (0 ≤ next e) = true) qtable_boot)).
    vm_compute. reflexivity. }
  assert (E : dequeue qtable_boot = Ok (0, qtable_boot1)) by (vm_compute; reflexivity).
  destruct (dequeue_never_empty qtable_boot eq_refl HW) as [_ H].
  split; [exact E|]. exact (H _ _ E).
Defined.

(** ** An interrupt in the middle of [remove_pid]

    [scheduler] calls [dequeue] with interrupts on and no lock, and the
    interrupt handlers call [wakeup], which calls [enqueue_back].  The first
    statement of [remove_pid], and the others. *)
Definition remove_pid_unlink (pid_to_delete : Z) : M (list qentry) unit :=
  p ← rd prev pid_to_delete;
  n ← rd next pid_to_delete;
  set_next n p.
Definition remove_pid_rest (pid_to_delete : Z) : M (list qentry) unit :=
  n' ← rd next pid_to_delete;
  p' ← rd prev pid_to_delete;
  set_prev p' n' ;;
  set_next 999 pid_to_delete ;;
  set_prev 999 pid_to_delete.

Lemma remove_pid_split x qt : remove_pid x qt = (remove_pid_unlink x ;; remove_pid_rest x) qt.
Proof.
  unfold remove_pid, remove_pid_unlink, mbind, M_bind.
  destruct (rd prev x qt) as [[p q]| | |]; [|done..]. by destruct (rd next x q) as [[n q']| | |].
Qed.

(** A linked node is preceded in the path it lies on. *)
Lemma linked_prv qt a l b : linked qt (a :: l) → b ∈ l → ∃ c, c ∈ a :: l ∧ prv qt b = Some c.
Proof.
  revert a. induction l as [|d l IH]; intros a HL Hb; [by apply elem_of_nil in Hb|].
  apply linked_cons2 in HL as (_ & Hp & HL). apply elem_of_cons in Hb as [->|Hb].
  - exists a. split; [set_solver|done].
  - destruct (IH d HL Hb) as (c & Hc & Hpc). exists c. split; [set_solver|done].
Qed.

Lemma linked_nxt_head qt k l : linked qt (path k l) → (∀ x, x ∈ l → 0 ≤ x < NPROC) → is_queue k →
  nxt qt (gethead k) = Some (gettail k) → l = [].
Proof.
  intros HL Hl Hk Hn. destruct l as [|y l]; [done|]. exfalso.
  unfold path in HL. simpl in HL. destruct HL as (Hy & _). rewrite Hn in Hy. injection Hy as Hy.
  pose proof (Hl y ltac:(set_solver)) as H. rewrite <- Hy, gettail_eq in H.
  unfold is_queue, QUEUE_LOW, QUEUE_HIGH, NPROC in *. lia.
Qed.

(** Process [x] is alone in its queue and is being removed; after the first
    statement an interrupt handler puts process [y] at the back of the same
    queue; then the removal goes on.  Every statement succeeds, and [y] is in no
    queue: no three lists the table could represent contain it. *)
Theorem dequeue_race qt Q k x y p :
  rep qt Q → is_queue k → qget Q k = [x] → 0 ≤ y < NPROC → y ∉ qall Q →
  ∃ qt1 qt2 qt3, remove_pid_unlink x qt = Ok (tt, qt1) ∧ enqueue_back k y p qt1 = Ok (tt, qt2) ∧
    remove_pid_rest x qt2 = Ok (tt, qt3) ∧ nxt qt3 (gethead k) = Some (gettail k) ∧
    ∀ Q', rep qt3 Q' → y ∉ qall Q'.
Proof.
  intros HR Hk El Hy Hn. pose proof (rep_length _ _ HR) as HLen.
  pose proof (rep_linked _ _ HR k Hk) as HL. rewrite El in HL. destruct HL as (Hh & Hpx & Hx & Hpt & _).
  assert (Hxr : 0 ≤ x < NPROC) by (apply (rep_get_range _ _ HR k); rewrite El; by apply list_elem_of_singleton).
  assert (Hxy : x ≠ y) by (intros ->; apply Hn; apply (qget_all _ k); rewrite El; by apply list_elem_of_singleton).
  set (h := gethead k) in *. set (t := gettail k) in *.
  assert (Hht : h = 64 + 2 * k ∧ t = 65 + 2 * k) by (split; [apply gethead_eq|apply gettail_eq]).
  unfold is_queue, QTABLE_SIZE, QUEUE_LOW, QUEUE_HIGH, NUM_QUEUES, NPROC in *.
  unfold remove_pid_unlink. rewrite (bind_ok _ _ _ _ _ (rd_prev_ok _ _ _ Hpx)).
  rewrite (bind_ok _ _ _ _ _ (rd_next_ok _ _ _ Hx)).
  destruct (set_next_ok qt t h) as (q1 & E1 & L1 & N1 & P1); [lia|].
  unfold enqueue_back. fold t.
  assert (Hpt1 : prv q1 t = Some x) by (rewrite P1; case_decide; done).
  assert (Hx1 : nxt q1 x = Some t) by (rewrite N1; case_decide; [lia|done]).
  destruct (splice_ok q1 x t y p) as (q2 & E2 & L2 & N2 & P2); [done|lia..|].
  exists q1, q2. unfold remove_pid_rest.
  assert (Hx2 : nxt q2 x = Some y) by (rewrite N2; by rewrite decide_True).
  assert (Hpx2 : prv q2 x = Some h).
  { rewrite P2, P1. repeat case_decide; try done; lia. }
  destruct (set_prev_ok q2 h y) as (q3 & E3 & L3 & N3 & P3); [lia|].
  destruct (set_next_ok q3 999 x) as (q4 & E4 & L4 & N4 & P4); [lia|].
  destruct (set_prev_ok q4 999 x) as (q5 & E5 & L5 & N5 & P5); [lia|].
  exists q5. split; [done|]. split.
  { rewrite (bind_ok _ _ _ _ _ (rd_prev_ok _ _ _ Hpt1)). exact E2. }
  split.
  { rewrite (bind_ok _ _ _ _ _ (rd_next_ok _ _ _ Hx2)), (bind_ok _ _ _ _ _ (rd_prev_ok _ _ _ Hpx2)).
    by rewrite (bind_ok _ _ _ _ _ E3), (bind_ok _ _ _ _ _ E4). }
  assert (Hhead : nxt q5 h = Some t).
  { rewrite N5, N4, N3, N2, N1. repeat case_decide; try done; lia. }
  split; [done|]. intros Q' HR' (k' & Hk' & Hin)%qall_get.
  assert (Hpy : prv q5 y = Some h).
  { rewrite P5, P4, P3. repeat case_decide; try done; lia. }
  pose proof (rep_linked _ _ HR' k' Hk') as HL'.
  destruct (linked_prv q5 (gethead k') (qget Q' k' ++ [gettail k']) y HL') as (c & Hc & Hpc);
    [set_solver|]. rewrite Hpy in Hpc. injection Hpc as <-.
  assert (Hr : ∀ z, z ∈ qget Q' k' → z < 64) by (intros z Hz%(rep_get_range _ _ HR'); unfold NPROC in Hz; lia).
  assert (k' = k) as ->.
  { pose proof (gethead_eq k'). pose proof (gettail_eq k').
    apply elem_of_cons in Hc as [Hc|Hc]; [lia|]. apply elem_of_app in Hc as [Hc%Hr|Hc]; [lia|].
    apply list_elem_of_singleton in Hc. lia. }
  assert (qget Q' k = []) as E0; [|rewrite E0 in Hin; by apply elem_of_nil in Hin].
  eapply linked_nxt_head; [exact HL'| |exact Hk'|exact Hhead].
  intros z. apply (rep_get_range _ _ HR').
Qed.
