(* ===== verification/Proc.v ===== *)
(** * The process table: kernel/proc.h and the table part of kernel/proc.c

    The state [kst] of the process system of one hart: the globals of proc.c
    ([core]), the locks, and the hart.  [struct proc] is the record [proc];
    its lock is [LProc i] of the lock table.  What proc.c calls in other files
    (page tables, page allocator, files, inodes) is the class [ProcEnv]; a
    pointer to such an object is a [Z], 0 for null.  Pointers to processes are
    indices into [procs].

    Control transfer: [swtch] saves where a process will continue in its
    [context]; the code that runs there is a [code_ptr] (Sched.v). *)
From S2P Require Import Prelude Layout Spinlock Queue.

(** [enum procstate] *)
Inductive procstate := UNUSED | USED | SLEEPING | RUNNABLE | RUNNING | ZOMBIE.
#[global] Instance procstate_eq_dec : EqDecision procstate.
Proof. solve_decision. Defined.

(** The locks a process can hold: the two global ones of proc.c, the one of
    the clock, one per process, and those of other components. *)
Inductive lockid := LPid | LWait | LTicks | LProc (i : nat) | LExt (n : nat).
#[global] Instance lockid_eq_dec : EqDecision lockid.
Proof. solve_decision. Defined.

(** Where [sched()] was called from, i.e. what runs after it returns. *)
Inductive caller := InYield | InSleep (lk : lockid) | InExit.
(** The return address saved by [swtch]; a call of [sched] also has its local
    variable [intena] on the kernel stack. *)
Inductive code_ptr := CodeNull | CodeForkret | CodeSched (saved_intena : bool) (c : caller).
Record context := mkcontext { ra : code_ptr; ctx_sp : Z }.

(** [struct logentry] (kernel/log.h) *)
Record logentry := mklogentry { le_pid : Z; le_time : Z; le_queue : Z; le_boost : Z }.
Definition LOG_SIZE : Z := 100.
Definition INT_MAX : Z := 2 ^ 31 - 1.

Definition NICE_MIN : Z := -20.
Definition NICE_MAX : Z := 19.
Definition NOFILE : Z := 16.

(** [struct proc] (the lock apart) *)
Record proc := mkproc {
  p_state : procstate;
  p_chan : Z;
  p_killed : Z;
  p_xstate : Z;
  p_pid : Z;
  p_parent : option nat;
  p_kstack : Z;
  p_sz : Z;
  p_pagetable : Z;
  p_trapframe : Z;
  p_context : context;
  p_ofile : list Z;
  p_cwd : Z;
  p_name : string;
  p_nice : Z;
  p_nice_adjusted : Z;
  p_runtime : Z;
  p_queue : Z;
  p_pass : Z }.

Definition set_p_state (v : procstate) (p : proc) : proc :=
  mkproc v (p_chan p) (p_killed p) (p_xstate p) (p_pid p) (p_parent p) (p_kstack p) (p_sz p)
    (p_pagetable p) (p_trapframe p) (p_context p) (p_ofile p) (p_cwd p) (p_name p) (p_nice p)
    (p_nice_adjusted p) (p_runtime p) (p_queue p) (p_pass p).
Definition set_p_chan (v : Z) (p : proc) : proc :=
  mkproc (p_state p) v (p_killed p) (p_xstate p) (p_pid p) (p_parent p) (p_kstack p) (p_sz p)
    (p_pagetable p) (p_trapframe p) (p_context p) (p_ofile p) (p_cwd p) (p_name p) (p_nice p)
    (p_nice_adjusted p) (p_runtime p) (p_queue p) (p_pass p).
Definition set_p_killed (v : Z) (p : proc) : proc :=
  mkproc (p_state p) (p_chan p) v (p_xstate p) (p_pid p) (p_parent p) (p_kstack p) (p_sz p)
    (p_pagetable p) (p_trapframe p) (p_context p) (p_ofile p) (p_cwd p) (p_name p) (p_nice p)
    (p_nice_adjusted p) (p_runtime p) (p_queue p) (p_pass p).
Definition set_p_xstate (v : Z) (p : proc) : proc :=
  mkproc (p_state p) (p_chan p) (p_killed p) v (p_pid p) (p_parent p) (p_kstack p) (p_sz p)
    (p_pagetable p) (p_trapframe p) (p_context p) (p_ofile p) (p_cwd p) (p_name p) (p_nice p)
    (p_nice_adjusted p) (p_runtime p) (p_queue p) (p_pass p).
Definition set_p_pid (v : Z) (p : proc) : proc :=
  mkproc (p_state p) (p_chan p) (p_killed p) (p_xstate p) v (p_parent p) (p_kstack p) (p_sz p)
    (p_pagetable p) (p_trapframe p) (p_context p) (p_ofile p) (p_cwd p) (p_name p) (p_nice p)
    (p_nice_adjusted p) (p_runtime p) (p_queue p) (p_pass p).
Definition set_p_parent (v : option nat) (p : proc) : proc :=
  mkproc (p_state p) (p_chan p) (p_killed p) (p_xstate p) (p_pid p) v (p_kstack p) (p_sz p)
    (p_pagetable p) (p_trapframe p) (p_context p) (p_ofile p) (p_cwd p) (p_name p) (p_nice p)
    (p_nice_adjusted p) (p_runtime p) (p_queue p) (p_pass p).
Definition set_p_kstack (v : Z) (p : proc) : proc :=
  mkproc (p_state p) (p_chan p) (p_killed p) (p_xstate p) (p_pid p) (p_parent p) v (p_sz p)
    (p_pagetable p) (p_trapframe p) (p_context p) (p_ofile p) (p_cwd p) (p_name p) (p_nice p)
    (p_nice_adjusted p) (p_runtime p) (p_queue p) (p_pass p).
Definition set_p_sz (v : Z) (p : proc) : proc :=
  mkproc (p_state p) (p_chan p) (p_killed p) (p_xstate p) (p_pid p) (p_parent p) (p_kstack p) v
    (p_pagetable p) (p_trapframe p) (p_context p) (p_ofile p) (p_cwd p) (p_name p) (p_nice p)
    (p_nice_adjusted p) (p_runtime p) (p_queue p) (p_pass p).
Definition set_p_pagetable (v : Z) (p : proc) : proc :=
  mkproc (p_state p) (p_chan p) (p_killed p) (p_xstate p) (p_pid p) (p_parent p) (p_kstack p)
    (p_sz p) v (p_trapframe p) (p_context p) (p_ofile p) (p_cwd p) (p_name p) (p_nice p)
    (p_nice_adjusted p) (p_runtime p) (p_queue p) (p_pass p).
Definition set_p_trapframe (v : Z) (p : proc) : proc :=
  mkproc (p_state p) (p_chan p) (p_killed p) (p_xstate p) (p_pid p) (p_parent p) (p_kstack p)
    (p_sz p) (p_pagetable p) v (p_context p) (p_ofile p) (p_cwd p) (p_name p) (p_nice p)
    (p_nice_adjusted p) (p_runtime p) (p_queue p) (p_pass p).
Definition set_p_context (v : context) (p : proc) : proc :=
  mkproc (p_state p) (p_chan p) (p_killed p) (p_xstate p) (p_pid p) (p_parent p) (p_kstack p)
    (p_sz p) (p_pagetable p) (p_trapframe p) v (p_ofile p) (p_cwd p) (p_name p) (p_nice p)
    (p_nice_adjusted p) (p_runtime p) (p_queue p) (p_pass p).
Definition set_p_ofile (v : list Z) (p : proc) : proc :=
  mkproc (p_state p) (p_chan p) (p_killed p) (p_xstate p) (p_pid p) (p_parent p) (p_kstack p)
    (p_sz p) (p_pagetable p) (p_trapframe p) (p_context p) v (p_cwd p) (p_name p) (p_nice p)
    (p_nice_adjusted p) (p_runtime p) (p_queue p) (p_pass p).
Definition set_p_cwd (v : Z) (p : proc) : proc :=
  mkproc (p_state p) (p_chan p) (p_killed p) (p_xstate p) (p_pid p) (p_parent p) (p_kstack p)
    (p_sz p) (p_pagetable p) (p_trapframe p) (p_context p) (p_ofile p) v (p_name p) (p_nice p)
    (p_nice_adjusted p) (p_runtime p) (p_queue p) (p_pass p).
Definition set_p_name (v : string) (p : proc) : proc :=
  mkproc (p_state p) (p_chan p) (p_killed p) (p_xstate p) (p_pid p) (p_parent p) (p_kstack p)
    (p_sz p) (p_pagetable p) (p_trapframe p) (p_context p) (p_ofile p) (p_cwd p) v (p_nice p)
    (p_nice_adjusted p) (p_runtime p) (p_queue p) (p_pass p).
Definition set_p_nice (v : Z) (p : proc) : proc :=
  mkproc (p_state p) (p_chan p) (p_killed p) (p_xstate p) (p_pid p) (p_parent p) (p_kstack p)
    (p_sz p) (p_pagetable p) (p_trapframe p) (p_context p) (p_ofile p) (p_cwd p) (p_name p) v
    (p_nice_adjusted p) (p_runtime p) (p_queue p) (p_pass p).
Definition set_p_nice_adjusted (v : Z) (p : proc) : proc :=
  mkproc (p_state p) (p_chan p) (p_killed p) (p_xstate p) (p_pid p) (p_parent p) (p_kstack p)
    (p_sz p) (p_pagetable p) (p_trapframe p) (p_context p) (p_ofile p) (p_cwd p) (p_name p)
    (p_nice p) v (p_runtime p) (p_queue p) (p_pass p).
Definition set_p_runtime (v : Z) (p : proc) : proc :=
  mkproc (p_state p) (p_chan p) (p_killed p) (p_xstate p) (p_pid p) (p_parent p) (p_kstack p)
    (p_sz p) (p_pagetable p) (p_trapframe p) (p_context p) (p_ofile p) (p_cwd p) (p_name p)
    (p_nice p) (p_nice_adjusted p) v (p_queue p) (p_pass p).
Definition set_p_queue (v : Z) (p : proc) : proc :=
  mkproc (p_state p) (p_chan p) (p_killed p) (p_xstate p) (p_pid p) (p_parent p) (p_kstack p)
    (p_sz p) (p_pagetable p) (p_trapframe p) (p_context p) (p_ofile p) (p_cwd p) (p_name p)
    (p_nice p) (p_nice_adjusted p) (p_runtime p) v (p_pass p).
Definition set_p_pass (v : Z) (p : proc) : proc :=
  mkproc (p_state p) (p_chan p) (p_killed p) (p_xstate p) (p_pid p) (p_parent p) (p_kstack p)
    (p_sz p) (p_pagetable p) (p_trapframe p) (p_context p) (p_ofile p) (p_cwd p) (p_name p)
    (p_nice p) (p_nice_adjusted p) (p_runtime p) (p_queue p) v.

(** A slot of zeroed storage. *)
Definition proc0 : proc :=
  mkproc UNUSED 0 0 0 0 None 0 0 0 0 (mkcontext CodeNull 0) (replicate (Z.to_nat NOFILE) 0) 0
    "" 0 0 0 0 0.

(** The macros [priority] and [quantum] of queue.h. *)
Definition priority (p : proc) : Z :=
  if bool_decide (p_nice p > 10) then QUEUE_LOW
  else if bool_decide (p_nice p > -10) then QUEUE_MEDIUM else QUEUE_HIGH.
Definition quantum (p : proc) : Z :=
  if bool_decide (p_queue p = QUEUE_HIGH) then 1
  else if bool_decide (p_queue p = QUEUE_MEDIUM) then 10 else 15.

(** ** What proc.c calls in other parts of the kernel

    Physical memory ([env_ld64]/[env_st64]), kalloc.c, vm.c, file.c, fs.c and
    log.c.  Errors are the return values of the C functions.  [addr_ticks] and
    [addr_proc] are the addresses of [ticks] and of the process slots, which the
    linker chooses and which serve as sleep channels. *)
Class ProcEnv (E : Type) := {
  addr_ticks : Z;
  addr_proc : nat → Z;
  env_ld64 : Z → M E Z;
  env_st64 : Z → Z → M E unit;
  env_kalloc : M E Z;
  env_kfree : Z → M E unit;
  env_proc_pagetable : Z → M E Z;
  env_proc_freepagetable : Z → Z → M E unit;
  env_uvmfirst : Z → list Z → M E unit;
  env_uvmcopy : Z → Z → Z → M E Z;
  env_uvmalloc : Z → Z → Z → M E Z;
  env_uvmdealloc : Z → Z → Z → M E Z;
  env_copyout : Z → Z → list Z → M E Z;
  env_filedup : Z → M E Z;
  env_fileclose : Z → M E unit;
  env_idup : Z → M E Z;
  env_iput : Z → M E unit;
  env_begin_op : M E unit;
  env_end_op : M E unit;
  env_namei : string → M E Z;
  env_fsinit : Z → M E unit }.
Arguments addr_ticks E {_}.
Arguments addr_proc E {_} _.

Section proc_c.
Context {E : Type} `{!ProcEnv E}.

(** The globals of proc.c and trap.c, and [cpus[0].proc]. [sched_p] is the
    local variable [p] of [scheduler()]. *)
Record core := mkcore {
  procs : list proc;
  qtable : list qentry;
  cpu_proc : option nat;
  time : Z;
  nextpid : Z;
  p_kicked : Z;
  initproc : option nat;
  log_count : Z;
  schedlog : list logentry;
  ticks : Z;
  sched_p : option nat;
  forkret_first : bool;
  env : E }.

Definition set_procs (v : list proc) (c : core) : core :=
  mkcore v (qtable c) (cpu_proc c) (time c) (nextpid c) (p_kicked c) (initproc c) (log_count c)
    (schedlog c) (ticks c) (sched_p c) (forkret_first c) (env c).
Definition set_qtable (v : list qentry) (c : core) : core :=
  mkcore (procs c) v (cpu_proc c) (time c) (nextpid c) (p_kicked c) (initproc c) (log_count c)
    (schedlog c) (ticks c) (sched_p c) (forkret_first c) (env c).
Definition set_cpu_proc (v : option nat) (c : core) : core :=
  mkcore (procs c) (qtable c) v (time c) (nextpid c) (p_kicked c) (initproc c) (log_count c)
    (schedlog c) (ticks c) (sched_p c) (forkret_first c) (env c).
Definition set_time (v : Z) (c : core) : core :=
  mkcore (procs c) (qtable c) (cpu_proc c) v (nextpid c) (p_kicked c) (initproc c) (log_count c)
    (schedlog c) (ticks c) (sched_p c) (forkret_first c) (env c).
Definition set_nextpid (v : Z) (c : core) : core :=
  mkcore (procs c) (qtable c) (cpu_proc c) (time c) v (p_kicked c) (initproc c) (log_count c)
    (schedlog c) (ticks c) (sched_p c) (forkret_first c) (env c).
Definition set_p_kicked (v : Z) (c : core) : core :=
  mkcore (procs c) (qtable c) (cpu_proc c) (time c) (nextpid c) v (initproc c) (log_count c)
    (schedlog c) (ticks c) (sched_p c) (forkret_first c) (env c).
Definition set_initproc (v : option nat) (c : core) : core :=
  mkcore (procs c) (qtable c) (cpu_proc c) (time c) (nextpid c) (p_kicked c) v (log_count c)
    (schedlog c) (ticks c) (sched_p c) (forkret_first c) (env c).
Definition set_log_count (v : Z) (c : core) : core :=
  mkcore (procs c) (qtable c) (cpu_proc c) (time c) (nextpid c) (p_kicked c) (initproc c) v
    (schedlog c) (ticks c) (sched_p c) (forkret_first c) (env c).
Definition set_schedlog (v : list logentry) (c : core) : core :=
  mkcore (procs c) (qtable c) (cpu_proc c) (time c) (nextpid c) (p_kicked c) (initproc c)
    (log_count c) v (ticks c) (sched_p c) (forkret_first c) (env c).
Definition set_ticks (v : Z) (c : core) : core :=
  mkcore (procs c) (qtable c) (cpu_proc c) (time c) (nextpid c) (p_kicked c) (initproc c)
    (log_count c) (schedlog c) v (sched_p c) (forkret_first c) (env c).
Definition set_sched_p (v : option nat) (c : core) : core :=
  mkcore (procs c) (qtable c) (cpu_proc c) (time c) (nextpid c) (p_kicked c) (initproc c)
    (log_count c) (schedlog c) (ticks c) v (forkret_first c) (env c).
Definition set_forkret_first (v : bool) (c : core) : core :=
  mkcore (procs c) (qtable c) (cpu_proc c) (time c) (nextpid c) (p_kicked c) (initproc c)
    (log_count c) (schedlog c) (ticks c) (sched_p c) v (env c).
Definition set_env (v : E) (c : core) : core :=
  mkcore (procs c) (qtable c) (cpu_proc c) (time c) (nextpid c) (p_kicked c) (initproc c)
    (log_count c) (schedlog c) (ticks c) (sched_p c) (forkret_first c) v.

Record kst := mkkst { kc : core; lks : lockid → spinlock; khart : hart }.

#[global] Instance kst_locks : HasLocks kst lockid := {
  get_hart := khart;
  set_hart := λ h s, mkkst (kc s) (lks s) h;
  get_lock := λ l s, lks s l;
  set_lock := λ l lk s, mkkst (kc s) (λ l', if decide (l' = l) then lk else lks s l') (khart s) }.

(** Access to the globals. *)
Definition cget {A} (f : core → A) : M kst A := gets (λ s, f (kc s)).
Definition cmod (f : core → core) : M kst unit :=
  modify (λ s, mkkst (f (kc s)) (lks s) (khart s)).
Definition clift {A} (m : M core A) : M kst A := λ s,
  '(a, c) ← m (kc s); Ok (a, mkkst c (lks s) (khart s)).

(** [proc[i]], and an assignment to one of its fields. *)
Definition core_getp (i : nat) : M core proc := λ c,
  match procs c !! i with Some p => Ok (p, c) | None => Fault end.
Definition core_modp (i : nat) (f : proc → proc) : M core unit := λ c,
  match procs c !! i with
  | Some p => Ok (tt, set_procs (<[i := f p]> (procs c)) c)
  | None => Fault
  end.
Definition core_q {A} (m : M (list qentry) A) : M core A := λ c,
  '(a, q) ← m (qtable c); Ok (a, set_qtable q c).
Definition core_env {A} (m : M E A) : M core A := λ c,
  '(a, e) ← m (env c); Ok (a, set_env e c).
Definition getp (i : nat) : M kst proc := clift (core_getp i).
Definition modp (i : nat) (f : proc → proc) : M kst unit := clift (core_modp i f).
Definition qlift {A} (m : M (list qentry) A) : M kst A := clift (core_q m).
Definition elift {A} (m : M E A) : M kst A := clift (core_env m).

(** A null pointer dereference. *)
Definition deref {A} (p : option A) : M kst A :=
  match p with Some a => mret a | None => fault end.

Definition slots : list nat := seq 0 (Z.to_nat NPROC).

(** The macro [add_to_queue]. *)
Definition core_add_to_queue (i : nat) : M core unit :=
  p ← core_getp i; core_q (enqueue_back (p_queue p) (Z.of_nat i) DEFAULT_PASS).

Definition make_runnable (i : nat) : M kst unit :=
  modp i (set_p_state RUNNABLE) ;; clift (core_add_to_queue i).

Definition push_offM : M kst unit := modify (λ s, set_hart (push_off (khart s)) s).
Definition pop_offM : M kst unit := λ s, h ← pop_off (khart s); Ok (tt, set_hart h s).

Definition myproc : M kst (option nat) :=
  push_offM ;; p ← cget cpu_proc; pop_offM ;; mret p.

Definition allocpid : M kst Z :=
  acquireM LPid ;;
  pid ← cget nextpid;
  cmod (λ c, set_nextpid (i32 (nextpid c + 1)) c) ;;
  releaseM LPid ;;
  mret pid.

Definition freeproc (i : nat) : M kst unit :=
  p ← getp i;
  (if bool_decide (p_trapframe p ≠ 0) then elift (env_kfree (p_trapframe p)) else mret tt) ;;
  modp i (set_p_trapframe 0) ;;
  (if bool_decide (p_pagetable p ≠ 0)
   then elift (env_proc_freepagetable (p_pagetable p) (p_sz p)) else mret tt) ;;
  modp i (set_p_pagetable 0) ;;
  modp i (set_p_sz 0) ;;
  modp i (set_p_pid 0) ;;
  modp i (set_p_parent None) ;;
  modp i (set_p_name "") ;;
  modp i (set_p_chan 0) ;;
  modp i (set_p_killed 0) ;;
  modp i (set_p_xstate 0) ;;
  modp i (set_p_state UNUSED) ;;
  modp i (set_p_nice 0) ;;
  modp i (set_p_runtime 0) ;;
  modp i (set_p_queue 0) ;;
  modp i (set_p_pass DEFAULT_PASS).

(** The search loop of [allocproc]: the slot is returned with its lock held. *)
Definition find_unused : M kst (option nat) :=
  for_untilM slots (λ i,
    acquireM (LProc i) ;;
    p ← getp i;
    if bool_decide (p_state p = UNUSED) then mret (Some i)
    else releaseM (LProc i) ;; mret None).

(** From the label [found]. *)
Definition allocproc_found (i : nat) : M kst (option nat) :=
  pid ← allocpid;
  modp i (set_p_pid pid) ;;
  modp i (set_p_state USED) ;;
  tf ← elift env_kalloc;
  modp i (set_p_trapframe tf) ;;
  if bool_decide (tf = 0) then freeproc i ;; releaseM (LProc i) ;; mret None
  else
    pt ← elift (env_proc_pagetable tf);
    modp i (set_p_pagetable pt) ;;
    if bool_decide (pt = 0) then freeproc i ;; releaseM (LProc i) ;; mret None
    else
      modp i (set_p_context (mkcontext CodeNull 0)) ;;
      modp i (λ p, set_p_context (mkcontext CodeForkret (p_kstack p + PGSIZE)) p) ;;
      modp i (λ p, set_p_queue (priority p) p) ;;
      modp i (set_p_pass DEFAULT_PASS) ;;
      mret (Some i).

Definition allocproc : M kst (option nat) :=
  found ← find_unused;
  match found with
  | None => mret None
  | Some i => allocproc_found i
  end.

Definition initlockM (l : lockid) (name : string) : M kst unit :=
  modify (set_lock l (initlock name)).

Definition procinit : M kst unit :=
  initlockM LPid "nextpid" ;;
  initlockM LWait "wait_lock" ;;
  forM slots (λ i,
    initlockM (LProc i) "proc" ;;
    modp i (set_p_kstack (KSTACK (Z.of_nat i)))) ;;
  qlift (initialize NUM_QUEUES).
End proc_c.
Arguments core : clear implicits.
Arguments kst : clear implicits.
