(* ===== verification/KLogic.v ===== *)
(** * Running kernel code under its locks

    [at_ c ls s]: the globals are [c], exactly the locks [ls] are held, by this
    hart, and the depth of [push_off] is their number.  [runs ls m c a ls' c']:
    from every such state the code [m] returns [a] with the globals [c'] and
    the locks [ls'] held.  The rules evaluate a handler statement by statement;
    the panics of spinlock.c and of [sched] are side conditions on [ls]. *)
From S2P Require Import Prelude Layout Spinlock Queue Proc.

Section klogic.
Context {E : Type}.
Implicit Types (s : kst E) (c : core E) (ls : list lockid).

Record at_ c ls s : Prop := mkat {
  at_core : kc s = c;
  at_held : ∀ l, l ∈ ls → lk_locked (lks s l) = 1 ∧ lk_cpu (lks s l) = Some (hartid (khart s));
  at_free : ∀ l, l ∉ ls → lk_locked (lks s l) = 0;
  at_nodup : NoDup ls;
  at_hart : hart_ok (khart s);
  at_noff : noff (khart s) = Z.of_nat (length ls) }.

Definition runs {A} ls (m : M (kst E) A) c (a : A) ls' c' : Prop :=
  ∀ s, at_ c ls s → ∃ s', m s = Ok (a, s') ∧ at_ c' ls' s'.

Lemma runs_ret {A} ls c (a : A) : runs ls (mret a) c a ls c.
Proof. intros s Hs. by exists s. Qed.

Lemma runs_bind {A B} ls ls1 ls2 (m : M (kst E) A) (f : A → M (kst E) B) c c1 c2 a b :
  runs ls m c a ls1 c1 → runs ls1 (f a) c1 b ls2 c2 → runs ls (m ≫= f) c b ls2 c2.
Proof.
  intros Hm Hf s Hs. destruct (Hm s Hs) as (s1 & E1 & H1).
  destruct (Hf s1 H1) as (s2 & E2 & H2). exists s2. split; [|done].
  unfold mbind, M_bind. by rewrite E1.
Qed.

Lemma runs_clift {A} ls (m : M (core E) A) c a c' :
  m c = Ok (a, c') → runs ls (clift m) c a ls c'.
Proof.
  intros Hm s [Hc Hh Hf Hn Ho Hk]. exists (mkkst c' (lks s) (khart s)).
  split; [|by constructor]. unfold clift. rewrite Hc, Hm. done.
Qed.

Lemma runs_cget {A} ls (f : core E → A) c : runs ls (cget f) c (f c) ls c.
Proof. intros s [<- ? ? ? ? ?]. exists s. by split. Qed.

Lemma runs_cmod ls f c : runs ls (cmod f) c tt ls (f c).
Proof.
  intros s [<- ? ? ? ? ?]. eexists. split; [done|]. by constructor.
Qed.

Lemma runs_getp ls i c p : procs c !! i = Some p → runs ls (getp i) c p ls c.
Proof. intros H. apply runs_clift. unfold core_getp. by rewrite H. Qed.

Lemma runs_modp ls i f c p :
  procs c !! i = Some p →
  runs ls (modp i f) c tt ls (set_procs (<[i := f p]> (procs c)) c).
Proof. intros H. apply runs_clift. unfold core_modp. by rewrite H. Qed.

Lemma runs_deref {A} ls c (a : A) : runs ls (deref (Some a)) c a ls c.
Proof. apply runs_ret. Qed.

Lemma runs_acquire ls l c : l ∉ ls → runs ls (acquireM l) c tt (l :: ls) c.
Proof.
  intros Hl s [Hc Hh Hf Hn Ho Hk]. eexists.
  split. { unfold acquireM. rewrite acquire_ok by by apply Hf. done. }
  constructor; simpl; try done.
  - intros l' Hl'. case_decide; simpl; [done|]. apply Hh. set_solver.
  - intros l' Hl'. case_decide; simpl; [set_solver|]. apply Hf. set_solver.
  - by constructor.
  - by apply push_off_ok.
  - lia.
Qed.

Lemma hart_ok_pop h : hart_ok h → 1 ≤ noff h → ∃ h', pop_off h = Ok h' ∧ hart_ok h' ∧
  noff h' = noff h - 1 ∧ hartid h' = hartid h.
Proof.
  intros [H0 H1] H. unfold pop_off. rewrite H1 by lia.
  rewrite bool_decide_false by lia. eexists. split; [done|]. split_and!; simpl; [|done|done].
  split; simpl; [lia|]. intros. rewrite bool_decide_false by lia. done.
Qed.

Lemma runs_release ls ls' l c : ls ≡ₚ l :: ls' → runs ls (releaseM l) c tt ls' c.
Proof.
  intros Hp s [Hc Hh Hf Hn Ho Hk].
  assert (Hl : l ∈ ls) by (rewrite Hp; set_solver). destruct (Hh l Hl) as [L1 L2].
  assert (Hlen : length ls = S (length ls')) by (by rewrite Hp).
  destruct (hart_ok_pop (khart s) Ho) as (h' & Eh & Oh & Nh & Ih); [lia|].
  assert (Hd : NoDup (l :: ls')) by (by rewrite <- Hp).
  apply NoDup_cons in Hd as [Hl' Hd].
  eexists. split.
  { unfold releaseM, release, holding. simpl.
    rewrite L1, L2, !bool_decide_true by done. simpl. by rewrite Eh. }
  constructor; simpl; try done.
  - intros l0 Hl0. rewrite decide_False by (intros ->; done). rewrite Ih.
    apply Hh. rewrite Hp. set_solver.
  - intros l0 Hl0. case_decide; [done|]. apply Hf. rewrite Hp. set_solver.
  - lia.
Qed.

Lemma runs_holding ls l c : l ∈ ls → runs ls (holdingM l) c true ls c.
Proof.
  intros Hl s Hs. exists s. split; [|done]. unfold holdingM, gets, holding. simpl.
  destruct (at_held _ _ _ Hs l Hl) as [-> ->]. by rewrite !bool_decide_true by done.
Qed.

Lemma runs_noff ls c : runs ls (gets (λ s, noff (khart s))) c (Z.of_nat (length ls)) ls c.
Proof. intros s Hs. exists s. split; [|done]. unfold gets. by rewrite (at_noff _ _ _ Hs). Qed.

Lemma runs_sie ls c : ls ≠ [] → runs ls (gets (λ s, sie (khart s))) c false ls c.
Proof.
  intros Hl s Hs. exists s. split; [|done]. unfold gets.
  destruct (at_hart _ _ _ Hs) as [_ H]. rewrite H; [done|].
  rewrite (at_noff _ _ _ Hs). destruct ls; [done|]. simpl. lia.
Qed.

Lemma runs_myproc ls c : runs ls myproc c (cpu_proc c) ls c.
Proof.
  intros s [Hc Hh Hf Hn Ho Hk]. eexists. split.
  { unfold myproc, push_offM, pop_offM, cget, modify, gets, mbind, M_bind. simpl.
    rewrite (pop_push_off _ Ho). simpl. by rewrite Hc. }
  by constructor.
Qed.

(** A loop whose body keeps a property of the globals; the locks held are the
    same before and after each round. *)
Lemma runs_forM {A} ls (l : list A) (f : A → M (kst E) unit) (I : core E → Prop) c :
  I c → (∀ x c1, x ∈ l → I c1 → ∃ c2, runs ls (f x) c1 tt ls c2 ∧ I c2) →
  ∃ c', runs ls (forM l f) c tt ls c' ∧ I c'.
Proof.
  revert c. induction l as [|x l IH]; intros c Hc Hf; simpl.
  - exists c. split; [apply runs_ret|done].
  - destruct (Hf x c) as (c1 & R1 & I1); [set_solver|done|].
    destruct (IH c1 I1) as (c2 & R2 & I2).
    { intros y c3 Hy. apply Hf. set_solver. }
    exists c2. split; [|done]. by eapply runs_bind.
Qed.

(** Loop over the table with the slot number in the property. *)
Lemma runs_for_seq ls (f : nat → M (kst E) unit) (I : nat → core E → Prop) n c :
  I O c → (∀ j c1, (j < n)%nat → I j c1 → ∃ c2, runs ls (f j) c1 tt ls c2 ∧ I (S j) c2) →
  ∃ c', runs ls (forM (seq 0 n) f) c tt ls c' ∧ I n c'.
Proof.
  intros H0 Hf.
  assert (H : ∀ m k c1, (k + m = n)%nat → I k c1 →
            ∃ c', runs ls (forM (seq k m) f) c1 tt ls c' ∧ I n c').
  { induction m as [|m IH]; intros k c1 Hk HI; simpl.
    - exists c1. split; [apply runs_ret|]. by replace n with k by lia.
    - destruct (Hf k c1) as (c2 & R & I2); [lia|done|].
      destruct (IH (S k) c2) as (c3 & R3 & I3); [lia|done|].
      exists c3. split; [|done]. by eapply runs_bind. }
  by apply (H n O c).
Qed.

(** The general form: every run ends normally, in one of the outcomes [Q]. *)
Definition leads {A} ls (m : M (kst E) A) c (Q : A → list lockid → core E → Prop) : Prop :=
  ∀ s, at_ c ls s → ∃ a s' ls' c', m s = Ok (a, s') ∧ at_ c' ls' s' ∧ Q a ls' c'.

Lemma leads_runs {A} ls (m : M (kst E) A) c (Q : A → list lockid → core E → Prop) a ls' c' :
  runs ls m c a ls' c' → Q a ls' c' → leads ls m c Q.
Proof. intros Hm HQ s Hs. destruct (Hm s Hs) as (s' & E1 & H1). eauto 10. Qed.

Lemma leads_bind {A B} ls (m : M (kst E) A) (f : A → M (kst E) B) c R Q :
  leads ls m c R → (∀ a ls1 c1, R a ls1 c1 → leads ls1 (f a) c1 Q) → leads ls (m ≫= f) c Q.
Proof.
  intros Hm Hf s Hs. destruct (Hm s Hs) as (a & s1 & ls1 & c1 & E1 & H1 & HR).
  destruct (Hf a ls1 c1 HR s1 H1) as (b & s2 & ls2 & c2 & E2 & H2 & HQ).
  exists b, s2, ls2, c2. split; [|done]. unfold mbind, M_bind. by rewrite E1.
Qed.

Lemma leads_bind_runs {A B} ls ls1 (m : M (kst E) A) (f : A → M (kst E) B) c c1 a Q :
  runs ls m c a ls1 c1 → leads ls1 (f a) c1 Q → leads ls (m ≫= f) c Q.
Proof.
  intros Hm Hf. eapply leads_bind; [by eapply (leads_runs _ _ _ (λ a' l' c', a' = a ∧ l' = ls1 ∧ c' = c1))|].
  by intros ? ? ? (-> & -> & ->).
Qed.

Lemma leads_conseq {A} ls (m : M (kst E) A) c (Q Q' : A → list lockid → core E → Prop) :
  leads ls m c Q → (∀ a l c', Q a l c' → Q' a l c') → leads ls m c Q'.
Proof. intros Hm H s Hs. destruct (Hm s Hs) as (a & s' & l & c' & ? & ? & ?). eauto 10. Qed.

(** ** Working on one slot

    [upd_p i p c]: the globals [c] with [p] in slot [i].  A run of assignments
    to the fields of [proc[i]] changes only [p]. *)
Definition upd_p i p c : core E := set_procs (<[i := p]> (procs c)) c.

Lemma upd_p_id i p c : procs c !! i = Some p → upd_p i p c = c.
Proof. intros H. unfold upd_p. rewrite list_insert_id by done. by destruct c. Qed.

Lemma upd_p_lookup i p c p0 : procs c !! i = Some p0 → procs (upd_p i p c) !! i = Some p.
Proof. intros H%lookup_lt_Some. by apply list_lookup_insert_eq. Qed.

Lemma upd_p_ne i p c j : i ≠ j → procs (upd_p i p c) !! j = procs c !! j.
Proof. intros. by apply list_lookup_insert_ne. Qed.

Lemma upd_p_upd i p p' c : upd_p i p' (upd_p i p c) = upd_p i p' c.
Proof. unfold upd_p. simpl. by rewrite list_insert_insert_eq. Qed.

Lemma slot_modp {B} ls i f p p0 c (k : unit → M (kst E) B) b ls' c' :
  procs c !! i = Some p0 →
  runs ls (k tt) (upd_p i (f p) c) b ls' c' → runs ls (modp i f ≫= k) (upd_p i p c) b ls' c'.
Proof.
  intros Hp H. eapply runs_bind; [eapply runs_modp, upd_p_lookup, Hp|].
  by rewrite <- (upd_p_upd i p (f p) c) in H.
Qed.

Lemma slot_modp_last ls i f p p0 c :
  procs c !! i = Some p0 → runs ls (modp i f) (upd_p i p c) tt ls (upd_p i (f p) c).
Proof.
  intros Hp. rewrite <- (upd_p_upd i p (f p) c). eapply runs_modp, upd_p_lookup, Hp.
Qed.

Lemma slot_getp {B} ls i p p0 c (k : proc → M (kst E) B) b ls' c' :
  procs c !! i = Some p0 →
  runs ls (k p) (upd_p i p c) b ls' c' → runs ls (getp i ≫= k) (upd_p i p c) b ls' c'.
Proof. intros Hp H. eapply runs_bind; [eapply runs_getp, upd_p_lookup, Hp|done]. Qed.

Lemma runs_elift `{!ProcEnv E} {A} ls (m : M E A) c a e' :
  m (env c) = Ok (a, e') → runs ls (elift m) c a ls (set_env e' c).
Proof. intros H. apply runs_clift. unfold core_env. by rewrite H. Qed.

Lemma slot_elift `{!ProcEnv E} {A B} ls (m : M E A) i p c (k : A → M (kst E) B) a e' b ls' c' :
  m (env c) = Ok (a, e') →
  runs ls (k a) (upd_p i p (set_env e' c)) b ls' c' → runs ls (elift m ≫= k) (upd_p i p c) b ls' c'.
Proof. intros Hm H. eapply runs_bind; [by apply runs_elift|exact H]. Qed.
End klogic.

Create HintDb kern.
#[export] Hint Resolve runs_ret runs_cget runs_cmod runs_deref runs_myproc runs_noff : kern.

(** Evaluate the first statement of a handler with a given rule. *)
Tactic Notation "krun" uconstr(lem) := eapply runs_bind; [eapply lem|]; cbn beta iota.
Tactic Notation "klead" uconstr(lem) := eapply leads_bind_runs; [eapply lem|]; cbn beta iota.
Ltac kgo := repeat (eapply runs_bind; [solve [eauto with kern]|]; cbn beta iota).
