(* ===== verification/Sched.v ===== *)
(** * The multi-level feedback queue scheduler: kernel/proc.c

    [scheduler], [sched], [yield], [sleep], [wakeup], [kill], [sys_nice] and the
    scheduling log.  A call of [swtch] ends a definition: [sched] saves the
    context of the process and control is in the scheduler, whose loop body is
    cut at its own [swtch] into [scheduler_return] (what follows it) and
    [scheduler_body] (from the top of the loop to the next [swtch]); [resume]
    is what the process that was switched to does first. *)
From S2P Require Import Prelude Layout Spinlock Queue Proc.

Section sched_c.
Context {E : Type} `{!ProcEnv E}.
Abbreviation kst := (kst E).
Abbreviation core := (core E).

(** [schedlog[i].f = ...] *)
Definition core_log (i : Z) (f : logentry → logentry) : M core unit := λ c,
  match zidx (schedlog c) i with
  | Some e => Ok (tt, set_schedlog (<[Z.to_nat i := f e]> (schedlog c)) c)
  | None => Fault
  end.
Definition core_getlog (i : Z) : M core logentry := λ c,
  match zidx (schedlog c) i with Some e => Ok (e, c) | None => Fault end.

Definition sys_startlog : M kst Z :=
  cmod (set_log_count 0) ;; mret 0.

(** Up to its [swtch].  [c] says which caller [sched] will return to. *)
Definition sched (c : caller) : M kst unit :=
  mp ← myproc; i ← deref mp;
  hp ← holdingM (LProc i);
  (if negb hp then panic "sched p->lock" else mret tt) ;;
  n ← gets (λ s, noff (khart s));
  (if bool_decide (n ≠ 1) then panic "sched locks" else mret tt) ;;
  p ← getp i;
  (if bool_decide (p_state p = RUNNING) then panic "sched running" else mret tt) ;;
  on ← gets (λ s, sie (khart s));
  (if on : bool then panic "sched interruptible" else mret tt) ;;
  ie ← gets (λ s, intena (khart s));
  modp i (λ p, set_p_context (mkcontext (CodeSched ie c) (ctx_sp (p_context p))) p).

(** The priority boost of [yield]. *)
Definition boost_one (j : nat) : M kst unit :=
  q ← getp j;
  if bool_decide (p_state q = RUNNABLE) then
    modp j (λ q, set_p_queue (priority q) q) ;;
    modp j (set_p_runtime 0) ;;
    clift (core_add_to_queue j)
  else mret tt.

Definition boost_logging : M kst unit :=
  n ← cget log_count;
  if bool_decide (n < LOG_SIZE) then
    clift (core_log n (λ e, mklogentry (le_pid e) (le_time e) (le_queue e) 1)) ;;
    cmod (set_log_count (n + 1)) ;;
    t ← cget time;
    clift (core_log n (λ e, mklogentry (le_pid e) t (le_queue e) (le_boost e)))
  else mret tt.

Definition boost (i : nat) : M kst unit :=
  t ← cget time;
  if bool_decide (Z.rem t 60 = 0) then
    boost_logging ;;
    qlift (initialize NUM_QUEUES) ;;
    modp i (set_p_runtime 0) ;;
    cmod (set_p_kicked 1) ;;
    forM slots boost_one
  else mret tt.

(** The accounting of [yield], under the process's lock. *)
Definition yield_account (i : nat) : M kst unit :=
  p ← getp i;
  (if bool_decide (p_state p ≠ UNUSED) then modp i (set_p_runtime (p_runtime p + 1)) else mret tt) ;;
  modp i (set_p_state RUNNABLE) ;;
  p ← getp i;
  if bool_decide (quantum p ≤ p_runtime p) then
    modp i (set_p_queue (Z.max QUEUE_LOW (p_queue p - 1))) ;;
    modp i (set_p_runtime 0) ;;
    clift (core_add_to_queue i)
  else cmod (set_p_kicked 0).

(** [yield] up to its call of [sched]; [resume] has the rest. *)
Definition yield : M kst unit :=
  mp ← myproc; i ← deref mp;
  acquireM (LProc i) ;;
  yield_account i ;;
  boost i ;;
  sched InYield.

(** [sys_nice] up to the [sched] in [yield]; [inc] is what [argint] stored.
    The addition of two [int]s is the machine's, which wraps. *)
Definition sys_nice (inc : Z) : M kst unit :=
  mp ← myproc; i ← deref mp;
  modp i (λ p, set_p_nice (Z.max (Z.min (i32 (p_nice p + inc)) NICE_MAX) NICE_MIN) p) ;;
  modp i (λ p, set_p_queue (priority p) p) ;;
  modp i (set_p_runtime 0) ;;
  cmod (set_p_kicked 1) ;;
  yield.

(** [sleep] up to its call of [sched]. *)
Definition sleep (chan : Z) (lk : lockid) : M kst unit :=
  mp ← myproc; i ← deref mp;
  acquireM (LProc i) ;;
  releaseM lk ;;
  modp i (set_p_chan chan) ;;
  modp i (set_p_state SLEEPING) ;;
  sched (InSleep lk).

Definition wakeup_one (chan : Z) (i : nat) : M kst unit :=
  me ← myproc;
  if bool_decide (Some i ≠ me) then
    acquireM (LProc i) ;;
    p ← getp i;
    (if bool_decide (p_state p = SLEEPING) && bool_decide (p_chan p = chan)
     then make_runnable i else mret tt) ;;
    releaseM (LProc i)
  else mret tt.
Definition wakeup (chan : Z) : M kst unit := forM slots (wakeup_one chan).

Definition kill_one (pid : Z) (i : nat) : M kst (option Z) :=
  acquireM (LProc i) ;;
  p ← getp i;
  if bool_decide (p_pid p = pid) then
    modp i (set_p_killed 1) ;;
    (if bool_decide (p_state p = SLEEPING) then make_runnable i else mret tt) ;;
    releaseM (LProc i) ;;
    mret (Some 0)
  else releaseM (LProc i) ;; mret None.
Definition kill (pid : Z) : M kst Z :=
  r ← for_untilM slots (kill_one pid);
  match r with Some v => mret v | None => mret (-1) end.

(** ** The timer interrupt: kernel/trap.c *)

Definition clockintr : M kst unit :=
  acquireM LTicks ;;
  cmod (λ c, set_ticks (u32 (ticks c + 1)) c) ;;
  wakeup (addr_ticks E) ;;
  releaseM LTicks.

(** [++time], an [int]. *)
Definition inc_time : M kst unit := cmod (λ c, set_time (i32 (time c + 1)) c).

(** [kerneltrap] on a timer interrupt: [true] when it has called [yield]. *)
Definition kerneltrap_timer : M kst bool :=
  clockintr ;;
  inc_time ;;
  mp ← myproc;
  match mp with
  | Some i =>
      p ← getp i;
      if bool_decide (p_state p = RUNNING) then yield ;; mret true else mret false
  | None => mret false
  end.

(** ** The scheduler loop *)

(** After [swtch] has returned to [scheduler]. *)
Definition scheduler_return : M kst unit :=
  cmod (set_cpu_proc None) ;;
  mp ← cget sched_p; i ← deref mp;
  releaseM (LProc i).

(** The logging test of [scheduler]. *)
Definition log_switch (i : nat) : M kst unit :=
  p ← getp i;
  n ← cget log_count;
  if bool_decide (n < LOG_SIZE) then
    same ← (if bool_decide (n ≠ 0) then
              e ← clift (core_getlog (n - 1));
              mret (bool_decide (le_pid e = p_pid p) && bool_decide (le_queue e = p_queue p))
            else mret false);
    if (same : bool) then mret tt
    else
      t ← cget time;
      clift (core_log n (λ e, mklogentry (le_pid e) (le_time e) (le_queue e) 0)) ;;
      clift (core_log n (λ e, mklogentry (le_pid e) (le_time e) (p_queue p) (le_boost e))) ;;
      clift (core_log n (λ e, mklogentry (p_pid p) (le_time e) (le_queue e) (le_boost e))) ;;
      cmod (set_log_count (n + 1)) ;;
      clift (core_log n (λ e, mklogentry (le_pid e) t (le_queue e) (le_boost e)))
  else mret tt.

Definition intr_onM : M kst unit :=
  modify (λ s, set_hart (mkhart (hartid (khart s)) true (noff (khart s)) (intena (khart s))) s).

(** From the top of the loop to [swtch]: [Some i] when process [i] is switched
    to, [None] for the [continue]. *)
Definition scheduler_body : M kst (option nat) :=
  intr_onM ;;
  k ← cget p_kicked;
  go ← (if bool_decide (k ≠ 0) then
          process_id ← qlift dequeue;
          if bool_decide (process_id = EMPTY) then mret false
          else if bool_decide (process_id < 0) then fault
          else cmod (set_sched_p (Some (Z.to_nat process_id))) ;; mret true
        else mret true);
  if negb go then mret None
  else
    mp ← cget sched_p; i ← deref mp;
    acquireM (LProc i) ;;
    modp i (set_p_state RUNNING) ;;
    cmod (set_cpu_proc (Some i)) ;;
    log_switch i ;;
    cmod (set_p_kicked 1) ;;
    mret (Some i).

(** [forkret], up to [usertrapret]. *)
Definition forkret : M kst unit :=
  mp ← myproc; i ← deref mp;
  releaseM (LProc i) ;;
  first ← cget forkret_first;
  if first : bool then
    cmod (set_forkret_first false) ;; elift (env_fsinit 1)
  else mret tt.

(** What process [i] does when it is switched to: the rest of [sched], then
    the rest of [sched]'s caller. *)
Definition resume (i : nat) : M kst unit :=
  p ← getp i;
  match ra (p_context p) with
  | CodeNull => fault
  | CodeForkret => forkret
  | CodeSched ie c =>
      modify (λ s, set_hart (mkhart (hartid (khart s)) (sie (khart s)) (noff (khart s)) ie) s) ;;
      match c with
      | InYield => releaseM (LProc i)
      | InSleep lk =>
          modp i (set_p_chan 0) ;;
          releaseM (LProc i) ;;
          acquireM lk
      | InExit => panic "zombie exit"
      end
  end.
End sched_c.
