(* ===== verification/Fork.v ===== *)
(** * The life of a process: kernel/proc.c

    [userinit], [growproc], [fork], [reparent], [exit], [wait] and [sys_getlog].
    What they ask of the rest of the kernel goes through [ProcEnv]; the calls
    that can block inside it ([fileclose], [iput], [begin_op]) are single steps
    here.  [exit] ends at its [sched]; [wait] ends at its [sleep]
    ([WaitBlocked]) and goes on at [wait_scan] when it is resumed, with
    [wait_lock] held again. *)
From S2P Require Import Prelude Layout Spinlock Queue Proc Sched.

Section fork_c.
Context {E : Type} `{!ProcEnv E}.
Abbreviation kst := (kst E).
Abbreviation core := (core E).

(** A [struct proc *] as a number. *)
Definition addr_opt (p : option nat) : Z :=
  match p with Some i => addr_proc E i | None => 0 end.

(** The bytes of [initcode]. *)
Definition initcode : list Z :=
  [23; 5; 0; 0; 19; 5; 69; 2; 151; 5; 0; 0; 147; 133; 53; 2; 147; 8; 112; 0; 115; 0; 0; 0;
   147; 8; 32; 0; 115; 0; 0; 0; 239; 240; 159; 255; 47; 105; 110; 105; 116; 0; 0; 36; 0; 0; 0; 0;
   0; 0; 0; 0].

(** Offsets in [struct trapframe] and its size in words. *)
Definition tf_sp : Z := 48.
Definition tf_epc : Z := 24.
Definition tf_a0 : Z := 112.
Definition tf_words : nat := 36.

Definition userinit : M kst unit :=
  mp ← allocproc;
  cmod (set_initproc mp) ;;
  i ← deref mp;
  p ← getp i;
  elift (env_uvmfirst (p_pagetable p) initcode) ;;
  modp i (set_p_sz PGSIZE) ;;
  elift (env_st64 (p_trapframe p + tf_epc) 0) ;;
  elift (env_st64 (p_trapframe p + tf_sp) PGSIZE) ;;
  modp i (set_p_name "initcode") ;;
  cwd ← elift (env_namei "/");
  modp i (set_p_cwd cwd) ;;
  make_runnable i ;;
  releaseM (LProc i).

(** [uint sz]: the sizes go through 32 bits. *)
Definition growproc (n : Z) : M kst Z :=
  mp ← myproc; i ← deref mp;
  p ← getp i;
  let sz := u32 (p_sz p) in
  if bool_decide (n > 0) then
    sz' ← elift (env_uvmalloc (p_pagetable p) sz (u32 (sz + n)));
    if bool_decide (u32 sz' = 0) then mret (-1)
    else modp i (set_p_sz (u32 sz')) ;; mret 0
  else
    sz' ← (if bool_decide (n < 0)
           then r ← elift (env_uvmdealloc (p_pagetable p) sz (u32 (sz + n))); mret (u32 r)
           else mret sz);
    modp i (set_p_sz sz') ;; mret 0.

(** [*(np->trapframe) = *(p->trapframe)] *)
Definition copy_trapframe (dst src : Z) : M E unit :=
  forM (seq 0 tf_words) (λ k,
    v ← env_ld64 (src + 8 * Z.of_nat k); env_st64 (dst + 8 * Z.of_nat k) v).

(** [np->ofile[i] = filedup(p->ofile[i])] *)
Definition fork_file (i j : nat) (fd : nat) : M kst unit :=
  p ← getp i;
  f ← deref (p_ofile p !! fd);
  if bool_decide (f ≠ 0) then
    f' ← elift (env_filedup f);
    modp j (λ np, set_p_ofile (<[fd := f']> (p_ofile np)) np)
  else mret tt.

(** From the call of [uvmcopy]. *)
Definition fork_copy (i j : nat) : M kst Z :=
  p ← getp i;
  np ← getp j;
  r ← elift (env_uvmcopy (p_pagetable p) (p_pagetable np) (p_sz p));
  if bool_decide (r < 0) then freeproc j ;; releaseM (LProc j) ;; mret (-1)
  else
    modp j (set_p_sz (p_sz p)) ;;
    elift (copy_trapframe (p_trapframe np) (p_trapframe p)) ;;
    elift (env_st64 (p_trapframe np + tf_a0) 0) ;;
    forM (seq 0 (Z.to_nat NOFILE)) (fork_file i j) ;;
    cwd ← elift (env_idup (p_cwd p));
    modp j (set_p_cwd cwd) ;;
    modp j (set_p_name (p_name p)) ;;
    np ← getp j;
    let pid := p_pid np in
    releaseM (LProc j) ;;
    acquireM LWait ;;
    modp j (set_p_parent (Some i)) ;;
    releaseM LWait ;;
    acquireM (LProc j) ;;
    make_runnable j ;;
    releaseM (LProc j) ;;
    mret pid.

Definition fork : M kst Z :=
  mp ← myproc; i ← deref mp;
  mnp ← allocproc;
  match mnp with
  | None => mret (-1)
  | Some j => fork_copy i j
  end.

Definition reparent_one (i j : nat) : M kst unit :=
  pp ← getp j;
  if bool_decide (p_parent pp = Some i) then
    ip ← cget initproc;
    modp j (set_p_parent ip) ;;
    wakeup (addr_opt ip)
  else mret tt.
Definition reparent (i : nat) : M kst unit := forM slots (reparent_one i).

Definition exit_file (i : nat) (fd : nat) : M kst unit :=
  p ← getp i;
  f ← deref (p_ofile p !! fd);
  if bool_decide (f ≠ 0) then
    elift (env_fileclose f) ;;
    modp i (λ p, set_p_ofile (<[fd := 0]> (p_ofile p)) p)
  else mret tt.

(** Up to [sched]; were it to return, [resume] panics. *)
Definition exit (status : Z) : M kst unit :=
  mp ← myproc; i ← deref mp;
  ip ← cget initproc;
  (if bool_decide (Some i = ip) then panic "init exiting" else mret tt) ;;
  forM (seq 0 (Z.to_nat NOFILE)) (exit_file i) ;;
  elift env_begin_op ;;
  p ← getp i;
  elift (env_iput (p_cwd p)) ;;
  elift env_end_op ;;
  modp i (set_p_cwd 0) ;;
  acquireM LWait ;;
  reparent i ;;
  p ← getp i;
  wakeup (addr_opt (p_parent p)) ;;
  acquireM (LProc i) ;;
  modp i (set_p_xstate status) ;;
  modp i (set_p_state ZOMBIE) ;;
  releaseM LWait ;;
  sched InExit.

Inductive wait_result := WaitRet (v : Z) | WaitBlocked.

(** One process of the scan: [Some v] when [wait] returns [v], else whether it
    is a child. *)
Definition wait_one (i : nat) (addr : Z) (j : nat) : M kst (option Z * bool) :=
  np ← getp j;
  if bool_decide (p_parent np = Some i) then
    acquireM (LProc j) ;;
    np ← getp j;
    if bool_decide (p_state np = ZOMBIE) then
      let pid := p_pid np in
      p ← getp i;
      r ← (if bool_decide (addr ≠ 0)
           then elift (env_copyout (p_pagetable p) addr (le_bytes 4 (p_xstate np)))
           else mret 0);
      if bool_decide (r < 0) then releaseM (LProc j) ;; releaseM LWait ;; mret (Some (-1), true)
      else freeproc j ;; releaseM (LProc j) ;; releaseM LWait ;; mret (Some pid, true)
    else releaseM (LProc j) ;; mret (None, true)
  else mret (None, false).

Fixpoint wait_loop (i : nat) (addr : Z) (l : list nat) (havekids : bool) : M kst (option Z * bool) :=
  match l with
  | [] => mret (None, havekids)
  | j :: l' =>
      '(r, kid) ← wait_one i addr j;
      match r with
      | Some v => mret (Some v, true)
      | None => wait_loop i addr l' (havekids || kid)
      end
  end.

(** One round of the [for(;;)], up to its [sleep]. *)
Definition wait_scan (addr : Z) : M kst wait_result :=
  mp ← myproc; i ← deref mp;
  '(r, havekids) ← wait_loop i addr slots false;
  match r with
  | Some v => mret (WaitRet v)
  | None =>
      p ← getp i;
      if negb havekids || bool_decide (p_killed p ≠ 0) then releaseM LWait ;; mret (WaitRet (-1))
      else sleep (addr_proc E i) LWait ;; mret WaitBlocked
  end.

Definition wait (addr : Z) : M kst wait_result :=
  acquireM LWait ;;
  wait_scan addr.

(** [schedlog] as it lies in memory. *)
Definition logentry_bytes (e : logentry) : list Z :=
  le_bytes 4 (le_pid e) ++ le_bytes 4 (le_time e) ++ le_bytes 4 (le_queue e) ++ le_bytes 4 (le_boost e).

(** [userlog] is what [argaddr] stored; [argaddr] never fails. *)
Definition sys_getlog (userlog : Z) : M kst Z :=
  mp ← myproc; i ← deref mp;
  p ← getp i;
  es ← cget schedlog;
  r ← elift (env_copyout (p_pagetable p) userlog (concat (logentry_bytes <$> es)));
  if bool_decide (r < 0) then mret (-1) else cget log_count.
End fork_c.
