(* ===== verification/SchedInv.v ===== *)
(** * The scheduler invariant and the ways it moves

    [sinv ps qt car Q]: the process table [ps] and the queue table [qt] agree:
    [qt] represents the queues [Q]; the processes in the queues are exactly
    the RUNNABLE ones, each in the queue its [queue] field names, except the
    process [car] that keeps the CPU without being queued ([p_kicked == 0]).
    The lemmas are the elementary moves of the handlers of proc.c. *)
From S2P Require Import Prelude Layout Spinlock Queue Proc.

(** Per-process bounds: a valid queue, a legal nice value, and a run time
    strictly below the quantum of its queue. *)
Definition pwf (p : proc) : Prop :=
  is_queue (p_queue p) ∧ NICE_MIN ≤ p_nice p ≤ NICE_MAX ∧ 0 ≤ p_runtime p < quantum p.

Lemma priority_is_queue p : is_queue (priority p).
Proof.
  unfold priority, is_queue, QUEUE_LOW, QUEUE_MEDIUM, QUEUE_HIGH.
  repeat case_bool_decide; lia.
Qed.

Lemma quantum_pos p : 1 ≤ quantum p ≤ 15.
Proof. unfold quantum. repeat case_bool_decide; lia. Qed.

Lemma pwf_reset p : pwf p → pwf (set_p_runtime 0 p).
Proof.
  intros (H1 & H2 & H3). split; [done|]. split; [done|].
  change (quantum (set_p_runtime 0 p)) with (quantum p). simpl. pose proof (quantum_pos p). lia.
Qed.

(** [sinv_on D]: the agreement for the slots in [D] only. *)
Record sinv_on (D : nat → Prop) (ps : list proc) (qt : list qentry) (car : option nat)
    (Q : queues) : Prop := mksinv {
  si_len : Z.of_nat (length ps) = NPROC;
  si_rep : rep qt Q;
  si_wf : ∀ i p, ps !! i = Some p → pwf p;
  si_runnable : ∀ i p, D i → ps !! i = Some p → p_state p = RUNNABLE → car ≠ Some i →
    Z.of_nat i ∈ qget Q (p_queue p);
  si_queued : ∀ k i, is_queue k → Z.of_nat i ∈ qget Q k →
    D i ∧ car ≠ Some i ∧ ∃ p, ps !! i = Some p ∧ p_state p = RUNNABLE ∧ p_queue p = k;
  si_carried : ∀ i, car = Some i → ∃ p, ps !! i = Some p ∧ p_state p = RUNNABLE }.
Definition sinv : list proc → list qentry → option nat → queues → Prop := sinv_on (λ _, True).

Section moves.
Variable D : nat → Prop.
Implicit Types (ps : list proc) (qt : list qentry) (car : option nat) (Q : queues).

Lemma si_range ps qt car Q i p :
  sinv_on D ps qt car Q → ps !! i = Some p → 0 ≤ Z.of_nat i < NPROC.
Proof. intros HI Hp%lookup_lt_Some. pose proof (si_len _ _ _ _ _ HI). lia. Qed.

Lemma si_not_queued ps qt car Q i p :
  sinv_on D ps qt car Q → ps !! i = Some p → p_state p ≠ RUNNABLE ∨ car = Some i ∨ ¬ D i →
  Z.of_nat i ∉ qall Q.
Proof.
  intros HI Hp Hn (k & Hk & Hi)%qall_get.
  destruct (si_queued _ _ _ _ _ HI k i Hk Hi) as (Hd & Hc & p' & Hp' & Hs & _). naive_solver.
Qed.

(** A process that is not RUNNABLE, before or after. *)
Lemma sinv_other ps qt car Q i p p' :
  sinv_on D ps qt car Q → ps !! i = Some p →
  p_state p ≠ RUNNABLE → p_state p' ≠ RUNNABLE → pwf p' →
  sinv_on D (<[i := p']> ps) qt car Q.
Proof.
  intros HI Hp Hs Hs' Hwf. pose proof (lookup_lt_Some _ _ _ Hp) as Hlt.
  assert (Hc : car ≠ Some i).
  { intros E. destruct (si_carried _ _ _ _ _ HI i E) as (? & ? & ?). congruence. }
  split.
  - rewrite length_insert. apply (si_len _ _ _ _ _ HI).
  - apply (si_rep _ _ _ _ _ HI).
  - intros j q. rewrite list_lookup_insert. case_decide; intros; simplify_eq; try done.
    by eapply (si_wf _ _ _ _ _ HI).
  - intros j q Hd. rewrite list_lookup_insert. case_decide; intros; simplify_eq; try done.
    by apply (si_runnable _ _ _ _ _ HI).
  - intros k j Hk Hj. destruct (si_queued _ _ _ _ _ HI k j Hk Hj) as (Hd & Hcj & q & Hq & Hqs & Hqk).
    split_and!; [done|done|]. exists q. rewrite list_lookup_insert_ne; [done|]. intros ->. congruence.
  - intros j Hj. destruct (si_carried _ _ _ _ _ HI j Hj) as (q & Hq & Hqs).
    exists q. rewrite list_lookup_insert_ne; [done|]. intros ->. congruence.
Qed.

(** A process whose state and queue stay the same. *)
Lemma sinv_same ps qt car Q i p p' :
  sinv_on D ps qt car Q → ps !! i = Some p →
  p_state p' = p_state p → p_queue p' = p_queue p → pwf p' →
  sinv_on D (<[i := p']> ps) qt car Q.
Proof.
  intros HI Hp Hs Hq Hwf. pose proof (lookup_lt_Some _ _ _ Hp) as Hlt.
  assert (Hrev : ∀ j q, <[i := p']> ps !! j = Some q →
            ∃ q0, ps !! j = Some q0 ∧ p_state q = p_state q0 ∧ p_queue q = p_queue q0).
  { intros j q. rewrite list_lookup_insert. case_decide; intros; simplify_eq; eauto.
    destruct H as [-> _]. eauto. }
  assert (Hfwd : ∀ j q0, ps !! j = Some q0 →
            ∃ q, <[i := p']> ps !! j = Some q ∧ p_state q = p_state q0 ∧ p_queue q = p_queue q0).
  { intros j q0 Hj. destruct (decide (i = j)) as [->|Hne].
    - simplify_eq. exists p'. by rewrite list_lookup_insert_eq.
    - exists q0. by rewrite list_lookup_insert_ne. }
  split.
  - rewrite length_insert. apply (si_len _ _ _ _ _ HI).
  - apply (si_rep _ _ _ _ _ HI).
  - intros j q. rewrite list_lookup_insert. case_decide; intros; simplify_eq; try done.
    by eapply (si_wf _ _ _ _ _ HI).
  - intros j q Hd Hj Hr Hc. destruct (Hrev j q Hj) as (q0 & Hq0 & E1 & E2).
    rewrite E2. apply (si_runnable _ _ _ _ _ HI); congruence.
  - intros k j Hk Hj. destruct (si_queued _ _ _ _ _ HI k j Hk Hj) as (Hd & Hcj & q & Hqq & Hqs & Hqk).
    destruct (Hfwd j q Hqq) as (q' & ? & ? & ?). split_and!; [done|done|].
    exists q'. split_and!; congruence.
  - intros j Hj. destruct (si_carried _ _ _ _ _ HI j Hj) as (q & Hqq & Hqs).
    destruct (Hfwd j q Hqq) as (q' & ? & ? & ?). exists q'. split; congruence.
Qed.

(** A process becomes RUNNABLE and is appended to its queue. *)
Lemma sinv_append ps qt qt' car Q i p p' :
  sinv_on D ps qt car Q → ps !! i = Some p → Z.of_nat i ∉ qall Q → car ≠ Some i →
  p_state p' = RUNNABLE → pwf p' →
  rep qt' (qset Q (p_queue p') (qget Q (p_queue p') ++ [Z.of_nat i])) →
  sinv_on (λ j, D j ∨ j = i) (<[i := p']> ps) qt' car (qset Q (p_queue p') (qget Q (p_queue p') ++ [Z.of_nat i])).
Proof.
  intros HI Hp Hn Hc Hs Hwf Hrep. pose proof (lookup_lt_Some _ _ _ Hp) as Hlt.
  set (k0 := p_queue p') in *. assert (Hk0 : is_queue k0) by apply Hwf.
  assert (Hq : ∀ k, is_queue k →
    qget (qset Q k0 (qget Q k0 ++ [Z.of_nat i])) k =
      if decide (k = k0) then qget Q k0 ++ [Z.of_nat i] else qget Q k).
  { intros k Hk. case_decide; subst; [apply qget_qset_eq|by apply qget_qset_ne]. }
  split.
  - rewrite length_insert. apply (si_len _ _ _ _ _ HI).
  - done.
  - intros j q. rewrite list_lookup_insert. case_decide; intros; simplify_eq; try done.
    by eapply (si_wf _ _ _ _ _ HI).
  - intros j q Hdj Hj Hr Hcj. rewrite list_lookup_insert in Hj. case_decide as Hij.
    + destruct Hij as [<- _]. simplify_eq. fold k0. rewrite qget_qset_eq. set_solver.
    + assert (Hne : j ≠ i) by (intros ->; destruct Hij; done).
      destruct Hdj as [Hdj|]; [|done].
      assert (Hwq : pwf q) by (by eapply (si_wf _ _ _ _ _ HI)).
      pose proof (si_runnable _ _ _ _ _ HI j q Hdj Hj Hr Hcj) as Hin.
      rewrite Hq by apply Hwq. case_decide as Hk; [|done]. rewrite <- Hk. set_solver.
  - intros k j Hk. rewrite Hq by done. intros Hj.
    destruct (decide (j = i)) as [->|Hne].
    + assert (k = k0) as ->.
      { case_decide; [done|]. exfalso. apply Hn, qall_get. eauto. }
      split_and!; [by right|done|]. exists p'. by rewrite list_lookup_insert_eq.
    + assert (Hj' : Z.of_nat j ∈ qget Q k).
      { case_decide; subst; [|done]. apply elem_of_app in Hj as [?|Hj]; [done|].
        apply list_elem_of_singleton in Hj. lia. }
      destruct (si_queued _ _ _ _ _ HI k j Hk Hj') as (Hd' & Hcj & q & Hqq & Hqs & Hqk).
      split_and!; [by left|done|]. exists q. by rewrite list_lookup_insert_ne.
  - intros j Hj. destruct (si_carried _ _ _ _ _ HI j Hj) as (q & Hqq & Hqs).
    exists q. rewrite list_lookup_insert_ne; [done|]. intros ->. congruence.
Qed.

(** A process becomes RUNNABLE and keeps the CPU. *)
Lemma sinv_carry ps qt Q i p p' :
  sinv_on D ps qt None Q → ps !! i = Some p → p_state p ≠ RUNNABLE →
  p_state p' = RUNNABLE → pwf p' →
  sinv_on D (<[i := p']> ps) qt (Some i) Q.
Proof.
  intros HI Hp Hs Hs' Hwf. pose proof (lookup_lt_Some _ _ _ Hp) as Hlt. split.
  - rewrite length_insert. apply (si_len _ _ _ _ _ HI).
  - apply (si_rep _ _ _ _ _ HI).
  - intros j q. rewrite list_lookup_insert. case_decide; intros; simplify_eq; try done.
    by eapply (si_wf _ _ _ _ _ HI).
  - intros j q Hd. rewrite list_lookup_insert. case_decide as Hij; intros; simplify_eq.
    + destruct Hij. congruence.
    + by apply (si_runnable _ _ _ _ _ HI).
  - intros k j Hk Hj. destruct (si_queued _ _ _ _ _ HI k j Hk Hj) as (Hd & Hcj & q & Hqq & Hqs & Hqk).
    assert (j ≠ i) by (intros ->; congruence).
    split_and!; [done|congruence|]. exists q. by rewrite list_lookup_insert_ne.
  - intros j [= <-]. exists p'. by rewrite list_lookup_insert_eq.
Qed.

(** The process that keeps the CPU runs again. *)
Lemma sinv_uncarry ps qt Q i p' :
  sinv_on D ps qt (Some i) Q → p_state p' ≠ RUNNABLE → pwf p' →
  sinv_on D (<[i := p']> ps) qt None Q.
Proof.
  intros HI Hs' Hwf. destruct (si_carried _ _ _ _ _ HI i eq_refl) as (p & Hp & Hs).
  pose proof (lookup_lt_Some _ _ _ Hp) as Hlt. split; [| | | | |done].
  - rewrite length_insert. apply (si_len _ _ _ _ _ HI).
  - apply (si_rep _ _ _ _ _ HI).
  - intros j q. rewrite list_lookup_insert. case_decide; intros; simplify_eq; try done.
    by eapply (si_wf _ _ _ _ _ HI).
  - intros j q Hd. rewrite list_lookup_insert. case_decide as Hij; intros; simplify_eq; try done.
    apply (si_runnable _ _ _ _ _ HI); [done..|]. intros [= ->]. by destruct Hij.
  - intros k j Hk Hj. destruct (si_queued _ _ _ _ _ HI k j Hk Hj) as (Hd & Hcj & q & Hqq & Hqs & Hqk).
    split_and!; [done|done|]. exists q. rewrite list_lookup_insert_ne; [done|]. congruence.
Qed.

(** The first process of a queue is taken out and runs. *)
Lemma sinv_take ps qt qt' Q k i l p p' :
  sinv_on D ps qt None Q → is_queue k → qget Q k = Z.of_nat i :: l → ps !! i = Some p →
  p_state p' ≠ RUNNABLE → pwf p' → rep qt' (qset Q k l) →
  sinv_on D (<[i := p']> ps) qt' None (qset Q k l).
Proof.
  intros HI Hk El Hp Hs' Hwf Hrep. pose proof (lookup_lt_Some _ _ _ Hp) as Hlt.
  assert (Hnd : Z.of_nat i ∉ l ++ qrest Q k).
  { pose proof (rep_nodup _ _ (si_rep _ _ _ _ _ HI)) as HD.
    rewrite (qall_split Q k), El in HD. simpl in HD. by apply NoDup_cons in HD as [? _]. }
  assert (Hsub : ∀ k' x, is_queue k' → x ∈ qget (qset Q k l) k' → x ∈ qget Q k' ∧ x ≠ Z.of_nat i).
  { intros k' x Hk' Hx. destruct (decide (k' = k)) as [->|Hne].
    - rewrite qget_qset_eq in Hx. rewrite El. set_solver.
    - rewrite qget_qset_ne in Hx by done. split; [done|]. intros ->.
      apply Hnd, elem_of_app. right. by apply (qget_other Q k k'). }
  split; [| | | | |done].
  - rewrite length_insert. apply (si_len _ _ _ _ _ HI).
  - done.
  - intros j q. rewrite list_lookup_insert. case_decide; intros; simplify_eq; try done.
    by eapply (si_wf _ _ _ _ _ HI).
  - intros j q Hd. rewrite list_lookup_insert. case_decide as Hij; intros Hj Hr ?; simplify_eq; try done.
    pose proof (si_runnable _ _ _ _ _ HI j q Hd Hj Hr ltac:(done)) as Hin.
    assert (Hwq : pwf q) by (by eapply (si_wf _ _ _ _ _ HI)).
    destruct (decide (p_queue q = k)) as [E|Hne].
    + rewrite E in *. rewrite qget_qset_eq. rewrite El in Hin.
      apply elem_of_cons in Hin as [Hin|?]; [|done]. exfalso. apply Hij. split; [lia|done].
    + rewrite qget_qset_ne; [done|done|apply Hwq|done].
  - intros k' j Hk' Hj. destruct (Hsub k' _ Hk' Hj) as [Hj' Hne].
    destruct (si_queued _ _ _ _ _ HI k' j Hk' Hj') as (Hd & Hcj & q & Hqq & Hqs & Hqk).
    split_and!; [done|done|]. exists q. rewrite list_lookup_insert_ne; [done|]. lia.
Qed.
End moves.

(** Changing the slots looked at. *)
Lemma sinv_on_weaken (D D' : nat → Prop) ps qt car Q :
  sinv_on D ps qt car Q →
  (∀ i p, D' i → ps !! i = Some p → p_state p = RUNNABLE → D i) →
  (∀ i, D i → D' i) → sinv_on D' ps qt car Q.
Proof.
  intros HI H1 H2. split; try apply HI.
  - intros i p Hd Hp Hr Hc. apply (si_runnable _ _ _ _ _ HI); eauto.
  - intros k i Hk Hi. destruct (si_queued _ _ _ _ _ HI k i Hk Hi) as (Hd & ? & ?). auto.
Qed.

Lemma sinv_make_runnable ps qt qt' car Q i p p' :
  sinv ps qt car Q → ps !! i = Some p → p_state p ≠ RUNNABLE →
  p_state p' = RUNNABLE → pwf p' →
  rep qt' (qset Q (p_queue p') (qget Q (p_queue p') ++ [Z.of_nat i])) →
  sinv (<[i := p']> ps) qt' car (qset Q (p_queue p') (qget Q (p_queue p') ++ [Z.of_nat i])).
Proof.
  intros HI Hp Hs Hs' Hwf Hrep.
  assert (Hn : Z.of_nat i ∉ qall Q) by (eapply si_not_queued; eauto).
  assert (Hc : car ≠ Some i).
  { intros E. destruct (si_carried _ _ _ _ _ HI i E) as (? & ? & ?). congruence. }
  pose proof (sinv_append (λ _, True) ps qt qt' car Q i p p' HI Hp Hn Hc Hs' Hwf Hrep) as H.
  by apply (sinv_on_weaken _ (λ _, True) _ _ _ _ H); [left|].
Qed.

(** ** Appending a selection of processes in table order *)

(** [sel i = Some k]: process [i] goes to queue [k]. *)
Definition appendQ (Q : queues) (sel : nat → option Z) (j : nat) : queues :=
  foldl (λ Q i, match sel i with
                | Some k => qset Q k (qget Q k ++ [Z.of_nat i])
                | None => Q
                end) Q (seq 0 j).

Lemma appendQ_S Q sel j :
  appendQ Q sel (S j) =
    match sel j with
    | Some k => qset (appendQ Q sel j) k (qget (appendQ Q sel j) k ++ [Z.of_nat j])
    | None => appendQ Q sel j
    end.
Proof. unfold appendQ. rewrite seq_S, foldl_app. done. Qed.

Lemma appendQ_get Q sel j k :
  (∀ i k', sel i = Some k' → is_queue k') → is_queue k →
  qget (appendQ Q sel j) k =
    qget Q k ++ (Z.of_nat <$> base.filter (λ i, sel i = Some k) (seq 0 j)).
Proof.
  intros Hsel Hk. induction j as [|j IH]; [by rewrite app_nil_r|].
  rewrite appendQ_S, seq_S, filter_app, fmap_app. simpl.
  destruct (sel j) as [k'|] eqn:E.
  - destruct (decide (k' = k)) as [->|Hne].
    + rewrite qget_qset_eq, IH, <- app_assoc, filter_cons_True, filter_nil by done. done.
    + rewrite qget_qset_ne by eauto. rewrite IH, filter_cons_False, filter_nil by congruence.
      by rewrite app_nil_r.
  - rewrite IH, filter_cons_False, filter_nil by congruence. by rewrite app_nil_r.
Qed.

Lemma appendQ_ext Q sel sel' j :
  (∀ i, (i < j)%nat → sel i = sel' i) → appendQ Q sel j = appendQ Q sel' j.
Proof.
  induction j as [|j IH]; intros H; [done|].
  rewrite !appendQ_S, IH by (intros; apply H; lia). by rewrite H by lia.
Qed.

(** A RUNNABLE process exists exactly when something is queued or carried. *)
Lemma sinv_busy ps qt Q :
  sinv ps qt None Q → (∃ i p, ps !! i = Some p ∧ p_state p = RUNNABLE) → top_queue Q ≠ None.
Proof.
  intros HI (i & p & Hp & Hs) Ht%top_queue_None.
  assert (Z.of_nat i ∈ qall Q); [|rewrite Ht in *; set_solver].
  apply qall_get. exists (p_queue p). split; [apply (si_wf _ _ _ _ _ HI i p Hp)|].
  by apply (si_runnable _ _ _ _ _ HI).
Qed.
