(* ===== verification/SchedOps.v ===== *)
(** * What the handlers of the scheduler do

    Each handler of Sched.v is evaluated from a state that satisfies the
    invariant: it returns (no panic, no access outside the tables), with the
    locks it should hold, and with the globals given explicitly. *)
From S2P Require Import Prelude Layout Spinlock Queue Proc KLogic Sched SchedInv.

Section runs.
Context {E : Type}.
Implicit Types (c : core E) (ls : list lockid).

(** The process that keeps the CPU without being queued. *)
Definition carried c : option nat :=
  if decide (p_kicked c = 0) then sched_p c else None.

Definition cinv c (Q : queues) : Prop := sinv (procs c) (qtable c) (carried c) Q.

(** The scheduling log: [log_count] never points behind the array while it is
    used as an index. *)
Definition log_ok c : Prop :=
  Z.of_nat (length (schedlog c)) = LOG_SIZE ∧ 0 ≤ log_count c.

Lemma runs_add_to_queue ls i c p Q :
  procs c !! i = Some p → rep (qtable c) Q → is_queue (p_queue p) →
  0 ≤ Z.of_nat i < NPROC → Z.of_nat i ∉ qall Q →
  ∃ q', runs ls (clift (core_add_to_queue i)) c tt ls (set_qtable q' c) ∧
    rep q' (qset Q (p_queue p) (qget Q (p_queue p) ++ [Z.of_nat i])).
Proof.
  intros Hp HR Hk Hi Hn.
  destruct (enqueue_back_ok (qtable c) Q (p_queue p) (Z.of_nat i) DEFAULT_PASS HR Hk Hi Hn)
    as (q' & Eq & HR').
  exists q'. split; [|done]. apply runs_clift.
  unfold core_add_to_queue, core_getp, core_q, mbind, M_bind. rewrite Hp, Eq. done.
Qed.

Lemma runs_make_runnable ls i c p Q :
  cinv c Q → procs c !! i = Some p → p_state p ≠ RUNNABLE →
  let Q' := qset Q (p_queue p) (qget Q (p_queue p) ++ [Z.of_nat i]) in
  ∃ q', let c' := set_qtable q' (set_procs (<[i := set_p_state RUNNABLE p]> (procs c)) c) in
    runs ls (make_runnable i) c tt ls c' ∧ cinv c' Q'.
Proof.
  intros HI Hp Hs Q'. pose proof (lookup_lt_Some _ _ _ Hp) as Hlt.
  pose proof (si_wf _ _ _ _ _ HI i p Hp) as Hwf.
  destruct (runs_add_to_queue ls i (set_procs (<[i := set_p_state RUNNABLE p]> (procs c)) c)
              (set_p_state RUNNABLE p) Q) as (q' & R & HR').
  - by apply list_lookup_insert_eq.
  - apply (si_rep _ _ _ _ _ HI).
  - apply Hwf.
  - by eapply si_range.
  - eapply si_not_queued; eauto.
  - exists q'. split.
    + unfold make_runnable. krun (runs_modp ls i _ c p Hp). done.
    + unfold cinv, carried. simpl.
      by apply (sinv_make_runnable _ (qtable c) _ _ _ _ p (set_p_state RUNNABLE p)).
Qed.

(** [sched]: none of its four panics. *)
Lemma leads_sched cl i c p :
  cpu_proc c = Some i → procs c !! i = Some p → p_state p ≠ RUNNING →
  leads [LProc i] (sched cl) c (λ _ ls' c', ls' = [LProc i] ∧ ∃ ie,
    c' = set_procs (<[i := set_p_context (mkcontext (CodeSched ie cl) (ctx_sp (p_context p))) p]>
                      (procs c)) c).
Proof.
  intros Hcpu Hp Hs. unfold sched. klead runs_myproc. rewrite Hcpu. klead runs_deref.
  klead runs_holding; [set_solver|]. klead runs_ret. klead runs_noff. klead runs_ret.
  klead runs_getp; [done|]. rewrite bool_decide_false by done. klead runs_ret.
  klead runs_sie; [done|]. klead runs_ret.
  eapply (leads_bind _ _ _ _ (λ _ ls' c', ls' = [LProc i] ∧ c' = c)).
  - intros s Hat. by exists (intena (khart s)), s, [LProc i], c.
  - intros ie ls1 c1 [-> ->]. eapply leads_runs; [by apply runs_modp|]. eauto.
Qed.

(** ** The log *)

(** One record appended, while there is room. *)
Definition log_append (f : logentry → logentry) c : core E :=
  match zidx (schedlog c) (log_count c) with
  | Some e => set_log_count (log_count c + 1)
                (set_schedlog (<[Z.to_nat (log_count c) := f e]> (schedlog c)) c)
  | None => c
  end.

Lemma log_append_ok f c : log_ok c → log_ok (log_append f c).
Proof.
  intros [H1 H2]. unfold log_append. destruct (zidx _ _) as [e|] eqn:He; [|done].
  split; simpl; [by rewrite length_insert|lia].
Qed.

Lemma runs_core_log ls c n f e :
  zidx (schedlog c) n = Some e →
  runs ls (clift (core_log n f)) c tt ls (set_schedlog (<[Z.to_nat n := f e]> (schedlog c)) c).
Proof. intros H. apply runs_clift. unfold core_log. by rewrite H. Qed.

Lemma zidx_log_insert c n e :
  0 ≤ n < Z.of_nat (length (schedlog c)) → zidx (<[Z.to_nat n := e]> (schedlog c)) n = Some e.
Proof. intros. rewrite zidx_insert by done. by rewrite decide_True. Qed.

Definition boost_entry c (e : logentry) : logentry :=
  mklogentry (le_pid e) (time c) (le_queue e) 1.
Definition boost_log c : core E := log_append (boost_entry c) c.

Lemma zidx_full c : log_ok c → log_count c < LOG_SIZE ↔ is_Some (zidx (schedlog c) (log_count c)).
Proof. intros [H1 H2]. rewrite zidx_is_Some, H1. lia. Qed.

Lemma runs_boost_logging ls c :
  log_ok c → runs ls boost_logging c tt ls (boost_log c).
Proof.
  intros Hl. unfold boost_logging, boost_log, log_append. krun runs_cget.
  destruct (zidx (schedlog c) (log_count c)) as [e|] eqn:He.
  - rewrite bool_decide_true by (apply (zidx_full c Hl); eauto).
    pose proof (proj1 (zidx_Some _ _ _) He) as [Hr _].
    krun runs_core_log; [exact He|]. krun runs_cmod. krun runs_cget.
    eapply (eq_rect _ (λ c', runs ls _ _ tt ls c')).
    + eapply runs_core_log. simpl. by apply zidx_log_insert.
    + simpl. unfold boost_entry. rewrite list_insert_insert_eq. done.
  - rewrite bool_decide_false; [apply runs_ret|].
    rewrite (zidx_full c Hl), He. by intros [? [=]].
Qed.

(** What [scheduler] logs when it switches to [p]: nothing when the last entry
    is of the same process in the same queue. *)
Definition log_same (p : proc) c : bool :=
  match zidx (schedlog c) (log_count c - 1) with
  | Some e => bool_decide (le_pid e = p_pid p) && bool_decide (le_queue e = p_queue p)
  | None => false
  end.
Definition switch_log (p : proc) c : core E :=
  if log_same p c then c
  else log_append (λ e, mklogentry (p_pid p) (time c) (p_queue p) 0) c.

Lemma switch_log_ok p c : log_ok c → log_ok (switch_log p c).
Proof. intros. unfold switch_log. destruct (log_same p c); [done|]. by apply log_append_ok. Qed.

Lemma runs_log_test ls p c (n := log_count c) :
  log_ok c → n < LOG_SIZE →
  runs ls (if bool_decide (n ≠ 0) then
              e ← clift (core_getlog (n - 1));
              mret (bool_decide (le_pid e = p_pid p) && bool_decide (le_queue e = p_queue p))
            else mret false) c (log_same p c) ls c.
Proof.
  intros [H1 H2] Hn. subst n. unfold log_same. case_bool_decide as H0.
  - destruct (zidx (schedlog c) (log_count c - 1)) as [e|] eqn:He.
    + krun runs_clift; [unfold core_getlog; by rewrite He|]. apply runs_ret.
    + exfalso. apply (eq_None_not_Some (zidx (schedlog c) (log_count c - 1))); [done|].
      apply zidx_is_Some. lia.
  - replace (zidx _ _) with (@None logentry); [apply runs_ret|].
    symmetry. apply eq_None_not_Some. rewrite zidx_is_Some. lia.
Qed.

Lemma runs_log_switch ls i c p :
  procs c !! i = Some p → log_ok c → runs ls (log_switch i) c tt ls (switch_log p c).
Proof.
  intros Hp Hl. unfold log_switch. krun runs_getp; [done|]. krun runs_cget.
  unfold switch_log, log_append.
  destruct (zidx (schedlog c) (log_count c)) as [e|] eqn:He.
  - assert (Hn : log_count c < LOG_SIZE) by (apply (zidx_full c Hl); eauto).
    rewrite bool_decide_true by done. krun runs_log_test; [done|done|].
    destruct (log_same p c); [apply runs_ret|].
    pose proof (proj1 (zidx_Some _ _ _) He) as [Hr _].
    krun runs_cget. krun runs_core_log; [exact He|].
    krun runs_core_log. { simpl. by apply zidx_log_insert. }
    krun runs_core_log. { simpl. rewrite list_insert_insert_eq. by apply zidx_log_insert. }
    krun runs_cmod.
    eapply (eq_rect _ (λ c', runs ls _ _ tt ls c')).
    + eapply runs_core_log. simpl. rewrite !list_insert_insert_eq. by apply zidx_log_insert.
    + simpl. rewrite !list_insert_insert_eq. done.
  - rewrite bool_decide_false; [by destruct (log_same p c); apply runs_ret|].
    rewrite (zidx_full c Hl), He. by intros [? [=]].
Qed.

(** ** The priority boost *)

Definition boost_p (p : proc) : proc :=
  if decide (p_state p = RUNNABLE) then set_p_runtime 0 (set_p_queue (priority p) p) else p.
Definition boost_sel (ps : list proc) (i : nat) : option Z :=
  p ← ps !! i; if decide (p_state p = RUNNABLE) then Some (priority p) else None.
Definition no_queues : queues := mkqs [] [] [].

Lemma boost_sel_queue ps i k : boost_sel ps i = Some k → is_queue k.
Proof.
  unfold boost_sel. destruct (ps !! i) as [p|]; simpl; [|done].
  case_decide; [|done]. intros [= <-]. apply priority_is_queue.
Qed.

Lemma boost_p_wf p : pwf p → pwf (boost_p p).
Proof.
  intros (H1 & H2 & H3). unfold boost_p. case_decide; [|done].
  split_and!; simpl; [apply priority_is_queue|lia..|].
  pose proof (quantum_pos (set_p_runtime 0 (set_p_queue (priority p) p))). lia.
Qed.

Lemma sinv_skip ps qt car Q j p :
  sinv_on (λ i, i < j)%nat ps qt car Q → ps !! j = Some p → p_state p ≠ RUNNABLE →
  sinv_on (λ i, i < S j)%nat ps qt car Q.
Proof.
  intros HI Hp Hs. apply (sinv_on_weaken _ _ _ _ _ _ HI); [|lia].
  intros i q Hi Hq Hr. destruct (decide (i = j)) as [->|]; [congruence|lia].
Qed.

(** After [j] rounds of the loop. *)
Definition boosted (c0 : core E) (j : nat) (c : core E) : Prop :=
  ∃ q ps, c = set_qtable q (set_procs ps c0) ∧
    (∀ i, ps !! i = (λ p, if decide (i < j)%nat then boost_p p else p) <$> procs c0 !! i) ∧
    sinv_on (λ i, i < j)%nat ps q None (appendQ no_queues (boost_sel (procs c0)) j).

Lemma boosted_step ls c0 j c :
  Z.of_nat j < NPROC → boosted c0 j c →
  ∃ c', runs ls (boost_one j) c tt ls c' ∧ boosted c0 (S j) c'.
Proof.
  intros Hj (q & ps & -> & Hps & HI).
  assert (Hlt : (j < length ps)%nat) by (pose proof (si_len _ _ _ _ _ HI); lia).
  destruct (lookup_lt_is_Some_2 ps j Hlt) as [p Hp].
  pose proof (Hps j) as Hpj. rewrite Hp in Hpj.
  destruct (procs c0 !! j) as [p0|] eqn:Hp0; [|done]. simpl in Hpj.
  rewrite decide_False in Hpj by lia. injection Hpj as ->.
  assert (Hstep : ∀ i, (λ p, if decide (i < S j)%nat then boost_p p else p) <$> procs c0 !! i =
            <[j := boost_p p0]> ps !! i).
  { intros i. destruct (decide (i = j)) as [->|Hne].
    - rewrite list_lookup_insert_eq, Hp0 by done. simpl. by rewrite decide_True by lia.
    - rewrite list_lookup_insert_ne, Hps by done. destruct (procs c0 !! i); [|done]. simpl.
      do 2 case_decide; try lia; done. }
  assert (Hsel : boost_sel (procs c0) j =
            if decide (p_state p0 = RUNNABLE) then Some (priority p0) else None)
    by (unfold boost_sel; rewrite Hp0; reflexivity).
  unfold boost_one. unfold boosted. rewrite appendQ_S, Hsel.
  case_decide as Hr.
  - set (Qj := appendQ no_queues (boost_sel (procs c0)) j) in *.
    assert (Hn : Z.of_nat j ∉ qall Qj).
    { eapply si_not_queued; [exact HI|exact Hp|]. right; right. lia. }
    set (p1 := boost_p p0). assert (E1 : p1 = set_p_runtime 0 (set_p_queue (priority p0) p0)).
    { unfold p1, boost_p. by rewrite decide_True. }
    destruct (runs_add_to_queue ls j (set_qtable q (set_procs (<[j := p1]> ps) c0)) p1 Qj)
      as (q' & R & HR'); [by apply list_lookup_insert_eq|apply (si_rep _ _ _ _ _ HI)| |lia|done|].
    { rewrite E1. apply priority_is_queue. }
    eexists. split.
    + krun runs_getp; [exact Hp|]. rewrite bool_decide_true by done.
      krun runs_modp; [exact Hp|]. krun runs_modp; [by apply list_lookup_insert_eq|].
      simpl. rewrite list_insert_insert_eq, <- E1. exact R.
    + exists q', (<[j := p1]> ps). split; [done|]. split; [intros i; by rewrite Hstep|].
      replace (priority p0) with (p_queue p1) by (by rewrite E1).
      apply (sinv_on_weaken (λ i, (i < j)%nat ∨ i = j)); [|intros; lia..].
      apply (sinv_append _ _ q _ _ _ _ p0); try done; [by rewrite E1|].
      apply boost_p_wf. by apply (si_wf _ _ _ _ _ HI j).
  - eexists. split.
    + krun runs_getp; [exact Hp|]. rewrite bool_decide_false by done. apply runs_ret.
    + exists q, ps. split; [done|]. split.
      * intros i. rewrite Hstep, list_insert_id; [done|].
        rewrite Hp. f_equal. unfold boost_p. by rewrite decide_False.
      * by apply (sinv_skip _ _ _ _ _ p0).
Qed.

(** The state the boost leaves, from the state [c] in which it is due. *)
Definition boost_result (i : nat) c c' (Q' : queues) : Prop :=
  ∃ q' p, procs c !! i = Some p ∧
    let ps0 := <[i := set_p_runtime 0 p]> (procs c) in
    c' = set_qtable q' (set_procs (boost_p <$> ps0) (set_p_kicked 1 (boost_log c))) ∧
    Q' = appendQ no_queues (boost_sel ps0) (Z.to_nat NPROC).

(** The log is all that a log entry changes. *)
Lemma log_append_frame f c :
  procs (log_append f c) = procs c ∧ qtable (log_append f c) = qtable c ∧
  cpu_proc (log_append f c) = cpu_proc c ∧ sched_p (log_append f c) = sched_p c ∧
  p_kicked (log_append f c) = p_kicked c ∧ time (log_append f c) = time c ∧
  forkret_first (log_append f c) = forkret_first c ∧
  nextpid (log_append f c) = nextpid c ∧ initproc (log_append f c) = initproc c.
Proof. unfold log_append. by destruct (zidx _ _). Qed.

Lemma procs_boost_log c : procs (boost_log c) = procs c.
Proof. unfold boost_log, log_append. by destruct (zidx _ _). Qed.
Lemma qtable_boost_log c : qtable (boost_log c) = qtable c.
Proof. unfold boost_log, log_append. by destruct (zidx _ _). Qed.

Lemma runs_boost ls i c p :
  Z.rem (time c) 60 = 0 → log_ok c → procs c !! i = Some p →
  Z.of_nat (length (procs c)) = NPROC → Z.of_nat (length (qtable c)) = QTABLE_SIZE →
  (∀ j q, procs c !! j = Some q → j ≠ i → pwf q) → pwf (set_p_runtime 0 p) →
  ∃ c' Q', runs ls (boost i) c tt ls c' ∧ boost_result i c c' Q' ∧ cinv c' Q'.
Proof.
  intros Ht Hl Hp Hlen Hq Hwf Hwp. unfold boost.
  pose proof (lookup_lt_Some _ _ _ Hp) as Hlt.
  destruct (initialize_ok (qtable c) Hq) as (q0 & Eq & HR0).
  set (ps0 := <[i := set_p_runtime 0 p]> (procs c)).
  set (c0 := set_qtable q0 (set_procs ps0 (set_p_kicked 1 (boost_log c)))).
  assert (HI0 : boosted c0 0 c0).
  { exists q0, ps0. split; [done|]. split.
    - intros j. change (procs c0) with ps0. by destruct (ps0 !! j).
    - split; try done.
      + unfold ps0. by rewrite length_insert.
      + intros j r. unfold ps0. rewrite list_lookup_insert. case_decide; intros; simplify_eq; [done|].
        eapply Hwf; [done|]. intros ->. tauto.
      + intros j r Hj. lia.
      + intros k j _. unfold qget. repeat case_decide; simpl; set_solver. }
  destruct (runs_for_seq ls boost_one (boosted c0) (Z.to_nat NPROC) c0 HI0) as (c' & R & HI').
  { intros j c1 Hj HB. apply boosted_step; [|done]. unfold NPROC in *. lia. }
  destruct HI' as (q' & ps' & -> & Hps' & HI').
  assert (Eps : ps' = boost_p <$> ps0).
  { apply list_eq. intros j. rewrite Hps', list_lookup_fmap. simpl.
    destruct (ps0 !! j) eqn:Ej; [|done]. simpl. rewrite decide_True; [done|].
    apply lookup_lt_Some in Ej. unfold ps0 in Ej. rewrite length_insert in Ej. lia. }
  eexists _, _. split; [|split].
  - krun runs_cget. rewrite bool_decide_true by done. krun runs_boost_logging; [done|].
    krun runs_clift. { unfold core_q. simpl. rewrite qtable_boost_log, Eq. done. }
    krun runs_modp. { simpl. rewrite procs_boost_log. exact Hp. }
    krun runs_cmod. simpl. rewrite procs_boost_log. exact R.
  - exists q', p. split; [done|]. cbv zeta. split; [|done]. fold ps0. rewrite Eps. done.
  - apply (sinv_on_weaken (λ j, j < Z.to_nat NPROC)%nat); [exact HI'| |done].
    intros j r _ Hj%lookup_lt_Some _. simpl in Hj.
    pose proof (si_len _ _ _ _ _ HI'). lia.
Qed.
End runs.

(** ** Specifications of [yield], [sleep], [wakeup], [kill] and the scheduler loop *)

Section ops.
Context {E : Type} `{!ProcEnv E}.
Implicit Types (c : core E) (ls : list lockid).

(** Process [i] has the CPU: it is the one [scheduler] switched to, nobody is
    being carried over, and nobody else is RUNNING. *)
Record on_cpu (i : nat) (p : proc) c (Q : queues) : Prop := {
  oc_cpu : cpu_proc c = Some i;
  oc_sched : sched_p c = Some i;
  oc_kicked : p_kicked c = 1;
  oc_proc : procs c !! i = Some p;
  oc_state : p_state p = RUNNING;
  oc_inv : cinv c Q;
  oc_log : log_ok c }.

Lemma oc_carried i p c Q : on_cpu i p c Q → carried c = None.
Proof. intros H. unfold carried. by rewrite (oc_kicked _ _ _ _ H). Qed.

(** ** [yield] *)

Definition expired (p : proc) : bool := bool_decide (quantum p ≤ p_runtime p + 1).
(** The process after the accounting. *)
Definition account_p (p : proc) : proc :=
  if expired p
  then set_p_runtime 0 (set_p_queue (Z.max QUEUE_LOW (p_queue p - 1))
         (set_p_state RUNNABLE (set_p_runtime (p_runtime p + 1) p)))
  else set_p_state RUNNABLE (set_p_runtime (p_runtime p + 1) p).

Lemma account_wf p : pwf p → pwf (account_p p).
Proof.
  unfold account_p, expired, pwf, is_queue, QUEUE_LOW, QUEUE_HIGH.
  intros (H1 & H2 & H3). case_bool_decide as Hx; simpl.
  - match goal with |- context [quantum ?x] => pose proof (quantum_pos x) end. lia.
  - change (quantum (set_p_state RUNNABLE (set_p_runtime (p_runtime p + 1) p))) with (quantum p). lia.
Qed.

Lemma account_RUNNABLE p : p_state (account_p p) = RUNNABLE.
Proof. unfold account_p. by destruct (expired p). Qed.

Definition account_result (i : nat) (p : proc) c c' (Q Q' : queues) : Prop :=
  let ps := <[i := account_p p]> (procs c) in
  if expired p
  then (∃ q, c' = set_qtable q (set_procs ps c)) ∧
       Q' = qset Q (p_queue (account_p p)) (qget Q (p_queue (account_p p)) ++ [Z.of_nat i])
  else c' = set_p_kicked 0 (set_procs ps c) ∧ Q' = Q.

Lemma runs_account ls i p c Q :
  on_cpu i p c Q →
  ∃ c' Q', runs ls (yield_account i) c tt ls c' ∧ account_result i p c c' Q Q' ∧ cinv c' Q'.
Proof.
  intros H. pose proof (oc_proc _ _ _ _ H) as Hp. pose proof (oc_inv _ _ _ _ H) as HI.
  pose proof (lookup_lt_Some _ _ _ Hp) as Hlt. pose proof (oc_carried _ _ _ _ H) as Hcar.
  pose proof (si_wf _ _ _ _ _ HI i p Hp) as Hwf. pose proof (account_wf p Hwf) as Hwf'.
  pose proof (oc_state _ _ _ _ H) as Hst.
  unfold account_result. set (p1 := set_p_state RUNNABLE (set_p_runtime (p_runtime p + 1) p)).
  set (c1 := set_procs (<[i := p1]> (procs c)) c).
  assert (Hpre : ∀ k c' , runs ls k c1 tt ls c' →
    runs ls ((if bool_decide (p_state p ≠ UNUSED) then modp i (set_p_runtime (p_runtime p + 1)) else mret tt) ;;
             modp i (set_p_state RUNNABLE) ;; k) c tt ls c').
  { intros k c' Hk. rewrite bool_decide_true by congruence. krun runs_modp; [exact Hp|].
    krun runs_modp; [by apply list_lookup_insert_eq|]. simpl. rewrite list_insert_insert_eq. exact Hk. }
  unfold yield_account, account_p, expired in *.
  assert (Hl1 : procs c1 !! i = Some p1) by (by apply list_lookup_insert_eq).
  destruct (bool_decide_reflect (quantum p ≤ p_runtime p + 1)) as [Hx|Hx].
  - set (p2 := set_p_runtime 0 (set_p_queue (Z.max QUEUE_LOW (p_queue p - 1)) p1)) in *.
    destruct (runs_add_to_queue ls i (set_procs (<[i := p2]> (procs c)) c) p2 Q) as (q' & R & HR').
    { by apply list_lookup_insert_eq. }
    { apply (si_rep _ _ _ _ _ HI). }
    { apply Hwf'. }
    { by eapply si_range. }
    { eapply si_not_queued; [exact HI|exact Hp|]. left. congruence. }
    eexists _, _. split; [|split; [split; [by exists q'|done]|]].
    + krun runs_getp; [exact Hp|]. apply Hpre. krun runs_getp; [exact Hl1|].
      rewrite bool_decide_true by exact Hx. krun runs_modp; [exact Hl1|].
      krun runs_modp; [by eapply list_insert_some|]. simpl.
      rewrite !list_insert_insert_eq. exact R.
    + unfold cinv in *. change (carried (set_qtable _ _)) with (carried c). rewrite Hcar in *.
      apply (sinv_make_runnable _ (qtable c) _ _ _ _ p); try done. congruence.
  - eexists _, _. split; [|split; [split; done|]].
    + krun runs_getp; [exact Hp|]. apply Hpre. krun runs_getp; [exact Hl1|].
      rewrite bool_decide_false by exact Hx. apply runs_cmod.
    + unfold cinv, carried. simpl. rewrite (oc_sched _ _ _ _ H).
      unfold cinv in HI. rewrite Hcar in HI.
      apply (sinv_carry _ _ _ _ _ p); try done. congruence.
Qed.

(** ** [yield], whole *)

(** The boost is due at this call. *)
Definition boost_due c : bool := bool_decide (Z.rem (time c) 60 = 0).

(** The process as [yield] leaves it. *)
Definition yielded (ie : bool) c (p : proc) : proc :=
  let p1 := account_p p in
  let p2 := if boost_due c then set_p_runtime 0 (set_p_queue (priority p1) p1) else p1 in
  set_p_context (mkcontext (CodeSched ie InYield) (ctx_sp (p_context p2))) p2.

Definition yield_outcome (i : nat) (p : proc) c (Q : queues) c' (Q' : queues) : Prop :=
  cinv c' Q' ∧ log_ok c' ∧ cpu_proc c' = Some i ∧ sched_p c' = Some i ∧
  forkret_first c' = forkret_first c ∧ nextpid c' = nextpid c ∧ initproc c' = initproc c ∧
  (∃ ie, procs c' !! i = Some (yielded ie c p)) ∧
  (∀ j, j ≠ i → procs c' !! j = (if boost_due c then boost_p else id) <$> procs c !! j) ∧
  (p_kicked c' ≠ 0 ↔ boost_due c = true ∨ expired p = true) ∧
  Q' = (if boost_due c then appendQ no_queues (boost_sel (procs c')) (Z.to_nat NPROC)
        else if expired p then qset Q (p_queue (account_p p)) (qget Q (p_queue (account_p p)) ++ [Z.of_nat i])
        else Q).

Lemma yielded_facts ie c p (p' := yielded ie c p) :
  p_state p' = RUNNABLE ∧ p_nice p' = p_nice p ∧ ra (p_context p') = CodeSched ie InYield ∧
  p_queue p' = (if boost_due c then priority p else p_queue (account_p p)) ∧
  p_runtime p' = (if boost_due c then 0 else p_runtime (account_p p)).
Proof.
  subst p'. unfold yielded, account_p, priority. destruct (expired p), (boost_due c); by split_and!.
Qed.

(** What the accounting leaves alone. *)
Lemma account_facts i p c c1 Q Q1 :
  on_cpu i p c Q → account_result i p c c1 Q Q1 →
  procs c1 !! i = Some (account_p p) ∧ (∀ j, j ≠ i → procs c1 !! j = procs c !! j) ∧
  log_ok c1 ∧ time c1 = time c ∧ cpu_proc c1 = Some i ∧ sched_p c1 = Some i ∧
  (p_kicked c1 ≠ 0 ↔ expired p = true) ∧ forkret_first c1 = forkret_first c ∧
  nextpid c1 = nextpid c ∧ initproc c1 = initproc c.
Proof.
  intros H A. pose proof (oc_proc _ _ _ _ H) as Hp.
  assert (procs c1 = <[i := account_p p]> (procs c) ∧ log_ok c1 ∧ time c1 = time c ∧
    cpu_proc c1 = cpu_proc c ∧ sched_p c1 = sched_p c ∧ (p_kicked c1 ≠ 0 ↔ expired p = true) ∧
    forkret_first c1 = forkret_first c ∧ nextpid c1 = nextpid c ∧ initproc c1 = initproc c)
    as (-> & ? & ? & -> & -> & ? & ? & ? & ?).
  { unfold account_result in A. pose proof (oc_log _ _ _ _ H).
    destruct (expired p); [destruct A as [[q ->] _]|destruct A as [-> _]]; simpl;
      rewrite ?(oc_kicked _ _ _ _ H); done. }
  split_and!; try done.
  - by eapply list_insert_some.
  - intros j Hj. by apply list_lookup_insert_ne.
  - apply H.
  - apply H.
Qed.

(** [sched] keeps the invariant. *)
Lemma leads_sched_inv cl i c p Q :
  cpu_proc c = Some i → procs c !! i = Some p → p_state p ≠ RUNNING → cinv c Q →
  leads [LProc i] (sched cl) c (λ _ ls' c', ls' = [LProc i] ∧ ∃ ie,
    c' = set_procs (<[i := set_p_context (mkcontext (CodeSched ie cl) (ctx_sp (p_context p))) p]>
                      (procs c)) c ∧ cinv c' Q).
Proof.
  intros Hcpu Hp Hs HI. eapply leads_conseq; [by apply leads_sched|].
  intros _ ls' c' (-> & ie & ->). split; [done|]. exists ie. split; [done|].
  apply (sinv_same _ _ _ _ _ i p); try done. apply (si_wf _ _ _ _ _ HI i p Hp).
Qed.

Lemma leads_yield i p c Q :
  on_cpu i p c Q →
  leads [] yield c (λ _ ls' c', ls' = [LProc i] ∧ ∃ Q', yield_outcome i p c Q c' Q').
Proof.
  intros H. pose proof (oc_proc _ _ _ _ H) as Hp.
  unfold yield. klead runs_myproc. rewrite (oc_cpu _ _ _ _ H). klead runs_deref.
  klead runs_acquire; [set_solver|].
  destruct (runs_account [LProc i] i p c Q H) as (c1 & Q1 & R1 & A1 & I1).
  eapply leads_bind_runs; [exact R1|].
  destruct (account_facts i p c c1 Q Q1 H A1) as (F1 & F2 & F3 & F4 & F5 & F6 & F7 & F8 & F9 & F10).
  pose proof (account_RUNNABLE p) as HR.
  assert (Hnice : p_nice (account_p p) = p_nice p) by (unfold account_p; by destruct (expired p)).
  unfold yield_outcome. destruct (boost_due c) eqn:Hb; unfold boost_due in Hb.
  - apply bool_decide_eq_true in Hb.
    destruct (runs_boost [LProc i] i c1 (account_p p)) as (c2 & Q2 & R2 & B2 & I2); try done.
    { by rewrite F4. }
    { apply (si_len _ _ _ _ _ I1). }
    { apply (rep_length _ _ (si_rep _ _ _ _ _ I1)). }
    { intros j q Hj _. apply (si_wf _ _ _ _ _ I1 j q Hj). }
    { apply pwf_reset, (si_wf _ _ _ _ _ I1 i (account_p p) F1). }
    eapply leads_bind_runs; [exact R2|].
    destruct B2 as (q' & p1 & Hp1 & -> & ->). rewrite F1 in Hp1. injection Hp1 as <-.
    set (ps0 := <[i := set_p_runtime 0 (account_p p)]> (procs c1)) in *.
    set (p2 := boost_p (set_p_runtime 0 (account_p p))).
    assert (E2 : p2 = set_p_runtime 0 (set_p_queue (priority (account_p p)) (set_p_runtime 0 (account_p p)))).
    { unfold p2, boost_p. simpl. rewrite decide_True by done. done. }
    assert (Hp0 : ps0 !! i = Some (set_p_runtime 0 (account_p p))) by (by eapply list_insert_some).
    eapply leads_conseq.
    + apply (leads_sched_inv _ i _ p2); try done.
      * exact (eq_trans (proj1 (proj2 (proj2 (log_append_frame (boost_entry c1) c1)))) F5).
      * simpl. by rewrite list_lookup_fmap, Hp0.
      * rewrite E2. simpl. by rewrite HR.
    + intros _ ls' c' (-> & ie & -> & I'). split; [done|]. eexists.
      destruct (log_append_frame (boost_entry c1) c1) as (_ & _ & G3 & G4 & _ & _ & G7 & G8 & G9).
      assert (Hl : (boost_p <$> ps0) !! i = Some p2) by (by rewrite list_lookup_fmap, Hp0).
      split_and!; [exact I'|by apply log_append_ok|exact (eq_trans G3 F5)|exact (eq_trans G4 F6)|exact (eq_trans G7 F8)|exact (eq_trans G8 F9)|exact (eq_trans G9 F10)|..]; simpl.
      * exists ie. rewrite list_insert_some with (y := p2) by done.
        rewrite E2. unfold yielded. unfold boost_due. by rewrite bool_decide_true.
      * intros j Hj. rewrite list_lookup_insert_ne, list_lookup_fmap by done.
        unfold ps0. rewrite list_lookup_insert_ne, F2 by done. done.
      * split; [auto|lia].
      * apply appendQ_ext. intros j _. unfold boost_sel.
        destruct (decide (j = i)) as [->|Hj].
        -- erewrite (list_insert_some _ _ _ _ Hl), Hp0. simpl. rewrite E2. simpl.
           unfold priority. simpl. done.
        -- rewrite list_lookup_insert_ne, list_lookup_fmap by done.
           destruct (ps0 !! j) as [r|]; [|done]. simpl. unfold boost_p.
           repeat case_decide; simpl in *; done.
  - apply bool_decide_eq_false in Hb.
    eapply leads_bind_runs.
    { unfold boost. krun runs_cget. rewrite F4, bool_decide_false by done. apply runs_ret. }
    eapply leads_conseq.
    + apply (leads_sched_inv _ i _ (account_p p)); try done. by rewrite HR.
    + intros _ ls' c' (-> & ie & -> & I'). split; [done|]. exists Q1.
      split_and!; try done; simpl.
      * exists ie. erewrite list_insert_some by done. unfold yielded, boost_due.
        by rewrite bool_decide_false.
      * intros j Hj. rewrite list_lookup_insert_ne, F2 by done.
        destruct (procs c !! j); done.
      * rewrite F7. split; [auto|]. by intros [?|?].
      * unfold account_result in A1. destruct (expired p); destruct A1 as [_ ->]; done.
Qed.

(** ** [sys_nice] *)

Definition new_nice (inc : Z) (p : proc) : Z := Z.max (Z.min (i32 (p_nice p + inc)) NICE_MAX) NICE_MIN.
(** The process as [sys_nice] hands it to [yield]. *)
Definition nice_p (inc : Z) (p : proc) : proc :=
  let p1 := set_p_nice (new_nice inc p) p in set_p_runtime 0 (set_p_queue (priority p1) p1).

Lemma nice_wf inc p : pwf (nice_p inc p).
Proof.
  unfold nice_p. split; [apply priority_is_queue|]. simpl. unfold new_nice, NICE_MIN, NICE_MAX.
  match goal with |- context [quantum ?x] => pose proof (quantum_pos x) end. lia.
Qed.

Lemma on_cpu_update i p p' c Q :
  on_cpu i p c Q → p_state p' = RUNNING → pwf p' →
  on_cpu i p' (set_procs (<[i := p']> (procs c)) c) Q.
Proof.
  intros H Hs Hwf. pose proof (oc_proc _ _ _ _ H) as Hp. pose proof (oc_state _ _ _ _ H) as Hst.
  split; simpl; try apply H; try done.
  - by eapply list_insert_some.
  - apply (sinv_other _ _ _ _ _ i p); try done; [apply H|congruence..].
Qed.

Lemma leads_nice inc i p c Q :
  on_cpu i p c Q →
  let c1 := set_procs (<[i := nice_p inc p]> (procs c)) c in
  leads [] (sys_nice inc) c (λ _ ls' c', ls' = [LProc i] ∧
    ∃ Q', yield_outcome i (nice_p inc p) c1 Q c' Q').
Proof.
  intros H c1. pose proof (oc_proc _ _ _ _ H) as Hp. unfold sys_nice.
  klead runs_myproc. rewrite (oc_cpu _ _ _ _ H). klead runs_deref.
  pose proof (lookup_lt_Some _ _ _ Hp) as Hlt.
  klead runs_modp; [exact Hp|]. klead runs_modp; [by apply list_lookup_insert_eq|].
  klead runs_modp; [apply list_lookup_insert_eq; simpl; by rewrite length_insert|]. klead runs_cmod.
  simpl. rewrite !list_insert_insert_eq.
  replace (set_p_kicked 1 _) with c1.
  - apply leads_yield. unfold c1. apply (on_cpu_update i p); [done| |apply nice_wf].
    apply (oc_state _ _ _ _ H).
  - unfold c1, set_procs, set_p_kicked. simpl. by rewrite (oc_kicked _ _ _ _ H).
Qed.

(** ** [sleep] *)

Lemma leads_sleep chan lk i p c Q :
  on_cpu i p c Q → lk ≠ LProc i →
  leads [lk] (sleep chan lk) c (λ _ ls' c', ls' = [LProc i] ∧ ∃ ie,
    c' = set_procs (<[i := set_p_context (mkcontext (CodeSched ie (InSleep lk)) (ctx_sp (p_context p)))
                            (set_p_state SLEEPING (set_p_chan chan p))]> (procs c)) c ∧
    cinv c' Q).
Proof.
  intros H Hlk. pose proof (oc_proc _ _ _ _ H) as Hp. pose proof (oc_inv _ _ _ _ H) as HI.
  unfold sleep. klead runs_myproc. rewrite (oc_cpu _ _ _ _ H). klead runs_deref.
  klead runs_acquire; [set_solver|].
  klead runs_release; [apply Permutation_swap|].
  klead runs_modp; [exact Hp|]. klead runs_modp; [by eapply list_insert_some|].
  simpl. rewrite list_insert_insert_eq.
  set (p1 := set_p_state SLEEPING (set_p_chan chan p)).
  set (c1 := set_procs _ _).
  assert (Hp1 : procs c1 !! i = Some p1) by (by eapply list_insert_some).
  eapply leads_conseq.
  - apply (leads_sched_inv _ i c1 p1 Q); try done.
    + apply H.
    + apply (sinv_other _ _ _ _ _ i p); try done.
      * by rewrite (oc_state _ _ _ _ H).
      * apply (si_wf _ _ _ _ _ HI i p Hp).
  - intros _ ls' c' (-> & ie & -> & I'). split; [done|]. exists ie. simpl in *.
    rewrite list_insert_insert_eq in *. done.
Qed.

(** ** [wakeup] *)

Definition sleeps_on (chan : Z) (me : option nat) (i : nat) (p : proc) : bool :=
  bool_decide (Some i ≠ me) && bool_decide (p_state p = SLEEPING) && bool_decide (p_chan p = chan).
Definition wake_p (chan : Z) (me : option nat) (i : nat) (p : proc) : proc :=
  if sleeps_on chan me i p then set_p_state RUNNABLE p else p.
Definition wake_sel (chan : Z) c (i : nat) : option Z :=
  p ← procs c !! i; if sleeps_on chan (cpu_proc c) i p then Some (p_queue p) else None.

(** After the first [j] slots. *)
Definition woken (chan : Z) (c0 : core E) (Q0 : queues) (j : nat) c : Prop :=
  ∃ q ps, c = set_qtable q (set_procs ps c0) ∧
    (∀ i, ps !! i = (λ p, if decide (i < j)%nat then wake_p chan (cpu_proc c0) i p else p) <$> procs c0 !! i) ∧
    cinv c (appendQ Q0 (wake_sel chan c0) j).

Lemma woken_step chan ls c0 Q0 j c :
  (∀ i, LProc i ∉ ls) → Z.of_nat j < NPROC → woken chan c0 Q0 j c →
  ∃ c', runs ls (wakeup_one chan j) c tt ls c' ∧ woken chan c0 Q0 (S j) c'.
Proof.
  intros Hls Hj (q & ps & -> & Hps & HI).
  assert (Hlt : (j < length ps)%nat) by (pose proof (si_len _ _ _ _ _ HI); simpl in *; lia).
  destruct (lookup_lt_is_Some_2 ps j Hlt) as [p Hp].
  pose proof (Hps j) as Hpj. rewrite Hp in Hpj.
  destruct (procs c0 !! j) as [p0|] eqn:Hp0; [|done]. simpl in Hpj.
  rewrite decide_False in Hpj by lia. injection Hpj as ->.
  assert (Hstep : ∀ i, (λ p, if decide (i < S j)%nat then wake_p chan (cpu_proc c0) i p else p) <$> procs c0 !! i =
            <[j := wake_p chan (cpu_proc c0) j p0]> ps !! i).
  { intros i. destruct (decide (i = j)) as [->|Hne].
    - rewrite list_lookup_insert_eq, Hp0 by done. simpl. by rewrite decide_True by lia.
    - rewrite list_lookup_insert_ne, Hps by done. destruct (procs c0 !! i); [|done]. simpl.
      do 2 case_decide; try lia; done. }
  assert (Hsel : wake_sel chan c0 j =
            if sleeps_on chan (cpu_proc c0) j p0 then Some (p_queue p0) else None)
    by (unfold wake_sel; rewrite Hp0; reflexivity).
  assert (Hskip : sleeps_on chan (cpu_proc c0) j p0 = false →
            woken chan c0 Q0 (S j) (set_qtable q (set_procs ps c0))).
  { intros Hs. exists q, ps. rewrite appendQ_S, Hsel, Hs. split; [done|]. split; [|done].
    intros i. rewrite Hstep, list_insert_id; [done|]. unfold wake_p. by rewrite Hs. }
  unfold wakeup_one. destruct (bool_decide_reflect (Some j ≠ cpu_proc c0)) as [Hme|Hme].
  - destruct (sleeps_on chan (cpu_proc c0) j p0) eqn:Hs;
      unfold sleeps_on in Hs; rewrite (bool_decide_true (Some j ≠ cpu_proc c0)) in Hs by done; simpl in Hs.
    + apply andb_prop in Hs as [Hs1 Hs2]. apply bool_decide_eq_true in Hs1.
      destruct (runs_make_runnable (LProc j :: ls) j _ p0 _ HI Hp) as (q' & R & I'); [congruence|].
      eexists. split.
      * krun runs_myproc. rewrite bool_decide_true by done. krun runs_acquire; [apply Hls|].
        krun runs_getp; [exact Hp|]. rewrite Hs2, bool_decide_true by done.
        eapply runs_bind; [exact R|]. by apply runs_release.
      * exists q', (<[j := set_p_state RUNNABLE p0]> ps). split; [done|].
        assert (Ew : wake_p chan (cpu_proc c0) j p0 = set_p_state RUNNABLE p0).
        { unfold wake_p, sleeps_on. rewrite Hs2, !bool_decide_true by done. done. }
        rewrite Ew in Hstep. split; [done|].
        rewrite appendQ_S, Hsel. exact I'.
    + eexists. split; [|by apply Hskip].
      krun runs_myproc. rewrite bool_decide_true by done. krun runs_acquire; [apply Hls|].
      krun runs_getp; [exact Hp|]. rewrite Hs. krun runs_ret. by apply runs_release.
  - eexists. split; [|apply Hskip].
    + krun runs_myproc. rewrite bool_decide_false by done. apply runs_ret.
    + unfold sleeps_on. by rewrite bool_decide_false.
Qed.

Lemma runs_wakeup chan ls c Q :
  (∀ i, LProc i ∉ ls) → cinv c Q →
  ∃ c' q', runs ls (wakeup chan) c tt ls c' ∧
    c' = set_qtable q' (set_procs (imap (wake_p chan (cpu_proc c)) (procs c)) c) ∧
    cinv c' (appendQ Q (wake_sel chan c) (Z.to_nat NPROC)).
Proof.
  intros Hls HI.
  destruct (runs_for_seq ls (wakeup_one chan) (woken chan c Q) (Z.to_nat NPROC) c)
    as (c' & R & q & ps & -> & Hps & I').
  - exists (qtable c), (procs c). split; [by destruct c|]. split; [|done].
    intros i. destruct (procs c !! i); done.
  - intros j c1 Hj HW. apply woken_step; [done| |done]. unfold NPROC in *. lia.
  - eexists _, q. split; [exact R|]. split; [|exact I'].
    f_equal. f_equal. apply list_eq. intros i. rewrite Hps, list_lookup_imap.
    destruct (procs c !! i) as [p|] eqn:Ep; [|done]. simpl.
    rewrite decide_True; [done|]. apply lookup_lt_Some in Ep.
    pose proof (si_len _ _ _ _ _ HI). lia.
Qed.

(** ** The timer interrupt *)

(** The state after [clockintr]: the sleepers on [ticks] are awake. *)
Definition clock_tick q c : core E :=
  set_qtable q (set_procs (imap (wake_p (addr_ticks E) (cpu_proc c)) (procs c))
    (set_ticks (u32 (ticks c + 1)) c)).
Definition tick_Q c (Q : queues) : queues := appendQ Q (wake_sel (addr_ticks E) c) (Z.to_nat NPROC).

Lemma runs_clockintr ls c Q :
  LTicks ∉ ls → (∀ i, LProc i ∉ ls) → cinv c Q →
  ∃ q, runs ls clockintr c tt ls (clock_tick q c) ∧ cinv (clock_tick q c) (tick_Q c Q).
Proof.
  intros Ht Hls HI.
  destruct (runs_wakeup (addr_ticks E) (LTicks :: ls) (set_ticks (u32 (ticks c + 1)) c) Q)
    as (c' & q & R & -> & I'); [set_solver|done|].
  exists q. split; [|exact I']. unfold clockintr.
  krun runs_acquire; [done|]. krun runs_cmod. eapply runs_bind; [exact R|]. by apply runs_release.
Qed.

Lemma wake_p_self chan i p : wake_p chan (Some i) i p = p.
Proof. unfold wake_p, sleeps_on. by rewrite bool_decide_false by tauto. Qed.

Lemma on_cpu_tick i p c Q q :
  on_cpu i p c Q → cinv (clock_tick q c) (tick_Q c Q) →
  on_cpu i p (set_time (i32 (time c + 1)) (clock_tick q c)) (tick_Q c Q).
Proof.
  intros H HI. split; simpl; try apply H; [|exact HI].
  rewrite list_lookup_imap, (oc_proc _ _ _ _ H). simpl. by rewrite (oc_cpu _ _ _ _ H), wake_p_self.
Qed.

(** A process on the CPU is made to yield. *)
Lemma leads_timer i p c Q :
  on_cpu i p c Q →
  leads [] kerneltrap_timer c (λ b ls' c', b = true ∧ ls' = [LProc i] ∧ ∃ q Q',
    yield_outcome i p (set_time (i32 (time c + 1)) (clock_tick q c)) (tick_Q c Q) c' Q').
Proof.
  intros H. destruct (runs_clockintr [] c Q) as (q & R & I'); [set_solver..|apply H|].
  pose proof (on_cpu_tick i p c Q q H I') as H1.
  unfold kerneltrap_timer. eapply leads_bind_runs; [exact R|]. klead runs_cmod.
  klead runs_myproc. simpl. rewrite (oc_cpu _ _ _ _ H).
  klead runs_getp; [apply H1|]. rewrite (oc_state _ _ _ _ H1), bool_decide_true by done.
  eapply leads_bind; [by apply leads_yield|].
  intros _ ls1 c1 (-> & Q' & HY). eapply leads_runs; [apply runs_ret|]. eauto.
Qed.

(** In the scheduler nobody yields. *)
Lemma runs_timer_idle c Q :
  cinv c Q → cpu_proc c = None →
  ∃ q, runs [] kerneltrap_timer c false [] (set_time (i32 (time c + 1)) (clock_tick q c)) ∧
    cinv (clock_tick q c) (tick_Q c Q).
Proof.
  intros HI Hc. destruct (runs_clockintr [] c Q) as (q & R & I'); [set_solver..|done|].
  exists q. split; [|done]. unfold kerneltrap_timer. eapply runs_bind; [exact R|].
  krun runs_cmod. krun runs_myproc. simpl. rewrite Hc. apply runs_ret.
Qed.

(** ** [kill] *)

(** The process [kill] finds: the first slot with that pid. *)
Definition has_pid (pid : Z) (ps : list proc) (i : nat) : Prop :=
  ∃ p, ps !! i = Some p ∧ p_pid p = pid.

Lemma runs_kill_one_miss pid ls c i p :
  procs c !! i = Some p → p_pid p ≠ pid → LProc i ∉ ls →
  runs ls (kill_one pid i) c None ls c.
Proof.
  intros Hp Hne Hl. unfold kill_one. krun runs_acquire; [done|].
  krun runs_getp; [exact Hp|]. rewrite bool_decide_false by done.
  krun runs_release; [done|]. apply runs_ret.
Qed.

(** What [kill] does to the process. *)
Definition kill_p (p : proc) : proc :=
  if decide (p_state p = SLEEPING) then set_p_state RUNNABLE (set_p_killed 1 p)
  else set_p_killed 1 p.
Definition kill_Q (i : nat) (p : proc) (Q : queues) : queues :=
  if decide (p_state p = SLEEPING)
  then qset Q (p_queue p) (qget Q (p_queue p) ++ [Z.of_nat i]) else Q.

Lemma runs_kill_one_hit pid ls c Q i p :
  cinv c Q → procs c !! i = Some p → p_pid p = pid → LProc i ∉ ls →
  ∃ q', let c' := set_qtable q' (set_procs (<[i := kill_p p]> (procs c)) c) in
    runs ls (kill_one pid i) c (Some 0) ls c' ∧ cinv c' (kill_Q i p Q).
Proof.
  intros HI Hp Hpid Hl. set (p1 := set_p_killed 1 p).
  set (c1 := set_procs (<[i := p1]> (procs c)) c).
  assert (Hp1 : procs c1 !! i = Some p1) by (by eapply list_insert_some).
  assert (HI1 : cinv c1 Q).
  { apply (sinv_same _ _ _ _ _ i p); try done. apply (si_wf _ _ _ _ _ HI i p Hp). }
  assert (Hrun : ∀ c2 k, runs (LProc i :: ls) k c1 tt (LProc i :: ls) c2 →
    (k = if bool_decide (p_state p = SLEEPING) then make_runnable i else mret tt) →
    runs ls (kill_one pid i) c (Some 0) ls c2).
  { intros c2 k Hk ->. unfold kill_one. krun runs_acquire; [done|].
    krun runs_getp; [exact Hp|]. rewrite bool_decide_true by done.
    krun runs_modp; [exact Hp|]. eapply runs_bind; [exact Hk|]. krun runs_release; [done|].
    apply runs_ret. }
  unfold kill_p, kill_Q. case_decide as Hs.
  - destruct (runs_make_runnable (LProc i :: ls) i c1 p1 Q HI1 Hp1) as (q' & R & I').
    { change (p_state p1) with (p_state p). congruence. }
    exists q'. cbv zeta in R, I' |- *.
    assert (Ec : set_procs (<[i := set_p_state RUNNABLE p1]> (procs c1)) c1 =
                 set_procs (<[i := set_p_state RUNNABLE p1]> (procs c)) c).
    { unfold c1. simpl. by rewrite list_insert_insert_eq. }
    rewrite Ec in R, I'. split; [|exact I'].
    apply (Hrun _ (make_runnable i)); [exact R|]. by rewrite bool_decide_true.
  - exists (qtable c). split; [|exact HI1].
    replace (set_qtable _ _) with c1 by (by destruct c).
    apply (Hrun _ (mret tt)); [apply runs_ret|]. by rewrite bool_decide_false.
Qed.

(** The search: slots before the first hit are left alone. *)
Lemma runs_kill_search pid ls c Q n k :
  (∀ i, LProc i ∉ ls) → cinv c Q → (k + n = Z.to_nat NPROC)%nat →
  (∀ i, (i < k)%nat → ¬ has_pid pid (procs c) i) →
  (runs ls (for_untilM (seq k n) (kill_one pid)) c None ls c ∧ ∀ i, ¬ has_pid pid (procs c) i) ∨
  (∃ i p q', procs c !! i = Some p ∧ p_pid p = pid ∧ (∀ j, (j < i)%nat → ¬ has_pid pid (procs c) j) ∧
     let c' := set_qtable q' (set_procs (<[i := kill_p p]> (procs c)) c) in
     runs ls (for_untilM (seq k n) (kill_one pid)) c (Some 0) ls c' ∧ cinv c' (kill_Q i p Q)).
Proof.
  intros Hls HI. pose proof (si_len _ _ _ _ _ HI) as Hlen.
  revert k. induction n as [|n IH]; intros k Hk Hmiss; simpl.
  - left. split; [apply runs_ret|]. intros i Hi. apply (Hmiss i); [|done].
    destruct Hi as (p & Hp%lookup_lt_Some & _). lia.
  - destruct (lookup_lt_is_Some_2 (procs c) k) as [p Hp]; [lia|].
    destruct (decide (p_pid p = pid)) as [Hpid|Hpid].
    + right. destruct (runs_kill_one_hit pid ls c Q k p HI Hp Hpid (Hls k)) as (q' & R & I').
      exists k, p, q'. split_and!; try done. eapply runs_bind; [exact R|]. apply runs_ret.
    + pose proof (runs_kill_one_miss pid ls c k p Hp Hpid (Hls k)) as R.
      destruct (IH (S k)) as [[R2 H2]|(i & q & q' & H1 & H2 & H3 & R2 & H4)]; [lia| | |].
      * intros i Hi. destruct (decide (i = k)) as [->|]; [|apply Hmiss; lia].
        intros (p' & Hp' & ?). congruence.
      * left. split; [|done]. eapply runs_bind; [exact R|exact R2].
      * right. exists i, q, q'. split_and!; try done. eapply runs_bind; [exact R|exact R2].
Qed.

Definition kill_state i p q' c : core E :=
  set_qtable q' (set_procs (<[i := kill_p p]> (procs c)) c).

Lemma runs_kill pid ls c Q :
  (∀ i, LProc i ∉ ls) → cinv c Q →
  (runs ls (kill pid) c (-1) ls c ∧ ∀ i, ¬ has_pid pid (procs c) i) ∨
  (∃ i p q', procs c !! i = Some p ∧ p_pid p = pid ∧ (∀ j, (j < i)%nat → ¬ has_pid pid (procs c) j) ∧
     runs ls (kill pid) c 0 ls (kill_state i p q' c) ∧ cinv (kill_state i p q' c) (kill_Q i p Q)).
Proof.
  intros Hls HI.
  destruct (runs_kill_search pid ls c Q (Z.to_nat NPROC) 0 Hls HI) as [[R H]|(i & p & q' & H1 & H2 & H3 & R & H4)].
  - done.
  - intros i Hi. lia.
  - left. split; [|done]. eapply runs_bind; [exact R|]. apply runs_ret.
  - right. exists i, p, q'. split_and!; try done. eapply runs_bind; [exact R|]. apply runs_ret.
Qed.

(** ** The scheduler loop *)

Lemma runs_scheduler_return i c :
  sched_p c = Some i →
  runs [LProc i] scheduler_return c tt [] (set_cpu_proc None c).
Proof.
  intros Hs. unfold scheduler_return. krun runs_cmod. krun runs_cget. simpl. rewrite Hs.
  krun runs_deref. by apply runs_release.
Qed.

Lemma runs_intr_on ls c : ls = [] → runs ls intr_onM c tt ls c.
Proof.
  intros -> s [Hc Hh Hf Hn [Ho Ho'] Hk]. eexists. split; [done|].
  constructor; simpl; try done. split; simpl; [lia|]. simpl in *. lia.
Qed.

(** The process the scheduler switches to. *)
Definition run_p (p : proc) : proc := set_p_state RUNNING p.

Lemma runs_dispatch i c p :
  sched_p c = Some i → procs c !! i = Some p → log_ok c →
  let c1 := set_cpu_proc (Some i) (set_procs (<[i := run_p p]> (procs c)) c) in
  runs [] (mp ← cget sched_p; j ← deref mp;
    acquireM (LProc j) ;;
    modp j (set_p_state RUNNING) ;;
    cmod (set_cpu_proc (Some j)) ;;
    log_switch j ;;
    cmod (set_p_kicked 1) ;;
    mret (Some j)) c (Some i) [LProc i] (set_p_kicked 1 (switch_log (run_p p) c1)).
Proof.
  intros Hs Hp Hl c1. krun runs_cget. rewrite Hs. krun runs_deref.
  krun runs_acquire; [set_solver|]. krun runs_modp; [exact Hp|]. krun runs_cmod.
  krun runs_log_switch; [by eapply list_insert_some|done|]. krun runs_cmod. apply runs_ret.
Qed.

Lemma switch_log_frame p c :
  procs (switch_log p c) = procs c ∧ qtable (switch_log p c) = qtable c ∧
  cpu_proc (switch_log p c) = cpu_proc c ∧ sched_p (switch_log p c) = sched_p c ∧
  p_kicked (switch_log p c) = p_kicked c ∧ time (switch_log p c) = time c ∧
  forkret_first (switch_log p c) = forkret_first c ∧
  nextpid (switch_log p c) = nextpid c ∧ initproc (switch_log p c) = initproc c.
Proof. unfold switch_log. destruct (log_same p c); [done|]. apply log_append_frame. Qed.

Lemma run_p_wf p : pwf p → pwf (run_p p).
Proof. done. Qed.

(** The state after a dispatch, given what happened to the queues. *)
Lemma dispatch_on_cpu i c p q Q (c1 := set_cpu_proc (Some i) (set_procs (<[i := run_p p]> (procs c))
    (set_sched_p (Some i) (set_qtable q c)))) :
  procs c !! i = Some p → log_ok c →
  sinv (<[i := run_p p]> (procs c)) q None Q →
  let c2 := set_p_kicked 1 (switch_log (run_p p) c1) in
  on_cpu i (run_p p) c2 Q ∧
  procs c2 = <[i := run_p p]> (procs c) ∧ forkret_first c2 = forkret_first c ∧
  nextpid c2 = nextpid c ∧ initproc c2 = initproc c.
Proof.
  intros Hp Hl HI. destruct (switch_log_frame (run_p p) c1) as (F1 & F2 & F3 & F4 & F5 & F6 & F7 & F8 & F9).
  split; [|by split_and!]. split; simpl; try done.
  - rewrite F1. by eapply list_insert_some.
  - unfold cinv, carried. simpl. rewrite F1, F2. done.
  - apply (switch_log_ok (run_p p) c1). done.
Qed.

(** A process keeps the CPU: the queues are not looked at. *)
Lemma runs_body_carried i c Q :
  cinv c Q → log_ok c → p_kicked c = 0 → sched_p c = Some i →
  ∃ p c', procs c !! i = Some p ∧
    runs [] scheduler_body c (Some i) [LProc i] c' ∧ on_cpu i (run_p p) c' Q ∧
    procs c' = <[i := run_p p]> (procs c) ∧ forkret_first c' = forkret_first c ∧
    nextpid c' = nextpid c ∧ initproc c' = initproc c.
Proof.
  intros HI Hl Hk Hs. assert (Hcar : carried c = Some i) by (unfold carried; by rewrite decide_True).
  destruct (si_carried _ _ _ _ _ HI i Hcar) as (p & Hp & Hr).
  pose proof (dispatch_on_cpu i c p (qtable c) Q Hp Hl) as HD.
  replace (set_sched_p (Some i) (set_qtable (qtable c) c)) with c in HD
    by (destruct c; simpl in *; by subst).
  eexists p, _. split; [done|]. split; [|apply HD].
  - unfold scheduler_body. krun runs_intr_on; [done|]. krun runs_cget. rewrite bool_decide_false by lia.
    krun runs_ret. by apply runs_dispatch.
  - unfold cinv in HI. rewrite Hcar in HI. apply (sinv_uncarry _ _ _ _ i); try done.
    apply run_p_wf, (si_wf _ _ _ _ _ HI i p Hp).
Qed.

(** Otherwise the first process of the highest non-empty queue is taken. *)
Lemma runs_body_taken c Q k x l :
  cinv c Q → log_ok c → p_kicked c ≠ 0 → top_queue Q = Some k → qget Q k = x :: l →
  ∃ i p c', x = Z.of_nat i ∧ procs c !! i = Some p ∧ p_state p = RUNNABLE ∧ p_queue p = k ∧
    runs [] scheduler_body c (Some i) [LProc i] c' ∧ on_cpu i (run_p p) c' (qset Q k l) ∧
    procs c' = <[i := run_p p]> (procs c) ∧ forkret_first c' = forkret_first c ∧
    nextpid c' = nextpid c ∧ initproc c' = initproc c.
Proof.
  intros HI Hl Hk Ht El. assert (Hcar : carried c = None) by (unfold carried; by rewrite decide_False).
  pose proof (top_queue_Some Q k Ht) as (Hkq & _ & _).
  assert (Hx : 0 ≤ x < NPROC).
  { apply (rep_get_range _ _ (si_rep _ _ _ _ _ HI) k). rewrite El. set_solver. }
  destruct (dequeue_ok (qtable c) Q k x l (si_rep _ _ _ _ _ HI) Ht El) as (q' & Eq & HR').
  set (i := Z.to_nat x). assert (Ex : x = Z.of_nat i) by (unfold i; lia).
  destruct (si_queued _ _ _ _ _ HI k i Hkq) as (_ & _ & p & Hp & Hr & Hpk).
  { rewrite El, Ex. set_solver. }
  exists i, p. eexists. split; [done|]. split; [done|]. split; [done|]. split; [done|]. split.
  - unfold scheduler_body. krun runs_intr_on; [done|]. krun runs_cget. rewrite bool_decide_true by done.
    eapply runs_bind.
    + krun runs_clift. { unfold core_q. rewrite Eq. done. }
      rewrite bool_decide_false by (unfold EMPTY; lia). rewrite bool_decide_false by lia.
      krun runs_cmod. apply runs_ret.
    + cbn [negb]. eapply (runs_dispatch i); [done|exact Hp|exact Hl].
  - refine (dispatch_on_cpu i c p q' (qset Q k l) Hp Hl _). unfold cinv in HI. rewrite Hcar in HI.
    apply (sinv_take _ _ (qtable c) _ _ _ _ _ p); try done.
    + by rewrite El, Ex.
    + apply run_p_wf, (si_wf _ _ _ _ _ HI i p Hp).
Qed.
End ops.
