(* ===== verification/Life.v ===== *)
(** * The life of a process: invariant and specifications

    [life_ok]: what the slots of the process table hold in each state of the
    life cycle UNUSED - USED - live (SLEEPING, RUNNABLE, RUNNING) - ZOMBIE.
    The handlers of Fork.v are evaluated from states that satisfy it; the
    environment's calls they make are collected in scripts ([fork_env],
    [exit_env], ...), whose result decides which way the handler goes. *)
From S2P Require Import Prelude Layout Spinlock Queue Proc KLogic Sched Fork SchedInv SchedOps.

Definition live (s : procstate) : bool :=
  match s with SLEEPING | RUNNABLE | RUNNING => true | _ => false end.

Definition no_files : list Z := replicate (Z.to_nat NOFILE) 0.

Record slot_ok (next : Z) (p : proc) : Prop := {
  so_files : length (p_ofile p) = Z.to_nat NOFILE;
  so_used : p_state p ≠ USED;
  so_unused : p_state p = UNUSED →
    p_trapframe p = 0 ∧ p_pagetable p = 0 ∧ p_sz p = 0 ∧ p_pid p = 0 ∧ p_parent p = None ∧
    p_nice p = 0 ∧ p_runtime p = 0;
  so_dead : live (p_state p) = false → p_ofile p = no_files ∧ p_cwd p = 0;
  so_pid : p_state p ≠ UNUSED → 1 ≤ p_pid p < next }.

Definition pids_distinct (ps : list proc) : Prop :=
  ∀ i j p q, ps !! i = Some p → ps !! j = Some q → p_state p ≠ UNUSED → p_state q ≠ UNUSED →
    p_pid p = p_pid q → i = j.

Section life.
Context {E : Type} `{!ProcEnv E}.
Implicit Types (c : core E) (ls : list lockid).

Record life_ok c : Prop := {
  lo_slot : ∀ i p, procs c !! i = Some p → slot_ok (nextpid c) p;
  lo_pids : pids_distinct (procs c);
  lo_next : 1 ≤ nextpid c;
  lo_parent : ∀ i p, procs c !! i = Some p → p_parent p ≠ Some i;
  lo_init : ∀ i p, initproc c = Some i → procs c !! i = Some p →
    p_parent p = None ∧ live (p_state p) = true }.

(** What the handlers of the scheduler leave alone. *)
Definition life_rel (p p' : proc) : Prop :=
  p_ofile p' = p_ofile p ∧ p_cwd p' = p_cwd p ∧ p_pid p' = p_pid p ∧
  p_trapframe p' = p_trapframe p ∧ p_pagetable p' = p_pagetable p ∧ p_sz p' = p_sz p ∧
  p_parent p' = p_parent p ∧
  (p_state p' = p_state p ∧ p_nice p' = p_nice p ∧ p_runtime p' = p_runtime p ∨
   live (p_state p) = true ∧ live (p_state p') = true).

Lemma life_rel_refl p : life_rel p p.
Proof. split_and!; auto. Qed.

Lemma life_rel_trans p q r : life_rel p q → life_rel q r → life_rel p r.
Proof.
  unfold life_rel. intros (?&?&?&?&?&?&?&HA) (?&?&?&?&?&?&?&HB).
  split_and!; try congruence.
  destruct HA as [(Ha & ? & ?)|[Ha Hb]], HB as [(Hc & ? & ?)|[Hc Hd]].
  - left. split_and!; congruence.
  - right. by rewrite <- Ha.
  - right. by rewrite Hc.
  - by right.
Qed.

Lemma life_rel_unused p p' : life_rel p p' → p_state p' = UNUSED ↔ p_state p = UNUSED.
Proof.
  intros (_ & _ & _ & _ & _ & _ & _ & [(-> & _)|[H1 H2]]); [done|].
  by destruct (p_state p), (p_state p').
Qed.

Lemma slot_ok_rel next p p' : slot_ok next p → life_rel p p' → slot_ok next p'.
Proof.
  intros [H1 H2 H3 H4 H5] Hr. pose proof (life_rel_unused p p' Hr) as Hu.
  destruct Hr as (E1 & E2 & E3 & E4 & E5 & E6 & E7 & Hs).
  split; rewrite ?E1, ?E2, ?E3, ?E4, ?E5, ?E6, ?E7; try done.
  - destruct Hs as [(-> & _)|[_ Hl]]; [done|]. by destruct (p_state p').
  - destruct Hs as [(-> & -> & ->)|[_ Hl]]; [done|]. by destruct (p_state p').
  - destruct Hs as [(-> & _)|[_ Hl]]; [done|]. by rewrite Hl.
  - rewrite Hu. done.
Qed.

Lemma life_rel_live p p' : life_rel p p' → live (p_state p') = live (p_state p).
Proof. by intros (_ & _ & _ & _ & _ & _ & _ & [(-> & _)|[-> ->]]). Qed.

Lemma life_frame c c' :
  life_ok c → nextpid c' = nextpid c → initproc c' = initproc c →
  (∀ j p', procs c' !! j = Some p' → ∃ p, procs c !! j = Some p ∧ life_rel p p') →
  life_ok c'.
Proof.
  intros [H1 H2 H0 H3 H4] Hn Hi Hr. split; [| |by rewrite Hn| |].
  - intros i p' Hp'. destruct (Hr i p' Hp') as (p & Hp & Hrel). rewrite Hn.
    by eapply slot_ok_rel; [eapply H1|].
  - intros i j p' q' Hp' Hq' Hsp Hsq Heq.
    destruct (Hr i p' Hp') as (p & Hp & Hp2), (Hr j q' Hq') as (q & Hq & Hq2).
    apply (H2 i j p q Hp Hq).
    + by rewrite <- (life_rel_unused p p').
    + by rewrite <- (life_rel_unused q q').
    + destruct Hp2 as (_ & _ & E1 & _), Hq2 as (_ & _ & E2 & _). congruence.
  - intros i p' Hp'. destruct (Hr i p' Hp') as (p & Hp & (_ & _ & _ & _ & _ & _ & -> & _)).
    by apply (H3 i p).
  - intros i p' Hip Hp'. destruct (Hr i p' Hp') as (p & Hp & Hrel).
    rewrite (life_rel_live p p' Hrel). destruct Hrel as (_ & _ & _ & _ & _ & _ & -> & _).
    apply (H4 i p); [congruence|done].
Qed.

Lemma life_insert c i p p' :
  life_ok c → procs c !! i = Some p → life_rel p p' → life_ok (upd_p i p' c).
Proof.
  intros H Hp Hr. apply (life_frame c); [done..|]. unfold upd_p. simpl.
  intros j q. rewrite list_lookup_insert. case_decide as Hj.
  - destruct Hj as [-> _]. intros [= <-]. eauto.
  - intros Hq. exists q. split; [done|]. apply life_rel_refl.
Qed.

(** A change that does not touch the table, the pid counter or [initproc]. *)
Lemma life_same c c' :
  life_ok c → procs c' = procs c → nextpid c' = nextpid c → initproc c' = initproc c → life_ok c'.
Proof.
  intros H E1 E2 E3. apply (life_frame c); [done..|]. rewrite E1. intros j p Hp. exists p.
  split; [done|apply life_rel_refl].
Qed.

(** ** Freeing a slot *)

Definition free_p (p : proc) : proc :=
  set_p_pass DEFAULT_PASS (set_p_queue 0 (set_p_runtime 0 (set_p_nice 0 (set_p_state UNUSED
    (set_p_xstate 0 (set_p_killed 0 (set_p_chan 0 (set_p_name "" (set_p_parent None (set_p_pid 0
    (set_p_sz 0 (set_p_pagetable 0 (set_p_trapframe 0 p))))))))))))).

Definition free_env (p : proc) : M E unit :=
  (if bool_decide (p_trapframe p ≠ 0) then env_kfree (p_trapframe p) else mret tt) ;;
  (if bool_decide (p_pagetable p ≠ 0) then env_proc_freepagetable (p_pagetable p) (p_sz p) else mret tt).

Lemma free_p_wf p : pwf (free_p p).
Proof. split; [by split|]. split; [by split|]. by vm_compute. Qed.

Lemma bind_Ok {S A B} (m : M S A) (f : A → M S B) s b s' :
  (m ≫= f) s = Ok (b, s') → ∃ a s1, m s = Ok (a, s1) ∧ f a s1 = Ok (b, s').
Proof. unfold mbind, M_bind. destruct (m s) as [[a s1]| | |]; [eauto|done..]. Qed.

Lemma slot_elift_if {B} ls (b : bool) (m : M E unit) i p c (k : unit → M (kst E) B) e' r ls' c' :
  (if b then m else mret tt) (env c) = Ok (tt, e') →
  runs ls (k tt) (upd_p i p (set_env e' c)) r ls' c' →
  runs ls ((if b then elift m else mret tt) ≫= k) (upd_p i p c) r ls' c'.
Proof.
  intros Hm H. destruct b; [by eapply slot_elift|].
  injection Hm as <-. eapply runs_bind; [apply runs_ret|]. by destruct c.
Qed.

(** [freeproc] as the run of its assignments. *)
Lemma runs_freeproc ls i p p0 c e' :
  procs c !! i = Some p0 → free_env p (env c) = Ok (tt, e') →
  runs ls (freeproc i) (upd_p i p c) tt ls (upd_p i (free_p p) (set_env e' c)).
Proof.
  intros Hp He. unfold free_env in He. apply bind_Ok in He as ([] & e1 & He1 & He2).
  unfold freeproc. eapply slot_getp; [exact Hp|]. eapply slot_elift_if; [exact He1|].
  eapply slot_modp; [exact Hp|]. eapply slot_elift_if; [exact He2|].
  do 12 (eapply slot_modp; [exact Hp|]).
  exact (slot_modp_last ls i (set_p_pass DEFAULT_PASS) _ p0 (set_env e' c) Hp).
Qed.
(** ** Finding a slot *)

Definition first_unused (ps : list proc) (j : nat) : Prop :=
  (∃ p, ps !! j = Some p ∧ p_state p = UNUSED) ∧
  ∀ k p, (k < j)%nat → ps !! k = Some p → p_state p ≠ UNUSED.

Lemma runs_find_unused ls c n k :
  (∀ i, LProc i ∉ ls) → length (procs c) = (k + n)%nat →
  (∀ i p, (i < k)%nat → procs c !! i = Some p → p_state p ≠ UNUSED) →
  let find := for_untilM (seq k n) (λ i,
    acquireM (LProc i) ;;
    p ← getp i;
    if bool_decide (p_state p = UNUSED) then mret (Some i)
    else releaseM (LProc i) ;; mret None) in
  (runs ls find c None ls c ∧ ∀ i p, procs c !! i = Some p → p_state p ≠ UNUSED) ∨
  (∃ j, first_unused (procs c) j ∧ runs ls find c (Some j) (LProc j :: ls) c).
Proof.
  intros Hls. revert k. induction n as [|n IH]; intros k Hlen Hmiss find; subst find; simpl.
  - left. split; [apply runs_ret|]. intros i p Hp. apply (Hmiss i p); [|done].
    apply lookup_lt_Some in Hp. lia.
  - destruct (lookup_lt_is_Some_2 (procs c) k) as [p Hp]; [lia|].
    destruct (decide (p_state p = UNUSED)) as [Hs|Hs].
    + right. exists k. split; [split; [by exists p|done]|].
      eapply (runs_bind _ (LProc k :: ls)).
      * krun runs_acquire; [apply Hls|]. krun runs_getp; [exact Hp|].
        rewrite bool_decide_true by done. apply runs_ret.
      * apply runs_ret.
    + destruct (IH (S k)) as [[R H]|(j & Hj & R)]; [lia| | |].
      * intros i q Hi Hq. destruct (decide (i = k)) as [->|]; [congruence|]. apply (Hmiss i q); [lia|done].
      * left. split; [|done]. eapply (runs_bind _ ls).
        { krun runs_acquire; [apply Hls|]. krun runs_getp; [exact Hp|].
          rewrite bool_decide_false by done. krun runs_release; [done|]. apply runs_ret. }
        exact R.
      * right. exists j. split; [done|]. eapply (runs_bind _ ls).
        { krun runs_acquire; [apply Hls|]. krun runs_getp; [exact Hp|].
          rewrite bool_decide_false by done. krun runs_release; [done|]. apply runs_ret. }
        exact R.
Qed.

Lemma runs_allocpid ls c :
  LPid ∉ ls → runs ls allocpid c (nextpid c) ls (set_nextpid (i32 (nextpid c + 1)) c).
Proof.
  intros Hl. unfold allocpid. krun runs_acquire; [done|]. krun runs_cget. krun runs_cmod.
  krun runs_release; [done|]. apply runs_ret.
Qed.

(** ** [allocproc] *)

(** The two allocations: the trap frame page and the page table. *)
Definition alloc_env : M E (option (Z * Z)) :=
  tf ← env_kalloc;
  if bool_decide (tf = 0) then mret None
  else
    pt ← env_proc_pagetable tf;
    if bool_decide (pt = 0) then env_kfree tf ;; mret None else mret (Some (tf, pt)).

(** The slot as [allocproc] returns it. *)
Definition alloc_p (pid tf pt : Z) (p : proc) : proc :=
  let p1 := set_p_pagetable pt (set_p_trapframe tf (set_p_state USED (set_p_pid pid p))) in
  let p2 := set_p_context (mkcontext CodeForkret (p_kstack p + PGSIZE)) p1 in
  set_p_pass DEFAULT_PASS (set_p_queue (priority p2) p2).

Definition took_pid (e : E) c : core E := set_env e (set_nextpid (i32 (nextpid c + 1)) c).

Lemma runs_allocproc_found j p0 c r e' :
  procs c !! j = Some p0 → p_pagetable p0 = 0 → alloc_env (env c) = Ok (r, e') →
  match r with
  | Some (tf, pt) =>
      runs [LProc j] (allocproc_found j) c (Some j) [LProc j]
        (upd_p j (alloc_p (nextpid c) tf pt p0) (took_pid e' c))
  | None =>
      runs [LProc j] (allocproc_found j) c None []
        (upd_p j (free_p p0) (took_pid e' c))
  end.
Proof.
  intros Hp Hpt He. unfold alloc_env in He. apply bind_Ok in He as (tf & e1 & Ha & He).
  set (c1 := set_nextpid (i32 (nextpid c + 1)) c).
  assert (Hp1 : procs c1 !! j = Some p0) by done.
  assert (Hc1 : upd_p j p0 c1 = c1) by (by apply upd_p_id).
  assert (R0 : ∀ (k : Z → M (kst E) (option nat)) r ls' c', runs [LProc j] (k (nextpid c)) (upd_p j p0 c1) r ls' c' →
            runs [LProc j] (allocpid ≫= k) c r ls' c').
  { intros k r0 ls' c' H. eapply runs_bind; [apply runs_allocpid; by intros ?%list_elem_of_singleton|].
    rewrite Hc1 in H. exact H. }
  unfold allocproc_found. case_bool_decide as Htf.
  - injection He as <- <-. subst tf. apply R0. do 2 (eapply slot_modp; [exact Hp1|]).
    eapply slot_elift; [exact Ha|]. eapply slot_modp; [exact Hp1|]. rewrite bool_decide_true by done.
    eapply runs_bind.
    { eapply runs_freeproc; [exact Hp1|]. unfold free_env. simpl. rewrite Hpt. reflexivity. }
    krun runs_release; [done|]. apply runs_ret.
  - apply bind_Ok in He as (pt & e2 & Hb & He). case_bool_decide as Hpt2.
    + apply bind_Ok in He as ([] & e3 & Hc & [= <- <-]). subst pt. apply R0.
      do 2 (eapply slot_modp; [exact Hp1|]). eapply slot_elift; [exact Ha|].
      eapply slot_modp; [exact Hp1|]. rewrite bool_decide_false by done.
      eapply slot_elift; [exact Hb|]. eapply slot_modp; [exact Hp1|]. rewrite bool_decide_true by done.
      eapply runs_bind.
      { eapply runs_freeproc; [exact Hp1|]. unfold free_env. simpl.
        rewrite bool_decide_true by done. unfold mbind, M_bind. simpl. rewrite Hc. reflexivity. }
      krun runs_release; [done|]. apply runs_ret.
    + injection He as <- <-. apply R0.
      do 2 (eapply slot_modp; [exact Hp1|]). eapply slot_elift; [exact Ha|].
      eapply slot_modp; [exact Hp1|]. rewrite bool_decide_false by done.
      eapply slot_elift; [exact Hb|]. eapply slot_modp; [exact Hp1|]. rewrite bool_decide_false by done.
      do 4 (eapply slot_modp; [exact Hp1|]). apply runs_ret.
Qed.
(** ** [fork] *)

(** The file references of the child; a closed descriptor stays closed. *)
Fixpoint dup_files (fs : list Z) : M E (list Z) :=
  match fs with
  | [] => mret []
  | f :: fs' =>
      f' ← (if bool_decide (f ≠ 0) then env_filedup f else mret 0);
      rest ← dup_files fs';
      mret (f' :: rest)
  end.

(** What [fork] asks for after [allocproc], with the child's trap frame and
    page table; [None] when the memory cannot be copied. *)
Definition copy_env (p : proc) (tf pt : Z) : M E (option (list Z * Z)) :=
  r ← env_uvmcopy (p_pagetable p) pt (p_sz p);
  if bool_decide (r < 0) then env_kfree tf ;; env_proc_freepagetable pt 0 ;; mret None
  else
    copy_trapframe tf (p_trapframe p) ;;
    env_st64 (tf + tf_a0) 0 ;;
    fs ← dup_files (p_ofile p);
    cwd ← env_idup (p_cwd p);
    mret (Some (fs, cwd)).

Lemma runs_fork_files ls i j p np0 c n k fs0 pre l np e' fs :
  i ≠ j → procs c !! i = Some p → procs c !! j = Some np0 →
  p_ofile p = fs0 ++ l → length fs0 = k → length l = n →
  p_ofile np = pre ++ replicate n 0 → length pre = k →
  dup_files l (env c) = Ok (fs, e') →
  runs ls (forM (seq k n) (fork_file i j)) (upd_p j np c) tt ls
    (upd_p j (set_p_ofile (pre ++ fs) np) (set_env e' c)).
Proof.
  intros Hij Hp Hnp. revert k fs0 pre l np c e' fs Hp Hnp.
  induction n as [|n IH]; intros k fs0 pre l np c e' fs Hp Hnp Hl Hk Hn Ho Hpre He.
  - destruct l; [|done]. injection He as <- <-. simpl in Ho |- *. rewrite app_nil_r in *.
    assert (En : set_p_ofile pre np = np) by (rewrite <- Ho; by destruct np).
    rewrite En. destruct c; apply runs_ret.
  - destruct l as [|f l]; [done|]. simpl in He, Hn. injection Hn as Hn.
    apply bind_Ok in He as (f' & e1 & H1 & He). apply bind_Ok in He as (rest & e2 & H2 & [= <- <-]).
    assert (Hf : p_ofile p !! k = Some f).
    { rewrite Hl, lookup_app_r by lia. by rewrite Hk, Nat.sub_diag. }
    assert (Hlen : p_ofile np = pre ++ 0 :: replicate n 0) by done.
    simpl. eapply (runs_bind _ ls ls _ _ _ (upd_p j (set_p_ofile (pre ++ f' :: replicate n 0) np) (set_env e1 c))).
    + unfold fork_file. krun runs_getp; [rewrite upd_p_ne by done; exact Hp|]. rewrite Hf. krun runs_deref.
      case_bool_decide as Hf0.
      * eapply slot_elift; [exact H1|].
        match goal with |- runs _ _ _ _ _ (upd_p _ (set_p_ofile ?x _) _) =>
          replace x with (<[k := f']> (p_ofile np)) end.
        -- exact (slot_modp_last ls j (λ np, set_p_ofile (<[k := f']> (p_ofile np)) np) np np0 (set_env e1 c) Hnp).
        -- rewrite Hlen, insert_app_r_alt by lia. by rewrite Hpre, Nat.sub_diag.
      * injection H1 as <- <-.
        assert (En : set_p_ofile (pre ++ 0 :: replicate n 0) np = np)
          by (rewrite <- Hlen; by destruct np).
        rewrite En. destruct c; apply runs_ret.
    + replace (set_p_ofile (pre ++ f' :: rest) np)
        with (set_p_ofile ((pre ++ [f']) ++ rest) (set_p_ofile (pre ++ f' :: replicate n 0) np))
        by (by rewrite <- app_assoc).
      apply (IH (S k) (fs0 ++ [f]) (pre ++ [f']) l _ (set_env e1 c)); try done.
      * by rewrite <- app_assoc.
      * rewrite length_app. simpl. lia.
      * simpl. by rewrite <- app_assoc.
      * rewrite length_app. simpl. lia.
Qed.

(** The child that [fork] makes RUNNABLE. *)
Definition child_p (i : nat) (p : proc) (fs : list Z) (cwd : Z) (np : proc) : proc :=
  set_p_state RUNNABLE (set_p_parent (Some i) (set_p_name (p_name p) (set_p_cwd cwd
    (set_p_ofile fs (set_p_sz (p_sz p) np))))).

Lemma child_queue i p fs cwd np : p_queue (child_p i p fs cwd np) = p_queue np.
Proof. reflexivity. Qed.

(** The child's queue, and the state with it in its slot. *)
Definition forked j np q' c : core E := set_qtable q' (upd_p j np c).

Lemma pwf_ext p p' :
  pwf p → p_queue p' = p_queue p → p_nice p' = p_nice p → p_runtime p' = p_runtime p → pwf p'.
Proof. unfold pwf, quantum. intros H -> -> ->. exact H. Qed.

Lemma alloc_wf pid tf pt p : pwf p → p_runtime p = 0 → pwf (alloc_p pid tf pt p).
Proof.
  intros (_ & H2 & _) H3. split; [apply priority_is_queue|]. split; [exact H2|].
  match goal with |- context [quantum ?x] => pose proof (quantum_pos x) end.
  unfold alloc_p. simpl. rewrite H3. unfold alloc_p in *. lia.
Qed.

Lemma runs_fork_copy i j p np0 np tf pt c Q r e' (c1 := upd_p j np c) :
  cpu_proc c = Some i → procs c !! i = Some p → procs c !! j = Some np0 → i ≠ j →
  cinv c Q → length (p_ofile p) = Z.to_nat NOFILE →
  p_state np0 = UNUSED → p_state np = USED → pwf np → p_trapframe np = tf → p_pagetable np = pt →
  p_sz np = 0 → p_ofile np = no_files → tf ≠ 0 → pt ≠ 0 → copy_env p tf pt (env c) = Ok (r, e') →
  match r with
  | None => runs [LProc j] (fork_copy i j) c1 (-1) [] (upd_p j (free_p np) (set_env e' c))
  | Some (fs, cwd) => ∃ q',
      let np' := child_p i p fs cwd np in
      let c' := forked j np' q' (set_env e' c) in
      runs [LProc j] (fork_copy i j) c1 (p_pid np) [] c' ∧
      cinv c' (qset Q (p_queue np) (qget Q (p_queue np) ++ [Z.of_nat j]))
  end.
Proof.
  intros Hcpu Hp Hnp Hij HI Hlen Hst Hus Hwf Etf Ept Hsz Hof Htf Hpt He.
  unfold copy_env in He. apply bind_Ok in He as (r1 & e1 & H1 & He).
  assert (Hp1 : procs c1 !! i = Some p) by (unfold c1; by rewrite upd_p_ne).
  unfold fork_copy. case_bool_decide as Hr.
  - apply bind_Ok in He as ([] & e2 & H2 & He). apply bind_Ok in He as ([] & e3 & H3 & [= <- <-]).
    krun runs_getp; [exact Hp1|]. unfold c1. eapply slot_getp; [exact Hnp|].
    rewrite Ept. eapply slot_elift; [exact H1|]. rewrite bool_decide_true by done.
    eapply runs_bind.
    { eapply (runs_freeproc _ j np np0 (set_env e1 c)); [exact Hnp|].
      unfold free_env. rewrite Etf, Ept, Hsz, !bool_decide_true by done.
      unfold mbind, M_bind. simpl. rewrite H2, H3. reflexivity. }
    krun runs_release; [done|]. apply runs_ret.
  - apply bind_Ok in He as ([] & e2 & H2 & He). apply bind_Ok in He as ([] & e3 & H3 & He).
    apply bind_Ok in He as (fs & e4 & H4 & He). apply bind_Ok in He as (cwd & e5 & H5 & [= <- <-]).
    set (np1 := set_p_sz (p_sz p) np).
    set (np2 := set_p_parent (Some i) (set_p_name (p_name p) (set_p_cwd cwd (set_p_ofile fs np1)))).
    set (c5 := set_env e5 c).
    assert (HI5 : cinv (upd_p j np2 c5) Q).
    { apply (sinv_other _ (procs c) (qtable c) (carried c) Q j np0 np2 HI Hnp); [congruence| |].
      { change (p_state np2) with (p_state np). congruence. }
      apply (pwf_ext np); [exact Hwf|reflexivity..]. }
    destruct (runs_make_runnable [LProc j] j (upd_p j np2 c5) np2 Q HI5) as (q' & R & I').
    { eapply upd_p_lookup. exact Hnp. }
    { change (p_state np2) with (p_state np). congruence. }
    exists q'. cbv zeta.
    change (set_procs (<[j := set_p_state RUNNABLE np2]> (procs (upd_p j np2 c5))) (upd_p j np2 c5))
      with (upd_p j (set_p_state RUNNABLE np2) (upd_p j np2 c5)) in R, I'.
    rewrite upd_p_upd in R, I'. split; [|exact I'].
    krun runs_getp; [exact Hp1|]. unfold c1. eapply slot_getp; [exact Hnp|].
    rewrite Ept. eapply slot_elift; [exact H1|]. rewrite bool_decide_false by done.
    eapply slot_modp; [exact Hnp|]. fold np1.
    rewrite Etf. eapply slot_elift; [exact H2|]. eapply slot_elift; [exact H3|].
    eapply runs_bind.
    { apply (runs_fork_files _ i j p np0 (set_env e3 c) (Z.to_nat NOFILE) 0 [] [] (p_ofile p) np1 e4 fs
               Hij Hp Hnp eq_refl eq_refl Hlen Hof eq_refl H4). }
    simpl app. eapply slot_elift; [exact H5|].
    do 2 (eapply slot_modp; [exact Hnp|]). eapply slot_getp; [exact Hnp|].
    krun runs_release; [done|]. krun runs_acquire; [set_solver|].
    eapply slot_modp; [exact Hnp|]. krun runs_release; [done|].
    krun runs_acquire; [set_solver|]. eapply runs_bind; [exact R|].
    krun runs_release; [done|]. apply runs_ret.
Qed.
(** Everything [fork] asks of the environment. *)
Definition fork_env (p : proc) : M E (option (Z * Z * list Z * Z)) :=
  r ← alloc_env;
  match r with
  | None => mret None
  | Some (tf, pt) =>
      o ← copy_env p tf pt;
      mret ('(fs, cwd) ← o; Some (tf, pt, fs, cwd))
  end.

(** The three ways [fork] ends. *)
Inductive fork_outcome (i : nat) (p : proc) c (Q : queues) : Z → core E → queues → Prop :=
  | fork_full :
      (∀ j q, procs c !! j = Some q → p_state q ≠ UNUSED) → fork_outcome i p c Q (-1) c Q
  | fork_nomem j np0 np e' :
      first_unused (procs c) j → procs c !! j = Some np0 →
      np = np0 ∨ (∃ tf pt, np = alloc_p (nextpid c) tf pt np0) →
      fork_env p (env c) = Ok (None, e') →
      fork_outcome i p c Q (-1) (upd_p j (free_p np) (took_pid e' c)) Q
  | fork_ok j np0 tf pt fs cwd e' q' np :
      first_unused (procs c) j → procs c !! j = Some np0 →
      fork_env p (env c) = Ok (Some (tf, pt, fs, cwd), e') →
      np = child_p i p fs cwd (alloc_p (nextpid c) tf pt np0) →
      fork_outcome i p c Q (nextpid c) (forked j np q' (took_pid e' c))
        (qset Q (p_queue np) (qget Q (p_queue np) ++ [Z.of_nat j])).

Lemma upd_took j p e1 e2 c :
  set_env e2 (upd_p j p (took_pid e1 c)) = upd_p j p (took_pid e2 c).
Proof. reflexivity. Qed.

Lemma alloc_env_ok e tf pt e' : alloc_env e = Ok (Some (tf, pt), e') → tf ≠ 0 ∧ pt ≠ 0.
Proof.
  intros (tf' & e1 & _ & H)%bind_Ok. case_bool_decide as Htf; [done|].
  apply bind_Ok in H as (pt' & e2 & _ & H). case_bool_decide as Hpt.
  - by apply bind_Ok in H as ([] & e3 & _ & ?).
  - by injection H as <- <- <-.
Qed.

Lemma free_sinv c Q j np0 np :
  cinv c Q → procs c !! j = Some np0 → p_state np0 ≠ RUNNABLE → cinv (upd_p j (free_p np) c) Q.
Proof.
  intros HI Hnp Hs.
  apply (sinv_other _ (procs c) (qtable c) (carried c) Q j np0 (free_p np) HI Hnp Hs).
  - by vm_compute.
  - apply free_p_wf.
Qed.

Lemma leads_fork i p c Q r e' :
  on_cpu i p c Q → life_ok c → fork_env p (env c) = Ok (r, e') →
  leads [] fork c (λ v ls' c', ls' = [] ∧ ∃ Q', fork_outcome i p c Q v c' Q' ∧ cinv c' Q').
Proof.
  intros H HL He. pose proof (oc_proc _ _ _ _ H) as Hp. pose proof (oc_inv _ _ _ _ H) as HI.
  unfold fork. klead runs_myproc. rewrite (oc_cpu _ _ _ _ H). klead runs_deref.
  unfold allocproc, find_unused.
  destruct (runs_find_unused [] c (Z.to_nat NPROC) 0) as [[R Hn]|(j & Hj & R)].
  - by intros ? ?%elem_of_nil.
  - pose proof (si_len _ _ _ _ _ HI). lia.
  - intros k q Hk. lia.
  - eapply leads_runs; [eapply runs_bind; [eapply runs_bind; [exact R|apply runs_ret]|apply runs_ret]|].
    split; [done|]. exists Q. split; [by apply fork_full|done].
  - pose proof Hj as [(np0 & Hnp & Hs) _].
    destruct (so_unused _ _ (lo_slot c HL j np0 Hnp) Hs) as (U1 & U2 & U3 & U4 & U5 & U6 & U7).
    destruct (so_dead _ _ (lo_slot c HL j np0 Hnp)) as [U8 U9]; [by rewrite Hs|].
    assert (Hij : i ≠ j) by (intros ->; pose proof (oc_state _ _ _ _ H); congruence).
    pose proof He as He0. unfold fork_env in He. apply bind_Ok in He as (r1 & e1 & H1 & He).
    pose proof (runs_allocproc_found j np0 c r1 e1 Hnp U2 H1) as RA.
    destruct r1 as [[tf pt]|].
    + apply bind_Ok in He as (o & e2 & H2 & Er). injection Er as <- <-.
      destruct (alloc_env_ok _ _ _ _ H1) as [Htf Hpt].
      set (np := alloc_p (nextpid c) tf pt np0) in *.
      pose proof (runs_fork_copy i j p np0 np tf pt (took_pid e1 c) Q o e2) as RF.
      assert (Hwf : pwf np) by (apply alloc_wf; [apply (si_wf _ _ _ _ _ HI j np0 Hnp)|exact U7]).
      specialize (RF (oc_cpu _ _ _ _ H) Hp Hnp Hij HI (so_files _ _ (lo_slot c HL i p Hp)) Hs
        eq_refl Hwf eq_refl eq_refl U3 U8 Htf Hpt H2).
      eapply leads_bind_runs; [eapply runs_bind; [exact R|exact RA]|]. cbn beta iota.
      destruct o as [[fs cwd]|].
      * destruct RF as (q' & RF & I'). eapply leads_runs; [exact RF|]. split; [done|].
        cbv zeta in I'. change (set_env e2 (took_pid e1 c)) with (took_pid e2 c) in *.
        rewrite <- (child_queue i p fs cwd np) in I'.
        eexists. split; [|exact I'].
        eapply fork_ok; [exact Hj|exact Hnp|exact He0|reflexivity].
      * eapply leads_runs; [exact RF|]. split; [done|]. exists Q. split.
        -- apply (fork_nomem i p c Q j np0 np e2 Hj Hnp); [eauto|exact He0].
        -- apply (free_sinv (took_pid e2 c) Q j np0); [done..|]. congruence.
    + injection He as <- <-.
      eapply leads_runs; [eapply runs_bind; [eapply runs_bind; [exact R|exact RA]|apply runs_ret]|].
      split; [done|]. exists Q. split.
      * apply (fork_nomem i p c Q j np0 np0 e1 Hj Hnp); [eauto|exact He0].
      * apply (free_sinv (took_pid e1 c) Q j np0); [done..|]. congruence.
Qed.
Lemma dup_files_length fs e gs e' : dup_files fs e = Ok (gs, e') → length gs = length fs.
Proof.
  revert e gs. induction fs as [|f fs IH]; simpl; intros e gs H; [by injection H as <- <-|].
  apply bind_Ok in H as (f' & e1 & _ & H). apply bind_Ok in H as (rest & e2 & H2 & [= <- <-]).
  simpl. f_equal. by eapply IH.
Qed.

Lemma fork_env_files p e tf pt fs cwd e' :
  fork_env p e = Ok (Some (tf, pt, fs, cwd), e') → length fs = length (p_ofile p).
Proof.
  intros ([[tf' pt']|] & e1 & _ & H)%bind_Ok; [|done].
  apply bind_Ok in H as (o & e2 & H & Eo). destruct o as [[fs' cwd']|]; [|done].
  injection Eo as -> -> -> -> ->. unfold copy_env in H. apply bind_Ok in H as (r & e3 & _ & H).
  case_bool_decide.
  - apply bind_Ok in H as ([] & e4 & _ & H). by apply bind_Ok in H as ([] & e5 & _ & ?).
  - apply bind_Ok in H as ([] & e4 & _ & H). apply bind_Ok in H as ([] & e5 & _ & H).
    apply bind_Ok in H as (gs & e6 & Hg & H). apply bind_Ok in H as (cw & e7 & _ & [= -> -> ->]).
    by eapply dup_files_length.
Qed.

Lemma slot_ok_next next next' p : slot_ok next p → next ≤ next' → slot_ok next' p.
Proof. intros [H1 H2 H3 H4 H5] Hn. split; try done. intros Hs. specialize (H5 Hs). lia. Qed.

Lemma free_slot_ok next p : length (p_ofile p) = Z.to_nat NOFILE →
  p_ofile p = no_files ∧ p_cwd p = 0 → slot_ok next (free_p p).
Proof. intros H1 H2. by split. Qed.

(** Putting a process with a fresh pid, or none, into a slot nobody uses. *)
Lemma life_put c j p np :
  life_ok c → procs c !! j = Some p → live (p_state p) = false → slot_ok (nextpid c + 1) np →
  p_state np = UNUSED ∨ p_pid np = nextpid c → p_parent np ≠ Some j →
  ∀ e, i32 (nextpid c + 1) = nextpid c + 1 → life_ok (upd_p j np (took_pid e c)).
Proof.
  intros [H1 H2 H0 H3 H4] Hp Hlive Hnp Hor Hpar e Hn. split; simpl; rewrite ?Hn; [| |lia| |].
  - intros k q. rewrite list_lookup_insert. case_decide as Hk.
    + by intros [= <-].
    + intros Hq. eapply slot_ok_next; [by eapply H1|lia].
  - intros k l q1 q2. rewrite !list_lookup_insert.
    assert (Hold : ∀ m q, procs c !! m = Some q → p_state q ≠ UNUSED → p_pid q ≠ nextpid c).
    { intros m q Hq Hs. pose proof (so_pid _ _ (H1 m q Hq) Hs). lia. }
    do 2 case_decide; intros; simplify_eq; try lia.
    + destruct Hor as [?|Hpid]; [done|]. exfalso. eapply Hold; eauto. congruence.
    + destruct Hor as [?|Hpid]; [done|]. exfalso. eapply Hold; eauto. congruence.
    + by eapply H2.
  - intros k q. rewrite list_lookup_insert. case_decide as Hk; [|apply H3].
    destruct Hk as [-> _]. by intros [= <-].
  - intros k q Hk. rewrite list_lookup_insert. case_decide as Hj; [|by apply H4].
    destruct Hj as [-> _]. intros [= <-]. destruct (H4 k p Hk Hp). congruence.
Qed.

Lemma fork_life i p c Q v c' Q' :
  life_ok c → procs c !! i = Some p → live (p_state p) = true → nextpid c + 1 < 2 ^ 31 →
  fork_outcome i p c Q v c' Q' → life_ok c'.
Proof.
  intros HL Hp Hlv Hmax HO. pose proof (lo_next c HL) as H0.
  assert (Hn : i32 (nextpid c + 1) = nextpid c + 1) by (apply i32_small; lia).
  destruct HO as [Hfull|j np0 np e' [(q & Hq & Hs) _] Hnp Hor _|j np0 tf pt fs cwd e' q' np [(q & Hq & Hs) _] Hnp He ->];
    [done| |]; assert (q = np0) as -> by congruence.
  - pose proof (lo_slot c HL j np0 Hnp) as Hok.
    destruct (so_dead _ _ Hok) as [D1 D2]; [by rewrite Hs|].
    apply (life_put c j np0); try done; [by rewrite Hs| |by left].
    apply free_slot_ok; destruct Hor as [->|(tf & pt & ->)]; try done; apply (so_files _ _ Hok).
  - pose proof (fork_env_files _ _ _ _ _ _ _ He) as Hf.
    pose proof (lo_slot c HL i p Hp) as Hok.
    eapply (life_same (upd_p j _ (took_pid e' c))); [|reflexivity..].
    assert (Hne : live (p_state p) = true → i ≠ j) by (intros Hl ->; simplify_eq; by rewrite Hs in Hl).
    apply (life_put c j np0); try done; [by rewrite Hs| |by right|simpl; intros [= ->]; by apply Hne].
    split; try done; simpl.
    + rewrite Hf. apply (so_files _ _ Hok).
    + intros _. lia.
Qed.
End life.
