(* ===== verification/Exit.v ===== *)
(** * Specifications of [exit] and [wait] *)
From S2P Require Import Prelude Layout Spinlock Queue Proc KLogic Sched Fork SchedInv SchedOps Life.

Section exit.
Context {E : Type} `{!ProcEnv E}.
Implicit Types (c : core E) (ls : list lockid).

(** ** Closing the files *)

Fixpoint close_files (fs : list Z) : M E unit :=
  match fs with
  | [] => mret tt
  | f :: fs' => (if bool_decide (f ≠ 0) then env_fileclose f else mret tt) ;; close_files fs'
  end.

Definition exit_env (p : proc) : M E unit :=
  close_files (p_ofile p) ;; env_begin_op ;; env_iput (p_cwd p) ;; env_end_op.

Lemma runs_exit_files ls i p0 c n k l p e' :
  procs c !! i = Some p0 → p_ofile p = replicate k 0 ++ l → length l = n →
  close_files l (env c) = Ok (tt, e') →
  runs ls (forM (seq k n) (exit_file i)) (upd_p i p c) tt ls
    (upd_p i (set_p_ofile (replicate (k + n) 0) p) (set_env e' c)).
Proof.
  revert k l p c. induction n as [|n IH]; intros k l p c Hp Ho Hn He.
  - destruct l; [|done]. injection He as <-. simpl. rewrite app_nil_r in Ho. rewrite Nat.add_0_r.
    assert (En : set_p_ofile (replicate k 0) p = p) by (rewrite <- Ho; by destruct p).
    rewrite En. destruct c; apply runs_ret.
  - destruct l as [|f l]; [done|]. simpl in He, Hn. injection Hn as Hn.
    apply bind_Ok in He as ([] & e1 & H1 & He).
    assert (Hf : p_ofile p !! k = Some f).
    { rewrite Ho, lookup_app_r by (rewrite length_replicate; lia).
      by rewrite length_replicate, Nat.sub_diag. }
    set (p1 := set_p_ofile (replicate (S k) 0 ++ l) p).
    assert (Hrep : replicate (S k) (0 : Z) ++ l = replicate k 0 ++ 0 :: l).
    { rewrite replicate_S_end, <- app_assoc. done. }
    simpl. eapply (runs_bind _ ls ls _ _ _ (upd_p i p1 (set_env e1 c))).
    + unfold exit_file. eapply slot_getp; [exact Hp|]. rewrite Hf. krun runs_deref.
      case_bool_decide as Hf0.
      * eapply slot_elift; [exact H1|].
        assert (E1 : p1 = set_p_ofile (<[k := 0]> (p_ofile p)) p).
        { unfold p1. rewrite Ho, insert_app_r_alt by (rewrite length_replicate; lia).
          rewrite length_replicate, Nat.sub_diag. simpl. f_equal. exact Hrep. }
        rewrite E1.
        exact (slot_modp_last ls i (λ p, set_p_ofile (<[k := 0]> (p_ofile p)) p) p p0 (set_env e1 c) Hp).
      * injection H1 as <-. assert (f = 0) as -> by lia.
        assert (E1 : p1 = p) by (unfold p1; rewrite Hrep, <- Ho; by destruct p).
        rewrite E1. destruct c; apply runs_ret.
    + replace (set_p_ofile (replicate (k + S n) 0) p) with (set_p_ofile (replicate (S k + n) 0) p1)
        by (unfold p1; simpl; by rewrite Nat.add_succ_r).
      apply (IH (S k) l p1 (set_env e1 c)); done.
Qed.

(** ** [reparent] *)

Definition child_of (i : nat) (q : proc) : bool := bool_decide (p_parent q = Some i).

(** After the first [k] slots, from the table of [c0]. *)
Definition reparent_p (i k : nat) c0 (j : nat) (q : proc) : proc :=
  let q1 := if decide (j < k)%nat then (if child_of i q then set_p_parent (initproc c0) q else q) else q in
  if existsb (child_of i) (take k (procs c0))
  then wake_p (addr_opt (initproc c0)) (cpu_proc c0) j q1 else q1.

Lemma wake_p_idem chan me j q : wake_p chan me j (wake_p chan me j q) = wake_p chan me j q.
Proof.
  unfold wake_p at 2 3. destruct (sleeps_on chan me j q) eqn:Hs; [|unfold wake_p; by rewrite Hs].
  unfold wake_p, sleeps_on. simpl. by rewrite andb_false_r.
Qed.
Lemma wake_p_parent chan me j v q :
  set_p_parent v (wake_p chan me j q) = wake_p chan me j (set_p_parent v q).
Proof. unfold wake_p, sleeps_on. simpl. by destruct (_ && _ && _). Qed.
Lemma wake_parent chan me j q : p_parent (wake_p chan me j q) = p_parent q.
Proof. unfold wake_p. by destruct (sleeps_on _ _ _ _). Qed.

Definition reparented (i k : nat) c0 c : Prop :=
  ∃ q ps Q, c = set_qtable q (set_procs ps c0) ∧ cinv c Q ∧
    ∀ j, ps !! j = reparent_p i k c0 j <$> procs c0 !! j.

Lemma reparent_step ls i k c0 c :
  (∀ j, LProc j ∉ ls) → Z.of_nat k < NPROC → reparented i k c0 c →
  ∃ c', runs ls (reparent_one i k) c tt ls c' ∧ reparented i (S k) c0 c'.
Proof.
  intros Hls Hk (q & ps & Q & -> & HI & Hps).
  assert (Hlt : (k < length ps)%nat) by (pose proof (si_len _ _ _ _ _ HI); simpl in *; lia).
  destruct (lookup_lt_is_Some_2 ps k Hlt) as [r Hr]. pose proof (Hps k) as Hr0.
  rewrite Hr in Hr0. destruct (procs c0 !! k) as [r0|] eqn:Hk0; [|done]. injection Hr0 as ->.
  assert (Htake : existsb (child_of i) (take (S k) (procs c0)) =
                  existsb (child_of i) (take k (procs c0)) || child_of i r0).
  { erewrite take_S_r by done. rewrite existsb_app. simpl. by rewrite orb_false_r. }
  assert (Hpar : p_parent (reparent_p i k c0 k r0) = p_parent r0).
  { unfold reparent_p. rewrite decide_False by lia. destruct (existsb (child_of i) (take k (procs c0))); [apply wake_parent|done]. }
  unfold reparent_one. destruct (child_of i r0) eqn:Hc; unfold child_of in Hc.
  - apply bool_decide_eq_true in Hc. set (r1 := set_p_parent (initproc c0) (reparent_p i k c0 k r0)).
    set (c := set_qtable q (set_procs ps c0)) in *.
    assert (HI1 : cinv (upd_p k r1 c) Q).
    { apply (sinv_same _ _ _ _ _ k (reparent_p i k c0 k r0)); try done.
      apply (pwf_ext (reparent_p i k c0 k r0)); try done. apply (si_wf _ _ _ _ _ HI k _ Hr). }
    destruct (runs_wakeup (addr_opt (initproc c0)) ls (upd_p k r1 c) Q Hls HI1) as (c' & q' & R & -> & I').
    eexists. split.
    { krun runs_getp; [exact Hr|]. rewrite Hpar, Hc, bool_decide_true by done. krun runs_cget.
      krun runs_modp; [exact Hr|]. exact R. }
    eexists q', _, _. split; [reflexivity|]. split; [exact I'|]. intros j. simpl.
    rewrite list_lookup_imap, list_lookup_insert. unfold reparent_p. rewrite Htake, orb_true_r.
    case_decide as Hj.
    + destruct Hj as [<- _]. rewrite Hk0. simpl. f_equal.
      rewrite decide_True by lia. unfold child_of. rewrite Hc, bool_decide_true by done.
      unfold r1, reparent_p. rewrite decide_False by lia.
      destruct (existsb (child_of i) (take k (procs c0))); [|done]. rewrite wake_p_parent. by rewrite wake_p_idem.
    + rewrite Hps. assert (j ≠ k) by (intros ->; tauto).
      destruct (procs c0 !! j) as [qj|]; [|done]. simpl. f_equal. unfold reparent_p.
      rewrite (decide_ext (j < k)%nat (j < S k)%nat) by lia.
      destruct (existsb (child_of i) (take k (procs c0))); [|done]. by rewrite wake_p_idem.
  - apply bool_decide_eq_false in Hc. eexists. split.
    { krun runs_getp; [exact Hr|]. rewrite Hpar, bool_decide_false by done. apply runs_ret. }
    exists q, ps, Q. split; [done|]. split; [done|]. intros j. rewrite Hps.
    destruct (procs c0 !! j) as [qj|] eqn:Hj; [|done]. simpl. f_equal. unfold reparent_p.
    rewrite Htake, orb_false_r.
    destruct (decide (j = k)) as [->|Hne].
    + rewrite decide_False, decide_True by lia. assert (qj = r0) as -> by congruence.
      assert (Hcf : child_of i r0 = false) by (unfold child_of; by rewrite bool_decide_false).
      by rewrite Hcf.
    + by rewrite (decide_ext (j < k)%nat (j < S k)%nat) by lia.
Qed.

Lemma runs_reparent ls i c Q :
  (∀ j, LProc j ∉ ls) → cinv c Q →
  ∃ c', runs ls (reparent i) c tt ls c' ∧ reparented i (Z.to_nat NPROC) c c'.
Proof.
  intros Hls HI. apply (runs_for_seq ls (reparent_one i) (λ k c', reparented i k c c')).
  - exists (qtable c), (procs c), Q. split; [by destruct c|]. split; [done|].
    intros j. destruct (procs c !! j); [|done].
    cbn [fmap option_fmap option_map]. unfold reparent_p. by rewrite decide_False by lia.
  - intros j c1 Hj HR. apply reparent_step; try done. unfold NPROC in *. lia.
Qed.
(** ** [exit] *)

(** The process that exits, before and after the scheduler runs. *)
Definition closed_p (p : proc) : proc := set_p_cwd 0 (set_p_ofile no_files p).
Definition zombie_p (ie : bool) (status : Z) (p : proc) : proc :=
  let p1 := set_p_state ZOMBIE (set_p_xstate status p) in
  set_p_context (mkcontext (CodeSched ie InExit) (ctx_sp (p_context p1))) p1.

(** The other processes: children go to [initproc], and who sleeps on the
    parent, or on [initproc] when there are children, wakes up. *)
Definition exit_p (i : nat) (p : proc) c (j : nat) (q : proc) : proc :=
  wake_p (addr_opt (p_parent p)) (cpu_proc c) j (reparent_p i (Z.to_nat NPROC) c j q).

Definition exit_outcome (i : nat) (p : proc) (status : Z) c c' : Prop :=
  ∃ ie e' q' Q' ps', exit_env p (env c) = Ok (tt, e') ∧
    c' = set_qtable q' (set_procs ps' (set_env e' c)) ∧ cinv c' Q' ∧
    ps' !! i = Some (zombie_p ie status (closed_p p)) ∧
    ∀ j, j ≠ i → ps' !! j = exit_p i p (upd_p i (closed_p p) c) j <$> procs c !! j.

Lemma reparent_self i k c q :
  cpu_proc c = Some i → p_parent q ≠ Some i → reparent_p i k c i q = q.
Proof.
  intros Hc Hp. assert (Hcf : child_of i q = false) by (unfold child_of; by rewrite bool_decide_false).
  unfold reparent_p. rewrite Hcf, Hc. destruct (decide _), (existsb _ _); simpl; rewrite ?wake_p_self; done.
Qed.

Lemma leads_exit i p c Q status e' :
  on_cpu i p c Q → initproc c ≠ Some i → p_parent p ≠ Some i →
  length (p_ofile p) = Z.to_nat NOFILE → exit_env p (env c) = Ok (tt, e') →
  leads [] (exit status) c (λ _ ls' c', ls' = [LProc i] ∧ exit_outcome i p status c c').
Proof.
  intros H Hinit Hself Hlen He. pose proof (oc_proc _ _ _ _ H) as Hp. pose proof (oc_inv _ _ _ _ H) as HI.
  pose proof He as He0. unfold exit_env in He. apply bind_Ok in He as ([] & e1 & H1 & He).
  apply bind_Ok in He as ([] & e2 & H2 & He). apply bind_Ok in He as ([] & e3 & H3 & H4).
  set (p1 := set_p_ofile no_files p). set (c1 := upd_p i (closed_p p) (set_env e' c)).
  assert (HI1 : cinv c1 Q).
  { apply (sinv_same _ (procs c) (qtable c) (carried c) Q i p (closed_p p) HI Hp); try done.
    apply (pwf_ext p); try done. apply (si_wf _ _ _ _ _ HI i p Hp). }
  assert (Hcpu1 : cpu_proc c1 = Some i) by apply H.
  destruct (runs_reparent [LWait] i c1 Q) as (c2 & R2 & q2 & ps2 & Q2 & E2 & I2 & Hps2); [set_solver|done|].
  assert (Hp1 : procs c1 !! i = Some (closed_p p)) by (eapply upd_p_lookup; exact Hp).
  assert (Hp2 : ps2 !! i = Some (closed_p p)).
  { rewrite Hps2, Hp1. simpl. f_equal. by apply reparent_self. }
  assert (Hcpu2 : cpu_proc c2 = Some i) by (rewrite E2; exact Hcpu1).
  destruct (runs_wakeup (addr_opt (p_parent p)) [LWait] c2 Q2) as (c3 & q3 & R3 & E3 & I3); [set_solver|done|].
  assert (Hp3 : procs c3 !! i = Some (closed_p p)).
  { rewrite E3. simpl. rewrite list_lookup_imap, E2. simpl. rewrite Hp2. simpl. f_equal.
    change (cpu_proc c1) with (cpu_proc c). rewrite (oc_cpu _ _ _ _ H). apply wake_p_self. }
  set (p4 := set_p_state ZOMBIE (set_p_xstate status (closed_p p))).
  assert (HI4 : cinv (upd_p i p4 c3) (appendQ Q2 (wake_sel (addr_opt (p_parent p)) c2) (Z.to_nat NPROC))).
  { apply (sinv_other _ (procs c3) (qtable c3) (carried c3) _ i (closed_p p) p4 I3 Hp3).
    - change (p_state (closed_p p)) with (p_state p). rewrite (oc_state _ _ _ _ H). done.
    - done.
    - apply (pwf_ext p); try done. apply (si_wf _ _ _ _ _ HI i p Hp). }
  assert (Ecpu : cpu_proc (upd_p i p4 c3) = Some i) by (rewrite E3; exact Hcpu2).
  assert (Hp4 : procs (upd_p i p4 c3) !! i = Some p4) by (eapply upd_p_lookup; exact Hp3).
  unfold exit. klead runs_myproc. rewrite (oc_cpu _ _ _ _ H). klead runs_deref. klead runs_cget.
  rewrite bool_decide_false by congruence. klead runs_ret.
  assert (RE : runs [] (forM (seq 0 (Z.to_nat NOFILE)) (exit_file i)) c tt []
                 (upd_p i p1 (set_env e1 c))).
  { rewrite <- (upd_p_id i p c Hp) at 1.
    apply (runs_exit_files [] i p c (Z.to_nat NOFILE) 0 (p_ofile p) p e1); done. }
  eapply leads_bind_runs; [exact RE|].
  klead runs_elift; [exact H2|]. klead runs_getp; [eapply upd_p_lookup; exact Hp|].
  klead runs_elift; [exact H3|]. klead runs_elift; [exact H4|].
  klead runs_modp; [eapply upd_p_lookup; exact Hp|]. simpl.
  match goal with |- leads _ _ ?x _ => replace x with c1 end; cycle 1.
  { unfold c1, upd_p, closed_p, p1. simpl. by rewrite list_insert_insert_eq. }
  klead runs_acquire; [set_solver|]. eapply leads_bind_runs; [exact R2|].
  klead runs_getp; [rewrite E2; exact Hp2|]. eapply leads_bind_runs; [exact R3|].
  klead runs_acquire; [set_solver|]. klead runs_modp; [exact Hp3|].
  klead runs_modp; [by eapply list_insert_some|].
  match goal with |- leads _ _ ?x _ => replace x with (upd_p i p4 c3) end; cycle 1.
  { unfold upd_p. simpl. by rewrite list_insert_insert_eq. }
  klead runs_release; [apply Permutation_swap|].
  eapply leads_conseq; [by apply (leads_sched_inv _ i (upd_p i p4 c3) p4)|].
  intros _ ls' c' (-> & ie & -> & I'). split; [done|].
  exists ie, e', q3. eexists _, (<[i := zombie_p ie status (closed_p p)]> (procs c3)).
  split; [exact He0|]. split; [|split; [exact I'|split]].
  - unfold upd_p. simpl. rewrite list_insert_insert_eq. by rewrite E3, E2.
  - by eapply list_insert_some.
  - intros j Hj. rewrite list_lookup_insert_ne by done.
    rewrite E3. simpl. rewrite list_lookup_imap, E2. simpl. rewrite Hps2.
    unfold c1, exit_p. rewrite upd_p_ne by done. simpl. by destruct (procs c !! j).
Qed.

Lemma exit_init i p c ls Q status s :
  on_cpu i p c Q → initproc c = Some i → at_ c ls s → exit status s = Panic "init exiting".
Proof.
  intros H Hi Hat. destruct (runs_myproc ls c s Hat) as (s' & E1 & Hat').
  unfold exit. rewrite (bind_ok _ _ _ _ _ E1), (oc_cpu _ _ _ _ H).
  change ((deref (Some i) ≫= ?f) s') with (f i s'). cbv beta.
  change ((cget initproc ≫= ?f) s') with (f (initproc (kc s')) s'). cbv beta.
  rewrite (at_core _ _ _ Hat'), Hi. by rewrite bool_decide_true.
Qed.
(** ** [wait] *)

Definition zombie_child (i : nat) (q : proc) : Prop := p_parent q = Some i ∧ p_state q = ZOMBIE.
Definition first_zombie (i : nat) (ps : list proc) (j : nat) (q : proc) : Prop :=
  ps !! j = Some q ∧ zombie_child i q ∧
  ∀ k q', (k < j)%nat → ps !! k = Some q' → ¬ zombie_child i q'.
Definition no_zombie (i : nat) (ps : list proc) : Prop :=
  ∀ k q', ps !! k = Some q' → ¬ zombie_child i q'.

(** The exit status goes out, then the child's memory is freed. *)
Definition reap_env (p : proc) (addr : Z) (q : proc) : M E Z :=
  r ← (if bool_decide (addr ≠ 0)
       then env_copyout (p_pagetable p) addr (le_bytes 4 (p_xstate q)) else mret 0);
  if bool_decide (r < 0) then mret r else free_env q ;; mret r.

(** What [wait_one] does to a zombie child. *)
Definition reaped (j : nat) (q : proc) (r : Z) (e' : E) c : core E :=
  if bool_decide (r < 0) then set_env e' c else upd_p j (free_p q) (set_env e' c).
Definition reap_ret (q : proc) (r : Z) : Z := if bool_decide (r < 0) then -1 else p_pid q.

Lemma runs_wait_zombie i p addr j q c r e' :
  procs c !! i = Some p → procs c !! j = Some q → zombie_child i q →
  reap_env p addr q (env c) = Ok (r, e') →
  runs [LWait] (wait_one i addr j) c (Some (reap_ret q r), true) [] (reaped j q r e' c).
Proof.
  intros Hp Hq [Hpar Hst] He. unfold reap_env in He. apply bind_Ok in He as (r1 & e1 & H1 & He).
  assert (Hr : r1 = r).
  { case_bool_decide; [by injection He|]. apply bind_Ok in He as ([] & e2 & _ & [=]). done. }
  subst r1. unfold wait_one. krun runs_getp; [exact Hq|]. rewrite bool_decide_true by done.
  krun runs_acquire; [set_solver|]. krun runs_getp; [exact Hq|]. rewrite bool_decide_true by done.
  krun runs_getp; [exact Hp|].
  eapply (runs_bind _ _ _ _ _ _ (set_env e1 c) _ r).
  { case_bool_decide; [by apply runs_elift|]. injection H1 as <- <-. destruct c; apply runs_ret. }
  unfold reap_ret, reaped. destruct (decide (r < 0)) as [Hneg|Hneg];
    [rewrite bool_decide_true in * by done|rewrite bool_decide_false in * by done].
  - injection He as <-. krun runs_release; [done|]. krun runs_release; [done|]. apply runs_ret.
  - apply bind_Ok in He as ([] & e2 & H2 & [= <-]).
    eapply runs_bind.
    { rewrite <- (upd_p_id j q (set_env e1 c)) by done.
      eapply (runs_freeproc _ j q q (set_env e1 c)); [exact Hq|exact H2]. }
    krun runs_release; [done|]. krun runs_release; [done|]. apply runs_ret.
Qed.

Lemma runs_wait_other i addr j q c :
  procs c !! j = Some q → ¬ zombie_child i q →
  runs [LWait] (wait_one i addr j) c (None, child_of i q) [LWait] c.
Proof.
  intros Hq Hz. unfold wait_one, child_of. krun runs_getp; [exact Hq|].
  case_bool_decide as Hpar; [|apply runs_ret].
  krun runs_acquire; [set_solver|]. krun runs_getp; [exact Hq|].
  rewrite bool_decide_false by (by intros ?; apply Hz).
  krun runs_release; [done|]. apply runs_ret.
Qed.

Lemma runs_wait_none i addr c n k b :
  length (procs c) = (k + n)%nat → no_zombie i (procs c) →
  runs [LWait] (wait_loop i addr (seq k n) b) c
    (None, b || existsb (child_of i) (drop k (procs c))) [LWait] c.
Proof.
  intros Hlen Hz. revert k b Hlen. induction n as [|n IH]; intros k b Hlen; simpl.
  - rewrite drop_ge by lia. simpl. rewrite orb_false_r. apply runs_ret.
  - destruct (lookup_lt_is_Some_2 (procs c) k) as [q Hq]; [lia|].
    eapply runs_bind; [apply runs_wait_other; [exact Hq|by eapply Hz]|]. cbn beta iota.
    erewrite (drop_S _ _ k) by exact Hq. simpl. rewrite orb_assoc. apply IH. lia.
Qed.

Lemma runs_wait_found i p addr c j q r e' n k b :
  procs c !! i = Some p → first_zombie i (procs c) j q → (k ≤ j < k + n)%nat →
  reap_env p addr q (env c) = Ok (r, e') →
  runs [LWait] (wait_loop i addr (seq k n) b) c (Some (reap_ret q r), true) [] (reaped j q r e' c).
Proof.
  intros Hp (Hq & Hz & Hmin) Hk He. revert k b Hk. induction n as [|n IH]; intros k b Hk; [lia|]. simpl.
  destruct (decide (k = j)) as [->|Hne].
  - eapply runs_bind; [by eapply runs_wait_zombie|]. apply runs_ret.
  - destruct (lookup_lt_is_Some_2 (procs c) k) as [q' Hq']; [apply lookup_lt_Some in Hq; lia|].
    eapply runs_bind; [apply runs_wait_other; [exact Hq'|eapply Hmin; [|exact Hq']; lia]|].
    cbn beta iota. apply IH. lia.
Qed.

(** The process asleep in [wait]. *)
Definition waiting_p (i : nat) (ie : bool) (p : proc) : proc :=
  set_p_context (mkcontext (CodeSched ie (InSleep LWait)) (ctx_sp (p_context p)))
    (set_p_state SLEEPING (set_p_chan (addr_proc E i) p)).

(** How one round of [wait] ends: what it returns, the locks and the state. *)
Inductive wait_outcome (i : nat) (p : proc) (addr : Z) c (Q : queues) :
    wait_result → list lockid → core E → Prop :=
  | wait_reaped j q r e' :
      first_zombie i (procs c) j q → reap_env p addr q (env c) = Ok (r, e') →
      wait_outcome i p addr c Q (WaitRet (reap_ret q r)) [] (reaped j q r e' c)
  | wait_pointless :
      no_zombie i (procs c) →
      existsb (child_of i) (procs c) = false ∨ p_killed p ≠ 0 →
      wait_outcome i p addr c Q (WaitRet (-1)) [] c
  | wait_blocked ie :
      no_zombie i (procs c) → existsb (child_of i) (procs c) = true → p_killed p = 0 →
      wait_outcome i p addr c Q WaitBlocked [LProc i] (upd_p i (waiting_p i ie p) c).

Lemma first_zombie_or i (ps : list proc) : (∃ j q, first_zombie i ps j q) ∨ no_zombie i ps.
Proof.
  induction ps as [|q ps IH]; [right; intros k q' Hk; by rewrite lookup_nil in Hk|].
  destruct (decide (p_parent q = Some i ∧ p_state q = ZOMBIE)) as [Hz|Hz].
  - left. exists 0%nat, q. split_and!; [done..|]. intros k q' Hk. lia.
  - destruct IH as [(j & q1 & H1 & H2 & H3)|Hn].
    + left. exists (S j), q1. split_and!; [done..|]. intros [|k] q' Hk Hq'; simpl in Hq'.
      * by simplify_eq.
      * apply (H3 k q'); [lia|done].
    + right. intros [|k] q' Hq'; simpl in Hq'; [by simplify_eq|by apply (Hn k)].
Qed.

(** The environment's part of a round. *)
Definition wait_env_ok (i : nat) (p : proc) (addr : Z) c : Prop :=
  ∀ j q, first_zombie i (procs c) j q → ∃ r e', reap_env p addr q (env c) = Ok (r, e').

Lemma leads_wait_scan i p addr c Q :
  on_cpu i p c Q → wait_env_ok i p addr c →
  leads [LWait] (wait_scan addr) c (λ v ls' c', wait_outcome i p addr c Q v ls' c' ∧ cinv c' Q).
Proof.
  intros H He. pose proof (oc_proc _ _ _ _ H) as Hp. pose proof (oc_inv _ _ _ _ H) as HI.
  pose proof (si_len _ _ _ _ _ HI) as Hlen. unfold wait_scan.
  klead runs_myproc. rewrite (oc_cpu _ _ _ _ H). klead runs_deref.
  destruct (first_zombie_or i (procs c)) as [(j & q & Hz)|Hn].
  - destruct (He j q Hz) as (r & e' & Hr). pose proof Hz as (Hq & [Hpar Hst] & _).
    eapply leads_bind_runs.
    { apply (runs_wait_found i p addr c j q r e'); [exact Hp|exact Hz| |exact Hr].
      apply lookup_lt_Some in Hq. unfold NPROC in *. lia. }
    eapply leads_runs; [apply runs_ret|]. split; [by apply wait_reaped|].
    unfold reaped. case_bool_decide; [done|].
    apply (free_sinv (set_env e' c) Q j q); [done..|]. congruence.
  - eapply leads_bind_runs; [apply runs_wait_none; [lia|done]|]. cbn beta iota. rewrite drop_0.
    klead runs_getp; [exact Hp|]. cbn [orb].
    destruct (negb (existsb (child_of i) (procs c)) || bool_decide (p_killed p ≠ 0)) eqn:Hb.
    + eapply leads_runs; [krun runs_release; [done|]; apply runs_ret|]. split; [|done].
      apply wait_pointless; [done|]. apply orb_true_iff in Hb as [Hb|Hb].
      * left. by apply negb_true_iff.
      * right. by apply bool_decide_eq_true in Hb.
    + apply orb_false_iff in Hb as [Hb1 Hb2]. apply negb_false_iff in Hb1.
      apply bool_decide_eq_false in Hb2.
      eapply leads_bind; [by apply (leads_sleep (addr_proc E i) LWait i p c Q)|].
      intros _ ls1 c1 (-> & ie & -> & I'). eapply leads_runs; [apply runs_ret|]. split; [|exact I'].
      apply (wait_blocked i p addr c Q ie); [done..|lia].
Qed.
(** ** The life invariant is kept *)

Lemma wake_p_rel chan me j q : life_rel q (wake_p chan me j q).
Proof.
  unfold wake_p. destruct (sleeps_on chan me j q) eqn:Hs; [|apply life_rel_refl].
  split_and!; try done. right. split; [|done]. unfold sleeps_on in Hs.
  apply andb_prop in Hs as [Hs _]. apply andb_prop in Hs as [_ Hs].
  apply bool_decide_eq_true in Hs. by rewrite Hs.
Qed.

Lemma wake_p_ra chan me j q : p_context (wake_p chan me j q) = p_context q.
Proof. unfold wake_p. by destruct (sleeps_on _ _ _ _). Qed.

(** [exit] changes the parent of another process, and its state. *)
Lemma exit_p_rel i p c j q (q' := exit_p i p c j q) :
  life_rel q (set_p_parent (p_parent q) q') ∧ p_context q' = p_context q ∧
  p_state q' = p_state (set_p_parent (p_parent q) q') ∧
  (p_parent q' = p_parent q ∨ p_parent q = Some i ∧ p_parent q' = initproc c).
Proof.
  unfold exit_p, reparent_p in q'.
  set (q1 := if decide (j < Z.to_nat NPROC)%nat then _ else _) in q'.
  assert (H1 : set_p_parent (p_parent q) q1 = q ∧ p_context q1 = p_context q ∧
            (p_parent q1 = p_parent q ∨ p_parent q = Some i ∧ p_parent q1 = initproc c)).
  { subst q1. case_decide; [|by destruct q; auto]. unfold child_of.
    case_bool_decide; destruct q; auto. }
  destruct H1 as (E1 & E2 & E3).
  assert (Hq' : ∃ w, q' = w q1 ∧ life_rel q (w (set_p_parent (p_parent q) q1)) ∧
            (∀ v x, set_p_parent v (w x) = w (set_p_parent v x)) ∧
            (∀ x, p_context (w x) = p_context x) ∧ (∀ x, p_parent (w x) = p_parent x)).
  { subst q'. destruct (existsb _ _).
    - eexists (λ x, wake_p (addr_opt (p_parent p)) (cpu_proc c) j
                      (wake_p (addr_opt (initproc c)) (cpu_proc c) j x)).
      split_and!; [done| |..].
      + rewrite E1. eapply life_rel_trans; apply wake_p_rel.
      + intros v x. by rewrite !wake_p_parent.
      + intros x. by rewrite !wake_p_ra.
      + intros x. by rewrite !wake_parent.
    - exists (wake_p (addr_opt (p_parent p)) (cpu_proc c) j). split_and!; [done| |..].
      + rewrite E1. apply wake_p_rel.
      + intros v x. by rewrite !wake_p_parent.
      + intros x. by rewrite !wake_p_ra.
      + intros x. by rewrite !wake_parent. }
  destruct Hq' as (w & -> & Hrel & Hw & Hctx & Hpar).
  split_and!; [by rewrite Hw|by rewrite Hctx|done|by rewrite Hpar].
Qed.

Lemma wake_p_state chan me j q :
  p_state (wake_p chan me j q) = p_state q ∨ p_state q = SLEEPING ∧ p_state (wake_p chan me j q) = RUNNABLE.
Proof.
  unfold wake_p. destruct (sleeps_on chan me j q) eqn:Hs; [|by left]. right. split; [|done].
  unfold sleeps_on in Hs. apply andb_prop in Hs as [Hs _]. apply andb_prop in Hs as [_ Hs].
  by apply bool_decide_eq_true in Hs.
Qed.

Lemma zombie_slot ie status next p :
  slot_ok next p → live (p_state p) = true → slot_ok next (zombie_p ie status (closed_p p)).
Proof.
  intros [H1 H2 H3 H4 H5] Hl. split; try done. simpl. intros _. apply H5.
  by intros Hs; rewrite Hs in Hl.
Qed.

(** Replacing the table by one with the same pids. *)
Lemma life_table c c' :
  life_ok c → nextpid c' = nextpid c → initproc c' = initproc c →
  (∀ j p', procs c' !! j = Some p' → ∃ p, procs c !! j = Some p ∧ slot_ok (nextpid c) p' ∧
     (p_state p' = UNUSED ∨ p_state p ≠ UNUSED ∧ p_pid p' = p_pid p) ∧
     p_parent p' ≠ Some j ∧
     (initproc c = Some j → p_parent p' = None ∧ live (p_state p') = true)) →
  life_ok c'.
Proof.
  intros [H1 H2 H0 H3 H4] En Ei Hr. split; rewrite ?En, ?Ei; [| |done| |].
  - intros j p' Hp'. destruct (Hr j p' Hp') as (p & _ & H & _). done.
  - intros k l p' q' Hp' Hq' Hsp Hsq Heq.
    destruct (Hr k p' Hp') as (p & Hp & _ & Hpid & _), (Hr l q' Hq') as (q & Hq & _ & Hqid & _).
    destruct Hpid as [?|[Hpu Hpid]]; [done|]. destruct Hqid as [?|[Hqu Hqid]]; [done|].
    apply (H2 k l p q); congruence.
  - intros j p' Hp'. by destruct (Hr j p' Hp') as (p & _ & _ & _ & H & _).
  - intros j p' Hj Hp'. destruct (Hr j p' Hp') as (p & _ & _ & _ & _ & H). by apply H.
Qed.

Lemma exit_life i p c Q status c' :
  life_ok c → on_cpu i p c Q → initproc c ≠ Some i → exit_outcome i p status c c' → life_ok c'.
Proof.
  intros HL H Hi (ie & e' & q' & Q' & ps' & _ & -> & _ & Hpi & Hoth).
  pose proof (oc_proc _ _ _ _ H) as Hp. pose proof (oc_state _ _ _ _ H) as Hs.
  assert (Hlive : live (p_state p) = true) by (by rewrite Hs).
  apply (life_table c); [done..|]. simpl. intros j r Hr.
  destruct (decide (j = i)) as [->|Hne].
  - rewrite Hpi in Hr. injection Hr as <-. exists p. split; [done|].
    split; [apply zombie_slot; [by apply (lo_slot c HL i)|done]|].
    split; [right; split; [congruence|done]|]. split; [by apply (lo_parent c HL i p)|done].
  - rewrite (Hoth j Hne) in Hr. destruct (procs c !! j) as [q|] eqn:Hq; [|done].
    injection Hr as <-. exists q. split; [done|].
    destruct (exit_p_rel i p (upd_p i (closed_p p) c) j q) as (Hrel & _ & Hst & Hpar).
    set (r := exit_p _ _ _ _ _) in *. change (initproc (upd_p i (closed_p p) c)) with (initproc c) in Hpar.
    pose proof (lo_slot c HL j q Hq) as Hok.
    assert (Hstate : live (p_state r) = live (p_state q)) by (rewrite Hst; by apply life_rel_live).
    assert (Hun : p_state r = UNUSED ↔ p_state q = UNUSED) by (rewrite Hst; by apply life_rel_unused).
    pose proof (slot_ok_rel _ _ _ Hok Hrel) as [K1 K2 K3 K4 K5].
    split; [|split; [|split]].
    + split; try done. intros Hu. destruct (K3 Hu) as (A1 & A2 & A3 & A4 & A5 & A6 & A7).
      split_and!; try done. destruct Hpar as [Hpar|[Hpar _]]; [by rewrite Hpar|].
      simpl in A5. congruence.
    + destruct (decide (p_state r = UNUSED)) as [Hu|Hu]; [by left|]. right.
      split; [by rewrite <- Hun|]. by destruct Hrel as (_ & _ & E1 & _).
    + destruct Hpar as [Hpar|[Hpar1 Hpar2]]; [rewrite Hpar; by apply (lo_parent c HL j)|].
      rewrite Hpar2. intros Hj. destruct (lo_init c HL j q Hj Hq). congruence.
    + intros Hj. destruct (lo_init c HL j q Hj Hq) as [HN Hlv].
      rewrite Hstate. split; [|done]. destruct Hpar as [Hpar|[Hpar1 _]]; congruence.
Qed.

Lemma wait_life i p addr c Q v ls c' :
  life_ok c → on_cpu i p c Q → wait_outcome i p addr c Q v ls c' → life_ok c'.
Proof.
  intros HL H HO. destruct HO as [j q r e' (Hq & [Hpar Hst] & _) _|Hn _|ie _ _ _]; [|done|].
  - unfold reaped. case_bool_decide; [by apply (life_same c)|].
    pose proof (lo_slot c HL j q Hq) as Hok.
    destruct (so_dead _ _ Hok) as [D1 D2]; [by rewrite Hst|].
    apply (life_table c); [done..|]. intros k r'. simpl. rewrite list_lookup_insert.
    case_decide as Hk.
    + destruct Hk as [-> _]. intros [= <-]. exists q. split; [done|].
      split; [by apply free_slot_ok; [apply (so_files _ _ Hok)|]|].
      split; [by left|]. split; [done|]. intros Hj.
      destruct (lo_init c HL k q Hj Hq). congruence.
    + intros Hk'. exists r'. split; [done|]. split; [by apply (lo_slot c HL k)|].
      split.
      { destruct (decide (p_state r' = UNUSED)); [by left|by right]. }
      split; [by apply (lo_parent c HL k)|]. intros Hj. by apply (lo_init c HL k r').
  - apply (life_insert c i p); [done|apply H|]. split_and!; try done. right.
    by rewrite (oc_state _ _ _ _ H).
Qed.
End exit.
