(* ===== verification/SchedSystem.v ===== *)
(** * The scheduler as a transition system

    One hart: control is in a process ([InProc], with the spin locks it holds),
    in the scheduler right after a process switched to it ([Switched]), or at
    the top of the scheduler loop ([AtLoop]).  A step is a whole handler of
    proc.c run from such a point to the next, or a whole round of the scheduler:
    interrupts come between steps.  (An interrupt inside a round is
    [dequeue_race] in Queue.v.)  A handler that panics or leaves its tables leads
    to [Crashed]. *)
From S2P Require Import Prelude Layout Spinlock Queue Proc KLogic Sched Fork SchedInv SchedOps Life Exit.

Inductive mode :=
  | InProc (i : nat) (ls : list lockid)
  | Switched (i : nat)
  | AtLoop.

Inductive cmd :=
  | CmdTick                 (** timer interrupt *)
  | CmdNice (inc : Z)       (** the system call *)
  | CmdSleep (chan : Z)     (** the process waits, under the one lock it holds *)
  | CmdWakeup (chan : Z)    (** by a process, or by a device interrupt *)
  | CmdKill (pid : Z)
  | CmdStartlog
  | CmdAcquire (lk : lockid)
  | CmdRelease (lk : lockid)
  | CmdReturn               (** the scheduler's code after [swtch] *)
  | CmdDispatch             (** one round of the scheduler loop *)
  | CmdFork
  | CmdExit (status : Z)
  | CmdWait (addr : Z)
  | CmdWaitMore (addr : Z). (** [wait] after its [sleep] *)

#[global] Instance cmd_eq_dec : EqDecision cmd.
Proof. solve_decision. Defined.

Definition is_proc_lock (l : lockid) : bool :=
  match l with LProc _ => true | _ => false end.

Section system.
Context {E : Type} `{!ProcEnv E}.

(** The locks a process holds when [resume] is done. *)
Definition resume_locks (p : proc) : list lockid :=
  match ra (p_context p) with CodeSched _ (InSleep lk) => [lk] | _ => [] end.

Definition dispatch : M (kst E) mode :=
  o ← scheduler_body;
  match o with
  | None => mret AtLoop
  | Some j => p ← getp j; resume j ;; mret (InProc j (resume_locks p))
  end.

Definition after_wait (i : nat) (r : wait_result) : mode :=
  match r with WaitRet _ => InProc i [] | WaitBlocked => Switched i end.

(** What a command runs; [None]: it does not apply in this mode. *)
Definition exec (cm : cmd) (m : mode) : option (M (kst E) mode) :=
  match cm, m with
  | CmdTick, InProc i [] => Some (b ← kerneltrap_timer; mret (if b : bool then Switched i else m))
  | CmdTick, AtLoop => Some (kerneltrap_timer ;; mret m)
  | CmdNice inc, InProc i [] => Some (sys_nice inc ;; mret (Switched i))
  | CmdSleep chan, InProc i [lk] => Some (sleep chan lk ;; mret (Switched i))
  | CmdWakeup chan, InProc _ _ | CmdWakeup chan, AtLoop => Some (wakeup chan ;; mret m)
  | CmdKill pid, InProc _ _ => Some (kill pid ;; mret m)
  | CmdStartlog, InProc _ _ => Some (sys_startlog ;; mret m)
  | CmdAcquire lk, InProc i ls =>
      if is_proc_lock lk || bool_decide (lk ∈ ls) then None
      else Some (acquireM lk ;; mret (InProc i (lk :: ls)))
  | CmdRelease lk, InProc i ls =>
      match ls with
      | lk' :: ls' => if decide (lk = lk') then Some (releaseM lk ;; mret (InProc i ls')) else None
      | [] => None
      end
  | CmdReturn, Switched i => Some (scheduler_return ;; mret AtLoop)
  | CmdDispatch, AtLoop => Some dispatch
  | CmdFork, InProc _ [] => Some (fork ;; mret m)
  | CmdExit status, InProc i [] => Some (exit status ;; mret (Switched i))
  | CmdWait addr, InProc i [] => Some (r ← wait addr; mret (after_wait i r))
  | CmdWaitMore addr, InProc i [LWait] => Some (r ← wait_scan addr; mret (after_wait i r))
  | _, _ => None
  end.

Inductive sys := Sys (m : mode) (s : kst E) | Crashed.

(** Some process can run. *)
Definition runnable_exists (s : kst E) : Prop :=
  ∃ i p, procs (kc s) !! i = Some p ∧ p_state p = RUNNABLE.

(** What is asked of the rest of the kernel before a command: the calls that
    [fork], [exit] and [wait] make into the memory and file code return, and
    the pid counter of [fork] does not overflow. *)
Definition returns (cm : cmd) (s : kst E) : Prop :=
  let c := kc s in
  match cm with
  | CmdFork => nextpid c + 1 < 2 ^ 31 ∧
      ∀ i p, cpu_proc c = Some i → procs c !! i = Some p → ∃ r e', fork_env p (env c) = Ok (r, e')
  | CmdExit _ =>
      ∀ i p, cpu_proc c = Some i → procs c !! i = Some p → ∃ e', exit_env p (env c) = Ok (tt, e')
  | CmdWait addr | CmdWaitMore addr =>
      ∀ i p, cpu_proc c = Some i → procs c !! i = Some p → wait_env_ok i p addr c
  | _ => True
  end.

(** The two uses the code does not withstand: a round of the scheduler with
    nothing RUNNABLE, and [exit] called by init. *)
Definition proper (cm : cmd) (s : kst E) : Prop :=
  match cm with
  | CmdDispatch => runnable_exists s
  | CmdExit _ => initproc (kc s) ≠ cpu_proc (kc s)
  | _ => True
  end.

(** A step of the machine, by command. *)
Inductive kstep (cm : cmd) : sys → sys → Prop :=
  | step_ok m s f m' s' :
      exec cm m = Some f → returns cm s →
      f s = Ok (m', s') → kstep cm (Sys m s) (Sys m' s')
  | step_crash m s f :
      exec cm m = Some f → returns cm s →
      (∀ r, f s ≠ Ok r) → kstep cm (Sys m s) Crashed.

(** Any step, and a step that is not one of those two uses. *)
Definition any_step (st st' : sys) : Prop := ∃ cm, kstep cm st st'.
Definition sys_step (st st' : sys) : Prop :=
  ∃ cm m s, st = Sys m s ∧ proper cm s ∧ kstep cm st st'.

(** ** The invariant of the system *)

Definition ctx_ok (p : proc) : Prop :=
  match ra (p_context p) with
  | CodeForkret => True
  | CodeSched _ InYield => True
  | CodeSched _ (InSleep lk) => is_proc_lock lk = false
  | _ => False
  end.
Definition can_resume (s : procstate) : Prop := s = SLEEPING ∨ s = RUNNABLE.

(** Everyone that may be scheduled later has a context to return to; nobody
    but [o] is RUNNING. *)
Definition procs_ok (o : option nat) (c : core E) : Prop :=
  ∀ j p, procs c !! j = Some p → o ≠ Some j →
    p_state p ≠ RUNNING ∧ (can_resume (p_state p) → ctx_ok p).

Definition no_proc_lock (ls : list lockid) : Prop := ∀ i, LProc i ∉ ls.

Definition sys_inv (st : sys) : Prop :=
  match st with
  | Crashed => False
  | Sys m s => ∃ c Q, forkret_first c = false ∧ life_ok c ∧
    match m with
    | InProc i ls => ∃ p, at_ c ls s ∧ on_cpu i p c Q ∧ procs_ok (Some i) c ∧ no_proc_lock ls
    | Switched i => at_ c [LProc i] s ∧ cinv c Q ∧ log_ok c ∧ procs_ok None c ∧ sched_p c = Some i
    | AtLoop => at_ c [] s ∧ cinv c Q ∧ log_ok c ∧ procs_ok None c ∧ (p_kicked c = 0 → is_Some (sched_p c)) ∧ cpu_proc c = None
    end
  end.

Implicit Types c : core E.

Lemma procs_ok_insert o c i p :
  procs_ok o c → (o ≠ Some i → p_state p ≠ RUNNING ∧ (can_resume (p_state p) → ctx_ok p)) →
  procs_ok o (set_procs (<[i := p]> (procs c)) c).
Proof.
  intros H Hp j q. simpl. rewrite list_lookup_insert. case_decide as Hij; [|apply H].
  destruct Hij as [-> _]. by intros [= <-].
Qed.

(** From a process on the CPU to the scheduler: its own slot must be ready. *)
Lemma procs_ok_leave i c :
  procs_ok (Some i) c →
  (∀ p, procs c !! i = Some p → p_state p ≠ RUNNING ∧ (can_resume (p_state p) → ctx_ok p)) →
  procs_ok None c.
Proof.
  intros H Hi j p Hp _. destruct (decide (j = i)) as [->|Hne]; [by apply Hi|].
  apply (H j p Hp). congruence.
Qed.

Lemma procs_ok_enter i c : procs_ok None c → procs_ok (Some i) c.
Proof. intros H j p Hp _. by apply (H j p). Qed.

(** A change of the table that keeps every context and starts nobody. *)
Lemma procs_ok_map o c c' :
  procs_ok o c →
  (∀ j p', procs c' !! j = Some p' → o ≠ Some j → ∃ p, procs c !! j = Some p ∧
     ra (p_context p') = ra (p_context p) ∧
     (p_state p' = p_state p ∨ can_resume (p_state p) ∧ p_state p' = RUNNABLE)) →
  procs_ok o c'.
Proof.
  intros H Hm j p' Hp' Ho. destruct (Hm j p' Hp' Ho) as (p & Hp & Hc & Hs).
  destruct (H j p Hp Ho) as [H1 H2]. unfold ctx_ok in *. rewrite Hc.
  destruct Hs as [->|[Hs ->]]; [done|]. split; [done|]. intros _. by apply H2.
Qed.

(** ** Every handler keeps it *)

Definition keeps (f : M (kst E) mode) (s : kst E) : Prop :=
  ∃ m' s', f s = Ok (m', s') ∧ sys_inv (Sys m' s').

Lemma keeps_leads {A} ls (f : M (kst E) A) m' c s Q :
  at_ c ls s → leads ls f c Q →
  (∀ a ls' c' s', Q a ls' c' → at_ c' ls' s' → sys_inv (Sys m' s')) →
  keeps (f ;; mret m') s.
Proof.
  intros Hat Hl HQ. destruct (Hl s Hat) as (a & s' & ls' & c' & Ef & Hat' & H).
  exists m', s'. split; [|by eapply HQ]. unfold mbind, M_bind. by rewrite Ef.
Qed.

Lemma keeps_runs {A} ls (f : M (kst E) A) m' c s a ls' c' :
  at_ c ls s → runs ls f c a ls' c' →
  (∀ s', at_ c' ls' s' → sys_inv (Sys m' s')) → keeps (f ;; mret m') s.
Proof.
  intros Hat Hr HQ. eapply (keeps_leads ls f m' c s (λ a' l' c2, l' = ls' ∧ c2 = c')).
  - done.
  - by eapply leads_runs.
  - intros _ ? ? s' [-> ->]. apply HQ.
Qed.

(** After a [yield] or a [sys_nice] the process is ready to be resumed. *)
Lemma yield_life i p c Q c' Q' :
  life_ok c → procs c !! i = Some p → p_state p = RUNNING → yield_outcome i p c Q c' Q' → life_ok c'.
Proof.
  intros HL Hp Hs (_ & _ & _ & _ & _ & Hn & Hip & (ie & Hp') & Hoth & _).
  apply (life_frame c); [done..|]. intros j q Hq. destruct (decide (j = i)) as [->|Hne].
  - rewrite Hp' in Hq. injection Hq as <-. exists p. split; [done|].
    unfold yielded, account_p. destruct (expired p), (boost_due c); split_and!; try done; right; by rewrite Hs.
  - rewrite (Hoth j Hne) in Hq. destruct (procs c !! j) as [q0|]; [|done]. injection Hq as <-.
    exists q0. split; [done|]. destruct (boost_due c); [|apply life_rel_refl].
    unfold boost_p. case_decide as Hr; [|apply life_rel_refl]. split_and!; try done. right.
    simpl. by rewrite Hr.
Qed.

Lemma switched_after_yield i p c Q c' Q' s' :
  procs_ok (Some i) c → forkret_first c = false →
  life_ok c → procs c !! i = Some p → p_state p = RUNNING →
  yield_outcome i p c Q c' Q' → at_ c' [LProc i] s' → sys_inv (Sys (Switched i) s').
Proof.
  intros Hok Hf HL Hp Hs HY Hat. pose proof (yield_life i p c Q c' Q' HL Hp Hs HY) as HL'.
  destruct HY as (I' & L' & C1 & S1 & F1 & _ & _ & (ie & Hp') & Hoth & _).
  destruct (yielded_facts ie c p) as (Hs' & _ & Hra & _).
  exists c', Q'. split; [congruence|]. split; [done|]. split_and!; try done.
  apply (procs_ok_leave i).
  - apply (procs_ok_map _ c); [done|]. intros j q Hq Hj.
    assert (Hne : j ≠ i) by congruence. rewrite (Hoth j Hne) in Hq.
    destruct (procs c !! j) as [q0|]; [|done]. exists q0. split; [done|].
    destruct (boost_due c); injection Hq as <-; [|tauto].
    unfold boost_p. case_decide; tauto.
  - intros q Hq. rewrite Hp' in Hq. injection Hq as <-. rewrite Hs'. split; [done|].
    intros _. unfold ctx_ok. by rewrite Hra.
Qed.

Lemma life_set c i p p' :
  life_ok c → procs c !! i = Some p → life_rel p p' →
  life_ok (set_procs (<[i := p']> (procs c)) c).
Proof. exact (life_insert c i p p'). Qed.

Lemma life_on_cpu i p c Q p' :
  life_ok c → on_cpu i p c Q → p_ofile p' = p_ofile p → p_cwd p' = p_cwd p → p_pid p' = p_pid p →
  p_trapframe p' = p_trapframe p → p_pagetable p' = p_pagetable p → p_sz p' = p_sz p →
  p_parent p' = p_parent p → live (p_state p') = true →
  life_ok (set_procs (<[i := p']> (procs c)) c).
Proof.
  intros HL H. intros. apply (life_set c i p); [done|apply H|]. split_and!; try done. right.
  by rewrite (oc_state _ _ _ _ H).
Qed.

Lemma wake_life chan c q :
  life_ok c → life_ok (set_qtable q (set_procs (imap (wake_p chan (cpu_proc c)) (procs c)) c)).
Proof.
  intros HL. apply (life_frame c); [done..|]. simpl. intros j p' Hp'.
  rewrite list_lookup_imap in Hp'. destruct (procs c !! j) as [p|]; [|done].
  injection Hp' as <-. exists p. split; [done|]. apply wake_p_rel.
Qed.

Lemma keeps_nice inc i s :
  sys_inv (Sys (InProc i []) s) → keeps (sys_nice inc ;; mret (Switched i)) s.
Proof.
  intros (c & Q & Hf & HL & p & Hat & Hon & Hok & _).
  eapply keeps_leads; [exact Hat|by apply leads_nice|].
  intros _ ls' c' s' (-> & Q' & HY) Hat'.
  set (c1 := set_procs (<[i := nice_p inc p]> (procs c)) c) in HY.
  apply (switched_after_yield i (nice_p inc p) c1 Q c' Q'); try done.
  - by apply procs_ok_insert.
  - apply (life_on_cpu i p c Q); try done. simpl. by rewrite (oc_state _ _ _ _ Hon).
  - by eapply list_insert_some, oc_proc.
  - apply (oc_state _ _ _ _ Hon).
Qed.

Lemma keeps_sleep chan lk i s :
  sys_inv (Sys (InProc i [lk]) s) → keeps (sleep chan lk ;; mret (Switched i)) s.
Proof.
  intros (c & Q & Hf & HL & p & Hat & Hon & Hok & Hnl).
  assert (Hlk : is_proc_lock lk = false).
  { destruct lk; try done. exfalso. apply (Hnl i0). set_solver. }
  eapply keeps_leads; [exact Hat|apply leads_sleep; [done|by intros ->]|].
  intros _ ls' c' s' (-> & ie & -> & I') Hat'.
  eexists _, Q. split; [|split; [|split_and!; [exact Hat'|exact I'|apply Hon| |apply Hon]]]; [done|..].
  { by apply (life_on_cpu i p c Q). }
  apply (procs_ok_leave i).
  - apply procs_ok_insert; [done|]. done.
  - simpl. intros q Hq. erewrite list_insert_some in Hq by apply Hon. injection Hq as <-.
    simpl. split; [done|]. intros _. exact Hlk.
Qed.

Lemma wake_procs_ok o chan c q :
  procs_ok o c → procs_ok o (set_qtable q (set_procs (imap (wake_p chan (cpu_proc c)) (procs c)) c)).
Proof.
  intros H. apply (procs_ok_map _ c); [done|]. simpl. intros j p' Hp' _.
  rewrite list_lookup_imap in Hp'. destruct (procs c !! j) as [p|]; [|done].
  injection Hp' as <-. exists p. split; [done|]. unfold wake_p, sleeps_on, can_resume.
  do 2 case_bool_decide; simpl; try tauto. case_bool_decide; simpl; tauto.
Qed.

Lemma keeps_tick i s :
  sys_inv (Sys (InProc i []) s) →
  keeps (b ← kerneltrap_timer; mret (if b : bool then Switched i else InProc i [])) s.
Proof.
  intros (c & Q & Hf & HL & p & Hat & Hon & Hok & _).
  destruct (leads_timer i p c Q Hon s Hat) as (b & s' & ls' & c' & Ef & Hat' & -> & -> & q & Q' & HY).
  exists (Switched i), s'. split; [unfold mbind, M_bind; by rewrite Ef|].
  assert (HLw : life_ok (set_time (i32 (time c + 1)) (clock_tick q c))).
  { eapply (life_same (clock_tick q c)); [|done..].
    apply (wake_life (addr_ticks E) (set_ticks (u32 (ticks c + 1)) c) q). by apply (life_same c). }
  eapply (switched_after_yield i p _ _ c' Q'); [| |exact HLw| | |exact HY|exact Hat']; [|done|..].
  - by apply (wake_procs_ok (Some i) (addr_ticks E) (set_ticks (u32 (ticks c + 1)) c) q).
  - simpl. rewrite list_lookup_imap, (oc_proc _ _ _ _ Hon). simpl.
    by rewrite (oc_cpu _ _ _ _ Hon), wake_p_self.
  - apply Hon.
Qed.

Lemma keeps_tick_idle s :
  sys_inv (Sys AtLoop s) → keeps (kerneltrap_timer ;; mret AtLoop) s.
Proof.
  intros (c & Q & Hf & HL & Hat & HI & Hl & Hok & Hk & Hc).
  destruct (runs_timer_idle c Q HI Hc) as (q & R & I').
  eapply keeps_runs; [exact Hat|exact R|]. intros s' Hat'.
  eexists _, _. split; [|split; [|split_and!; [exact Hat'|exact I'|exact Hl| |exact Hk|exact Hc]]]; [done|..].
  { eapply (life_same (clock_tick q c)); [|done..].
    apply (wake_life (addr_ticks E) (set_ticks (u32 (ticks c + 1)) c) q). by apply (life_same c). }
  by apply (wake_procs_ok None (addr_ticks E) (set_ticks (u32 (ticks c + 1)) c) q).
Qed.

Lemma keeps_wakeup chan m s :
  (m = AtLoop ∨ ∃ i ls, m = InProc i ls) → sys_inv (Sys m s) → keeps (wakeup chan ;; mret m) s.
Proof.
  intros [->|(i & ls & ->)].
  - intros (c & Q & Hf & HL & Hat & HI & Hl & Hok & Hk & Hc).
    destruct (runs_wakeup chan [] c Q) as (c' & q' & R & -> & I'); [set_solver|done|].
    eapply keeps_runs; [exact Hat|exact R|]. intros s' Hat'.
    eexists _, _. split; [|split; [by apply wake_life|
      split_and!; [exact Hat'|exact I'|done|by apply wake_procs_ok|done|done]]]. done.
  - intros (c & Q & Hf & HL & p & Hat & Hon & Hok & Hnl).
    destruct (runs_wakeup chan ls c Q Hnl (oc_inv _ _ _ _ Hon)) as (c' & q' & R & -> & I').
    eapply keeps_runs; [exact Hat|exact R|]. intros s' Hat'.
    eexists _, _. split; [|split; [by apply wake_life|
      exists p; split_and!; [exact Hat'| |by apply wake_procs_ok|done]]]; [done|].
    split; simpl; try apply Hon; [|exact I'].
    rewrite list_lookup_imap, (oc_proc _ _ _ _ Hon). simpl. unfold wake_p, sleeps_on.
    by rewrite (oc_cpu _ _ _ _ Hon), bool_decide_false by tauto.
Qed.

Lemma kill_procs_ok o c i p q :
  procs c !! i = Some p → procs_ok o c → procs_ok o (kill_state i p q c).
Proof.
  intros Hp H. apply (procs_ok_map _ c); [done|]. simpl. intros j p' Hp' _.
  rewrite list_lookup_insert in Hp'. case_decide as Hj.
  - destruct Hj as [-> _]. injection Hp' as <-. exists p. split; [done|].
    unfold kill_p, can_resume. case_decide; simpl; tauto.
  - exists p'. tauto.
Qed.

Lemma kill_on_cpu i p c Q j pj q :
  on_cpu i p c Q → procs c !! j = Some pj → cinv (kill_state j pj q c) (kill_Q j pj Q) →
  on_cpu i (if decide (j = i) then kill_p pj else p) (kill_state j pj q c) (kill_Q j pj Q).
Proof.
  intros H Hj HI. pose proof (oc_proc _ _ _ _ H) as Hp. pose proof (oc_state _ _ _ _ H) as Hs.
  split; simpl; try apply H; [| |exact HI].
  - case_decide as Hd; [subst; by eapply list_insert_some|]. by rewrite list_lookup_insert_ne.
  - case_decide as Hd; [|done]. subst. unfold kill_p. assert (pj = p) as -> by congruence.
    rewrite decide_False by congruence. done.
Qed.

Lemma kill_life c i p q : procs c !! i = Some p → life_ok c → life_ok (kill_state i p q c).
Proof.
  intros Hp HL. eapply (life_same (upd_p i (kill_p p) c)); [|done..].
  apply (life_insert c i p); [done..|]. unfold kill_p. case_decide as Hs; split_and!; try done; [|by left].
  right. by rewrite Hs.
Qed.

Lemma keeps_kill pid i ls s :
  sys_inv (Sys (InProc i ls) s) → keeps (kill pid ;; mret (InProc i ls)) s.
Proof.
  intros (c & Q & Hf & HL & p & Hat & Hon & Hok & Hnl).
  destruct (runs_kill pid ls c Q Hnl (oc_inv _ _ _ _ Hon)) as [[R _]|(j & q & q' & Hq & _ & _ & R & I')].
  - eapply keeps_runs; [exact Hat|exact R|]. intros s' Hat'. exists c, Q. eauto 12.
  - eapply keeps_runs; [exact Hat|exact R|]. intros s' Hat'.
    exists (kill_state j q q' c), (kill_Q j q Q). split; [done|]. split; [by apply kill_life|]. eexists.
    split_and!; [exact Hat'|by eapply kill_on_cpu|by apply kill_procs_ok|done].
Qed.

Lemma keeps_startlog i ls s :
  sys_inv (Sys (InProc i ls) s) → keeps (sys_startlog ;; mret (InProc i ls)) s.
Proof.
  intros (c & Q & Hf & HL & p & Hat & Hon & Hok & Hnl).
  assert (R : runs ls sys_startlog c 0 ls (set_log_count 0 c)).
  { unfold sys_startlog. krun runs_cmod. apply runs_ret. }
  eapply keeps_runs; [exact Hat|exact R|]. intros s' Hat'.
  exists (set_log_count 0 c), Q. split; [done|]. split; [by apply (life_same c)|]. exists p.
  split; [exact Hat'|]. split; [|done].
  destruct Hon as [? ? ? ? ? ? [Hl _]]. by split.
Qed.

Lemma keeps_acquire lk i ls s :
  is_proc_lock lk = false → lk ∉ ls → sys_inv (Sys (InProc i ls) s) →
  keeps (acquireM lk ;; mret (InProc i (lk :: ls))) s.
Proof.
  intros Hl Hn (c & Q & Hf & HL & p & Hat & Hon & Hok & Hnl).
  eapply keeps_runs; [exact Hat|by apply runs_acquire|]. intros s' Hat'.
  exists c, Q. split; [done|]. split; [done|]. exists p. split_and!; try done.
  intros j [<-|Hj]%elem_of_cons; [done|]. by apply (Hnl j).
Qed.

Lemma keeps_release lk i ls s :
  sys_inv (Sys (InProc i (lk :: ls)) s) → keeps (releaseM lk ;; mret (InProc i ls)) s.
Proof.
  intros (c & Q & Hf & HL & p & Hat & Hon & Hok & Hnl).
  eapply keeps_runs; [exact Hat|by apply runs_release|]. intros s' Hat'.
  exists c, Q. split; [done|]. split; [done|]. exists p. split_and!; try done.
  intros j Hj. apply (Hnl j). set_solver.
Qed.

Lemma keeps_return i s :
  sys_inv (Sys (Switched i) s) → keeps (scheduler_return ;; mret AtLoop) s.
Proof.
  intros (c & Q & Hf & HL & Hat & HI & Hl & Hok & Hs).
  eapply keeps_runs; [exact Hat|by apply runs_scheduler_return|]. intros s' Hat'.
  exists (set_cpu_proc None c), Q. split; [done|]. split; [by apply (life_same c)|]. split_and!; try done.
Qed.

(** What the resumed process runs. *)
Lemma runs_set_intena ls ie c :
  runs ls (modify (λ s, set_hart (mkhart (hartid (khart s)) (sie (khart s)) (noff (khart s)) ie) s))
    c tt ls c.
Proof. intros s [Hc Hh Hf Hn [Ho Ho'] Hk]. eexists. split; [done|]. by constructor. Qed.

Lemma runs_resume i p c Q :
  on_cpu i p c Q → ctx_ok p → forkret_first c = false →
  ∃ p', let c' := set_procs (<[i := p']> (procs c)) c in
    runs [LProc i] (resume i) c tt (resume_locks p) c' ∧ on_cpu i p' c' Q ∧ life_rel p p'.
Proof.
  intros H Hc Hf. pose proof (oc_proc _ _ _ _ H) as Hp.
  assert (Eid : set_procs (<[i := p]> (procs c)) c = c)
    by (rewrite list_insert_id by done; by destruct c).
  unfold ctx_ok, resume_locks in *. destruct (ra (p_context p)) as [| |ie [|lk|]] eqn:Er; try done.
  - exists p. cbv zeta. rewrite Eid. split; [|split; [done|apply life_rel_refl]]. unfold resume.
    krun runs_getp; [exact Hp|]. rewrite Er. unfold forkret. krun runs_myproc.
    rewrite (oc_cpu _ _ _ _ H). krun runs_deref. krun runs_release; [done|].
    krun runs_cget. rewrite Hf. apply runs_ret.
  - exists p. cbv zeta. rewrite Eid. split; [|split; [done|apply life_rel_refl]]. unfold resume.
    krun runs_getp; [exact Hp|]. rewrite Er. krun runs_set_intena. by apply runs_release.
  - exists (set_p_chan 0 p). split.
    + unfold resume. krun runs_getp; [exact Hp|]. rewrite Er. krun runs_set_intena.
      krun runs_modp; [exact Hp|]. krun runs_release; [done|]. apply runs_acquire. set_solver.
    + split; [|split_and!; try done; by left]. apply (on_cpu_update i p); [done|apply H|].
      apply (si_wf _ _ _ _ _ (oc_inv _ _ _ _ H) i p Hp).
Qed.

(** One round of the loop from a good state. *)
Lemma runs_scheduler_body c Q :
  cinv c Q → log_ok c → (p_kicked c = 0 → is_Some (sched_p c)) →
  (∃ i p, procs c !! i = Some p ∧ p_state p = RUNNABLE) →
  ∃ i p c' Q', procs c !! i = Some p ∧ p_state p = RUNNABLE ∧
    runs [] scheduler_body c (Some i) [LProc i] c' ∧ on_cpu i (run_p p) c' Q' ∧
    procs c' = <[i := run_p p]> (procs c) ∧ forkret_first c' = forkret_first c ∧
    nextpid c' = nextpid c ∧ initproc c' = initproc c.
Proof.
  intros HI Hl Hk Hrun. destruct (decide (p_kicked c = 0)) as [H0|H0].
  - destruct (Hk H0) as [i Hi].
    destruct (runs_body_carried i c Q HI Hl H0 Hi) as (p & c' & Hp & R & Hon & H1 & H2).
    exists i, p, c', Q. split_and!; try done; try apply H2.
    assert (Hcar : carried c = Some i) by (unfold carried; by rewrite decide_True).
    destruct (si_carried _ _ _ _ _ HI i Hcar) as (p' & Hp' & Hr). congruence.
  - pose proof HI as HI'. unfold cinv, carried in HI'. rewrite decide_False in HI' by done.
    destruct (top_queue Q) as [k|] eqn:Ht; [|by destruct (sinv_busy _ _ _ HI' Hrun)].
    destruct (top_queue_Some Q k Ht) as (_ & Hne & _).
    destruct (qget Q k) as [|x l] eqn:El; [done|].
    destruct (runs_body_taken c Q k x l HI Hl H0 Ht El) as (i & p & c' & _ & Hp & Hr & _ & R & Hon & H1 & H2).
    eauto 14.
Qed.

Lemma keeps_dispatch s :
  sys_inv (Sys AtLoop s) → runnable_exists s → keeps dispatch s.
Proof.
  intros (c & Q & Hf & HL & Hat & HI & Hl & Hok & Hk & Hc) Hrun.
  unfold runnable_exists in Hrun. rewrite (at_core _ _ _ Hat) in Hrun.
  destruct (runs_scheduler_body c Q HI Hl Hk Hrun) as (i & p & c1 & Q1 & Hp & Hr & R & Hon & E1 & F1 & F2 & F3).
  destruct (Hok i p Hp ltac:(done)) as [_ Hctx].
  destruct (runs_resume i (run_p p) c1 Q1 Hon) as (p' & R2 & Hon2 & Hrel).
  { apply Hctx. by right. }
  { congruence. }
  assert (RD : runs [] dispatch c (InProc i (resume_locks (run_p p))) (resume_locks (run_p p))
                 (set_procs (<[i := p']> (procs c1)) c1)).
  { unfold dispatch. eapply runs_bind; [exact R|]. krun runs_getp; [apply Hon|].
    eapply runs_bind; [exact R2|]. apply runs_ret. }
  destruct (RD s Hat) as (s' & Ef & Hat').
  exists (InProc i (resume_locks (run_p p))), s'. split; [done|].
  exists (set_procs (<[i := p']> (procs c1)) c1), Q1. split; [simpl; congruence|].
  split.
  { apply (life_set c1 i (run_p p)); [|apply Hon|done]. apply (life_frame c); [done..|].
    rewrite E1. intros j q. rewrite list_lookup_insert. case_decide as Hj.
    - destruct Hj as [-> _]. intros [= <-]. exists p. split; [done|]. split_and!; try done. right.
      by rewrite Hr.
    - intros Hq. exists q. split; [done|apply life_rel_refl]. }
  exists p'. split_and!; [exact Hat'|exact Hon2| |].
  - intros j q Hq Hj. simpl in Hq. rewrite E1, list_insert_insert_eq in Hq.
    rewrite list_lookup_insert_ne in Hq by congruence. by apply (Hok j q).
  - intros j. unfold resume_locks. unfold ctx_ok in Hctx.
    change (p_context (run_p p)) with (p_context p).
    destruct (ra (p_context p)) as [| |ie [|lk|]]; try (by intros ?%elem_of_nil).
    assert (is_proc_lock lk = false) by (apply Hctx; by right).
    by intros <-%list_elem_of_singleton.
Qed.

(** ** Creation and end of processes *)

Lemma fork_keeps_procs i p c Q v c' Q' :
  on_cpu i p c Q → procs_ok (Some i) c → fork_outcome i p c Q v c' Q' →
  cinv c' Q' → on_cpu i p c' Q' ∧ procs_ok (Some i) c' ∧ forkret_first c' = forkret_first c.
Proof.
  intros H Hok HO I'.
  assert (Hj : ∀ j, first_unused (procs c) j → j ≠ i).
  { intros j [(q & Hq & Hs) _] ->. pose proof (oc_proc _ _ _ _ H). pose proof (oc_state _ _ _ _ H). congruence. }
  destruct HO as [Hfull|j np0 np e' Hf Hnp _ _|j np0 tf pt fs cwd e' q' np Hf Hnp _ ->]; [done| |];
    pose proof (Hj j Hf) as Hne; (split; [|split; [|done]]).
  - split; try apply H; [|exact I']. unfold upd_p. simpl. rewrite list_lookup_insert_ne by done. apply H.
  - apply (procs_ok_insert (Some i) (took_pid e' c)); [done|]. intros _. split; [done|]. by intros [?|?].
  - split; try apply H; [|exact I']. unfold forked, upd_p. simpl.
    rewrite list_lookup_insert_ne by done. apply H.
  - eapply (procs_ok_insert (Some i) (took_pid e' c)); [done|]. done.
Qed.

Lemma keeps_fork i s :
  sys_inv (Sys (InProc i []) s) → returns CmdFork s → keeps (fork ;; mret (InProc i [])) s.
Proof.
  intros (c & Q & Hf & HL & p & Hat & Hon & Hok & Hnl) [Hmax He].
  rewrite (at_core _ _ _ Hat) in *.
  destruct (He i p (oc_cpu _ _ _ _ Hon) (oc_proc _ _ _ _ Hon)) as (r & e' & Hr).
  eapply keeps_leads; [exact Hat|by eapply leads_fork|].
  intros v ls' c' s' (-> & Q' & HO & I') Hat'.
  destruct (fork_keeps_procs i p c Q v c' Q' Hon Hok HO I') as (H1 & H2 & H3).
  exists c', Q'. split; [congruence|]. split.
  { eapply fork_life; [done|apply Hon| |exact Hmax|exact HO]. by rewrite (oc_state _ _ _ _ Hon). }
  exists p. by split_and!.
Qed.

Lemma exit_p_state i p c j q :
  p_state (exit_p i p c j q) = p_state q ∨
  can_resume (p_state q) ∧ p_state (exit_p i p c j q) = RUNNABLE.
Proof.
  unfold exit_p, reparent_p, can_resume.
  set (q1 := if decide (j < Z.to_nat NPROC)%nat then _ else _).
  assert (E1 : p_state q1 = p_state q) by (subst q1; case_decide; [|done]; by destruct (child_of i q)).
  rewrite <- E1. destruct (existsb _ _); cbv zeta.
  - match goal with |- context [wake_p ?a ?b ?d (wake_p ?e ?f ?g ?h)] =>
      destruct (wake_p_state a b d (wake_p e f g h)) as [H1|[H1 H0]];
      destruct (wake_p_state e f g h) as [H2|[H2 H3]] end.
    + left. congruence.
    + right. split; [by left|congruence].
    + right. split; [left; congruence|done].
    + congruence.
  - destruct (wake_p_state (addr_opt (p_parent p)) (cpu_proc c) j q1) as [H1|[H1 H2]]; [by left|].
    right. split; [by left|done].
Qed.

Lemma keeps_exit status i s :
  sys_inv (Sys (InProc i []) s) → proper (CmdExit status) s → returns (CmdExit status) s →
  keeps (exit status ;; mret (Switched i)) s.
Proof.
  intros (c & Q & Hf & HL & p & Hat & Hon & Hok & Hnl) Hinit He. simpl in Hinit, He.
  rewrite (at_core _ _ _ Hat) in *. rewrite (oc_cpu _ _ _ _ Hon) in *.
  pose proof (oc_proc _ _ _ _ Hon) as Hp.
  destruct (He i p eq_refl Hp) as (e' & Hr).
  eapply keeps_leads; [exact Hat|eapply leads_exit; [exact Hon|done|by apply (lo_parent c HL i)
    |apply (so_files _ _ (lo_slot c HL i p Hp))|exact Hr]|].
  intros _ ls' c' s' (-> & HO) Hat'.
  assert (HL' : life_ok c') by (by eapply exit_life).
  destruct HO as (ie & e2 & q' & Q' & ps' & _ & -> & I' & Hpi & Hoth).
  eexists _, Q'. split; [|split; [exact HL'|split_and!; [exact Hat'|exact I'|apply Hon| |apply Hon]]]; [done|].
  apply (procs_ok_leave i).
  - apply (procs_ok_map _ c); [done|]. simpl. intros j q Hq Hj. rewrite Hoth in Hq by congruence.
    destruct (procs c !! j) as [q0|]; [|done]. injection Hq as <-. exists q0. split; [done|].
    destruct (exit_p_rel i p (upd_p i (closed_p p) c) j q0) as (_ & Ec & _).
    split; [by rewrite Ec|]. apply exit_p_state.
  - simpl. intros q Hq. rewrite Hpi in Hq. injection Hq as <-. split; [done|]. by intros [?|?].
Qed.

Lemma keeps_wait_scan addr i s :
  sys_inv (Sys (InProc i [LWait]) s) → returns (CmdWaitMore addr) s →
  keeps (r ← wait_scan addr; mret (after_wait i r)) s.
Proof.
  intros (c & Q & Hf & HL & p & Hat & Hon & Hok & Hnl) He. simpl in He.
  rewrite (at_core _ _ _ Hat) in *. pose proof (oc_proc _ _ _ _ Hon) as Hp.
  pose proof (He i p (oc_cpu _ _ _ _ Hon) Hp) as Hw.
  destruct (leads_wait_scan i p addr c Q Hon Hw s Hat) as (v & s' & ls' & c' & Es & Hat' & HO & I').
  assert (HL' : life_ok c') by (by eapply wait_life).
  exists (after_wait i v), s'. split; [unfold mbind, M_bind; by rewrite Es|].
  exists c', Q. destruct HO as [j q r e' (Hq & [Hpar Hst] & _) _|Hn _|ie _ _ _].
  - unfold reaped in *. split; [by case_bool_decide|]. split; [done|]. exists p.
    assert (Hne : j ≠ i) by (intros ->; pose proof (oc_state _ _ _ _ Hon); congruence).
    split; [done|]. split; [|split; [|by intros ? ?%elem_of_nil]].
    + split; try (case_bool_decide; apply Hon); [|done]. case_bool_decide; [apply Hon|].
      unfold upd_p. simpl. rewrite list_lookup_insert_ne by done. apply Hon.
    + case_bool_decide; [done|]. apply (procs_ok_insert (Some i) (set_env e' c)); [done|].
      intros _. split; [done|]. by intros [?|?].
  - split; [done|]. split; [done|]. exists p. split_and!; try done. by intros ? ?%elem_of_nil.
  - split; [done|]. split; [done|]. split_and!; [done|done|apply Hon| |apply Hon].
    apply (procs_ok_leave i).
    + apply procs_ok_insert; [done|]. done.
    + unfold upd_p. simpl. intros q Hq. erewrite list_insert_some in Hq by apply Hon.
      by injection Hq as <-.
Qed.

Lemma keeps_wait addr i s :
  sys_inv (Sys (InProc i []) s) → returns (CmdWait addr) s →
  keeps (r ← wait addr; mret (after_wait i r)) s.
Proof.
  intros HI He. assert (HI0 := HI). destruct HI as (c & Q & Hf & HL & p & Hat & Hon & Hok & Hnl).
  destruct (keeps_acquire LWait i [] s) as (m1 & s1 & E1 & I1); [done|set_solver|done|].
  assert (Hacq : acquireM LWait s = Ok (tt, s1) ∧ m1 = InProc i [LWait]).
  { destruct (runs_acquire [] LWait c) with (s := s) as (s2 & E2 & _); [set_solver|done|].
    unfold mbind, M_bind in E1. rewrite E2 in E1. by injection E1 as <- <-. }
  destruct Hacq as [Ea ->].
  destruct (keeps_wait_scan addr i s1 I1) as (m2 & s2 & E2 & I2).
  { simpl in *. destruct (runs_acquire [] LWait c) with (s := s) as (s3 & E3 & H3); [set_solver|done|].
    rewrite E3 in Ea. injection Ea as <-. rewrite (at_core _ _ _ H3). by rewrite (at_core _ _ _ Hat) in He. }
  exists m2, s2. split; [|done]. rewrite <- E2. unfold wait.
  unfold mbind, M_bind. by rewrite Ea.
Qed.

(** ** Every step *)

Lemma exec_keeps cm m s f :
  exec cm m = Some f → proper cm s → returns cm s → sys_inv (Sys m s) → keeps f s.
Proof.
  intros He Hd Hret HI.
  destruct cm, m as [i ls|i|]; simpl in He; try discriminate;
    repeat case_match; simplify_eq.
  - by eapply keeps_tick.
  - by eapply keeps_tick_idle.
  - by eapply keeps_nice.
  - by eapply keeps_sleep.
  - apply keeps_wakeup; eauto.
  - apply keeps_wakeup; eauto.
  - by eapply keeps_kill.
  - by eapply keeps_startlog.
  - match goal with H : _ || _ = false |- _ => apply orb_false_iff in H as [Hl Hn] end.
    apply bool_decide_eq_false in Hn. by eapply keeps_acquire.
  - by eapply keeps_release.
  - by eapply keeps_return.
  - apply keeps_dispatch; eauto.
  - by eapply keeps_fork.
  - by eapply keeps_exit.
  - by eapply keeps_wait.
  - by eapply keeps_wait_scan.
Qed.

Lemma kstep_keeps cm m s st' : sys_inv (Sys m s) → proper cm s → kstep cm (Sys m s) st' → sys_inv st'.
Proof.
  intros HI Hd Hst. inversion Hst as [m0 s0 f m' s' He Hr Ef|m0 s0 f He Hr Hn]; subst;
    destruct (exec_keeps cm m s f He Hd Hr HI) as (m2 & s2 & E2 & I2).
  - congruence.
  - by destruct (Hn (m2, s2)).
Qed.

Lemma sys_step_keeps st st' : sys_inv st → sys_step st st' → sys_inv st'.
Proof. intros HI (cm & m & s & -> & Hd & Hst). by eapply kstep_keeps. Qed.

Lemma steps_keep st st' : sys_inv st → rtc sys_step st st' → sys_inv st'.
Proof. intros HI Hr. induction Hr as [|a b d H _ IH]; [done|]. by eapply IH, sys_step_keeps. Qed.

Lemma steps_any st st' : rtc sys_step st st' → rtc any_step st st'.
Proof.
  induction 1 as [|a b d (cm & m & s & -> & _ & H) _ IH]; [apply rtc_refl|].
  eapply rtc_l; [by exists cm|done].
Qed.

(** What a run can come to: only proper steps so far, or a first step that is not. *)
Lemma proper_dec cm s : proper cm s ∨ ¬ proper cm s.
Proof.
  destruct cm; simpl; auto.
  - destruct (existsb (λ p, bool_decide (p_state p = RUNNABLE)) (procs (kc s))) eqn:Ex; [left|right].
    + apply existsb_exists in Ex as (p & Hin & Hp%bool_decide_eq_true).
      apply list_elem_of_In, list_elem_of_lookup in Hin as [i Hi]. by exists i, p.
    + intros (i & p & Hi & Hs). apply not_true_iff_false in Ex. apply Ex, existsb_exists. exists p.
      split; [apply list_elem_of_In, list_elem_of_lookup; eauto|by apply bool_decide_eq_true].
  - destruct (decide (initproc (kc s) = cpu_proc (kc s))); tauto.
Qed.

Lemma any_steps_split st st' :
  rtc any_step st st' →
  rtc sys_step st st' ∨
  ∃ cm m s st1, rtc sys_step st (Sys m s) ∧ ¬ proper cm s ∧ kstep cm (Sys m s) st1 ∧ rtc any_step st1 st'.
Proof.
  induction 1 as [st|st1 st2 st3 [cm H] H2 IH]; [by left; apply rtc_refl|].
  assert (∃ m s, st1 = Sys m s) as (m & s & ->) by (destruct H; eauto).
  destruct (proper_dec cm s) as [Hp|Hp].
  - assert (Hs : sys_step (Sys m s) st2) by (exists cm, m, s; done).
    destruct IH as [IH|(cm' & m' & s' & st' & Ha & Hr)].
    + left. by eapply rtc_l.
    + right. exists cm', m', s', st'. split; [by eapply rtc_l|done].
  - right. exists cm, m, s, st2. split; [apply rtc_refl|done].
Qed.

(** ** Running a script of commands *)

Definition is_ok {A} (r : res A) : bool := match r with Ok _ => true | _ => false end.
Definition runnable_existsb (s : kst E) : bool :=
  existsb (λ p, bool_decide (p_state p = RUNNABLE)) (procs (kc s)).

Lemma runnable_existsb_true s : runnable_existsb s = true → runnable_exists s.
Proof.
  unfold runnable_existsb. intros (p & Hin & Hp%bool_decide_eq_true)%existsb_exists.
  apply list_elem_of_In, list_elem_of_lookup in Hin as [i Hi]. by exists i, p.
Qed.

(** [proper] and [returns], computed. *)
Definition cmd_preb (cm : cmd) (s : kst E) : bool :=
  let c := kc s in
  let self (f : nat → proc → bool) :=
    match cpu_proc c with
    | Some i => match procs c !! i with Some p => f i p | None => true end
    | None => true
    end in
  match cm with
  | CmdDispatch => runnable_existsb s
  | CmdFork => bool_decide (nextpid c + 1 < 2 ^ 31) && self (λ _ p, is_ok (fork_env p (env c)))
  | CmdExit _ => bool_decide (initproc c ≠ cpu_proc c) && self (λ _ p, is_ok (exit_env p (env c)))
  | CmdWait addr | CmdWaitMore addr =>
      self (λ i p, forallb (λ q, negb (bool_decide (p_parent q = Some i ∧ p_state q = ZOMBIE)) ||
                                 is_ok (reap_env p addr q (env c))) (procs c))
  | _ => true
  end.

Lemma is_ok_true {A} (r : res (A * E)) : is_ok r = true → ∃ a e, r = Ok (a, e).
Proof. destruct r as [[a e]| | |]; [eauto|done..]. Qed.

Lemma cmd_preb_true cm s : cmd_preb cm s = true → proper cm s ∧ returns cm s.
Proof.
  assert (HW : ∀ addr, cmd_preb (CmdWait addr) s = true → returns (CmdWait addr) s).
  { intros addr. simpl. intros H i p Hi Hp j q (Hq & Hz & _). rewrite Hi, Hp in H.
    rewrite forallb_forall in H. assert (Hin : In q (procs (kc s))).
    { apply list_elem_of_In, list_elem_of_lookup. eauto. }
    apply H, orb_true_iff in Hin as [Hn|Ho].
    - apply negb_true_iff, bool_decide_eq_false in Hn. by destruct Hn.
    - by apply is_ok_true. }
  destruct cm; try done; try (intros H; split; [done|by apply HW]).
  - split; [by apply runnable_existsb_true|done].
  - simpl. intros [H1%bool_decide_eq_true H2]%andb_prop. split; [done|]. split; [done|].
    intros i p Hi Hp. rewrite Hi, Hp in H2. by apply is_ok_true.
  - simpl. intros [H1%bool_decide_eq_true H2]%andb_prop. split; [done|].
    intros i p Hi Hp. rewrite Hi, Hp in H2. apply is_ok_true in H2 as ([] & e & H2). eauto.
Qed.

Fixpoint run_script (cms : list cmd) (m : mode) (s : kst E) : option (mode * kst E) :=
  match cms with
  | [] => Some (m, s)
  | cm :: cms' =>
      if cmd_preb cm s then
        match exec cm m with
        | Some f => match f s with Ok (m', s') => run_script cms' m' s' | _ => None end
        | None => None
        end
      else None
  end.

Lemma run_script_steps cms m s m' s' :
  run_script cms m s = Some (m', s') → rtc sys_step (Sys m s) (Sys m' s').
Proof.
  revert m s. induction cms as [|cm cms IH]; intros m s; simpl.
  - by intros [= -> ->].
  - destruct (cmd_preb cm s) eqn:Hd; [|done].
    destruct (exec cm m) as [f|] eqn:He; [|done].
    destruct (f s) as [[m1 s1]| | |] eqn:Ef; try done. intros Hr.
    destruct (cmd_preb_true _ _ Hd) as [Hp Hret].
    eapply rtc_l; [|by apply IH]. exists cm, m, s. split; [done|]. split; [done|]. by eapply step_ok.
Qed.
End system.
