(* ===== verification/Boot.v ===== *)
(** * A concrete machine

    A concrete instance of [ProcEnv] (pages handed out in order, page tables
    that are one page, reference counts that are not tracked) and the kernel
    state after [procinit] with the first process RUNNABLE, on which the
    theorems about the scheduler are evaluated. *)
From S2P Require Import Prelude Layout Spinlock Queue Proc KLogic Sched SchedInv SchedOps Life SchedSystem.

(** The memory of the concrete machine: the next free page, and the trap frame words. *)
Record demo := mkdemo { d_next : Z; d_words : gmap Z Z }.

#[global] Instance demo_env : ProcEnv demo := {
  addr_ticks := 2147557376;
  addr_proc := λ i, 2147561472 + Z.of_nat i * 360;
  env_ld64 := λ a d, Ok (u64 (default 0 (d_words d !! a)), d);
  env_st64 := λ a v d, Ok (tt, mkdemo (d_next d) (<[a := v]> (d_words d)));
  env_kalloc := λ d, Ok (d_next d * PGSIZE, mkdemo (d_next d + 1) (d_words d));
  env_kfree := λ _ d, Ok (tt, d);
  env_proc_pagetable := λ _ d, Ok (d_next d * PGSIZE, mkdemo (d_next d + 1) (d_words d));
  env_proc_freepagetable := λ _ _ d, Ok (tt, d);
  env_uvmfirst := λ _ _ d, Ok (tt, d);
  env_uvmcopy := λ _ _ _ d, Ok (0, d);
  env_uvmalloc := λ _ _ n d, Ok (n, d);
  env_uvmdealloc := λ _ _ n d, Ok (n, d);
  env_copyout := λ _ _ _ d, Ok (0, d);
  env_filedup := λ f d, Ok (f, d);
  env_fileclose := λ _ d, Ok (tt, d);
  env_idup := λ i d, Ok (i, d);
  env_iput := λ _ d, Ok (tt, d);
  env_begin_op := λ d, Ok (tt, d);
  env_end_op := λ d, Ok (tt, d);
  env_namei := λ _ d, Ok (4096, d);
  env_fsinit := λ _ d, Ok (tt, d) }.

Definition boot_hart : hart := mkhart 0 true 0 false.
Definition boot_lock : spinlock := mklock "" 0 None.

(** Zeroed storage, with the queues of [procinit]; process ids 1 and 2 are taken,
    and slot 0 is the first process. *)
Definition core_zero : core demo :=
  mkcore (replicate (Z.to_nat NPROC) proc0) qtable_boot None 0 3 1 (Some 0%nat) INT_MAX
    (replicate (Z.to_nat LOG_SIZE) (mklogentry 0 0 0 0)) 0 None false (mkdemo 524288 ∅).

(** A process that will start in [forkret], with a trap frame of its own. *)
Definition fresh_p (pid nice : Z) : proc :=
  let p := set_p_context (mkcontext CodeForkret 0) (set_p_nice nice (set_p_pid pid (set_p_state USED
    (set_p_trapframe ((524160 + pid) * PGSIZE) proc0)))) in
  set_p_queue (priority p) p.

Definition add_fresh (i : nat) (p : proc) (c : core demo) : core demo :=
  let c1 := set_procs (<[i := p]> (procs c)) c in
  match make_runnable i (mkkst c1 (λ _, boot_lock) boot_hart) with
  | Ok (_, s) => kc s
  | _ => c1
  end.
Definition boot_st (c : core demo) : kst demo := mkkst c (λ _, boot_lock) boot_hart.

Lemma core_zero_inv : cinv core_zero no_queues.
Proof.
  split.
  - done.
  - destruct (initialize_ok qtable0 eq_refl) as (q & E & HR).
    change (qtable core_zero) with qtable_boot. unfold qtable_boot. by rewrite E.
  - intros i p [-> _]%lookup_replicate. unfold pwf, is_queue. change (quantum proc0) with 15.
    unfold QUEUE_LOW, QUEUE_HIGH, NICE_MIN, NICE_MAX. simpl. lia.
  - by intros i p _ [-> _]%lookup_replicate.
  - intros k i _ Hin. unfold qget, no_queues in Hin.
    repeat case_decide; simpl in Hin; by apply elem_of_nil in Hin.
  - by intros i.
Qed.

Lemma boot_at c : at_ c [] (boot_st c).
Proof.
  split; try done.
  - by intros l ?%elem_of_nil.
  - by constructor.
Qed.

Lemma fresh_p_wf pid nice : NICE_MIN ≤ nice ≤ NICE_MAX → pwf (fresh_p pid nice).
Proof.
  intros H. split; [apply priority_is_queue|]. split; [done|].
  unfold fresh_p. simpl. match goal with |- context [quantum ?x] => pose proof (quantum_pos x) end. lia.
Qed.

(** Adding a RUNNABLE process to a boot state. *)
Lemma add_fresh_inv c Q i pid nice p0 :
  cinv c Q → procs_ok None c → NICE_MIN ≤ nice ≤ NICE_MAX →
  procs c !! i = Some p0 → p_state p0 = UNUSED →
  let p := fresh_p pid nice in let c' := add_fresh i p c in
  cinv c' (qset Q (p_queue p) (qget Q (p_queue p) ++ [Z.of_nat i])) ∧ procs_ok None c' ∧
  ∃ q, c' = set_qtable q (set_procs (<[i := set_p_state RUNNABLE p]> (procs c)) c).
Proof.
  intros HI Hok Hn Hp Hs p. set (c1 := set_procs (<[i := p]> (procs c)) c).
  assert (HI1 : cinv c1 Q).
  { apply (sinv_other _ _ _ _ _ i p0); try done; [congruence|]. by apply fresh_p_wf. }
  assert (Hp1 : procs c1 !! i = Some p) by (by eapply list_insert_some).
  destruct (runs_make_runnable [] i c1 p Q HI1 Hp1) as (q & R & I'); [done|].
  destruct (R _ (boot_at c1)) as (s' & E & Hat).
  assert (Ec : add_fresh i p c = set_qtable q (set_procs (<[i := set_p_state RUNNABLE p]> (procs c)) c)).
  { unfold add_fresh. fold c1. change (mkkst c1 (λ _, boot_lock) boot_hart) with (boot_st c1).
    rewrite E, (at_core _ _ _ Hat). unfold c1. simpl. by rewrite list_insert_insert_eq. }
  cbv zeta. rewrite Ec. split_and!; [|apply procs_ok_insert; [done|]; done|eauto].
  unfold c1 in I'. simpl in I'. by rewrite list_insert_insert_eq in I'.
Qed.

(** Two processes are RUNNABLE: slot 0 in the medium queue, slot 1 in the high one. *)
Definition core_two : core demo := add_fresh 1 (fresh_p 2 (-15)) (add_fresh 0 (fresh_p 1 0) core_zero).
Definition st_two : kst demo := boot_st core_two.

Lemma core_zero_ok : procs_ok None core_zero.
Proof. intros j p [-> _]%lookup_replicate _. split; [done|]. by intros [?|?]. Qed.

(** The slots of [core_two]. *)
Lemma two_life q (ps := <[1%nat := set_p_state RUNNABLE (fresh_p 2 (-15))]>
    (<[0%nat := set_p_state RUNNABLE (fresh_p 1 0)]> (procs core_zero))) :
  life_ok (set_qtable q (set_procs ps core_zero)).
Proof.
  assert (Hps : ∀ j p, ps !! j = Some p → j = 0%nat ∧ p = set_p_state RUNNABLE (fresh_p 1 0) ∨
    j = 1%nat ∧ p = set_p_state RUNNABLE (fresh_p 2 (-15)) ∨ (2 ≤ j)%nat ∧ p = proc0).
  { intros [|[|j]] p Hp.
    - left. split; [done|]. by injection Hp.
    - right. left. split; [done|]. by injection Hp.
    - right. right. split; [lia|]. unfold ps in Hp. rewrite !list_lookup_insert_ne in Hp by lia.
      by apply lookup_replicate in Hp as [-> _]. }
  split; simpl.
  - intros j p [(_ & ->)|[(_ & ->)|(_ & ->)]]%Hps; split; try done; simpl; lia.
  - intros i j p q' [(-> & ->)|[(-> & ->)|(_ & ->)]]%Hps [(-> & ->)|[(-> & ->)|(_ & ->)]]%Hps; done.
  - lia.
  - intros j p [(_ & ->)|[(_ & ->)|(_ & ->)]]%Hps; done.
  - intros j p [= <-] [(_ & ->)|[(? & ->)|(? & ->)]]%Hps; done || lia.
Qed.

Lemma st_two_inv : sys_inv (Sys AtLoop st_two).
Proof.
  destruct (add_fresh_inv core_zero no_queues 0 1 0 proc0 core_zero_inv core_zero_ok)
    as (I1 & O1 & q1 & E1); [done..|].
  destruct (add_fresh_inv (add_fresh 0 (fresh_p 1 0) core_zero) _ 1 2 (-15) proc0 I1 O1)
    as (I2 & O2 & q2 & E2); [done|by rewrite E1|done|].
  assert (E : core_two = set_qtable q2 (set_procs (procs core_two) core_zero)).
  { unfold core_two at 1. rewrite E2. unfold core_two. rewrite E2, E1. reflexivity. }
  exists core_two. eexists. split; [by rewrite E|]. split.
  { unfold core_two. rewrite E2, E1. apply (two_life q2). }
  split; [apply boot_at|]. split; [exact I2|].
  assert (Hl : log_ok core_zero) by (by split).
  split; [by rewrite E|]. split; [exact O2|]. rewrite E. simpl. split; [lia|done].
Qed.

(** ** Running scripts from there *)

Definition after (cms : list cmd) : mode * kst demo :=
  default (AtLoop, st_two) (run_script cms AtLoop st_two).
Definition goes (cms : list cmd) : bool := if run_script cms AtLoop st_two is Some _ then true else false.

Lemma after_steps cms :
  goes cms = true → rtc sys_step (Sys AtLoop st_two) (Sys (after cms).1 (after cms).2).
Proof.
  unfold goes, after. destruct (run_script cms AtLoop st_two) as [[m s]|] eqn:Er; [|done].
  intros _. by eapply run_script_steps.
Qed.

Lemma after_inv cms m : goes cms = true → (after cms).1 = m → sys_inv (Sys m (after cms).2).
Proof.
  intros H <-. by eapply steps_keep, after_steps; [apply st_two_inv|].
Qed.

(** What can be seen of a slot. *)
Definition pview (s : kst demo) (j : nat) : option (procstate * Z * Z * Z) :=
  (λ p, (p_state p, p_queue p, p_runtime p, p_nice p)) <$> procs (kc s) !! j.

Lemma pview_Some s j p st q r n :
  pview s j = Some (st, q, r, n) → procs (kc s) !! j = Some p →
  p_state p = st ∧ p_queue p = q ∧ p_runtime p = r ∧ p_nice p = n.
Proof. unfold pview. intros H Hp. rewrite Hp in H. by injection H as <- <- <- <-. Qed.

Lemma pview_is s j v : pview s j = Some v → ∃ p, procs (kc s) !! j = Some p.
Proof. unfold pview. destruct (procs (kc s) !! j); [eauto|done]. Qed.

