(* ===== verification/SchedClaims.v ===== *)
(** * The theorems about the scheduler

    Safety of every execution, what the scheduler picks, and the effect of
    [yield], [sys_nice], [wakeup], [kill] and the timer, each stated on the
    handler itself; the witnesses run them on the machine of Boot.v. *)
From S2P Require Import Prelude Layout Spinlock Queue Proc KLogic Sched SchedInv SchedOps Fork Life Exit SchedSystem Boot.

Section claims.
Context {E : Type} `{!ProcEnv E}.

(** C1: what an execution of the scheduler can come to.  From a state in which
    the process table and the queues agree, after any sequence of timer ticks,
    [nice], [sleep], [wakeup], [kill], [fork], [exit], [wait], lock operations
    and scheduler rounds, either no handler has panicked (no panic of [sched],
    [acquire], [release], [pop_off]) or left its tables, the state is good again,
    and the only process that can be RUNNING is the one that has the CPU; or the
    run went on, from a good state, with one of the two steps the code does not
    withstand: a round of the scheduler with nothing RUNNABLE, or [exit] by init,
    which panics.  (The calls of [fork], [exit] and [wait] into the memory and
    file code return, and the pid counter stays below 2^31: [returns].) *)
Theorem sched_safety (st st' : sys (E := E)) :
  sys_inv st → rtc any_step st st' →
  (st' ≠ Crashed ∧ sys_inv st' ∧
   ∀ m s j p, st' = Sys m s → procs (kc s) !! j = Some p → p_state p = RUNNING →
     ∃ ls, m = InProc j ls ∧ cpu_proc (kc s) = Some j) ∨
  ∃ m s, rtc sys_step st (Sys m s) ∧ sys_inv (Sys m s) ∧
    ((m = AtLoop ∧ (∀ j p, procs (kc s) !! j = Some p → p_state p ≠ RUNNABLE) ∧
      ∃ st1, kstep CmdDispatch (Sys m s) st1 ∧ rtc any_step st1 st') ∨
     ∃ i status, m = InProc i [] ∧ initproc (kc s) = Some i ∧
       exit status s = Panic "init exiting" ∧ st' = Crashed).
Proof.
  intros HI Hr. apply any_steps_split in Hr as [Hr|(cm & m & s & st1 & Hr & Hn & Hk & Hr1)].
  - left. pose proof (steps_keep _ _ HI Hr) as HI'.
    split; [by intros ->|]. split; [done|]. intros m s j p -> Hj Hs.
    destruct HI' as (c & Q & _ & _ & HI'). destruct m as [i ls|i|].
    + destruct HI' as (p' & Hat & Hon & Hok & _). rewrite (at_core _ _ _ Hat) in *.
      destruct (decide (i = j)) as [->|Hne]; [exists ls; split; [done|apply Hon]|].
      destruct (Hok j p Hj) as [H _]; [congruence|done].
    + destruct HI' as (Hat & _ & _ & Hok & _). rewrite (at_core _ _ _ Hat) in Hj.
      by destruct (Hok j p Hj) as [H _].
    + destruct HI' as (Hat & _ & _ & Hok & _). rewrite (at_core _ _ _ Hat) in Hj.
      by destruct (Hok j p Hj) as [H _].
  - right. pose proof (steps_keep _ _ HI Hr) as HI'. exists m, s. split; [done|]. split; [done|].
    destruct cm; simpl in Hn; try done.
    + left. assert (m = AtLoop) as -> by (inversion Hk; subst; by destruct m).
      split; [done|]. split; [|by exists st1]. intros j p Hj Hs. apply Hn. by exists j, p.
    + right. assert (∃ i, m = InProc i []) as [i ->].
      { inversion Hk as [m0 s0 f m' s' He|m0 s0 f He]; subst; destruct m as [i [|]| |]; try done; by exists i. }
      pose proof HI' as (c & Q & _ & _ & p & Hat & Hon & _). rewrite (at_core _ _ _ Hat) in *.
      assert (Hi : initproc c = Some i).
      { rewrite (oc_cpu _ _ _ _ Hon) in Hn. destruct (decide (initproc c = Some i)); [done|by destruct Hn]. }
      pose proof (exit_init i p c [] Q status s Hon Hi Hat) as Ep.
      exists i, status. split_and!; try done.
      assert (st1 = Crashed) as ->.
      { inversion Hk as [m0 s0 f m' s' He Hret Ef|m0 s0 f He Hret Hf]; subst; [|done].
        simpl in He. injection He as <-. unfold mbind, M_bind in Ef. by rewrite Ep in Ef. }
      inversion Hr1 as [|? st2 ? [cm2 Hs2]]; [done|]. inversion Hs2.
Qed.

(** C2: no process is lost, as long as handlers run whole.  In every state
    reached by the steps of [sys_step] (each handler and each round of the
    scheduler runs uninterrupted, no idle round, no exit of init) the queue table
    represents three lists without repetition, and a slot is in the list of
    queue [k] exactly when it is a RUNNABLE process whose [queue] field is [k]
    and that is not the one [yield] left in charge of the CPU. *)
Theorem runnable_iff_queued (st : sys (E := E)) m s :
  sys_inv st → rtc sys_step st (Sys m s) →
  ∃ Q, rep (qtable (kc s)) Q ∧ NoDup (qall Q) ∧
    ∀ k j, is_queue k →
      (Z.of_nat j ∈ qget Q k ↔
       ∃ p, procs (kc s) !! j = Some p ∧ p_state p = RUNNABLE ∧ p_queue p = k ∧
         ¬ (p_kicked (kc s) = 0 ∧ sched_p (kc s) = Some j)).
Proof.
  intros HI Hr. pose proof (steps_keep _ _ HI Hr) as HI'.
  assert (∃ Q, cinv (kc s) Q) as [Q HQ].
  { destruct HI' as (c & Q & _ & _ & HI'). exists Q. destruct m.
    - destruct HI' as (p & Hat & Hon & _). rewrite (at_core _ _ _ Hat). apply Hon.
    - destruct HI' as (Hat & HQ & _). by rewrite (at_core _ _ _ Hat).
    - destruct HI' as (Hat & HQ & _). by rewrite (at_core _ _ _ Hat). }
  exists Q. split; [apply HQ|]. split; [apply (rep_nodup _ _ (si_rep _ _ _ _ _ HQ))|].
  assert (Hcar : ∀ j, carried (kc s) = Some j ↔ p_kicked (kc s) = 0 ∧ sched_p (kc s) = Some j).
  { intros j. unfold carried. case_decide; naive_solver. }
  intros k j Hk. split.
  - intros Hin. destruct (si_queued _ _ _ _ _ HQ k j Hk Hin) as (_ & Hc & p & Hp & H1 & H2).
    exists p. split_and!; [done..|]. by rewrite <- Hcar.
  - intros (p & Hp & Hs & <- & Hc). apply (si_runnable _ _ _ _ _ HQ j p); try done.
    by rewrite Hcar.
Qed.

(** C4: the scheduler runs the right process (Rules 1 and 2 of the README).
    At the top of its loop with something RUNNABLE, one round of [scheduler]
    switches to a process: the one whose [yield] cleared [p_kicked], whatever
    the queues hold; otherwise the process that is first in the highest
    non-empty queue, so that no RUNNABLE process has a higher queue; it leaves
    that queue, and becomes RUNNING. *)
Theorem scheduler_picks (s : kst E) :
  sys_inv (Sys AtLoop s) → runnable_exists s →
  ∃ i p s' Q Q', rep (qtable (kc s)) Q ∧ procs (kc s) !! i = Some p ∧ p_state p = RUNNABLE ∧
    scheduler_body s = Ok (Some i, s') ∧
    procs (kc s') = <[i := set_p_state RUNNING p]> (procs (kc s)) ∧
    cpu_proc (kc s') = Some i ∧ rep (qtable (kc s')) Q' ∧
    (if decide (p_kicked (kc s) = 0) then sched_p (kc s) = Some i ∧ Q' = Q
     else ∃ l, qget Q (p_queue p) = Z.of_nat i :: l ∧ Q' = qset Q (p_queue p) l ∧
       ∀ j q, procs (kc s) !! j = Some q → p_state q = RUNNABLE → p_queue q ≤ p_queue p).
Proof.
  intros (c & Q & Hf & HL & Hat & HI & Hl & Hok & Hk & Hc) Hrun.
  unfold runnable_exists in Hrun. pose proof (at_core _ _ _ Hat) as Ec. rewrite Ec in *.
  destruct (decide (p_kicked c = 0)) as [H0|H0].
  - destruct (Hk H0) as [i Hi].
    destruct (runs_body_carried i c Q HI Hl H0 Hi) as (p & c' & Hp & R & Hon & H1 & _).
    destruct (R s Hat) as (s' & E1 & Hat'). pose proof (at_core _ _ _ Hat') as Ec'.
    assert (Hcar : carried c = Some i) by (unfold carried; by rewrite decide_True).
    destruct (si_carried _ _ _ _ _ HI i Hcar) as (p' & Hp' & Hr). simplify_eq.
    exists i, p, s', Q, Q. split_and!; try done; [apply HI|apply Hon|apply Hon].
  - pose proof HI as HI'. unfold cinv, carried in HI'. rewrite decide_False in HI' by done.
    destruct (top_queue Q) as [k|] eqn:Ht; [|by destruct (sinv_busy _ _ _ HI' Hrun)].
    destruct (top_queue_Some Q k Ht) as (Hkq & Hne & Hmax).
    destruct (qget Q k) as [|x l] eqn:El; [done|].
    destruct (runs_body_taken c Q k x l HI Hl H0 Ht El) as (i & p & c' & -> & Hp & Hr & <- & R & Hon & H1 & _).
    destruct (R s Hat) as (s' & E1 & Hat'). pose proof (at_core _ _ _ Hat') as Ec'. simplify_eq.
    exists i, p, s', Q, (qset Q (p_queue p) l).
    split_and!; try done; [apply HI|apply Hon|apply Hon|].
    exists l. split_and!; [done..|]. intros j q Hj Hs.
    assert (Hin : Z.of_nat j ∈ qget Q (p_queue q)) by (by apply (si_runnable _ _ _ _ _ HI')).
    destruct (decide (p_queue q ≤ p_queue p)) as [|Hgt]; [done|].
    pose proof (proj1 (si_wf _ _ _ _ _ HI' j q Hj)) as Hq.
    rewrite Hmax in Hin by (unfold is_queue in *; lia). by apply elem_of_nil in Hin.
Qed.
(** C5: the effect of [yield] (Rules 4 and 5 of the README).  The process that
    yields becomes RUNNABLE.  Every 60 ticks the boost rebuilds the queues: each
    RUNNABLE process, the caller included, goes to the queue of its nice value
    with run time 0, in table order; processes that are not RUNNABLE keep
    theirs.  Otherwise nobody else changes, and the caller either has used its
    quantum, moves one queue down (not below the lowest) with run time 0 and is
    last there, or keeps its queue and the CPU ([p_kicked] is 0), with one more
    tick on its account, strictly below the quantum. *)
Theorem yield_rules i (s : kst E) :
  sys_inv (Sys (InProc i []) s) →
  ∃ p s' p' Q Q', procs (kc s) !! i = Some p ∧ rep (qtable (kc s)) Q ∧
    yield s = Ok (tt, s') ∧ rep (qtable (kc s')) Q' ∧
    procs (kc s') !! i = Some p' ∧ p_state p' = RUNNABLE ∧
    if decide (Z.rem (time (kc s)) 60 = 0) then
      p_queue p' = priority p ∧ p_runtime p' = 0 ∧ p_kicked (kc s') ≠ 0 ∧
      (∀ j, j ≠ i → procs (kc s') !! j =
         (λ q, if decide (p_state q = RUNNABLE) then set_p_runtime 0 (set_p_queue (priority q) q) else q)
         <$> procs (kc s) !! j) ∧
      (∀ k, is_queue k → qget Q' k = Z.of_nat <$>
         base.filter (λ j, boost_sel (procs (kc s')) j = Some k) (seq 0 (Z.to_nat NPROC)))
    else
      (∀ j, j ≠ i → procs (kc s') !! j = procs (kc s) !! j) ∧
      if decide (quantum p ≤ p_runtime p + 1) then
        p_queue p' = Z.max QUEUE_LOW (p_queue p - 1) ∧ p_runtime p' = 0 ∧ p_kicked (kc s') ≠ 0 ∧
        Q' = qset Q (p_queue p') (qget Q (p_queue p') ++ [Z.of_nat i])
      else
        p_queue p' = p_queue p ∧ p_runtime p' = p_runtime p + 1 ∧ p_kicked (kc s') = 0 ∧ Q' = Q.
Proof.
  intros (c & Q & Hf & HL & p & Hat & Hon & Hok & _). pose proof (at_core _ _ _ Hat) as Ec.
  destruct (leads_yield i p c Q Hon s Hat) as ([] & s' & ls' & c' & Ey & Hat' & -> & Q' & HY).
  pose proof (at_core _ _ _ Hat') as Ec'.
  destruct HY as (I' & L' & C1 & S1 & F1 & _ & _ & (ie & Hp') & Hoth & Hk & HQ).
  destruct (yielded_facts ie c p) as (Hs' & _ & _ & Hq & Hr). remember (yielded ie c p) as p' eqn:Ep'. clear Ep'.
  exists p, s', p', Q, Q'. rewrite Ec, Ec'. clear Ec Ec'.
  split_and!; try done; [apply Hon|apply (si_rep _ _ _ _ _ (oc_inv _ _ _ _ Hon))|apply I'|].
  unfold boost_due in *. destruct (decide (Z.rem (time c) 60 = 0)) as [Hb|Hb].
  - rewrite bool_decide_true in * by done. split_and!; try done; [by apply Hk; left|].
    intros k Hkq. rewrite HQ, appendQ_get; [|intros; by eapply boost_sel_queue|done].
    unfold no_queues, qget at 1. repeat case_decide; reflexivity.
  - rewrite bool_decide_false in * by done. split.
    { intros j Hj. rewrite (Hoth j Hj). by destruct (procs c !! j). }
    unfold account_p, expired in *. case_decide as Hx.
    + rewrite bool_decide_true in * by done. rewrite Hq, Hr. split_and!; try done. apply Hk. by right.
    + rewrite bool_decide_false in * by done. split_and!; try done.
      destruct (decide (p_kicked c' = 0)) as [|Hne]; [done|]. by apply Hk in Hne as [?|?].
Qed.

(** C11: the effect of [sys_nice].  The nice value is the sum, kept between
    -20 and 19; when no boost is due, a caller whose new nice value selects the
    highest queue ends in the MEDIUM queue (the tick that [yield] charges uses
    up the quantum of the high queue at once), and any other caller stays off
    the queues and keeps the CPU, with one tick charged in its new queue. *)
Theorem sys_nice_effect inc i (s : kst E) :
  sys_inv (Sys (InProc i []) s) →
  ∃ p s' p', procs (kc s) !! i = Some p ∧ sys_nice inc s = Ok (tt, s') ∧
    procs (kc s') !! i = Some p' ∧ p_state p' = RUNNABLE ∧
    p_nice p' = Z.max (Z.min (i32 (p_nice p + inc)) NICE_MAX) NICE_MIN ∧
    NICE_MIN ≤ p_nice p' ≤ NICE_MAX ∧
    (Z.rem (time (kc s)) 60 ≠ 0 →
     if decide (p_nice p' ≤ -10)
     then p_queue p' = QUEUE_MEDIUM ∧ p_runtime p' = 0 ∧ p_kicked (kc s') ≠ 0
     else p_queue p' = priority p' ∧ p_runtime p' = 1 ∧ p_kicked (kc s') = 0).
Proof.
  intros (c & Q & Hf & HL & p & Hat & Hon & Hok & _). pose proof (at_core _ _ _ Hat) as Ec.
  destruct (leads_nice inc i p c Q Hon s Hat) as ([] & s' & ls' & c' & Ey & Hat' & -> & Q' & HY).
  pose proof (at_core _ _ _ Hat') as Ec'.
  destruct HY as (_ & _ & _ & _ & _ & _ & _ & (ie & Hp') & _ & Hk & _).
  destruct (yielded_facts ie (set_procs (<[i := nice_p inc p]> (procs c)) c) (nice_p inc p))
    as (Hs' & Hn & _ & Hq & Hr).
  match type of Hp' with _ = Some ?y => remember y as p' eqn:Ep' end. clear Ep'.
  exists p, s', p'. rewrite Ec, Ec'. clear Ec Ec'.
  assert (Hn' : p_nice p' = new_nice inc p) by exact Hn.
  split_and!; try done; [apply Hon|unfold new_nice, NICE_MIN, NICE_MAX in *; lia..|].
  intros Ht. unfold boost_due in *. simpl in Hk, Hq, Hr. rewrite bool_decide_false in * by done.
  set (x := nice_p inc p) in *.
  assert (Hpr : priority x = priority p') by (unfold priority; by rewrite Hn).
  assert (Hqx : p_queue x = priority x) by reflexivity.
  assert (Hrx : p_runtime x = 0) by reflexivity.
  revert Hk Hq Hr. unfold account_p, expired. rewrite Hrx.
  assert (Hqu : bool_decide (quantum x ≤ 0 + 1) = bool_decide (p_nice p' ≤ -10)).
  { apply bool_decide_ext. unfold quantum. rewrite Hqx, Hpr. unfold priority.
    repeat case_bool_decide; unfold QUEUE_HIGH, QUEUE_LOW, QUEUE_MEDIUM in *; lia. }
  rewrite Hqu. intros Hk Hq Hr. clear Hqu. case_decide as Hd.
  - rewrite bool_decide_true in * by done. rewrite Hq, Hr. simpl. split_and!; try done.
    + change (Z.max QUEUE_LOW (p_queue x - 1) = QUEUE_MEDIUM). rewrite Hqx, Hpr. unfold priority.
      rewrite !bool_decide_false by lia. done.
    + apply Hk. by right.
  - rewrite bool_decide_false in * by done. rewrite Hq, Hr. clear Hq Hr. split_and!.
    + simpl. change (p_queue x = priority p'). by rewrite Hqx.
    + done.
    + destruct (decide (p_kicked c' = 0)) as [|Hne]; [done|]. by apply Hk in Hne as [?|?].
Qed.
(** [wakeup] wakes exactly the sleepers on its channel.  Called by a
    process (with any locks but process locks) or by the scheduler's interrupt
    handler, it returns with the same locks; every process but the caller that
    sleeps on the channel is RUNNABLE, nothing else of any process changes, and
    each queue has grown by the woken processes that belong to it, in the order
    of the process table. *)
Theorem wakeup_exact chan m (s : kst E) :
  sys_inv (Sys m s) → (∀ i, m ≠ Switched i) →
  ∃ s' Q Q', wakeup chan s = Ok (tt, s') ∧
    rep (qtable (kc s)) Q ∧ rep (qtable (kc s')) Q' ∧
    (∀ j, procs (kc s') !! j =
       (λ p, if decide (Some j ≠ cpu_proc (kc s) ∧ p_state p = SLEEPING ∧ p_chan p = chan)
             then set_p_state RUNNABLE p else p) <$> procs (kc s) !! j) ∧
    (∀ k, is_queue k → ∃ l, qget Q' k = qget Q k ++ (Z.of_nat <$> l) ∧ l `sublist_of` seq 0 (Z.to_nat NPROC) ∧
       ∀ j, j ∈ l ↔ ∃ p, procs (kc s) !! j = Some p ∧ p_queue p = k ∧ Some j ≠ cpu_proc (kc s) ∧
                      p_state p = SLEEPING ∧ p_chan p = chan) ∧
    sys_inv (Sys m s').
Proof.
  intros HS Hm.
  assert (∃ ls c Q, at_ c ls s ∧ cinv c Q ∧ (∀ i, LProc i ∉ ls)) as (ls & c & Q & Hat & HI & Hls).
  { destruct HS as (c & Q & _ & _ & HS). destruct m as [i ls|i|]; [|by destruct (Hm i)|].
    - destruct HS as (p & Hat & Hon & _ & Hnl). exists ls, c, Q. split_and!; [done|apply Hon|done].
    - destruct HS as (Hat & HI & _). exists [], c, Q. split_and!; [done..|]. by intros ? ?%elem_of_nil. }
  destruct (runs_wakeup chan ls c Q Hls HI) as (c' & q' & R & Ec' & I').
  destruct (R s Hat) as (s' & Es & Hat'). exists s', Q, (appendQ Q (wake_sel chan c) (Z.to_nat NPROC)).
  split; [done|]. rewrite (at_core _ _ _ Hat), (at_core _ _ _ Hat').
  split; [apply HI|]. split; [apply I'|]. split; [|split].
  - intros j. rewrite Ec'. simpl. rewrite list_lookup_imap. destruct (procs c !! j) as [p|]; [|done].
    simpl. f_equal. unfold wake_p, sleeps_on. repeat case_bool_decide; simpl; case_decide; naive_solver.
  - intros k Hk. exists (base.filter (λ j, wake_sel chan c j = Some k) (seq 0 (Z.to_nat NPROC))).
    assert (Hw : ∀ j k', wake_sel chan c j = Some k' ↔ ∃ p, procs c !! j = Some p ∧ p_queue p = k' ∧
              Some j ≠ cpu_proc c ∧ p_state p = SLEEPING ∧ p_chan p = chan).
    { intros j k'. unfold wake_sel, sleeps_on. destruct (procs c !! j) as [p|]; simpl; [|naive_solver].
      repeat case_bool_decide; simpl; naive_solver. }
    split; [apply appendQ_get; [|done]|split].
    + intros j k' (p & Hp & <- & _)%Hw. apply (si_wf _ _ _ _ _ HI j p Hp).
    + apply sublist_filter.
    + intros j. rewrite list_elem_of_filter, Hw, elem_of_seq. split; [tauto|].
      intros (p & Hp & H). split; [by exists p|]. pose proof (lookup_lt_Some _ _ _ Hp).
      pose proof (si_len _ _ _ _ _ HI). lia.
  - destruct (keeps_wakeup chan m s) as (m2 & s2 & E2 & I2); [destruct m; eauto; by destruct (Hm i)|done|].
    unfold mbind, M_bind in E2. rewrite Es in E2. by injection E2 as <- <-.
Qed.

(** [kill] marks the first process with that id, and wakes it if it
    sleeps; with no such process it returns -1 and changes nothing. *)
Theorem kill_effect pid i ls (s : kst E) :
  sys_inv (Sys (InProc i ls) s) →
  ∃ r s', kill pid s = Ok (r, s') ∧
    if decide (r = 0) then
      ∃ j p, procs (kc s) !! j = Some p ∧ p_pid p = pid ∧
        (∀ j', (j' < j)%nat → ¬ has_pid pid (procs (kc s)) j') ∧
        procs (kc s') = <[j := set_p_state (if decide (p_state p = SLEEPING) then RUNNABLE else p_state p)
                                (set_p_killed 1 p)]> (procs (kc s)) ∧
        (p_state p = SLEEPING → ∃ Q Q', rep (qtable (kc s)) Q ∧ rep (qtable (kc s')) Q' ∧
           Q' = qset Q (p_queue p) (qget Q (p_queue p) ++ [Z.of_nat j]))
    else r = -1 ∧ kc s' = kc s ∧ ∀ j, ¬ has_pid pid (procs (kc s)) j.
Proof.
  intros (c & Q & Hf & HL & p & Hat & Hon & Hok & Hnl). pose proof (at_core _ _ _ Hat) as Ec.
  destruct (runs_kill pid ls c Q Hnl (oc_inv _ _ _ _ Hon)) as [[R H]|(j & q & q' & Hq & Hpid & Hmin & R & I')];
    destruct (R s Hat) as (s' & Es & Hat'); pose proof (at_core _ _ _ Hat') as Ec'.
  - exists (-1), s'. rewrite Ec, Ec'. split; [done|]. by rewrite decide_False.
  - exists 0, s'. rewrite Ec, Ec'. split; [done|]. rewrite decide_True by done.
    exists j, q. split_and!; try done.
    + simpl. f_equal. unfold kill_p. case_decide; [done|]. by destruct q.
    + intros Hs. exists Q, (kill_Q j q Q). split_and!; [apply (si_rep _ _ _ _ _ (oc_inv _ _ _ _ Hon))|apply I'|].
      unfold kill_Q. by rewrite decide_True.
Qed.

(** What the scheduler logs.  While the log has room, a switch to process
    [i] appends one record with its id, queue and the time, unless the last
    record has the same id and queue; earlier records never change, and the
    count never exceeds the size of the array, full or not. *)
Theorem log_switch_spec i p ls (c : core E) (s : kst E) :
  at_ c ls s → log_ok c → procs c !! i = Some p →
  ∃ s', log_switch i s = Ok (tt, s') ∧
    let same := ∃ e, zidx (schedlog c) (log_count c - 1) = Some e ∧
                  le_pid e = p_pid p ∧ le_queue e = p_queue p in
    (LOG_SIZE ≤ log_count c ∨ same → kc s' = c) ∧
    (log_count c < LOG_SIZE → ¬ same →
       log_count (kc s') = log_count c + 1 ∧ log_count (kc s') ≤ LOG_SIZE ∧
       zidx (schedlog (kc s')) (log_count c) = Some (mklogentry (p_pid p) (time c) (p_queue p) 0) ∧
       ∀ k, k ≠ log_count c → zidx (schedlog (kc s')) k = zidx (schedlog c) k).
Proof.
  intros Hat Hl Hp. destruct (runs_log_switch ls i c p Hp Hl s Hat) as (s' & Es & Hat').
  exists s'. split; [done|]. rewrite (at_core _ _ _ Hat'). intros same.
  assert (Hsame : log_same p c = true ↔ same).
  { unfold log_same, same. destruct (zidx _ _) as [e|]; [|naive_solver].
    repeat case_bool_decide; simpl; naive_solver. }
  unfold switch_log, log_append. destruct Hl as [L1 L2].
  destruct (zidx (schedlog c) (log_count c)) as [e|] eqn:He.
  - apply zidx_Some in He as [He _]. split.
    + intros [?|Hs%Hsame]; [lia|]. by rewrite Hs.
    + intros Hn Hs. destruct (log_same p c); [by destruct Hs; apply Hsame|]. simpl.
      rewrite zidx_insert, decide_True by done. split_and!; [done|lia|done|].
      intros k Hk. rewrite zidx_insert by done. by rewrite decide_False by done.
  - split; [by destruct (log_same p c)|]. intros Hn. exfalso.
    apply (eq_None_not_Some (zidx (schedlog c) (log_count c))); [done|]. apply zidx_is_Some. lia.
Qed.
End claims.

(** ** The theorems on a run of two processes

    The process in the high queue runs first and is moved down at its first
    tick; the other one, in the medium queue, keeps the CPU over its ticks,
    until it waits. *)
Definition script : list cmd :=
  [CmdDispatch; CmdStartlog; CmdTick; CmdReturn; CmdDispatch; CmdTick; CmdReturn; CmdDispatch;
   CmdNice (-30); CmdReturn; CmdDispatch; CmdAcquire (LExt 0); CmdSleep 77; CmdReturn; CmdDispatch;
   CmdWakeup 77; CmdKill 1].

(** The point reached after the first [k] commands. *)
Definition at_cmd (k : nat) : mode * kst demo := after (take k script).
Definition runs_to (k : nat) : bool := goes (take k script).
Lemma at_cmd_steps k :
  runs_to k = true → rtc sys_step (Sys AtLoop st_two) (Sys (at_cmd k).1 (at_cmd k).2).
Proof. apply after_steps. Qed.
Lemma at_cmd_inv k m : runs_to k = true → (at_cmd k).1 = m → sys_inv (Sys m (at_cmd k).2).
Proof. apply after_inv. Qed.

Lemma at_17_ok : runs_to 17 = true. Proof. vm_compute. reflexivity. Qed.
Lemma at_17_mode : (at_cmd 17).1 = InProc 0 []. Proof. vm_compute. reflexivity. Qed.
Lemma at_17_view : pview (at_cmd 17).2 1 = Some (RUNNABLE, QUEUE_MEDIUM, 0, -15).
Proof. vm_compute. reflexivity. Qed.
Lemma at_17_kicked : p_kicked (kc (at_cmd 17).2) = 1. Proof. vm_compute. reflexivity. Qed.
Lemma at_5_ok : runs_to 5 = true. Proof. vm_compute. reflexivity. Qed.
Lemma at_5_mode : (at_cmd 5).1 = InProc 0 []. Proof. vm_compute. reflexivity. Qed.
Lemma at_5_view : pview (at_cmd 5).2 0 = Some (RUNNING, QUEUE_MEDIUM, 0, 0).
Proof. vm_compute. reflexivity. Qed.
Lemma at_5_time : time (kc (at_cmd 5).2) = 1. Proof. vm_compute. reflexivity. Qed.
Lemma st_two_view : pview st_two 0 = Some (RUNNABLE, QUEUE_MEDIUM, 0, 0) ∧
  pview st_two 1 = Some (RUNNABLE, QUEUE_HIGH, 0, -15) ∧ p_kicked (kc st_two) = 1.
Proof. vm_compute. auto. Qed.
Lemma st_two_runnable : runnable_exists st_two.
Proof. apply runnable_existsb_true. vm_compute. reflexivity. Qed.
Lemma st_two_pick :
  (match scheduler_body st_two with Ok (o, _) => o | _ => None end) = Some 1%nat.
Proof. vm_compute. reflexivity. Qed.
Lemma at_15_ok : runs_to 15 = true. Proof. vm_compute. reflexivity. Qed.
Lemma at_15_mode : (at_cmd 15).1 = InProc 0 []. Proof. vm_compute. reflexivity. Qed.
Lemma at_15_view : pview (at_cmd 15).2 1 = Some (SLEEPING, QUEUE_MEDIUM, 0, -15).
Proof. vm_compute. reflexivity. Qed.
Lemma at_15_chan : (λ p, (p_chan p, p_pid p)) <$> procs (kc (at_cmd 15).2) !! 1%nat = Some (77, 2).
Proof. vm_compute. reflexivity. Qed.
Lemma at_15_cpu : cpu_proc (kc (at_cmd 15).2) = Some 0%nat. Proof. vm_compute. reflexivity. Qed.
#[local] Opaque at_cmd st_two.

Lemma sched_safety_witness :
  let st := Sys AtLoop st_two in let st' := Sys (at_cmd 17).1 (at_cmd 17).2 in
  rtc any_step st st' ∧ (at_cmd 17).1 = InProc 0 [] ∧
  (sys_inv st' ∨ ∃ m s, rtc sys_step st (Sys m s) ∧ sys_inv (Sys m s)).
Proof.
  pose proof (steps_any _ _ (at_cmd_steps 17 at_17_ok)) as Hr.
  split; [exact Hr|]. split; [exact at_17_mode|].
  destruct (sched_safety _ _ st_two_inv Hr) as [(_ & H & _)|(m & s & H1 & H2 & _)]; [left; exact H|].
  right. exists m, s. split; [exact H1|exact H2].
Defined.

Lemma runnable_iff_queued_witness :
  let s := (at_cmd 17).2 in ∃ Q, rep (qtable (kc s)) Q ∧ 1 ∈ qget Q QUEUE_MEDIUM.
Proof.
  destruct (runnable_iff_queued (Sys AtLoop st_two) (at_cmd 17).1 (at_cmd 17).2 st_two_inv
              (at_cmd_steps 17 at_17_ok)) as (Q & HR & _ & H).
  exists Q. split; [exact HR|].
  destruct (pview_is _ _ _ at_17_view) as [p Hp].
  destruct (pview_Some _ _ _ _ _ _ _ at_17_view Hp) as (H1 & H2 & _).
  apply (H QUEUE_MEDIUM 1%nat); [by split|]. exists p. split; [exact Hp|]. split; [exact H1|].
  split; [exact H2|]. intros [H0 _]. rewrite at_17_kicked in H0. discriminate.
Defined.

Lemma scheduler_picks_witness : ∃ s', scheduler_body st_two = Ok (Some 1%nat, s').
Proof.
  destruct (scheduler_picks st_two st_two_inv st_two_runnable)
    as (i & _ & s' & _ & _ & _ & _ & _ & E & _).
  exists s'. rewrite E. do 3 f_equal.
  pose proof st_two_pick as P. rewrite E in P. congruence.
Defined.

Lemma yield_rules_witness :
  ∃ p s' p', procs (kc (at_cmd 5).2) !! 0%nat = Some p ∧ yield (at_cmd 5).2 = Ok (tt, s') ∧
    procs (kc s') !! 0%nat = Some p' ∧ p_queue p' = QUEUE_MEDIUM ∧ p_runtime p' = 1 ∧ p_kicked (kc s') = 0.
Proof.
  destruct (yield_rules 0 (at_cmd 5).2) as (p & s' & p' & Q & Q' & Hp & _ & Ey & _ & Hp' & _ & H).
  { exact (at_cmd_inv 5 _ at_5_ok at_5_mode). }
  exists p, s', p'. split; [exact Hp|]. split; [exact Ey|]. split; [exact Hp'|].
  destruct (pview_Some _ _ _ _ _ _ _ at_5_view Hp) as (_ & H2 & H3 & _).
  rewrite at_5_time in H. destruct H as [_ H]. unfold quantum in H. rewrite H2, H3 in H. simpl in H.
  destruct H as (-> & -> & -> & _). auto.
Defined.

Lemma sys_nice_effect_witness :
  ∃ s' p', sys_nice (-30) (at_cmd 5).2 = Ok (tt, s') ∧ procs (kc s') !! 0%nat = Some p' ∧
    p_nice p' = -20 ∧ p_queue p' = QUEUE_MEDIUM ∧ p_kicked (kc s') ≠ 0.
Proof.
  destruct (sys_nice_effect (-30) 0 (at_cmd 5).2) as (p & s' & p' & Hp & Es & Hp' & _ & Hn & _ & H).
  { exact (at_cmd_inv 5 _ at_5_ok at_5_mode). }
  destruct (pview_Some _ _ _ _ _ _ _ at_5_view Hp) as (_ & _ & _ & H4).
  exists s', p'. split; [exact Es|]. split; [exact Hp'|]. rewrite H4 in Hn.
  assert (Hn' : p_nice p' = -20) by exact Hn. split; [exact Hn'|].
  rewrite at_5_time, Hn' in H. destruct H as (H5 & _ & H6); [discriminate|]. split; [exact H5|exact H6].
Defined.

Lemma wakeup_exact_witness :
  ∃ s', wakeup 77 (at_cmd 15).2 = Ok (tt, s') ∧ p_state <$> procs (kc s') !! 1%nat = Some RUNNABLE.
Proof.
  destruct (wakeup_exact 77 (InProc 0 []) (at_cmd 15).2) as (s' & Q & Q' & Es & _ & _ & H & _).
  { exact (at_cmd_inv 15 _ at_15_ok at_15_mode). }
  { intros i. discriminate. }
  exists s'. split; [exact Es|]. rewrite (H 1%nat), at_15_cpu.
  destruct (pview_is _ _ _ at_15_view) as [p Hp].
  destruct (pview_Some _ _ _ _ _ _ _ at_15_view Hp) as (H1 & _).
  pose proof at_15_chan as Hc. rewrite Hp in Hc |- *. simpl in Hc |- *.
  rewrite decide_True; [reflexivity|]. split; [discriminate|]. split; [exact H1|congruence].
Defined.

Lemma kill_effect_witness :
  ∃ r s', kill 2 (at_cmd 15).2 = Ok (r, s') ∧ (r = 0 ∨ r = -1).
Proof.
  destruct (kill_effect 2 0 [] (at_cmd 15).2) as (r & s' & Es & H).
  { exact (at_cmd_inv 15 _ at_15_ok at_15_mode). }
  exists r, s'. split; [exact Es|]. destruct (decide (r = 0)); [left; done|right; tauto].
Defined.

Lemma core_zero_log : log_ok (set_log_count 0 core_zero).
Proof. by split. Qed.
Lemma core_zero_idle : procs (set_log_count 0 core_zero) !! 0%nat = Some proc0.
Proof. reflexivity. Qed.

Lemma log_switch_spec_witness :
  ∃ s', log_switch 0 (boot_st (set_log_count 0 core_zero)) = Ok (tt, s') ∧ log_count (kc s') = 1 ∧
    zidx (schedlog (kc s')) 0 = Some (mklogentry 0 0 0 0).
Proof.
  destruct (log_switch_spec 0 proc0 [] (set_log_count 0 core_zero) (boot_st (set_log_count 0 core_zero))
              (boot_at _) core_zero_log core_zero_idle) as (s' & Es & _ & H).
  exists s'. split; [exact Es|].
  destruct H as (H1 & _ & H3 & _); [done| |by split].
  intros (e & He & _). by vm_compute in He.
Defined.
