(* ===== verification/LifeClaims.v ===== *)
(** * The theorems about the life of processes

    Unique process ids, and the effect of [fork], [exit], [wait] and of
    [kill(0)]. *)
From S2P Require Import Prelude Layout Spinlock Queue Proc KLogic Sched Fork SchedInv SchedOps Life Exit SchedSystem Boot.

Section claims.
Context {E : Type} `{!ProcEnv E}.

Lemma sys_inv_life m (s : kst E) : sys_inv (Sys m s) → life_ok (kc s).
Proof.
  intros (c & Q & _ & HL & H). destruct m.
  - destruct H as (p & Hat & _). by rewrite (at_core _ _ _ Hat).
  - destruct H as (Hat & _). by rewrite (at_core _ _ _ Hat).
  - destruct H as (Hat & _). by rewrite (at_core _ _ _ Hat).
Qed.

(** C9: process ids are unique, and nothing leaks with a dead process.  In
    every state reachable by scheduling, [fork], [exit], [wait] and [kill] (by the
    steps of [sys_step]: no idle round of the scheduler, no exit of init, fewer
    than 2^31 processes created), two slots in use have different ids, all between 1 and [nextpid]; an unused
    slot has no trap frame, page table, size or parent, and neither an unused
    slot nor a zombie has an open file or a working directory. *)
Theorem pids_unique (st : sys (E := E)) m s :
  sys_inv st → rtc sys_step st (Sys m s) →
  (∀ i p, procs (kc s) !! i = Some p →
     (p_state p ≠ UNUSED → 1 ≤ p_pid p < nextpid (kc s)) ∧
     (p_state p = UNUSED → p_trapframe p = 0 ∧ p_pagetable p = 0 ∧ p_sz p = 0 ∧ p_parent p = None) ∧
     (p_state p = UNUSED ∨ p_state p = ZOMBIE → p_ofile p = replicate (Z.to_nat NOFILE) 0 ∧ p_cwd p = 0)) ∧
  (∀ i j p q, procs (kc s) !! i = Some p → procs (kc s) !! j = Some q → i ≠ j →
     p_state p ≠ UNUSED → p_state q ≠ UNUSED → p_pid p ≠ p_pid q).
Proof.
  intros HI Hr. pose proof (sys_inv_life m s (steps_keep _ _ HI Hr)) as HL. split.
  - intros i p Hp. destruct (lo_slot _ HL i p Hp) as [H1 H2 H3 H4 H5].
    split_and!; [done| |].
    + intros Hu. by destruct (H3 Hu) as (? & ? & ? & _ & ? & _).
    + intros [Hu|Hu]; apply H4; by rewrite Hu.
  - intros i j p q Hp Hq Hij Hsp Hsq Heq. apply Hij. by apply (lo_pids _ HL i j p q).
Qed.

(** C6: the effect of [fork], whole.  With no unused slot it returns -1 and
    changes nothing.  Otherwise the first unused slot is taken and the next
    process id is used up, and [fork_env] (the trap frame page, the page table,
    the copy of the memory and of the trap frame, the references on files and
    directory) says how it ends.  If memory ran out, [fork] returns -1, the slot
    is UNUSED again as [freeproc] leaves it, and no other slot, queue or counter
    has changed.  Else it returns the id, and the slot is the child: that id, the
    caller as its parent, the caller's size and name, the duplicated descriptors
    and directory, the new page table and trap frame, nice value 0 and no time on
    its account; it is RUNNABLE, last in the medium queue, and no other slot has
    changed. *)
Theorem fork_effect i (s : kst E) :
  sys_inv (Sys (InProc i []) s) → returns CmdFork s →
  let c := kc s in
  ∃ p v s', procs c !! i = Some p ∧ fork s = Ok (v, s') ∧ sys_inv (Sys (InProc i []) s') ∧
    ((v = -1 ∧ kc s' = c ∧ ∀ j q, procs c !! j = Some q → p_state q ≠ UNUSED) ∨
     ∃ j q r e', first_unused (procs c) j ∧ procs c !! j = Some q ∧ fork_env p (env c) = Ok (r, e') ∧
       match r with
       | None => v = -1 ∧ ∃ np, (np = q ∨ ∃ tf pt, np = alloc_p (nextpid c) tf pt q) ∧
           kc s' = set_env e' (set_nextpid (nextpid c + 1) (set_procs (<[j := free_p np]> (procs c)) c))
       | Some (tf, pt, fs, cwd) => v = nextpid c ∧ ∃ np Q Q',
           procs (kc s') = <[j := np]> (procs c) ∧ env (kc s') = e' ∧ nextpid (kc s') = nextpid c + 1 ∧
           p_pid np = v ∧ p_state np = RUNNABLE ∧ p_parent np = Some i ∧
           p_sz np = p_sz p ∧ p_name np = p_name p ∧ p_ofile np = fs ∧ p_cwd np = cwd ∧
           length fs = length (p_ofile p) ∧
           p_trapframe np = tf ∧ tf ≠ 0 ∧ p_pagetable np = pt ∧ pt ≠ 0 ∧
           p_context np = mkcontext CodeForkret (p_kstack q + PGSIZE) ∧
           p_nice np = 0 ∧ p_queue np = QUEUE_MEDIUM ∧ p_runtime np = 0 ∧
           rep (qtable c) Q ∧ rep (qtable (kc s')) Q' ∧
           Q' = qset Q QUEUE_MEDIUM (qget Q QUEUE_MEDIUM ++ [Z.of_nat j])
       end).
Proof.
  intros HI Hpre c0. pose proof (keeps_fork i s HI Hpre) as HK. subst c0.
  destruct HI as (c & Q & Hf & HL & p & Hat & Hon & Hok & Hnl). destruct Hpre as [Hmax He].
  pose proof (at_core _ _ _ Hat) as Ec. rewrite Ec in *. pose proof (lo_next c HL) as H0.
  assert (Hn : i32 (nextpid c + 1) = nextpid c + 1) by (apply i32_small; lia).
  destruct (He i p (oc_cpu _ _ _ _ Hon) (oc_proc _ _ _ _ Hon)) as (r & e' & Hr).
  destruct (leads_fork i p c Q r e' Hon HL Hr s Hat) as (v & s' & ls' & c' & Es & Hat' & -> & Q' & HO & I').
  exists p, v, s'. rewrite (at_core _ _ _ Hat').
  split; [apply Hon|]. split; [done|]. split.
  { destruct HK as (m2 & s2 & E2 & I2). unfold mbind, M_bind in E2. rewrite Es in E2.
    by injection E2 as <- <-. }
  destruct HO as [Hfull|j np0 np e2 Hj Hnp Hor He2|j np0 tf pt fs cwd e2 q' np Hj Hnp He2 ->].
  - left. split_and!; [done..|]. intros j q Hq. by apply (Hfull j q Hq).
  - right. exists j, np0, None, e2. split_and!; [done..|]. exists np. split; [done|].
    unfold upd_p, took_pid. by rewrite Hn.
  - right. exists j, np0, (Some (tf, pt, fs, cwd)), e2. split_and!; [done..|].
    pose proof Hj as [(q0 & Hq0 & Hs0) _]. assert (q0 = np0) as -> by congruence.
    destruct (so_unused _ _ (lo_slot c HL j np0 Hnp) Hs0) as (U1 & U2 & U3 & U4 & U5 & U6 & U7).
    assert (Hne : tf ≠ 0 ∧ pt ≠ 0).
    { pose proof He2 as He3. unfold fork_env in He3. apply bind_Ok in He3 as (r1 & e1 & H1 & H2).
      destruct r1 as [[tf' pt']|]; [|done]. apply bind_Ok in H2 as (o & e3 & _ & Eo).
      destruct o as [[fs' cwd']|]; [|done]. injection Eo as -> -> -> -> ->. by eapply alloc_env_ok. }
    assert (Hq : ∀ i p fs cwd, p_queue (child_p i p fs cwd (alloc_p (nextpid c) tf pt np0)) = QUEUE_MEDIUM).
    { intros. rewrite child_queue. unfold alloc_p. simpl. unfold priority. simpl. by rewrite U6. }
    eexists _, Q, _. destruct Hne as [Hne1 Hne2]. split; [unfold forked, upd_p; simpl; reflexivity|].
    split_and!; try done.
    + eapply fork_env_files. exact He2.
    + apply (si_rep _ _ _ _ _ (oc_inv _ _ _ _ Hon)).
    + pose proof (si_rep _ _ _ _ _ I') as HR. rewrite Hq in HR. exact HR.
Qed.
(** C7: the effect of [exit].  For init it panics.  Otherwise control goes to
    the scheduler with the caller a zombie that keeps its id, its exit status
    stored and its files closed; its children belong to init; whoever slept on
    the caller's parent, or on init when there were children, is RUNNABLE, and
    nothing else changes. *)
Theorem exit_effect status i (s : kst E) :
  sys_inv (Sys (InProc i []) s) →
  (initproc (kc s) = Some i → exit status s = Panic "init exiting") ∧
  (initproc (kc s) ≠ Some i → returns (CmdExit status) s →
   ∃ p s' z, procs (kc s) !! i = Some p ∧ exit status s = Ok (tt, s') ∧ sys_inv (Sys (Switched i) s') ∧
     procs (kc s') !! i = Some z ∧ p_state z = ZOMBIE ∧ p_xstate z = status ∧ p_pid z = p_pid p ∧
     p_parent z = p_parent p ∧ p_ofile z = replicate (Z.to_nat NOFILE) 0 ∧ p_cwd z = 0 ∧
     ∀ j q, j ≠ i → procs (kc s) !! j = Some q →
       let adopted := if decide (p_parent q = Some i) then set_p_parent (initproc (kc s)) q else q in
       let orphans := existsb (child_of i) (procs (kc s)) in
       procs (kc s') !! j = Some (
         if decide (p_state q = SLEEPING ∧
              (p_chan q = addr_opt (p_parent p) ∨ orphans = true ∧ p_chan q = addr_opt (initproc (kc s))))
         then set_p_state RUNNABLE adopted else adopted)).
Proof.
  intros HI. split.
  { intros Hi. destruct HI as (c & Q & Hf & HL & p & Hat & Hon & _).
    eapply exit_init; [exact Hon| |exact Hat]. by rewrite <- (at_core _ _ _ Hat). }
  intros Hinit He.
  assert (HK : keeps (exit status ;; mret (Switched i)) s).
  { apply keeps_exit; [done| |done]. simpl. destruct HI as (c & Q & _ & _ & p & Hat & Hon & _).
    rewrite (at_core _ _ _ Hat) in *. by rewrite (oc_cpu _ _ _ _ Hon). }
  destruct HI as (c & Q & Hf & HL & p & Hat & Hon & Hok & Hnl). simpl in He.
  rewrite (at_core _ _ _ Hat) in *. rewrite (oc_cpu _ _ _ _ Hon) in *.
  pose proof (oc_proc _ _ _ _ Hon) as Hp. destruct (He i p eq_refl Hp) as (e' & Hr).
  destruct (leads_exit i p c Q status e' Hon Hinit (lo_parent c HL i p Hp)
    (so_files _ _ (lo_slot c HL i p Hp)) Hr s Hat) as ([] & s' & ls' & c' & Es & Hat' & -> & HO).
  destruct HO as (ie & e2 & q' & Q' & ps' & _ & -> & I' & Hpi & Hoth).
  exists p, s', (zombie_p ie status (closed_p p)). rewrite (at_core _ _ _ Hat'). simpl.
  split; [done|]. split; [done|]. split.
  { destruct HK as (m2 & s2 & E2 & I2). unfold mbind, M_bind in E2. rewrite Es in E2.
    by injection E2 as <- <-. }
  split_and!; try done. intros j q Hj Hq. rewrite (Hoth j Hj), Hq. simpl. f_equal.
  assert (Hlt : (j < Z.to_nat NPROC)%nat).
  { apply lookup_lt_Some in Hq. pose proof (si_len _ _ _ _ _ (oc_inv _ _ _ _ Hon)). lia. }
  assert (Hkids : existsb (child_of i) (take (Z.to_nat NPROC) (<[i := closed_p p]> (procs c))) =
                  existsb (child_of i) (procs c)).
  { rewrite take_ge by (rewrite length_insert; pose proof (si_len _ _ _ _ _ (oc_inv _ _ _ _ Hon)); lia).
    apply eq_iff_eq_true. rewrite !existsb_exists. split; intros (x & Hx & Hc);
      apply list_elem_of_In, list_elem_of_lookup in Hx as [k Hk].
    - rewrite list_lookup_insert in Hk. case_decide as Hd.
      + injection Hk as <-. exists p. split; [apply list_elem_of_In, list_elem_of_lookup; eauto|done].
      + exists x. split; [apply list_elem_of_In, list_elem_of_lookup; eauto|done].
    - destruct (decide (k = i)) as [->|Hne].
      + exists (closed_p p). split; [|by simplify_eq]. apply list_elem_of_In, list_elem_of_lookup.
        exists i. by eapply list_insert_some.
      + exists x. split; [|done]. apply list_elem_of_In, list_elem_of_lookup.
        exists k. by rewrite list_lookup_insert_ne. }
  unfold exit_p, reparent_p. unfold upd_p. simpl. rewrite Hkids, decide_True by done.
  rewrite (oc_cpu _ _ _ _ Hon). assert (Hcq : child_of i q = bool_decide (p_parent q = Some i)) by done.
  rewrite Hcq.
  set (orphans := existsb (child_of i) (procs c)).
  assert (Hme : bool_decide (Some j ≠ Some i) = true) by (rewrite bool_decide_true; [done|congruence]).
  unfold wake_p, sleeps_on. rewrite Hme. simpl.
  destruct (decide (p_parent q = Some i)) as [Hpar|Hpar];
    [rewrite (bool_decide_true (p_parent q = Some i)) by done|rewrite (bool_decide_false (p_parent q = Some i)) by done];
    destruct orphans; simpl; repeat (case_bool_decide; simpl); case_decide; naive_solver.
Qed.

(** C8: the effect of [wait], whole.  If the caller has a zombie child, the
    one with the lowest slot is taken: when an address is given, its exit status
    goes there by [copyout].  If that fails, [wait] returns -1 and the child stays
    as it was; otherwise [wait] returns the child's id, its memory is freed and its
    slot is UNUSED, as [freeproc] leaves it.  If the caller has no child, or is
    killed, [wait] returns -1 and changes nothing.  Otherwise it sleeps on its own
    slot, with [wait_lock] released.  No other slot changes. *)
Theorem wait_effect addr i (s : kst E) :
  sys_inv (Sys (InProc i []) s) → returns (CmdWait addr) s →
  let c := kc s in
  ∃ p r s', procs c !! i = Some p ∧ wait addr s = Ok (r, s') ∧
    sys_inv (Sys (after_wait i r) s') ∧
    ((∃ j q r1 e1, first_zombie i (procs c) j q ∧
        (if decide (addr = 0) then Ok (0, env c)
         else env_copyout (p_pagetable p) addr (le_bytes 4 (p_xstate q)) (env c)) = Ok (r1, e1) ∧
        if decide (r1 < 0) then r = WaitRet (-1) ∧ kc s' = set_env e1 c
        else r = WaitRet (p_pid q) ∧ ∃ e2, free_env q e1 = Ok (tt, e2) ∧
          kc s' = set_env e2 (set_procs (<[j := free_p q]> (procs c)) c)) ∨
     (no_zombie i (procs c) ∧ r = WaitRet (-1) ∧ kc s' = c ∧
        (p_killed p ≠ 0 ∨ ∀ j q, procs c !! j = Some q → p_parent q ≠ Some i)) ∨
     (no_zombie i (procs c) ∧ r = WaitBlocked ∧ p_killed p = 0 ∧
        (∃ j q, procs c !! j = Some q ∧ p_parent q = Some i) ∧
        ∃ p', kc s' = set_procs (<[i := p']> (procs c)) c ∧ p_state p' = SLEEPING ∧ p_chan p' = addr_proc E i)).
Proof.
  intros HI Hpre c0. pose proof (keeps_wait addr i s HI Hpre) as HK. subst c0.
  destruct HI as (c & Q & Hf & HL & p & Hat & Hon & Hok & Hnl). simpl in Hpre.
  rewrite (at_core _ _ _ Hat) in *. pose proof (oc_proc _ _ _ _ Hon) as Hp.
  pose proof (Hpre i p (oc_cpu _ _ _ _ Hon) Hp) as Hw.
  assert (HLd : leads [] (wait addr) c (λ v ls' c', wait_outcome i p addr c Q v ls' c' ∧ cinv c' Q)).
  { unfold wait. klead runs_acquire; [set_solver|]. by apply leads_wait_scan. }
  destruct (HLd s Hat) as (v & s' & ls' & c' & Es & Hat' & HO & I').
  exists p, v, s'. rewrite (at_core _ _ _ Hat'). split; [done|]. split; [done|]. split.
  { destruct HK as (m2 & s2 & E2 & I2). unfold mbind, M_bind in E2. rewrite Es in E2.
    by injection E2 as <- <-. }
  destruct HO as [j q r e' Hz Hr|Hn Hk|ie Hn Hk Hkill].
  - left. unfold reap_env in Hr. apply bind_Ok in Hr as (r1 & e1 & H1 & Hr). exists j, q, r1, e1.
    split; [done|]. split.
    { destruct (decide (addr = 0)) as [->|Ha]; [exact H1|]. by rewrite bool_decide_true in H1. }
    unfold reap_ret, reaped. case_decide as Hneg.
    + rewrite (bool_decide_true (r1 < 0)) in Hr by done. injection Hr as <- <-.
      by rewrite bool_decide_true by done.
    + rewrite (bool_decide_false (r1 < 0)) in Hr by done. apply bind_Ok in Hr as ([] & e2 & H2 & [= <- <-]).
      rewrite bool_decide_false by done. split; [done|]. by exists e2.
  - right. left. split_and!; [done..|]. destruct Hk as [Hk|Hk]; [right|by left].
    intros j q Hq Hpar. apply not_true_iff_false in Hk. apply Hk, existsb_exists. exists q.
    split; [apply list_elem_of_In, list_elem_of_lookup; eauto|]. unfold child_of. by apply bool_decide_eq_true.
  - right. right. split_and!; [done..| |].
    + apply existsb_exists in Hk as (q & Hq & Hc). apply list_elem_of_In, list_elem_of_lookup in Hq as [j Hj].
      exists j, q. split; [done|]. by apply bool_decide_eq_true in Hc.
    + exists (waiting_p i ie p). by split_and!.
Qed.

(** C12: [kill(0)] harms a process that does not exist yet.  Unused slots have
    process id 0, and [kill] does not look at the state: [kill(0)] succeeds,
    marks the first unused slot as killed, and the next [fork] that succeeds
    creates its child in that slot, killed from birth. *)
Theorem kill_zero_marks_child i j (s : kst E) :
  sys_inv (Sys (InProc i []) s) → first_unused (procs (kc s)) j →
  ∃ s1, kill 0 s = Ok (0, s1) ∧ p_killed <$> procs (kc s1) !! j = Some 1 ∧
    (returns CmdFork s1 →
     ∃ v s2, fork s1 = Ok (v, s2) ∧
       (v ≠ -1 → ∃ np, procs (kc s2) !! j = Some np ∧ p_pid np = v ∧ p_state np = RUNNABLE ∧ p_killed np = 1)).
Proof.
  intros HI Hfst. pose proof (keeps_kill 0 i [] s HI) as HK.
  destruct HI as (c & Q & Hf & HL & p & Hat & Hon & Hok & Hnl). rewrite (at_core _ _ _ Hat) in Hfst.
  pose proof Hfst as [(q & Hq & Hs) Hmin].
  assert (Hpid : p_pid q = 0) by (by destruct (so_unused _ _ (lo_slot c HL j q Hq) Hs) as (_ & _ & _ & ? & _)).
  destruct (runs_kill 0 [] c Q Hnl (oc_inv _ _ _ _ Hon)) as [[_ Hno]|(k & qk & q' & Hqk & Hpk & Hkmin & R & I')].
  { destruct (Hno j). by exists q. }
  assert (k = j) as ->.
  { destruct (decide (k < j)%nat) as [Hlt|Hge].
    - pose proof (Hmin k qk Hlt Hqk) as Hu. pose proof (so_pid _ _ (lo_slot c HL k qk Hqk) Hu). lia.
    - destruct (decide (j < k)%nat) as [Hlt|]; [|lia]. destruct (Hkmin j Hlt). by exists q. }
  assert (qk = q) as -> by congruence.
  destruct (R s Hat) as (s1 & E1 & Hat1). exists s1. split; [done|]. rewrite (at_core _ _ _ Hat1).
  assert (Hkp : kill_p q = set_p_killed 1 q) by (unfold kill_p; rewrite decide_False by congruence; done).
  assert (Hj1 : procs (kill_state j q q' c) !! j = Some (set_p_killed 1 q)).
  { unfold kill_state. simpl. rewrite <- Hkp. by eapply list_insert_some. }
  split; [by rewrite Hj1|]. intros [Hmax He]. rewrite (at_core _ _ _ Hat1) in Hmax, He.
  assert (HI1 : sys_inv (Sys (InProc i []) s1)).
  { destruct HK as (m2 & s2 & E2 & I2). unfold mbind, M_bind in E2. rewrite E1 in E2.
    by injection E2 as <- <-. }
  destruct HI1 as (c1 & Q1 & Hf1 & HL1 & p1 & Hat1' & Hon1 & _).
  pose proof (at_core _ _ _ Hat1') as Ec1. rewrite (at_core _ _ _ Hat1) in Ec1. subst c1.
  destruct (He i p1 (oc_cpu _ _ _ _ Hon1) (oc_proc _ _ _ _ Hon1)) as (r & e' & Hr).
  destruct (leads_fork i p1 _ Q1 r e' Hon1 HL1 Hr s1 Hat1) as (v & s2 & ls' & c' & Es & Hat' & -> & Q' & HO & _).
  exists v, s2. split; [done|]. intros Hv. rewrite (at_core _ _ _ Hat').
  destruct HO as [Hfull|j2 np0 np e2 Hj2 Hnp _ _|j2 np0 tf pt fs cwd e2 q2 np Hj2 Hnp He2 ->]; [done..|].
  assert (j2 = j) as ->.
  { destruct Hj2 as [(q3 & Hq3 & Hs3) Hmin3]. destruct (decide (j2 < j)%nat) as [Hlt|Hge].
    - destruct (Hmin j2 q3 Hlt); [|done]. unfold kill_state in Hq3. simpl in Hq3.
      by rewrite list_lookup_insert_ne in Hq3 by lia.
    - destruct (decide (j < j2)%nat) as [Hlt|]; [|lia]. by destruct (Hmin3 j _ Hlt Hj1). }
  assert (np0 = set_p_killed 1 q) as -> by congruence.
  eexists. split; [unfold forked, upd_p; simpl; by eapply list_insert_some|]. by split_and!.
Qed.
End claims.

(** ** The theorems on a family of processes

    Process 2 (slot 1) forks process 3 (slot 2) and waits; init (slot 0) runs,
    sleeps, the child runs and exits with status 3, the parent reaps it. *)
Definition family : list cmd :=
  [CmdDispatch; CmdFork; CmdWait 0; CmdReturn; CmdDispatch; CmdAcquire (LExt 0); CmdSleep 5; CmdReturn;
   CmdDispatch; CmdExit 3; CmdReturn; CmdDispatch; CmdWaitMore 0; CmdWait 0].

(** The parent sleeps while the child runs to its end, then waits. *)
Definition late_wait : list cmd :=
  [CmdDispatch; CmdFork; CmdAcquire (LExt 0); CmdSleep 9; CmdReturn; CmdDispatch; CmdAcquire (LExt 0);
   CmdSleep 5; CmdReturn; CmdDispatch; CmdWakeup 9; CmdExit 3; CmdReturn; CmdDispatch; CmdRelease (LExt 0)].

(** The processes that are not UNUSED: slot, state, id, parent. *)
Definition census (s : kst demo) : list (nat * procstate * Z * option nat) :=
  concat (imap (λ j p, if decide (p_state p = UNUSED) then [] else [(j, p_state p, p_pid p, p_parent p)])
            (procs (kc s))).

Example family_census :
  census (after family).2 = [(0%nat, SLEEPING, 1, None); (1%nat, RUNNING, 2, None)].
Proof. vm_compute. reflexivity. Qed.
Example family_zombie :
  census (after (take 11 family)).2 =
    [(0%nat, SLEEPING, 1, None); (1%nat, RUNNABLE, 2, None); (2%nat, ZOMBIE, 3, Some 1%nat)].
Proof. vm_compute. reflexivity. Qed.

Lemma fam_ok : goes family = true. Proof. vm_compute. reflexivity. Qed.
Lemma fam_view0 : pview (after family).2 0 = Some (SLEEPING, QUEUE_MEDIUM, 0, 0).
Proof. vm_compute. reflexivity. Qed.
Lemma fam_view1 : pview (after family).2 1 = Some (RUNNING, QUEUE_HIGH, 0, -15).
Proof. vm_compute. reflexivity. Qed.
Lemma fam1_ok : goes (take 1 family) = true. Proof. vm_compute. reflexivity. Qed.
Lemma fam1_mode : (after (take 1 family)).1 = InProc 1 []. Proof. vm_compute. reflexivity. Qed.
Lemma fam1_fork : cmd_preb CmdFork (after (take 1 family)).2 = true. Proof. vm_compute. reflexivity. Qed.
Lemma fam1_fork_ret : (match fork (after (take 1 family)).2 with Ok (v, _) => v | _ => 0 end) = 3.
Proof. vm_compute. reflexivity. Qed.
Lemma fam1_next : nextpid (kc (after (take 1 family)).2) = 3. Proof. vm_compute. reflexivity. Qed.
Lemma late_ok : goes late_wait = true. Proof. vm_compute. reflexivity. Qed.
Lemma late_mode : (after late_wait).1 = InProc 1 []. Proof. vm_compute. reflexivity. Qed.
Lemma late_pre : cmd_preb (CmdWait 64) (after late_wait).2 = true. Proof. vm_compute. reflexivity. Qed.
Lemma late_zombie :
  (λ q, (p_state q, p_parent q, p_pid q)) <$> procs (kc (after late_wait).2) !! 2%nat = Some (ZOMBIE, Some 1%nat, 3).
Proof. vm_compute. reflexivity. Qed.
Lemma late_early :
  forallb (λ k, bool_decide (p_state <$> procs (kc (after late_wait).2) !! k ≠ Some ZOMBIE)) [0%nat; 1%nat] = true.
Proof. vm_compute. reflexivity. Qed.
Lemma fam9_ok : goes (take 9 family) = true. Proof. vm_compute. reflexivity. Qed.
Lemma fam9_mode : (after (take 9 family)).1 = InProc 2 []. Proof. vm_compute. reflexivity. Qed.
Lemma fam9_exit : cmd_preb (CmdExit 3) (after (take 9 family)).2 = true. Proof. vm_compute. reflexivity. Qed.
Lemma fam9_init : initproc (kc (after (take 9 family)).2) = Some 0%nat. Proof. vm_compute. reflexivity. Qed.
Lemma fam1_unused : first_unused (procs (kc (after (take 1 family)).2)) 2.
Proof.
  assert (H : bool_decide (p_state <$> procs (kc (after (take 1 family)).2) !! 2%nat = Some UNUSED) &&
    forallb (λ k, bool_decide (p_state <$> procs (kc (after (take 1 family)).2) !! k ≠ Some UNUSED)) [0%nat; 1%nat] = true)
    by (vm_compute; reflexivity).
  apply andb_prop in H as [H1 H2]. apply bool_decide_eq_true in H1.
  apply fmap_Some in H1 as (p & Hp & Hs). split; [exists p; split; [exact Hp|symmetry; exact Hs]|].
  rewrite forallb_forall in H2. intros k q Hk Hq Hu.
  specialize (H2 k). assert (Hin : In k [0%nat; 1%nat]) by (destruct k as [|[|k]]; simpl; auto; lia).
  apply H2, bool_decide_eq_true in Hin. apply Hin. rewrite Hq. simpl. by rewrite Hu.
Qed.
#[local] Opaque after.
Lemma late_first j q : first_zombie 1 (procs (kc (after late_wait).2)) j q → j = 2%nat.
Proof.
  intros (Hq & [Hp Hz] & Hm). destruct (decide (2 < j)%nat) as [Hlt|Hge].
  - pose proof late_zombie as Hz2. destruct (procs (kc (after late_wait).2) !! 2%nat) as [q2|] eqn:E2; [|done].
    injection Hz2 as H1 H2 _. exfalso. apply (Hm 2%nat q2 Hlt E2). split; [exact H2|exact H1].
  - pose proof late_early as H. rewrite forallb_forall in H.
    destruct (decide (j = 2%nat)) as [|Hne]; [done|].
    assert (Hin : In j [0%nat; 1%nat]) by (destruct j as [|[|j]]; simpl; auto; lia).
    apply H, bool_decide_eq_true in Hin. rewrite Hq in Hin. simpl in Hin. congruence.
Qed.

Lemma pids_unique_witness :
  let s := (after family).2 in
  ∃ p q, procs (kc s) !! 0%nat = Some p ∧ procs (kc s) !! 1%nat = Some q ∧ p_pid p ≠ p_pid q.
Proof.
  destruct (pids_unique (Sys AtLoop st_two) (after family).1 (after family).2 st_two_inv
              (after_steps family fam_ok)) as [_ H].
  destruct (pview_is _ _ _ fam_view0) as [p Hp]. destruct (pview_is _ _ _ fam_view1) as [q Hq].
  destruct (pview_Some _ _ _ _ _ _ _ fam_view0 Hp) as [Sp _].
  destruct (pview_Some _ _ _ _ _ _ _ fam_view1 Hq) as [Sq _].
  exists p, q. split; [exact Hp|]. split; [exact Hq|].
  apply (H 0%nat 1%nat p q Hp Hq); [lia|congruence|congruence].
Defined.

Lemma fork_effect_witness :
  ∃ s', fork (after (take 1 family)).2 = Ok (3, s') ∧
    ∃ j np, procs (kc s') !! j = Some np ∧ p_pid np = 3 ∧ p_parent np = Some 1%nat.
Proof.
  destruct (fork_effect 1 (after (take 1 family)).2 (after_inv _ _ fam1_ok fam1_mode)
              (proj2 (cmd_preb_true _ _ fam1_fork))) as (p & v & s' & _ & Ef & _ & H).
  pose proof fam1_fork_ret as Hv. rewrite Ef in Hv. subst v. exists s'. split; [exact Ef|].
  destruct H as [[H _]|(j & q & r & e' & _ & Hq & _ & H)]; [discriminate H|].
  destruct r as [[[[tf pt] fs] cwd]|]; [|destruct H as [H _]; discriminate H].
  destruct H as (_ & np & Q & Q' & Hnp & _ & _ & Hpid & _ & Hpar & _).
  exists j, np. rewrite Hnp. split; [eapply list_insert_some; exact Hq|]. split; [exact Hpid|exact Hpar].
Defined.

Lemma exit_effect_witness :
  ∃ s' z, exit 3 (after (take 9 family)).2 = Ok (tt, s') ∧
    procs (kc s') !! 2%nat = Some z ∧ p_state z = ZOMBIE ∧ p_xstate z = 3.
Proof.
  destruct (exit_effect 3 2 (after (take 9 family)).2 (after_inv _ _ fam9_ok fam9_mode)) as [_ H].
  destruct (cmd_preb_true _ _ fam9_exit) as [_ Hret].
  destruct (H ltac:(rewrite fam9_init; discriminate) Hret) as (p & s' & z & _ & Ee & _ & Hz & Hs & Hx & _).
  exists s', z. split; [exact Ee|]. split; [exact Hz|]. split; [exact Hs|exact Hx].
Defined.

(** On the concrete machine [copyout] succeeds. *)
Lemma demo_copyout (addr : Z) pt a l (d e : demo) (r : Z) :
  (if decide (addr = 0) then Ok (0, d) else env_copyout pt a l d) = Ok (r, e) → r = 0.
Proof. destruct (decide (addr = 0)); intros H; injection H; auto. Qed.

Lemma wait_effect_witness :
  ∃ s', wait 64 (after late_wait).2 = Ok (WaitRet 3, s') ∧
    p_state <$> procs (kc s') !! 2%nat = Some UNUSED.
Proof.
  destruct (wait_effect 64 1 (after late_wait).2 (after_inv _ _ late_ok late_mode)
              (proj2 (cmd_preb_true _ _ late_pre))) as (p & r & s' & _ & Ew & _ & H).
  pose proof late_zombie as Hz.
  destruct (procs (kc (after late_wait).2) !! 2%nat) as [q2|] eqn:E2; [|discriminate Hz].
  injection Hz as H1 H2 H3.
  destruct H as [(j & q & r1 & e1 & Hf & Hc & H)|[(Hn & _)|(Hn & _)]];
    [|exfalso; apply (Hn 2%nat q2 E2); split; [exact H2|exact H1]
     |exfalso; apply (Hn 2%nat q2 E2); split; [exact H2|exact H1]].
  pose proof (late_first j q Hf) as ->. destruct Hf as (Hq & _).
  assert (q = q2) as -> by congruence.
  apply demo_copyout in Hc. subst r1.
  destruct H as (-> & e2 & _ & Hs'). exists s'. rewrite H3 in Ew. split; [exact Ew|].
  rewrite Hs'. cbn [procs set_env set_procs]. erewrite list_insert_some by exact E2. reflexivity.
Defined.

Lemma kill_zero_marks_child_witness :
  ∃ s1, kill 0 (after (take 1 family)).2 = Ok (0, s1) ∧ p_killed <$> procs (kc s1) !! 2%nat = Some 1.
Proof.
  destruct (kill_zero_marks_child 1 2 (after (take 1 family)).2 (after_inv _ _ fam1_ok fam1_mode) fam1_unused)
    as (s1 & E1 & H1 & _).
  exists s1. split; [exact E1|exact H1].
Defined.
