(* ===== verification/CString.v ===== *)
(** * Memory, and kernel/string.c

    [mem]: the bytes of memory by address; an access outside it is a fault.
    [char] is unsigned on RISC-V.  Loops that count down [n] recurse on it;
    [strlen], which runs to the end of the string, has fuel for every byte of
    the memory, and [strlen_total] shows that it never runs out. *)
From S2P Require Import Prelude.

Abbreviation mem := (gmap Z Z).

Definition ld (a : Z) : M mem Z := λ m,
  match m !! a with Some v => Ok (v, m) | None => Fault end.
Definition st (a v : Z) : M mem unit := λ m,
  match m !! a with Some _ => Ok (tt, <[a := v]> m) | None => Fault end.

(** ** kernel/string.c *)

Fixpoint memset_loop (cdst c i : Z) (k : nat) : M mem unit :=
  match k with
  | O => mret tt
  | S k => st (cdst + i) (u8 c) ;; memset_loop cdst c (i + 1) k
  end.
Definition memset (dst c n : Z) : M mem Z :=
  memset_loop dst c 0 (Z.to_nat n) ;; mret dst.

Fixpoint memcmp_loop (s1 s2 : Z) (k : nat) : M mem Z :=
  match k with
  | O => mret 0
  | S k =>
      x ← ld s1; y ← ld s2;
      if bool_decide (x ≠ y) then mret (x - y) else memcmp_loop (s1 + 1) (s2 + 1) k
  end.
Definition memcmp (v1 v2 n : Z) : M mem Z := memcmp_loop v1 v2 (Z.to_nat n).

Fixpoint copy_down (d s : Z) (k : nat) : M mem unit :=
  match k with
  | O => mret tt
  | S k => x ← ld (s - 1); st (d - 1) x ;; copy_down (d - 1) (s - 1) k
  end.
Fixpoint copy_up (d s : Z) (k : nat) : M mem unit :=
  match k with
  | O => mret tt
  | S k => x ← ld s; st d x ;; copy_up (d + 1) (s + 1) k
  end.
Definition memmove (dst src n : Z) : M mem Z :=
  if bool_decide (n = 0) then mret dst
  else
    (if bool_decide (src < dst) && bool_decide (src + n > dst)
     then copy_down (dst + n) (src + n) (Z.to_nat n)
     else copy_up dst src (Z.to_nat n)) ;;
    mret dst.

Definition memcpy (dst src n : Z) : M mem Z := memmove dst src n.

Fixpoint strncmp_loop (p q : Z) (k : nat) : M mem Z :=
  match k with
  | O => mret 0
  | S k' =>
      x ← ld p;
      if bool_decide (x ≠ 0) then
        y ← ld q;
        if bool_decide (x = y) then strncmp_loop (p + 1) (q + 1) k' else mret (x - y)
      else y ← ld q; mret (x - y)
  end.
Definition strncmp (p q n : Z) : M mem Z := strncmp_loop p q (Z.to_nat n).

(** [while(n-- > 0) *s++ = 0] *)
Fixpoint zero_rest (s : Z) (k : nat) : M mem unit :=
  match k with
  | O => mret tt
  | S k => st s 0 ;; zero_rest (s + 1) k
  end.
(** [k] is [n] before the test of the first loop.  When the copy stops at a NUL,
    the second loop has the remaining [k]; when [n] ran out, it is negative. *)
Fixpoint strncpy_loop (s t : Z) (k : nat) : M mem unit :=
  match k with
  | O => mret tt
  | S k =>
      c ← ld t; st s c ;;
      if bool_decide (c ≠ 0) then strncpy_loop (s + 1) (t + 1) k else zero_rest (s + 1) k
  end.
Definition strncpy (s t n : Z) : M mem Z := strncpy_loop s t (Z.to_nat n) ;; mret s.

(** The copy loop; [k] is [n - 1].  It returns where [s] points at its end. *)
Fixpoint safestrcpy_loop (s t : Z) (k : nat) : M mem Z :=
  match k with
  | O => mret s
  | S k =>
      c ← ld t; st s c ;;
      if bool_decide (c ≠ 0) then safestrcpy_loop (s + 1) (t + 1) k else mret (s + 1)
  end.
Definition safestrcpy (s t n : Z) : M mem Z :=
  if bool_decide (n <= 0) then mret s
  else e ← safestrcpy_loop s t (Z.to_nat (n - 1)); st e 0 ;; mret s.

Fixpoint strlen_loop (fuel : nat) (s n : Z) : M mem Z :=
  match fuel with
  | O => hang
  | S fuel => c ← ld (s + n); if bool_decide (c ≠ 0) then strlen_loop fuel s (n + 1) else mret n
  end.
Definition strlen (s : Z) : M mem Z := λ m, strlen_loop (S (size m)) s 0 m.

(** ** 64-bit words *)

Fixpoint ldn (n : nat) (a : Z) : M mem (list Z) :=
  match n with O => mret [] | S n => b ← ld a; l ← ldn n (a + 1); mret (b :: l) end.
Fixpoint stn (a : Z) (l : list Z) : M mem unit :=
  match l with [] => mret tt | b :: l => st a b ;; stn (a + 1) l end.
Definition ld64 (a : Z) : M mem Z := l ← ldn 8 a; mret (le_value l).
Definition st64 (a v : Z) : M mem unit := stn a (le_bytes 8 v).

(** ** What memory holds *)

(** [n] bytes from [a] on exist. *)
Definition mapped (m : mem) (a n : Z) : Prop := ∀ i, 0 ≤ i < n → is_Some (m !! (a + i)).
(** The bytes [l] are at [a]. *)
Definition bytes_at (m : mem) (a : Z) (l : list Z) : Prop :=
  ∀ i, (i < length l)%nat → m !! (a + Z.of_nat i) = l !! i.
(** The string [l] is at [a]. *)
Definition str_at (m : mem) (a : Z) (l : list Z) : Prop :=
  (∀ c, c ∈ l → c ≠ 0) ∧ bytes_at m a (l ++ [0]).

Lemma ld_ok m a v : m !! a = Some v → ld a m = Ok (v, m).
Proof. intros H. unfold ld. by rewrite H. Qed.
Lemma st_ok m a v : is_Some (m !! a) → st a v m = Ok (tt, <[a := v]> m).
Proof. intros [x H]. unfold st. by rewrite H. Qed.

Lemma mapped_insert m a n b v : mapped m a n → mapped (<[b := v]> m) a n.
Proof. intros H i Hi. rewrite lookup_insert_is_Some'. right. by apply H. Qed.

Lemma mapped_shrink m a n b k : mapped m a n → a ≤ b → b + k ≤ a + n → mapped m b k.
Proof. intros H Ha Hb i Hi. replace (b + i) with (a + (b - a + i)) by lia. apply H. lia. Qed.

Lemma mapped_at m a n x : mapped m a n → a ≤ x < a + n → is_Some (m !! x).
Proof. intros H Hx. replace x with (a + (x - a)) by lia. apply H. lia. Qed.

Ltac mem_step := erewrite bind_Ok_eq; [|first [by apply ld_ok|by apply st_ok]]; cbn beta.

(** ** [memset] *)

Lemma memset_loop_ok k m d c i :
  mapped m (d + i) (Z.of_nat k) →
  ∃ m', memset_loop d c i k m = Ok (tt, m') ∧
    ∀ a, m' !! a = if decide (d + i ≤ a < d + i + Z.of_nat k) then Some (u8 c) else m !! a.
Proof.
  revert m i. induction k as [|k IH]; intros m i Hm.
  - exists m. split; [done|]. intros a. by rewrite decide_False by lia.
  - destruct (IH (<[d + i := u8 c]> m) (i + 1)) as (m' & E & H).
    { apply mapped_insert. eapply mapped_shrink; [exact Hm|lia..]. }
    exists m'. split.
    { simpl. erewrite bind_Ok_eq by (apply st_ok; eapply mapped_at; [exact Hm|lia]). exact E. }
    intros a. rewrite H. destruct (decide (a = d + i)) as [->|Hne].
    + rewrite lookup_insert_eq. rewrite decide_False, decide_True by lia. done.
    + rewrite lookup_insert_ne by done.
      destruct (decide (d + (i + 1) ≤ a < d + (i + 1) + Z.of_nat k));
        [rewrite decide_True by lia|rewrite decide_False by lia]; done.
Qed.

(** [memset] fills its range, and touches nothing else. *)
Lemma memset_ok m d c n :
  0 ≤ n → mapped m d n →
  ∃ m', memset d c n m = Ok (d, m') ∧
    ∀ a, m' !! a = if decide (d ≤ a < d + n) then Some (u8 c) else m !! a.
Proof.
  intros Hn Hm. destruct (memset_loop_ok (Z.to_nat n) m d c 0) as (m' & E & H).
  { eapply mapped_shrink; [exact Hm|lia..]. }
  exists m'. split; [unfold memset; by erewrite bind_Ok_eq by exact E|].
  intros a. rewrite H. apply decide_ext. lia.
Qed.

(** ** [memmove] *)

Lemma copy_up_ok k m d s :
  mapped m d (Z.of_nat k) → mapped m s (Z.of_nat k) → d ≤ s ∨ s + Z.of_nat k ≤ d →
  ∃ m', copy_up d s k m = Ok (tt, m') ∧
    ∀ a, m' !! a = if decide (d ≤ a < d + Z.of_nat k) then m !! (s + (a - d)) else m !! a.
Proof.
  revert m d s. induction k as [|k IH]; intros m d s Hd Hs Hor.
  - exists m. split; [done|]. intros a. by rewrite decide_False by lia.
  - assert (is_Some (m !! s)) as [x Hx] by (eapply mapped_at; [exact Hs|lia]).
    destruct (IH (<[d := x]> m) (d + 1) (s + 1)) as (m' & E & H).
    { apply mapped_insert. eapply mapped_shrink; [exact Hd|lia..]. }
    { apply mapped_insert. eapply mapped_shrink; [exact Hs|lia..]. }
    { lia. }
    exists m'. split.
    { simpl. erewrite bind_Ok_eq by by apply ld_ok.
      erewrite bind_Ok_eq by (apply st_ok; eapply mapped_at; [exact Hd|lia]). exact E. }
    intros a. rewrite H. destruct (decide (a = d)) as [->|Hne].
    + rewrite lookup_insert_eq, decide_False, decide_True by lia.
      rewrite <- Hx. f_equal. lia.
    + destruct (decide (d + 1 ≤ a < d + 1 + Z.of_nat k)) as [Hin|Hout].
      * rewrite decide_True by lia. rewrite lookup_insert_ne by lia. f_equal. lia.
      * rewrite decide_False by lia. by rewrite lookup_insert_ne.
Qed.

Lemma copy_down_ok k m d s :
  mapped m (d - Z.of_nat k) (Z.of_nat k) → mapped m (s - Z.of_nat k) (Z.of_nat k) →
  s ≤ d ∨ d ≤ s - Z.of_nat k →
  ∃ m', copy_down d s k m = Ok (tt, m') ∧
    ∀ a, m' !! a = if decide (d - Z.of_nat k ≤ a < d) then m !! (s + (a - d)) else m !! a.
Proof.
  revert m d s. induction k as [|k IH]; intros m d s Hd Hs Hor.
  - exists m. split; [done|]. intros a. by rewrite decide_False by lia.
  - assert (is_Some (m !! (s - 1))) as [x Hx] by (eapply mapped_at; [exact Hs|lia]).
    destruct (IH (<[d - 1 := x]> m) (d - 1) (s - 1)) as (m' & E & H).
    { apply mapped_insert. eapply mapped_shrink; [exact Hd|lia..]. }
    { apply mapped_insert. eapply mapped_shrink; [exact Hs|lia..]. }
    { lia. }
    exists m'. split.
    { simpl. erewrite bind_Ok_eq by by apply ld_ok.
      erewrite bind_Ok_eq by (apply st_ok; eapply mapped_at; [exact Hd|lia]). exact E. }
    intros a. rewrite H. destruct (decide (a = d - 1)) as [->|Hne].
    + rewrite lookup_insert_eq, decide_False, decide_True by lia.
      rewrite <- Hx. f_equal. lia.
    + destruct (decide (d - 1 - Z.of_nat k ≤ a < d - 1)) as [Hin|Hout].
      * rewrite decide_True by lia. rewrite lookup_insert_ne by lia. f_equal. lia.
      * rewrite decide_False by lia. by rewrite lookup_insert_ne.
Qed.

(** The contract of a copy: the bytes of the source as they were before. *)
Definition copied (d s n : Z) (m m' : mem) : Prop :=
  ∀ a, m' !! a = if decide (d ≤ a < d + n) then m !! (s + (a - d)) else m !! a.

Lemma memmove_ok m d s n :
  0 ≤ n → mapped m d n → mapped m s n →
  ∃ m', memmove d s n m = Ok (d, m') ∧ copied d s n m m'.
Proof.
  intros Hn Hd Hs. unfold memmove, copied. case_bool_decide as H0.
  - exists m. split; [done|]. intros a. by rewrite decide_False by lia.
  - destruct (bool_decide (s < d) && bool_decide (s + n > d)) eqn:Hov.
    + apply andb_prop in Hov as [Ho1%bool_decide_eq_true Ho2%bool_decide_eq_true].
      destruct (copy_down_ok (Z.to_nat n) m (d + n) (s + n)) as (m' & E & H).
      { eapply mapped_shrink; [exact Hd|lia..]. }
      { eapply mapped_shrink; [exact Hs|lia..]. }
      { lia. }
      exists m'. split; [by erewrite bind_Ok_eq by exact E|]. intros a. rewrite H.
      destruct (decide (d + n - Z.of_nat (Z.to_nat n) ≤ a < d + n));
        [rewrite decide_True by lia; f_equal; lia|by rewrite decide_False by lia].
    + apply andb_false_iff in Hov. rewrite !bool_decide_eq_false in Hov.
      destruct (copy_up_ok (Z.to_nat n) m d s) as (m' & E & H).
      { eapply mapped_shrink; [exact Hd|lia..]. }
      { eapply mapped_shrink; [exact Hs|lia..]. }
      { lia. }
      exists m'. split; [by erewrite bind_Ok_eq by exact E|]. intros a. rewrite H.
      destruct (decide (d ≤ a < d + Z.of_nat (Z.to_nat n)));
        [rewrite decide_True by lia; f_equal; lia|by rewrite decide_False by lia].
Qed.

(** ** Strings *)

(** Distinct mapped addresses are at most as many as the bytes of memory. *)
Lemma mapped_size m a n : 0 ≤ n → mapped m a n → n ≤ Z.of_nat (size m).
Proof.
  intros Hn Hm. set (l := (λ i, a + Z.of_nat i) <$> seq 0 (Z.to_nat n)).
  assert (Hnd : NoDup l) by (apply NoDup_fmap_2; [intros x y; lia|apply NoDup_seq]).
  assert (Hsub : list_to_set l ⊆@{gset Z} dom m).
  { intros x Hx%elem_of_list_to_set. apply list_elem_of_fmap in Hx as (i & -> & Hi%elem_of_seq).
    apply elem_of_dom. eapply mapped_at; [exact Hm|lia]. }
  apply subseteq_size in Hsub. rewrite size_list_to_set, size_dom in Hsub by done.
  unfold l in Hsub. rewrite length_fmap, length_seq in Hsub. lia.
Qed.

Lemma bytes_mapped m a l : bytes_at m a l → mapped m a (Z.of_nat (length l)).
Proof.
  intros H i Hi. replace (a + i) with (a + Z.of_nat (Z.to_nat i)) by lia. rewrite H by lia.
  apply lookup_lt_is_Some_2. lia.
Qed.

Lemma bytes_cons m a x l : bytes_at m a (x :: l) ↔ m !! a = Some x ∧ bytes_at m (a + 1) l.
Proof.
  split.
  - intros H. split.
    + specialize (H 0%nat). rewrite Z.add_0_r in H. apply H. simpl. lia.
    + intros i Hi. specialize (H (S i)). replace (a + 1 + Z.of_nat i) with (a + Z.of_nat (S i)) by lia.
      rewrite H by (simpl; lia). done.
  - intros [H1 H2] [|i] Hi; [by rewrite Z.add_0_r|].
    replace (a + Z.of_nat (S i)) with (a + 1 + Z.of_nat i) by lia. simpl. apply H2. simpl in Hi. lia.
Qed.

Lemma str_cons m a x l : str_at m a (x :: l) ↔ m !! a = Some x ∧ x ≠ 0 ∧ str_at m (a + 1) l.
Proof.
  unfold str_at. simpl. rewrite bytes_cons. split.
  - intros (H1 & H2 & H3). split_and!; try done; [apply H1; set_solver|]. intros c Hc. apply H1. set_solver.
  - intros (H1 & H2 & H3 & H4). split; [|done]. intros c [->|Hc]%elem_of_cons; [done|by apply H3].
Qed.
Lemma str_nil m a : str_at m a [] ↔ m !! a = Some 0.
Proof.
  unfold str_at. simpl. rewrite bytes_cons. split; [tauto|]. intros H. split_and!; [|done|].
  - intros c Hc. by apply elem_of_nil in Hc.
  - intros i Hi. simpl in Hi. lia.
Qed.

Lemma strlen_loop_ok fuel m s n l :
  str_at m (s + n) l → (length l < fuel)%nat → strlen_loop fuel s n m = Ok (n + Z.of_nat (length l), m).
Proof.
  revert n l. induction fuel as [|fuel IH]; intros n l Hs Hf; [lia|]. destruct l as [|c l]; simpl.
  - apply str_nil in Hs. rewrite (bind_Ok_eq _ _ _ _ _ (ld_ok _ _ _ Hs)). simpl.
    unfold mret, M_ret. do 2 f_equal. lia.
  - apply str_cons in Hs as (H1 & H2 & H3). rewrite (bind_Ok_eq _ _ _ _ _ (ld_ok _ _ _ H1)).
    rewrite bool_decide_true by done. rewrite (IH (n + 1) l); [|by replace (s + (n + 1)) with (s + n + 1) by lia|].
    + do 2 f_equal. lia.
    + simpl in Hf. lia.
Qed.

(** [strlen] is the length, and the fuel is enough. *)
Lemma strlen_ok m s l : str_at m s l → strlen s m = Ok (Z.of_nat (length l), m).
Proof.
  intros Hs. unfold strlen. rewrite (strlen_loop_ok _ _ _ 0 l); [done|by rewrite Z.add_0_r|].
  destruct Hs as [_ Hb]. apply bytes_mapped, mapped_size in Hb; [|lia].
  rewrite length_app in Hb. simpl in Hb. lia.
Qed.

Lemma str_at_frame m m' a l :
  str_at m a l → (∀ x, a ≤ x ≤ a + Z.of_nat (length l) → m' !! x = m !! x) → str_at m' a l.
Proof.
  intros [H1 H2] Hf. split; [done|]. intros i Hi. rewrite Hf; [by apply H2|].
  rewrite length_app in Hi. simpl in Hi. lia.
Qed.

(** What a bounded copy of the string [l] leaves at [s]: a prefix that leaves
    room for the NUL. *)
Lemma safestrcpy_loop_ok k m s t l :
  str_at m t l → mapped m s (Z.of_nat k + 1) →
  s + Z.of_nat k < t ∨ t + Z.of_nat (length l) < s →
  ∃ e m', safestrcpy_loop s t k m = Ok (e, m') ∧
    (e = s + Z.of_nat (length (take k l)) ∨
     e = s + Z.of_nat (length l) + 1 ∧ (length l < k)%nat ∧ m' !! (s + Z.of_nat (length l)) = Some 0) ∧
    bytes_at m' s (take k l) ∧ mapped m' s (Z.of_nat k + 1) ∧
    (∀ x, x < s ∨ e ≤ x → m' !! x = m !! x).
Proof.
  revert m s t l. induction k as [|k IH]; intros m s t l Hs Hm Hor.
  - exists s, m. split; [done|]. split; [left; simpl; lia|]. split; [intros i Hi; simpl in Hi; lia|]. done.
  - assert (Hms : is_Some (m !! s)) by (eapply mapped_at; [exact Hm|lia]).
    destruct l as [|c l].
    + apply str_nil in Hs. exists (s + 1), (<[s := 0]> m). split.
      { simpl. rewrite (bind_Ok_eq _ _ _ _ _ (ld_ok _ _ _ Hs)).
        by rewrite (bind_Ok_eq _ _ _ _ _ (st_ok m s 0 Hms)). }
      split; [right; simpl; split_and!; [lia|lia|]; by rewrite Z.add_0_r, lookup_insert_eq|].
      split; [intros i Hi; simpl in Hi; lia|]. split; [by apply mapped_insert|].
      intros x Hx. apply lookup_insert_ne. lia.
    + apply str_cons in Hs as (H1 & H2 & H3).
      destruct (IH (<[s := c]> m) (s + 1) (t + 1) l) as (e & m' & E & He & Hb & Hm' & Hf).
      { eapply str_at_frame; [exact H3|]. intros x Hx. apply lookup_insert_ne. simpl in Hor. lia. }
      { apply mapped_insert. eapply mapped_shrink; [exact Hm|lia..]. }
      { simpl in Hor. lia. }
      assert (Hse : m' !! s = Some c) by (rewrite Hf by lia; apply lookup_insert_eq).
      exists e, m'. split.
      { simpl. rewrite (bind_Ok_eq _ _ _ _ _ (ld_ok _ _ _ H1)).
        rewrite (bind_Ok_eq _ _ _ _ _ (st_ok m s c Hms)). by rewrite bool_decide_true. }
      split; [|split; [|split]].
      * destruct He as [->|(-> & Hl & H0)]; [left; simpl; lia|right; simpl; split_and!; [lia|lia|]].
        by replace (s + Z.of_nat (S (length l))) with (s + 1 + Z.of_nat (length l)) by lia.
      * simpl. by rewrite bytes_cons.
      * intros i Hi. destruct (decide (i = 0)) as [->|]; [rewrite Z.add_0_r; eauto|].
        replace (s + i) with (s + 1 + (i - 1)) by lia. apply Hm'. lia.
      * intros x Hx. rewrite Hf by lia. apply lookup_insert_ne.
        destruct He as [->|(-> & _)]; lia.
Qed.

Lemma safestrcpy_ok m s t l n :
  str_at m t l → 0 < n → mapped m s n → s + n ≤ t ∨ t + Z.of_nat (length l) < s →
  ∃ m', safestrcpy s t n m = Ok (s, m') ∧ str_at m' s (take (Z.to_nat (n - 1)) l) ∧
    ∀ x, x < s ∨ s + n ≤ x → m' !! x = m !! x.
Proof.
  intros Hs Hn Hm Hor. set (k := Z.to_nat (n - 1)).
  destruct (safestrcpy_loop_ok k m s t l Hs) as (e & m' & E & He & Hb & Hm' & Hf).
  { eapply mapped_shrink; [exact Hm|lia..]. }
  { lia. }
  assert (Hlen : (length (take k l) ≤ k)%nat) by (rewrite length_take; lia).
  assert (Hse : s ≤ e ≤ s + Z.of_nat k) by (destruct He as [->|(-> & ? & _)]; lia).
  exists (<[e := 0]> m'). split.
  { unfold safestrcpy. rewrite bool_decide_false by lia. fold k.
    rewrite (bind_Ok_eq _ _ _ _ _ E).
    rewrite (bind_Ok_eq _ _ _ tt (<[e := 0]> m')); [done|]. apply st_ok.
    eapply mapped_at; [exact Hm'|lia]. }
  split; [split|].
  - intros c Hc. apply Hs. rewrite <- (take_drop k l). apply elem_of_app. by left.
  - intros i Hi. rewrite length_app in Hi. simpl in Hi.
    destruct (decide (i < length (take k l))%nat) as [Hlt|Hge].
    + rewrite lookup_app_l by done. rewrite lookup_insert_ne; [by apply Hb|].
      destruct He as [->|(-> & ? & _)]; [lia|]. rewrite length_take in Hlt. lia.
    + assert (i = length (take k l)) as -> by lia.
      rewrite lookup_app_r, Nat.sub_diag by lia. simpl.
      destruct He as [->|(-> & Hl & H0)]; [apply lookup_insert_eq|].
      rewrite take_ge by lia. rewrite lookup_insert_ne by lia. done.
  - intros x Hx. rewrite lookup_insert_ne by lia. apply Hf. lia.
Qed.

(** ** Words *)

Lemma ldn_ok n m a l : bytes_at m a l → length l = n → ldn n a m = Ok (l, m).
Proof.
  revert a l. induction n as [|n IH]; intros a [|b l] Hb Hn; try done.
  apply bytes_cons in Hb as [H1 H2]. simpl.
  rewrite (bind_Ok_eq _ _ _ _ _ (ld_ok _ _ _ H1)).
  rewrite (bind_Ok_eq _ _ _ _ _ (IH _ _ H2 ltac:(by injection Hn))). done.
Qed.

Lemma stn_ok m a l :
  mapped m a (Z.of_nat (length l)) →
  ∃ m', stn a l m = Ok (tt, m') ∧ bytes_at m' a l ∧
    ∀ x, x < a ∨ a + Z.of_nat (length l) ≤ x → m' !! x = m !! x.
Proof.
  revert m a. induction l as [|b l IH]; intros m a Hm; simpl in *.
  - exists m. split; [done|]. split; [intros i Hi; simpl in Hi; lia|done].
  - destruct (IH (<[a := b]> m) (a + 1)) as (m' & E & Hb & Hf).
    { apply mapped_insert. eapply mapped_shrink; [exact Hm|lia..]. }
    exists m'. split; [|split].
    + erewrite bind_Ok_eq by (apply st_ok; eapply mapped_at; [exact Hm|lia]). exact E.
    + apply bytes_cons. split; [|done]. rewrite Hf by lia. apply lookup_insert_eq.
    + intros x Hx. rewrite Hf by lia. apply lookup_insert_ne. lia.
Qed.

(** The word [v] is at [a]. *)
Definition word_at (m : mem) (a v : Z) : Prop := bytes_at m a (le_bytes 8 v).

Lemma ld64_ok m a v : word_at m a v → 0 ≤ v < 2 ^ 64 → ld64 a m = Ok (v, m).
Proof.
  intros Hw Hv. unfold ld64. rewrite (bind_Ok_eq _ _ _ _ _ (ldn_ok 8 _ _ _ Hw (length_le_bytes _ _))).
  unfold mret, M_ret. by rewrite le_value_bytes.
Qed.

Lemma st64_ok m a v :
  mapped m a 8 →
  ∃ m', st64 a v m = Ok (tt, m') ∧ word_at m' a v ∧ ∀ x, x < a ∨ a + 8 ≤ x → m' !! x = m !! x.
Proof.
  intros Hm. destruct (stn_ok m a (le_bytes 8 v)) as (m' & E & H1 & H2); rewrite ?length_le_bytes in *; [done|].
  by exists m'.
Qed.

Lemma word_at_frame m m' a v :
  word_at m a v → (∀ x, a ≤ x < a + 8 → m' !! x = m !! x) → word_at m' a v.
Proof.
  intros H Hf i Hi. rewrite Hf; [by apply H|]. rewrite length_le_bytes in Hi. lia.
Qed.

Lemma mapped_frame m m' a n : mapped m a n → (∀ x, is_Some (m !! x) → is_Some (m' !! x)) → mapped m' a n.
Proof. intros H Hf i Hi. by apply Hf, H. Qed.
