(* ===== verification/Ulib.v ===== *)
(** * The user library: user/ulib.c

    The string functions on the same memory as CString.v, [atoi], [gets] and
    [stat].  The system calls of [gets] and [stat] are parameters. *)
From S2P Require Import Prelude CString.

(** The loops that run to a NUL get the number of bytes of the memory as fuel. *)
Definition fueled {A} (f : nat → M mem A) : M mem A := λ m, f (S (size m)) m.

Fixpoint strcpy_loop (fuel : nat) (s t : Z) : M mem unit :=
  match fuel with
  | O => hang
  | S fuel =>
      c ← ld t; st s c ;;
      if bool_decide (c ≠ 0) then strcpy_loop fuel (s + 1) (t + 1) else mret tt
  end.
Definition strcpy (s t : Z) : M mem Z := fueled (λ f, strcpy_loop f s t) ;; mret s.

Fixpoint strcmp_loop (fuel : nat) (p q : Z) : M mem Z :=
  match fuel with
  | O => hang
  | S fuel =>
      x ← ld p; y ← ld q;
      if bool_decide (x ≠ 0) && bool_decide (x = y) then strcmp_loop fuel (p + 1) (q + 1)
      else mret (x - y)
  end.
Definition strcmp (p q : Z) : M mem Z := fueled (λ f, strcmp_loop f p q).

(** The same text as in kernel/string.c. *)
Definition strlen (s : Z) : M mem Z := CString.strlen s.
Definition memset (dst c n : Z) : M mem Z := CString.memset dst c n.

Fixpoint strchr_loop (fuel : nat) (s c : Z) : M mem Z :=
  match fuel with
  | O => hang
  | S fuel =>
      x ← ld s;
      if bool_decide (x = 0) then mret 0
      else if bool_decide (x = c) then mret s else strchr_loop fuel (s + 1) c
  end.
Definition strchr (s c : Z) : M mem Z := fueled (λ f, strchr_loop f s c).

(** [n = n*10 + *s++ - '0'] on an [int]. *)
Fixpoint atoi_loop (fuel : nat) (s n : Z) : M mem Z :=
  match fuel with
  | O => hang
  | S fuel =>
      c ← ld s;
      if bool_decide (48 ≤ c) && bool_decide (c ≤ 57) then atoi_loop fuel (s + 1) (i32 (n * 10 + c - 48))
      else mret n
  end.
Definition atoi (s : Z) : M mem Z := fueled (λ f, atoi_loop f s 0).

Definition memmove (vdst vsrc n : Z) : M mem Z :=
  (if bool_decide (vsrc > vdst) then copy_up vdst vsrc (Z.to_nat n)
   else copy_down (vdst + n) (vsrc + n) (Z.to_nat n)) ;;
  mret vdst.

Definition memcmp (s1 s2 n : Z) : M mem Z := memcmp_loop s1 s2 (Z.to_nat n).
Definition memcpy (dst src n : Z) : M mem Z := memmove dst src n.

(** [gets] and [stat] over a program state [W] that contains the memory. *)
Section calls.
Context {W : Type} (inmem : ∀ A, M mem A → M W A).
(** [read(0, &c, 1)]: the result and the byte. *)
Context (read1 : M W (Z * Z)).
Context (open : Z → Z → M W Z) (fstat : Z → Z → M W Z) (close : Z → M W Z).

Fixpoint gets_loop (k : nat) (buf i : Z) : M W Z :=
  match k with
  | O => mret i
  | S k =>
      '(cc, c) ← read1;
      if bool_decide (cc < 1) then mret i
      else
        inmem _ (st (buf + i) c) ;;
        if bool_decide (c = 10) || bool_decide (c = 13) then mret (i + 1)
        else gets_loop k buf (i + 1)
  end.
(** [i + 1 < max] allows [max - 1] rounds. *)
Definition gets (buf max : Z) : M W Z :=
  i ← gets_loop (Z.to_nat (max - 1)) buf 0;
  inmem _ (st (buf + i) 0) ;; mret buf.

Definition O_RDONLY : Z := 0.
Definition stat (n s : Z) : M W Z :=
  fd ← open n O_RDONLY;
  if bool_decide (fd < 0) then mret (-1)
  else r ← fstat fd s; close fd ;; mret r.
End calls.

(** ** Copies *)

Lemma umemmove_ok m d s n :
  0 ≤ n → mapped m d n → mapped m s n →
  ∃ m', memmove d s n m = Ok (d, m') ∧ copied d s n m m'.
Proof.
  intros Hn Hd Hs. unfold memmove, copied. case_bool_decide as Hlt.
  - destruct (copy_up_ok (Z.to_nat n) m d s) as (m' & E & H).
    { eapply mapped_shrink; [exact Hd|lia..]. }
    { eapply mapped_shrink; [exact Hs|lia..]. }
    { lia. }
    exists m'. split; [by erewrite bind_Ok_eq by exact E|]. intros a. rewrite H.
    destruct (decide (d ≤ a < d + Z.of_nat (Z.to_nat n)));
      [rewrite decide_True by lia; done|by rewrite decide_False by lia].
  - destruct (copy_down_ok (Z.to_nat n) m (d + n) (s + n)) as (m' & E & H).
    { eapply mapped_shrink; [exact Hd|lia..]. }
    { eapply mapped_shrink; [exact Hs|lia..]. }
    { lia. }
    exists m'. split; [by erewrite bind_Ok_eq by exact E|]. intros a. rewrite H.
    destruct (decide (d + n - Z.of_nat (Z.to_nat n) ≤ a < d + n));
      [rewrite decide_True by lia; f_equal; lia|by rewrite decide_False by lia].
Qed.

(** Both copies survive overlap.  For any two mapped ranges, whatever their
    overlap, [memmove] of the kernel and [memmove] of the user library (which
    choose the direction differently) end with the destination holding the
    bytes that the source held before, and every other byte unchanged. *)
Theorem memmove_overlap m d s n :
  0 ≤ n → mapped m d n → mapped m s n →
  ∃ m1 m2, CString.memmove d s n m = Ok (d, m1) ∧ memmove d s n m = Ok (d, m2) ∧
    copied d s n m m1 ∧ m2 = m1.
Proof.
  intros Hn Hd Hs. destruct (memmove_ok m d s n Hn Hd Hs) as (m1 & E1 & H1).
  destruct (umemmove_ok m d s n Hn Hd Hs) as (m2 & E2 & H2).
  exists m1, m2. split_and!; [done..|]. apply map_eq. intros a. by rewrite H1, H2.
Qed.

(** ** Strings *)

(** The comparison on the contents. *)
Fixpoint cmp_spec (l1 l2 : list Z) : Z :=
  match l1, l2 with
  | [], [] => 0
  | [], y :: _ => - y
  | x :: _, [] => x
  | x :: l1', y :: l2' => if decide (x = y) then cmp_spec l1' l2' else x - y
  end.

Lemma cmp_spec_eq l1 l2 :
  (∀ c, c ∈ l1 → c ≠ 0) → (∀ c, c ∈ l2 → c ≠ 0) → cmp_spec l1 l2 = 0 ↔ l1 = l2.
Proof.
  revert l2. induction l1 as [|x l1 IH]; intros [|y l2] H1 H2; simpl; try done.
  - assert (y ≠ 0) by (apply H2; set_solver). split; [lia|done].
  - assert (x ≠ 0) by (apply H1; set_solver). split; [lia|done].
  - case_decide as Hxy; [|split; [lia|congruence]]. subst. rewrite IH by set_solver. naive_solver.
Qed.

Lemma strcmp_loop_ok fuel m p q l1 l2 :
  str_at m p l1 → str_at m q l2 → (length l1 < fuel)%nat →
  strcmp_loop fuel p q m = Ok (cmp_spec l1 l2, m).
Proof.
  revert p q l1 l2. induction fuel as [|fuel IH]; intros p q l1 l2 H1 H2 Hf; [lia|].
  assert (Hhd : ∀ a l, str_at m a l → m !! a = Some (hd 0 l)).
  { intros a [|x l] H; [by apply str_nil in H|by apply str_cons in H as [H _]]. }
  simpl. rewrite (bind_Ok_eq _ _ _ _ _ (ld_ok _ _ _ (Hhd _ _ H1))).
  rewrite (bind_Ok_eq _ _ _ _ _ (ld_ok _ _ _ (Hhd _ _ H2))).
  destruct l1 as [|x l1]; simpl in *.
  - destruct l2; done.
  - apply str_cons in H1 as (_ & Hx & H1). rewrite bool_decide_true by done. simpl.
    destruct l2 as [|y l2]; simpl.
    + rewrite bool_decide_false by done. unfold mret, M_ret. do 2 f_equal. lia.
    + apply str_cons in H2 as (_ & Hy & H2). case_bool_decide as Hxy.
      * subst. rewrite decide_True by done. apply IH; [done..|lia].
      * by rewrite decide_False.
Qed.

Lemma strcmp_ok m p q l1 l2 :
  str_at m p l1 → str_at m q l2 → strcmp p q m = Ok (cmp_spec l1 l2, m).
Proof.
  intros H1 H2. apply strcmp_loop_ok; [done..|].
  destruct H1 as [_ Hb]. apply bytes_mapped, mapped_size in Hb; [|lia].
  rewrite length_app in Hb. simpl in Hb. lia.
Qed.

(** The string functions on the strings [l1] and [l2].  [strlen] is the
    length; [strcmp] is 0 exactly for equal strings; [safestrcpy] into [n] bytes
    leaves the first [n - 1] bytes, terminated, and writes nowhere else.  All of
    them return: the fuel of their loops is enough. *)
Theorem string_functions m p q l1 l2 s n :
  str_at m p l1 → str_at m q l2 → 0 < n → mapped m s n →
  s + n ≤ p ∨ p + Z.of_nat (length l1) < s →
  CString.strlen p m = Ok (Z.of_nat (length l1), m) ∧
  (∃ r, strcmp p q m = Ok (r, m) ∧ (r = 0 ↔ l1 = l2)) ∧
  (∃ m', safestrcpy s p n m = Ok (s, m') ∧ str_at m' s (take (Z.to_nat (n - 1)) l1) ∧
     ∀ x, x < s ∨ s + n ≤ x → m' !! x = m !! x).
Proof.
  intros H1 H2 Hn Hm Hor. split; [by apply strlen_ok|]. split.
  - exists (cmp_spec l1 l2). split; [by apply strcmp_ok|].
    apply cmp_spec_eq; [apply H1|apply H2].
  - by apply (safestrcpy_ok m s p l1 n).
Qed.

(** A small memory: "abc" at 100, "abd" at 110, free space at 120. *)
Definition demo_mem : mem :=
  list_to_map (imap (λ i c, (100 + Z.of_nat i, c))
    [97; 98; 99; 0; 1; 1; 1; 1; 1; 1; 97; 98; 100; 0; 1; 1; 1; 1; 1; 1; 2; 2; 2; 2; 2; 2; 2; 2]).

Lemma mapped_dec m a n : bool_decide (Forall (λ i, is_Some (m !! (a + Z.of_nat i))) (seq 0 (Z.to_nat n))) = true → mapped m a n.
Proof.
  intros H%bool_decide_eq_true i Hi. rewrite Forall_forall in H.
  replace (a + i) with (a + Z.of_nat (Z.to_nat i)) by lia. apply H. apply elem_of_seq. lia.
Qed.

Lemma memmove_overlap_witness :
  mapped demo_mem 101 8 ∧ ∃ m1, CString.memmove 101 100 8 demo_mem = Ok (101, m1) ∧ m1 !! 101 = Some 97.
Proof.
  assert (Hd : mapped demo_mem 101 8) by (apply mapped_dec; vm_compute; reflexivity).
  assert (Hs : mapped demo_mem 100 8) by (apply mapped_dec; vm_compute; reflexivity).
  split; [exact Hd|].
  destruct (memmove_overlap demo_mem 101 100 8) as (m1 & m2 & E1 & _ & H & _); [lia|exact Hd|exact Hs|].
  exists m1. split; [exact E1|]. rewrite H. vm_compute. reflexivity.
Defined.

Lemma str_at_dec m a l :
  bool_decide (Forall (λ c, c ≠ 0) l) && bool_decide (Forall (λ i, m !! (a + Z.of_nat i) = (l ++ [0]) !! i) (seq 0 (S (length l)))) = true →
  str_at m a l.
Proof.
  intros [H1%bool_decide_eq_true H2%bool_decide_eq_true]%andb_prop. pose proof (proj1 (Forall_forall _ _) H1) as K1. pose proof (proj1 (Forall_forall _ _) H2) as K2.
  split; [exact K1|]. intros i Hi. apply K2, elem_of_seq. rewrite length_app in Hi. simpl in Hi. lia.
Qed.

Lemma string_functions_witness :
  CString.strlen 100 demo_mem = Ok (3, demo_mem) ∧
  (∃ r, strcmp 100 110 demo_mem = Ok (r, demo_mem) ∧ r ≠ 0) ∧
  ∃ m', safestrcpy 120 100 3 demo_mem = Ok (120, m') ∧ str_at m' 120 [97; 98].
Proof.
  destruct (string_functions demo_mem 100 110 [97; 98; 99] [97; 98; 100] 120 3)
    as (H1 & (r & H2 & H2') & (m' & H3 & H4 & _)).
  - apply str_at_dec. vm_compute. reflexivity.
  - apply str_at_dec. vm_compute. reflexivity.
  - lia.
  - apply mapped_dec. vm_compute. reflexivity.
  - right. simpl. lia.
  - split; [exact H1|]. split.
    + exists r. split; [exact H2|]. rewrite H2'. discriminate.
    + exists m'. split; [exact H3|exact H4].
Defined.
