(* ===== verification/Kalloc.v ===== *)
(** * The page allocator: kernel/kalloc.c

    The state is the free list's head, the memory, and the lock with the hart.
    A free page holds the address of the next one in its first word.  [alloc_rep]
    relates it to the list of free pages; [end_] is the end of the kernel image,
    which the linker chooses. *)
From S2P Require Import Prelude Layout Spinlock CString.

(** [kmem], the memory and the hart. *)
Record kmem := mkkmem { k_lock : spinlock; freelist : Z; phys : mem; k_hart : hart }.
Definition set_freelist (v : Z) (s : kmem) : kmem := mkkmem (k_lock s) v (phys s) (k_hart s).
Definition set_phys (v : mem) (s : kmem) : kmem := mkkmem (k_lock s) (freelist s) v (k_hart s).

#[global] Instance kmem_locks : HasLocks kmem unit := {
  get_hart := k_hart;
  set_hart := λ h s, mkkmem (k_lock s) (freelist s) (phys s) h;
  get_lock := λ _ s, k_lock s;
  set_lock := λ _ l s, mkkmem l (freelist s) (phys s) (k_hart s) }.

Definition pmem {A} (m : M mem A) : M kmem A := λ s,
  '(a, p) ← m (phys s); Ok (a, set_phys p s).

Section kalloc_c.
Context (end_ : Z).

Definition kfree (pa : Z) : M kmem unit :=
  (if bool_decide (pa mod PGSIZE ≠ 0) || bool_decide (pa < end_) || bool_decide (PHYSTOP ≤ pa)
   then panic "kfree" else mret tt) ;;
  pmem (memset pa 1 PGSIZE) ;;
  acquireM tt ;;
  fl ← gets freelist;
  pmem (st64 pa fl) ;;
  modify (set_freelist pa) ;;
  releaseM tt.

Definition kalloc : M kmem Z :=
  acquireM tt ;;
  r ← gets freelist;
  (if bool_decide (r ≠ 0) then next ← pmem (ld64 r); modify (set_freelist next) else mret tt) ;;
  releaseM tt ;;
  (if bool_decide (r ≠ 0) then pmem (memset r 5 PGSIZE) ;; mret tt else mret tt) ;;
  mret r.

(** [for(; p + PGSIZE <= pa_end; p += PGSIZE)], [k] rounds at most. *)
Fixpoint freerange_loop (k : nat) (p pa_end : Z) : M kmem unit :=
  match k with
  | O => hang
  | S k => if bool_decide (p + PGSIZE ≤ pa_end) then kfree p ;; freerange_loop k (p + PGSIZE) pa_end
           else mret tt
  end.
Definition freerange (pa_start pa_end : Z) : M kmem unit :=
  freerange_loop (S (Z.to_nat ((pa_end - PGROUNDUP pa_start) / PGSIZE))) (PGROUNDUP pa_start) pa_end.

Definition kinit : M kmem unit :=
  modify (set_lock tt (initlock "kmem")) ;;
  freerange end_ PHYSTOP.

(** ** The free list *)

(** A page the allocator may hold. *)
Definition is_page (m : mem) (p : Z) : Prop :=
  p mod PGSIZE = 0 ∧ end_ ≤ p < PHYSTOP ∧ 0 < p ∧ mapped m p PGSIZE.

Fixpoint chain (m : mem) (head : Z) (l : list Z) : Prop :=
  match l with
  | [] => head = 0
  | p :: l' => head = p ∧ ∃ next, word_at m p next ∧ chain m next l'
  end.

Record alloc_rep (s : kmem) (l : list Z) : Prop := {
  ar_chain : chain (phys s) (freelist s) l;
  ar_pages : Forall (is_page (phys s)) l;
  ar_nodup : NoDup l;
  ar_lock : lk_locked (k_lock s) = 0;
  ar_hart : hart_ok (k_hart s) }.

Lemma page_apart m p q : is_page m p → is_page m q → p ≠ q → p + PGSIZE ≤ q ∨ q + PGSIZE ≤ p.
Proof.
  intros (Hp & _) (Hq & _) Hne. unfold PGSIZE in *.
  pose proof (Z.div_mod p 4096). pose proof (Z.div_mod q 4096).
  destruct (decide (p / 4096 < q / 4096)); [left; lia|].
  destruct (decide (q / 4096 < p / 4096)); [right; lia|]. lia.
Qed.

Lemma chain_frame m m' head l :
  chain m head l → (∀ p x, p ∈ l → p ≤ x < p + 8 → m' !! x = m !! x) → chain m' head l.
Proof.
  revert head. induction l as [|p l IH]; intros head Hc Hf; [done|].
  destruct Hc as (-> & next & Hw & Hc). split; [done|]. exists next. split.
  - eapply word_at_frame; [exact Hw|]. intros x Hx. apply (Hf p); [set_solver|done].
  - apply IH; [done|]. intros q x Hq Hx. apply (Hf q); [set_solver|done].
Qed.

Lemma is_page_frame m m' p :
  is_page m p → (∀ x, is_Some (m !! x) → is_Some (m' !! x)) → is_page m' p.
Proof. intros (H1 & H2 & H3 & H4) Hf. split_and!; try done; try lia. by eapply mapped_frame. Qed.

Lemma chain_head m head l : Forall (is_page m) l → chain m head l → head = hd 0 l ∧ 0 ≤ head < 2 ^ 64.
Proof.
  intros Hl Hc. destruct l as [|p l]; simpl in *; [subst; lia|]. destruct Hc as [-> _].
  split; [done|]. apply Forall_cons in Hl as [(_ & H & H0 & _) _]. unfold PHYSTOP, KERNBASE in H. lia.
Qed.

(** The allocator does not touch what it does not own. *)
Definition same_outside (p : Z) (m m' : mem) : Prop :=
  (∀ x, x < p ∨ p + PGSIZE ≤ x → m' !! x = m !! x) ∧ (∀ x, is_Some (m !! x) → is_Some (m' !! x)).

Lemma kfree_panics pa s :
  pa mod PGSIZE ≠ 0 ∨ pa < end_ ∨ PHYSTOP ≤ pa → kfree pa s = Panic "kfree".
Proof.
  intros H. unfold kfree, mbind, M_bind.
  destruct (bool_decide (pa mod PGSIZE ≠ 0) || bool_decide (pa < end_) || bool_decide (PHYSTOP ≤ pa)) eqn:E; [done|].
  apply orb_false_iff in E as [[E1 E2]%orb_false_iff E3].
  apply bool_decide_eq_false in E1, E2, E3. tauto.
Qed.
Lemma kmem_acquire lk fl m h :
  lk_locked lk = 0 →
  acquireM tt (mkkmem lk fl m h) = Ok (tt, mkkmem (held_by (hartid h) lk) fl m (push_off h)).
Proof. intros Hl. unfold acquireM. simpl. by rewrite (acquire_ok lk h Hl). Qed.

Lemma kmem_release lk fl m h :
  hart_ok h →
  releaseM tt (mkkmem (held_by (hartid h) lk) fl m (push_off h)) = Ok (tt, mkkmem (freed lk) fl m (settle h)).
Proof. intros Hh. unfold releaseM. simpl. by rewrite (release_ok lk h Hh). Qed.

Lemma pmem_ok {A} (f : M mem A) lk fl m h a m' :
  f m = Ok (a, m') → pmem f (mkkmem lk fl m h) = Ok (a, mkkmem lk fl m' h).
Proof. intros H. unfold pmem. simpl. rewrite H. done. Qed.

(** [kfree] pushes the page. *)
Lemma kfree_ok pa s l :
  alloc_rep s l → is_page (phys s) pa → pa ∉ l →
  ∃ s', kfree pa s = Ok (tt, s') ∧ alloc_rep s' (pa :: l) ∧ same_outside pa (phys s) (phys s').
Proof.
  intros [Hc Hp Hn Hl Hh] Hpa Hnew. pose proof Hpa as (P1 & P2 & P3 & P4).
  destruct s as [lk fl m h]. simpl in *.
  destruct (memset_ok m pa 1 PGSIZE) as (m1 & E1 & F1); [done..|].
  assert (Hm1 : ∀ x, is_Some (m !! x) → is_Some (m1 !! x)).
  { intros x Hx. rewrite F1. by case_decide. }
  destruct (st64_ok m1 pa fl) as (m2 & E2 & W2 & F2).
  { eapply mapped_shrink; [eapply mapped_frame; [exact P4|done]|lia|]. unfold PGSIZE. lia. }
  assert (Hout : ∀ x, x < pa ∨ pa + PGSIZE ≤ x → m2 !! x = m !! x).
  { intros x Hx. rewrite F2 by (unfold PGSIZE in *; lia). rewrite F1. by rewrite decide_False by lia. }
  assert (Hsome : ∀ x, is_Some (m !! x) → is_Some (m2 !! x)).
  { intros x Hx. destruct (decide (x < pa ∨ pa + 8 ≤ x)) as [Ho|Hi]; [rewrite F2 by done; by apply Hm1|].
    assert (is_Some (m2 !! (pa + Z.of_nat (Z.to_nat (x - pa))))) as Hy.
    { rewrite W2 by (rewrite length_le_bytes; lia). apply lookup_lt_is_Some_2. rewrite length_le_bytes. lia. }
    by replace (pa + Z.of_nat (Z.to_nat (x - pa))) with x in Hy by lia. }
  exists (mkkmem (freed lk) pa m2 (settle h)). split; [|split; [|by split]].
  - unfold kfree. rewrite (bool_decide_false (pa mod PGSIZE ≠ 0)), (bool_decide_false (pa < end_)),
      (bool_decide_false (PHYSTOP ≤ pa)) by lia.
    cbn [orb]. rewrite (bind_Ok_eq _ _ _ tt _ eq_refl).
    rewrite (bind_Ok_eq _ _ _ _ _ (pmem_ok _ lk fl m h _ _ E1)).
    rewrite (bind_Ok_eq _ _ _ _ _ (kmem_acquire lk fl m1 h Hl)).
    erewrite bind_Ok_eq by reflexivity. cbn [freelist].
    rewrite (bind_Ok_eq _ _ _ _ _ (pmem_ok _ _ _ _ _ _ _ E2)).
    erewrite bind_Ok_eq by reflexivity. by apply kmem_release.
  - split; simpl; try done.
    + split; [done|]. exists fl. split; [done|]. eapply chain_frame; [exact Hc|].
      intros p x Hpl Hx. apply Hout. rewrite Forall_forall in Hp.
      destruct (page_apart m p pa) as [?|?]; [by apply Hp|done|by intros ->| |]; unfold PGSIZE in *; lia.
    + constructor; [by eapply is_page_frame|].
      eapply Forall_impl; [exact Hp|]. intros p Hpp. by eapply is_page_frame.
    + by constructor.
Qed.

(** [kalloc] pops it. *)
Lemma kalloc_some s p l :
  alloc_rep s (p :: l) →
  ∃ s', kalloc s = Ok (p, s') ∧ alloc_rep s' l ∧ same_outside p (phys s) (phys s') ∧
    ∀ x, p ≤ x < p + PGSIZE → phys s' !! x = Some 5.
Proof.
  intros [Hc Hp Hn Hl Hh]. destruct s as [lk fl m h]. simpl in *.
  destruct Hc as (-> & next & Hw & Hc). apply Forall_cons in Hp as [Hp Hps].
  apply NoDup_cons in Hn as [Hpl Hn]. pose proof Hp as (P1 & P2 & P3 & P4).
  assert (Hnext : 0 ≤ next < 2 ^ 64) by (by eapply chain_head).
  destruct (memset_ok m p 5 PGSIZE) as (m1 & E1 & F1); [done..|].
  exists (mkkmem (freed lk) next m1 (settle h)). split; [|split; [|split]].
  - unfold kalloc. rewrite (bind_Ok_eq _ _ _ _ _ (kmem_acquire lk p m h Hl)).
    erewrite bind_Ok_eq by reflexivity. cbn [freelist].
    rewrite bool_decide_true by lia.
    erewrite bind_Ok_eq; cycle 1.
    { rewrite (bind_Ok_eq _ _ _ _ _ (pmem_ok _ _ _ _ _ _ _ (ld64_ok m p next Hw Hnext))). reflexivity. }
    rewrite (bind_Ok_eq _ _ _ _ _ (kmem_release lk next m h Hh)).
    erewrite bind_Ok_eq; cycle 1.
    { rewrite (bind_Ok_eq _ _ _ _ _ (pmem_ok _ _ _ _ _ _ _ E1)). reflexivity. }
    done.
  - split; simpl; try done.
    + eapply chain_frame; [exact Hc|]. intros q x Hq Hx. rewrite F1. rewrite decide_False; [done|].
      rewrite Forall_forall in Hps.
      destruct (page_apart m q p) as [?|?]; [by apply Hps|done|by intros ->| |]; unfold PGSIZE in *; lia.
    + eapply Forall_impl; [exact Hps|]. intros q Hq. eapply is_page_frame; [exact Hq|].
      intros x Hx. rewrite F1. by case_decide.
  - split; simpl; intros x Hx; rewrite F1; [by rewrite decide_False by lia|by case_decide].
  - intros x Hx. simpl. rewrite F1. by rewrite decide_True.
Qed.

Lemma kalloc_none s :
  alloc_rep s [] → ∃ s', kalloc s = Ok (0, s') ∧ alloc_rep s' [] ∧ phys s' = phys s.
Proof.
  intros [Hc Hp Hn Hl Hh]. destruct s as [lk fl m h]. simpl in *. subst fl.
  exists (mkkmem (freed lk) 0 m (settle h)). split; [|by split].
  unfold kalloc. rewrite (bind_Ok_eq _ _ _ _ _ (kmem_acquire lk 0 m h Hl)).
  erewrite bind_Ok_eq by reflexivity. cbn [freelist]. rewrite !bool_decide_false by lia.
  erewrite bind_Ok_eq by reflexivity.
  rewrite (bind_Ok_eq _ _ _ _ _ (kmem_release lk 0 m h Hh)).
  erewrite bind_Ok_eq by reflexivity. done.
Qed.

(** ** Sequences of calls *)

Inductive kop := KAlloc | KFree (pa : Z).

(** The specification: a stack of free pages and the list of pages given out. *)
Definition kspec (o : kop) (st : list Z * list Z) : option (Z * (list Z * list Z)) :=
  let '(l, a) := st in
  match o with
  | KAlloc => match l with [] => Some (0, ([], a)) | p :: l' => Some (p, (l', p :: a)) end
  | KFree pa => if decide (pa ∈ a) then Some (0, (pa :: l, remove Z.eq_dec pa a)) else None
  end.
Fixpoint kspecs (ops : list kop) (st : list Z * list Z) : option (list Z * (list Z * list Z)) :=
  match ops with
  | [] => Some ([], st)
  | o :: ops' => '(r, st1) ← kspec o st; '(rs, st2) ← kspecs ops' st1; Some (r :: rs, st2)
  end.
Definition krun (o : kop) : M kmem Z :=
  match o with KAlloc => kalloc | KFree pa => kfree pa ;; mret 0 end.
Fixpoint kruns (ops : list kop) : M kmem (list Z) :=
  match ops with [] => mret [] | o :: ops' => r ← krun o; rs ← kruns ops'; mret (r :: rs) end.

(** The free pages and the pages given out, together. *)
Record balanced (s : kmem) (st : list Z * list Z) : Prop := {
  ba_rep : alloc_rep s st.1;
  ba_out : Forall (is_page (phys s)) st.2;
  ba_nodup : NoDup (st.1 ++ st.2) }.

Lemma remove_perm p (a : list Z) : NoDup a → p ∈ a → a ≡ₚ p :: remove Z.eq_dec p a.
Proof.
  induction a as [|x a IH]; intros Hn Hp; [by apply elem_of_nil in Hp|].
  apply NoDup_cons in Hn as [Hx Hn]. simpl. destruct (Z.eq_dec p x) as [->|Hne].
  - f_equiv. rewrite notin_remove; [done|]. by rewrite <- list_elem_of_In.
  - apply elem_of_cons in Hp as [->|Hp]; [done|]. rewrite (IH Hn Hp) at 1. apply Permutation_swap.
Qed.

Lemma krun_ok o s st r st' :
  balanced s st → kspec o st = Some (r, st') →
  ∃ s', krun o s = Ok (r, s') ∧ balanced s' st' ∧ st'.1 ++ st'.2 ≡ₚ st.1 ++ st.2.
Proof.
  destruct st as [l a]. intros [Hr Ho Hn] Hs. simpl in *. destruct o as [|pa]; simpl in Hs.
  - destruct l as [|p l]; injection Hs as <- <-.
    + destruct (kalloc_none s Hr) as (s' & E & Hr' & Hph). exists s'. split; [done|]. split; [|done].
      split; [done| |done]. simpl. by rewrite Hph.
    + destruct (kalloc_some s p l Hr) as (s' & E & Hr' & [_ Hsome] & _). exists s'. split; [done|].
      assert (Hperm : l ++ p :: a ≡ₚ p :: l ++ a) by (by rewrite Permutation_middle).
      split; [|exact Hperm]. split; [done| |]; simpl.
      * pose proof (ar_pages _ _ Hr) as Hps. apply Forall_cons in Hps as [Hp _].
        constructor; [by eapply is_page_frame|]. eapply Forall_impl; [exact Ho|].
        intros q Hq. by eapply is_page_frame.
      * by rewrite Hperm.
  - case_decide as Hin; [|done]. injection Hs as <- <-.
    pose proof (remove_perm pa a) as Hperm. apply NoDup_app in Hn as (Hn1 & Hn2 & Hn3).
    specialize (Hperm Hn3 Hin). rewrite Forall_forall in Ho.
    destruct (kfree_ok pa s l Hr) as (s' & E & Hr' & [_ Hsome]); [by apply Ho|by intros ?%Hn2|].
    assert (Hall : pa :: l ++ remove Z.eq_dec pa a ≡ₚ l ++ a) by (rewrite Permutation_middle; f_equiv; by symmetry).
    exists s'. split; [unfold krun; by rewrite (bind_Ok_eq _ _ _ _ _ E)|]. split; [|done]. split; simpl; [done| |].
    + apply Forall_forall. intros q Hq. eapply is_page_frame; [|done]. apply Ho.
      rewrite Hperm. by apply elem_of_cons; right.
    + change (NoDup (pa :: l ++ remove Z.eq_dec pa a)). rewrite Hall. by apply NoDup_app.
Qed.

(** C14: the allocator.  As long as only pages given out are freed, any sequence
    of [kalloc] and [kfree] runs without panic and returns what a stack of free
    pages would; no page is lost, and no page is ever given out twice: the free
    pages and the pages given out stay, together, the same set of distinct
    pages. *)
Theorem kalloc_stack ops s st rs st' :
  balanced s st → kspecs ops st = Some (rs, st') →
  ∃ s', kruns ops s = Ok (rs, s') ∧ balanced s' st' ∧ st'.1 ++ st'.2 ≡ₚ st.1 ++ st.2 ∧
    NoDup (st'.1 ++ st'.2).
Proof.
  revert s st rs. induction ops as [|o ops IH]; intros s st rs Hb Hs; simpl in Hs.
  - injection Hs as <- <-. exists s. split_and!; try done. apply Hb.
  - destruct (kspec o st) as [[r st1]|] eqn:E1; [|done]. simpl in Hs.
    destruct (kspecs ops st1) as [[rs2 st2]|] eqn:E2; [|done]. injection Hs as <- <-.
    destruct (krun_ok o s st r st1 Hb E1) as (s1 & R1 & B1 & P1).
    destruct (IH s1 st1 rs2 B1 E2) as (s2 & R2 & B2 & P2 & N2).
    exists s2. split_and!; [|done|by rewrite P2|done].
    simpl. rewrite (bind_Ok_eq _ _ _ _ _ R1), (bind_Ok_eq _ _ _ _ _ R2). done.
Qed.

(** ** [kinit] *)

(** The [k] pages from [p] on, the last one first. *)
Fixpoint pages_from (p : Z) (k : nat) (l : list Z) : list Z :=
  match k with O => l | S k => pages_from (p + PGSIZE) k (p :: l) end.

Lemma freerange_ok k fuel s p pa_end l :
  alloc_rep s l → (k < fuel)%nat → p mod PGSIZE = 0 → end_ ≤ p → 0 < p →
  p + Z.of_nat k * PGSIZE ≤ pa_end < p + Z.of_nat k * PGSIZE + PGSIZE → pa_end ≤ PHYSTOP →
  mapped (phys s) p (Z.of_nat k * PGSIZE) → (∀ q, q ∈ l → q < p) →
  ∃ s', freerange_loop fuel p pa_end s = Ok (tt, s') ∧ alloc_rep s' (pages_from p k l).
Proof.
  revert fuel s p l. induction k as [|k IH]; intros fuel s p l Hr Hf Hp He H0 Hend Hps Hm Hl;
    (destruct fuel as [|fuel]; [lia|]); cbn [freerange_loop pages_from]; unfold PGSIZE in *.
  - exists s. rewrite bool_decide_false by lia. done.
  - assert (Hpage : is_page (phys s) p).
    { split_and!; try done; [lia|]. eapply mapped_shrink; [exact Hm|lia|unfold PGSIZE; lia]. }
    destruct (kfree_ok p s l Hr Hpage) as (s1 & E1 & Hr1 & [_ Hsome]).
    { intros Hin. specialize (Hl p Hin). lia. }
    destruct (IH fuel s1 (p + 4096) (p :: l) Hr1) as (s2 & E2 & Hr2); try lia.
    + rewrite <- (Z.mul_1_l 4096) at 1. by rewrite Z.mod_add.
    + eapply mapped_frame; [|exact Hsome]. eapply mapped_shrink; [exact Hm|lia..].
    + intros q [->|Hq]%elem_of_cons; [lia|]. specialize (Hl q Hq). lia.
    + exists s2. rewrite bool_decide_true by lia. by rewrite (bind_Ok_eq _ _ _ _ _ E1).
Qed.
Lemma length_pages_from p k l : length (pages_from p k l) = (k + length l)%nat.
Proof. revert p l. induction k as [|k IH]; intros p l; simpl; [done|]. rewrite IH. simpl. lia. Qed.

Lemma elem_of_pages_from p k l q :
  q ∈ pages_from p k l ↔ q ∈ l ∨ ∃ i, (i < k)%nat ∧ q = p + Z.of_nat i * PGSIZE.
Proof.
  revert p l. induction k as [|k IH]; intros p l; simpl.
  - split; [by left|]. intros [?|(i & Hi & _)]; [done|lia].
  - rewrite IH, elem_of_cons. split.
    + intros [[->|Hq]|(i & Hi & ->)]; [right; exists 0%nat; lia|by left|right; exists (S i); lia].
    + intros [Hq|([|i] & Hi & ->)]; [auto|left; left; lia|right; exists i; lia].
Qed.

(** [kinit] hands the whole of physical memory to the allocator.  With the
    memory from the end of the kernel to [PHYSTOP] present, it returns with
    exactly the page-aligned pages of that range free, each of them once. *)
Theorem kinit_pages s :
  0 < end_ ≤ PHYSTOP - PGSIZE → hart_ok (k_hart s) → freelist s = 0 →
  mapped (phys s) (PGROUNDUP end_) (PHYSTOP - PGROUNDUP end_) →
  ∃ s' l, kinit s = Ok (tt, s') ∧ balanced s' (l, []) ∧
    Z.of_nat (length l) = (PHYSTOP - PGROUNDUP end_) / PGSIZE ∧
    (∀ p, p ∈ l ↔ p mod PGSIZE = 0 ∧ end_ ≤ p < PHYSTOP).
Proof.
  intros He Hh Hfl Hm. destruct (PGROUNDUP_spec end_) as [Ha Hb]; [unfold PHYSTOP, KERNBASE, PGSIZE in *; lia|].
  set (p := PGROUNDUP end_) in *. set (k := Z.to_nat ((PHYSTOP - p) / PGSIZE)).
  set (s0 := set_lock tt (initlock "kmem") s).
  assert (Hr0 : alloc_rep s0 []) by (split; simpl; [done|constructor|constructor|done|done]).
  assert (Hdiv : PHYSTOP = p + Z.of_nat k * PGSIZE).
  { unfold k, PHYSTOP, KERNBASE, PGSIZE in *. pose proof (Z.div_mod p 4096).
    pose proof (Z.div_mod (2147483648 + 128 * 1024 * 1024 - p) 4096).
    pose proof (Z.mod_pos_bound (2147483648 + 128 * 1024 * 1024 - p) 4096).
    assert (0 ≤ (2147483648 + 128 * 1024 * 1024 - p) / 4096) by (apply Z.div_pos; lia). lia. }
  assert (Hk : (PHYSTOP - p) / PGSIZE = Z.of_nat k).
  { rewrite Hdiv. replace (p + Z.of_nat k * PGSIZE - p) with (Z.of_nat k * PGSIZE) by lia.
    apply Z.div_mul. done. }
  destruct (freerange_ok k (S k) s0 p PHYSTOP [] Hr0) as (s' & E & Hr'); try done; try lia.
  { simpl. replace (Z.of_nat k * PGSIZE) with (PHYSTOP - p) by lia. done. }
  { intros q Hq. by apply elem_of_nil in Hq. }
  exists s', (pages_from p k []). split.
  { unfold kinit. erewrite bind_Ok_eq by reflexivity. unfold freerange. fold p.
    rewrite Hk, Nat2Z.id. exact E. }
  split; [|split].
  - split; simpl; [done|constructor|]. rewrite app_nil_r. apply (ar_nodup _ _ Hr').
  - rewrite length_pages_from. simpl. lia.
  - intros q. rewrite elem_of_pages_from. unfold PGSIZE in *. split.
    + intros [Hq|(i & Hi & ->)]; [by apply elem_of_nil in Hq|].
      rewrite Z.mod_add by lia. split; [done|]. lia.
    + intros [Hq Hr]. right. pose proof (Z.div_mod q 4096). pose proof (Z.div_mod p 4096).
      exists (Z.to_nat (q / 4096 - p / 4096)).
      assert (p / 4096 ≤ q / 4096); [apply Z.lt_succ_r; lia|]. lia.
Qed.
End kalloc_c.

(** ** Two pages of memory *)

Fixpoint zeros (a : Z) (n : nat) : mem :=
  match n with O => ∅ | S n => <[a := 0]> (zeros (a + 1) n) end.

Lemma zeros_mapped a n : mapped (zeros a n) a (Z.of_nat n).
Proof.
  revert a. induction n as [|n IH]; intros a i Hi; [lia|]. simpl. apply lookup_insert_is_Some'.
  destruct (decide (i = 0)) as [->|]; [left; lia|right]. replace (a + i) with (a + 1 + (i - 1)) by lia. apply IH. lia.
Qed.

Lemma zeros_mapped_Z a n : 0 ≤ n → mapped (zeros a (Z.to_nat n)) a n.
Proof. intros Hn. eapply mapped_shrink; [apply zeros_mapped|lia..]. Qed.

(** The kernel ends two pages below [PHYSTOP]. *)
Definition demo_end : Z := PHYSTOP - 2 * PGSIZE.
Definition demo_ram : mem := zeros demo_end (Z.to_nat (2 * PGSIZE)).
Definition demo_kmem : kmem := mkkmem (mklock "" 0 None) 0 demo_ram (mkhart 0 true 0 false).

Lemma demo_roundup : PGROUNDUP demo_end = demo_end. Proof. vm_compute. reflexivity. Qed.
Lemma demo_size : PHYSTOP - demo_end = 2 * PGSIZE. Proof. vm_compute. reflexivity. Qed.
Lemma demo_mapped : mapped demo_ram (PGROUNDUP demo_end) (PHYSTOP - PGROUNDUP demo_end).
Proof. rewrite demo_roundup, demo_size. apply zeros_mapped_Z. unfold PGSIZE. lia. Qed.
Lemma demo_range : 0 < demo_end ≤ PHYSTOP - PGSIZE. Proof. split; vm_compute; [reflexivity|discriminate]. Qed.
Lemma demo_hart : hart_ok (k_hart demo_kmem). Proof. split; simpl; lia. Qed.
Lemma demo_pages : mapped demo_ram demo_end (Z.of_nat 2 * PGSIZE).
Proof. change (Z.of_nat 2 * PGSIZE) with (2 * PGSIZE). unfold demo_ram. apply zeros_mapped_Z. unfold PGSIZE. lia. Qed.
#[global] Opaque demo_ram.

Lemma demo_kinit :
  ∃ s' l, kinit demo_end demo_kmem = Ok (tt, s') ∧ balanced demo_end s' (l, []) ∧ length l = 2%nat.
Proof.
  set (s0 := set_lock tt (initlock "kmem") demo_kmem).
  destruct (freerange_ok demo_end 2 3 s0 demo_end PHYSTOP []) as (s' & E & Hr').
  - split; simpl; [reflexivity|constructor|constructor|reflexivity|apply demo_hart].
  - lia.
  - vm_compute. reflexivity.
  - lia.
  - apply demo_range.
  - split; vm_compute; [discriminate|reflexivity].
  - lia.
  - change (phys s0) with demo_ram. apply demo_pages.
  - intros q Hq. by apply elem_of_nil in Hq.
  - exists s', (pages_from demo_end 2 []). split; [|split].
    + unfold kinit. erewrite bind_Ok_eq by reflexivity. unfold freerange.
      rewrite demo_roundup, demo_size. exact E.
    + split; simpl; [exact Hr'|constructor|]. apply (ar_nodup _ _ _ Hr').
    + by rewrite length_pages_from.
Qed.

Lemma kinit_pages_witness :
  ∃ s' (l : list Z), kinit demo_end demo_kmem = Ok (tt, s') ∧ Z.of_nat (length l) = 2.
Proof.
  destruct (kinit_pages demo_end demo_kmem demo_range demo_hart eq_refl demo_mapped)
    as (s' & l & E & _ & Hl & _).
  exists s', l. split; [exact E|]. rewrite Hl, demo_roundup, demo_size. vm_compute. reflexivity.
Defined.

Lemma kalloc_stack_witness :
  ∃ s l, balanced demo_end s (l, []) ∧
    ∃ p q s', kruns demo_end [KAlloc; KAlloc; KAlloc; KFree p; KAlloc] s = Ok ([p; q; 0; 0; p], s').
Proof.
  destruct demo_kinit as (s & l & _ & Hb & Hl). exists s, l. split; [exact Hb|].
  destruct l as [|p [|q [|]]]; try discriminate. exists p, q.
  destruct (kalloc_stack demo_end [KAlloc; KAlloc; KAlloc; KFree p; KAlloc] s ([p; q], []) [p; q; 0; 0; p]
              ([], p :: remove Z.eq_dec p [q; p]) Hb) as (s' & E & _).
  - simpl. rewrite decide_True by set_solver. reflexivity.
  - exists s'. exact E.
Defined.
