(* ===== verification/Vm.v ===== *)
(** * Page tables and user memory: kernel/vm.c, and the page tables of kernel/proc.c

    The state is that of the page allocator ([Kalloc.kmem]): page tables are
    pages of physical memory, and their 64-bit entries are read and written
    there.  A pointer to an entry is its address, 0 for the null pointer.
    [end_], [etext] and [trampoline] are addresses the linker chooses.

    Fuel: [for_pages] is given the number of rounds its bounds allow, the copy
    loops one round per page and one more, [freewalk] one unit per level. *)
From S2P Require Import Prelude Layout Spinlock CString Kalloc.

(** [for(; a < hi; a += PGSIZE)], left with a result when the body has one;
    at most [k] rounds. *)
Fixpoint for_pages {S B} (k : nat) (a hi : Z) (body : Z → M S (option B)) : M S (option B) :=
  match k with
  | O => if bool_decide (a < hi) then hang else mret None
  | S k =>
      if bool_decide (a < hi) then
        r ← body a;
        match r with Some b => mret (Some b) | None => for_pages k (u64 (a + PGSIZE)) hi body end
      else mret None
  end.
Definition pages (n : Z) : nat := Z.to_nat ((n + PGSIZE - 1) / PGSIZE).

Section vm_c.
Context (end_ : Z).
Local Abbreviation kfree := (kfree end_).

Definition ptload (a : Z) : M kmem Z := pmem (ld64 a).
Definition ptstore (a v : Z) : M kmem unit := pmem (st64 a v).
Definition pbyte (a : Z) : M kmem Z := pmem (ld a).
Definition valid (pte : Z) : bool := bool_decide (Z.land pte PTE_V ≠ 0).

(** The loop of [walk] from [level] down. *)
Fixpoint walk_loop (level : nat) (pagetable va : Z) (alloc : bool) : M kmem (option Z) :=
  match level with
  | O => mret (Some pagetable)
  | S l =>
      let pte := pagetable + 8 * PX (Z.of_nat level) va in
      v ← ptload pte;
      if valid v then walk_loop l (PTE2PA v) va alloc
      else if negb alloc then mret None
      else
        pg ← kalloc;
        if bool_decide (pg = 0) then mret None
        else
          pmem (memset pg 0 PGSIZE) ;;
          ptstore pte (Z.lor (PA2PTE pg) PTE_V) ;;
          walk_loop l pg va alloc
  end.
Definition walk (pagetable va : Z) (alloc : bool) : M kmem Z :=
  if bool_decide (MAXVA ≤ va) then panic "walk"
  else
    r ← walk_loop 2 pagetable va alloc;
    mret (match r with Some p => p + 8 * PX 0 va | None => 0 end).

Definition walkaddr (pagetable va : Z) : M kmem Z :=
  if bool_decide (MAXVA ≤ va) then mret 0
  else
    pte ← walk pagetable va false;
    if bool_decide (pte = 0) then mret 0
    else
      v ← ptload pte;
      if negb (valid v) then mret 0
      else if bool_decide (Z.land v PTE_U = 0) then mret 0
      else mret (PTE2PA v).

(** One page of [mappages]: [Some (-1)] when [walk] is out of memory. *)
Definition map_one (pagetable a pa perm : Z) : M kmem (option Z) :=
  pte ← walk pagetable a true;
  if bool_decide (pte = 0) then mret (Some (-1))
  else
    v ← ptload pte;
    if valid v then panic "mappages: remap"
    else ptstore pte (Z.lor (Z.lor (PA2PTE pa) perm) PTE_V) ;; mret None.
(** The [for(;;)] of [mappages]; [k] is the number of rounds left after this one. *)
Fixpoint map_loop (k : nat) (pagetable a last pa perm : Z) : M kmem Z :=
  r ← map_one pagetable a pa perm;
  match r with
  | Some e => mret e
  | None =>
      if bool_decide (a = last) then mret 0
      else match k with
           | O => hang
           | S k => map_loop k pagetable (u64 (a + PGSIZE)) last (u64 (pa + PGSIZE)) perm
           end
  end.
Definition mappages (pagetable va size pa perm : Z) : M kmem Z :=
  if bool_decide (size = 0) then panic "mappages: size"
  else
    let a := PGROUNDDOWN va in
    let last := PGROUNDDOWN (u64 (va + size - 1)) in
    map_loop (Z.to_nat ((if bool_decide (a ≤ last) then last - a else MAXVA - a) / PGSIZE)) pagetable a last pa perm.

Definition unmap_one (pagetable : Z) (do_free : bool) (a : Z) : M kmem (option unit) :=
  pte ← walk pagetable a false;
  if bool_decide (pte = 0) then panic "uvmunmap: walk"
  else
    v ← ptload pte;
    if negb (valid v) then panic "uvmunmap: not mapped"
    else if bool_decide (PTE_FLAGS v = PTE_V) then panic "uvmunmap: not a leaf"
    else
      (if do_free then kfree (PTE2PA v) else mret tt) ;;
      ptstore pte 0 ;; mret None.
Definition uvmunmap (pagetable va npages : Z) (do_free : bool) : M kmem unit :=
  if bool_decide (va mod PGSIZE ≠ 0) then panic "uvmunmap: not aligned"
  else for_pages (pages (u64 (va + npages * PGSIZE) - va)) va (u64 (va + npages * PGSIZE))
         (unmap_one pagetable do_free) ;; mret tt.

Definition uvmcreate : M kmem Z :=
  pagetable ← kalloc;
  if bool_decide (pagetable = 0) then mret 0
  else pmem (memset pagetable 0 PGSIZE) ;; mret pagetable.

(** [src] is an address of kernel memory. *)
Definition uvmfirst (pagetable src sz : Z) : M kmem unit :=
  if bool_decide (PGSIZE ≤ sz) then panic "uvmfirst: more than a page"
  else
    mem ← kalloc;
    pmem (memset mem 0 PGSIZE) ;;
    mappages pagetable 0 PGSIZE mem (Z.lor (Z.lor (Z.lor PTE_W PTE_R) PTE_X) PTE_U) ;;
    pmem (memmove mem src sz) ;;
    mret tt.

(** The page count is an [int] in the code. *)
Definition uvmdealloc (pagetable oldsz newsz : Z) : M kmem Z :=
  if bool_decide (oldsz ≤ newsz) then mret oldsz
  else
    (if bool_decide (PGROUNDUP newsz < PGROUNDUP oldsz) then
       let npages := i32 ((PGROUNDUP oldsz - PGROUNDUP newsz) / PGSIZE) in
       uvmunmap pagetable (PGROUNDUP newsz) (u64 npages) true
     else mret tt) ;;
    mret newsz.

Definition alloc_one (pagetable oldsz a : Z) : M kmem (option Z) :=
  mem ← kalloc;
  if bool_decide (mem = 0) then uvmdealloc pagetable a oldsz ;; mret (Some 0)
  else
    pmem (memset mem 0 PGSIZE) ;;
    r ← mappages pagetable a PGSIZE mem (Z.lor (Z.lor (Z.lor PTE_W PTE_X) PTE_R) PTE_U);
    if bool_decide (r ≠ 0) then kfree mem ;; uvmdealloc pagetable a oldsz ;; mret (Some 0)
    else mret None.
Definition uvmalloc (pagetable oldsz newsz : Z) : M kmem Z :=
  if bool_decide (newsz < oldsz) then mret oldsz
  else
    let oldsz := PGROUNDUP oldsz in
    r ← for_pages (pages (newsz - oldsz)) oldsz newsz (alloc_one pagetable oldsz);
    mret (default newsz r).

(** [for(int i = 0; i < 512; i++)] of [freewalk], the entries [idx]. *)
Fixpoint freewalk_loop (rec : Z → M kmem unit) (pagetable : Z) (idx : list Z) : M kmem unit :=
  match idx with
  | [] => mret tt
  | i :: idx =>
      pte ← ptload (pagetable + 8 * i);
      (if valid pte && bool_decide (Z.land pte (Z.lor (Z.lor PTE_R PTE_W) PTE_X) = 0) then
         rec (PTE2PA pte) ;; ptstore (pagetable + 8 * i) 0
       else if valid pte then panic "freewalk: leaf" else mret tt) ;;
      freewalk_loop rec pagetable idx
  end.
Fixpoint freewalk (fuel : nat) (pagetable : Z) : M kmem unit :=
  match fuel with
  | O => hang
  | S fuel => freewalk_loop (freewalk fuel) pagetable (seqZ 0 512) ;; kfree pagetable
  end.

(** Sv39 tables have three levels. *)
Definition uvmfree (pagetable sz : Z) : M kmem unit :=
  (if bool_decide (sz > 0) then uvmunmap pagetable 0 (PGROUNDUP sz / PGSIZE) true else mret tt) ;;
  freewalk 3 pagetable.

(** One page of [uvmcopy]; [Some i] when it goes to [err]. *)
Definition copy_one (old new i : Z) : M kmem (option Z) :=
  pte ← walk old i false;
  if bool_decide (pte = 0) then panic "uvmcopy: pte should exist"
  else
    v ← ptload pte;
    if negb (valid v) then panic "uvmcopy: page not present"
    else
      mem ← kalloc;
      if bool_decide (mem = 0) then mret (Some i)
      else
        pmem (memmove mem (PTE2PA v) PGSIZE) ;;
        r ← mappages new i PGSIZE mem (PTE_FLAGS v);
        if bool_decide (r ≠ 0) then kfree mem ;; mret (Some i) else mret None.
Definition uvmcopy (old new sz : Z) : M kmem Z :=
  r ← for_pages (pages sz) 0 sz (copy_one old new);
  match r with
  | None => mret 0
  | Some i => uvmunmap new 0 (i / PGSIZE) true ;; mret (-1)
  end.

Definition uvmclear (pagetable va : Z) : M kmem unit :=
  pte ← walk pagetable va false;
  if bool_decide (pte = 0) then panic "uvmclear"
  else v ← ptload pte; ptstore pte (Z.land v (u64 (Z.lnot PTE_U))).

(** ** Copies between kernel and user memory *)

Fixpoint copyout_loop (k : nat) (pagetable dstva src len : Z) : M kmem Z :=
  if bool_decide (len > 0) then
    match k with
    | O => hang
    | S k =>
        let va0 := PGROUNDDOWN dstva in
        pa0 ← walkaddr pagetable va0;
        if bool_decide (pa0 = 0) then mret (-1)
        else
          let n := Z.min (PGSIZE - (dstva - va0)) len in
          pmem (memmove (pa0 + (dstva - va0)) src n) ;;
          copyout_loop k pagetable (u64 (va0 + PGSIZE)) (src + n) (len - n)
    end
  else mret 0.
Definition copyout (pagetable dstva src len : Z) : M kmem Z :=
  copyout_loop (S (Z.to_nat (len / PGSIZE + 1))) pagetable dstva src len.

Fixpoint copyin_loop (k : nat) (pagetable dst srcva len : Z) : M kmem Z :=
  if bool_decide (len > 0) then
    match k with
    | O => hang
    | S k =>
        let va0 := PGROUNDDOWN srcva in
        pa0 ← walkaddr pagetable va0;
        if bool_decide (pa0 = 0) then mret (-1)
        else
          let n := Z.min (PGSIZE - (srcva - va0)) len in
          pmem (memmove dst (pa0 + (srcva - va0)) n) ;;
          copyin_loop k pagetable (dst + n) (u64 (va0 + PGSIZE)) (len - n)
    end
  else mret 0.
Definition copyin (pagetable dst srcva len : Z) : M kmem Z :=
  copyin_loop (S (Z.to_nat (len / PGSIZE + 1))) pagetable dst srcva len.

(** [while(n > 0)] of [copyinstr]: whether the NUL was met, and [dst] and [max]. *)
Fixpoint copyinstr_page (n : nat) (p dst max : Z) : M kmem (bool * Z * Z) :=
  match n with
  | O => mret (false, dst, max)
  | S n =>
      c ← pbyte p;
      if bool_decide (c = 0) then pmem (st dst 0) ;; mret (true, dst, max)
      else pmem (st dst c) ;; copyinstr_page n (p + 1) (dst + 1) (max - 1)
  end.
Fixpoint copyinstr_loop (k : nat) (pagetable dst srcva max : Z) : M kmem Z :=
  if bool_decide (max > 0) then
    match k with
    | O => hang
    | S k =>
        let va0 := PGROUNDDOWN srcva in
        pa0 ← walkaddr pagetable va0;
        if bool_decide (pa0 = 0) then mret (-1)
        else
          let n := Z.min (PGSIZE - (srcva - va0)) max in
          '(got_null, dst', max') ← copyinstr_page (Z.to_nat n) (pa0 + (srcva - va0)) dst max;
          if (got_null : bool) then mret 0
          else copyinstr_loop k pagetable dst' (u64 (va0 + PGSIZE)) max'
    end
  else mret (-1).
Definition copyinstr (pagetable dst srcva max : Z) : M kmem Z :=
  copyinstr_loop (S (Z.to_nat (max / PGSIZE + 1))) pagetable dst srcva max.

(** [either_copyout] and [either_copyin] (proc.c), for a process with [pagetable]. *)
Definition either_copyout (pagetable : Z) (user_dst : bool) (dst src len : Z) : M kmem Z :=
  if user_dst then copyout pagetable dst src len else pmem (memmove dst src (u32 len)) ;; mret 0.
Definition either_copyin (pagetable dst : Z) (user_src : bool) (src len : Z) : M kmem Z :=
  if user_src then copyin pagetable dst src len else pmem (memmove dst src (u32 len)) ;; mret 0.

(** ** The kernel's page table *)

Definition kvmmap (kpgtbl va pa sz perm : Z) : M kmem unit :=
  r ← mappages kpgtbl va sz pa perm;
  if bool_decide (r ≠ 0) then panic "kvmmap" else mret tt.

(** proc.c; [NPROC] stacks *)
Definition proc_mapstacks (NPROC kpgtbl : Z) : M kmem unit :=
  forM (seqZ 0 NPROC) (λ p,
    pa ← kalloc;
    (if bool_decide (pa = 0) then panic "kalloc" else mret tt) ;;
    kvmmap kpgtbl (KSTACK p) pa PGSIZE (Z.lor PTE_R PTE_W)).

Definition kvmmake (NPROC etext trampoline : Z) : M kmem Z :=
  kpgtbl ← kalloc;
  pmem (memset kpgtbl 0 PGSIZE) ;;
  kvmmap kpgtbl UART0 UART0 PGSIZE (Z.lor PTE_R PTE_W) ;;
  kvmmap kpgtbl VIRTIO0 VIRTIO0 PGSIZE (Z.lor PTE_R PTE_W) ;;
  kvmmap kpgtbl PLIC PLIC 0x400000 (Z.lor PTE_R PTE_W) ;;
  kvmmap kpgtbl KERNBASE KERNBASE (etext - KERNBASE) (Z.lor PTE_R PTE_X) ;;
  kvmmap kpgtbl etext etext (PHYSTOP - etext) (Z.lor PTE_R PTE_W) ;;
  kvmmap kpgtbl TRAMPOLINE trampoline PGSIZE (Z.lor PTE_R PTE_X) ;;
  proc_mapstacks NPROC kpgtbl ;;
  mret kpgtbl.

(** ** A process's page table (proc.c) *)

Definition proc_pagetable (trampoline trapframe : Z) : M kmem Z :=
  pagetable ← uvmcreate;
  if bool_decide (pagetable = 0) then mret 0
  else
    r ← mappages pagetable TRAMPOLINE PGSIZE trampoline (Z.lor PTE_R PTE_X);
    if bool_decide (r < 0) then uvmfree pagetable 0 ;; mret 0
    else
      r ← mappages pagetable TRAPFRAME PGSIZE trapframe (Z.lor PTE_R PTE_W);
      if bool_decide (r < 0) then
        uvmunmap pagetable TRAMPOLINE 1 false ;; uvmfree pagetable 0 ;; mret 0
      else mret pagetable.

Definition proc_freepagetable (pagetable sz : Z) : M kmem unit :=
  uvmunmap pagetable TRAMPOLINE 1 false ;;
  uvmunmap pagetable TRAPFRAME 1 false ;;
  uvmfree pagetable sz.
End vm_c.
