(* ===== verification/VmMap.v ===== *)
(** * Page tables as trees

    [tpage m root path]: the page-table page that the indices [path] lead to
    from [root], read from the entries in memory.  [pt_ok]: the pages of the
    tree are distinct pages of RAM that the allocator does not hold, so a write
    to one entry changes one edge of the tree.  On top of it, what [walk] and
    writes to entries do. *)
From S2P Require Import Prelude Layout Spinlock CString Kalloc Vm.

(** ** Reading an entry *)

Definition rd (m : mem) (a : Z) : Z :=
  le_value ((λ i, default 0 (m !! (a + Z.of_nat i))) <$> seq 0 8).

Lemma ldn_rd n m a : mapped m a (Z.of_nat n) →
  ldn n a m = Ok ((λ i, default 0 (m !! (a + Z.of_nat i))) <$> seq 0 n, m).
Proof.
  revert a. induction n as [|n IH]; intros a Hm; [done|]. cbn [ldn seq fmap list_fmap].
  assert (is_Some (m !! a)) as [b Hb] by (eapply mapped_at; [exact Hm|lia]).
  rewrite (bind_Ok_eq _ _ _ _ _ (ld_ok _ _ _ Hb)).
  rewrite (bind_Ok_eq _ _ _ _ _ (IH (a + 1) ltac:(eapply mapped_shrink; [exact Hm|lia..]))).
  unfold mret, M_ret. rewrite Z.add_0_r, Hb. simpl. do 3 f_equal.
  rewrite <- seq_shift, <- list_fmap_compose. apply list_fmap_ext. intros i k _. simpl. do 2 f_equal. lia.
Qed.

Lemma ld64_rd m a : mapped m a 8 → ld64 a m = Ok (rd m a, m).
Proof. intros Hm. unfold ld64. by rewrite (bind_Ok_eq _ _ _ _ _ (ldn_rd 8 m a Hm)). Qed.

Lemma rd_frame m m' a : (∀ x, a ≤ x < a + 8 → m' !! x = m !! x) → rd m' a = rd m a.
Proof.
  intros H. unfold rd. f_equal. apply list_fmap_ext. intros i k Hk. apply lookup_seq in Hk as [-> ?].
  rewrite H by lia. done.
Qed.

Lemma rd_word m a v : word_at m a v → 0 ≤ v < 2 ^ 64 → rd m a = v.
Proof.
  intros Hw Hv. unfold rd. rewrite <- (le_value_bytes 8 v) by done. f_equal.
  apply list_eq. intros i. rewrite list_lookup_fmap. destruct (decide (i < 8)%nat) as [Hi|Hi].
  - rewrite lookup_seq_lt by done. simpl. rewrite (Hw i) by (by rewrite length_le_bytes).
    destruct (lookup_lt_is_Some_2 (le_bytes 8 v) i) as [b Hb]; [by rewrite length_le_bytes|]. by rewrite Hb.
  - rewrite lookup_seq_ge by lia. symmetry. apply lookup_ge_None_2. rewrite length_le_bytes. lia.
Qed.

Lemma rd_zero m a : (∀ x, a ≤ x < a + 8 → m !! x = Some 0) → rd m a = 0.
Proof.
  intros H. unfold rd. replace ((λ i, default 0 (m !! (a + Z.of_nat i))) <$> seq 0 8) with (replicate 8 0); [done|].
  symmetry. apply list_eq. intros i. rewrite list_lookup_fmap. destruct (decide (i < 8)%nat).
  - rewrite lookup_seq_lt, lookup_replicate_2 by done. simpl. by rewrite H by lia.
  - rewrite lookup_seq_ge by lia. symmetry. apply lookup_ge_None_2. rewrite length_replicate. lia.
Qed.

Lemma valid_0 : valid 0 = false.
Proof. done. Qed.

(** ** The tree *)

Fixpoint tpage (m : mem) (pg : Z) (path : list Z) : option Z :=
  match path with
  | [] => Some pg
  | i :: path => let pte := rd m (pg + 8 * i) in if valid pte then tpage m (PTE2PA pte) path else None
  end.
Definition vpath (path : list Z) : Prop := (length path ≤ 2)%nat ∧ Forall (λ i, 0 ≤ i < 512) path.
Definition is_table (m : mem) (root p : Z) : Prop := ∃ path, vpath path ∧ tpage m root path = Some p.

(** The entry for [va], 0 when there is no table for it. *)
Definition vpath_of (va : Z) : list Z := [PX 2 va; PX 1 va].
Definition pte_at (m : mem) (root va : Z) : Z :=
  match tpage m root (vpath_of va) with Some p => rd m (p + 8 * PX 0 va) | None => 0 end.

Definition RWX : Z := Z.lor (Z.lor PTE_R PTE_W) PTE_X.

Lemma tpage_app m pg p q : tpage m pg (p ++ q) = tpage m pg p ≫= λ t, tpage m t q.
Proof. revert pg. induction p as [|i p IH]; intros pg; simpl; [done|]. destruct (valid _); [apply IH|done]. Qed.

Lemma vpath_nil : vpath [].
Proof. split; [simpl; lia|constructor]. Qed.
Lemma vpath_app_inv p q : vpath (p ++ q) → vpath p.
Proof. intros [H1 H2]. rewrite length_app in H1. apply Forall_app in H2 as [? _]. split; [lia|done]. Qed.
Lemma vpath_snoc p i : vpath (p ++ [i]) ↔ vpath p ∧ (length p < 2)%nat ∧ 0 ≤ i < 512.
Proof.
  unfold vpath. rewrite length_app, Forall_app, Forall_singleton. simpl. split.
  - intros (? & ? & ?). split_and!; try done; lia.
  - intros ((? & ?) & ? & ?). split_and!; try done; lia.
Qed.
Lemma vpath_of_vpath va : vpath (vpath_of va).
Proof. split; [done|]. repeat constructor; apply PX_range; lia. Qed.

Section tree.
Context (end_ : Z).
Local Abbreviation is_page := (is_page end_).
Local Abbreviation alloc_rep := (alloc_rep end_).

Record pt_ok (m : mem) (root : Z) (avail : list Z) : Prop := {
  pt_page : ∀ path p, vpath path → tpage m root path = Some p → is_page m p ∧ p ∉ avail;
  pt_inj : ∀ p1 p2 p, vpath p1 → vpath p2 → tpage m root p1 = Some p → tpage m root p2 = Some p → p1 = p2;
  pt_inner : ∀ path p i, vpath (path ++ [i]) → tpage m root path = Some p →
    valid (rd m (p + 8 * i)) = true → Z.land (rd m (p + 8 * i)) RWX = 0 }.

Definition same_some (m m' : mem) : Prop := ∀ x, is_Some (m !! x) → is_Some (m' !! x).
Definition in_page (p x : Z) : Prop := p ≤ x < p + PGSIZE.

Lemma page_disj m p q x : is_page m p → is_page m q → in_page p x → in_page q x → p = q.
Proof. intros (Hp & _) (Hq & _) ??. by eapply page_unique. Qed.

Lemma slot_in_page m p i x : is_page m p → 0 ≤ i < 512 → p + 8 * i ≤ x < p + 8 * i + 8 → in_page p x.
Proof. intros _ ??. unfold in_page, PGSIZE. lia. Qed.

Lemma slot_mapped m p i : is_page m p → 0 ≤ i < 512 → mapped m (p + 8 * i) 8.
Proof. intros (_ & _ & _ & Hm) Hi. eapply mapped_shrink; [exact Hm|lia|unfold PGSIZE; lia]. Qed.

Lemma slot_disj m p i q j x : is_page m p → is_page m q → 0 ≤ i < 512 → 0 ≤ j < 512 → (p, i) ≠ (q, j) →
  p + 8 * i ≤ x < p + 8 * i + 8 → ¬ (q + 8 * j ≤ x < q + 8 * j + 8).
Proof.
  intros Hp Hq Hi Hj Hne Hx Hy. assert (p = q) as -> by (eapply page_disj; eauto using slot_in_page).
  apply Hne. f_equal. lia.
Qed.

(** ** A write to one entry *)

(** Between [m] and [m'] the entry [i] of the table at [path] was set to [v],
    and no other entry of the tree changed. *)
Record slot_write (m m' : mem) (root : Z) (path : list Z) (p i v : Z) : Prop := {
  sw_at : tpage m root path = Some p;
  sw_path : vpath path;
  sw_index : 0 ≤ i < 512;
  sw_some : same_some m m';
  sw_new : rd m' (p + 8 * i) = v;
  sw_old : ∀ path' q j, vpath path' → 0 ≤ j < 512 → tpage m root path' = Some q → (path', j) ≠ (path, i) →
    rd m' (q + 8 * j) = rd m (q + 8 * j) }.

Lemma sw_tpage m m' root path p i v ρ :
  slot_write m m' root path p i v → vpath ρ → ¬ (path ++ [i]) `prefix_of` ρ →
  tpage m' root ρ = tpage m root ρ.
Proof.
  intros Hw. induction ρ as [|j ρ IH] using rev_ind; intros Hv Hpre; [done|].
  pose proof Hv as (Hvr & Hlen & Hj)%vpath_snoc. rewrite !tpage_app.
  rewrite IH; [|done|intros Hp; apply Hpre; by apply prefix_app_r].
  destruct (tpage m root ρ) as [q|] eqn:E; [|done]. simpl.
  rewrite (sw_old _ _ _ _ _ _ _ Hw ρ); try done. intros [= -> ->]. by apply Hpre.
Qed.

(** A write at a leaf leaves the tree alone. *)
Lemma sw_leaf_tpage m m' root path p i v ρ :
  slot_write m m' root path p i v → length path = 2%nat → vpath ρ → tpage m' root ρ = tpage m root ρ.
Proof.
  intros Hw Hl Hv. eapply sw_tpage; [done|done|]. intros Hp%prefix_length.
  rewrite length_app, Hl in Hp. destruct Hv as [Hv _]. simpl in Hp. lia.
Qed.

(** A leaf write preserves the tree's invariant for any set of available pages
    that it was disjoint from. *)
Lemma sw_leaf_ok m m' root path p i v avail :
  slot_write m m' root path p i v → length path = 2%nat → pt_ok m root avail → pt_ok m' root avail.
Proof.
  intros Hw Hl [H1 H2 H3]. pose proof (λ ρ, sw_leaf_tpage _ _ _ _ _ _ _ ρ Hw Hl) as Ht. split.
  - intros ρ q Hv. rewrite Ht by done. intros Hq. destruct (H1 _ _ Hv Hq) as [Hp ?]. split; [|done].
    eapply is_page_frame; [exact Hp|]. apply Hw.
  - intros ρ1 ρ2 q Hv1 Hv2. rewrite !Ht by done. by apply H2.
  - intros ρ q j Hv. pose proof (proj1 (vpath_snoc _ _) Hv) as (Hvr & Hlr & Hj). rewrite Ht by done. intros Hq.
    rewrite (sw_old _ _ _ _ _ _ _ Hw ρ q j) by (try done; intros [= -> ->]; lia). by eapply H3.
Qed.

Lemma sw_leaf_pte m m' root va p v :
  slot_write m m' root (vpath_of va) p (PX 0 va) v → 0 ≤ va < MAXVA → va mod PGSIZE = 0 →
  ∀ va', 0 ≤ va' < MAXVA → va' mod PGSIZE = 0 →
    pte_at m' root va' = if decide (va' = va) then v else pte_at m root va'.
Proof.
  intros Hw Hva Ha va' Hva' Ha'. unfold pte_at.
  rewrite (sw_leaf_tpage _ _ _ _ _ _ _ (vpath_of va') Hw) by (done || apply vpath_of_vpath).
  case_decide as Heq.
  - subst va'. rewrite (sw_at _ _ _ _ _ _ _ Hw). apply Hw.
  - destruct (tpage m root (vpath_of va')) as [q|] eqn:E; [|done].
    eapply (sw_old _ _ _ _ _ _ _ Hw); [apply vpath_of_vpath|apply PX_range; lia|done|].
    intros [= E2 E1 E0]. apply Heq. by apply PX_inj.
Qed.

(** Memory writes that are slot writes. *)
Lemma slot_write_intro m m' root path p i v avail :
  pt_ok m root avail → tpage m root path = Some p → vpath path → 0 ≤ i < 512 → same_some m m' →
  rd m' (p + 8 * i) = v →
  (∀ q x, is_table m root q → in_page q x → ¬ (p + 8 * i ≤ x < p + 8 * i + 8) → m' !! x = m !! x) →
  slot_write m m' root path p i v.
Proof.
  intros Hok Hp Hv Hi Hs Hn Hf. split; try done. intros ρ q j Hvr Hj Hq Hne. apply rd_frame. intros x Hx.
  destruct (pt_page _ _ _ Hok _ _ Hvr Hq) as [Hqp _]. destruct (pt_page _ _ _ Hok _ _ Hv Hp) as [Hpp _].
  apply (Hf q); [by exists ρ|by eapply slot_in_page|].
  eapply (slot_disj m q j p i); try done. intros [= -> ->]. apply Hne. f_equal.
  by eapply (pt_inj _ _ _ Hok).
Qed.

(** ** A new table *)

Section new_table.
Context (m m' : mem) (root : Z) (path : list Z) (p i pg : Z) (avail : list Z).
Context (Hok : pt_ok m root (pg :: avail)) (Hpg : is_page m pg) (Hnew : pg ∉ avail).
Context (Hw : slot_write m m' root path p i (Z.lor (PA2PTE pg) PTE_V)).
Context (Hlen : (length path < 2)%nat) (Hinv : valid (rd m (p + 8 * i)) = false).
Context (Hzero : ∀ x, in_page pg x → m' !! x = Some 0).

Lemma pg_range : 0 ≤ pg < 2 ^ 56 ∧ pg mod PGSIZE = 0.
Proof. destruct Hpg as (H1 & H2 & H3 & _). unfold PHYSTOP, KERNBASE in H2. split; [lia|done]. Qed.

Lemma new_entry : valid (rd m' (p + 8 * i)) = true ∧ PTE2PA (rd m' (p + 8 * i)) = pg ∧
  Z.land (rd m' (p + 8 * i)) RWX = 0.
Proof.
  destruct pg_range as [Hr Ha]. rewrite (sw_new _ _ _ _ _ _ _ Hw). unfold valid.
  change PTE_V with 1. split_and!.
  - apply bool_decide_eq_true. rewrite PTE_flags_lor by lia. done.
  - apply PTE2PA_PA2PTE; [done|done|lia].
  - change RWX with 14. rewrite PTE_flags_lor by lia. done.
Qed.

Lemma new_at : tpage m' root (path ++ [i]) = Some pg.
Proof.
  rewrite tpage_app, (sw_tpage _ _ _ _ _ _ _ path Hw); [|apply Hw|].
  - rewrite (sw_at _ _ _ _ _ _ _ Hw). simpl. destruct new_entry as (-> & -> & _). done.
  - intros Hp%prefix_length. rewrite length_app in Hp. simpl in Hp. lia.
Qed.

Lemma new_empty j : 0 ≤ j < 512 → rd m' (pg + 8 * j) = 0.
Proof. intros Hj. apply rd_zero. intros x Hx. apply Hzero. by eapply slot_in_page. Qed.

(** The tables after: those before, and the new one. *)
Lemma new_cases ρ q : vpath ρ → tpage m' root ρ = Some q →
  (ρ = path ++ [i] ∧ q = pg) ∨ (¬ (path ++ [i]) `prefix_of` ρ ∧ tpage m root ρ = Some q).
Proof.
  intros Hv Hq. destruct (decide ((path ++ [i]) `prefix_of` ρ)) as [[σ ->]|Hn].
  - left. rewrite tpage_app, new_at in Hq. simpl in Hq. destruct σ as [|j σ].
    + rewrite app_nil_r. by injection Hq as ->.
    + exfalso. simpl in Hq. rewrite new_empty, valid_0 in Hq; [done|]. destruct Hv as [_ Hf].
      rewrite Forall_app, Forall_cons in Hf. tauto.
  - right. split; [done|]. by erewrite sw_tpage in Hq.
Qed.

Lemma old_not_through ρ q : vpath ρ → tpage m root ρ = Some q → ¬ (path ++ [i]) `prefix_of` ρ.
Proof.
  intros Hv Hq [σ ->]. rewrite !tpage_app, (sw_at _ _ _ _ _ _ _ Hw) in Hq. simpl in Hq. by rewrite Hinv in Hq.
Qed.
Lemma old_kept ρ q : vpath ρ → tpage m root ρ = Some q → tpage m' root ρ = Some q.
Proof. intros Hv Hq. rewrite <- Hq. eapply sw_tpage; [done|done|]. by eapply old_not_through. Qed.

Lemma new_ok : pt_ok m' root avail.
Proof.
  destruct Hok as [H1 H2 H3].
  assert (Hnt : ∀ ρ q, vpath ρ → tpage m root ρ = Some q → q ≠ pg).
  { intros ρ q Hv Hq ->. destruct (H1 _ _ Hv Hq) as [_ Hn]. set_solver. }
  split.
  - intros ρ q Hv Hq. destruct (new_cases ρ q Hv Hq) as [[-> ->]|[_ Hq']].
    + split; [|done]. eapply is_page_frame; [exact Hpg|apply Hw].
    + destruct (H1 _ _ Hv Hq') as [Hp Hn]. split; [eapply is_page_frame; [exact Hp|apply Hw]|set_solver].
  - intros ρ1 ρ2 q Hv1 Hv2 Hq1 Hq2.
    destruct (new_cases ρ1 q Hv1 Hq1) as [[-> ->]|[_ Hq1']], (new_cases ρ2 _ Hv2 Hq2) as [[-> E]|[_ Hq2']].
    + done.
    + by apply Hnt in Hq2'.
    + subst q. by apply Hnt in Hq1'.
    + by eapply H2.
  - intros ρ q j Hv Hq Hval. pose proof (proj1 (vpath_snoc _ _) Hv) as (Hvr & Hlr & Hj).
    destruct (new_cases ρ q Hvr Hq) as [[-> ->]|[_ Hq']].
    + by rewrite new_empty, valid_0 in Hval by done.
    + destruct (decide ((ρ, j) = (path, i))) as [[= -> ->]|Hne].
      * rewrite (sw_at _ _ _ _ _ _ _ Hw) in Hq'. injection Hq' as <-. apply new_entry.
      * rewrite (sw_old _ _ _ _ _ _ _ Hw ρ q j) in * by done. by eapply H3.
Qed.

Lemma new_pte va : pte_at m' root va = pte_at m root va.
Proof.
  unfold pte_at. pose proof (vpath_of_vpath va) as Hv.
  destruct (tpage m root (vpath_of va)) as [q|] eqn:E.
  - rewrite (old_kept _ _ Hv E). eapply (sw_old _ _ _ _ _ _ _ Hw); try done; [apply PX_range; lia|].
    intros [= <- _]. simpl in Hlen. lia.
  - destruct (tpage m' root (vpath_of va)) as [q|] eqn:E'; [|done].
    destruct (new_cases _ _ Hv E') as [[_ ->]|[_ ?]]; [|congruence]. apply new_empty. apply PX_range. lia.
Qed.
End new_table.
End tree.

(** ** [walk], [mappages] and [uvmunmap] on well-formed page tables

    [vm_ok s root free]: the allocator holds the pages [free] and the tree at
    [root] is well formed and apart from them.  [grows]: what an operation that
    may add tables does to the rest of memory. *)

Section vm_walk.
Context (end_ : Z).
Local Abbreviation is_page := (is_page end_).
Local Abbreviation alloc_rep := (alloc_rep end_).
Local Abbreviation pt_ok := (pt_ok end_).
Local Abbreviation kfree := (kfree end_).

Record vm_ok (s : kmem) (root : Z) (free : list Z) : Prop := {
  vm_alloc : alloc_rep s free;
  vm_pt : pt_ok (phys s) root free }.

(** From [m] to [m'] tables were added, from pages of [free]; memory outside the
    tables and the free pages is as before. *)
Record grows (root : Z) (m m' : mem) (free free' : list Z) : Prop := {
  g_some : same_some m m';
  g_frame : ∀ x, (∀ p, is_table m root p ∨ p ∈ free → ¬ in_page p x) → m' !! x = m !! x;
  g_tabs : ∀ p, is_table m' root p → is_table m root p ∨ p ∈ free;
  g_keep : ∀ path p, vpath path → tpage m root path = Some p → tpage m' root path = Some p;
  g_free : ∃ used, free = used ++ free' ∧ ∀ p, p ∈ used → is_table m' root p }.

Lemma same_some_refl m : same_some m m.
Proof. by intros x. Qed.
Lemma same_some_trans m1 m2 m3 : same_some m1 m2 → same_some m2 m3 → same_some m1 m3.
Proof. unfold same_some. auto. Qed.

Lemma grows_refl root m free : grows root m m free free.
Proof. split; try by intros ?; try by intros; left. exists []. split; [done|]. intros p Hp. by apply elem_of_nil in Hp. Qed.

Lemma grows_trans root m1 m2 m3 f1 f2 f3 :
  grows root m1 m2 f1 f2 → grows root m2 m3 f2 f3 → grows root m1 m3 f1 f3.
Proof.
  intros [A1 A2 A3 A4 (u1 & -> & A5)] [B1 B2 B3 B4 (u2 & -> & B5)]. split.
  - by eapply same_some_trans.
  - intros x Hx. rewrite B2; [by apply A2|]. intros p [Hp|Hp].
    + by apply Hx, A3.
    + apply Hx. right. set_solver.
  - intros p [Hp|Hp]%B3; [by apply A3|]. right. set_solver.
  - auto.
  - exists (u1 ++ u2). split; [by rewrite app_assoc|]. intros p [Hp|Hp]%elem_of_app; [|by apply B5].
    destruct (A5 p Hp) as (path & Hv & Ht). exists path. auto.
Qed.

(** ** The state's accessors *)

Lemma set_phys_id s : set_phys (phys s) s = s.
Proof. by destruct s. Qed.

Lemma ptload_ok s a : mapped (phys s) a 8 → ptload a s = Ok (rd (phys s) a, s).
Proof. intros Hm. unfold ptload, pmem. rewrite (ld64_rd _ _ Hm). simpl. by rewrite set_phys_id. Qed.

Lemma pmem_run {A} (f : M mem A) s a m' : f (phys s) = Ok (a, m') → pmem f s = Ok (a, set_phys m' s).
Proof. intros H. unfold pmem. by rewrite H. Qed.

Lemma alloc_frame s m' l :
  alloc_rep s l → (∀ p x, p ∈ l → in_page p x → m' !! x = phys s !! x) → same_some (phys s) m' →
  alloc_rep (set_phys m' s) l.
Proof.
  intros [Hc Hp Hn Hl Hh] Hf Hs. split; simpl; try done.
  - eapply chain_frame; [exact Hc|]. intros p x Hpl Hx. apply (Hf p); [done|]. unfold in_page, PGSIZE. lia.
  - eapply Forall_impl; [exact Hp|]. intros p Hpp. by eapply is_page_frame.
Qed.

Lemma alloc_page s p l : alloc_rep s l → p ∈ l → is_page (phys s) p.
Proof. intros H Hp. pose proof (ar_pages _ _ _ H) as Hf. rewrite Forall_forall in Hf. by apply Hf. Qed.

Lemma free_disj m p q x l : Forall (is_page m) l → is_page m p → p ∉ l → q ∈ l → in_page p x → ¬ in_page q x.
Proof.
  intros Hl Hp Hn Hq Hx Hy. rewrite Forall_forall in Hl. assert (p = q) as -> by eauto using page_disj. done.
Qed.

Lemma page_ne_0 m p : is_page m p → p ≠ 0.
Proof. intros (_ & _ & H & _). lia. Qed.

(** A store to an entry. *)
Lemma ptstore_ok s a v :
  mapped (phys s) a 8 → 0 ≤ v < 2 ^ 64 →
  ∃ m', ptstore a v s = Ok (tt, set_phys m' s) ∧ rd m' a = v ∧ same_some (phys s) m' ∧
    ∀ x, ¬ (a ≤ x < a + 8) → m' !! x = phys s !! x.
Proof.
  intros Hm Hv. destruct (st64_ok _ a v Hm) as (m' & E & Hw & Hf). exists m'.
  split; [by apply pmem_run|]. split; [by apply rd_word|]. split.
  - intros x Hx. destruct (decide (a ≤ x < a + 8)) as [Hi|Ho]; [|rewrite Hf by lia; done].
    replace x with (a + Z.of_nat (Z.to_nat (x - a))) by lia. rewrite Hw by (rewrite length_le_bytes; lia).
    apply lookup_lt_is_Some_2. rewrite length_le_bytes. lia.
  - intros x Hx. apply Hf. lia.
Qed.

(** A fresh page, filled with [c]. *)
Lemma fresh_page s pg l c :
  alloc_rep s (pg :: l) →
  ∃ s1 m2, kalloc s = Ok (pg, s1) ∧ pmem (memset pg c PGSIZE) s1 = Ok (pg, set_phys m2 s1) ∧
    alloc_rep (set_phys m2 s1) l ∧ same_some (phys s) m2 ∧
    (∀ x, ¬ in_page pg x → m2 !! x = phys s !! x) ∧ (∀ x, in_page pg x → m2 !! x = Some (u8 c)).
Proof.
  intros Hr. pose proof (alloc_page _ pg _ Hr ltac:(set_solver)) as Hpg.
  destruct (kalloc_some _ s pg l Hr) as (s1 & E1 & Hr1 & [Ho Hs] & _).
  pose proof Hpg as (_ & _ & _ & Hm). apply (mapped_frame _ _ _ _ Hm) in Hs as Hm1.
  destruct (memset_ok (phys s1) pg c PGSIZE) as (m2 & E2 & F2); [done|done|].
  assert (Hs2 : same_some (phys s1) m2) by (intros x Hx; rewrite F2; by case_decide).
  exists s1, m2. split; [done|]. split; [by apply pmem_run|]. split; [|split; [|split]].
  - apply alloc_frame; [done| |done]. intros p x Hp Hx. rewrite F2, decide_False; [done|]. intros Hy.
    pose proof (ar_nodup _ _ _ Hr) as [Hn _]%NoDup_cons.
    assert (p = pg) as ->; [|done]. eapply page_disj; eauto. eapply alloc_page; [exact Hr|set_solver].
  - by eapply same_some_trans.
  - intros x Hx. rewrite F2, decide_False by done. apply Ho. unfold in_page in Hx. lia.
  - intros x Hx. by rewrite F2, decide_True.
Qed.

(** ** [walk] *)

Section step.
Context (s : kmem) (root : Z) (path : list Z) (p i pg : Z) (free : list Z).
Context (Hok : vm_ok s root (pg :: free)) (Hp : tpage (phys s) root path = Some p) (Hv : vpath (path ++ [i])).
Context (Hinv : valid (rd (phys s) (p + 8 * i)) = false).

Lemma new_table_step :
  ∃ s1 m2 m3, kalloc s = Ok (pg, s1) ∧ pmem (memset pg 0 PGSIZE) s1 = Ok (pg, set_phys m2 s1) ∧
    ptstore (p + 8 * i) (Z.lor (PA2PTE pg) PTE_V) (set_phys m2 s1) = Ok (tt, set_phys m3 s1) ∧
    vm_ok (set_phys m3 s1) root free ∧ grows root (phys s) m3 (pg :: free) free ∧
    tpage m3 root (path ++ [i]) = Some pg ∧ (∀ va, pte_at m3 root va = pte_at (phys s) root va).
Proof.
  destruct Hok as [Hr Hpt]. apply vpath_snoc in Hv as (Hvp & Hlen & Hi).
  pose proof (alloc_page _ pg _ Hr ltac:(set_solver)) as Hpg.
  pose proof (ar_nodup _ _ _ Hr) as [Hnew _]%NoDup_cons.
  destruct (pt_page _ _ _ _ Hpt _ _ Hvp Hp) as [Hpp Hpf].
  assert (Hpne : p ≠ pg) by (intros ->; set_solver).
  destruct (fresh_page s pg free 0 Hr) as (s1 & m2 & E1 & E2 & Hr2 & Hs2 & Ho2 & Hz2).
  assert (Hrange : 0 ≤ pg < 2 ^ 56) by (destruct Hpg as (_ & Hx & Hx0 & _); unfold PHYSTOP, KERNBASE in Hx; lia).
  destruct (ptstore_ok (set_phys m2 s1) (p + 8 * i) (Z.lor (PA2PTE pg) PTE_V)) as (m3 & E3 & Hn3 & Hs3 & Ho3).
  { eapply mapped_frame; [|exact Hs2]. by eapply slot_mapped. }
  { apply PTE_lor_range; [done|]. change PTE_V with 1. lia. }
  simpl in Ho3, Hs3. change (set_phys m3 (set_phys m2 s1)) with (set_phys m3 s1) in E3.
  assert (Hzero : ∀ x, in_page pg x → m3 !! x = Some 0).
  { intros x Hx. rewrite Ho3; [by rewrite Hz2|]. intros Hy. apply Hpne.
    eapply (page_disj end_); [exact Hpp|exact Hpg|eapply slot_in_page; eauto|done]. }
  assert (Hw : slot_write (phys s) m3 root path p i (Z.lor (PA2PTE pg) PTE_V)).
  { eapply slot_write_intro; try done; [by eapply same_some_trans|].
    intros q x (ρ & Hρ & Hq) Hx Hns. rewrite Ho3 by done. apply Ho2. intros Hy.
    destruct (pt_page _ _ _ _ Hpt _ _ Hρ Hq) as [Hqp Hqf].
    assert (q = pg) as -> by eauto using page_disj. set_solver. }
  exists s1, m2, m3. split_and!; try done.
  - split; [|eapply new_ok; eauto].
    apply (alloc_frame (set_phys m2 s1) m3 free Hr2); [|done].
    intros q x Hq Hx. apply Ho3. intros Hy. apply Hpf.
    assert (p = q) as <-; [|set_solver]. eapply (page_disj end_ (phys s)); [done| |by eapply slot_in_page|done].
    eapply alloc_page; [exact Hr|set_solver].
  - split.
    + by eapply same_some_trans.
    + intros x Hx. rewrite Ho3, Ho2; [done| |].
      * apply Hx. right. set_solver.
      * intros Hy. eapply (Hx p); [left; by exists path|by eapply slot_in_page].
    + intros q (ρ & Hρ & Hq). destruct (new_cases end_ _ _ _ _ _ _ _ _ Hpt Hpg Hnew Hw Hlen Hzero ρ q Hρ Hq) as [[_ ->]|[_ Hq']].
      * right. set_solver.
      * left. by exists ρ.
    + intros ρ q Hρ Hq. eapply old_kept; eauto.
    + exists [pg]. split; [done|]. intros q ->%list_elem_of_singleton. exists (path ++ [i]).
      split; [by apply vpath_snoc|]. eapply new_at; eauto.
  - eapply new_at; eauto.
  - intros va. eapply new_pte; eauto.
Qed.
End step.

(** The rest of the path to [va] below [level] tables. *)
Fixpoint path_from (level : nat) (va : Z) : list Z :=
  match level with O => [] | S l => PX (Z.of_nat level) va :: path_from l va end.
Lemma path_from_2 va : path_from 2 va = vpath_of va.
Proof. done. Qed.
Lemma length_path_from l va : length (path_from l va) = l.
Proof. induction l; simpl; congruence. Qed.

Lemma walk_loop_alloc level va s root path p free :
  vm_ok s root free → tpage (phys s) root path = Some p → vpath (path ++ path_from level va) →
  ∃ r s' free', walk_loop level p va true s = Ok (r, s') ∧ vm_ok s' root free' ∧
    grows root (phys s) (phys s') free free' ∧ (∀ va', pte_at (phys s') root va' = pte_at (phys s) root va') ∧
    match r with
    | Some q => tpage (phys s') root (path ++ path_from level va) = Some q
    | None => free' = []
    end.
Proof.
  revert s path p free. induction level as [|level IH]; intros s path p free Hok Hp Hv.
  - exists (Some p), s, free. split_and!; try done; [apply grows_refl|]. by rewrite app_nil_r.
  - cbn [walk_loop path_from] in *. set (i := PX (Z.of_nat (S level)) va) in *.
    assert (Hv1 : vpath (path ++ [i])).
    { eapply vpath_app_inv. rewrite <- app_assoc. exact Hv. }
    pose proof (proj1 (vpath_snoc _ _) Hv1) as (Hvp & _ & Hi).
    destruct (pt_page _ _ _ _ (vm_pt _ _ _ Hok) _ _ Hvp Hp) as [Hpp _].
    rewrite (bind_Ok_eq _ _ _ _ _ (ptload_ok s _ (slot_mapped _ _ _ _ Hpp Hi))).
    replace (path ++ i :: path_from level va) with ((path ++ [i]) ++ path_from level va) in *
      by (by rewrite <- app_assoc).
    destruct (valid (rd (phys s) (p + 8 * i))) eqn:Hval.
    + apply IH; [done| |done]. rewrite tpage_app, Hp. simpl. by rewrite Hval.
    + cbn [negb]. destruct free as [|pg free].
      * destruct (kalloc_none _ s (vm_alloc _ _ _ Hok)) as (s' & E & Hr & Hph).
        rewrite (bind_Ok_eq _ _ _ _ _ E). rewrite bool_decide_true by done.
        exists None, s', []. split; [done|]. split; [split; [done|rewrite Hph; apply Hok]|].
        rewrite Hph. split_and!; try done. apply grows_refl.
      * destruct (new_table_step s root path p i pg free Hok Hp Hv1 Hval)
          as (s1 & m2 & m3 & E1 & E2 & E3 & Hok' & Hg & Ht & Hpte).
        rewrite (bind_Ok_eq _ _ _ _ _ E1). rewrite bool_decide_false
          by (eapply page_ne_0, alloc_page; [apply Hok|set_solver]).
        rewrite (bind_Ok_eq _ _ _ _ _ E2), (bind_Ok_eq _ _ _ _ _ E3).
        destruct (IH (set_phys m3 s1) (path ++ [i]) pg free Hok' Ht Hv) as (r & s' & free' & E & H1 & H2 & H3 & H4).
        exists r, s', free'. split; [done|]. split; [done|]. split; [by eapply grows_trans|]. split; [|done].
        intros va'. by rewrite H3.
Qed.

(** [walk] with allocation: the address of the entry, or 0 when memory is out. *)
Lemma walk_alloc va s root free :
  vm_ok s root free → 0 ≤ va < MAXVA →
  ∃ r s' free', walk root va true s = Ok (r, s') ∧ vm_ok s' root free' ∧
    grows root (phys s) (phys s') free free' ∧ (∀ va', pte_at (phys s') root va' = pte_at (phys s) root va') ∧
    (r = 0 ∧ free' = [] ∨
     ∃ p, tpage (phys s') root (vpath_of va) = Some p ∧ r = p + 8 * PX 0 va ∧ r ≠ 0).
Proof.
  intros Hok Hva. unfold walk. rewrite bool_decide_false by lia.
  destruct (walk_loop_alloc 2 va s root [] root free Hok eq_refl) as (r & s' & free' & E & H1 & H2 & H3 & H4).
  { apply vpath_of_vpath. }
  rewrite (bind_Ok_eq _ _ _ _ _ E). destruct r as [p|].
  - exists (p + 8 * PX 0 va), s', free'. split_and!; try done. right. exists p. split; [done|]. split; [done|].
    destruct (pt_page _ _ _ _ (vm_pt _ _ _ H1) _ _ (vpath_of_vpath va) H4) as [(_ & _ & Hp & _) _].
    pose proof (PX_range 0 va). lia.
  - exists 0, s', free'. split_and!; try done. by left.
Qed.

(** [walk] without allocation reads only. *)
Lemma walk_loop_ro level va s root path p avail :
  pt_ok (phys s) root avail → tpage (phys s) root path = Some p → vpath (path ++ path_from level va) →
  walk_loop level p va false s = Ok (tpage (phys s) root (path ++ path_from level va), s).
Proof.
  intros Hok. revert path p. induction level as [|level IH]; intros path p Hp Hv.
  - rewrite app_nil_r. simpl. by rewrite Hp.
  - cbn [walk_loop path_from] in *. set (i := PX (Z.of_nat (S level)) va) in *.
    assert (Hv1 : vpath (path ++ [i])).
    { eapply vpath_app_inv. rewrite <- app_assoc. exact Hv. }
    pose proof (proj1 (vpath_snoc _ _) Hv1) as (Hvp & _ & Hi).
    destruct (pt_page _ _ _ _ Hok _ _ Hvp Hp) as [Hpp _].
    rewrite (bind_Ok_eq _ _ _ _ _ (ptload_ok s _ (slot_mapped _ _ _ _ Hpp Hi))).
    replace (path ++ i :: path_from level va) with ((path ++ [i]) ++ path_from level va) in *
      by (by rewrite <- app_assoc).
    assert (Hnext : tpage (phys s) root (path ++ [i]) =
      if valid (rd (phys s) (p + 8 * i)) then Some (PTE2PA (rd (phys s) (p + 8 * i))) else None).
    { rewrite tpage_app, Hp. done. }
    destruct (valid (rd (phys s) (p + 8 * i))) eqn:Hval.
    + by apply IH.
    + cbn [negb]. rewrite tpage_app, Hnext. done.
Qed.

(** Where the tables exist, [alloc] makes no difference. *)
Lemma walk_loop_present level alloc va s root path p q avail :
  pt_ok (phys s) root avail → tpage (phys s) root path = Some p → vpath (path ++ path_from level va) →
  tpage (phys s) root (path ++ path_from level va) = Some q →
  walk_loop level p va alloc s = Ok (Some q, s).
Proof.
  intros Hok. revert path p. induction level as [|level IH]; intros path p Hp Hv Hq.
  - rewrite app_nil_r in Hq. simpl. by simplify_eq.
  - cbn [walk_loop path_from] in *. set (i := PX (Z.of_nat (S level)) va) in *.
    replace (path ++ i :: path_from level va) with ((path ++ [i]) ++ path_from level va) in *
      by (by rewrite <- app_assoc).
    pose proof (vpath_app_inv _ _ Hv) as Hv1. pose proof (proj1 (vpath_snoc _ _) Hv1) as (Hvp & _ & Hi).
    destruct (pt_page _ _ _ _ Hok _ _ Hvp Hp) as [Hpp _].
    rewrite (bind_Ok_eq _ _ _ _ _ (ptload_ok s _ (slot_mapped _ _ _ _ Hpp Hi))).
    rewrite (tpage_app _ _ (path ++ [i])), (tpage_app _ _ path), Hp in Hq. simpl in Hq.
    destruct (valid (rd (phys s) (p + 8 * i))) eqn:Hval; [|done].
    apply (IH (path ++ [i])); [|done|].
    + rewrite tpage_app, Hp. simpl. by rewrite Hval.
    + rewrite !tpage_app, Hp. simpl. by rewrite Hval.
Qed.
Lemma walk_present va alloc s root q avail :
  pt_ok (phys s) root avail → 0 ≤ va < MAXVA → tpage (phys s) root (vpath_of va) = Some q →
  walk root va alloc s = Ok (q + 8 * PX 0 va, s).
Proof.
  intros Hok Hva Hq. unfold walk. rewrite bool_decide_false by lia.
  by rewrite (bind_Ok_eq _ _ _ _ _ (walk_loop_present 2 alloc va s root [] root q avail Hok eq_refl (vpath_of_vpath va) Hq)).
Qed.

Lemma walk_ro va s root avail :
  pt_ok (phys s) root avail → 0 ≤ va < MAXVA →
  walk root va false s =
    Ok (match tpage (phys s) root (vpath_of va) with Some p => p + 8 * PX 0 va | None => 0 end, s).
Proof.
  intros Hok Hva. unfold walk. rewrite bool_decide_false by lia.
  by rewrite (bind_Ok_eq _ _ _ _ _ (walk_loop_ro 2 va s root [] root avail Hok eq_refl (vpath_of_vpath va))).
Qed.

(** The entry that [walk] finds can be read; when there is none it counts as 0. *)
Lemma walk_entry va s root avail :
  pt_ok (phys s) root avail → 0 ≤ va < MAXVA →
  ∃ r, walk root va false s = Ok (r, s) ∧
    (r = 0 ∧ pte_at (phys s) root va = 0 ∨
     r ≠ 0 ∧ ptload r s = Ok (pte_at (phys s) root va, s) ∧
     ∃ p, tpage (phys s) root (vpath_of va) = Some p ∧ r = p + 8 * PX 0 va).
Proof.
  intros Hok Hva. eexists. split; [by eapply walk_ro|]. unfold pte_at.
  destruct (tpage (phys s) root (vpath_of va)) as [p|] eqn:E; [|by left].
  destruct (pt_page _ _ _ _ Hok _ _ (vpath_of_vpath va) E) as [Hp _].
  pose proof (PX_range 0 va). right. split; [destruct Hp as (_ & _ & ? & _); lia|].
  split; [|by exists p]. apply ptload_ok. eapply slot_mapped; [done|lia].
Qed.

Lemma walkaddr_ok va s root avail :
  pt_ok (phys s) root avail → 0 ≤ va →
  walkaddr root va s = Ok (
    let v := pte_at (phys s) root va in
    if bool_decide (va < MAXVA) && valid v && bool_decide (Z.land v PTE_U ≠ 0) then PTE2PA v else 0, s).
Proof.
  intros Hok Hva. unfold walkaddr. case_bool_decide as Hm; [by rewrite bool_decide_false by lia|].
  rewrite (bool_decide_true (va < MAXVA)) by lia. cbn [andb].
  destruct (walk_entry va s root avail Hok) as (r & E & [[-> H0]|(Hr & Hl & _)]); [lia| |].
  - rewrite (bind_Ok_eq _ _ _ _ _ E). rewrite bool_decide_true by done. by rewrite H0.
  - rewrite (bind_Ok_eq _ _ _ _ _ E). rewrite bool_decide_false by done. rewrite (bind_Ok_eq _ _ _ _ _ Hl).
    cbn zeta. destruct (valid (pte_at (phys s) root va)); cbn [negb andb]; [|done].
    case_bool_decide as Hu; [by rewrite bool_decide_false by tauto|by rewrite bool_decide_true].
Qed.
End vm_walk.

(** ** [mappages], [uvmunmap] and the address space

    [as_ok s root free]: besides [vm_ok], the pages mapped below the trap frame
    are distinct pages of RAM, none of them free or a table.  [vstep]: what any
    operation on one address space does to the rest of memory. *)

(** ** The page loop *)

Lemma pages_spec n : Z.of_nat (pages n) * PGSIZE < n + PGSIZE ∨ pages n = 0%nat.
Proof.
  unfold pages, PGSIZE. destruct (decide (0 < n)) as [Hn|Hn].
  - left. pose proof (Z.div_mod (n + 4096 - 1) 4096). pose proof (Z.mod_pos_bound (n + 4096 - 1) 4096).
    pose proof (Z.div_pos (n + 4096 - 1) 4096). lia.
  - right. assert ((n + 4096 - 1) / 4096 < 1) by (apply Z.div_lt_upper_bound; lia). lia.
Qed.
Lemma pages_cover n : n ≤ Z.of_nat (pages n) * PGSIZE.
Proof.
  unfold pages, PGSIZE. pose proof (Z.div_mod (n + 4096 - 1) 4096).
  pose proof (Z.mod_pos_bound (n + 4096 - 1) 4096). lia.
Qed.
Lemma pages_mul n : 0 ≤ n → pages (n * PGSIZE) = Z.to_nat n.
Proof.
  intros Hn. unfold pages, PGSIZE. f_equal. rewrite <- Z.add_sub_assoc, Z.add_comm, Z.div_add by lia. done.
Qed.

(** Invariant rule: [I a] before the round at [a]; [J a b] when it ends with [b]. *)
Lemma for_pages_ok {T B} (I : Z → T → Prop) (J : Z → B → T → Prop) k a hi (body : Z → M T (option B)) s :
  I a s → 0 ≤ a → hi ≤ a + Z.of_nat k * PGSIZE → (k = 0%nat ∨ a + Z.of_nat k * PGSIZE < hi + PGSIZE) →
  hi + PGSIZE < 2 ^ 64 →
  (∀ b st, a ≤ b < hi → (b - a) mod PGSIZE = 0 → I b st → ∃ r st', body b st = Ok (r, st') ∧
     match r with None => I (b + PGSIZE) st' | Some v => J b v st' end) →
  ∃ r s', for_pages k a hi body s = Ok (r, s') ∧
    match r with
    | None => I (a + Z.of_nat k * PGSIZE) s'
    | Some v => ∃ b, a ≤ b < hi ∧ (b - a) mod PGSIZE = 0 ∧ J b v s'
    end.
Proof.
  unfold PGSIZE. revert a s. induction k as [|k IH]; intros a s HI Ha Hc Hl Hh Hb.
  - exists None, s. split; [simpl; by rewrite bool_decide_false by lia|]. by replace (a + _) with a by lia.
  - cbn [for_pages]. rewrite bool_decide_true by lia.
    destruct (Hb a s) as (r & s1 & E & Hr); [lia|by rewrite Z.sub_diag|done|].
    rewrite (bind_Ok_eq _ _ _ _ _ E). destruct r as [v|].
    + exists (Some v), s1. split; [done|]. exists a. rewrite Z.sub_diag. split; [lia|done].
    + rewrite (u64_small (a + PGSIZE)) by (unfold PGSIZE; lia).
      destruct (IH (a + 4096) s1) as (r & s' & E' & Hr'); try done; try lia.
      * intros b st Hbr Hm. apply Hb; [lia|]. replace (b - a) with (b - (a + 4096) + 1 * 4096) by lia.
        by rewrite Z.mod_add.
      * exists r, s'. split; [done|]. destruct r as [v|].
        -- destruct Hr' as (b & Hbr & Hm & HJ). exists b. split_and!; [lia|lia| |done].
           replace (b - a) with (b - (a + 4096) + 1 * 4096) by lia. by rewrite Z.mod_add.
        -- by replace (a + Z.of_nat (S k) * 4096) with (a + 4096 + Z.of_nat k * 4096) by lia.
Qed.

(** The entry that maps [pa] with [perm]. *)
Definition pte_for (pa perm : Z) : Z := Z.lor (Z.lor (PA2PTE pa) perm) PTE_V.

Lemma lor_V perm : 0 ≤ perm < 2 ^ 10 → 0 ≤ Z.lor perm PTE_V < 2 ^ 10.
Proof.
  intros H. change PTE_V with 1. split; [apply Z.lor_nonneg; lia|].
  destruct (decide (Z.lor perm 1 = 0)) as [->|Hz]; [lia|].
  assert (0 ≤ Z.lor perm 1) by (apply Z.lor_nonneg; lia).
  apply Z.log2_lt_pow2; [lia|]. rewrite Z.log2_lor by lia. apply Z.max_lub_lt; [|simpl; lia].
  destruct (decide (perm = 0)) as [->|]; [simpl; lia|]. apply Z.log2_lt_pow2; lia.
Qed.

Lemma pte_for_ok pa perm : 0 ≤ pa < 2 ^ 56 → pa mod PGSIZE = 0 → 0 ≤ perm < 2 ^ 10 →
  0 ≤ pte_for pa perm < 2 ^ 64 ∧ valid (pte_for pa perm) = true ∧ PTE2PA (pte_for pa perm) = pa ∧
  PTE_FLAGS (pte_for pa perm) = Z.lor perm PTE_V ∧ Z.land (pte_for pa perm) PTE_U = Z.land perm PTE_U.
Proof.
  intros Hp Ha Hf. pose proof (lor_V perm Hf) as Hl. unfold pte_for. rewrite <- Z.lor_assoc.
  split; [by apply PTE_lor_range|]. split; [|split; [by apply PTE2PA_PA2PTE|split]].
  - unfold valid. apply bool_decide_eq_true. rewrite PTE_flags_lor by (done || (change PTE_V with 1; lia)).
    rewrite Z.land_lor_distr_l. intros [_ H]%Z.lor_eq_0_iff. done.
  - unfold PTE_FLAGS. rewrite PTE_flags_lor by (done || lia).
    change 0x3FF with (Z.ones 10). rewrite Z.land_ones by lia. by apply Z.mod_small.
  - rewrite PTE_flags_lor by (done || (change PTE_U with 16; lia)).
    rewrite Z.land_lor_distr_l. change (Z.land PTE_V PTE_U) with 0. by rewrite Z.lor_0_r.
Qed.

Section vm_map.
Context (end_ : Z).
Local Abbreviation is_page := (is_page end_).
Local Abbreviation alloc_rep := (alloc_rep end_).
Local Abbreviation pt_ok := (pt_ok end_).
Local Abbreviation vm_ok := (vm_ok end_).
Local Abbreviation kfree := (kfree end_).

(** A page-aligned address the hardware can translate. *)
Definition va_ok (va : Z) : Prop := 0 ≤ va < MAXVA ∧ va mod PGSIZE = 0.

(** ** A store to a leaf entry *)

Lemma leaf_store s root free va v p :
  vm_ok s root free → va_ok va → tpage (phys s) root (vpath_of va) = Some p → 0 ≤ v < 2 ^ 64 →
  ∃ m', ptstore (p + 8 * PX 0 va) v s = Ok (tt, set_phys m' s) ∧ vm_ok (set_phys m' s) root free ∧
    same_some (phys s) m' ∧ (∀ ρ, vpath ρ → tpage m' root ρ = tpage (phys s) root ρ) ∧
    (∀ x, (∀ q, is_table (phys s) root q → ¬ in_page q x) → m' !! x = phys s !! x) ∧
    ∀ va', va_ok va' → pte_at m' root va' = if decide (va' = va) then v else pte_at (phys s) root va'.
Proof.
  intros [Hr Hpt] [Hva Ha] Hp Hv. pose proof (vpath_of_vpath va) as Hvp.
  destruct (pt_page _ _ _ _ Hpt _ _ Hvp Hp) as [Hpp Hpf]. assert (Hi : 0 ≤ PX 0 va < 512) by (apply PX_range; lia).
  destruct (ptstore_ok s (p + 8 * PX 0 va) v) as (m' & E & Hn & Hs & Ho); [by eapply slot_mapped|done|].
  assert (Hw : slot_write (phys s) m' root (vpath_of va) p (PX 0 va) v).
  { eapply slot_write_intro; try done. intros q x _ _ Hx. by apply Ho. }
  exists m'. split; [done|]. split_and!; try done.
  - split; [|by eapply (sw_leaf_ok end_)]. apply alloc_frame; [done| |done]. intros q x Hq Hx. apply Ho. intros Hy.
    eapply slot_in_page in Hy; [|done|done].
    assert (p = q) as ->; [|done]. eapply (page_disj end_); [done|by eapply alloc_page|done|done].
  - intros ρ Hρ. by eapply sw_leaf_tpage.
  - intros x Hx. apply Ho. intros Hy. apply (Hx p); [by exists (vpath_of va)|by eapply slot_in_page].
  - intros va' [Hva' Ha']. by eapply sw_leaf_pte.
Qed.

(** ** [mappages] *)

Lemma map_one_ok s root free va pa perm :
  vm_ok s root free → va_ok va → valid (pte_at (phys s) root va) = false →
  0 ≤ pa < 2 ^ 56 → pa mod PGSIZE = 0 → 0 ≤ perm < 2 ^ 10 →
  ∃ r s' free', map_one root va pa perm s = Ok (r, s') ∧ vm_ok s' root free' ∧
    grows root (phys s) (phys s') free free' ∧
    (r = Some (-1) ∧ free' = [] ∧ (∀ va', pte_at (phys s') root va' = pte_at (phys s) root va') ∨
     r = None ∧ ∀ va', va_ok va' →
       pte_at (phys s') root va' = if decide (va' = va) then pte_for pa perm else pte_at (phys s) root va').
Proof.
  intros Hok Hva Hinv Hp Ha Hf. unfold map_one.
  destruct (walk_alloc end_ va s root free Hok) as (r & s1 & f1 & E1 & Hok1 & Hg & Hpte & [[-> ->]|(p & Ht & -> & Hne)]);
    [apply Hva| |]; rewrite (bind_Ok_eq _ _ _ _ _ E1).
  - rewrite bool_decide_true by done. exists (Some (-1)), s1, []. split_and!; try done. by left.
  - rewrite bool_decide_false by done.
    assert (Hl : ptload (p + 8 * PX 0 va) s1 = Ok (pte_at (phys s1) root va, s1)).
    { unfold pte_at. rewrite Ht. apply ptload_ok. eapply (slot_mapped end_); [|apply PX_range; lia].
      eapply pt_page; [apply Hok1|apply vpath_of_vpath|done]. }
    rewrite (bind_Ok_eq _ _ _ _ _ Hl), Hpte, Hinv.
    destruct (leaf_store s1 root f1 va (pte_for pa perm) p Hok1 Hva Ht) as (m' & E & Hok' & Hs & Htp & Hfr & Hpt').
    { by apply pte_for_ok. }
    fold (pte_for pa perm). rewrite (bind_Ok_eq _ _ _ _ _ E). exists None, (set_phys m' s1), f1.
    split_and!; try done.
    + eapply grows_trans; [exact Hg|]. split; try done; simpl.
      * intros x Hx. apply Hfr. intros q Hq. apply Hx. by left.
      * intros q (ρ & Hv & Hq). left. exists ρ. by rewrite <- Htp.
      * intros ρ q Hv Hq. by rewrite Htp.
      * exists []. split; [done|]. intros q Hq. by apply elem_of_nil in Hq.
    + right. split; [done|]. intros va' Hva'. simpl. rewrite Hpt' by done. by rewrite Hpte.
Qed.

Lemma map_one_remap s root free va pa perm :
  vm_ok s root free → va_ok va → valid (pte_at (phys s) root va) = true →
  map_one root va pa perm s = Panic "mappages: remap".
Proof.
  intros Hok Hva Hval. unfold map_one. pose proof Hval as Hv. unfold pte_at in Hv.
  destruct (tpage (phys s) root (vpath_of va)) as [q|] eqn:Eq; [|done].
  rewrite (bind_Ok_eq _ _ _ _ _ (walk_present _ _ _ _ _ _ _ (vm_pt _ _ _ _ Hok) (proj1 Hva) Eq)).
  destruct (pt_page _ _ _ _ (vm_pt _ _ _ _ Hok) _ _ (vpath_of_vpath va) Eq) as [Hp _].
  rewrite bool_decide_false by (destruct Hp as (_ & _ & Hq & _); pose proof (PX_range 0 va); lia).
  rewrite (bind_Ok_eq _ _ _ _ _ (ptload_ok s _ (slot_mapped _ _ _ _ Hp (PX_range 0 va ltac:(lia))))).
  by rewrite Hv.
Qed.

(** The rounds of [mappages] from [a] on; [n] of them were completed. *)
Lemma map_loop_ok k s root free a pa perm :
  vm_ok s root free → va_ok a → a + Z.of_nat k * PGSIZE < MAXVA →
  (∀ va, va_ok va → a ≤ va ≤ a + Z.of_nat k * PGSIZE → valid (pte_at (phys s) root va) = false) →
  0 ≤ pa → pa + Z.of_nat k * PGSIZE < 2 ^ 56 → pa mod PGSIZE = 0 → 0 ≤ perm < 2 ^ 10 →
  ∃ r s' free' n, map_loop k root a (a + Z.of_nat k * PGSIZE) pa perm s = Ok (r, s') ∧
    vm_ok s' root free' ∧ grows root (phys s) (phys s') free free' ∧
    (r = 0 ∧ n = Z.of_nat (S k) ∨ r = -1 ∧ 0 ≤ n ≤ Z.of_nat k ∧ free' = []) ∧
    ∀ va, va_ok va → pte_at (phys s') root va =
      if decide (a ≤ va < a + n * PGSIZE) then pte_for (pa + (va - a)) perm else pte_at (phys s) root va.
Proof.
  revert s free a pa. induction k as [|k IH]; intros s free a pa Hok Ha Hmax Hinv Hp0 Hp Hpa Hf;
    destruct (map_one_ok s root free a pa perm Hok Ha) as (r & s1 & f1 & E1 & Hok1 & Hg1 & Hr);
    try done; try (apply Hinv; [done|unfold PGSIZE; lia]); try (unfold PGSIZE in *; lia);
    (destruct Hr as [(-> & -> & Hpte)|(-> & Hpte)];
     [exists (-1), s1, [], 0; cbn [map_loop]; rewrite (bind_Ok_eq _ _ _ _ _ E1); split_and!; try done;
      [right; split_and!; done || lia|intros va Hva; rewrite decide_False by lia; apply Hpte]|]);
    cbn [map_loop]; rewrite (bind_Ok_eq _ _ _ _ _ E1).
  - rewrite bool_decide_true by lia. exists 0, s1, f1, 1. split_and!; try done; [by left|].
    intros va Hva. rewrite Hpte by done. destruct (decide (va = a)) as [->|Hne].
    + rewrite decide_True by (unfold PGSIZE; lia). f_equal. lia.
    + rewrite decide_False; [done|]. intros Hr. apply Hne.
      eapply (page_unique va a va); [apply Hva|apply Ha|unfold PGSIZE in *; lia..].
  - rewrite bool_decide_false by (unfold PGSIZE; lia).
    assert (HM : MAXVA = 2 ^ 38) by done. rewrite !u64_small by (destruct Ha; unfold PGSIZE in *; lia).
    assert (Ha2 : va_ok (a + PGSIZE)).
    { destruct Ha as [Ha Hm]. split; [unfold PGSIZE in *; lia|].
      replace (a + PGSIZE) with (a + 1 * PGSIZE) by lia. by apply page_add. }
    destruct (IH s1 f1 (a + PGSIZE) (pa + PGSIZE) Hok1 Ha2) as (r & s' & f' & n & E & Hok' & Hg & Hr & Hpt');
      try done; try (unfold PGSIZE in *; lia).
    { intros va Hva Hr. rewrite Hpte by done. rewrite decide_False by (unfold PGSIZE in *; lia).
      apply Hinv; [done|unfold PGSIZE in *; lia]. }
    { replace (pa + PGSIZE) with (pa + 1 * PGSIZE) by lia. by apply page_add. }
    replace (a + Z.of_nat (S k) * PGSIZE) with (a + PGSIZE + Z.of_nat k * PGSIZE) by (unfold PGSIZE; lia).
    exists r, s', f', (n + 1). split_and!; try done.
    + by eapply grows_trans.
    + destruct Hr as [(-> & ->)|(-> & Hn & ->)]; [left; lia|right; split_and!; done || lia].
    + intros va Hva. rewrite Hpt' by done. case_decide as Hin.
      * rewrite decide_True by (unfold PGSIZE in *; lia). f_equal. lia.
      * rewrite Hpte by done. destruct (decide (va = a)) as [->|Hne].
        -- rewrite decide_True by (unfold PGSIZE in *; lia). f_equal. lia.
        -- rewrite decide_False; [done|]. intros Hr'.
           destruct (decide (va < a + PGSIZE)); [|unfold PGSIZE in *; lia]. apply Hne.
           eapply (page_unique va a va); [apply Hva|apply Ha|unfold PGSIZE in *; lia..].
Qed.

Lemma mappages_ok s root free va size pa perm :
  vm_ok s root free → 0 ≤ va → 0 < size → va + size ≤ MAXVA →
  (∀ v, va_ok v → PGROUNDDOWN va ≤ v < va + size → valid (pte_at (phys s) root v) = false) →
  0 ≤ pa → pa + size + PGSIZE < 2 ^ 56 → pa mod PGSIZE = 0 → 0 ≤ perm < 2 ^ 10 →
  ∃ r s' free' last, mappages root va size pa perm s = Ok (r, s') ∧ vm_ok s' root free' ∧
    grows root (phys s) (phys s') free free' ∧
    (r = 0 ∧ last = va + size ∨ r = -1 ∧ PGROUNDDOWN va ≤ last < va + size ∧ last mod PGSIZE = 0 ∧ free' = []) ∧
    ∀ v, va_ok v → pte_at (phys s') root v =
      if decide (PGROUNDDOWN va ≤ v < last) then pte_for (pa + (v - PGROUNDDOWN va)) perm
      else pte_at (phys s) root v.
Proof.
  intros Hok Hva Hs Hmax Hinv Hp0 Hp Hpa Hf. unfold mappages. rewrite bool_decide_false by lia.
  assert (HM : MAXVA = 2 ^ 38) by done. rewrite (u64_small (va + size - 1)) by lia.
  destruct (PGROUNDDOWN_spec va) as [A1 A2], (PGROUNDDOWN_spec (va + size - 1)) as [B1 B2].
  set (a := PGROUNDDOWN va) in *. set (l := PGROUNDDOWN (va + size - 1)) in *.
  assert (Hl : ∃ k, l = a + Z.of_nat k * PGSIZE).
  { unfold PGSIZE in *. pose proof (Z.div_mod l 4096). pose proof (Z.div_mod a 4096).
    exists (Z.to_nat (l / 4096 - a / 4096)). lia. }
  assert (H0 : 0 ≤ a).
  { unfold a, PGROUNDDOWN. rewrite land_page. apply Z.mul_nonneg_nonneg; [|unfold PGSIZE; lia].
    apply Z.div_pos; [lia|unfold PGSIZE; lia]. }
  destruct Hl as [k Hk]. rewrite bool_decide_true by (unfold PGSIZE in *; lia).
  replace (Z.to_nat ((l - a) / PGSIZE)) with k; cycle 1.
  { replace (l - a) with (Z.of_nat k * PGSIZE) by lia. rewrite Z.div_mul by done. lia. }
  destruct (map_loop_ok k s root free a pa perm) as (r & s' & f' & n & E & H1 & H2 & H3 & H4); try done.
  { split; [|done]. lia. }
  { lia. }
  { intros v Hv Hr. apply Hinv; [done|]. split; [lia|]. lia. }
  { lia. }
  rewrite Hk. exists r, s', f', (if bool_decide (r = 0) then va + size else a + n * PGSIZE). split_and!; try done.
  - destruct H3 as [(-> & ->)|(-> & Hn & ->)]; [by left|]. right. simpl.
    split_and!; try done; try (unfold PGSIZE in *; lia). by apply page_add.
  - intros v Hv. rewrite H4 by done. destruct H3 as [(-> & ->)|(-> & Hn & ->)]; simpl.
    + destruct (decide (a ≤ v < va + size)) as [Hin|Hin];
        [rewrite decide_True by (unfold PGSIZE in *; lia); done|]. rewrite decide_False; [done|].
      intros Hr. apply Hin. split; [lia|].
      assert (v = l ∨ v < l) as [->|?]; [|lia|lia].
      destruct (decide (v < l)); [by right|left]. eapply (page_unique v l v); [apply Hv|done|unfold PGSIZE in *; lia..].
    + done.
Qed.
End vm_map.
