(* ===== verification/VmSpace.v ===== *)
(** * User memory: [uvmunmap], [uvmalloc], [uvmdealloc]

    [as_ok s root free]: besides [vm_ok], the pages mapped below the trap frame
    are distinct pages of RAM, none of them free or a table. *)
From S2P Require Import Prelude Layout Spinlock CString Kalloc Vm VmMap.

Section vm_space.
Context (end_ : Z).
Local Abbreviation is_page := (is_page end_).
Local Abbreviation alloc_rep := (alloc_rep end_).
Local Abbreviation pt_ok := (pt_ok end_).
Local Abbreviation vm_ok := (vm_ok end_).
Local Abbreviation kfree := (kfree end_).

(** A page of user memory. *)
Definition uva (va : Z) : Prop := 0 ≤ va < TRAPFRAME ∧ va mod PGSIZE = 0.
Lemma uva_ok va : uva va → va_ok va.
Proof. intros [H1 H2]. split; [|done]. change TRAPFRAME with 274877898752 in H1. change MAXVA with 274877906944. lia. Qed.

Definition upage (m : mem) (root va : Z) : Z := PTE2PA (pte_at m root va).

Record as_ok (s : kmem) (root : Z) (free : list Z) : Prop := {
  as_vm : vm_ok s root free;
  as_leaf : ∀ va, uva va → valid (pte_at (phys s) root va) = true →
    (PTE_FLAGS (pte_at (phys s) root va) ≠ PTE_V) ∧ is_page (phys s) (upage (phys s) root va) ∧
    upage (phys s) root va ∉ free ∧ ¬ is_table (phys s) root (upage (phys s) root va);
  as_inj : ∀ va va', uva va → uva va' → valid (pte_at (phys s) root va) = true →
    valid (pte_at (phys s) root va') = true → upage (phys s) root va = upage (phys s) root va' → va = va' }.

(** Writes away from the tables and the free pages. *)
Lemma tables_frame m m' root avail ρ :
  pt_ok m root avail → (∀ p x, is_table m root p → in_page p x → m' !! x = m !! x) → vpath ρ →
  tpage m' root ρ = tpage m root ρ.
Proof.
  intros Hok Hf. induction ρ as [|j ρ IH] using rev_ind; intros Hv; [done|].
  pose proof (proj1 (vpath_snoc _ _) Hv) as (Hvr & _ & Hj). rewrite !tpage_app, IH by done.
  destruct (tpage m root ρ) as [q|] eqn:E; [|done]. simpl.
  rewrite (rd_frame m m'); [done|]. intros x Hx. apply (Hf q); [by exists ρ|].
  eapply (slot_in_page end_); [eapply pt_page; eauto|done|done].
Qed.

Lemma pte_frame m m' root avail va :
  pt_ok m root avail → (∀ p x, is_table m root p → in_page p x → m' !! x = m !! x) →
  pte_at m' root va = pte_at m root va.
Proof.
  intros Hok Hf. unfold pte_at. pose proof (vpath_of_vpath va) as Hv. rewrite (tables_frame m m' root avail) by done.
  destruct (tpage m root (vpath_of va)) as [q|] eqn:E; [|done]. apply rd_frame. intros x Hx.
  apply (Hf q); [by eexists|].
  eapply (slot_in_page end_ m q (PX 0 va)); [eapply pt_page; eauto|apply PX_range; lia|done].
Qed.

Lemma pt_frame m m' root avail avail' :
  pt_ok m root avail → same_some m m' → (∀ p x, is_table m root p → in_page p x → m' !! x = m !! x) →
  (∀ p, p ∈ avail' → p ∈ avail ∨ ¬ is_table m root p) → pt_ok m' root avail'.
Proof.
  intros Hok Hs Hf Ha. pose proof (λ ρ, tables_frame m m' root avail ρ Hok Hf) as Ht. pose proof Hok as [H1 H2 H3].
  split.
  - intros ρ p Hv. rewrite Ht by done. intros Hp. destruct (H1 _ _ Hv Hp) as [Hpp Hn].
    split; [by eapply is_page_frame|]. intros [?|Hnt]%Ha; [done|]. apply Hnt. by exists ρ.
  - intros ρ1 ρ2 p Hv1 Hv2. rewrite !Ht by done. by apply H2.
  - intros ρ p i Hv. pose proof (proj1 (vpath_snoc _ _) Hv) as (Hvr & _ & Hi). rewrite Ht by done. intros Hp.
    rewrite (rd_frame m m'); [by eapply H3|]. intros x Hx. apply (Hf p); [by exists ρ|].
    eapply (slot_in_page end_); [eapply H1; eauto|done|done].
Qed.

Lemma same_tables m m' root avail p :
  pt_ok m root avail → (∀ p x, is_table m root p → in_page p x → m' !! x = m !! x) →
  is_table m' root p ↔ is_table m root p.
Proof.
  intros Hok Hf. split; intros (ρ & Hv & Hp); exists ρ; (split; [done|]); revert Hp;
    rewrite (tables_frame m m' root avail) by done; done.
Qed.

(** ** Freeing one page *)

Lemma vm_kfree s root free pa :
  vm_ok s root free → is_page (phys s) pa → pa ∉ free → ¬ is_table (phys s) root pa →
  ∃ s', kfree pa s = Ok (tt, s') ∧ vm_ok s' root (pa :: free) ∧ same_some (phys s) (phys s') ∧
    (∀ x, ¬ in_page pa x → phys s' !! x = phys s !! x) ∧
    (∀ p x, is_table (phys s) root p → in_page p x → phys s' !! x = phys s !! x).
Proof.
  intros [Hr Hpt] Hp Hn Ht. destruct (kfree_ok end_ pa s free Hr Hp Hn) as (s' & E & Hr' & [Ho Hs]).
  assert (Hout : ∀ x, ¬ in_page pa x → phys s' !! x = phys s !! x).
  { intros x Hx. apply Ho. unfold in_page in Hx. lia. }
  assert (Hft : ∀ p x, is_table (phys s) root p → in_page p x → phys s' !! x = phys s !! x).
  { intros p x Hpt' Hx. apply Hout. intros Hy. assert (p = pa) as ->; [|done].
    destruct Hpt' as (ρ & Hv & Hq). eapply (page_disj end_); [eapply pt_page; eauto|done|done|done]. }
  exists s'. split_and!; try done. split; [done|]. eapply pt_frame; try done.
  intros p [->|?]%elem_of_cons; [by right|by left].
Qed.

(** ** [uvmunmap] *)

(** What an operation that keeps the tables does: it may change the entries of
    the tables, and the pages [ps]. *)
Record kept (root : Z) (ps : list Z) (m m' : mem) : Prop := {
  k_some : same_some m m';
  k_tabs : ∀ ρ, vpath ρ → tpage m' root ρ = tpage m root ρ;
  k_frame : ∀ x, (∀ p, is_table m root p ∨ p ∈ ps → ¬ in_page p x) → m' !! x = m !! x }.

Lemma kept_table root ps m m' p : kept root ps m m' → is_table m' root p ↔ is_table m root p.
Proof. intros H. split; intros (ρ & Hv & Hp); exists ρ; (split; [done|]); revert Hp; by rewrite (k_tabs _ _ _ _ H). Qed.
Lemma kept_trans root ps1 ps2 m1 m2 m3 :
  kept root ps1 m1 m2 → kept root ps2 m2 m3 → kept root (ps1 ++ ps2) m1 m3.
Proof.
  intros H1 H2. split.
  - eapply same_some_trans; [apply H1|apply H2].
  - intros ρ Hv. by rewrite (k_tabs _ _ _ _ H2), (k_tabs _ _ _ _ H1).
  - intros x Hx. rewrite (k_frame _ _ _ _ H2), (k_frame _ _ _ _ H1); [done| |].
    + intros p Hp. apply Hx. rewrite elem_of_app. tauto.
    + intros p Hp. apply Hx. rewrite elem_of_app, <- (kept_table _ _ _ _ _ H1). tauto.
Qed.

Lemma unmap_one_ok s root free va (do_free : bool) :
  vm_ok s root free → va_ok va → valid (pte_at (phys s) root va) = true → PTE_FLAGS (pte_at (phys s) root va) ≠ PTE_V →
  (if do_free then is_page (phys s) (upage (phys s) root va) ∧ upage (phys s) root va ∉ free ∧
     ¬ is_table (phys s) root (upage (phys s) root va) else True) →
  let fr := if do_free then [upage (phys s) root va] else [] in
  ∃ s', unmap_one end_ root do_free va s = Ok (None, s') ∧ vm_ok s' root (fr ++ free) ∧
    kept root fr (phys s) (phys s') ∧
    ∀ va', va_ok va' → pte_at (phys s') root va' = if decide (va' = va) then 0 else pte_at (phys s) root va'.
Proof.
  intros Hok Hva Hval Hfl Hdf fr. unfold unmap_one.
  destruct (walk_entry end_ va s root free) as (r & E & Hr); [apply Hok|apply Hva|].
  rewrite (bind_Ok_eq _ _ _ _ _ E). destruct Hr as [[_ H0]|(Hr & Hl & p & Hp & ->)].
  { by rewrite H0 in Hval. }
  rewrite bool_decide_false by done. rewrite (bind_Ok_eq _ _ _ _ _ Hl), Hval. cbn [negb].
  rewrite bool_decide_false by done.
  assert (Hfree : ∃ s1, (if do_free then kfree (PTE2PA (pte_at (phys s) root va)) else mret tt) s = Ok (tt, s1) ∧
    vm_ok s1 root (fr ++ free) ∧ same_some (phys s) (phys s1) ∧
    (∀ x, (∀ p, p ∈ fr → ¬ in_page p x) → phys s1 !! x = phys s !! x) ∧
    (∀ p x, is_table (phys s) root p → in_page p x → phys s1 !! x = phys s !! x)).
  { destruct do_free; simpl in fr.
    - destruct Hdf as (H1 & H2 & H3). destruct (vm_kfree s root free _ Hok H1 H2 H3) as (s1 & E1 & A & B & C & D).
      exists s1. split_and!; try done. intros x Hx. apply C, Hx. unfold fr. set_solver.
    - exists s. split; [done|]. split; [done|]. split; [apply same_some_refl|]. by split; intros. }
  destruct Hfree as (s1 & E1 & Hok1 & Hs1 & Hf1 & Ht1). rewrite (bind_Ok_eq _ _ _ _ _ E1).
  pose proof (λ ρ, tables_frame _ _ _ _ ρ (vm_pt _ _ _ _ Hok) Ht1) as Htp.
  destruct (leaf_store end_ s1 root (fr ++ free) va 0 p Hok1 Hva) as (m' & E2 & Hok2 & Hs2 & Htp2 & Hf2 & Hpte).
  { rewrite Htp; [done|apply vpath_of_vpath]. }
  { lia. }
  rewrite (bind_Ok_eq _ _ _ _ _ E2). exists (set_phys m' s1). split_and!; try done.
  - split; simpl.
    + by eapply same_some_trans.
    + intros ρ Hv. by rewrite Htp2, Htp.
    + intros x Hx. rewrite Hf2, Hf1; [done| |].
      * intros q Hq. apply Hx. by right.
      * intros q Hq. apply Hx. left. by apply (same_tables _ _ _ _ q (vm_pt _ _ _ _ Hok) Ht1) in Hq.
  - intros va' Hva'. simpl. rewrite Hpte by done. case_decide; [done|].
    eapply pte_frame; [apply Hok|done].
Qed.

(** The pages mapped from [a] on, [n] of them. *)
Definition upages (m : mem) (root a : Z) (n : nat) : list Z :=
  (λ j, upage m root (a + Z.of_nat j * PGSIZE)) <$> seq 0 n.

Lemma upages_S m root a n : upages m root a (S n) = upages m root a n ++ [upage m root (a + Z.of_nat n * PGSIZE)].
Proof. unfold upages. by rewrite seq_S, fmap_app. Qed.
Lemma elem_of_upages m root a n p :
  p ∈ upages m root a n ↔ ∃ j, (j < n)%nat ∧ p = upage m root (a + Z.of_nat j * PGSIZE).
Proof.
  unfold upages. rewrite list_elem_of_fmap. split.
  - intros (j & -> & Hj%elem_of_seq). exists j. split; [lia|done].
  - intros (j & Hj & ->). exists j. split; [done|]. apply elem_of_seq. lia.
Qed.

(** An entry removed: the rest of the address space is as it was. *)
Lemma as_unmap s s' root free va :
  as_ok s root free → uva va → valid (pte_at (phys s) root va) = true →
  vm_ok s' root (upage (phys s) root va :: free) → kept root [upage (phys s) root va] (phys s) (phys s') →
  (∀ va', va_ok va' → pte_at (phys s') root va' = if decide (va' = va) then 0 else pte_at (phys s) root va') →
  as_ok s' root (upage (phys s) root va :: free).
Proof.
  intros [Hok Hl Hi] Hva Hv Hok' Hk Hpte.
  assert (Hother : ∀ va', uva va' → valid (pte_at (phys s') root va') = true →
    va' ≠ va ∧ pte_at (phys s') root va' = pte_at (phys s) root va').
  { intros va' Hva' H. rewrite Hpte in * by (by apply uva_ok). case_decide; [by rewrite valid_0 in H|done]. }
  split; [done| |].
  - intros va' Hva' H. destruct (Hother va' Hva' H) as [Hne Heq]. unfold upage in *. rewrite Heq in *.
    destruct (Hl va' Hva' H) as (A & B & C & D). split_and!; [done|by eapply is_page_frame, Hk| |].
    + intros [E|?]%elem_of_cons; [|done]. apply Hne. by apply (Hi va' va).
    + by rewrite (kept_table _ _ _ _ _ Hk).
  - intros va1 va2 H1 H2 V1 V2. destruct (Hother va1 H1 V1) as [_ E1], (Hother va2 H2 V2) as [_ E2].
    unfold upage. rewrite E1, E2 in *. by apply Hi.
Qed.

Lemma uvmunmap_ok s root free a n :
  as_ok s root free → 0 ≤ a → a mod PGSIZE = 0 → 0 ≤ n → a + n * PGSIZE ≤ TRAPFRAME →
  (∀ va, uva va → a ≤ va < a + n * PGSIZE → valid (pte_at (phys s) root va) = true) →
  ∃ s', uvmunmap end_ root a n true s = Ok (tt, s') ∧
    as_ok s' root (reverse (upages (phys s) root a (Z.to_nat n)) ++ free) ∧
    kept root (upages (phys s) root a (Z.to_nat n)) (phys s) (phys s') ∧
    ∀ va, va_ok va → pte_at (phys s') root va =
      if decide (a ≤ va < a + n * PGSIZE) then 0 else pte_at (phys s) root va.
Proof.
  intros Hok Ha Hm Hn Hmax Hval. unfold uvmunmap. rewrite bool_decide_false by tauto.
  assert (HT : TRAPFRAME = 274877898752) by done.
  rewrite u64_small by (unfold PGSIZE in *; lia). replace (a + n * PGSIZE - a) with (n * PGSIZE) by lia.
  rewrite pages_mul by done. set (P := λ b st, ∃ j, (j ≤ Z.to_nat n)%nat ∧ b = a + Z.of_nat j * PGSIZE ∧
    as_ok st root (reverse (upages (phys s) root a j) ++ free) ∧ kept root (upages (phys s) root a j) (phys s) (phys st) ∧
    ∀ va, va_ok va → pte_at (phys st) root va = if decide (a ≤ va < b) then 0 else pte_at (phys s) root va).
  destruct (for_pages_ok P (λ _ _ _, False) (Z.to_nat n) a (a + n * PGSIZE) (unmap_one end_ root true) s)
    as (r & s' & E & Hr); [|lia|unfold PGSIZE; lia|unfold PGSIZE; lia|unfold PGSIZE in *; lia| |].
  - exists 0%nat. simpl. split_and!; try done; [lia|lia| |].
    + by split; [apply same_some_refl|..].
    + intros va Hva. rewrite decide_False by lia. done.
  - intros b st Hb Hbm (j & Hj & -> & Has & Hk & Hpte).
    assert (Hlt : (j < Z.to_nat n)%nat) by (unfold PGSIZE in *; lia).
    set (b := a + Z.of_nat j * PGSIZE) in *.
    assert (Hub : uva b) by (split; [unfold PGSIZE in *; lia|by apply page_add]).
    assert (Hsame : pte_at (phys st) root b = pte_at (phys s) root b).
    { rewrite Hpte by (by apply uva_ok). by rewrite decide_False by lia. }
    assert (Hv : valid (pte_at (phys st) root b) = true) by (rewrite Hsame; apply Hval; [done|lia]).
    destruct (as_leaf _ _ _ Has b Hub Hv) as (L1 & L2 & L3 & L4).
    destruct (unmap_one_ok st root _ b true (as_vm _ _ _ Has) (uva_ok _ Hub) Hv L1) as (st' & E & Hok' & Hk' & Hpte').
    { done. }
    exists None, st'. split; [done|]. exists (S j). split; [lia|]. split; [unfold b; lia|].
    assert (Hup : upages (phys s) root a (S j) = upages (phys s) root a j ++ [upage (phys st) root b]).
    { rewrite upages_S. unfold upage. fold b. by rewrite Hsame. }
    rewrite Hup, reverse_app, reverse_singleton. simpl. split_and!.
    + by eapply as_unmap.
    + by eapply kept_trans.
    + intros va Hva. rewrite Hpte' by done. case_decide as Heq.
      * subst va. rewrite decide_True by (unfold PGSIZE; lia). done.
      * rewrite Hpte by done. destruct (decide (a ≤ va < b)); [rewrite decide_True by (unfold PGSIZE; lia); done|].
        rewrite decide_False; [done|]. intros Hr. apply Heq.
        eapply (page_unique va b va); [apply Hva|apply Hub|unfold PGSIZE in *; lia..].
  - rewrite (bind_Ok_eq _ _ _ _ _ E). exists s'. split; [done|].
    destruct r as [u|]; [by destruct Hr as (? & _ & _ & [])|].
    destruct Hr as (j & Hj & Hb & Has & Hk & Hpte).
    assert (j = Z.to_nat n) as -> by (unfold PGSIZE in *; lia). split_and!; try done.
    intros va Hva. rewrite Hpte by done. rewrite Z2Nat.id by lia. done.
Qed.
End vm_space.
