(* ===== verification/VmUser.v ===== *)
(** * Growing, shrinking and copying user memory

    [populated]: between [lo] and [b] fresh pages were mapped, with given
    contents and permissions; everything else is as before.  [uvmalloc] and
    [uvmcopy] are loops with this invariant, and both undo it when memory runs
    out ([restored]). *)
From S2P Require Import Prelude Layout Spinlock CString Kalloc Vm VmMap VmSpace.

Section vm_user.
Context (end_ : Z).
Local Abbreviation is_page := (is_page end_).
Local Abbreviation alloc_rep := (alloc_rep end_).
Local Abbreviation vm_ok := (vm_ok end_).
Local Abbreviation as_ok := (as_ok end_).
Local Abbreviation kfree := (kfree end_).

(** What an operation on one address space does to memory: it takes tables and
    pages from [free] and writes nothing but those and the tables. *)
Record vstep (root : Z) (free : list Z) (m m' : mem) : Prop := {
  v_some : same_some m m';
  v_frame : ∀ x, (∀ p, is_table m root p ∨ p ∈ free → ¬ in_page p x) → m' !! x = m !! x;
  v_tabs : ∀ p, is_table m' root p → is_table m root p ∨ p ∈ free;
  v_keep : ∀ p, is_table m root p → is_table m' root p }.

Lemma vstep_refl root free m : vstep root free m m.
Proof. split; [apply same_some_refl|done|by left|done]. Qed.
Lemma vstep_trans root f1 f2 m1 m2 m3 :
  vstep root f1 m1 m2 → vstep root f2 m2 m3 → (∀ p, p ∈ f2 → p ∈ f1) → vstep root f1 m1 m3.
Proof.
  intros [A1 A2 A3 A4] [B1 B2 B3 B4] Hsub. split.
  - by eapply same_some_trans.
  - intros x Hx. rewrite B2; [by apply A2|]. intros p [Hp|Hp]; [by apply Hx, A3|]. apply Hx. right. auto.
  - intros p [Hp|Hp]%B3; [by apply A3|right; auto].
  - auto.
Qed.
Lemma grows_vstep root m m' f f' : grows root m m' f f' → vstep root f m m'.
Proof.
  intros [H1 H2 H3 H4 _]. split; try done. intros p (ρ & Hv & Hp). exists ρ. auto.
Qed.
Lemma kept_vstep root ps free m m' : kept root ps m m' → (∀ p, p ∈ ps → p ∈ free) → vstep root free m m'.
Proof.
  intros H Hsub. split.
  - apply H.
  - intros x Hx. apply (k_frame _ _ _ _ H). intros p [Hp|Hp]; apply Hx; auto.
  - intros p Hp. left. by apply (kept_table _ _ _ _ p H).
  - intros p Hp. by apply (kept_table _ _ _ _ p H).
Qed.

(** ** A fresh page, filled and mapped *)

Section fresh.
Context (s : kmem) (root pg : Z) (free : list Z) (s1 : kmem) (m2 : mem).
Context (Has : as_ok s root (pg :: free)) (Hr : alloc_rep (set_phys m2 s1) free).
Context (Hs : same_some (phys s) m2) (Ho : ∀ x, ¬ in_page pg x → m2 !! x = phys s !! x).

Lemma fresh_is_page : is_page (phys s) pg ∧ ¬ is_table (phys s) root pg ∧ pg ∉ free.
Proof using Has.
  clear Hr Hs Ho m2 s1.
  destruct Has as [[Hal Hpt] _ _]. split; [eapply alloc_page; [exact Hal|set_solver]|]. split.
  - intros (ρ & Hv & Hp). destruct (pt_page _ _ _ _ Hpt _ _ Hv Hp) as [_ Hn]. set_solver.
  - by pose proof (ar_nodup _ _ _ Hal) as [? _]%NoDup_cons.
Qed.

Lemma fresh_tables p x : is_table (phys s) root p → in_page p x → m2 !! x = phys s !! x.
Proof.
  destruct fresh_is_page as (Hp & Hnt & _). intros Ht Hx. apply Ho. intros Hy.
  assert (p = pg) as ->; [|done]. pose proof Ht as (ρ & Hv & Hq). eapply (page_disj end_); [|done|done|done].
  eapply pt_page; [apply Has|done|done].
Qed.

Lemma fresh_vm : vm_ok (set_phys m2 s1) root free.
Proof.
  split; [done|]. eapply pt_frame; [apply Has|done|apply fresh_tables|]. intros p Hp. left. set_solver.
Qed.
Lemma fresh_pte v : pte_at m2 root v = pte_at (phys s) root v.
Proof. eapply pte_frame; [apply Has|apply fresh_tables]. Qed.
Lemma fresh_table p : is_table m2 root p ↔ is_table (phys s) root p.
Proof. eapply same_tables; [apply Has|apply fresh_tables]. Qed.
Lemma fresh_vstep : vstep root (pg :: free) (phys s) m2.
Proof.
  split; [done| | |].
  - intros x Hx. apply Ho, Hx. right. set_solver.
  - intros p Hp. left. by apply fresh_table.
  - intros p Hp. by apply fresh_table.
Qed.

Context (va perm : Z).
Context (Hva : uva va) (Hinv : valid (pte_at (phys s) root va) = false).
Context (Hperm : 0 ≤ perm < 2 ^ 10) (Hleaf : Z.lor perm PTE_V ≠ PTE_V).

(** The page was mapped: the rest of the space is as it was. *)
Lemma map_fresh_ok :
  ∃ r s' free', mappages root va PGSIZE pg perm (set_phys m2 s1) = Ok (r, s') ∧
    vstep root (pg :: free) (phys s) (phys s') ∧ (∀ x, in_page pg x → phys s' !! x = m2 !! x) ∧
    (∀ p, p ∈ free' → p ∈ free) ∧ (∀ p, p ∈ free → p ∈ free' ∨ is_table (phys s') root p) ∧
    vm_ok s' root free' ∧ ¬ is_table (phys s') root pg ∧
    (r = 0 ∧ as_ok s' root free' ∧
       (∀ v, va_ok v → pte_at (phys s') root v = if decide (v = va) then pte_for pg perm else pte_at (phys s) root v) ∨
     r = -1 ∧ free' = [] ∧ ∀ v, va_ok v → pte_at (phys s') root v = pte_at (phys s) root v).
Proof.
  destruct fresh_is_page as (Hpg & Hnt & Hnf). pose proof (uva_ok _ Hva) as [Hva1 Hva2].
  assert (HT : TRAPFRAME = 274877898752) by done. assert (HM : MAXVA = 274877906944) by done.
  assert (Hrd : PGROUNDDOWN va = va).
  { unfold PGROUNDDOWN. rewrite land_page. unfold PGSIZE in *. pose proof (Z.div_mod va 4096). lia. }
  assert (Hrange : 0 ≤ pg < 2 ^ 56) by (destruct Hpg as (_ & Hx & Hx0 & _); unfold PHYSTOP, KERNBASE in Hx; lia).
  destruct (mappages_ok end_ (set_phys m2 s1) root free va PGSIZE pg perm fresh_vm)
    as (r & s' & free' & l & E & Hok' & Hg & Hr' & Hpte); try done; try (destruct Hva; unfold PGSIZE in *; lia).
  { intros v Hv Hb. rewrite Hrd in Hb. simpl. rewrite fresh_pte. replace v with va; [done|].
    eapply (page_unique va v v); [done|apply Hv|lia..]. }
  { destruct Hpg as (_ & Hx & _). unfold PHYSTOP, KERNBASE, PGSIZE in *. lia. }
  { apply Hpg. }
  pose proof (grows_vstep _ _ _ _ _ Hg) as Hvs. simpl in Hvs.
  destruct (g_free _ _ _ _ _ Hg) as (used & Hfu & Hused).
  assert (Hnt' : ∀ p, ¬ is_table (phys s) root p → p ∉ free → ¬ is_table (phys s') root p).
  { intros p H1 H2 [Hp|Hp]%(v_tabs _ _ _ _ Hvs); [|done]. by apply fresh_table in Hp. }
  exists r, s', free'. split; [done|]. split; [|split; [|split; [|split; [|split; [|split]]]]].
  - eapply vstep_trans; [apply fresh_vstep|exact Hvs|set_solver].
  - intros x Hx. apply Hvs. intros p Hp Hy. assert (Hpp : p = pg).
    { eapply (page_disj end_ m2 p pg x); [|by eapply is_page_frame|done|done].
      destruct Hp as [(ρ & Hv & Hq)|Hp].
      - apply (pt_page _ _ _ _ (vm_pt _ _ _ _ fresh_vm) _ _ Hv Hq).
      - exact (alloc_page end_ _ p free Hr Hp). }
    subst p. destruct Hp as [Hp|Hp]; [by apply fresh_table in Hp|done].
  - intros p Hp. subst free. set_solver.
  - intros p Hp. subst free. apply elem_of_app in Hp as [Hp|Hp]; [right; auto|by left].
  - done.
  - by apply Hnt'.
  - destruct Hr' as [(-> & ->)|(-> & Hl & Hlm & ->)]; [left|right].
    + assert (Hpt' : ∀ v, va_ok v → pte_at (phys s') root v =
        if decide (v = va) then pte_for pg perm else pte_at (phys s) root v).
      { intros v Hv. rewrite Hpte by done. rewrite Hrd. simpl. rewrite fresh_pte.
        destruct (decide (v = va)) as [->|Hne].
        - rewrite decide_True by (unfold PGSIZE; lia). by rewrite Z.sub_diag, Z.add_0_r.
        - rewrite decide_False; [done|]. intros Hb. apply Hne.
          eapply (page_unique v va v); [apply Hv|done|unfold PGSIZE in *; lia..]. }
      split; [done|]. split; [|done]. destruct (pte_for_ok pg perm Hrange (proj1 Hpg) Hperm) as (_ & V & P & F & _).
      assert (Hother : ∀ v, uva v → v ≠ va → valid (pte_at (phys s') root v) = true →
        valid (pte_at (phys s) root v) = true ∧ upage (phys s') root v = upage (phys s) root v ∧
        PTE_FLAGS (pte_at (phys s') root v) = PTE_FLAGS (pte_at (phys s) root v)).
      { intros v Hv Hne. unfold upage. rewrite Hpt' by (by apply uva_ok). by rewrite decide_False. }
      assert (Hself : upage (phys s') root va = pg).
      { unfold upage. rewrite Hpt' by done. by rewrite decide_True. }
      split; [done| |].
      * intros v Hv Hval. destruct (decide (v = va)) as [->|Hne].
        -- rewrite Hself. rewrite Hpt' by done. rewrite decide_True, F by done. split; [done|]. split.
           ++ eapply is_page_frame; [exact Hpg|]. eapply same_some_trans; [exact Hs|apply Hvs].
           ++ split; [|by apply Hnt']. intros Hin. apply Hnf. subst free. set_solver.
        -- destruct (Hother v Hv Hne Hval) as (V' & -> & ->). destruct (as_leaf _ _ _ _ Has v Hv V') as (A & B & C & D).
           split; [done|]. split; [|split].
           ++ eapply is_page_frame; [exact B|]. eapply same_some_trans; [exact Hs|apply Hvs].
           ++ intros Hin. apply C. subst free. set_solver.
           ++ apply Hnt'; [done|set_solver].
      * assert (Hne_pg : ∀ v, uva v → v ≠ va → valid (pte_at (phys s') root v) = true → upage (phys s') root v ≠ pg).
        { intros v Hv Hne Hval Heq. destruct (Hother v Hv Hne Hval) as (V' & E' & _).
          destruct (as_leaf _ _ _ _ Has v Hv V') as (_ & _ & C & _). apply C. rewrite <- E', Heq. set_solver. }
        intros v1 v2 H1 H2 V1 V2 Heq. destruct (decide (v1 = va)) as [->|N1], (decide (v2 = va)) as [->|N2]; try done.
        -- exfalso. eapply (Hne_pg v2); eauto. congruence.
        -- exfalso. eapply (Hne_pg v1); eauto. congruence.
        -- destruct (Hother v1 H1 N1 V1) as (W1 & E1 & _), (Hother v2 H2 N2 V2) as (W2 & E2 & _).
           apply (as_inj _ _ _ _ Has); try done. congruence.
    + split; [done|]. split; [done|]. intros v Hv.
      rewrite Hpte by done. rewrite decide_False; [simpl; apply fresh_pte|]. intros Hb. rewrite Hrd in *.
      assert (l = va) as ->; [|lia]. apply (page_unique l va l); [done|done|unfold PGSIZE; lia|lia].
Qed.
End fresh.

(** ** A range of fresh pages *)

(** The entries below the trap frame stay, tables and free pages change. *)
Lemma as_ok_same s s' root free free' :
  as_ok s root free → vm_ok s' root free' → vstep root free (phys s) (phys s') → (∀ p, p ∈ free' → p ∈ free) →
  (∀ v, va_ok v → pte_at (phys s') root v = pte_at (phys s) root v) → as_ok s' root free'.
Proof.
  intros [_ Hl Hi] Hok Hv Hsub Hpte.
  assert (Hp : ∀ v, uva v → pte_at (phys s') root v = pte_at (phys s) root v) by (intros v Hu; by apply Hpte, uva_ok).
  split; [done| |]; unfold upage in *.
  - intros v Hu. rewrite Hp by done. intros Hval. destruct (Hl v Hu Hval) as (A & B & C & D).
    split; [done|]. split; [eapply is_page_frame; [exact B|apply Hv]|]. split; [auto|].
    intros [?|?]%(v_tabs _ _ _ _ Hv); done.
  - intros v1 v2 H1 H2. rewrite !Hp by done. by apply Hi.
Qed.

Record populated (s : kmem) (root : Z) (free : list Z) (lo : Z) (perm : Z → Z) (cont : Z → Z → option Z)
    (b : Z) (st : kmem) (fb : list Z) : Prop := {
  po_as : as_ok st root fb;
  po_step : vstep root free (phys s) (phys st);
  po_sub : ∀ p, p ∈ fb → p ∈ free;
  po_acct : ∀ p, p ∈ free → p ∈ fb ∨ is_table (phys st) root p ∨
    ∃ va, uva va ∧ lo ≤ va < b ∧ upage (phys st) root va = p;
  po_out : ∀ v, va_ok v → ¬ (lo ≤ v < b) → pte_at (phys st) root v = pte_at (phys s) root v;
  po_in : ∀ v, uva v → lo ≤ v < b → ∃ pg, pg ∈ free ∧ pte_at (phys st) root v = pte_for pg (perm v) ∧
    upage (phys st) root v = pg ∧ valid (pte_at (phys st) root v) = true ∧
    ∀ x, in_page pg x → phys st !! x = cont v (x - pg) }.

Record restored (s : kmem) (root : Z) (free : list Z) (st : kmem) (fb : list Z) : Prop := {
  rs_as : as_ok st root fb;
  rs_step : vstep root free (phys s) (phys st);
  rs_sub : ∀ p, p ∈ fb → p ∈ free;
  rs_acct : ∀ p, p ∈ free → p ∈ fb ∨ is_table (phys st) root p;
  rs_pte : ∀ v, va_ok v → pte_at (phys st) root v = pte_at (phys s) root v }.

Section populate.
Context (s : kmem) (root : Z) (free : list Z) (lo : Z) (perm : Z → Z) (cont : Z → Z → option Z).
Local Abbreviation populated := (populated s root free lo perm cont).

Lemma populated_start : as_ok s root free → populated lo s free.
Proof.
  intros H. split; try done; [apply vstep_refl|by intros; left|]. intros v _ Hv. lia.
Qed.

(** Later steps leave the pages already mapped alone. *)
Lemma populated_in_frame b st fb st' v :
  populated b st fb → vstep root fb (phys st) (phys st') → uva v → lo ≤ v < b →
  pte_at (phys st') root v = pte_at (phys st) root v →
  ∃ pg, pg ∈ free ∧ pte_at (phys st') root v = pte_for pg (perm v) ∧ upage (phys st') root v = pg ∧
    valid (pte_at (phys st') root v) = true ∧ ∀ x, in_page pg x → phys st' !! x = cont v (x - pg).
Proof.
  intros Hp Hv Hu Hb Heq. destruct (po_in _ _ _ _ _ _ _ _ _ Hp v Hu Hb) as (pg & A & B & C & D & F).
  destruct (as_leaf _ _ _ _ (po_as _ _ _ _ _ _ _ _ _ Hp) v Hu D) as (L1 & L2 & L3 & L4).
  pose proof (po_as _ _ _ _ _ _ _ _ _ Hp) as [[Hal Hpt] _ _].
  exists pg. unfold upage in *. rewrite Heq. split_and!; try done. intros x Hx. rewrite <- F by done.
  apply Hv. intros p Hpp Hy. rewrite C in *. assert (p = pg) as ->.
  { eapply (page_disj end_); [|exact L2|done|done]. destruct Hpp as [(ρ & Hv' & Hq)|Hpp].
    - eapply pt_page; eauto.
    - by eapply alloc_page. }
  by destruct Hpp.
Qed.

Lemma populated_same b st fb st' fb' :
  populated b st fb → vm_ok st' root fb' → vstep root fb (phys st) (phys st') → (∀ p, p ∈ fb' → p ∈ fb) →
  (∀ p, p ∈ fb → p ∈ fb' ∨ is_table (phys st') root p) →
  (∀ v, va_ok v → pte_at (phys st') root v = pte_at (phys st) root v) → populated b st' fb'.
Proof.
  intros Hp Hok Hv Hsub Hac Hpte. pose proof Hp as [H1 H2 H3 H4 H5 H6]. split.
  - by eapply as_ok_same.
  - by eapply vstep_trans.
  - auto.
  - intros p [Hq|[Hq|(va & A & B & C)]]%H4; [destruct (Hac p Hq); auto|right; left; by apply Hv|].
    right; right. exists va. unfold upage in *. by rewrite Hpte by (by apply uva_ok).
  - intros v Hvo Hb. rewrite Hpte by done. auto.
  - intros v Hu Hb. eapply populated_in_frame; eauto using uva_ok.
Qed.

Lemma populate_step b st pg fb s1 m2 :
  populated b st (pg :: fb) → uva b → lo ≤ b → lo mod PGSIZE = 0 → valid (pte_at (phys s) root b) = false →
  alloc_rep (set_phys m2 s1) fb → same_some (phys st) m2 → (∀ x, ¬ in_page pg x → m2 !! x = phys st !! x) →
  (∀ x, in_page pg x → m2 !! x = cont b (x - pg)) → 0 ≤ perm b < 2 ^ 10 → Z.lor (perm b) PTE_V ≠ PTE_V →
  ∃ r s', mappages root b PGSIZE pg (perm b) (set_phys m2 s1) = Ok (r, s') ∧
    (r = 0 ∧ (∃ f', populated (b + PGSIZE) s' f') ∨
     r ≠ 0 ∧ ∃ s'' f'', kfree pg s' = Ok (tt, s'') ∧ populated b s'' f'').
Proof.
  intros Hp Hb Hlo Hlm Hinv Hr Hs Ho Hc Hpe Hpl. pose proof Hp as [P1 P2 P3 P4 P5 P6].
  assert (Hinv' : valid (pte_at (phys st) root b) = false) by (rewrite P5; [done|by apply uva_ok|lia]).
  destruct (map_fresh_ok st root pg fb s1 m2 P1 Hr Hs Ho b (perm b) Hb Hinv' Hpe Hpl)
    as (r & s' & f' & E & Hv & Hpc & Hsub & Hac & Hok & Hnt & [(-> & Has & Hpte)|(-> & -> & Hpte)]);
    (eexists; exists s'; split; [done|]).
  - left. split; [done|]. exists f'. assert (0 ≤ pg < 2 ^ 56 ∧ pg mod PGSIZE = 0) as [Hpg Hpgm].
    { destruct (alloc_page end_ _ pg _ (vm_alloc _ _ _ _ (as_vm _ _ _ _ P1)) ltac:(set_solver)) as (A & B & C & _).
      unfold PHYSTOP, KERNBASE in B. split; [lia|done]. }
    assert (Hself : upage (phys s') root b = pg).
    { unfold upage. rewrite Hpte, decide_True by (done || by apply uva_ok). by apply pte_for_ok. }
    assert (Hold : ∀ v, va_ok v → v ≠ b → pte_at (phys s') root v = pte_at (phys st) root v).
    { intros v Hvo Hne. rewrite Hpte by done. by rewrite decide_False. }
    split.
    + done.
    + by eapply vstep_trans.
    + intros p Hpf. apply P3. set_solver.
    + intros p [Hq|[Hq|(va & A & B & C)]]%P4.
      * apply elem_of_cons in Hq as [->|Hq]; [|destruct (Hac p Hq); auto].
        right; right. exists b. split; [done|]. split; [unfold PGSIZE; lia|done].
      * right; left. by apply Hv.
      * right; right. exists va. split; [done|]. split; [unfold PGSIZE; lia|].
        unfold upage in *. rewrite Hold; [done|by apply uva_ok|lia].
    + intros v Hvo Hnb. rewrite Hold; [apply P5; [done|unfold PGSIZE in *; lia]|done|].
      intros ->. unfold PGSIZE in *. lia.
    + intros v Hu Hvb. destruct (decide (v = b)) as [->|Hne].
      * exists pg. split; [apply P3; set_solver|]. rewrite Hpte by (by apply uva_ok). rewrite decide_True by done.
        split; [done|]. split; [done|]. split; [by apply pte_for_ok|]. intros x Hx. rewrite Hpc by done. by apply Hc.
      * eapply populated_in_frame; [done|done|done| |by apply Hold; [apply uva_ok|]].
        split; [lia|]. destruct (decide (v < b)); [done|]. exfalso. apply Hne.
        eapply (page_unique v b v); [apply Hu|apply Hb|unfold PGSIZE in *; lia..].
  - right. split; [done|].
    assert (Hpg : is_page (phys s') pg).
    { eapply is_page_frame; [|apply Hv]. eapply alloc_page; [apply P1|set_solver]. }
    destruct (vm_kfree end_ s' root [] pg Hok Hpg) as (s'' & E2 & Hok2 & Hs2 & Hf2 & Ht2);
      [by intros ?%elem_of_nil|done|].
    exists s'', [pg]. split; [done|]. eapply populated_same; [done|done| | | |].
    + eapply (vstep_trans _ _ [pg]); [exact Hv| |set_solver]. split; [done| | |].
      * intros x Hx. apply Hf2. apply Hx. right. set_solver.
      * intros p Hq. left. by apply (same_tables end_ _ _ _ _ p (vm_pt _ _ _ _ Hok) Ht2).
      * intros p Hq. by apply (same_tables end_ _ _ _ _ p (vm_pt _ _ _ _ Hok) Ht2).
    + set_solver.
    + intros p [->|Hq]%elem_of_cons; [left; set_solver|]. right.
      apply (same_tables end_ _ _ _ _ p (vm_pt _ _ _ _ Hok) Ht2). destruct (Hac p Hq) as [?%elem_of_nil|]; done.
    + intros v Hvo. rewrite <- Hpte by done. eapply (pte_frame end_); [apply Hok|done].
Qed.

(** [kalloc] without a free page changes nothing. *)
Lemma populated_none b st :
  populated b st [] → ∃ st', kalloc st = Ok (0, st') ∧ populated b st' [].
Proof.
  intros Hp. destruct (kalloc_none end_ st) as (st' & E & Hr & Hph); [apply (po_as _ _ _ _ _ _ _ _ _ Hp)|].
  exists st'. split; [done|]. eapply populated_same; [done| | | | |]; rewrite ?Hph.
  - split; [done|]. rewrite Hph. apply (po_as _ _ _ _ _ _ _ _ _ Hp).
  - apply vstep_refl.
  - done.
  - by intros p Hq; left.
  - done.
Qed.

(** Taking the range away again. *)
Lemma populate_undo b n st fb :
  populated b st fb → 0 ≤ lo → lo mod PGSIZE = 0 → 0 ≤ n → b = lo + n * PGSIZE → b ≤ TRAPFRAME →
  (∀ v, va_ok v → lo ≤ v < b → pte_at (phys s) root v = 0) →
  ∃ st' f', uvmunmap end_ root lo n true st = Ok (tt, st') ∧ restored s root free st' f'.
Proof.
  intros Hp Hlo Hlm Hn -> Hb Hz. pose proof Hp as [P1 P2 P3 P4 P5 P6].
  destruct (uvmunmap_ok end_ st root fb lo n P1 Hlo Hlm Hn Hb) as (st' & E & Has & Hk & Hpte).
  { intros v Hu Hv. by destruct (P6 v Hu Hv) as (? & _ & _ & _ & ? & _). }
  set (ps := upages (phys st) root lo (Z.to_nat n)) in *.
  assert (Hps : ∀ p, p ∈ ps ↔ ∃ v, uva v ∧ lo ≤ v < lo + n * PGSIZE ∧ upage (phys st) root v = p).
  { intros p. unfold ps. rewrite elem_of_upages. split.
    - intros (j & Hj & ->). exists (lo + Z.of_nat j * PGSIZE). unfold PGSIZE in *. split_and!; try lia.
      split; [unfold PGSIZE; lia|by apply page_add].
    - intros (v & [Hu Hum] & Hv & <-). exists (Z.to_nat (v / PGSIZE - lo / PGSIZE)). unfold PGSIZE in *.
      pose proof (Z.div_mod v 4096). pose proof (Z.div_mod lo 4096). split; [lia|]. f_equal. lia. }
  assert (Hpf : ∀ p, p ∈ ps → p ∈ free).
  { intros p (v & Hu & Hv & <-)%Hps. destruct (P6 v Hu Hv) as (pg & A & _ & C & _). by rewrite C. }
  exists st', (reverse ps ++ fb). split; [done|]. split.
  - done.
  - eapply vstep_trans; [exact P2|by eapply (kept_vstep _ _ free)|done].
  - intros p [Hq|Hq]%elem_of_app; [|auto]. apply Hpf. by apply elem_of_reverse.
  - intros p [Hq|[Hq|Hq]]%P4.
    + left. apply elem_of_app. by right.
    + right. by apply (kept_table _ _ _ _ p Hk).
    + left. apply elem_of_app. left. apply elem_of_reverse. by apply Hps.
  - intros v Hv. rewrite Hpte by done. case_decide; [|by apply P5]. by rewrite Hz.
Qed.
End populate.
End vm_user.
