(* ===== verification/VmClaims.v ===== *)
(** * What the user-memory functions of kernel/vm.c guarantee *)
From S2P Require Import Prelude Layout Spinlock CString Kalloc Vm VmMap VmSpace VmUser.

Lemma PGROUNDUP_mult a : 0 ≤ a < 2 ^ 64 - PGSIZE → a mod PGSIZE = 0 → PGROUNDUP a = a.
Proof.
  intros H Hm. destruct (PGROUNDUP_spec a H) as [H1 H2]. eapply (page_unique _ a (PGROUNDUP a)); try done; try lia.
Qed.

Section vm_claims.
Context (end_ : Z).
Local Abbreviation is_page := (is_page end_).
Local Abbreviation alloc_rep := (alloc_rep end_).
Local Abbreviation as_ok := (as_ok end_).
Local Abbreviation kfree := (kfree end_).
Local Abbreviation populated := (populated end_).
Local Abbreviation restored := (restored end_).

Lemma TRAPFRAME_val : TRAPFRAME = 274877898752.
Proof. done. Qed.

(** A page count survives the [int] of [uvmdealloc]. *)
Lemma page_count_small lo b : 0 ≤ lo ≤ b → b ≤ TRAPFRAME + PGSIZE → lo mod PGSIZE = 0 → b mod PGSIZE = 0 →
  u64 (i32 ((b - lo) / PGSIZE)) = (b - lo) / PGSIZE ∧ b = lo + (b - lo) / PGSIZE * PGSIZE.
Proof.
  rewrite TRAPFRAME_val. unfold PGSIZE. intros H1 H2 Hl Hb.
  assert (Hd : b - lo = 4096 * ((b - lo) / 4096)).
  { apply Z.div_exact; [lia|]. rewrite Zminus_mod, Hl, Hb. done. }
  split; [|lia]. rewrite i32_small, u64_small; lia.
Qed.

Lemma uvmdealloc_run root s lo b :
  0 ≤ lo ≤ b → b ≤ TRAPFRAME → lo mod PGSIZE = 0 → b mod PGSIZE = 0 →
  uvmdealloc end_ root b lo s =
    if bool_decide (b ≤ lo) then Ok (b, s) else (uvmunmap end_ root lo ((b - lo) / PGSIZE) true ;; mret lo) s.
Proof.
  intros H1 H2 Hl Hb. unfold uvmdealloc. case_bool_decide; [done|].
  pose proof TRAPFRAME_val. rewrite !PGROUNDUP_mult by (done || (unfold PGSIZE; lia)).
  rewrite bool_decide_true by lia. cbn zeta.
  destruct (page_count_small lo b) as [-> _]; try done. unfold PGSIZE. lia.
Qed.

Definition UPERM : Z := Z.lor (Z.lor (Z.lor PTE_W PTE_X) PTE_R) PTE_U.

Lemma populated_undo_dealloc s root free lo perm cont b st fb :
  populated s root free lo perm cont b st fb → 0 ≤ lo ≤ b → b ≤ TRAPFRAME → lo mod PGSIZE = 0 → b mod PGSIZE = 0 →
  (∀ v, va_ok v → lo ≤ v < b → pte_at (phys s) root v = 0) →
  ∃ r st' f', uvmdealloc end_ root b lo st = Ok (r, st') ∧ restored s root free st' f'.
Proof.
  intros Hp Hlo Hb Hlm Hbm Hz. rewrite uvmdealloc_run by done.
  destruct (page_count_small lo b Hlo ltac:(unfold PGSIZE; lia) Hlm Hbm) as [_ Hn].
  destruct (populate_undo end_ s root free lo perm cont b ((b - lo) / PGSIZE) st fb Hp)
    as (st' & f' & E & Hr); try done; try lia.
  { apply Z.div_pos; [lia|done]. }
  case_bool_decide as Hle.
  - (* nothing was mapped *)
    assert (b = lo) as -> by lia. rewrite Z.sub_diag in E. exists lo, st, fb. split; [done|].
    destruct Hp as [H1 H2 H3 H4 H5 _]. split; try done.
    + intros p [?|[?|(va & _ & ? & _)]]%H4; [by left|by right|lia].
    + intros v Hv. apply H5; [done|lia].
  - rewrite (bind_Ok_eq _ _ _ _ _ E). by exists lo, st', f'.
Qed.

Section uvmalloc.
Context (s : kmem) (root : Z) (free : list Z) (oldsz newsz : Z).
Context (Has : as_ok s root free) (Hsz : 0 ≤ oldsz ≤ newsz) (Hmax : newsz ≤ TRAPFRAME).
Context (Hz : ∀ v, va_ok v → PGROUNDUP oldsz ≤ v < newsz → pte_at (phys s) root v = 0).
Local Abbreviation lo := (PGROUNDUP oldsz).
Local Abbreviation grown := (populated s root free lo (λ _, UPERM) (λ _ _, Some 0)).

Lemma lo_spec : lo mod PGSIZE = 0 ∧ oldsz ≤ lo < oldsz + PGSIZE.
Proof. apply PGROUNDUP_spec. pose proof TRAPFRAME_val. unfold PGSIZE. lia. Qed.

Lemma alloc_one_ok b st fb :
  grown b st fb → lo ≤ b < newsz → b mod PGSIZE = 0 →
  ∃ r st', alloc_one end_ root lo b st = Ok (r, st') ∧
    match r with
    | None => ∃ f', grown (b + PGSIZE) st' f'
    | Some v => v = 0 ∧ ∃ f', restored s root free st' f'
    end.
Proof.
  intros Hp Hb Hbm. destruct lo_spec as [Hlm Hlo]. pose proof TRAPFRAME_val as HT.
  assert (Hub : uva b) by (split; [lia|done]).
  assert (Hz' : ∀ v, va_ok v → lo ≤ v < b → pte_at (phys s) root v = 0) by (intros v Hv Hb'; apply Hz; [done|lia]).
  unfold alloc_one. destruct fb as [|pg fb].
  - destruct (populated_none end_ s root free lo _ _ b st Hp) as (st1 & E1 & Hp1).
    rewrite (bind_Ok_eq _ _ _ _ _ E1). rewrite bool_decide_true by done.
    destruct (populated_undo_dealloc _ _ _ _ _ _ _ _ _ Hp1) as (r & st2 & f2 & E2 & Hr); try done; try lia.
    rewrite (bind_Ok_eq _ _ _ _ _ E2). exists (Some 0), st2. split; [done|]. split; [done|]. by exists f2.
  - destruct (fresh_page end_ st pg fb 0) as (s1 & m2 & E1 & E2 & Hr & Hs & Ho & Hc).
    { apply (po_as _ _ _ _ _ _ _ _ _ _ Hp). }
    rewrite (bind_Ok_eq _ _ _ _ _ E1). rewrite bool_decide_false.
    2:{ eapply page_ne_0, alloc_page; [apply (po_as _ _ _ _ _ _ _ _ _ _ Hp)|set_solver]. }
    rewrite (bind_Ok_eq _ _ _ _ _ E2).
    destruct (populate_step end_ s root free lo (λ _, UPERM) (λ _ _, Some 0) b st pg fb s1 m2 Hp Hub)
      as (r & s' & E3 & Hr3); try done; try lia.
    { rewrite Hz; [done|by apply uva_ok|lia]. }
    change (Z.lor (Z.lor (Z.lor PTE_W PTE_X) PTE_R) PTE_U) with UPERM. rewrite (bind_Ok_eq _ _ _ _ _ E3).
    destruct Hr3 as [(-> & f' & Hp')|(Hr3 & s'' & f'' & E4 & Hp'')].
    + rewrite bool_decide_false by tauto. exists None, s'. split; [done|]. by exists f'.
    + rewrite bool_decide_true by done. rewrite (bind_Ok_eq _ _ _ _ _ E4).
      destruct (populated_undo_dealloc _ _ _ _ _ _ _ _ _ Hp'') as (r5 & st5 & f5 & E5 & Hr5); try done; try lia.
      rewrite (bind_Ok_eq _ _ _ _ _ E5). exists (Some 0), st5. split; [done|]. split; [done|]. by exists f5.
Qed.

Lemma new_pages : PGROUNDUP newsz = lo + Z.of_nat (pages (newsz - lo)) * PGSIZE.
Proof.
  destruct lo_spec as [Hlm Hlo]. pose proof TRAPFRAME_val as HT.
  destruct (PGROUNDUP_spec newsz) as [Hnm Hn]; [unfold PGSIZE; lia|].
  pose proof (pages_cover (newsz - lo)). pose proof (pages_spec (newsz - lo)).
  set (x := lo + Z.of_nat (pages (newsz - lo)) * PGSIZE). assert (Hx : x mod PGSIZE = 0) by (by apply page_add).
  destruct (decide (PGROUNDUP newsz = x)); [done|]. unfold x in *.
  apply (page_unique _ _ (PGROUNDUP newsz)); try done; try (unfold PGSIZE in *; lia).
  split; [|unfold PGSIZE in *].
  - destruct (decide (lo + Z.of_nat (pages (newsz - lo)) * PGSIZE ≤ PGROUNDUP newsz)); [done|exfalso].
    unfold PGSIZE in *. pose proof (Z.div_mod lo 4096). pose proof (Z.div_mod (PGROUNDUP newsz) 4096). lia.
  - lia.
Qed.

Lemma uvmalloc_run :
  ∃ r s' f', uvmalloc end_ root oldsz newsz s = Ok (r, s') ∧
    (r = newsz ∧ grown (PGROUNDUP newsz) s' f' ∨ r = 0 ∧ restored s root free s' f').
Proof.
  destruct lo_spec as [Hlm Hlo]. pose proof TRAPFRAME_val as HT. unfold uvmalloc.
  rewrite bool_decide_false by lia. cbn zeta.
  destruct (for_pages_ok (λ b st, b mod PGSIZE = 0 ∧ ∃ fb, grown b st fb)
              (λ _ v st, v = 0 ∧ ∃ f', restored s root free st f')
              (pages (newsz - lo)) lo newsz (alloc_one end_ root lo) s) as (r & s' & E & Hr).
  - split; [done|]. exists free. by apply populated_start.
  - lia.
  - pose proof (pages_cover (newsz - lo)). lia.
  - destruct (pages_spec (newsz - lo)); [right; lia|by left].
  - unfold PGSIZE. lia.
  - intros b st Hb _ [Hbm [fb Hp]]. destruct (alloc_one_ok b st fb Hp Hb Hbm) as (r & st' & E & Hr).
    exists r, st'. split; [done|]. destruct r; [done|]. split; [|done].
    replace (b + PGSIZE) with (b + 1 * PGSIZE) by lia. by apply page_add.
  - rewrite (bind_Ok_eq _ _ _ _ _ E). destruct r as [v|]; simpl.
    + destruct Hr as (b & _ & _ & -> & f' & Hr). exists 0, s', f'. split; [done|]. by right.
    + destruct Hr as (_ & fb & Hp). rewrite <- new_pages in Hp. exists newsz, s', fb. split; [done|]. by left.
Qed.

(** C16 [uvmalloc] grows a process from [oldsz] to [newsz]: either it returns
    [newsz] and every new page is mapped for the user to a distinct page that
    was free, filled with zeros, or it returns 0 and every mapping is as
    before.  In both cases memory outside the page table and the free pages is
    untouched, and no page is lost: a page that was free is still free, or is
    mapped in the new range, or became a page-table page.  Shrinking back with
    [uvmdealloc] undoes a successful call. *)
Theorem uvmalloc_spec :
  ∃ r s' f', uvmalloc end_ root oldsz newsz s = Ok (r, s') ∧
    (r = newsz ∧ grown (PGROUNDUP newsz) s' f' ∧
       (newsz mod PGSIZE = 0 → oldsz mod PGSIZE = 0 → ∃ r' s'' f'',
          uvmdealloc end_ root newsz oldsz s' = Ok (r', s'') ∧ restored s root free s'' f'') ∨
     r = 0 ∧ restored s root free s' f').
Proof.
  pose proof TRAPFRAME_val as HT. destruct uvmalloc_run as (r & s' & f' & E & Hr). exists r, s', f'. split; [done|].
  destruct Hr as [(-> & Hp)|?]; [left|by right]. split; [done|]. split; [done|]. intros Hnm Hom.
  rewrite (PGROUNDUP_mult newsz) in Hp by (done || (unfold PGSIZE; lia)).
  rewrite (PGROUNDUP_mult oldsz) in * by (done || (unfold PGSIZE; lia)).
  eapply populated_undo_dealloc; [exact Hp|lia|lia|done|done|]. intros v Hv Hb. apply Hz; [done|lia].
Qed.
End uvmalloc.
End vm_claims.
