(* ===== verification/VmCopy.v ===== *)
(** * Copying address spaces, and copying between kernel and user memory *)
From S2P Require Import Prelude Layout Spinlock CString Kalloc Vm VmMap VmSpace VmUser VmClaims.

Section vm_copy.
Context (end_ : Z).
Local Abbreviation is_page := (is_page end_).
Local Abbreviation alloc_rep := (alloc_rep end_).
Local Abbreviation pt_ok := (pt_ok end_).
Local Abbreviation as_ok := (as_ok end_).
Local Abbreviation kfree := (kfree end_).

(** The pages of an address space below [sz]: its tables and the user pages. *)
Definition space_page (m : mem) (root sz p : Z) : Prop :=
  is_table m root p ∨ ∃ v, uva v ∧ v < sz ∧ valid (pte_at m root v) = true ∧ upage m root v = p.

Section uvmcopy.
Context (s : kmem) (old new : Z) (free : list Z) (sz : Z).
Context (Hold : as_ok s old free) (Hnew : as_ok s new free) (Hsz : 0 ≤ sz ≤ TRAPFRAME).
Context (Hmapped : ∀ v, uva v → v < sz → valid (pte_at (phys s) old v) = true).
Context (Hz : ∀ v, va_ok v → v < sz → pte_at (phys s) new v = 0).
Context (Hapart : ∀ p, space_page (phys s) old sz p → ¬ is_table (phys s) new p).

(** The child's permissions and contents are those of the parent. *)
Definition parent_perm (v : Z) : Z := PTE_FLAGS (pte_at (phys s) old v).
Definition parent_byte (v o : Z) : option Z := phys s !! (upage (phys s) old v + o).
Local Abbreviation child := (populated end_ s new free 0 parent_perm parent_byte).

Lemma parent_is_page p : space_page (phys s) old sz p → is_page (phys s) p ∧ p ∉ free.
Proof.
  intros [(ρ & Hv & Hp)|(v & Hu & Hv & Hval & <-)].
  - eapply pt_page; [apply Hold|done|done].
  - by destruct (as_leaf _ _ _ _ Hold v Hu Hval) as (_ & ? & ? & _).
Qed.

(** The parent's memory stays as it is. *)
Lemma parent_kept m p x :
  vstep new free (phys s) m → space_page (phys s) old sz p → in_page p x → m !! x = phys s !! x.
Proof.
  intros Hv Hp Hx. apply Hv. intros q Hq Hy. destruct (parent_is_page p Hp) as [Hpp Hpf].
  assert (p = q) as ->.
  { eapply (page_disj end_); [exact Hpp| |exact Hx|exact Hy]. destruct Hq as [(ρ & Hvp & Hq)|Hq].
    - eapply pt_page; [apply Hnew|done|done].
    - eapply alloc_page; [apply Hnew|done]. }
  destruct Hq as [Hq|Hq]; [by eapply Hapart|done].
Qed.

Lemma parent_pt m : vstep new free (phys s) m → pt_ok m old free ∧ ∀ v, pte_at m old v = pte_at (phys s) old v.
Proof.
  intros Hv. assert (Hf : ∀ p x, is_table (phys s) old p → in_page p x → m !! x = phys s !! x).
  { intros p x Hp Hx. eapply parent_kept; [done|by left|done]. }
  split; [|intros v; eapply (pte_frame end_); [apply Hold|done]].
  eapply pt_frame; [apply Hold|apply Hv|done|by intros; left].
Qed.

Lemma parent_perm_ok v : uva v → v < sz → 0 ≤ parent_perm v < 2 ^ 10 ∧ Z.lor (parent_perm v) PTE_V ≠ PTE_V.
Proof.
  intros Hu Hv. destruct (as_leaf _ _ _ _ Hold v Hu (Hmapped v Hu Hv)) as (Hl & _).
  specialize (Hmapped v Hu Hv). unfold valid in Hmapped. apply bool_decide_eq_true in Hmapped.
  unfold parent_perm, PTE_FLAGS in *. set (x := pte_at (phys s) old v) in *.
  assert (Hr : 0 ≤ Z.land x 1023 < 2 ^ 10).
  { change 1023 with (Z.ones 10). rewrite Z.land_ones by lia. apply Z.mod_pos_bound. lia. }
  split; [done|]. intros Heq. apply Hl.
  (* the valid bit is already among the flags *)
  etrans; [|exact Heq]. apply Z.bits_inj'. intros n Hn. rewrite Z.lor_spec, !Z.land_spec.
  destruct (decide (n = 0)) as [->|Hne].
  - change (Z.testbit PTE_V 0) with true. rewrite orb_true_r, andb_true_r.
    destruct (Z.testbit x 0) eqn:E; [done|]. exfalso. apply Hmapped.
    change PTE_V with (Z.ones 1). rewrite Z.land_ones by lia.
    apply Z.bits_inj'. intros k Hk. rewrite Z.bits_0. change (2 ^ 1) with 2.
    pose proof (Z.bit0_mod x) as H0. rewrite E in H0. simpl in H0. by rewrite <- H0, Z.bits_0.
  - replace (Z.testbit PTE_V n) with false; [by rewrite orb_false_r|].
    symmetry. apply Z.bits_above_log2; [done|]. change (Z.log2 PTE_V) with 0. lia.
Qed.

Lemma copy_one_ok b st fb :
  child b st fb → 0 ≤ b < sz → b mod PGSIZE = 0 →
  ∃ r st', copy_one end_ old new b st = Ok (r, st') ∧
    match r with None => ∃ f', child (b + PGSIZE) st' f' | Some v => v = b ∧ ∃ f', child b st' f' end.
Proof.
  intros Hp Hb Hbm. pose proof (TRAPFRAME_val) as HT. assert (Hub : uva b) by (split; [lia|done]).
  pose proof (po_step _ _ _ _ _ _ _ _ _ _ Hp) as Hvs. pose proof (po_as _ _ _ _ _ _ _ _ _ _ Hp) as Has.
  destruct (parent_pt _ Hvs) as [Hopt Hopte]. unfold copy_one.
  destruct (walk_entry end_ b st old free Hopt) as (pte & E0 & Hr); [apply (uva_ok _ Hub)|].
  rewrite (bind_Ok_eq _ _ _ _ _ E0). rewrite Hopte in Hr. pose proof (Hmapped b Hub ltac:(lia)) as Hval.
  destruct Hr as [[_ H0]|(Hne & Hl & _)]; [by rewrite H0 in Hval|].
  rewrite bool_decide_false by done. rewrite (bind_Ok_eq _ _ _ _ _ Hl), Hval. cbn [negb].
  destruct fb as [|pg fb].
  - destruct (populated_none end_ s new free 0 _ _ b st Hp) as (st1 & E1 & Hp1).
    rewrite (bind_Ok_eq _ _ _ _ _ E1). rewrite bool_decide_true by done. exists (Some b), st1.
    split; [done|]. split; [done|]. by exists [].
  - assert (Hpg : is_page (phys st) pg) by (eapply alloc_page; [apply Has|set_solver]).
    assert (Hsp : space_page (phys s) old sz (upage (phys s) old b)) by (right; exists b; split_and!; try done; lia).
    destruct (parent_is_page _ Hsp) as [Hsrc Hsf].
    destruct (kalloc_some end_ st pg fb) as (s1 & E1 & Hr1 & [Ho1 Hs1] & _); [apply Has|].
    rewrite (bind_Ok_eq _ _ _ _ _ E1). rewrite bool_decide_false by (by eapply page_ne_0).
    assert (Hsrc1 : is_page (phys s1) (upage (phys s) old b)).
    { eapply is_page_frame; [eapply is_page_frame; [exact Hsrc|apply Hvs]|done]. }
    destruct (memmove_ok (phys s1) pg (upage (phys s) old b) PGSIZE) as (m2 & E2 & Hc2).
    { unfold PGSIZE. lia. }
    { eapply mapped_frame; [apply Hpg|done]. }
    { apply Hsrc1. }
    assert (Hneq : upage (phys s) old b ≠ pg).
    { intros Heq. apply Hsf. rewrite Heq. apply (po_sub _ _ _ _ _ _ _ _ _ _ Hp). set_solver. }
    change (PTE2PA (pte_at (phys s) old b)) with (upage (phys s) old b).
    rewrite (bind_Ok_eq _ _ _ _ _ (pmem_run _ _ _ _ E2)).
    assert (Hs2 : same_some (phys s1) m2).
    { intros x Hx. rewrite Hc2. case_decide as Hin; [|done]. eapply mapped_at; [apply Hsrc1|lia]. }
    destruct (populate_step end_ s new free 0 parent_perm parent_byte b st pg fb s1 m2 Hp Hub)
      as (r & s' & E3 & Hr3); try done; try lia.
    { rewrite Hz; [done|by apply uva_ok|lia]. }
    { apply alloc_frame; [done| |done]. intros p x Hpf Hx. rewrite Hc2, decide_False; [done|]. intros Hy.
      pose proof (ar_nodup _ _ _ (vm_alloc _ _ _ _ (as_vm _ _ _ _ Has))) as [Hn _]%NoDup_cons.
      assert (p = pg) as ->; [|done]. eapply (page_disj end_ (phys st)); [|exact Hpg|done|done].
      eapply alloc_page; [apply Has|set_solver]. }
    { by eapply same_some_trans. }
    { intros x Hx. rewrite Hc2, decide_False by done. apply Ho1. unfold in_page in Hx. lia. }
    { intros x Hx. rewrite Hc2, decide_True by done. unfold parent_byte.
      assert (Hin : in_page (upage (phys s) old b) (upage (phys s) old b + (x - pg))) by (unfold in_page in *; lia).
      rewrite Ho1.
      - by eapply parent_kept.
      - assert (¬ in_page pg (upage (phys s) old b + (x - pg))); [|unfold in_page in *; lia].
        intros Hy. apply Hneq. eapply (page_disj end_ (phys s1)); [done|by eapply is_page_frame|done|done]. }
    { apply parent_perm_ok; [done|lia]. }
    { apply parent_perm_ok; [done|lia]. }
    change (PTE_FLAGS (pte_at (phys s) old b)) with (parent_perm b). rewrite (bind_Ok_eq _ _ _ _ _ E3).
    destruct Hr3 as [(-> & f' & Hp')|(Hr3 & s'' & f'' & E4 & Hp'')].
    + rewrite bool_decide_false by tauto. exists None, s'. split; [done|]. by exists f'.
    + rewrite bool_decide_true by done. rewrite (bind_Ok_eq _ _ _ _ _ E4). exists (Some b), s''.
      split; [done|]. split; [done|]. by exists f''.
Qed.

(** C17 [uvmcopy], the memory of [fork]: either it returns 0, and every page of
    the parent below [sz] is mapped in the child with the same flags to its own
    page (distinct pages that were free) that holds the same bytes; or it
    returns -1 with the child's mappings as before and no page lost.  In both
    cases all of the parent's memory and page table is untouched. *)
Theorem uvmcopy_spec :
  ∃ r s' f', uvmcopy end_ old new sz s = Ok (r, s') ∧
    (r = 0 ∧ child (PGROUNDUP sz) s' f' ∨ r = -1 ∧ restored end_ s new free s' f') ∧
    (∀ p x, space_page (phys s) old sz p → in_page p x → phys s' !! x = phys s !! x).
Proof.
  pose proof TRAPFRAME_val as HT. unfold uvmcopy.
  destruct (for_pages_ok (λ b st, b mod PGSIZE = 0 ∧ ∃ fb, child b st fb)
              (λ b v st, v = b ∧ ∃ f', child b st f') (pages sz) 0 sz (copy_one end_ old new) s) as (r & s' & E & Hr).
  - split; [done|]. exists free. by apply populated_start.
  - lia.
  - apply pages_cover.
  - destruct (pages_spec sz); [right; lia|by left].
  - unfold PGSIZE. lia.
  - intros b st Hb _ [Hbm [fb Hp]]. destruct (copy_one_ok b st fb Hp Hb Hbm) as (r & st' & E & Hr).
    exists r, st'. split; [done|]. destruct r; [done|]. split; [|done].
    replace (b + PGSIZE) with (b + 1 * PGSIZE) by lia. by apply page_add.
  - rewrite (bind_Ok_eq _ _ _ _ _ E). destruct r as [v|].
    + destruct Hr as (b & Hb & Hbm & -> & fb & Hp). rewrite Z.sub_0_r in Hbm.
      assert (Hbd : b = 0 + b / PGSIZE * PGSIZE) by (unfold PGSIZE in *; pose proof (Z.div_mod b 4096); lia).
      destruct (populate_undo end_ s new free 0 _ _ b (b / PGSIZE) s' fb Hp) as (st' & f' & E2 & Hr2); try done; try lia.
      { apply Z.div_pos; [lia|done]. }
      { intros v Hv Hvb. apply Hz; [done|lia]. }
      rewrite (bind_Ok_eq _ _ _ _ _ E2). exists (-1), st', f'. split; [done|]. split; [by right|].
      intros p x Hpp Hx. eapply parent_kept; [apply Hr2|done|done].
    + destruct Hr as (_ & fb & Hp).
      assert (Hru : PGROUNDUP sz = 0 + Z.of_nat (pages sz) * PGSIZE).
      { pose proof (new_pages 0 sz ltac:(lia) ltac:(lia)) as Hn. change (PGROUNDUP 0) with 0 in Hn. by rewrite Z.sub_0_r in Hn. }
      rewrite <- Hru in Hp. exists 0, s', fb. split; [done|]. split; [by left|].
      intros p x Hpp Hx. eapply parent_kept; [apply Hp|done|done].
Qed.
End uvmcopy.

(** ** Kernel to user and back *)

(** The physical address of a user address, when the user may access it. *)
Definition user_pte (v : Z) : bool := valid v && bool_decide (Z.land v PTE_U ≠ 0).
Definition uaddr (m : mem) (root va : Z) : option Z :=
  let v := pte_at m root (PGROUNDDOWN va) in
  if bool_decide (va < MAXVA) && user_pte v then Some (PTE2PA v + va mod PGSIZE) else None.
(** [p] is a page the user may access. *)
Definition user_page (m : mem) (root p : Z) : Prop :=
  ∃ v, va_ok v ∧ user_pte (pte_at m root v) = true ∧ upage m root v = p.

Record user_ok (m : mem) (root : Z) (avail : list Z) : Prop := {
  uo_pt : pt_ok m root avail;
  uo_page : ∀ p, user_page m root p → is_page m p ∧ ¬ is_table m root p;
  uo_inj : ∀ v v', va_ok v → va_ok v' → user_pte (pte_at m root v) = true → user_pte (pte_at m root v') = true →
    upage m root v = upage m root v' → v = v' }.

Lemma user_frame m m' root avail :
  user_ok m root avail → same_some m m' → (∀ p x, is_table m root p → in_page p x → m' !! x = m !! x) →
  user_ok m' root avail ∧ (∀ va, uaddr m' root va = uaddr m root va) ∧ ∀ p, user_page m' root p ↔ user_page m root p.
Proof.
  intros [H1 H2 H3] Hs Hf. pose proof (λ v, pte_frame end_ m m' root avail v H1 Hf) as Hp.
  assert (Hup : ∀ p, user_page m' root p ↔ user_page m root p).
  { intros p. unfold user_page, upage. split; intros (v & ?); exists v; [rewrite <- Hp|rewrite Hp]; done. }
  split; [|split; [|done]].
  - split.
    + eapply pt_frame; [done|done|done|]. by intros; left.
    + intros p (Hpg & Ht)%Hup%H2. split; [by eapply is_page_frame|].
      by rewrite (same_tables end_ _ _ _ _ p H1 Hf).
    + unfold upage. intros v v' ??. rewrite !Hp. by apply H3.
  - intros va. unfold uaddr. by rewrite Hp.
Qed.

(** A chunk within one page. *)
Lemma chunk_spec dst len : 0 ≤ dst → 0 < len →
  let va0 := PGROUNDDOWN dst in let n := Z.min (PGSIZE - (dst - va0)) len in
  va0 mod PGSIZE = 0 ∧ 0 ≤ va0 ≤ dst ∧ dst - va0 = dst mod PGSIZE ∧ 0 < n ≤ len ∧ dst mod PGSIZE + n ≤ PGSIZE ∧
  (n < len → dst + n = va0 + PGSIZE) ∧
  ∀ j, 0 ≤ j < n → PGROUNDDOWN (dst + j) = va0 ∧ (dst + j) mod PGSIZE = dst mod PGSIZE + j.
Proof.
  intros Hd Hl va0 n. destruct (PGROUNDDOWN_spec dst) as [Hm Hb]. fold va0 in Hm, Hb.
  pose proof (PGROUNDDOWN_nonneg dst Hd) as H0. fold va0 in H0.
  assert (Hoff : dst - va0 = dst mod PGSIZE).
  { unfold PGSIZE in *. pose proof (Z.div_mod dst 4096). pose proof (Z.div_mod va0 4096).
    pose proof (Z.mod_pos_bound dst 4096). lia. }
  unfold n. do 6 (split; [first [done|lia]|]).
  intros j Hj. assert (Hj2 : PGROUNDDOWN (dst + j) = va0).
  { destruct (PGROUNDDOWN_spec (dst + j)) as [Hm' Hb']. apply (page_unique _ _ (dst + j)); try done; lia. }
  split; [done|]. destruct (PGROUNDDOWN_spec (dst + j)) as [Hm' Hb']. rewrite Hj2 in *.
  unfold PGSIZE in *. pose proof (Z.div_mod (dst + j) 4096). pose proof (Z.div_mod va0 4096).
  pose proof (Z.mod_pos_bound (dst + j) 4096). lia.
Qed.

Lemma walkaddr_user va s root avail :
  pt_ok (phys s) root avail → 0 ≤ va →
  ∃ pa, walkaddr root (PGROUNDDOWN va) s = Ok (pa, s) ∧
    (pa = 0 ∧ uaddr (phys s) root va = None ∨
     user_page (phys s) root pa ∧ uaddr (phys s) root va = Some (pa + va mod PGSIZE)).
Proof.
  intros Hok Hva. destruct (PGROUNDDOWN_spec va) as [Hm Hb].
  pose proof (PGROUNDDOWN_nonneg va Hva) as H0.
  eexists. split; [by eapply walkaddr_ok|]. cbn zeta. unfold uaddr, user_pte.
  set (v := pte_at (phys s) root (PGROUNDDOWN va)).
  assert (Hlt : va < MAXVA ↔ PGROUNDDOWN va < MAXVA).
  { split; [lia|]. change MAXVA with (67108864 * PGSIZE). unfold PGSIZE in *.
    pose proof (Z.div_mod (PGROUNDDOWN va) 4096). lia. }
  rewrite (bool_decide_ext _ _ Hlt). destruct (decide (PGROUNDDOWN va < MAXVA)) as [El|El];
    [rewrite bool_decide_true by done|rewrite bool_decide_false by done; by left]. cbn [andb].
  destruct (valid v) eqn:Ev; cbn [andb]; [|by left].
  destruct (decide (Z.land v PTE_U ≠ 0)) as [Eu|Eu]; [rewrite bool_decide_true by done|rewrite bool_decide_false by done; by left].
  right. split; [|done]. exists (PGROUNDDOWN va).
  split; [done|]. unfold user_pte. fold v. rewrite Ev. by rewrite bool_decide_true.
Qed.

(** [n] bytes of kernel memory at [src] were stored at the user address [dst],
    and nothing else. *)
Record stored (m : mem) (root dst src n : Z) (m' : mem) : Prop := {
  st_some : same_some m m';
  st_bytes : ∀ j, 0 ≤ j < n → ∃ a, uaddr m root (dst + j) = Some a ∧ m' !! a = m !! (src + j);
  st_frame : ∀ x, (∀ j, 0 ≤ j < n → uaddr m root (dst + j) ≠ Some x) → m' !! x = m !! x }.

Lemma uaddr_page m root va a : uaddr m root va = Some a → 0 ≤ va →
  ∃ p, user_page m root p ∧ in_page p a.
Proof.
  unfold uaddr. intros H Hva. destruct (bool_decide (va < MAXVA)) eqn:El; [|done]. cbn [andb] in H.
  destruct (user_pte _) eqn:Eu; [|done]. injection H as <-. apply bool_decide_eq_true in El.
  destruct (PGROUNDDOWN_spec va) as [Hm Hb].
  pose proof (PGROUNDDOWN_nonneg va Hva) as H0.
  eexists. split; [exists (PGROUNDDOWN va); split_and!; [split; [lia|done]|exact Eu|reflexivity]|].
  unfold in_page, upage. pose proof (Z.mod_pos_bound va PGSIZE ltac:(done)). lia.
Qed.

Lemma uaddr_inj m root avail va va' a : user_ok m root avail → 0 ≤ va → 0 ≤ va' →
  uaddr m root va = Some a → uaddr m root va' = Some a → va = va'.
Proof.
  intros Hu H0 H0' H H'. unfold uaddr in *.
  destruct (bool_decide (va < MAXVA)) eqn:El, (bool_decide (va' < MAXVA)) eqn:El'; try done. cbn [andb] in *.
  destruct (user_pte (pte_at m root (PGROUNDDOWN va))) eqn:Eu, (user_pte (pte_at m root (PGROUNDDOWN va'))) eqn:Eu'; try done.
  apply bool_decide_eq_true in El, El'. injection H as H. injection H' as H'.
  destruct (PGROUNDDOWN_spec va) as [Hm Hb], (PGROUNDDOWN_spec va') as [Hm' Hb'].
  pose proof (PGROUNDDOWN_nonneg va H0). pose proof (PGROUNDDOWN_nonneg va' H0').
  assert (V : va_ok (PGROUNDDOWN va)) by (split; [lia|done]).
  assert (V' : va_ok (PGROUNDDOWN va')) by (split; [lia|done]).
  pose proof (Z.mod_pos_bound va PGSIZE ltac:(done)). pose proof (Z.mod_pos_bound va' PGSIZE ltac:(done)).
  assert (P : upage m root (PGROUNDDOWN va) = upage m root (PGROUNDDOWN va')).
  { destruct (uo_page _ _ _ Hu (upage m root (PGROUNDDOWN va))) as [P1 _]; [by exists (PGROUNDDOWN va)|].
    destruct (uo_page _ _ _ Hu (upage m root (PGROUNDDOWN va'))) as [P2 _]; [by exists (PGROUNDDOWN va')|].
    eapply (page_disj end_ m _ _ a); [done|done|unfold in_page, upage; lia|unfold in_page, upage; lia]. }
  pose proof (uo_inj _ _ _ Hu _ _ V V' Eu Eu' P) as HP. unfold upage in P.
  assert (va mod PGSIZE = va' mod PGSIZE) by lia.
  unfold PGSIZE in *. pose proof (Z.div_mod va 4096). pose proof (Z.div_mod va' 4096).
  pose proof (Z.div_mod (PGROUNDDOWN va) 4096). pose proof (Z.div_mod (PGROUNDDOWN va') 4096). lia.
Qed.
End vm_copy.
