(* ===== verification/VmIO.v ===== *)
(** * [copyout], [copyin] and [copyinstr] *)
From S2P Require Import Prelude Layout Spinlock CString Kalloc Vm VmMap VmSpace VmUser VmClaims VmCopy.

Section vm_io.
Context (end_ : Z).
Local Abbreviation is_page := (is_page end_).
Local Abbreviation pt_ok := (pt_ok end_).
Local Abbreviation user_ok := (user_ok end_).

(** A kernel buffer: in memory, outside the page table and the user's pages. *)
Record kbuf (m : mem) (root a n : Z) : Prop := {
  kb_mapped : mapped m a n;
  kb_apart : ∀ x, a ≤ x < a + n → ∀ p, is_table m root p ∨ user_page m root p → ¬ in_page p x }.

Lemma kbuf_shrink m root a n b k : kbuf m root a n → a ≤ b → b + k ≤ a + n → kbuf m root b k.
Proof.
  intros [H1 H2] ??. split; [by eapply mapped_shrink|]. intros x Hx. apply H2. lia.
Qed.

Lemma user_not_table m root avail p x q :
  user_ok m root avail → user_page m root p → is_table m root q → in_page p x → ¬ in_page q x.
Proof.
  intros Hu Hp Hq Hx Hy. destruct (uo_page _ _ _ _ Hu p Hp) as [Hpp Hnt]. apply Hnt.
  assert (p = q) as ->; [|done]. pose proof Hq as (ρ & Hv & Ht). eapply (page_disj end_); [done| |done|done].
  eapply pt_page; [apply Hu|done|done].
Qed.

Lemma kbuf_frame m m' root avail a n :
  user_ok m root avail → same_some m m' → (∀ p x, is_table m root p → in_page p x → m' !! x = m !! x) →
  kbuf m root a n → kbuf m' root a n.
Proof.
  intros Hu Hs Hf [H1 H2]. destruct (user_frame _ _ _ _ _ Hu Hs Hf) as (_ & _ & Hup). split.
  - by eapply mapped_frame.
  - intros x Hx p [Hp|Hp]; (apply H2; [done|]).
    + left. by apply (same_tables end_ _ _ _ _ p (uo_pt _ _ _ _ Hu) Hf).
    + right. by apply Hup.
Qed.

(** ** [copyout] *)

Lemma copyout_loop_ok k s root avail dst src len :
  user_ok (phys s) root avail → 0 ≤ dst → kbuf (phys s) root src len → 0 ≤ len →
  len ≤ Z.of_nat k * PGSIZE - dst mod PGSIZE →
  ∃ r n m', copyout_loop k root dst src len s = Ok (r, set_phys m' s) ∧ 0 ≤ n ≤ len ∧
    (r = 0 ∧ n = len ∨ r = -1 ∧ n < len ∧ uaddr (phys s) root (dst + n) = None) ∧
    stored (phys s) root dst src n m' ∧ (∀ p x, is_table (phys s) root p → in_page p x → m' !! x = phys s !! x).
Proof.
  revert s dst src len. induction k as [|k IH]; intros s dst src len Hu Hd Hk Hl Hfuel; cbn [copyout_loop].
  - pose proof (Z.mod_pos_bound dst PGSIZE ltac:(done)). rewrite bool_decide_false by lia.
    exists 0, 0, (phys s). rewrite set_phys_id. split; [done|]. split; [lia|]. split; [left; lia|].
    split; [|done]. split; [apply same_some_refl|intros; lia|done].
  - case_bool_decide as Hpos.
    2:{ exists 0, 0, (phys s). rewrite set_phys_id. split; [done|]. split; [lia|]. split; [left; lia|].
        split; [|done]. split; [apply same_some_refl|intros; lia|done]. }
    destruct (walkaddr_user end_ dst s root avail (uo_pt _ _ _ _ Hu) Hd) as (pa & E & Hpa). cbn zeta.
    rewrite (bind_Ok_eq _ _ _ _ _ E). destruct Hpa as [[-> Hnone]|[Hup Hsome]].
    { rewrite bool_decide_true by done. exists (-1), 0, (phys s). rewrite set_phys_id, Z.add_0_r.
      split; [done|]. split; [lia|]. split; [right; split_and!; done || lia|].
      split; [|done]. split; [apply same_some_refl|intros; lia|done]. }
    destruct (uo_page _ _ _ _ Hu pa Hup) as [Hpp Hpt]. rewrite bool_decide_false by (by eapply page_ne_0).
    destruct (chunk_spec dst len Hd ltac:(lia)) as (C1 & C2 & C3 & C4 & C5 & C6 & C7).
    set (va0 := PGROUNDDOWN dst) in *. set (n := Z.min (PGSIZE - (dst - va0)) len) in *. rewrite C3.
    set (off := dst mod PGSIZE) in *. assert (Hoff : 0 ≤ off) by (apply Z.mod_pos_bound; done).
    destruct (memmove_ok (phys s) (pa + off) src n) as (m1 & E1 & Hc1); [lia| | |].
    { eapply mapped_shrink; [apply Hpp|lia|lia]. }
    { eapply mapped_shrink; [apply Hk|lia|lia]. }
    rewrite (bind_Ok_eq _ _ _ _ _ (pmem_run _ _ _ _ E1)).
    assert (Hin : ∀ j, 0 ≤ j < n → in_page pa (pa + off + j)) by (intros j Hj; unfold in_page; lia).
    assert (Ha1 : ∀ j, 0 ≤ j < n → uaddr (phys s) root (dst + j) = Some (pa + off + j)).
    { intros j Hj. destruct (C7 j Hj) as [D1 D2]. revert Hsome. unfold uaddr. rewrite D1, D2. fold va0.
      destruct (user_pte (pte_at (phys s) root va0)); [|by rewrite andb_false_r].
      case_bool_decide as Hd1; [|done]. cbn [andb]. intros [= Hx]. rewrite bool_decide_true; [simpl; f_equal; lia|].
      change MAXVA with (67108864 * PGSIZE) in *. unfold PGSIZE in *. pose proof (Z.div_mod va0 4096). lia. }
    assert (Hs1 : same_some (phys s) m1).
    { intros x Hx. rewrite Hc1. case_decide; [|done]. eapply mapped_at; [apply Hk|lia]. }
    assert (Hft : ∀ p x, is_table (phys s) root p → in_page p x → m1 !! x = phys s !! x).
    { intros p x Hp Hx. rewrite Hc1, decide_False; [done|]. intros Hy.
      eapply (user_not_table (phys s) root avail pa x p); try done. unfold in_page. lia. }
    destruct (user_frame _ _ m1 _ _ Hu Hs1 Hft) as (Hu1 & Hua1 & _).
    rewrite (u64_small (va0 + PGSIZE)).
    2:{ assert (dst < MAXVA); [|change MAXVA with 274877906944 in *; unfold PGSIZE; lia].
        destruct (decide (dst < MAXVA)); [done|]. unfold uaddr in Hsome. by rewrite bool_decide_false in Hsome. }
    destruct (IH (set_phys m1 s) (va0 + PGSIZE) (src + n) (len - n)) as (r & n2 & m' & E2 & Hn2 & Hr & Hst & Hft2);
      simpl; try done; try lia.
    { eapply kbuf_shrink; [eapply (kbuf_frame (phys s) m1); [exact Hu|exact Hs1|exact Hft|exact Hk]|lia|lia]. }
    { replace ((va0 + PGSIZE) mod PGSIZE) with 0; [unfold PGSIZE in *; lia|].
      symmetry. replace (va0 + PGSIZE) with (va0 + 1 * PGSIZE) by lia. by apply page_add. }
    simpl in E2, Hr, Hst, Hft2. change (set_phys m' (set_phys m1 s)) with (set_phys m' s) in E2.
    assert (Hnext : 0 < n2 → va0 + PGSIZE = dst + n) by lia.
    exists r, (n + n2), m'. split; [exact E2|]. split; [lia|]. split; [|split].
    + destruct Hr as [(-> & ->)|(-> & Hlt & Hnone)]; [left; lia|right]. split; [done|]. split; [lia|].
      rewrite Hua1 in Hnone. replace (dst + (n + n2)) with (va0 + PGSIZE + n2) by lia. done.
    + destruct Hst as [S1 S2 S3]. split.
      * by eapply same_some_trans.
      * intros j Hj. destruct (decide (j < n)) as [Hjn|Hjn].
        -- exists (pa + off + j). split; [apply Ha1; lia|]. rewrite S3.
           ++ rewrite Hc1, decide_True by lia. f_equal. lia.
           ++ intros j2 Hj2. rewrite Hua1. intros Heq.
              assert (dst + j = va0 + PGSIZE + j2); [|lia].
              eapply (uaddr_inj end_); [exact Hu|lia|lia|apply Ha1; lia|done].
        -- destruct (S2 (j - n)) as (a & A1 & A2); [lia|]. exists a. rewrite Hua1 in A1. split.
           ++ rewrite <- A1. f_equal. lia.
           ++ rewrite A2. replace (src + n + (j - n)) with (src + j) by lia. rewrite Hc1, decide_False; [done|].
              intros Hy. apply (kb_apart _ _ _ _ Hk (src + j) ltac:(lia) pa ltac:(by right)). unfold in_page. lia.
      * intros x Hx. rewrite S3.
        -- rewrite Hc1, decide_False; [done|]. intros Hy. apply (Hx (x - (pa + off))); [lia|].
           rewrite Ha1 by lia. f_equal. lia.
        -- intros j2 Hj2. rewrite Hua1. replace (va0 + PGSIZE + j2) with (dst + (n + j2)) by lia. apply Hx. lia.
    + intros p x Hp Hx. rewrite (Hft2 p); [by eapply Hft| |done].
      by apply (same_tables end_ _ _ _ _ p (uo_pt _ _ _ _ Hu) Hft).
Qed.

(** ** [copyin] *)

(** [n] user bytes at [src] were stored in the kernel buffer at [dst]. *)
Record fetched (m : mem) (root dst src n : Z) (m' : mem) : Prop := {
  fe_some : same_some m m';
  fe_bytes : ∀ j, 0 ≤ j < n → ∃ a, uaddr m root (src + j) = Some a ∧ m' !! (dst + j) = m !! a;
  fe_frame : ∀ x, ¬ (dst ≤ x < dst + n) → m' !! x = m !! x }.

(** A write in a kernel buffer does not touch tables or user memory. *)
Lemma kbuf_safe (m m' : mem) root avail a n :
  user_ok m root avail → kbuf m root a n → (∀ x, ¬ (a ≤ x < a + n) → m' !! x = m !! x) →
  (∀ p x, is_table m root p ∨ user_page m root p → in_page p x → m' !! x = m !! x).
Proof. intros Hu Hk Hf p x Hp Hx. apply Hf. intros Hy. by apply (kb_apart _ _ _ _ Hk x Hy p Hp). Qed.

Lemma copyin_loop_ok k s root avail dst src len :
  user_ok (phys s) root avail → 0 ≤ src → kbuf (phys s) root dst len → 0 ≤ len →
  len ≤ Z.of_nat k * PGSIZE - src mod PGSIZE →
  ∃ r n m', copyin_loop k root dst src len s = Ok (r, set_phys m' s) ∧ 0 ≤ n ≤ len ∧
    (r = 0 ∧ n = len ∨ r = -1 ∧ n < len ∧ uaddr (phys s) root (src + n) = None) ∧
    fetched (phys s) root dst src n m'.
Proof.
  revert s dst src len. induction k as [|k IH]; intros s dst src len Hu Hd Hk Hl Hfuel; cbn [copyin_loop].
  - pose proof (Z.mod_pos_bound src PGSIZE ltac:(done)). rewrite bool_decide_false by lia.
    exists 0, 0, (phys s). rewrite set_phys_id. split; [done|]. split; [lia|]. split; [left; lia|].
    split; [apply same_some_refl|intros; lia|done].
  - case_bool_decide as Hpos.
    2:{ exists 0, 0, (phys s). rewrite set_phys_id. split; [done|]. split; [lia|]. split; [left; lia|].
        split; [apply same_some_refl|intros; lia|done]. }
    destruct (walkaddr_user end_ src s root avail (uo_pt _ _ _ _ Hu) Hd) as (pa & E & Hpa). cbn zeta.
    rewrite (bind_Ok_eq _ _ _ _ _ E). destruct Hpa as [[-> Hnone]|[Hup Hsome]].
    { rewrite bool_decide_true by done. exists (-1), 0, (phys s). rewrite set_phys_id, Z.add_0_r.
      split; [done|]. split; [lia|]. split; [right; split_and!; done || lia|].
      split; [apply same_some_refl|intros; lia|done]. }
    destruct (uo_page _ _ _ _ Hu pa Hup) as [Hpp Hpt]. rewrite bool_decide_false by (by eapply page_ne_0).
    destruct (chunk_spec src len Hd ltac:(lia)) as (C1 & C2 & C3 & C4 & C5 & C6 & C7).
    set (va0 := PGROUNDDOWN src) in *. set (n := Z.min (PGSIZE - (src - va0)) len) in *. rewrite C3.
    set (off := src mod PGSIZE) in *. assert (Hoff : 0 ≤ off) by (apply Z.mod_pos_bound; done).
    destruct (memmove_ok (phys s) dst (pa + off) n) as (m1 & E1 & Hc1); [lia| | |].
    { eapply mapped_shrink; [apply Hk|lia|lia]. }
    { eapply mapped_shrink; [apply Hpp|lia|lia]. }
    rewrite (bind_Ok_eq _ _ _ _ _ (pmem_run _ _ _ _ E1)).
    assert (Ha1 : ∀ j, 0 ≤ j < n → uaddr (phys s) root (src + j) = Some (pa + off + j)).
    { intros j Hj. destruct (C7 j Hj) as [D1 D2]. revert Hsome. unfold uaddr. rewrite D1, D2. fold va0.
      destruct (user_pte (pte_at (phys s) root va0)); [|by rewrite andb_false_r].
      case_bool_decide as Hd1; [|done]. cbn [andb]. intros [= Hx]. rewrite bool_decide_true; [simpl; f_equal; lia|].
      change MAXVA with (67108864 * PGSIZE) in *. unfold PGSIZE in *. pose proof (Z.div_mod va0 4096). lia. }
    assert (Hs1 : same_some (phys s) m1).
    { intros x Hx. rewrite Hc1. case_decide; [|done]. eapply mapped_at; [apply Hpp|]. lia. }
    assert (Hf1 : ∀ x, ¬ (dst ≤ x < dst + len) → m1 !! x = phys s !! x).
    { intros x Hx. rewrite Hc1, decide_False by lia. done. }
    pose proof (kbuf_safe _ _ _ _ _ _ Hu Hk Hf1) as Hft.
    destruct (user_frame _ _ m1 _ _ Hu Hs1) as (Hu1 & Hua1 & _). { intros p x Hp. apply Hft. by left. }
    rewrite (u64_small (va0 + PGSIZE)).
    2:{ assert (src < MAXVA); [|change MAXVA with 274877906944 in *; unfold PGSIZE; lia].
        destruct (decide (src < MAXVA)); [done|]. unfold uaddr in Hsome. by rewrite bool_decide_false in Hsome. }
    destruct (IH (set_phys m1 s) (dst + n) (va0 + PGSIZE) (len - n)) as (r & n2 & m' & E2 & Hn2 & Hr & Hst);
      simpl; try done; try lia.
    { eapply kbuf_shrink; [eapply (kbuf_frame (phys s) m1); [exact Hu|exact Hs1| |exact Hk]|lia|lia].
      intros p x Hp. apply Hft. by left. }
    { replace ((va0 + PGSIZE) mod PGSIZE) with 0; [unfold PGSIZE in *; lia|].
      symmetry. replace (va0 + PGSIZE) with (va0 + 1 * PGSIZE) by lia. by apply page_add. }
    simpl in E2, Hr, Hst. change (set_phys m' (set_phys m1 s)) with (set_phys m' s) in E2.
    exists r, (n + n2), m'. split; [exact E2|]. split; [lia|]. split.
    + destruct Hr as [(-> & ->)|(-> & Hlt & Hnone)]; [left; lia|right]. split; [done|]. split; [lia|].
      rewrite Hua1 in Hnone. replace (src + (n + n2)) with (va0 + PGSIZE + n2) by lia. done.
    + destruct Hst as [S1 S2 S3]. split.
      * by eapply same_some_trans.
      * intros j Hj. destruct (decide (j < n)) as [Hjn|Hjn].
        -- exists (pa + off + j). split; [apply Ha1; lia|]. rewrite S3 by lia.
           rewrite Hc1, decide_True by lia. f_equal. lia.
        -- destruct (S2 (j - n)) as (a & A1 & A2); [lia|]. exists a. rewrite Hua1 in A1.
           assert (A3 : uaddr (phys s) root (src + j) = Some a) by (rewrite <- A1; f_equal; lia).
           split; [done|]. replace (dst + j) with (dst + n + (j - n)) by lia. rewrite A2.
           destruct (uaddr_page _ _ _ _ A3 ltac:(lia)) as (p & Hp & Hin). apply (Hft p); [by right|done].
      * intros x Hx. rewrite S3 by lia. rewrite Hc1, decide_False by lia. done.
Qed.

Lemma copy_fuel a len : 0 ≤ len → len ≤ Z.of_nat (S (Z.to_nat (len / PGSIZE + 1))) * PGSIZE - a mod PGSIZE.
Proof.
  intros Hl. unfold PGSIZE. pose proof (Z.div_mod len 4096). pose proof (Z.mod_pos_bound len 4096).
  pose proof (Z.mod_pos_bound a 4096). pose proof (Z.div_pos len 4096). lia.
Qed.

(** C18 The copies between kernel and user memory.  [copyout] stores the longest
    prefix of the buffer whose user pages are mapped and accessible: it returns
    0 when that is all of it, -1 when the next byte has no such page; bytes land
    at their translated addresses and no other byte of memory changes.  After a
    complete [copyout], [copyin] from the same user address into any kernel
    buffer returns 0 and delivers the same bytes. *)
Theorem copy_roundtrip s root avail va src dst len :
  user_ok (phys s) root avail → 0 ≤ va → 0 ≤ len →
  kbuf (phys s) root src len → kbuf (phys s) root dst len →
  ∃ r n m1, copyout root va src len s = Ok (r, set_phys m1 s) ∧ 0 ≤ n ≤ len ∧
    (r = 0 ∧ n = len ∨ r = -1 ∧ n < len ∧ uaddr (phys s) root (va + n) = None) ∧
    stored (phys s) root va src n m1 ∧
    (r = 0 → ∃ m2, copyin root dst va len (set_phys m1 s) = Ok (0, set_phys m2 s) ∧
       (∀ j, 0 ≤ j < len → m2 !! (dst + j) = phys s !! (src + j)) ∧
       (∀ x, ¬ (dst ≤ x < dst + len) → m2 !! x = m1 !! x)).
Proof.
  intros Hu Hva Hl Hks Hkd.
  destruct (copyout_loop_ok (S (Z.to_nat (len / PGSIZE + 1))) s root avail va src len Hu Hva Hks Hl (copy_fuel va len Hl))
    as (r & n & m1 & E & Hn & Hr & Hst & Hft).
  exists r, n, m1. split; [exact E|]. split; [done|]. split; [done|]. split; [done|]. intros ->.
  destruct Hr as [(_ & ->)|(? & _)]; [|done].
  destruct (user_frame _ _ m1 _ _ Hu (st_some _ _ _ _ _ _ Hst) Hft) as (Hu1 & Hua1 & _).
  destruct (copyin_loop_ok (S (Z.to_nat (len / PGSIZE + 1))) (set_phys m1 s) root avail dst va len Hu1 Hva)
    as (r2 & n2 & m2 & E2 & Hn2 & Hr2 & Hfe); [|done|by apply copy_fuel|].
  { eapply kbuf_frame; [exact Hu|apply Hst|exact Hft|done]. }
  simpl in *. assert (r2 = 0 ∧ n2 = len) as [-> ->].
  { destruct Hr2 as [?|(_ & Hlt & Hnone)]; [done|].
    destruct (st_bytes _ _ _ _ _ _ Hst n2) as (a & Ha & _); [lia|]. rewrite Hua1 in Hnone. congruence. }
  exists m2. split; [exact E2|]. split; [|apply Hfe]. intros j Hj.
  destruct (fe_bytes _ _ _ _ _ _ Hfe j Hj) as (a & A1 & A2). destruct (st_bytes _ _ _ _ _ _ Hst j Hj) as (a' & B1 & B2).
  rewrite Hua1 in A1. rewrite A2. congruence.
Qed.
End vm_io.
