(* ===== verification/VmFree.v ===== *)
(** * [freewalk] and [uvmfree]: every page comes back

    [tree_pages l m pg]: the pages of the subtree of [l] levels below [pg], in
    the order in which [freewalk] frees them. *)
From S2P Require Import Prelude Layout Spinlock CString Kalloc Vm VmMap VmSpace VmUser VmClaims.

#[local] Arguments seqZ : simpl never.

Section vm_free.
Context (end_ : Z).
Local Abbreviation is_page := (is_page end_).
Local Abbreviation alloc_rep := (alloc_rep end_).
Local Abbreviation pt_ok := (pt_ok end_).
Local Abbreviation as_ok := (as_ok end_).
Local Abbreviation kfree := (kfree end_).

Section level.
Context (below : mem → Z → list Z) (below_wf : mem → Z → Prop).
(** The pages below the entries [idx] of the table [pg]. *)
Definition entry_pages (m : mem) (pg i : Z) : list Z :=
  let pte := rd m (pg + 8 * i) in if valid pte then below m (PTE2PA pte) else [].
Definition entries_pages (m : mem) (pg : Z) (idx : list Z) : list Z := idx ≫= entry_pages m pg.
Definition entry_wf (m : mem) (pg i : Z) : Prop :=
  let pte := rd m (pg + 8 * i) in valid pte = true → Z.land pte RWX = 0 ∧ below_wf m (PTE2PA pte).
End level.

Fixpoint tree_pages (l : nat) (m : mem) (pg : Z) : list Z :=
  match l with O => [] | S l => entries_pages (tree_pages l) m pg (seqZ 0 512) ++ [pg] end.
Fixpoint tree_wf (l : nat) (m : mem) (pg : Z) : Prop :=
  match l with
  | O => False
  | S l => is_page m pg ∧ ∀ i, 0 ≤ i < 512 → entry_wf (tree_wf l) m pg i
  end.

(** A subtree only depends on its own pages. *)
Lemma tree_frame l m m' pg :
  tree_wf l m pg → same_some m m' → (∀ p x, p ∈ tree_pages l m pg → in_page p x → m' !! x = m !! x) →
  tree_pages l m' pg = tree_pages l m pg ∧ tree_wf l m' pg.
Proof.
  revert pg. induction l as [|l IH]; intros pg Hwf Hs Hf; [done|]. destruct Hwf as [Hp Hwf].
  assert (Hrd : ∀ i, 0 ≤ i < 512 → rd m' (pg + 8 * i) = rd m (pg + 8 * i)).
  { intros i Hi. apply rd_frame. intros x Hx. apply (Hf pg); [|by eapply slot_in_page].
    cbn [tree_pages]. apply elem_of_app. right. by apply list_elem_of_singleton. }
  assert (Hent : ∀ i, 0 ≤ i < 512 → entry_pages (tree_pages l) m' pg i = entry_pages (tree_pages l) m pg i ∧
    entry_wf (tree_wf l) m' pg i).
  { intros i Hi. unfold entry_pages, entry_wf. rewrite Hrd by done. specialize (Hwf i Hi). unfold entry_wf in Hwf.
    destruct (valid (rd m (pg + 8 * i))) eqn:Hv; [|done]. destruct Hwf as [Hx Hwf]; [done|].
    destruct (IH _ Hwf Hs) as [E W]; [|by rewrite E].
    intros p x Hpp. apply Hf. cbn [tree_pages]. apply elem_of_app. left. unfold entries_pages. apply list_elem_of_bind.
    exists i. split; [|by apply elem_of_seqZ]. unfold entry_pages. by rewrite Hv. }
  split.
  - cbn [tree_pages]. f_equal. apply bind_ext_elem. intros i Hi%elem_of_seqZ. by apply Hent.
  - split; [by eapply is_page_frame|]. intros i Hi. by apply Hent.
Qed.

(** One subtree freed: its pages, the last one first, and nothing else touched. *)
Definition freed (s : kmem) (ps free : list Z) (s' : kmem) : Prop :=
  alloc_rep s' (reverse ps ++ free) ∧ same_some (phys s) (phys s') ∧
  ∀ x, (∀ p, p ∈ ps → ¬ in_page p x) → phys s' !! x = phys s !! x.

Section walk.
Context (l : nat) (rec : Z → M kmem unit).
Context (Hrec : ∀ s pg free, tree_wf l (phys s) pg → Forall (is_page (phys s)) (tree_pages l (phys s) pg) →
  NoDup (tree_pages l (phys s) pg ++ free) → alloc_rep s free →
  ∃ s', rec pg s = Ok (tt, s') ∧ freed s (tree_pages l (phys s) pg) free s').

Lemma freewalk_loop_ok idx s pg free :
  let ps := entries_pages (tree_pages l) (phys s) pg idx in
  is_page (phys s) pg → NoDup idx → (∀ i, i ∈ idx → 0 ≤ i < 512 ∧ entry_wf (tree_wf l) (phys s) pg i) →
  Forall (is_page (phys s)) ps → NoDup (pg :: ps ++ free) → alloc_rep s free →
  ∃ s', freewalk_loop rec pg idx s = Ok (tt, s') ∧ alloc_rep s' (reverse ps ++ free) ∧
    same_some (phys s) (phys s') ∧ ∀ x, (∀ p, p ∈ pg :: ps → ¬ in_page p x) → phys s' !! x = phys s !! x.
Proof.
  revert s free. induction idx as [|i idx IH]; intros s free ps Hp Hni Hwf Hps Hnd Hr.
  { exists s. split; [done|]. split; [done|]. split; [apply same_some_refl|done]. }
  apply NoDup_cons in Hni as [Hi Hni]. destruct (Hwf i ltac:(set_solver)) as [Hir Hiw].
  cbn [freewalk_loop]. rewrite (bind_Ok_eq _ _ _ _ _ (ptload_ok s _ (slot_mapped _ _ _ _ Hp Hir))).
  change (Z.lor (Z.lor PTE_R PTE_W) PTE_X) with RWX. unfold ps in *. unfold entries_pages in *. cbn [mbind list_bind] in *.
  unfold entry_pages at 1 in Hps. unfold entry_pages at 1 in Hnd. unfold entry_pages at 1 3. unfold entry_wf in Hiw.
  set (pte := rd (phys s) (pg + 8 * i)) in *. destruct (valid pte) eqn:Hv.
  2:{ cbn [andb]. rewrite (bind_Ok_eq _ _ s tt s) by done. apply IH; try done. intros j Hj. apply Hwf. set_solver. }
  destruct (Hiw eq_refl) as [Hrwx Hsub]. rewrite bool_decide_true by done. cbn [andb].
  set (sub := tree_pages l (phys s) (PTE2PA pte)) in *.
  set (rest := idx ≫= entry_pages (tree_pages l) (phys s) pg) in *.
  apply Forall_app in Hps as [Hps1 Hps2].
  assert (Hpg : pg ∉ sub ∧ pg ∉ rest ∧ pg ∉ free) by (apply NoDup_cons in Hnd as [? _]; set_solver).
  assert (Hnd2 : NoDup (sub ++ rest ++ free)) by (apply NoDup_cons in Hnd as [_ ?]; by rewrite app_assoc).
  assert (Hsr : ∀ p, p ∈ sub → p ∉ rest) by (apply NoDup_app in Hnd2 as (_ & H & _); set_solver).
  assert (Hsf : NoDup (sub ++ free)).
  { apply NoDup_app in Hnd2 as (H1 & H2 & H3). apply NoDup_app in H3 as (_ & _ & H3).
    apply NoDup_app. split; [done|]. split; [|done]. intros p Hp1 Hp2. apply (H2 p Hp1). set_solver. }
  destruct (Hrec s (PTE2PA pte) free Hsub Hps1 Hsf Hr) as (s1 & E1 & Hr1 & Hs1 & Hf1).
  assert (Hp1 : is_page (phys s1) pg) by (by eapply is_page_frame).
  destruct (ptstore_ok s1 (pg + 8 * i) 0) as (m2 & E2 & Hn2 & Hs2 & Hf2); [by eapply slot_mapped|lia|].
  erewrite bind_Ok_eq by (rewrite (bind_Ok_eq _ _ _ _ _ E1); exact E2).
  assert (Hss : same_some (phys s) m2) by (by eapply same_some_trans).
  assert (Hrest : ∀ p x, p ∈ rest → in_page p x → m2 !! x = phys s !! x).
  { rewrite Forall_forall in Hps1, Hps2. intros p x Hpr Hx. rewrite Hf2, Hf1; [done| |].
    - intros q Hq Hy. assert (q = p) as -> by (eapply (page_disj end_ (phys s)); eauto). by eapply Hsr.
    - intros Hy. assert (p = pg) as ->; [|tauto].
      eapply (page_disj end_ (phys s)); [by apply Hps2|done|done|by eapply slot_in_page]. }
  assert (Hslot : ∀ j, j ∈ idx → rd m2 (pg + 8 * j) = rd (phys s) (pg + 8 * j)).
  { intros j Hj. destruct (Hwf j ltac:(set_solver)) as [Hjr _]. apply rd_frame. intros x Hx. rewrite Hf2, Hf1; [done| |].
    - rewrite Forall_forall in Hps1. intros q Hq Hy. assert (q = pg) as ->; [|tauto].
      eapply (page_disj end_ (phys s)); [by apply Hps1|done|done|by eapply slot_in_page].
    - eapply (slot_disj end_ (phys s) pg j pg i); try done. intros [= ->]. done. }
  assert (Hent : ∀ j, j ∈ idx → entry_pages (tree_pages l) m2 pg j = entry_pages (tree_pages l) (phys s) pg j ∧
    entry_wf (tree_wf l) m2 pg j).
  { intros j Hj. destruct (Hwf j ltac:(set_solver)) as [Hjr Hjw]. unfold entry_pages, entry_wf in *.
    rewrite Hslot by done. destruct (valid (rd (phys s) (pg + 8 * j))) eqn:Hvj; [|done]. destruct (Hjw eq_refl) as [Hx Hw].
    destruct (tree_frame l (phys s) m2 _ Hw Hss) as [E W]; [|by rewrite E].
    intros p x Hpp. apply Hrest. unfold rest. apply list_elem_of_bind. exists j. split; [|done].
    unfold entry_pages. by rewrite Hvj. }
  assert (Heq : idx ≫= entry_pages (tree_pages l) m2 pg = rest).
  { apply bind_ext_elem. intros j Hj. by apply Hent. }
  destruct (IH (set_phys m2 s1) (reverse sub ++ free)) as (s' & E & H1 & H2 & H3).
  { by eapply is_page_frame. }
  { done. }
  { intros j Hj. split; [apply Hwf; set_solver|by apply Hent]. }
  { unfold entries_pages. simpl. rewrite Heq. eapply Forall_impl; [exact Hps2|]. intros p Hpp. by eapply is_page_frame. }
  { unfold entries_pages. simpl. rewrite Heq. apply NoDup_cons. split; [set_solver by (rewrite ?elem_of_app, ?elem_of_reverse; tauto)|].
    rewrite (reverse_Permutation sub), (app_assoc rest), (Permutation_app_comm rest sub), <- app_assoc. done. }
  { apply alloc_frame; [done| |done]. intros p x Hpf Hx. simpl. apply Hf2. intros Hy.
    apply elem_of_app in Hpf. assert (Hpp : is_page (phys s1) p) by (eapply alloc_page; [exact Hr1|by apply elem_of_app]).
    assert (p = pg) as ->; [eapply (page_disj end_ (phys s1)); [done|done|done|by eapply slot_in_page]|].
    rewrite elem_of_reverse in Hpf. tauto. }
  unfold entries_pages in *. simpl in *. rewrite Heq in *. exists s'. split; [done|]. split; [|split].
  - rewrite reverse_app, <- app_assoc. done.
  - by eapply same_some_trans.
  - intros x Hx. rewrite H3; [|intros p Hpp; apply Hx; set_solver]. rewrite Hf2, Hf1; [done| |].
    + intros p Hpp. apply Hx. set_solver.
    + intros Hy. apply (Hx pg); [set_solver|by eapply slot_in_page].
Qed.
End walk.

Lemma freewalk_ok l s pg free :
  tree_wf l (phys s) pg → Forall (is_page (phys s)) (tree_pages l (phys s) pg) →
  NoDup (tree_pages l (phys s) pg ++ free) → alloc_rep s free →
  ∃ s', freewalk end_ l pg s = Ok (tt, s') ∧ freed s (tree_pages l (phys s) pg) free s'.
Proof.
  revert s pg free. induction l as [|l IH]; intros s pg free Hwf Hps Hnd Hr; [done|]. destruct Hwf as [Hp Hwf].
  cbn [freewalk tree_pages] in *. set (ps := entries_pages (tree_pages l) (phys s) pg (seqZ 0 512)) in *.
  apply Forall_app in Hps as [Hps _]. rewrite <- app_assoc in Hnd.
  assert (Hnd2 : NoDup (pg :: ps ++ free)) by (rewrite Permutation_middle; done).
  destruct (freewalk_loop_ok l (freewalk end_ l) IH (seqZ 0 512) s pg free) as (s1 & E1 & H1 & H2 & H3); try done.
  { apply NoDup_seqZ. }
  { intros i Hi%elem_of_seqZ. split; [lia|]. apply Hwf. lia. }
  rewrite (bind_Ok_eq _ _ _ _ _ E1).
  assert (Hpn : pg ∉ reverse ps ++ free).
  { apply NoDup_cons in Hnd2 as [Hn _]. rewrite elem_of_app in *. by rewrite elem_of_reverse. }
  destruct (kfree_ok end_ pg s1 (reverse ps ++ free) H1) as (s' & E & Hr' & [Ho Hs]); [by eapply is_page_frame|done|].
  exists s'. split; [done|]. split; [|split].
  - rewrite reverse_snoc. done.
  - by eapply same_some_trans.
  - intros x Hx. rewrite Ho; [|].
    + apply H3. intros p Hpp. apply Hx. apply elem_of_app.
      apply elem_of_cons in Hpp as [->|?]; [right; by apply list_elem_of_singleton|by left].
    + assert (¬ in_page pg x) by (apply Hx, elem_of_app; right; by apply list_elem_of_singleton). unfold in_page in *. lia.
Qed.

(** ** The tree of a well-formed page table *)

Lemma elem_of_tree l m pg p :
  p ∈ tree_pages (S l) m pg ↔
  ∃ ρ, (length ρ ≤ l)%nat ∧ Forall (λ i, 0 ≤ i < 512) ρ ∧ tpage m pg ρ = Some p.
Proof.
  revert pg. induction l as [|l IH]; intros pg.
  - change (tree_pages 1 m pg) with (entries_pages (tree_pages 0) m pg (seqZ 0 512) ++ [pg]).
    rewrite elem_of_app, list_elem_of_singleton. unfold entries_pages. rewrite list_elem_of_bind. split.
    + intros [(i & Hp & _)| ->]; [|by exists []].
      unfold entry_pages in Hp. simpl in Hp. by destruct (valid _); apply elem_of_nil in Hp.
    + intros (ρ & Hl & _ & Ht). right. destruct ρ; [by injection Ht|simpl in Hl; lia].
  - change (tree_pages (S (S l)) m pg) with (entries_pages (tree_pages (S l)) m pg (seqZ 0 512) ++ [pg]).
    rewrite elem_of_app, list_elem_of_singleton. unfold entries_pages. rewrite list_elem_of_bind. split.
    + intros [(i & Hp & Hi%elem_of_seqZ)| ->]; [|exists []; split_and!; [simpl; lia|constructor|done]].
      unfold entry_pages in Hp. cbv zeta in Hp. destruct (valid (rd m (pg + 8 * i))) eqn:Hv; [|by apply elem_of_nil in Hp].
      apply IH in Hp as (ρ & Hl & Hf & Ht). exists (i :: ρ). split; [simpl; lia|]. split; [by constructor|].
      simpl. by rewrite Hv.
    + intros (ρ & Hl & Hf & Ht). destruct ρ as [|i ρ]; [right; by injection Ht|left].
      apply Forall_cons in Hf as [Hi Hf]. simpl in Ht, Hl. destruct (valid (rd m (pg + 8 * i))) eqn:Hv; [|done].
      exists i. split; [|apply elem_of_seqZ; lia]. unfold entry_pages. rewrite Hv. apply IH. exists ρ. split_and!; try done. lia.
Qed.

Lemma tree_nodup l m pg :
  (∀ ρ1 ρ2 p, (length ρ1 ≤ l)%nat → (length ρ2 ≤ l)%nat → Forall (λ i, 0 ≤ i < 512) ρ1 → Forall (λ i, 0 ≤ i < 512) ρ2 →
     tpage m pg ρ1 = Some p → tpage m pg ρ2 = Some p → ρ1 = ρ2) →
  NoDup (tree_pages (S l) m pg).
Proof.
  revert pg. induction l as [|l IH]; intros pg Hinj.
  - change (tree_pages 1 m pg) with (entries_pages (tree_pages 0) m pg (seqZ 0 512) ++ [pg]).
    replace (entries_pages (tree_pages 0) m pg (seqZ 0 512)) with (@nil Z); [apply NoDup_singleton|].
    unfold entries_pages. rewrite (bind_ext_elem _ (λ _, [])).
    + clear. induction (seqZ 0 512); [done|simpl; done].
    + intros i _. unfold entry_pages. simpl. by destruct (valid _).
  - change (tree_pages (S (S l)) m pg) with (entries_pages (tree_pages (S l)) m pg (seqZ 0 512) ++ [pg]).
    assert (Hin : ∀ i p, p ∈ entry_pages (tree_pages (S l)) m pg i → 0 ≤ i < 512 →
      ∃ ρ, (length (i :: ρ) ≤ S l)%nat ∧ Forall (λ i, 0 ≤ i < 512) (i :: ρ) ∧ tpage m pg (i :: ρ) = Some p).
    { intros i p Hp Hi. unfold entry_pages in Hp. cbv zeta in Hp.
      destruct (valid (rd m (pg + 8 * i))) eqn:Hv; [|by apply elem_of_nil in Hp].
      apply elem_of_tree in Hp as (ρ & Hl & Hf & Ht). exists ρ. split; [simpl; lia|]. split; [by constructor|].
      simpl. by rewrite Hv. }
    apply NoDup_app. split; [|split; [|apply NoDup_singleton]].
    + apply NoDup_bind.
      * intros i1 i2 p Hi1%elem_of_seqZ Hi2%elem_of_seqZ H1 H2.
        destruct (Hin i1 p H1) as (ρ1 & A1 & A2 & A3); [lia|]. destruct (Hin i2 p H2) as (ρ2 & B1 & B2 & B3); [lia|].
        by injection (Hinj _ _ _ A1 B1 A2 B2 A3 B3).
      * intros i Hi%elem_of_seqZ. unfold entry_pages. cbv zeta.
        destruct (valid (rd m (pg + 8 * i))) eqn:Hv; [|constructor]. apply IH.
        intros ρ1 ρ2 p L1 L2 F1 F2 T1 T2. cut (i :: ρ1 = i :: ρ2); [by intros [=]|].
        apply (Hinj (i :: ρ1) (i :: ρ2) p); simpl; try lia; try (constructor; [lia|done]); by rewrite Hv.
      * apply NoDup_seqZ.
    + intros p Hp ->%list_elem_of_singleton. unfold entries_pages in Hp.
      apply list_elem_of_bind in Hp as (i & Hp & Hi%elem_of_seqZ). destruct (Hin i pg Hp) as (ρ & A1 & A2 & A3); [lia|].
      discriminate (Hinj (i :: ρ) [] pg A1 ltac:(simpl; lia) A2 ltac:(constructor) A3 eq_refl).
Qed.

Lemma tree_wf_of m root avail :
  pt_ok m root avail →
  (∀ ρ q i, length ρ = 2%nat → vpath ρ → tpage m root ρ = Some q → 0 ≤ i < 512 → valid (rd m (q + 8 * i)) = false) →
  tree_wf 3 m root.
Proof.
  intros Hok Hleaf. assert (H : ∀ k ρ pg, (length ρ + k = 2)%nat → vpath ρ → tpage m root ρ = Some pg → tree_wf (S k) m pg).
  - induction k as [|k IH]; intros ρ pg Hl Hv Ht.
    + split; [eapply pt_page; eauto|]. intros i Hi. unfold entry_wf. rewrite (Hleaf ρ); try done. lia.
    + split; [eapply pt_page; eauto|]. intros i Hi Hval.
      assert (Hv2 : vpath (ρ ++ [i])) by (apply vpath_snoc; split_and!; done || lia).
      split; [by eapply pt_inner|]. apply (IH (ρ ++ [i])); [rewrite length_app; simpl; lia|done|].
      rewrite tpage_app, Ht. simpl. by rewrite Hval.
  - apply (H 2%nat [] root); [done|apply vpath_nil|done].
Qed.

(** The virtual page of three indices. *)
Lemma va_of_indices i2 i1 i0 : 0 ≤ i2 < 256 → 0 ≤ i1 < 512 → 0 ≤ i0 < 512 →
  ∃ va, va_ok va ∧ vpath_of va = [i2; i1] ∧ PX 0 va = i0.
Proof.
  intros H2 H1 H0. exists (((i2 * 512 + i1) * 512 + i0) * PGSIZE). unfold vpath_of. rewrite !PX_div by lia.
  assert (E0 : ((i2 * 512 + i1) * 512 + i0) * PGSIZE / 2 ^ (12 + 9 * 0) = (i2 * 512 + i1) * 512 + i0).
  { change (2 ^ (12 + 9 * 0)) with PGSIZE. by apply Z.div_mul. }
  change (2 ^ (12 + 9 * 2)) with (2 ^ (12 + 9 * 0) * 512 * 512). change (2 ^ (12 + 9 * 1)) with (2 ^ (12 + 9 * 0) * 512).
  rewrite <- !Z.div_div, E0 by lia.
  assert (E1 : ((i2 * 512 + i1) * 512 + i0) / 512 = i2 * 512 + i1).
  { rewrite Z.add_comm, Z.div_add, (Z.div_small i0) by lia. lia. }
  assert (E2 : (i2 * 512 + i1) / 512 = i2) by (rewrite Z.add_comm, Z.div_add, (Z.div_small i1) by lia; lia).
  rewrite E1, E2. split; [|split].
  - split; [change MAXVA with (67108864 * PGSIZE); unfold PGSIZE; lia|by apply Z.mod_mul].
  - f_equal; [apply Z.mod_small; lia|]. f_equal. rewrite Z.add_comm, Z.mod_add by lia. apply Z.mod_small. lia.
  - rewrite Z.add_comm, Z.mod_add by lia. by apply Z.mod_small.
Qed.

(** C19 [uvmfree] gives everything back.  When the user pages below [sz] are the
    only ones mapped, it returns without panic, and exactly the pages that were
    free, the user pages and the pages of the page table itself are free
    afterwards, each once; memory outside those pages is untouched. *)
Theorem uvmfree_no_leak s root free sz :
  as_ok s root free → 0 ≤ sz ≤ TRAPFRAME →
  (∀ v, uva v → v < sz → valid (pte_at (phys s) root v) = true) →
  (∀ v, va_ok v → PGROUNDUP sz ≤ v → valid (pte_at (phys s) root v) = false) →
  (∀ i, 256 ≤ i < 512 → valid (rd (phys s) (root + 8 * i)) = false) →
  ∃ s' free', uvmfree end_ root sz s = Ok (tt, s') ∧ alloc_rep s' free' ∧ NoDup free' ∧
    (∀ p, p ∈ free' ↔ p ∈ free ∨ is_table (phys s) root p ∨ ∃ v, uva v ∧ v < sz ∧ upage (phys s) root v = p) ∧
    same_some (phys s) (phys s') ∧
    ∀ x, (∀ p, p ∈ free' → ¬ in_page p x) → phys s' !! x = phys s !! x.
Proof.
  intros Has Hsz Hm Hnone Htop. pose proof TRAPFRAME_val as HT.
  destruct (PGROUNDUP_spec sz) as [Hrm Hr]; [unfold PGSIZE; lia|].
  set (n := PGROUNDUP sz / PGSIZE). assert (Hn : PGROUNDUP sz = 0 + n * PGSIZE).
  { unfold n, PGSIZE in *. pose proof (Z.div_mod (PGROUNDUP sz) 4096). lia. }
  assert (Hn0 : 0 ≤ n) by (apply Z.div_pos; [lia|done]).
  assert (Hle : 0 + n * PGSIZE ≤ TRAPFRAME).
  { rewrite <- Hn. rewrite HT in *. change 274877898752 with (67108862 * PGSIZE) in *. unfold PGSIZE in *. lia. }
  assert (Hlt : ∀ v, uva v → 0 ≤ v < 0 + n * PGSIZE ↔ v < sz).
  { intros v [Hv Hvm]. rewrite <- Hn. split; [|lia]. intros Hb. destruct (decide (v < sz)); [done|]. exfalso.
    assert (v = PGROUNDUP sz); [|lia]. destruct (decide (v + PGSIZE ≤ PGROUNDUP sz)); [lia|].
    apply (page_unique _ _ (PGROUNDUP sz)); try done; unfold PGSIZE in *; lia. }
  set (ps := upages (phys s) root 0 (Z.to_nat n)).
  assert (H1 : ∃ s1, (if bool_decide (sz > 0) then uvmunmap end_ root 0 (PGROUNDUP sz / PGSIZE) true else mret tt) s = Ok (tt, s1) ∧
    as_ok s1 root (reverse ps ++ free) ∧ kept root ps (phys s) (phys s1) ∧
    ∀ va, va_ok va → valid (pte_at (phys s1) root va) = false).
  { destruct (uvmunmap_ok end_ s root free 0 n Has) as (s1 & E & A & B & C); try done; try lia.
    { intros v Hu Hv. apply Hm; [done|]. by apply Hlt. }
    case_bool_decide as Hpos.
    - exists s1. split; [done|]. split; [done|]. split; [done|]. intros va Hva. rewrite C by done. rewrite <- Hn.
      case_decide; [done|]. apply Hnone; [done|]. destruct Hva as [Hva _]. lia.
    - exists s. assert (n = 0) as Hn1.
      { unfold PGSIZE in *. lia. }
      unfold ps in *. rewrite Hn1 in *. simpl. split; [done|]. split; [done|]. split.
      { split; [apply same_some_refl|done|done]. }
      intros va Hva. apply Hnone; [done|]. destruct Hva. lia. }
  destruct H1 as (s1 & E1 & Has1 & Hk & Hinv). destruct (as_vm _ _ _ _ Has1) as [Hal1 Hpt1].
  assert (Hwf : tree_wf 3 (phys s1) root).
  { eapply tree_wf_of; [done|]. intros ρ q i Hl Hv Ht Hi. destruct ρ as [|i2 [|i1 [|]]]; try done.
    destruct Hv as [_ Hf]. apply Forall_cons in Hf as [Hi2 Hf]. apply Forall_cons in Hf as [Hi1 _].
    assert (Hi2' : i2 < 256).
    { destruct (decide (i2 < 256)); [done|]. exfalso.
      assert (Hv1 : vpath [i2]) by (split; [simpl; lia|by constructor]).
      pose proof (k_tabs _ _ _ _ Hk [i2] Hv1) as Hk1. simpl in Hk1, Ht. rewrite (Htop i2) in Hk1 by lia.
      destruct (valid (rd (phys s1) (root + 8 * i2))); done. }
    destruct (va_of_indices i2 i1 i) as (va & Hva & Hp & Hx); try done; try lia.
    specialize (Hinv va Hva). unfold pte_at in Hinv. by rewrite Hp, Ht, Hx in Hinv. }
  assert (Hmem : ∀ p, p ∈ tree_pages 3 (phys s1) root ↔ is_table (phys s1) root p).
  { intros p. rewrite elem_of_tree. unfold is_table, vpath. split; intros (ρ & ?); exists ρ; tauto. }
  assert (Hpage : Forall (is_page (phys s1)) (tree_pages 3 (phys s1) root)).
  { apply Forall_forall. intros p (ρ & Hv & Hp)%Hmem. eapply pt_page; eauto. }
  destruct (freewalk_ok 3 s1 root (reverse ps ++ free) Hwf Hpage) as (s' & E2 & Hal' & Hs' & Hf'); [|done|].
  { apply NoDup_app. split; [|split; [|apply (ar_nodup _ _ _ Hal1)]].
    - apply tree_nodup. intros ρ1 ρ2 p L1 L2 F1 F2. by apply (pt_inj _ _ _ _ Hpt1).
    - intros p (ρ & Hv & Hp)%Hmem. by destruct (pt_page _ _ _ _ Hpt1 _ _ Hv Hp). }
  exists s', (reverse (tree_pages 3 (phys s1) root) ++ reverse ps ++ free).
  assert (Hps : ∀ p, p ∈ ps ↔ ∃ v, uva v ∧ v < sz ∧ upage (phys s) root v = p).
  { intros p. unfold ps. rewrite elem_of_upages. split.
    - intros (j & Hj & ->). exists (0 + Z.of_nat j * PGSIZE).
      assert (Hu : uva (0 + Z.of_nat j * PGSIZE)) by (split; [unfold PGSIZE in *; lia|by apply page_add]).
      split; [done|]. split; [|done]. apply Hlt; [done|]. unfold PGSIZE in *. lia.
    - intros (v & Hu & Hv & <-). pose proof (proj2 (Hlt v Hu) Hv) as Hb. destruct Hu as [Hu1 Hu2].
      exists (Z.to_nat (v / PGSIZE)). unfold PGSIZE in *. pose proof (Z.div_mod v 4096). split; [lia|]. f_equal. lia. }
  split; [|split; [done|split; [|split; [|split]]]].
  - unfold uvmfree. by rewrite (bind_Ok_eq _ _ _ _ _ E1).
  - apply (ar_nodup _ _ _ Hal').
  - intros p. rewrite !elem_of_app, !elem_of_reverse, Hmem, (kept_table _ _ _ _ _ Hk), Hps. tauto.
  - eapply same_some_trans; [apply Hk|done].
  - intros x Hx. rewrite Hf'.
    + apply (k_frame _ _ _ _ Hk). intros p Hp. apply Hx. rewrite !elem_of_app, !elem_of_reverse, Hmem, (kept_table _ _ _ _ _ Hk). tauto.
    + intros p Hp. apply Hx. rewrite !elem_of_app, !elem_of_reverse. tauto.
Qed.
End vm_free.
