(* ===== verification/VmDemo.v ===== *)
(** * [uvmcreate], and concrete address spaces

    The empty page table is well formed; the states below are built from it by
    running the code, and the theorems on user memory are applied to them. *)
From S2P Require Import Prelude Layout Spinlock CString Kalloc Vm VmMap VmSpace VmUser VmClaims VmCopy VmIO VmFree.

Section create.
Context (end_ : Z).
Local Abbreviation alloc_rep := (alloc_rep end_).
Local Abbreviation as_ok := (as_ok end_).

(** [uvmcreate]: a page table that maps nothing, or 0. *)
Lemma uvmcreate_ok s pg free :
  alloc_rep s (pg :: free) →
  ∃ s', uvmcreate s = Ok (pg, s') ∧ as_ok s' pg free ∧ (∀ p, is_table (phys s') pg p ↔ p = pg) ∧
    (∀ i, 0 ≤ i < 512 → rd (phys s') (pg + 8 * i) = 0) ∧ (∀ va, pte_at (phys s') pg va = 0) ∧
    same_some (phys s) (phys s') ∧ (∀ x, ¬ in_page pg x → phys s' !! x = phys s !! x).
Proof.
  intros Hr. destruct (fresh_page end_ s pg free 0 Hr) as (s1 & m2 & E1 & E2 & Hr2 & Hs2 & Ho2 & Hz2).
  pose proof (alloc_page end_ _ pg _ Hr ltac:(set_solver)) as Hpg.
  pose proof (ar_nodup _ _ _ Hr) as [Hn _]%NoDup_cons.
  assert (Hrd : ∀ i, 0 ≤ i < 512 → rd m2 (pg + 8 * i) = 0).
  { intros i Hi. apply rd_zero. intros x Hx. apply Hz2. by eapply (slot_in_page end_). }
  assert (Ht : ∀ ρ p, vpath ρ → tpage m2 pg ρ = Some p → ρ = [] ∧ p = pg).
  { intros [|i ρ] p Hv Hp; [by injection Hp as ->|]. simpl in Hp. destruct Hv as [_ [Hi _]%Forall_cons].
    by rewrite Hrd, valid_0 in Hp. }
  assert (Hpte : ∀ va, pte_at m2 pg va = 0).
  { intros va. unfold pte_at. destruct (tpage m2 pg (vpath_of va)) as [p|] eqn:E; [|done].
    by destruct (Ht _ _ (vpath_of_vpath va) E). }
  assert (Hpg2 : is_page end_ m2 pg) by (by eapply is_page_frame).
  exists (set_phys m2 s1). split; [|split; [|split; [|split; [|split; [|split]]]]]; try done.
  - unfold uvmcreate. rewrite (bind_Ok_eq _ _ _ _ _ E1). rewrite bool_decide_false by (by eapply page_ne_0).
    by rewrite (bind_Ok_eq _ _ _ _ _ E2).
  - split.
    + split; [done|]. split; simpl.
      * intros ρ p Hv Hp. by destruct (Ht ρ p Hv Hp) as [_ ->].
      * intros ρ1 ρ2 p Hv1 Hv2 H1 H2. by destruct (Ht _ _ Hv1 H1) as [-> _], (Ht _ _ Hv2 H2) as [-> _].
      * intros ρ p i Hv Hp Hval. apply vpath_snoc in Hv as (Hv & _ & Hi). destruct (Ht ρ p Hv Hp) as [_ ->].
        by rewrite Hrd in Hval.
    + intros va _. simpl. by rewrite Hpte.
    + intros va va' _ _. simpl. by rewrite Hpte.
  - intros p. split; [intros (ρ & Hv & Hp); by destruct (Ht ρ p Hv Hp)|]. intros ->. exists []. split; [apply vpath_nil|done].
Qed.

(** Another address space does not notice. *)
Lemma uvmcreate_other s pg free root :
  as_ok s root (pg :: free) →
  ∃ s', uvmcreate s = Ok (pg, s') ∧ as_ok s' root free ∧ (∀ va, pte_at (phys s') root va = pte_at (phys s) root va) ∧
    (∀ p, is_table (phys s') root p ↔ is_table (phys s) root p) ∧ ¬ is_table (phys s) root pg.
Proof.
  intros Has. destruct (fresh_page end_ s pg free 0 (vm_alloc _ _ _ _ (as_vm _ _ _ _ Has)))
    as (s1 & m2 & E1 & E2 & Hr2 & Hs2 & Ho2 & Hz2).
  destruct (fresh_is_page end_ s root pg free Has) as (Hpg & Hnt & Hnf).
  exists (set_phys m2 s1). split; [|split; [|split; [|split]]]; try done.
  - unfold uvmcreate. rewrite (bind_Ok_eq _ _ _ _ _ E1). rewrite bool_decide_false by (by eapply page_ne_0).
    by rewrite (bind_Ok_eq _ _ _ _ _ E2).
  - eapply as_ok_same; [exact Has|by eapply fresh_vm|by eapply fresh_vstep|set_solver|].
    intros v _. by eapply fresh_pte.
  - intros va. by eapply fresh_pte.
  - intros p. by eapply fresh_table.
Qed.

(** When nothing is mapped from the trap frame on for the user. *)
Lemma as_user s root free :
  as_ok s root free → (∀ v, va_ok v → TRAPFRAME ≤ v → user_pte (pte_at (phys s) root v) = false) →
  user_ok end_ (phys s) root free.
Proof.
  intros Has Hhi.
  assert (Hu : ∀ v, va_ok v → user_pte (pte_at (phys s) root v) = true → uva v ∧ valid (pte_at (phys s) root v) = true).
  { intros v Hv H. pose proof (andb_prop _ _ H) as [Hval _]. split; [|done]. destruct Hv as [Hv Hm]. split; [|done].
    destruct (decide (v < TRAPFRAME)); [lia|]. rewrite Hhi in H; [done|done|lia]. }
  split; [apply Has| |].
  - intros p (v & Hv & H & <-). destruct (Hu v Hv H) as [Hv' Hval].
    by destruct (as_leaf _ _ _ _ Has v Hv' Hval) as (_ & ? & _ & ?).
  - intros v v' Hv Hv' H H'. destruct (Hu v Hv H) as [Hw Hval], (Hu v' Hv' H') as [Hw' Hval']. by apply (as_inj _ _ _ _ Has).
Qed.
End create.

(** ** A machine of eight pages and a kernel buffer *)

Definition vm_end : Z := PHYSTOP - 8 * PGSIZE.
Definition vm_buf : Z := 1000.
Definition vm_ram : mem := zeros vm_buf 64 ∪ zeros vm_end (Z.to_nat (8 * PGSIZE)).
Definition vm_boot : kmem := mkkmem (mklock "" 0 None) 0 vm_ram (mkhart 0 true 0 false).

(** Run some code from a state; a state with nothing in it when it fails. *)
Definition after_run {A} (m : M kmem A) (s : kmem) : kmem :=
  match m s with Ok (_, s') => s' | _ => mkkmem (mklock "" 0 None) 0 ∅ (mkhart 0 true 0 false) end.
Definition result_of {A} (r : res (A * kmem)) : option A :=
  match r with Ok (a, _) => Some a | _ => None end.

Definition vm_s0 : kmem := after_run (kinit vm_end) vm_boot.
Definition vm_root : Z := vm_end + 7 * PGSIZE.
Definition vm_child : Z := vm_end + 3 * PGSIZE.
(** A process of one page. *)
Definition vm_s1 : kmem := after_run uvmcreate vm_s0.
Definition vm_s2 : kmem := after_run (uvmalloc vm_end vm_root 0 PGSIZE) vm_s1.
Definition vm_s3 : kmem := after_run uvmcreate vm_s2.

Lemma mapped_union_r (m1 m2 : mem) a n : mapped m2 a n → mapped (m1 ∪ m2) a n.
Proof. intros H i Hi. apply lookup_union_is_Some. right. by apply H. Qed.
Lemma vm_ram_pages : mapped vm_ram vm_end (8 * PGSIZE).
Proof. apply mapped_union_r, zeros_mapped_Z. unfold PGSIZE. lia. Qed.
#[global] Opaque vm_ram.

Definition vm_rest : list Z := (λ k, vm_end + k * PGSIZE) <$> [6; 5; 4; 3; 2; 1; 0].
Lemma vm_roundup : PGROUNDUP vm_end = vm_end. Proof. reflexivity. Qed.
Lemma vm_rounds : S (Z.to_nat ((PHYSTOP - vm_end) / PGSIZE)) = 9%nat. Proof. reflexivity. Qed.
Lemma vm_pages : pages_from vm_end 8 [] = vm_root :: vm_rest. Proof. reflexivity. Qed.

Lemma vm_s0_ok : kinit vm_end vm_boot = Ok (tt, vm_s0) ∧ alloc_rep vm_end vm_s0 (vm_root :: vm_rest).
Proof.
  set (s0 := set_lock tt (initlock "kmem") vm_boot).
  destruct (freerange_ok vm_end 8 9 s0 vm_end PHYSTOP []) as (s' & E & Hr).
  - split; simpl; [reflexivity|constructor|constructor|reflexivity|split; simpl; lia].
  - lia.
  - reflexivity.
  - lia.
  - reflexivity.
  - split; vm_compute; [discriminate|reflexivity].
  - lia.
  - exact vm_ram_pages.
  - intros q Hq. by apply elem_of_nil in Hq.
  - assert (Ek : kinit vm_end vm_boot = Ok (tt, s')).
    { unfold kinit. rewrite (bind_Ok_eq _ _ vm_boot tt s0) by reflexivity. unfold freerange.
      rewrite vm_roundup, vm_rounds. exact E. }
    assert (Es : vm_s0 = s') by (unfold vm_s0, after_run; rewrite Ek; reflexivity).
    rewrite Es. split; [exact Ek|]. rewrite <- vm_pages. exact Hr.
Qed.

(** ** The theorems at these states *)

Lemma vm_s1_ok : as_ok vm_end vm_s1 vm_root vm_rest ∧ (∀ va, pte_at (phys vm_s1) vm_root va = 0) ∧
  uvmcreate vm_s0 = Ok (vm_root, vm_s1).
Proof.
  destruct (uvmcreate_ok vm_end vm_s0 vm_root vm_rest (proj2 vm_s0_ok)) as (s' & E & Has & _ & _ & Hp & _).
  assert (Es : vm_s1 = s') by (unfold vm_s1, after_run; rewrite E; reflexivity). rewrite Es. by split_and!.
Qed.

#[global] Opaque vm_s1.

(** The page and the tables of the process. *)
Lemma vm_grow :
  ∃ r s' f', uvmalloc vm_end vm_root 0 PGSIZE vm_s1 = Ok (r, s') ∧
    (r = PGSIZE ∧ populated vm_end vm_s1 vm_root vm_rest 0 (λ _, UPERM) (λ _ _, Some 0) PGSIZE s' f' ∨
     r = 0 ∧ restored vm_end vm_s1 vm_root vm_rest s' f').
Proof.
  destruct vm_s1_ok as (Has & Hz & _).
  apply (uvmalloc_run vm_end vm_s1 vm_root vm_rest 0 PGSIZE Has); [split; [lia|discriminate]|discriminate|].
  intros v _ _. apply Hz.
Qed.
Lemma vm_grow_result : result_of (uvmalloc vm_end vm_root 0 PGSIZE vm_s1) = Some PGSIZE.
Proof. vm_compute. reflexivity. Qed.

Lemma vm_s2_ok : ∃ f', populated vm_end vm_s1 vm_root vm_rest 0 (λ _, UPERM) (λ _ _, Some 0) PGSIZE vm_s2 f'.
Proof.
  destruct vm_grow as (r & s' & f' & E & Hr).
  assert (Es : vm_s2 = s') by (unfold vm_s2, after_run; rewrite E; reflexivity). rewrite Es.
  pose proof vm_grow_result as Hres. rewrite E in Hres. injection Hres as ->.
  destruct Hr as [[_ Hp]|[H0 _]]; [by exists f'|discriminate H0].
Qed.

#[global] Opaque vm_s2.

Lemma vm_s2_mapped v : uva v → v < PGSIZE → valid (pte_at (phys vm_s2) vm_root v) = true.
Proof.
  intros Hu Hv. destruct vm_s2_ok as [f' Hp].
  destruct (po_in _ _ _ _ _ _ _ _ _ _ Hp v Hu) as (_ & _ & _ & _ & H & _); [|exact H].
  destruct Hu. lia.
Qed.
Lemma vm_s2_unmapped v : va_ok v → PGSIZE ≤ v → pte_at (phys vm_s2) vm_root v = 0.
Proof.
  intros Hv Hb. destruct vm_s2_ok as [f' Hp]. rewrite (po_out _ _ _ _ _ _ _ _ _ _ Hp) by (done || lia).
  apply vm_s1_ok.
Qed.

Lemma uvmalloc_spec_witness :
  ∃ r s' f', uvmalloc vm_end vm_root 0 PGSIZE vm_s1 = Ok (r, s') ∧ r = PGSIZE ∧
    populated vm_end vm_s1 vm_root vm_rest 0 (λ _, UPERM) (λ _ _, Some 0) PGSIZE s' f'.
Proof.
  destruct vm_s1_ok as (Has & Hz & _).
  destruct (uvmalloc_spec vm_end vm_s1 vm_root vm_rest 0 PGSIZE Has) as (r & s' & f' & E & Hr).
  - split; [lia|discriminate].
  - discriminate.
  - intros v _ _. apply Hz.
  - exists r, s', f'. split; [exact E|]. pose proof vm_grow_result as Hres. rewrite E in Hres. injection Hres as ->.
    destruct Hr as [(_ & Hp & _)|[H0 _]]; [split; [reflexivity|]|discriminate H0].
    change (PGROUNDUP 0) with 0 in Hp. change (PGROUNDUP PGSIZE) with PGSIZE in Hp. exact Hp.
Defined.

Lemma vm_copy_hyps :
  ∃ child free s, as_ok vm_end s vm_root free ∧ as_ok vm_end s child free ∧
    (∀ v, uva v → v < PGSIZE → valid (pte_at (phys s) vm_root v) = true) ∧
    (∀ v, pte_at (phys s) child v = 0) ∧
    (∀ p, space_page (phys s) vm_root PGSIZE p → ¬ is_table (phys s) child p).
Proof.
  destruct vm_s2_ok as [f' Hp]. pose proof (po_as _ _ _ _ _ _ _ _ _ _ Hp) as Has.
  destruct f' as [|pg free].
  { exfalso. pose proof (ar_chain _ _ _ (vm_alloc _ _ _ _ (as_vm _ _ _ _ Has))) as Hc. simpl in Hc.
    assert (Hf : freelist vm_s2 = vm_child) by (vm_compute; reflexivity). rewrite Hc in Hf. discriminate Hf. }
  destruct (uvmcreate_ok vm_end vm_s2 pg free (vm_alloc _ _ _ _ (as_vm _ _ _ _ Has))) as (s' & E & Hc & Ht & _ & Hz & _).
  destruct (uvmcreate_other vm_end vm_s2 pg free vm_root Has) as (s'' & E' & Hold & Hpte & Htab & Hnt).
  assert (s'' = s') as -> by congruence. exists pg, free, s'. split; [exact Hold|]. split; [exact Hc|].
  assert (Hm : ∀ v, uva v → v < PGSIZE → valid (pte_at (phys s') vm_root v) = true).
  { intros v Hu Hv. rewrite Hpte. by apply vm_s2_mapped. }
  split; [exact Hm|]. split; [exact Hz|]. intros p Hsp ->%Ht. destruct Hsp as [Hsp|(v & Hu & Hv & Hval & Heq)].
  - exact (Hnt (proj1 (Htab pg) Hsp)).
  - destruct (as_leaf _ _ _ _ Has v Hu (vm_s2_mapped v Hu Hv)) as (_ & _ & Hn & _). apply Hn.
    unfold upage in *. rewrite Hpte in Heq. rewrite Heq. apply elem_of_cons. left. reflexivity.
Qed.

Lemma uvmcopy_spec_witness :
  ∃ child s r s', uvmcopy vm_end vm_root child PGSIZE s = Ok (r, s') ∧
    ∀ p x, space_page (phys s) vm_root PGSIZE p → in_page p x → phys s' !! x = phys s !! x.
Proof.
  destruct vm_copy_hyps as (child & free & s & Hold & Hnew & Hm & Hz & Hap).
  destruct (uvmcopy_spec vm_end s vm_root child free PGSIZE Hold Hnew) as (r & s' & f' & E & _ & H).
  - split; discriminate.
  - exact Hm.
  - intros v _ _. apply Hz.
  - exact Hap.
  - exists child, s, r, s'. split; [exact E|exact H].
Defined.

Lemma vm_s2_top i : 256 ≤ i < 512 → valid (rd (phys vm_s2) (vm_root + 8 * i)) = false.
Proof.
  intros Hi.
  pose proof (forallb_upto (λ k, negb (valid (rd (phys vm_s2) (vm_root + 8 * (256 + k))))) 256
    ltac:(vm_compute; reflexivity) (i - 256) ltac:(lia)) as H. cbv beta in H.
  replace (256 + (i - 256)) with i in H by lia. exact (proj1 (negb_true_iff _) H).
Qed.

Lemma uvmfree_no_leak_witness :
  ∃ s' free', uvmfree vm_end vm_root PGSIZE vm_s2 = Ok (tt, s') ∧ NoDup free' ∧ alloc_rep vm_end s' free'.
Proof.
  destruct vm_s2_ok as [f' Hp].
  destruct (uvmfree_no_leak vm_end vm_s2 vm_root f' PGSIZE (po_as _ _ _ _ _ _ _ _ _ _ Hp)) as (s' & free' & E & Ha & Hn & _).
  - split; discriminate.
  - exact vm_s2_mapped.
  - intros v Hv Hb. change (PGROUNDUP PGSIZE) with PGSIZE in Hb. rewrite vm_s2_unmapped by assumption. reflexivity.
  - exact vm_s2_top.
  - exists s', free'. split; [exact E|]. split; [exact Hn|exact Ha].
Defined.

Lemma vm_s2_user : ∃ f', user_ok vm_end (phys vm_s2) vm_root f'.
Proof.
  destruct vm_s2_ok as [f' Hp]. exists f'. apply as_user; [apply Hp|].
  intros v Hv Hb. rewrite vm_s2_unmapped; [done|done|]. rewrite TRAPFRAME_val in Hb. unfold PGSIZE. lia.
Qed.

(** Addresses below the kernel's end are no page. *)
Lemma vm_buf_ok a n : vm_buf ≤ a → a + n ≤ vm_buf + 64 → kbuf (phys vm_s2) vm_root a n.
Proof.
  intros Ha Hn. destruct vm_s2_user as [f' Hu]. split.
  - eapply mapped_shrink; [|exact Ha|exact Hn].
    set (P := λ k, bool_decide (is_Some (phys vm_s2 !! (vm_buf + k)))).
    assert (H : forallb (λ j, P (Z.of_nat j)) (seq 0 64) = true) by (vm_compute; reflexivity).
    intros i Hi. eapply bool_decide_eq_true. exact (forallb_upto P 64 H i ltac:(lia)).
  - intros x Hx p Hp Hin. assert (Hpg : is_page vm_end (phys vm_s2) p).
    { destruct Hp as [(ρ & Hv & Ht)|Hp]; [eapply pt_page; [apply Hu|done|done]|by apply (uo_page _ _ _ _ Hu)]. }
    destruct Hpg as (_ & He & _ & _). unfold in_page, vm_buf, vm_end, PHYSTOP, KERNBASE, PGSIZE in *. lia.
Qed.

Lemma copy_roundtrip_witness :
  ∃ r n m1, copyout vm_root 4090 1000 10 vm_s2 = Ok (r, set_phys m1 vm_s2) ∧ r = -1 ∧ n = 6 ∧
    stored (phys vm_s2) vm_root 4090 1000 n m1.
Proof.
  destruct vm_s2_user as [f' Hu].
  destruct (copy_roundtrip vm_end vm_s2 vm_root f' 4090 1000 1032 10 Hu) as (r & n & m1 & E & Hn & Hr & Hst & _).
  - discriminate.
  - discriminate.
  - apply vm_buf_ok; discriminate.
  - apply vm_buf_ok; discriminate.
  - exists r, n, m1. split; [exact E|].
    assert (Hres : result_of (copyout vm_root 4090 1000 10 vm_s2) = Some (-1)) by (vm_compute; reflexivity).
    rewrite E in Hres. injection Hres as ->. destruct Hr as [[H0 _]|(_ & Hlt & Hnone)]; [discriminate H0|].
    split; [reflexivity|]. split; [|exact Hst].
    destruct (decide (n < 6)) as [H6|H6].
    + exfalso. set (P := λ k, bool_decide (is_Some (uaddr (phys vm_s2) vm_root (4090 + k)))).
      assert (Hall : forallb (λ j, P (Z.of_nat j)) (seq 0 6) = true) by (vm_compute; reflexivity).
      pose proof (forallb_upto P 6 Hall n ltac:(lia)) as Hn'. unfold P in Hn'. rewrite Hnone in Hn'. discriminate Hn'.
    + destruct (decide (n = 6)) as [->|H7]; [reflexivity|]. exfalso.
      destruct (st_bytes _ _ _ _ _ _ Hst 6) as (a & Ha & _); [lia|].
      assert (Hno : uaddr (phys vm_s2) vm_root (4090 + 6) = None) by (vm_compute; reflexivity). congruence.
Defined.


