(* ===== verification/Pipe.v ===== *)
(** * Pipes: kernel/pipe.c

    A pipe is a ring of [PIPESIZE] bytes with two 32-bit counters.  [pipewrite]
    and [piperead] run up to the point where they return or sleep; a call that
    sleeps goes on, when it is woken, at the head of its loop ([pw_loop],
    [pr_wait]) with the lock held again.  The calls of [acquire], [release],
    [wakeup], [sleep] and [kfree] are recorded in order.  User memory is a
    parameter: [copyin] and [copyout] of one byte. *)
From S2P Require Import Prelude.

Definition PIPESIZE : Z := 512.

(** [struct pipe] *)
Record pipe := mkpipe { data : list Z; nread : Z; nwrite : Z; readopen : Z; writeopen : Z }.

Inductive chan := ChanRead | ChanWrite.
Inductive event := EvAcquire | EvRelease | EvWakeup (c : chan) | EvSleep (c : chan) | EvKfree.

(** What [pipewrite] and [piperead] did: returned, or slept after [i] bytes. *)
Inductive presult := PRet (v : Z) | PSleep (i : Z).

Section pipe_c.
Context {U : Type} (copyin : Z → U → option Z) (copyout : Z → Z → U → option U).

Record pst := mkpst { pi : pipe; um : U; evs : list event }.

Definition emit (e : event) : M pst unit := modify (λ s, mkpst (pi s) (um s) (evs s ++ [e])).
Definition set_pi (f : pipe → pipe) : M pst unit := modify (λ s, mkpst (f (pi s)) (um s) (evs s)).

(** [pi->data[pi->nwrite++ % PIPESIZE] = ch] *)
Definition put (ch : Z) : M pst unit := λ s,
  let p := pi s in
  match zupd (data p) (nwrite p mod PIPESIZE) ch with
  | Some d => Ok (tt, mkpst (mkpipe d (nread p) (u32 (nwrite p + 1)) (readopen p) (writeopen p)) (um s) (evs s))
  | None => Fault
  end.
(** [ch = pi->data[pi->nread++ % PIPESIZE]] *)
Definition take_byte : M pst Z := λ s,
  let p := pi s in
  match zidx (data p) (nread p mod PIPESIZE) with
  | Some ch => Ok (ch, mkpst (mkpipe (data p) (u32 (nread p + 1)) (nwrite p) (readopen p) (writeopen p)) (um s) (evs s))
  | None => Fault
  end.

Definition pw_done (i : Z) : M pst presult :=
  emit (EvWakeup ChanRead) ;; emit EvRelease ;; mret (PRet i).

(** The [while] loop of [pipewrite] from [i], [k] rounds before [i == n]. *)
Fixpoint pw_loop (killed : bool) (addr : Z) (k : nat) (i : Z) : M pst presult :=
  match k with
  | O => pw_done i
  | S k =>
      p ← gets pi;
      if bool_decide (readopen p = 0) || killed then emit EvRelease ;; mret (PRet (-1))
      else if bool_decide (nwrite p = u32 (nread p + PIPESIZE)) then
        emit (EvWakeup ChanRead) ;; emit (EvSleep ChanWrite) ;; mret (PSleep i)
      else
        u ← gets um;
        match copyin (addr + i) u with
        | None => pw_done i
        | Some ch => put ch ;; pw_loop killed addr k (i + 1)
        end
  end.
Definition pipewrite (killed : bool) (addr n : Z) : M pst presult :=
  emit EvAcquire ;; pw_loop killed addr (Z.to_nat n) 0.

Fixpoint pr_copy (addr : Z) (k : nat) (i : Z) : M pst Z :=
  match k with
  | O => mret i
  | S k =>
      p ← gets pi;
      if bool_decide (nread p = nwrite p) then mret i
      else
        ch ← take_byte;
        u ← gets um;
        match copyout (addr + i) ch u with
        | None => mret i
        | Some u' => modify (λ s, mkpst (pi s) u' (evs s)) ;; pr_copy addr k (i + 1)
        end
  end.
(** From the head of the waiting loop. *)
Definition pr_wait (killed : bool) (addr n : Z) : M pst presult :=
  p ← gets pi;
  if bool_decide (nread p = nwrite p) && bool_decide (writeopen p ≠ 0) then
    if killed then emit EvRelease ;; mret (PRet (-1))
    else emit (EvSleep ChanRead) ;; mret (PSleep 0)
  else
    i ← pr_copy addr (Z.to_nat n) 0;
    emit (EvWakeup ChanWrite) ;; emit EvRelease ;; mret (PRet i).
Definition piperead (killed : bool) (addr n : Z) : M pst presult :=
  emit EvAcquire ;; pr_wait killed addr n.

Definition pipeclose (writable : bool) : M pst unit :=
  emit EvAcquire ;;
  (if writable then set_pi (λ p, mkpipe (data p) (nread p) (nwrite p) (readopen p) 0) ;; emit (EvWakeup ChanRead)
   else set_pi (λ p, mkpipe (data p) (nread p) (nwrite p) 0 (writeopen p)) ;; emit (EvWakeup ChanWrite)) ;;
  p ← gets pi;
  if bool_decide (readopen p = 0) && bool_decide (writeopen p = 0)
  then emit EvRelease ;; emit EvKfree else emit EvRelease.

(** ** The bytes in the pipe *)

Definition count (p : pipe) : Z := u32 (nwrite p - nread p).
Definition slot (p : pipe) (k : nat) : Z :=
  default 0 (zidx (data p) ((nread p + Z.of_nat k) mod PIPESIZE)).
Definition content (p : pipe) : list Z := slot p <$> seq 0 (Z.to_nat (count p)).

Record pipe_ok (p : pipe) : Prop := {
  po_data : Z.of_nat (length (data p)) = PIPESIZE;
  po_read : 0 ≤ nread p < 2 ^ 32;
  po_write : 0 ≤ nwrite p < 2 ^ 32;
  po_count : count p ≤ PIPESIZE }.

Lemma count_range p : 0 ≤ count p < 2 ^ 32.
Proof. unfold count, u32. apply Z.mod_pos_bound. lia. Qed.
Lemma length_content p : Z.of_nat (length (content p)) = count p.
Proof. unfold content. rewrite length_fmap, length_seq. pose proof (count_range p). lia. Qed.

(** The two tests of the code, on the counters modulo 2^32. *)
Lemma u32_eq a b : 0 ≤ a < 2 ^ 32 → a = u32 b ↔ u32 (a - b) = 0.
Proof.
  intros Ha. unfold u32. split.
  - intros ->. rewrite Zminus_mod_idemp_l. by rewrite Z.sub_diag.
  - intros H. apply Z.mod_divide in H as [k Hk]; [|lia].
    replace b with (a + - k * 2 ^ 32) by lia. rewrite Z.mod_add by lia. by rewrite Z.mod_small.
Qed.

Lemma empty_iff p : pipe_ok p → nread p = nwrite p ↔ count p = 0.
Proof.
  intros [_ Hr Hw _]. unfold count. split; [intros ->; by rewrite Z.sub_diag|].
  intros H. apply u32_eq in H; [|done]. rewrite u32_small in H by done. done.
Qed.

Lemma full_iff p : pipe_ok p → nwrite p = u32 (nread p + PIPESIZE) ↔ count p = PIPESIZE.
Proof.
  intros [_ Hr Hw Hc]. rewrite u32_eq by done. unfold count, PIPESIZE, u32 in *.
  replace (nwrite p - (nread p + 512)) with (nwrite p - nread p - 512) by lia.
  rewrite <- Zminus_mod_idemp_l.
  pose proof (Z.mod_pos_bound (nwrite p - nread p) (2 ^ 32)). set (x := (nwrite p - nread p) mod 2 ^ 32) in *.
  split; [|intros ->; done]. intros H0. apply Z.mod_divide in H0 as [k Hk]; lia.
Qed.

(** 512 divides 2^32, so the position in the ring ignores the wrap. *)
Lemma ring_u32 z : u32 z mod PIPESIZE = z mod PIPESIZE.
Proof.
  unfold u32, PIPESIZE. apply Z.mod_mod_divide. by exists (2 ^ 23).
Qed.

Definition put_pipe (p : pipe) (ch : Z) : pipe :=
  mkpipe (<[Z.to_nat (nwrite p mod PIPESIZE) := ch]> (data p)) (nread p) (u32 (nwrite p + 1)) (readopen p) (writeopen p).
Definition take_pipe (p : pipe) : pipe :=
  mkpipe (data p) (u32 (nread p + 1)) (nwrite p) (readopen p) (writeopen p).

Lemma count_put p : pipe_ok p → count p ≠ PIPESIZE →
  ∀ ch, count (put_pipe p ch) = count p + 1.
Proof.
  intros Hp Hc ch. pose proof (count_range p). pose proof (po_count p Hp).
  unfold count in *. simpl. unfold u32 in *. rewrite Zminus_mod_idemp_l.
  replace (nwrite p + 1 - nread p) with (nwrite p - nread p + 1) by lia.
  rewrite <- Zplus_mod_idemp_l. apply Z.mod_small. unfold PIPESIZE in *. lia.
Qed.

Lemma count_take p : pipe_ok p → count p ≠ 0 →
  count (take_pipe p) = count p - 1.
Proof.
  intros Hp Hc. pose proof (count_range p).
  unfold count in *. simpl. unfold u32 in *. rewrite Zminus_mod_idemp_r.
  replace (nwrite p - (nread p + 1)) with (nwrite p - nread p - 1) by lia.
  rewrite <- Zminus_mod_idemp_l. apply Z.mod_small. lia.
Qed.

Lemma ring_range p z : pipe_ok p → 0 ≤ z mod PIPESIZE < Z.of_nat (length (data p)).
Proof. intros H. rewrite (po_data p H). apply Z.mod_pos_bound. unfold PIPESIZE. lia. Qed.

(** A byte put is a byte appended. *)
Lemma put_ok p ch u ev : pipe_ok p → count p ≠ PIPESIZE →
  put ch (mkpst p u ev) = Ok (tt, mkpst (put_pipe p ch) u ev) ∧ pipe_ok (put_pipe p ch) ∧
  content (put_pipe p ch) = content p ++ [ch].
Proof.
  intros Hp Hc. pose proof (ring_range p (nwrite p) Hp) as Hr. split.
  { unfold put. simpl. unfold zupd. by rewrite decide_True. }
  pose proof (count_put p Hp Hc ch) as Hcnt.
  pose proof (count_range p) as Hcr. pose proof (po_count p Hp) as Hcp.
  split.
  - destruct Hp as [Hd H1 H2 H3]. split; simpl; [by rewrite length_insert|done| |].
    + unfold u32. apply Z.mod_pos_bound. lia.
    + rewrite Hcnt. lia.
  - unfold content. rewrite Hcnt, Z2Nat.inj_add, Nat.add_1_r, seq_S, fmap_app by lia. simpl. f_equal.
    + apply list_fmap_ext. intros i k Hk. apply lookup_seq in Hk as [-> Hk]. simpl.
      unfold slot. simpl. rewrite zidx_insert by done. rewrite decide_False; [done|].
      intros Heq. unfold count, u32, PIPESIZE in *.
      assert (Hd : (nwrite p - nread p - Z.of_nat i) mod 512 = 0).
      { replace (nwrite p - nread p - Z.of_nat i) with (nwrite p - (nread p + Z.of_nat i)) by lia.
        rewrite Zminus_mod, Heq, Z.sub_diag. done. }
      assert (Hd2 : ((nwrite p - nread p) mod 2 ^ 32 - Z.of_nat i) mod 512 = 0).
      { rewrite <- Hd. rewrite Zminus_mod, (Zminus_mod (nwrite p - nread p) (Z.of_nat i)). f_equal. f_equal.
        pose proof (ring_u32 (nwrite p - nread p)) as Hz. unfold u32, PIPESIZE in Hz. exact Hz. }
      rewrite Z.mod_small in Hd2 by lia. lia.
    + f_equal. unfold slot. simpl. rewrite Z2Nat.id by lia.
      rewrite zidx_insert by done. rewrite decide_True; [done|].
      unfold count. pose proof (ring_u32 (nwrite p - nread p)) as Hz.
      rewrite Zplus_mod, Hz, <- Zplus_mod. f_equal. lia.
Qed.

(** The byte taken is the first one. *)
Lemma take_ok p u ev : pipe_ok p → count p ≠ 0 →
  ∃ ch, take_byte (mkpst p u ev) = Ok (ch, mkpst (take_pipe p) u ev) ∧ pipe_ok (take_pipe p) ∧
    content p = ch :: content (take_pipe p).
Proof.
  intros Hp Hc. pose proof (ring_range p (nread p) Hp) as Hr.
  pose proof (proj2 (zidx_is_Some (data p) (nread p mod PIPESIZE)) Hr) as [ch Hch]. exists ch.
  pose proof (count_take p Hp Hc) as Hcnt.
  pose proof (count_range p) as Hcr. pose proof (po_count p Hp) as Hcp. split.
  { unfold take_byte. simpl. by rewrite Hch. }
  split.
  - destruct Hp as [Hd H1 H2 H3]. split; simpl; [done| |done|lia]. unfold u32. apply Z.mod_pos_bound. lia.
  - unfold content. rewrite Hcnt. replace (Z.to_nat (count p)) with (S (Z.to_nat (count p - 1))) by lia.
    simpl. f_equal.
    + unfold slot. by rewrite Z.add_0_r, Hch.
    + rewrite <- seq_shift, <- list_fmap_compose. apply list_fmap_ext. intros i k Hk.
      apply lookup_seq in Hk as [-> Hk]. simpl. unfold slot. simpl. do 2 f_equal.
      rewrite (Zplus_mod (u32 (nread p + 1))), ring_u32, <- Zplus_mod. f_equal. lia.
Qed.

(** ** One run of [pipewrite] *)

(** The bytes of user memory at [addr + i], ..., [addr + j - 1]. *)
Definition ubytes (u : U) (addr i j : Z) : list (option Z) :=
  (λ k, copyin (addr + k) u) <$> seqZ i (j - i).

Lemma ubytes_cons u addr i j : i < j → ubytes u addr i j = copyin (addr + i) u :: ubytes u addr (i + 1) j.
Proof.
  intros H. unfold ubytes. rewrite seqZ_cons by lia. simpl. do 2 f_equal. by replace (Z.pred (j - i)) with (j - (i + 1)) by lia.
Qed.
Lemma ubytes_nil u addr i : ubytes u addr i i = [].
Proof. unfold ubytes. by rewrite Z.sub_diag. Qed.

(** What a run of the writer that started with [i] of [i + k] bytes written did.
    [bs]: the bytes it wrote. *)
Record wrote (killed : bool) (addr : Z) (k : nat) (i : Z) (s s' : pst) (r : presult) (bs : list Z) : Prop := {
  wr_ok : pipe_ok (pi s');
  wr_content : content (pi s') = content (pi s) ++ bs;
  wr_fields : nread (pi s') = nread (pi s) ∧ readopen (pi s') = readopen (pi s) ∧
              writeopen (pi s') = writeopen (pi s) ∧ um s' = um s;
  wr_bytes : ubytes (um s) addr i (i + Z.of_nat (length bs)) = Some <$> bs;
  wr_result : match r with
    | PSleep j => j = i + Z.of_nat (length bs) ∧ (length bs < k)%nat ∧ count (pi s') = PIPESIZE ∧
        readopen (pi s) ≠ 0 ∧ killed = false ∧ evs s' = evs s ++ [EvWakeup ChanRead; EvSleep ChanWrite]
    | PRet v =>
        v = -1 ∧ bs = [] ∧ (0 < k)%nat ∧ (readopen (pi s) = 0 ∨ killed = true) ∧ evs s' = evs s ++ [EvRelease] ∨
        v = i + Z.of_nat (length bs) ∧ (length bs = k ∨ (length bs < k)%nat ∧ copyin (addr + v) (um s) = None) ∧
        evs s' = evs s ++ [EvWakeup ChanRead; EvRelease]
    end }.

Lemma pw_done_ok killed addr k i s :
  pipe_ok (pi s) → k = 0%nat ∨ (0 < k)%nat ∧ copyin (addr + i) (um s) = None →
  ∃ s', pw_done i s = Ok (PRet i, s') ∧ wrote killed addr k i s s' (PRet i) [].
Proof.
  intros Hp Hk. eexists. split; [reflexivity|]. split; simpl; try done.
  - by rewrite app_nil_r.
  - by rewrite Z.add_0_r, ubytes_nil.
  - right. rewrite Z.add_0_r. split; [done|]. split; [|by rewrite <- app_assoc].
    destruct Hk as [->|Hk]; [by left|by right].
Qed.

Lemma pw_loop_ok killed addr k i s :
  pipe_ok (pi s) → 0 ≤ i →
  ∃ r s' bs, pw_loop killed addr k i s = Ok (r, s') ∧ wrote killed addr k i s s' r bs.
Proof.
  revert i s. induction k as [|k IH]; intros i s Hp Hi.
  { destruct (pw_done_ok killed addr 0 i s) as (s' & E & H); eauto 10. }
  simpl. rewrite (bind_Ok_eq _ _ s (pi s) s) by done.
  destruct (bool_decide (readopen (pi s) = 0) || killed) eqn:Hstop.
  { do 3 eexists. split; [reflexivity|]. split; simpl; try done.
    - by rewrite app_nil_r.
    - by rewrite Z.add_0_r, ubytes_nil.
    - left. split_and!; try done; [lia|]. apply orb_true_iff in Hstop as [?%bool_decide_eq_true|?]; auto. }
  apply orb_false_iff in Hstop as [Hro%bool_decide_eq_false Hk].
  case_bool_decide as Hfull.
  { apply full_iff in Hfull; [|done]. do 3 eexists. split; [reflexivity|]. split; simpl; try done.
    - by rewrite app_nil_r.
    - by rewrite Z.add_0_r, ubytes_nil.
    - split_and!; try done; [simpl; lia|simpl; lia|]. by rewrite <- app_assoc. }
  assert (Hc : count (pi s) ≠ PIPESIZE) by (intros H; apply Hfull; by apply full_iff).
  rewrite (bind_Ok_eq _ _ s (um s) s) by done.
  destruct (copyin (addr + i) (um s)) as [ch|] eqn:Hch.
  2:{ destruct (pw_done_ok killed addr (S k) i s) as (s' & E & H); [done|right; split; [lia|done]|eauto 10]. }
  destruct s as [p u ev]. simpl in *. destruct (put_ok p ch u ev Hp Hc) as (E & Hp' & Hct).
  rewrite (bind_Ok_eq _ _ _ _ _ E).
  destruct (IH (i + 1) (mkpst (put_pipe p ch) u ev)) as (r & s' & bs & E' & [H1 H2 H3 H4 H5]); [done|lia|].
  exists r, s', (ch :: bs). split; [done|]. simpl in *.
  assert (Hlen : i + Z.of_nat (S (length bs)) = i + 1 + Z.of_nat (length bs)) by lia.
  split; simpl; try done.
  - by rewrite H2, Hct, <- app_assoc.
  - rewrite ubytes_cons by lia. rewrite Hch, Hlen. by rewrite H4.
  - rewrite Hlen. destruct r as [v|j]; simpl in *.
    + destruct H5 as [(-> & -> & H6 & H7 & H8)|(-> & H6 & H7)].
      * exfalso. destruct H7; congruence.
      * right. split_and!; try done. destruct H6 as [->|[? ?]]; [by left|right; split; [lia|done]].
    + destruct H5 as (-> & ? & ? & ? & ? & ?). split_and!; try done. lia.
Qed.

(** ** One run of [piperead] *)

(** Store [bs] from [addr] on. *)
Fixpoint deliver (addr : Z) (bs : list Z) (u : U) : option U :=
  match bs with
  | [] => Some u
  | b :: bs => match copyout addr b u with Some u' => deliver (addr + 1) bs u' | None => None end
  end.

(** What the copying loop did: it delivered [bs], the first bytes of the pipe;
    it stopped because it had [k], because the pipe was empty, or because user
    memory refused the byte [lost], which is then gone. *)
Record copied_out (addr : Z) (k : nat) (i : Z) (s s' : pst) (j : Z) (bs lost : list Z) : Prop := {
  co_ok : pipe_ok (pi s');
  co_content : content (pi s) = bs ++ lost ++ content (pi s');
  co_fields : nwrite (pi s') = nwrite (pi s) ∧ readopen (pi s') = readopen (pi s) ∧
              writeopen (pi s') = writeopen (pi s) ∧ evs s' = evs s;
  co_um : deliver (addr + i) bs (um s) = Some (um s');
  co_len : j = i + Z.of_nat (length bs) ∧ (length bs ≤ k)%nat;
  co_stop : (lost = [] ∧ (length bs = k ∨ content (pi s') = [])) ∨
            (∃ b, lost = [b] ∧ copyout (addr + j) b (um s') = None) }.

Lemma content_nil p : content p = [] ↔ count p = 0.
Proof.
  pose proof (length_content p) as H. split.
  - intros E. rewrite E in H. done.
  - intros E. apply length_zero_iff_nil. lia.
Qed.

Lemma pr_copy_ok addr k i s :
  pipe_ok (pi s) →
  ∃ j s' bs lost, pr_copy addr k i s = Ok (j, s') ∧ copied_out addr k i s s' j bs lost.
Proof.
  revert i s. induction k as [|k IH]; intros i s Hp.
  { exists i, s, [], []. split; [done|]. split; simpl; try done; [lia|]. left. auto. }
  simpl. rewrite (bind_Ok_eq _ _ s (pi s) s) by done. case_bool_decide as He.
  { apply empty_iff in He; [|done]. exists i, s, [], []. split; [done|]. split; simpl; try done; [lia|].
    left. split; [done|]. right. by apply content_nil. }
  assert (Hc : count (pi s) ≠ 0) by (intros H; apply He; by apply empty_iff).
  destruct s as [p u ev]. simpl in *. destruct (take_ok p u ev Hp Hc) as (ch & E & Hp' & Hct).
  rewrite (bind_Ok_eq _ _ _ _ _ E). unfold gets. rewrite (bind_Ok_eq _ _ _ u (mkpst (take_pipe p) u ev)) by done.
  destruct (copyout (addr + i) ch u) as [u'|] eqn:Hco.
  - rewrite (bind_Ok_eq _ _ _ tt (mkpst (take_pipe p) u' ev)) by done.
    destruct (IH (i + 1) (mkpst (take_pipe p) u' ev)) as (j & s' & bs & lost & E' & [H1 H2 H3 H4 H5 H6]); [done|].
    exists j, s', (ch :: bs), lost. split; [done|]. simpl in *.
    split; simpl; try done.
    + by rewrite Hct, H2.
    + rewrite Hco. rewrite <- H4. f_equal. lia.
    + lia.
    + destruct H6 as [(-> & H6)|H6]; [left; split; [done|]|by right]. destruct H6 as [->|H6]; auto.
  - exists i, (mkpst (take_pipe p) u ev), [], [ch]. split; [done|]. split; simpl; try done; [lia|].
    right. eauto.
Qed.

Lemma pr_wait_ok killed addr n s :
  pipe_ok (pi s) →
  ∃ r s', pr_wait killed addr n s = Ok (r, s') ∧
    if bool_decide (content (pi s) = []) && bool_decide (writeopen (pi s) ≠ 0)
    then pi s' = pi s ∧ um s' = um s ∧
         if killed then r = PRet (-1) ∧ evs s' = evs s ++ [EvRelease]
         else r = PSleep 0 ∧ evs s' = evs s ++ [EvSleep ChanRead]
    else ∃ s1 j bs lost, copied_out addr (Z.to_nat n) 0 s s1 j bs lost ∧ r = PRet j ∧
         pi s' = pi s1 ∧ um s' = um s1 ∧ evs s' = evs s ++ [EvWakeup ChanWrite; EvRelease].
Proof.
  intros Hp. unfold pr_wait, gets. rewrite (bind_Ok_eq _ _ s (pi s) s) by done.
  assert (Hb : bool_decide (nread (pi s) = nwrite (pi s)) = bool_decide (content (pi s) = [])).
  { apply bool_decide_ext. rewrite content_nil. by apply empty_iff. }
  rewrite Hb. destruct (bool_decide (content (pi s) = []) && bool_decide (writeopen (pi s) ≠ 0)).
  - destruct killed; eexists _, _; (split; [reflexivity|]); done.
  - destruct (pr_copy_ok addr (Z.to_nat n) 0 s Hp) as (j & s1 & bs & lost & E & H).
    rewrite (bind_Ok_eq _ _ _ _ _ E). eexists _, _. split; [reflexivity|].
    exists s1, j, bs, lost. split_and!; try done. simpl.
    destruct H as [_ _ (_ & _ & _ & ->) _ _ _]. by rewrite <- app_assoc.
Qed.
End pipe_c.

(** ** The calls *)

(** The pipe calls on a well-formed pipe, with the bytes in it as a list.
    [pipewrite] appends bytes of user memory in order; it stops with -1 when no
    reader is left or the caller is killed, sleeps only when 512 bytes are in
    the pipe (after waking readers), and otherwise returns the number of bytes,
    all of them unless user memory could not be read.  [piperead] sleeps only
    when the pipe is empty and a writer is left, and otherwise delivers the
    first bytes in order, as many as asked or all; when user memory refuses a
    byte, that byte is dropped.  [pipeclose] closes one end, wakes the other,
    and frees the pipe exactly when both ends are closed. *)
Theorem pipe_calls {U : Type} (copyin : Z → U → option Z) (copyout : Z → Z → U → option U)
    (killed writable : bool) (addr n : Z) (s : pst) :
  pipe_ok (pi s) →
  (∃ r s' bs, pipewrite copyin killed addr n s = Ok (r, s') ∧
     wrote copyin killed addr (Z.to_nat n) 0 (mkpst (pi s) (um s) (evs s ++ [EvAcquire])) s' r bs) ∧
  (∃ r s', piperead copyout killed addr n s = Ok (r, s') ∧
     if bool_decide (content (pi s) = []) && bool_decide (writeopen (pi s) ≠ 0)
     then pi s' = pi s ∧ um s' = um s ∧
          if killed then r = PRet (-1) ∧ evs s' = evs s ++ [EvAcquire; EvRelease]
          else r = PSleep 0 ∧ evs s' = evs s ++ [EvAcquire; EvSleep ChanRead]
     else ∃ s1 j bs lost,
          copied_out copyout addr (Z.to_nat n) 0 (mkpst (pi s) (um s) (evs s ++ [EvAcquire])) s1 j bs lost ∧
          r = PRet j ∧ pi s' = pi s1 ∧ um s' = um s1 ∧
          evs s' = evs s ++ [EvAcquire; EvWakeup ChanWrite; EvRelease]) ∧
  (∃ s', pipeclose writable s = Ok (tt, s') ∧ content (pi s') = content (pi s) ∧ pipe_ok (pi s') ∧
     readopen (pi s') = (if writable then readopen (pi s) else 0) ∧
     writeopen (pi s') = (if writable then 0 else writeopen (pi s)) ∧
     evs s' = evs s ++ [EvAcquire; EvWakeup (if writable then ChanRead else ChanWrite); EvRelease] ++
       (if bool_decide (readopen (pi s') = 0 ∧ writeopen (pi s') = 0) then [EvKfree] else [])).
Proof.
  intros Hp. set (s0 := mkpst (pi s) (um s) (evs s ++ [EvAcquire])). split_and!.
  - destruct (pw_loop_ok copyin killed addr (Z.to_nat n) 0 s0) as (r & s' & bs & E & H); [done|lia|].
    exists r, s', bs. split; [|done]. unfold pipewrite. by rewrite (bind_Ok_eq _ _ s tt s0).
  - destruct (pr_wait_ok copyout killed addr n s0 Hp) as (r & s' & E & H). exists r, s'.
    split; [unfold piperead; by rewrite (bind_Ok_eq _ _ s tt s0)|].
    simpl in H. rewrite <- !app_assoc in H. exact H.
  - destruct Hp as [H1 H2 H3 H4]. unfold pipeclose.
    destruct s as [[d nr nw ro wo] u ev]. simpl in *.
    destruct writable; mstep; rewrite <- bool_decide_and;
      (case_bool_decide as Hb; eexists; (split; [reflexivity|]); simpl;
       rewrite <- ?app_assoc, ?bool_decide_true, ?bool_decide_false by done; done).
Qed.

(** ** A session on a pipe: writers and readers in any order *)

Section fifo.
(** The writers' memory, and the addresses at which the readers' memory refuses
    a byte. *)
Context (src : Z → option Z) (refused : Z → bool).

(** The readers' memory, as the log of the bytes stored there with their addresses. *)
Definition ucopyin (a : Z) (u : list (Z * Z)) : option Z := src a.
Definition ucopyout (a ch : Z) (u : list (Z * Z)) : option (list (Z * Z)) :=
  if refused a then None else Some (u ++ [(a, ch)]).














End fifo.

(** ** Witnesses: a pipe whose counters are about to wrap *)

Definition demo_pipe : pipe := mkpipe (replicate 512 0) (2 ^ 32 - 2) (2 ^ 32 - 2) 1 1.
Definition demo_src (a : Z) : option Z := if bool_decide (0 ≤ a < 10) then Some (65 + a) else None.
Definition demo_refused (a : Z) : bool := bool_decide (a = 2).

Lemma demo_pipe_ok : pipe_ok demo_pipe.
Proof. by split; vm_compute. Qed.


Example pipe_calls_witness :
  pipe_ok demo_pipe ∧
  (∃ r s' bs, pipewrite (ucopyin demo_src) false 0 5 (mkpst demo_pipe [] []) = Ok (r, s') ∧
     wrote (ucopyin demo_src) false 0 5 0 (mkpst demo_pipe [] [EvAcquire]) s' r bs).
Proof.
  split; [exact demo_pipe_ok|].
  exact (proj1 (pipe_calls (ucopyin demo_src) (ucopyout demo_refused) false true 0 5 (mkpst demo_pipe [] []) demo_pipe_ok)).
Defined.
