(* ===== verification/Grep.v ===== *)
(** * A regular-expression search: user/grep.c

    The matcher runs on NUL-terminated strings in memory; [accepts] is the
    language of a pattern, and [match_correct] says that they agree and that the
    fuel (the size of memory, per string) is enough.  GrepLoop.v holds the
    program around it. *)
From S2P Require Import Prelude CString Ulib.

(** ** The matcher *)

(** The [do ... while] of [matchstar]; [rec] is [matchhere]. *)
Fixpoint matchstar (rec : Z → Z → M mem Z) (k : nat) (c re text : Z) : M mem Z :=
  match k with
  | O => hang
  | S k =>
      r ← rec re text;
      if bool_decide (r ≠ 0) then mret 1
      else
        t ← ld text;
        if bool_decide (t ≠ 0) && (bool_decide (t = c) || bool_decide (c = 46)) then matchstar rec k c re (text + 1)
        else mret 0
  end.

Fixpoint matchhere (fuel tfuel : nat) (re text : Z) : M mem Z :=
  match fuel with
  | O => hang
  | S fuel =>
      r0 ← ld re;
      if bool_decide (r0 = 0) then mret 1
      else
        r1 ← ld (re + 1);
        if bool_decide (r1 = 42) then matchstar (matchhere fuel tfuel) tfuel r0 (re + 2) text
        else if bool_decide (r0 = 36) && bool_decide (r1 = 0) then
          t ← ld text; mret (if bool_decide (t = 0) then 1 else 0)
        else
          t ← ld text;
          if bool_decide (t ≠ 0) && (bool_decide (r0 = 46) || bool_decide (r0 = t))
          then matchhere fuel tfuel (re + 1) (text + 1)
          else mret 0
  end.

Fixpoint match_loop (fuel : nat) (k : nat) (re text : Z) : M mem Z :=
  match k with
  | O => hang
  | S k =>
      r ← matchhere fuel fuel re text;
      if bool_decide (r ≠ 0) then mret 1
      else
        t ← ld text;
        if bool_decide (t ≠ 0) then match_loop fuel k re (text + 1) else mret 0
  end.
Definition match_ (re text : Z) : M mem Z := fueled (λ f,
  r0 ← ld re;
  if bool_decide (r0 = 94) then matchhere f f (re + 1) text else match_loop f f re text).

(** ** The language of a pattern *)

Inductive item := One (c : Z) | Star (c : Z).

(** The items of a pattern, and whether it ends with [$]. *)
Fixpoint parse (r : list Z) : list item * bool :=
  match r with
  | [] => ([], false)
  | c :: r' =>
      match r' with
      | [] => if bool_decide (c = 36) then ([], true) else ([One c], false)
      | d :: r'' =>
          if bool_decide (d = 42) then let '(l, e) := parse r'' in (Star c :: l, e)
          else let '(l, e) := parse r' in (One c :: l, e)
      end
  end.

(** [.] stands for any character. *)
Definition char_ok (c x : Z) : Prop := x = c ∨ c = 46.
Inductive lang : list item → list Z → Prop :=
  | lang_nil : lang [] []
  | lang_one c x l t : char_ok c x → lang l t → lang (One c :: l) (x :: t)
  | lang_star c u l t : Forall (char_ok c) u → lang l t → lang (Star c :: l) (u ++ t).

(** The pattern [r] at the beginning of [t]. *)
Definition here (r t : list Z) : Prop :=
  ∃ u v, t = u ++ v ∧ lang (parse r).1 u ∧ ((parse r).2 = true → v = []).
Definition accepts (r t : list Z) : Prop :=
  match r with
  | c :: r' => if decide (c = 94) then here r' t else ∃ u v, t = u ++ v ∧ here r v
  | [] => True
  end.

Lemma here_nil t : here [] t ↔ True.
Proof. split; [done|]. intros _. exists [], t. split; [done|]. split; [constructor|done]. Qed.

Lemma here_star c r t : here (c :: 42 :: r) t ↔ ∃ u v, t = u ++ v ∧ Forall (char_ok c) u ∧ here r v.
Proof.
  unfold here. cbn [parse]. rewrite bool_decide_true by done. destruct (parse r) as [l e]; simpl. split.
  - intros (u & v & -> & Hl & He). inversion Hl as [| |c' w l' t' Hw Hl']; subst.
    exists w, (t' ++ v). split; [by rewrite app_assoc|]. split; [done|]. by exists t', v.
  - intros (w & ? & -> & Hw & t' & v & -> & Hl & He). exists (w ++ t'), v.
    split; [by rewrite app_assoc|]. split; [by constructor|done].
Qed.

Lemma here_dollar t : here [36] t ↔ t = [].
Proof.
  unfold here. simpl. split.
  - intros (u & v & -> & Hl & He). inversion Hl; subst. by rewrite He.
  - intros ->. exists [], []. split; [done|]. split; [constructor|done].
Qed.

Lemma here_one c r t : head r ≠ Some 42 → ¬ (c = 36 ∧ r = []) →
  here (c :: r) t ↔ ∃ x t', t = x :: t' ∧ char_ok c x ∧ here r t'.
Proof.
  intros Hs Hd. assert (Hp : parse (c :: r) = (One c :: (parse r).1, (parse r).2)).
  { destruct r as [|d r].
    - cbn [parse]. rewrite bool_decide_false by tauto. done.
    - trans (if bool_decide (d = 42) then let '(l, e) := parse r in (Star c :: l, e)
             else let '(l, e) := parse (d :: r) in (One c :: l, e)); [done|].
      rewrite bool_decide_false by (intros ->; by apply Hs). by destruct (parse (d :: r)). }
  unfold here. rewrite Hp. cbn [fst snd]. split.
  - intros (u & v & -> & Hl & He). inversion Hl as [|c' x l' t' Hx Hl'|]; subst.
    exists x, (t' ++ v). split; [done|]. split; [done|]. by exists t', v.
  - intros (x & ? & -> & Hx & t' & v & -> & Hl & He). exists (x :: t'), v.
    split; [done|]. split; [by constructor|done].
Qed.

(** ** The matcher decides the language *)

(** The code answers [P] at memory [m], leaving it alone. *)
Definition answers (c : M mem Z) (m : mem) (P : Prop) : Prop :=
  ∃ b : bool, c m = Ok ((if b then 1 else 0), m) ∧ (b = true ↔ P).

Lemma answers_iff c m P Q : answers c m P → (P ↔ Q) → answers c m Q.
Proof. intros (b & E & H) Hpq. exists b. split; [done|]. by rewrite H. Qed.
Lemma answers_yes m (P : Prop) : P → answers (mret 1) m P.
Proof. intros H. by exists true. Qed.
Lemma answers_no m (P : Prop) : ¬ P → answers (mret 0) m P.
Proof. intros H. exists false. split; [done|]. split; done. Qed.

Lemma matchstar_ok rec k c re text m t (P : list Z → Prop) :
  (∀ text' t', str_at m text' t' → (length t' ≤ length t)%nat → answers (rec re text') m (P t')) →
  str_at m text t → (length t < k)%nat →
  answers (matchstar rec k c re text) m (∃ u v, t = u ++ v ∧ Forall (char_ok c) u ∧ P v).
Proof.
  intros Hrec. revert text t Hrec. induction k as [|k IH]; intros text t Hrec Hs Hk; [lia|].
  destruct (Hrec text t Hs ltac:(done)) as (b & E & Hb). cbn [matchstar]. unfold answers.
  rewrite (bind_Ok_eq _ _ _ _ _ E). destruct b.
  { exists true. split; [done|]. split; [|done]. intros _. exists [], t. split; [done|]. split; [constructor|by apply Hb]. }
  rewrite bool_decide_false by tauto. assert (Hn : ¬ P t) by (intros H; by apply Hb in H).
  destruct t as [|x t].
  - apply str_nil in Hs as H0. rewrite (bind_Ok_eq _ _ _ _ _ (ld_ok _ _ _ H0)). exists false. split; [done|].
    split; [done|]. intros (u & v & Huv & _ & Hv). symmetry in Huv. apply app_nil in Huv as [-> ->]. done.
  - pose proof Hs as (Hx & Hx0 & Hs')%str_cons. rewrite (bind_Ok_eq _ _ _ _ _ (ld_ok _ _ _ Hx)).
    rewrite (bool_decide_true (x ≠ 0)) by done. cbn [andb].
    destruct (bool_decide (x = c) || bool_decide (c = 46)) eqn:Hc.
    + eapply answers_iff; [apply (IH (text + 1) t); [|done|simpl in Hk; lia]|].
      { intros text' t' Ht' Hl. apply Hrec; [done|simpl; lia]. }
      assert (Hok : char_ok c x).
      { apply orb_true_iff in Hc as [?%bool_decide_eq_true|?%bool_decide_eq_true]; [by left|by right]. }
      split.
      * intros (u & v & -> & Hu & Hv). exists (x :: u), v. split; [done|]. split; [by constructor|done].
      * intros (u & v & Huv & Hu & Hv). destruct u as [|y u]; [simpl in Huv; by subst|].
        injection Huv as -> ->. apply Forall_cons in Hu as [_ Hu]. by exists u, v.
    + exists false. split; [done|]. split; [done|]. intros (u & v & Huv & Hu & Hv).
      destruct u as [|y u]; [simpl in Huv; by subst|]. injection Huv as -> ->.
      apply orb_false_iff in Hc as [H1%bool_decide_eq_false H2%bool_decide_eq_false].
      apply Forall_cons in Hu as [[?|?] _]; done.
Qed.

Lemma matchhere_ok fuel tfuel m re text r t :
  str_at m re r → str_at m text t → (length r < fuel)%nat → (length t < tfuel)%nat →
  answers (matchhere fuel tfuel re text) m (here r t).
Proof.
  revert re text r t. induction fuel as [|fuel IH]; intros re text r t Hr Ht Hf Htf; [lia|].
  cbn [matchhere]. destruct r as [|c r]; unfold answers.
  - apply str_nil in Hr. rewrite (bind_Ok_eq _ _ _ _ _ (ld_ok _ _ _ Hr)). rewrite bool_decide_true by done.
    exists true. split; [done|]. by rewrite here_nil.
  - apply str_cons in Hr as (Hc & Hc0 & Hr). rewrite (bind_Ok_eq _ _ _ _ _ (ld_ok _ _ _ Hc)).
    rewrite bool_decide_false by done.
    assert (Hhd : ∃ d, m !! (re + 1) = Some d ∧ (d = 0 ∧ r = [] ∨ ∃ r', r = d :: r' ∧ d ≠ 0 ∧ str_at m (re + 1 + 1) r')).
    { destruct r as [|d r]; [exists 0; split; [by apply str_nil|by left]|].
      apply str_cons in Hr as (Hd & Hd0 & Hr). exists d. split; [done|]. right. by exists r. }
    destruct Hhd as (d & Hd & Hdr). rewrite (bind_Ok_eq _ _ _ _ _ (ld_ok _ _ _ Hd)).
    case_bool_decide as Hstar.
    + destruct Hdr as [[-> _]|(r' & -> & _ & Hr')]; [done|]. subst d. eapply answers_iff; [|symmetry; apply here_star].
      apply matchstar_ok; [|done|done]. intros text' t' Ht' Hl.
      apply IH; [by replace (re + 2) with (re + 1 + 1) by lia|done|simpl in Hf; lia|lia].
    + destruct (bool_decide (c = 36) && bool_decide (d = 0)) eqn:Hdol.
      * apply andb_prop in Hdol as [->%bool_decide_eq_true ->%bool_decide_eq_true].
        destruct Hdr as [[_ ->]|(r' & -> & ? & _)]; [|done].
        destruct t as [|x t].
        -- apply str_nil in Ht. rewrite (bind_Ok_eq _ _ _ _ _ (ld_ok _ _ _ Ht)). exists true. split; [done|]. by rewrite here_dollar.
        -- apply str_cons in Ht as (Hx & Hx0 & _). rewrite (bind_Ok_eq _ _ _ _ _ (ld_ok _ _ _ Hx)).
           rewrite bool_decide_false by done. exists false. split; [done|]. by rewrite here_dollar.
      * assert (Hnd : ¬ (c = 36 ∧ r = [])).
        { intros [-> ->]. destruct Hdr as [[-> _]|(r' & ? & _)]; done. }
        assert (Hns : head r ≠ Some 42).
        { destruct Hdr as [[_ ->]|(r' & -> & _)]; [done|]. by intros [= ->]. }
        destruct t as [|x t].
        -- apply str_nil in Ht. rewrite (bind_Ok_eq _ _ _ _ _ (ld_ok _ _ _ Ht)). exists false. split; [done|].
           rewrite here_one by done. split; [done|]. by intros (? & ? & ? & _).
        -- apply str_cons in Ht as (Hx & Hx0 & Ht). rewrite (bind_Ok_eq _ _ _ _ _ (ld_ok _ _ _ Hx)).
           rewrite (bool_decide_true (x ≠ 0)) by done. cbn [andb].
           destruct (bool_decide (c = 46) || bool_decide (c = x)) eqn:Hcx.
           ++ eapply answers_iff; [apply (IH _ _ r t); try done; simpl in *; lia|].
              rewrite here_one by done. split.
              ** intros H. exists x, t. split; [done|]. split; [|done].
                 apply orb_true_iff in Hcx as [?%bool_decide_eq_true|?%bool_decide_eq_true]; [by right|by left].
              ** by intros (? & ? & [= <- <-] & _ & ?).
           ++ exists false. split; [done|]. rewrite here_one by done. split; [done|].
              intros (? & ? & [= <- <-] & Hok & _). apply orb_false_iff in Hcx as [H1%bool_decide_eq_false H2%bool_decide_eq_false].
              by destruct Hok.
Qed.

Lemma match_loop_ok fuel k m re text r t :
  str_at m re r → str_at m text t → (length r < fuel)%nat → (length t < fuel)%nat → (length t < k)%nat →
  answers (match_loop fuel k re text) m (∃ u v, t = u ++ v ∧ here r v).
Proof.
  intros Hr. revert text t. induction k as [|k IH]; intros text t Ht Hf Htf Hk; [lia|]. cbn [match_loop]. unfold answers.
  destruct (matchhere_ok fuel fuel m re text r t Hr Ht Hf Htf) as (b & E & Hb). rewrite (bind_Ok_eq _ _ _ _ _ E).
  destruct b.
  { exists true. split; [done|]. split; [|done]. intros _. exists [], t. split; [done|]. by apply Hb. }
  rewrite bool_decide_false by tauto. assert (Hn : ¬ here r t) by (intros H; by apply Hb in H).
  destruct t as [|x t].
  - apply str_nil in Ht. rewrite (bind_Ok_eq _ _ _ _ _ (ld_ok _ _ _ Ht)). exists false. split; [done|]. split; [done|].
    intros (u & v & Huv & Hv). symmetry in Huv. apply app_nil in Huv as [-> ->]. done.
  - apply str_cons in Ht as (Hx & Hx0 & Ht). rewrite (bind_Ok_eq _ _ _ _ _ (ld_ok _ _ _ Hx)).
    rewrite bool_decide_true by done. simpl in Htf, Hk.
    eapply answers_iff; [apply (IH (text + 1) t); [done|done|lia|lia]|]. split.
    + intros (u & v & -> & Hv). by exists (x :: u), v.
    + intros (u & v & Huv & Hv). destruct u as [|y u]; [simpl in Huv; by subst|]. injection Huv as -> ->. by exists u, v.
Qed.

Lemma str_length_size m a l : str_at m a l → (length l < size m)%nat.
Proof.
  intros [_ Hb]. apply bytes_mapped, mapped_size in Hb; [|lia]. rewrite length_app in Hb. simpl in Hb. lia.
Qed.

Lemma match_ok m re text r t :
  str_at m re r → str_at m text t → answers (match_ re text) m (accepts r t).
Proof.
  intros Hr Ht. pose proof (str_length_size _ _ _ Hr) as Lr. pose proof (str_length_size _ _ _ Ht) as Lt.
  unfold answers, match_, fueled. destruct r as [|c r].
  - apply str_nil in Hr as H0. rewrite (bind_Ok_eq _ _ _ _ _ (ld_ok _ _ _ H0)). rewrite bool_decide_false by done.
    simpl accepts. apply (answers_iff _ _ (∃ u v, t = u ++ v ∧ here [] v)).
    + apply match_loop_ok; try done; lia.
    + split; [done|]. intros _. exists [], t. split; [done|]. by apply here_nil.
  - pose proof Hr as (Hc & Hc0 & Hr')%str_cons. rewrite (bind_Ok_eq _ _ _ _ _ (ld_ok _ _ _ Hc)). simpl accepts.
    simpl in Lr. case_bool_decide as H94.
    + rewrite decide_True by done. apply matchhere_ok; try done; lia.
    + rewrite decide_False by done. apply match_loop_ok; try done; simpl; lia.
Qed.

(** C24: the matcher decides the language of the pattern.  On any two strings in
    memory [match] returns 1 or 0 without changing memory and without running
    out of fuel, and it returns 1 exactly when the pattern accepts the text:
    [^] and [$] anchor, [.] stands for any character and [c*] for any number of
    them. *)
Theorem match_correct m re text r t :
  str_at m re r → str_at m text t →
  ∃ b, match_ re text m = Ok (b, m) ∧ (b = 0 ∨ b = 1) ∧ (b = 1 ↔ accepts r t).
Proof.
  intros Hr Ht. destruct (match_ok m re text r t Hr Ht) as (b & E & H).
  exists (if b then 1 else 0). split; [exact E|]. rewrite <-H. destruct b; split; [by right|done|by left|done].
Qed.

(** "a.*c$" at 100 and "xabcc" at 110. *)
Definition demo_grep : mem :=
  list_to_map (imap (λ i c, (100 + Z.of_nat i, c)) [97; 46; 42; 99; 36; 0; 0; 0; 0; 0; 120; 97; 98; 99; 99; 0]).

Lemma match_correct_witness :
  str_at demo_grep 100 [97; 46; 42; 99; 36] ∧ str_at demo_grep 110 [120; 97; 98; 99; 99] ∧
  accepts [97; 46; 42; 99; 36] [120; 97; 98; 99; 99].
Proof.
  assert (H1 : str_at demo_grep 100 [97; 46; 42; 99; 36]) by (apply str_at_dec; vm_compute; reflexivity).
  assert (H2 : str_at demo_grep 110 [120; 97; 98; 99; 99]) by (apply str_at_dec; vm_compute; reflexivity).
  split; [exact H1|]. split; [exact H2|].
  destruct (match_correct demo_grep 100 110 _ _ H1 H2) as (b & E & _ & Hb). apply Hb.
  assert (E' : match_ 100 110 demo_grep = Ok (1, demo_grep)) by (vm_compute; reflexivity).
  rewrite E' in E. injection E as <-. reflexivity.
Defined.
