(* ===== verification/GrepLoop.v ===== *)
(** * The grep program: the loop of user/grep.c around the matcher

    Input comes from [read] in pieces of any size; the loop keeps an incomplete
    line at the front of its 1024-byte buffer.  [grep_prints_matches] shows that
    the pieces do not matter. *)
From S2P Require Import Prelude CString Ulib Grep.

(** Memory, the rest of the input, how many bytes the coming reads deliver at
    most (each one at least 1), and the output. *)
Record gst := Gst { g_mem : mem; g_in : list Z; g_take : list nat; g_out : list Z }.

Definition inmem {A} (c : M mem A) : M gst A := λ s,
  match c s.(g_mem) with
  | Ok (a, m) => Ok (a, Gst m s.(g_in) s.(g_take) s.(g_out))
  | Panic e => Panic e
  | Fault => Fault
  | Hang => Hang
  end.

(** What [read] on a file or a pipe may do: some of the bytes that are left, no
    more than asked for; 0 at the end of the input. *)
Definition read (a n : Z) : M gst Z := λ s,
  let k := (Z.to_nat n `min` S (hd 0%nat s.(g_take)))%nat in
  let got := take k s.(g_in) in
  match stn a got s.(g_mem) with
  | Ok (_, m) => Ok (Z.of_nat (length got), Gst m (drop k s.(g_in)) (tl s.(g_take)) s.(g_out))
  | Panic e => Panic e
  | Fault => Fault
  | Hang => Hang
  end.
(** [write(1, p, n)] *)
Definition write (p n : Z) : M gst unit :=
  l ← inmem (ldn (Z.to_nat n) p);
  modify (λ s, Gst s.(g_mem) s.(g_in) s.(g_take) (s.(g_out) ++ l)).

Definition BUFSIZE : Z := 1024.

(** The inner loop: the complete lines from [p] on; it returns [p]. *)
Fixpoint grep_lines (fuel : nat) (pattern p : Z) : M gst Z :=
  match fuel with
  | O => hang
  | S fuel =>
      q ← inmem (strchr p 10);
      if bool_decide (q ≠ 0) then
        inmem (st q 0) ;;
        r ← inmem (match_ pattern p);
        (if bool_decide (r ≠ 0) then inmem (st q 10) ;; write p (q + 1 - p) else mret tt) ;;
        grep_lines fuel pattern (q + 1)
      else mret p
  end.

Fixpoint grep_loop (fuel : nat) (buf pattern m : Z) : M gst unit :=
  match fuel with
  | O => hang
  | S fuel =>
      n ← read (buf + m) (BUFSIZE - m - 1);
      if bool_decide (n > 0) then
        let m := m + n in
        inmem (st (buf + m) 0) ;;
        p ← grep_lines (Z.to_nat BUFSIZE) pattern buf;
        (if bool_decide (m > 0) then
           let m := m - (p - buf) in
           inmem (memmove buf p m) ;; grep_loop fuel buf pattern m
         else grep_loop fuel buf pattern m)
      else mret tt
  end.
(** Every round reads a byte. *)
Definition grep (buf pattern : Z) : M gst unit := λ s,
  grep_loop (S (length s.(g_in))) buf pattern 0 s.

(** ** What it prints *)

(** The lines of [ls] that match, each with its newline. *)
Inductive printed (r : list Z) : list (list Z) → list Z → Prop :=
  | printed_nil : printed r [] []
  | printed_yes l ls o : accepts r l → printed r ls o → printed r (l :: ls) (l ++ [10] ++ o)
  | printed_no l ls o : ¬ accepts r l → printed r ls o → printed r (l :: ls) o.

Definition join (ls : list (list Z)) : list Z := ls ≫= (λ l, l ++ [10]).
(** A line the buffer can hold, without a newline or a NUL. *)
Definition line_ok (l : list Z) : Prop := Forall (λ c, c ≠ 0 ∧ c ≠ 10) l ∧ Z.of_nat (length l) < BUFSIZE - 1.

Lemma printed_app r ls1 ls2 o1 o2 : printed r ls1 o1 → printed r ls2 o2 → printed r (ls1 ++ ls2) (o1 ++ o2).
Proof.
  intros H1 H2. induction H1; simpl; [done| |by constructor].
  rewrite <-app_assoc. by apply (printed_yes r l (ls ++ ls2)).
Qed.

(** A prefix of the input ends inside a line. *)
Lemma split_lines ls last t rem :
  Forall line_ok ls → line_ok last → t ++ rem = join ls ++ last →
  ∃ done rest part, ls = done ++ rest ∧ t = join done ++ part ∧ part ++ rem = join rest ++ last ∧
    Forall (λ c, c ≠ 0 ∧ c ≠ 10) part ∧ Z.of_nat (length part) < BUFSIZE - 1.
Proof.
  intros Hls Hlast. revert t. induction Hls as [|l ls Hl Hls IH]; intros t Ht; simpl in Ht.
  - exists [], [], t. split_and!; try done.
    + destruct Hlast as [H _]. rewrite <-Ht in H. by apply Forall_app in H as [H _].
    + destruct Hlast as [_ H]. apply (f_equal length) in Ht. rewrite length_app in Ht. lia.
  - destruct (decide (length t ≤ length l)%nat) as [Hle|Hgt].
    + exists [], (l :: ls), t. destruct Hl as [Hl1 Hl2].
      assert (Hp : t = take (length t) l).
      { rewrite <-!app_assoc in Ht. apply (f_equal (take (length t))) in Ht.
        rewrite take_app_length, take_app_le in Ht by lia. done. }
      split_and!; try done; [|lia].
      rewrite Hp. by apply Forall_take.
    + assert (Hp : t = l ++ [10] ++ drop (length l + 1) t).
      { rewrite <-!app_assoc in Ht. simpl in Ht.
        rewrite <-(take_drop (length l + 1) t) at 1. rewrite app_assoc. f_equal.
        apply (f_equal (take (length l + 1))) in Ht. rewrite take_app_le in Ht by lia.
        rewrite Ht. rewrite take_app_ge by lia. f_equal.
        replace (length l + 1 - length l)%nat with 1%nat by lia. done. }
      destruct (IH (drop (length l + 1) t)) as (dn & rest & part & -> & Ht' & H3 & H4 & H5).
      { rewrite Hp, <-!app_assoc in Ht. apply app_inv_head in Ht. by injection Ht. }
      exists (l :: dn), rest, part. split_and!; try done. rewrite Hp at 1. rewrite Ht'.
      simpl. by rewrite <-!app_assoc.
Qed.

Lemma strchr_loop_ok fuel m s c l t :
  str_at m s (l ++ t) → c ∉ l → c ≠ 0 → head t = Some c ∨ t = [] → (length (l ++ t) < fuel)%nat →
  strchr_loop fuel s c m = Ok ((if decide (t = []) then 0 else s + Z.of_nat (length l)), m).
Proof.
  intros Hs Hc Hc0 Ht. revert s Hs. induction l as [|x l IH] in fuel, Hc |- *; intros s Hs Hf; (destruct fuel as [|fuel]; [simpl in Hf; lia|]).
  - simpl in Hs. simpl. destruct t as [|y t].
    + apply str_nil in Hs. rewrite (bind_Ok_eq _ _ _ _ _ (ld_ok _ _ _ Hs)). by rewrite bool_decide_true.
    + destruct Ht as [[= ->]|]; [|done]. apply str_cons in Hs as (Hx & _ & _).
      rewrite (bind_Ok_eq _ _ _ _ _ (ld_ok _ _ _ Hx)). rewrite bool_decide_false, bool_decide_true by done.
      rewrite decide_False by done. unfold mret, M_ret. do 2 f_equal. lia.
  - cbn [app] in Hs. apply str_cons in Hs as (Hx & Hx0 & Hs). cbn [strchr_loop].
    rewrite (bind_Ok_eq _ _ _ _ _ (ld_ok _ _ _ Hx)). rewrite !bool_decide_false by set_solver.
    rewrite (IH fuel) by (set_solver || done || (simpl in Hf; lia)). case_decide; [done|].
    do 2 f_equal. simpl. lia.
Qed.

Lemma strchr_ok m s c l t :
  str_at m s (l ++ t) → c ∉ l → c ≠ 0 → head t = Some c ∨ t = [] →
  strchr s c m = Ok ((if decide (t = []) then 0 else s + Z.of_nat (length l)), m).
Proof. intros Hs Hc Hc0 Ht. eapply strchr_loop_ok; try done. apply str_length_size in Hs. lia. Qed.

(** ** The loops *)

Lemma inmem_ok {A} (c : M mem A) s a m :
  c s.(g_mem) = Ok (a, m) → inmem c s = Ok (a, Gst m s.(g_in) s.(g_take) s.(g_out)).
Proof. unfold inmem. by intros ->. Qed.

Section run.
Context (buf pattern : Z) (r : list Z).
Hypothesis Hbuf : 0 < buf.
(** The pattern lies outside the buffer. *)
Hypothesis Hpat : pattern + Z.of_nat (length r) < buf ∨ buf + BUFSIZE ≤ pattern.

(** What stays true of memory. *)
Definition ready (m : mem) : Prop := str_at m pattern r ∧ mapped m buf BUFSIZE.

Lemma ready_frame m m' :
  ready m → (∀ x, x < buf ∨ buf + BUFSIZE ≤ x → m' !! x = m !! x) → mapped m' buf BUFSIZE → ready m'.
Proof. intros [H1 H2] Hf Hm. split; [|done]. eapply str_at_frame; [done|]. intros x Hx. apply Hf. lia. Qed.

Lemma ready_insert m x v : ready m → buf ≤ x < buf + BUFSIZE → ready (<[x := v]> m).
Proof.
  intros H Hx. eapply ready_frame; [done| |by apply mapped_insert, H].
  intros y Hy. apply lookup_insert_ne. lia.
Qed.

Lemma str_at_ready m p t x : str_at m p t → x ∉ seqZ p (Z.of_nat (length t) + 1) → str_at (<[x := 0]> m) p t.
Proof.
  intros H Hx. eapply str_at_frame; [done|]. intros y Hy. apply lookup_insert_ne. intros ->.
  apply Hx, elem_of_seqZ. lia.
Qed.

(** The end of a line becomes a NUL. *)
Lemma str_cut m p l c t : str_at m p (l ++ c :: t) → str_at (<[p + Z.of_nat (length l) := 0]> m) p l.
Proof.
  intros [H1 H2]. split; [intros x Hx; apply H1; set_solver|]. intros i Hi. rewrite length_app in Hi. simpl in Hi.
  destruct (decide (i = length l)) as [->|Hne].
  - rewrite lookup_insert_eq. rewrite lookup_app_r, Nat.sub_diag by done. done.
  - rewrite lookup_insert_ne by lia. rewrite H2 by (rewrite !length_app; simpl; lia).
    rewrite !lookup_app_l by (rewrite ?length_app; simpl; lia). done.
Qed.

Lemma str_tail m p l c t : str_at m p (l ++ c :: t) → str_at m (p + Z.of_nat (length l) + 1) t.
Proof.
  revert p. induction l as [|x l IH]; intros p H; cbn [app length] in *.
  - apply str_cons in H as (_ & _ & H). by rewrite Z.add_0_r.
  - apply str_cons in H as (_ & _ & H). apply IH in H.
    by replace (p + Z.of_nat (S (length l)) + 1) with (p + 1 + Z.of_nat (length l) + 1) by lia.
Qed.

Lemma str_bytes m p l t : str_at m p (l ++ t) → bytes_at m p l.
Proof.
  intros [_ H] i Hi. rewrite H by (rewrite !length_app; lia). by rewrite !lookup_app_l by (rewrite ?length_app; lia).
Qed.

Lemma bytes_app m p l t : bytes_at m p l → bytes_at m (p + Z.of_nat (length l)) t → bytes_at m p (l ++ t).
Proof.
  intros H1 H2 i Hi. destruct (decide (i < length l)%nat).
  - rewrite lookup_app_l by done. by apply H1.
  - rewrite lookup_app_r by lia. rewrite <-H2 by (rewrite length_app in Hi; lia). f_equal. lia.
Qed.

Lemma grep_lines_ok fuel m inp tk out p done part :
  ready m → str_at m p (join done ++ part) → Forall (λ c, c ≠ 0 ∧ c ≠ 10) part →
  Forall (λ l, Forall (λ c, c ≠ 0 ∧ c ≠ 10) l) done →
  buf ≤ p → p + Z.of_nat (length (join done ++ part)) < buf + BUFSIZE → (length done < fuel)%nat →
  ∃ m' o, grep_lines fuel pattern p (Gst m inp tk out) =
      Ok (p + Z.of_nat (length (join done)), Gst m' inp tk (out ++ o)) ∧
    ready m' ∧ str_at m' (p + Z.of_nat (length (join done))) part ∧ printed r done o.
Proof.
  intros Hr Hs Hpart. revert m p out fuel Hr Hs. induction done as [|l done IH]; intros m p out fuel Hr Hs Hd Hp Hpe Hf;
    (destruct fuel as [|fuel]; [simpl in Hf; lia|]); cbn [grep_lines].
  - simpl in Hs. assert (E : strchr p 10 m = Ok (0, m)).
    { rewrite (strchr_ok m p 10 part []); [by rewrite decide_True|by rewrite app_nil_r| |done|by right].
      intros H. rewrite Forall_forall in Hpart. by apply Hpart in H as [_ H]. }
    rewrite (bind_Ok_eq _ _ _ _ _ (inmem_ok _ (Gst m inp tk out) _ _ E)). rewrite bool_decide_false by tauto.
    simpl. rewrite Z.add_0_r. exists m, []. rewrite app_nil_r. split_and!; try done. constructor.
  - apply Forall_cons in Hd as [Hl Hd]. simpl in Hs. rewrite <-!app_assoc in Hs. cbn [app] in Hs.
    set (q := p + Z.of_nat (length l)).
    assert (Hpe' : q + 1 + Z.of_nat (length (join done ++ part)) < buf + BUFSIZE).
    { cbn [join mbind list_bind] in Hpe. fold (join done) in Hpe. rewrite !length_app in Hpe. simpl in Hpe.
      rewrite length_app. unfold q. lia. }
    assert (E : strchr p 10 m = Ok (q, m)).
    { rewrite (strchr_ok m p 10 l _ Hs); [by rewrite decide_False| |done|by left].
      intros H. rewrite Forall_forall in Hl. by apply Hl in H as [_ H]. }
    rewrite (bind_Ok_eq _ _ _ _ _ (inmem_ok _ (Gst m inp tk out) _ _ E)). rewrite bool_decide_true by (unfold q; lia).
    cbn [g_in g_take g_out]. assert (Hq : buf ≤ q < buf + BUFSIZE) by (unfold q; lia).
    set (m1 := <[q := 0]> m).
    assert (E1 : st q 0 m = Ok (tt, m1)) by (apply st_ok; eapply mapped_at; [apply Hr|lia]).
    rewrite (bind_Ok_eq _ _ _ _ _ (inmem_ok _ (Gst m inp tk out) _ _ E1)). cbn [g_in g_take g_out].
    assert (Hr1 : ready m1) by (by apply ready_insert).
    assert (Hl1 : str_at m1 p l) by (by eapply str_cut).
    assert (Ht1 : str_at m1 (q + 1) (join done ++ part)).
    { eapply str_at_frame; [eapply str_tail, Hs|]. intros x Hx. apply lookup_insert_ne. unfold q in *. lia. }
    destruct (match_ok m1 pattern p r l) as (b & E2 & Hb); [apply Hr1|done|].
    rewrite (bind_Ok_eq _ _ _ _ _ (inmem_ok _ (Gst m1 inp tk out) _ _ E2)). cbn [g_in g_take g_out].
    destruct b.
    + rewrite bool_decide_true by done. set (m2 := <[q := 10]> m1).
      assert (E3 : st q 10 m1 = Ok (tt, m2)) by (apply st_ok; eapply mapped_at; [apply Hr1|lia]).
      assert (Hr2 : ready m2) by (by apply ready_insert).
      assert (Ht2 : str_at m2 (q + 1) (join done ++ part)).
      { eapply str_at_frame; [exact Ht1|]. intros x Hx. apply lookup_insert_ne. lia. }
      assert (Hb2 : bytes_at m2 p (l ++ [10])).
      { apply bytes_app.
        - intros i Hi. unfold m2. rewrite lookup_insert_ne by (unfold q; lia). assert (H1 : bytes_at m1 p l) by (eapply (str_bytes m1 p l []); by rewrite app_nil_r). by apply H1.
        - intros i Hi. destruct i; [|simpl in Hi; lia]. rewrite Z.add_0_r. apply lookup_insert_eq. }
      assert (E4 : write p (q + 1 - p) (Gst m2 inp tk out) = Ok (tt, Gst m2 inp tk (out ++ l ++ [10]))).
      { unfold write. rewrite (bind_Ok_eq _ _ _ _ _ (inmem_ok _ (Gst m2 inp tk out) _ _ (ldn_ok (Z.to_nat (q + 1 - p)) m2 p (l ++ [10]) Hb2 ltac:(rewrite length_app; simpl; unfold q; lia)))). done. }
      destruct (IH m2 (q + 1) (out ++ l ++ [10]) fuel) as (m' & o & E5 & H1 & H2 & H3); try done; [lia|simpl in Hf; lia|].
      exists m', (l ++ [10] ++ o). split_and!; [|done| |apply printed_yes; [by apply Hb|done]].
      * unfold mbind at 1, M_bind at 1. unfold mbind at 1, M_bind at 1. rewrite (inmem_ok _ (Gst m1 inp tk out) _ _ E3). cbn [g_in g_take g_out].
        rewrite E4. rewrite E5. rewrite <-!app_assoc. do 2 f_equal.
        unfold q. cbn [join mbind list_bind]. fold (join done). rewrite !length_app. simpl. lia.
      * unfold q in H2. cbn [join mbind list_bind]. fold (join done). rewrite !length_app. simpl.
        by replace (p + Z.of_nat (length l + 1 + length (join done))) with (p + Z.of_nat (length l) + 1 + Z.of_nat (length (join done))) by lia.
    + rewrite bool_decide_false by tauto.
      destruct (IH m1 (q + 1) out fuel) as (m' & o & E5 & H1 & H2 & H3); try done; [lia|simpl in Hf; lia|].
      exists m', o. split_and!; [|done| |].
      * unfold mbind at 1, M_bind at 1. cbn. rewrite E5. do 2 f_equal.
        unfold q. cbn [join mbind list_bind]. fold (join done). rewrite !length_app. simpl. lia.
      * unfold q in H2. cbn [join mbind list_bind]. fold (join done). rewrite !length_app. simpl.
        by replace (p + Z.of_nat (length l + 1 + length (join done))) with (p + Z.of_nat (length l) + 1 + Z.of_nat (length (join done))) by lia.
      * constructor; [|done]. intros H. by apply Hb in H.
Qed.

Lemma length_join_ge ls : (length ls ≤ length (join ls))%nat.
Proof.
  induction ls as [|l ls IH]; [done|]. cbn [join mbind list_bind]. fold (join ls). rewrite !length_app. simpl. lia.
Qed.

Lemma join_app l1 l2 : join (l1 ++ l2) = join l1 ++ join l2.
Proof. unfold join. by rewrite bind_app. Qed.

(** [read] into room that exists. *)
Lemma read_ok m inp tk out a n :
  mapped m a n → 0 ≤ n →
  ∃ k m', read a n (Gst m inp tk out) = Ok (Z.of_nat (length (take k inp)), Gst m' (drop k inp) (tl tk) out) ∧
    (k ≤ Z.to_nat n)%nat ∧ (0 < n → (0 < k)%nat) ∧ bytes_at m' a (take k inp) ∧
    (∀ x, x < a ∨ a + n ≤ x → m' !! x = m !! x) ∧ (∀ x, x < a → m' !! x = m !! x) ∧ (∀ x, is_Some (m !! x) → is_Some (m' !! x)).
Proof.
  intros Hm Hn. unfold read. cbn [g_in g_take g_mem g_out]. set (k := (Z.to_nat n `min` S (hd 0%nat tk))%nat). exists k.
  assert (Hlen : (length (take k inp) ≤ Z.to_nat n)%nat) by (rewrite length_take; unfold k; lia).
  destruct (stn_ok m a (take k inp)) as (m' & E & Hb & Hf); [eapply mapped_shrink; [exact Hm|lia..]|].
  exists m'. rewrite E. split_and!; [done|unfold k; lia|unfold k; lia|done|intros x Hx; apply Hf; lia|intros x Hx; apply Hf; lia|].
  intros x Hx. destruct (decide (a ≤ x < a + Z.of_nat (length (take k inp)))) as [Hin|Hout]; [|by rewrite Hf by lia].
  replace x with (a + Z.of_nat (Z.to_nat (x - a))) by lia. rewrite Hb by lia. apply lookup_lt_is_Some. lia.
Qed.

(** The state between two reads: [part], the beginning of a line, is in the
    buffer; with the input that is left it makes up the lines [ls] and [last]. *)
Lemma grep_loop_ok fuel m part inp tk out ls last :
  ready m → bytes_at m buf part → part ++ inp = join ls ++ last →
  Forall line_ok ls → line_ok last → Forall (λ c, c ≠ 0 ∧ c ≠ 10) part →
  Z.of_nat (length part) < BUFSIZE - 1 → (length inp < fuel)%nat →
  ∃ m' tk' o, grep_loop fuel buf pattern (Z.of_nat (length part)) (Gst m inp tk out) =
      Ok (tt, Gst m' [] tk' (out ++ o)) ∧ printed r ls o.
Proof.
  revert m part inp tk out ls. induction fuel as [|fuel IH]; intros m part inp tk out ls Hr Hpart Heq Hls Hlast Hpok Hlen Hf; [lia|].
  cbn [grep_loop]. set (mm := Z.of_nat (length part)) in *. unfold BUFSIZE in Hlen.
  destruct (read_ok m inp tk out (buf + mm) (BUFSIZE - mm - 1)) as (k & m1 & E1 & Hk1 & Hk2 & Hb1 & Hf1 & Hf1' & Hs1).
  { eapply mapped_shrink; [apply Hr|unfold BUFSIZE; lia..]. } { unfold BUFSIZE. lia. }
  rewrite (bind_Ok_eq _ _ _ _ _ E1). destruct (decide (inp = [])) as [->|Hne].
  - rewrite take_nil, drop_nil, bool_decide_false by (simpl; lia).
    exists m1, (tl tk), []. rewrite app_nil_r. split; [done|].
    rewrite app_nil_r in Heq. destruct ls as [|l ls]; [constructor|]. exfalso. subst part.
    cbn [join mbind list_bind] in Hpok. fold (join ls) in Hpok. rewrite !Forall_app in Hpok.
    destruct Hpok as [[[_ H] _] _]. apply Forall_inv in H as [_ H]. done.
  - set (got := take k inp) in *. assert (Hgot : (0 < length got)%nat).
    { unfold got. rewrite length_take. destruct inp; [done|]. simpl. unfold BUFSIZE in Hk2. specialize (Hk2 ltac:(lia)). lia. }
    rewrite bool_decide_true by lia. cbv zeta.
    set (t := part ++ got). assert (Ht : mm + Z.of_nat (length got) = Z.of_nat (length t)) by (unfold t, mm; rewrite length_app; lia).
    rewrite Ht. assert (Htl : Z.of_nat (length t) ≤ BUFSIZE - 1).
    { rewrite <-Ht. unfold got. rewrite length_take. unfold BUFSIZE in *; lia. }
    assert (Hr1 : ready m1).
    { eapply ready_frame; [exact Hr| |eapply mapped_frame; [apply Hr|done]]. intros x Hx. apply Hf1. lia. }
    set (m2 := <[buf + Z.of_nat (length t) := 0]> m1).
    assert (E2 : st (buf + Z.of_nat (length t)) 0 m1 = Ok (tt, m2)) by (apply st_ok; eapply mapped_at; [apply Hr1|lia]).
    rewrite (bind_Ok_eq _ _ _ _ _ (inmem_ok _ (Gst m1 (drop k inp) (tl tk) out) _ _ E2)). cbn [g_in g_take g_out].
    assert (Hr2 : ready m2) by (apply ready_insert; [done|lia]).
    destruct (split_lines ls last t (drop k inp)) as (dn & rest & part' & -> & Ht2 & Hrest & Hp1 & Hp2); [done|done| |].
    { rewrite <-Heq. unfold t, got. by rewrite <-app_assoc, take_drop. }
    apply Forall_app in Hls as [Hdn Hls]. assert (Hdn' : Forall (λ l, Forall (λ c, c ≠ 0 ∧ c ≠ 10) l) dn).
    { eapply Forall_impl; [exact Hdn|]. by intros l [? _]. }
    assert (Hst : str_at m2 buf (join dn ++ part')).
    { rewrite <-Ht2. split.
      - intros c Hc. assert (Hall : c ∈ join (dn ++ rest) ++ last).
        { rewrite <-Heq. unfold t, got in Hc. apply elem_of_app in Hc as [Hc|Hc]; [set_solver|].
          apply elem_of_app. right. by eapply elem_of_take in Hc as (? & Hc & _); eapply list_elem_of_lookup_2. }
        apply elem_of_app in Hall as [Hj|Hl].
        + unfold join in Hj. apply list_elem_of_bind in Hj as (l & Hcl & Hl). apply elem_of_app in Hcl as [Hcl|Hcl]; [|set_solver].
          assert (Hlo : line_ok l). { rewrite Forall_forall in Hdn, Hls. set_solver. }
          destruct Hlo as [Hlo _]. rewrite Forall_forall in Hlo. by apply Hlo in Hcl as [? _].
        + destruct Hlast as [Hlo _]. rewrite Forall_forall in Hlo. by apply Hlo in Hl as [? _].
      - apply bytes_app.
        + apply bytes_app; intros i Hi.
          * unfold m2. rewrite lookup_insert_ne by (unfold t; rewrite length_app; lia). rewrite Hf1' by (unfold mm; lia). by apply Hpart.
          * unfold m2. rewrite lookup_insert_ne by (unfold t; rewrite length_app; lia). by apply Hb1.
        + intros i Hi. destruct i; [|simpl in Hi; lia]. rewrite Z.add_0_r. apply lookup_insert_eq. }
    destruct (grep_lines_ok (Z.to_nat BUFSIZE) m2 (drop k inp) (tl tk) out buf dn part') as (m3 & o & E3 & Hr3 & Hs3 & Hpr); try done.
    { rewrite <-Ht2. lia. }
    { pose proof (length_join_ge dn). rewrite Ht2, length_app in Htl. lia. }
    rewrite (bind_Ok_eq _ _ _ _ _ E3). rewrite bool_decide_true by (rewrite <-Ht; lia).
    set (p := buf + Z.of_nat (length (join dn))). replace (Z.of_nat (length t) - (p - buf)) with (Z.of_nat (length part')).
    2:{ rewrite Ht2, length_app. unfold p. lia. }
    assert (Hpl : Z.of_nat (length (join dn)) + Z.of_nat (length part') ≤ BUFSIZE - 1) by (rewrite Ht2, length_app in Htl; lia).
    destruct (umemmove_ok m3 buf p (Z.of_nat (length part'))) as (m4 & E4 & Hc4).
    { lia. } { eapply mapped_shrink; [apply Hr3|lia..]. } { eapply mapped_shrink; [apply Hr3|unfold p; lia..]. }
    rewrite (bind_Ok_eq _ _ _ _ _ (inmem_ok _ (Gst m3 (drop k inp) (tl tk) (out ++ o)) _ _ E4)). cbn [g_in g_take g_out].
    assert (Hb3 : bytes_at m3 p part') by (eapply (str_bytes m3 p part' []); rewrite app_nil_r; exact Hs3).
    destruct (IH m4 part' (drop k inp) (tl tk) (out ++ o) rest) as (m5 & tk' & o' & E5 & Hpr'); try done.
    + eapply ready_frame; [exact Hr3| |].
      * intros x Hx. rewrite Hc4. apply decide_False. lia.
      * eapply mapped_frame; [apply Hr3|]. intros x Hx. rewrite Hc4. case_decide as Hin; [|done].
        eapply (mapped_at m3 buf BUFSIZE); [apply Hr3|unfold p; lia].
    + intros i Hi. rewrite Hc4. rewrite decide_True by lia. rewrite <-Hb3 by done. f_equal. lia.
    + rewrite length_drop. unfold got in Hgot. rewrite length_take in Hgot. lia.
    + exists m5, tk', (o ++ o'). rewrite E5. split; [by rewrite app_assoc|]. by apply printed_app.
Qed.
End run.

(** C25: grep prints exactly the lines that match, in order, whatever the sizes
    of the pieces in which the input arrives.  Input made of lines of at most
    1022 bytes (without NUL) is consumed to its end; the output is the lines
    that the pattern accepts.  What follows the last newline is never searched.
    The fuel, one round per byte of input, is enough. *)
Theorem grep_prints_matches buf pattern r m ls last tk out :
  0 < buf → pattern + Z.of_nat (length r) < buf ∨ buf + BUFSIZE ≤ pattern →
  str_at m pattern r → mapped m buf BUFSIZE → Forall line_ok ls → line_ok last →
  ∃ m' tk' o, grep buf pattern (Gst m (join ls ++ last) tk out) = Ok (tt, Gst m' [] tk' (out ++ o)) ∧ printed r ls o.
Proof.
  intros Hb Hp Hs Hm Hls Hlast. unfold grep. cbn [g_in].
  apply (grep_loop_ok buf pattern r Hb Hp _ m [] _ _ _ ls last); try done; [|simpl; lia].
  intros i Hi. simpl in Hi. lia.
Qed.

(** The pattern "b" at 2000, the buffer at 100; the input "ab\nc\nb" arrives two
    bytes at a time. *)
Definition demo_gmem : mem :=
  <[2000 := 98]> (<[2001 := 0]> (list_to_map ((λ i, (100 + Z.of_nat i, 1)) <$> seq 0 1024))).

Lemma grep_prints_matches_witness :
  ∃ m' tk', grep 100 2000 (Gst demo_gmem [97; 98; 10; 99; 10; 98] [1%nat; 1%nat; 1%nat] []) = Ok (tt, Gst m' [] tk' [97; 98; 10]).
Proof.
  destruct (grep_prints_matches 100 2000 [98] demo_gmem [[97; 98]; [99]] [98] [1%nat; 1%nat; 1%nat] [])
    as (m' & tk' & o & E & _).
  - lia.
  - right. unfold BUFSIZE. lia.
  - apply str_at_dec. vm_compute. reflexivity.
  - apply mapped_dec. vm_compute. reflexivity.
  - repeat (constructor; try lia).
  - repeat (constructor; try lia).
  - exists m', tk'. assert (Ho : (match grep 100 2000 (Gst demo_gmem [97; 98; 10; 99; 10; 98] [1%nat; 1%nat; 1%nat] []) with
      | Ok (_, s) => s.(g_out) | _ => [] end) = [97; 98; 10]) by (vm_compute; reflexivity).
    cbn [join mbind list_bind app] in E. rewrite E in Ho. cbn [g_out app] in Ho. subst o. exact E.
Defined.
