(* ===== verification/Sleeplock.v ===== *)
(** * Sleep locks: kernel/sleeplock.c

    A component whose state holds sleep locks gives an instance of [SleepEnv]
    and uses the functions of the code, which run one process at a time: a
    process that finds the lock taken sleeps, and while nobody else runs it
    never returns ([Hang]).  The second half is the race of any number of
    processes on one lock: each round of the [while] of [acquiresleep] and each
    [releasesleep] is one step, because the code holds the spin lock [lk->lk]
    during it and [sleep] gives it up and goes to sleep at once. *)
From S2P Require Import Prelude Spinlock.

Record sleeplock := mksleep { sl_locked : Z; sl_lk : spinlock; sl_name : string; sl_pid : Z }.

Definition initsleeplock (name : string) : sleeplock := mksleep 0 (initlock "sleep lock") name 0.

(** [lk->locked = 1; lk->pid = myproc()->pid] and [lk->locked = 0; lk->pid = 0] *)
Definition take_sl (pid : Z) (lk : sleeplock) : sleeplock := mksleep 1 (sl_lk lk) (sl_name lk) pid.
Definition drop_sl (lk : sleeplock) : sleeplock := mksleep 0 (sl_lk lk) (sl_name lk) 0.
(** [lk->locked && (lk->pid == myproc()->pid)] *)
Definition holds (pid : Z) (lk : sleeplock) : bool :=
  bool_decide (sl_locked lk ≠ 0) && bool_decide (sl_pid lk = pid).

(** ** Sleep locks inside a component's state *)

Class SleepEnv (S L : Type) := {
  se_hart : S → hart;
  se_set_hart : hart → S → S;
  se_get : L → S → sleeplock;
  se_set : L → sleeplock → S → S;
  se_pid : S → Z;           (** [myproc()->pid] *)
  se_wakeup : L → S → S }.  (** [wakeup(lk)] *)

#[export] Instance sleep_locks {S L : Type} `{E : !SleepEnv S L} : HasLocks S L := {
  get_hart := se_hart;
  set_hart := se_set_hart;
  get_lock l s := sl_lk (se_get l s);
  set_lock l k s := let lk := se_get l s in
    se_set l (mksleep (sl_locked lk) k (sl_name lk) (sl_pid lk)) s }.

Section sleeplock_c.
Context {S L : Type} `{E : !SleepEnv S L}.

Definition acquiresleep (l : L) : M S unit :=
  acquireM l ;;
  lk ← gets (se_get l);
  if bool_decide (sl_locked lk ≠ 0) then hang
  else
    modify (λ s, se_set l (take_sl (se_pid s) (se_get l s)) s) ;;
    releaseM l.

Definition releasesleep (l : L) : M S unit :=
  acquireM l ;;
  modify (λ s, se_set l (drop_sl (se_get l s)) s) ;;
  modify (se_wakeup l) ;;
  releaseM l.

Definition holdingsleep (l : L) : M S bool :=
  acquireM l ;;
  r ← gets (λ s, holds (se_pid s) (se_get l s));
  releaseM l ;; mret r.
End sleeplock_c.

(** ** Locks that are free when nobody is inside *)

(** A hart for which a matched [push_off] and [pop_off] change nothing. *)
Definition hart_good (h : hart) : Prop := hart_ok h ∧ settle h = h.

Lemma hart_good_push h : hart_good h → hart_good (push_off h).
Proof.
  intros [Hh _]. split; [by apply push_off_ok|]. unfold settle, push_off. simpl. destruct Hh as [Hh _].
  by rewrite bool_decide_false by lia.
Qed.

(** A spin lock as [release] leaves it. *)
Definition lock_quiet (lk : spinlock) : Prop := freed lk = lk.

Lemma acquire_quiet lk h : lock_quiet lk → acquire lk h = Ok (held_by (hartid h) lk, push_off h).
Proof. intros H. apply acquire_ok. unfold lock_free. by rewrite <-H. Qed.
Lemma release_quiet lk h : lock_quiet lk → hart_good h → release (held_by (hartid h) lk) (push_off h) = Ok (lk, h).
Proof. intros Hl [Hh Hs]. rewrite release_ok by done. by rewrite Hs, Hl. Qed.

(** Equations of the state that the proofs about locks use. *)
Class SleepLaws (S L : Type) {E : SleepEnv S L} := {
  sl_valid : L → S → Prop;  (** the lock exists *)
  sl_valid_wake l s : sl_valid l s → sl_valid l (se_wakeup l s);
  sl_get_set l lk s : sl_valid l s → se_get l (se_set l lk s) = lk;
  sl_set_set l lk lk' s : se_set l lk (se_set l lk' s) = se_set l lk s;
  sl_set_get l s : se_set l (se_get l s) s = s;
  sl_hart_set l lk s : se_hart (se_set l lk s) = se_hart s;
  sl_hart_hart h s : se_hart (se_set_hart h s) = h;
  sl_sethart2 h h' s : se_set_hart h (se_set_hart h' s) = se_set_hart h s;
  sl_sethart_get s : se_set_hart (se_hart s) s = s;
  sl_get_hart l h s : se_get l (se_set_hart h s) = se_get l s;
  sl_set_hart_comm l lk h s : se_set l lk (se_set_hart h s) = se_set_hart h (se_set l lk s);
  sl_pid_set l lk s : se_pid (se_set l lk s) = se_pid s;
  sl_pid_hart h s : se_pid (se_set_hart h s) = se_pid s;
  sl_wake_hart l s : se_hart (se_wakeup l s) = se_hart s;
  sl_wake_get l s : se_get l (se_wakeup l s) = se_get l s;
  sl_wake_set l lk h s : se_wakeup l (se_set_hart h (se_set l lk s)) = se_set_hart h (se_set l lk (se_wakeup l s)) }.

Section laws.
Context {S L : Type} `{E : !SleepEnv S L} `{!SleepLaws S L}.

Lemma lock_round l s :
  lock_quiet (sl_lk (se_get l s)) →
  acquireM l s = Ok (tt, se_set_hart (push_off (se_hart s))
    (se_set l (mksleep (sl_locked (se_get l s)) (held_by (hartid (se_hart s)) (sl_lk (se_get l s))) (sl_name (se_get l s)) (sl_pid (se_get l s))) s)).
Proof. intros H. unfold acquireM. cbn. by rewrite acquire_quiet. Qed.

Lemma unlock_round l s lk k h :
  sl_valid l s → lock_quiet k → hart_good h → sl_lk lk = held_by (hartid h) k →
  releaseM l (se_set_hart (push_off h) (se_set l lk s)) =
  Ok (tt, se_set_hart h (se_set l (mksleep (sl_locked lk) k (sl_name lk) (sl_pid lk)) s)).
Proof.
  intros Hv Hk Hh Hlk. unfold releaseM. cbn. rewrite sl_get_hart, (sl_get_set _ _ _ Hv), sl_hart_hart, Hlk, release_quiet by done. simpl.
  do 2 f_equal. by rewrite sl_set_hart_comm, sl_sethart2, sl_set_set.
Qed.

Lemma acquiresleep_ok l s :
  sl_valid l s → lock_quiet (sl_lk (se_get l s)) → hart_good (se_hart s) → sl_locked (se_get l s) = 0 →
  acquiresleep l s = Ok (tt, se_set l (take_sl (se_pid s) (se_get l s)) s).
Proof.
  intros Hv Hq Hh H0. unfold acquiresleep. rewrite (bind_Ok_eq _ _ _ _ _ (lock_round l s Hq)). mstep.
  rewrite sl_get_hart, (sl_get_set _ _ _ Hv). cbn. rewrite H0, (bool_decide_false (0 ≠ 0)) by tauto. cbv beta.
  rewrite ?sl_get_hart, ?(sl_get_set _ _ _ Hv), sl_pid_hart, sl_pid_set, sl_set_hart_comm, sl_set_set.
  pose proof (unlock_round l s (mksleep 1 (held_by (hartid (se_hart s)) (sl_lk (se_get l s))) (sl_name (se_get l s)) (se_pid s)) _ _ Hv Hq Hh eq_refl) as R.
  etrans; [exact R|]. by rewrite <-sl_set_hart_comm, sl_sethart_get.
Qed.

Lemma acquiresleep_taken l s :
  sl_valid l s → lock_quiet (sl_lk (se_get l s)) → sl_locked (se_get l s) ≠ 0 → acquiresleep l s = Hang.
Proof.
  intros Hv Hq H0. unfold acquiresleep. rewrite (bind_Ok_eq _ _ _ _ _ (lock_round l s Hq)). mstep.
  rewrite sl_get_hart, (sl_get_set _ _ _ Hv). cbn. by rewrite bool_decide_true.
Qed.

Lemma releasesleep_ok l s :
  sl_valid l s → lock_quiet (sl_lk (se_get l s)) → hart_good (se_hart s) →
  releasesleep l s = Ok (tt, se_set l (drop_sl (se_get l s)) (se_wakeup l s)).
Proof.
  intros Hv Hq Hh. unfold releasesleep. rewrite (bind_Ok_eq _ _ _ _ _ (lock_round l s Hq)). mstep.
  rewrite sl_get_hart, (sl_get_set _ _ _ Hv), sl_set_hart_comm, sl_set_set, sl_wake_set.
  pose proof (unlock_round l (se_wakeup l s) (mksleep 0 (held_by (hartid (se_hart s)) (sl_lk (se_get l s))) (sl_name (se_get l s)) 0) _ _ (sl_valid_wake _ _ Hv) Hq Hh eq_refl) as R.
  etrans; [exact R|]. by rewrite <-sl_set_hart_comm, <-(sl_wake_hart l s), sl_sethart_get.
Qed.

Lemma holdingsleep_ok l s :
  sl_valid l s → lock_quiet (sl_lk (se_get l s)) → hart_good (se_hart s) →
  holdingsleep l s = Ok (holds (se_pid s) (se_get l s), s).
Proof.
  intros Hv Hq Hh. unfold holdingsleep. rewrite (bind_Ok_eq _ _ _ _ _ (lock_round l s Hq)). mstep.
  rewrite sl_pid_hart, sl_pid_set, sl_get_hart, (sl_get_set _ _ _ Hv).
  pose proof (unlock_round l s (mksleep (sl_locked (se_get l s)) (held_by (hartid (se_hart s)) (sl_lk (se_get l s))) (sl_name (se_get l s)) (sl_pid (se_get l s))) _ _ Hv Hq Hh eq_refl) as R.
  rewrite R. f_equal. f_equal.
  assert (Hid : mksleep (sl_locked (se_get l s)) (sl_lk (se_get l s)) (sl_name (se_get l s)) (sl_pid (se_get l s)) = se_get l s) by (by destruct (se_get l s)).
  cbn [sl_locked sl_name sl_pid sl_lk]. by rewrite Hid, sl_set_get, sl_sethart_get.
Qed.
End laws.

(** ** The race of processes on one sleep lock *)

Inductive ppc := Idle | Trying | Asleep | Holding.
#[global] Instance ppc_eq_dec : EqDecision ppc.
Proof. solve_decision. Defined.

Record sworld := mksworld { sw_lock : sleeplock; sw_pc : Z → ppc }.

(** One pass of the [while] of [acquiresleep] by process [p]. *)
Definition acquire_round (p : Z) (lk : sleeplock) : ppc * sleeplock :=
  if bool_decide (sl_locked lk ≠ 0) then (Asleep, lk) else (Holding, take_sl p lk).
(** [wakeup(lk)] *)
Definition wake_all (f : Z → ppc) : Z → ppc := λ q, if decide (f q = Asleep) then Trying else f q.
Definition set_pc (p : Z) (x : ppc) (f : Z → ppc) : Z → ppc := λ q, if decide (q = p) then x else f q.

Inductive srace : sworld → sworld → Prop :=
  | srace_call p w : sw_pc w p = Idle → srace w (mksworld (sw_lock w) (set_pc p Trying (sw_pc w)))
  | srace_round p w x lk : sw_pc w p = Trying → acquire_round p (sw_lock w) = (x, lk) →
      srace w (mksworld lk (set_pc p x (sw_pc w)))
  (** woken by [kill] *)
  | srace_wake p w : sw_pc w p = Asleep → srace w (mksworld (sw_lock w) (set_pc p Trying (sw_pc w)))
  | srace_release p w : sw_pc w p = Holding →
      srace w (mksworld (drop_sl (sw_lock w)) (wake_all (set_pc p Idle (sw_pc w)))).

Definition srace0 (name : string) : sworld := mksworld (initsleeplock name) (λ _, Idle).

Definition srace_inv (w : sworld) : Prop :=
  (∀ p, sw_pc w p = Holding ↔ sl_locked (sw_lock w) ≠ 0 ∧ sl_pid (sw_lock w) = p) ∧
  (sl_locked (sw_lock w) = 0 → ∀ p, sw_pc w p ≠ Asleep).

Lemma set_pc_eq p x f q : set_pc p x f q = if decide (q = p) then x else f q.
Proof. done. Qed.

Lemma srace_inv_step w w' : srace w w' → srace_inv w → srace_inv w'.
Proof.
  intros Hs [H1 H2]. destruct Hs as [p w Hp|p w x lk Hp Hr|p w Hp|p w Hp]; split; simpl in *.
  - intros q. rewrite <-H1, set_pc_eq. case_decide; [subst; split; congruence|done].
  - intros H0 q. rewrite set_pc_eq. case_decide; [done|by apply H2].
  - intros q. rewrite set_pc_eq. unfold acquire_round in Hr. case_bool_decide; simplify_eq; simpl.
    + rewrite <-H1. case_decide; [subst; split; congruence|done].
    + case_decide; [by subst|]. rewrite H1. split; [tauto|]. intros [_ ?]. congruence.
  - intros H0 q. rewrite set_pc_eq. unfold acquire_round in Hr. case_bool_decide; simplify_eq; simpl in H0; done.
  - intros q. rewrite <-H1, set_pc_eq. case_decide; [subst; split; congruence|done].
  - intros H0 q. rewrite set_pc_eq. case_decide; [done|by apply H2].
  - intros q. unfold wake_all. rewrite set_pc_eq. split; [|by intros [? _]].
    repeat case_decide; try done. intros Hq. exfalso. apply H1 in Hq, Hp. destruct Hq as [_ Hq], Hp as [_ Hp]. congruence.
  - intros _ q. unfold wake_all. rewrite set_pc_eq. by repeat case_decide.
Qed.

Lemma srace_inv_reach name w : rtc srace (srace0 name) w → srace_inv w.
Proof.
  assert (H0 : srace_inv (srace0 name)) by (split; [intros p; split; [done|by intros [H _]]|done]).
  intros H. revert H0. induction H as [|x y z Hs _ IH]; [done|]. intros Hx. by eapply IH, srace_inv_step.
Qed.

(** Sleep locks give mutual exclusion and lose no wakeup.  In every
    interleaving of any number of processes that call [acquiresleep] and
    [releasesleep] on one lock, at most one process holds it; [holdingsleep]
    answers 1 to exactly that process; and when the lock is free no process is
    left asleep on it. *)
Theorem sleeplock_exclusion name w p q :
  rtc srace (srace0 name) w →
  (sw_pc w p = Holding → sw_pc w q = Holding → p = q) ∧
  (holds p (sw_lock w) = true ↔ sw_pc w p = Holding) ∧
  (sl_locked (sw_lock w) = 0 → sw_pc w p ≠ Asleep).
Proof.
  intros [H1 H2]%srace_inv_reach. split; [|split].
  - rewrite !H1. intros [_ ?] [_ ?]. congruence.
  - rewrite H1. unfold holds. by rewrite andb_true_iff, !bool_decide_eq_true.
  - intros H. by apply H2.
Qed.

Lemma sleeplock_exclusion_witness :
  ∃ w, rtc srace (srace0 "inode") w ∧ sw_pc w 3 = Holding ∧ sw_pc w 4 = Asleep ∧
    holds 3 (sw_lock w) = true ∧ holds 4 (sw_lock w) = false.
Proof.
  set (w := mksworld (take_sl 3 (initsleeplock "inode"))
    (set_pc 4 Asleep (set_pc 3 Holding (set_pc 4 Trying (set_pc 3 Trying (λ _, Idle)))))).
  assert (R : rtc srace (srace0 "inode") w).
  { eapply rtc_l; [apply (srace_call 3); reflexivity|].
    eapply rtc_l; [apply (srace_call 4); reflexivity|].
    eapply rtc_l; [eapply (srace_round 3); reflexivity|].
    eapply rtc_l; [eapply (srace_round 4); reflexivity|]. apply rtc_refl. }
  exists w. destruct (sleeplock_exclusion "inode" w 3 4 R) as (_ & H & _).
  split; [exact R|]. split; [reflexivity|]. split; [reflexivity|]. split; [apply H; reflexivity|reflexivity].
Defined.
