(* ===== verification/Ring.v ===== *)
(** * Doubly linked lists through two link functions

    Shared by the components that keep elements on a circular list with [next]
    and [prev] links: [dbl nx pv x l y] says that from [x] the [next] links run
    through [l] to [y] and the [prev] links run back. *)
From S2P Require Import Prelude.

Section dbl.
Context {K : Type} `{EqDecision K}.
Implicit Types nx pv : K → K.

Definition fupd (f : K → K) (k v : K) : K → K := λ x, if decide (x = k) then v else f x.

Lemma fupd_eq f k v : fupd f k v k = v.
Proof. unfold fupd. by rewrite decide_True. Qed.
Lemma fupd_ne f k v x : x ≠ k → fupd f k v x = f x.
Proof. intros. unfold fupd. by rewrite decide_False. Qed.

Fixpoint dbl nx pv (x : K) (l : list K) (y : K) : Prop :=
  match l with
  | [] => nx x = y ∧ pv y = x
  | a :: l => nx x = a ∧ pv a = x ∧ dbl nx pv a l y
  end.

Lemma dbl_app nx pv x l1 a l2 y :
  dbl nx pv x (l1 ++ a :: l2) y ↔ dbl nx pv x l1 a ∧ dbl nx pv a l2 y.
Proof. revert x. induction l1 as [|b l1 IH]; intros x; simpl; [tauto|]. rewrite IH. tauto. Qed.

(** The list read backwards. *)
Lemma dbl_rev nx pv x l y : dbl nx pv x l y → dbl pv nx y (reverse l) x.
Proof.
  revert x. induction l as [|a l IH]; intros x; simpl; [tauto|].
  intros (H1 & H2 & H3). rewrite reverse_cons. apply dbl_app. split; [by apply IH|done].
Qed.

Lemma dbl_frame nx pv nx' pv' x l y :
  dbl nx pv x l y → (∀ z, z ∈ x :: l → nx' z = nx z) → (∀ z, z ∈ l ++ [y] → pv' z = pv z) → dbl nx' pv' x l y.
Proof.
  revert x. induction l as [|a l IH]; intros x; simpl.
  - intros [H1 H2] Hn Hp. rewrite Hn, Hp by set_solver. done.
  - intros (H1 & H2 & H3) Hn Hp. rewrite Hn, Hp by set_solver. split; [done|]. split; [done|].
    apply IH; [done| |]; intros z Hz; [apply Hn|apply Hp]; set_solver.
Qed.

(** The two ends of the list. *)
Lemma dbl_first nx pv x l y : dbl nx pv x l y → nx x = hd y l.
Proof. destruct l; simpl; tauto. Qed.
Lemma dbl_last nx pv x l y : dbl nx pv x l y → pv y = default x (last l).
Proof.
  revert x. induction l as [|a l IH]; intros x; simpl; [tauto|].
  intros (_ & _ & H). rewrite (IH _ H), last_cons. by destruct (last l).
Qed.

(** Unlinking [i]: [i->next->prev = i->prev; i->prev->next = i->next]. *)
Lemma dbl_unlink nx pv x l1 i l2 y :
  dbl nx pv x (l1 ++ i :: l2) y → NoDup (x :: l1 ++ i :: l2) → y ∉ l1 ++ i :: l2 →
  dbl (fupd nx (pv i) (nx i)) (fupd pv (nx i) (pv i)) x (l1 ++ l2) y.
Proof.
  intros (H1 & H2)%dbl_app Hnd Hy. revert x H1 Hnd. induction l1 as [|a l1 IH]; intros x H1 Hnd; simpl in *.
  - destruct H1 as [H1 H1']. rewrite H1'. destruct l2 as [|b l2]; simpl in *.
    + destruct H2 as [-> H2]. by rewrite !fupd_eq.
    + destruct H2 as (-> & H2 & H3). rewrite !fupd_eq. split; [done|]. split; [done|].
      apply NoDup_cons in Hnd as [Hx Hnd]. apply NoDup_cons in Hnd as [Hi Hnd]. apply NoDup_cons in Hnd as [Hb Hnd].
      eapply dbl_frame; [exact H3| |]; intros z Hz; apply fupd_ne; set_solver.
  - destruct H1 as (H1 & H1' & H3). apply NoDup_cons in Hnd as [Hx Hnd].
    assert (Hpi : pv i ∈ a :: l1).
    { rewrite (dbl_last _ _ _ _ _ H3). destruct (last l1) eqn:E; simpl; [|set_solver].
      apply last_Some in E as [? ->]. set_solver. }
    assert (Hni : nx i ∈ l2 ++ [y]).
    { rewrite (dbl_first _ _ _ _ _ H2). destruct l2; simpl; set_solver. }
    assert (Hxi : x ≠ pv i).
    { intros E. apply Hx. rewrite E. clear -Hpi. set_solver. }
    rewrite (fupd_ne nx) by done. rewrite fupd_ne.
    + split; [done|]. split; [done|]. apply IH; [clear -Hy; set_solver|done|done].
    + apply NoDup_cons in Hnd as [Ha Hnd]. intros E. rewrite E in Ha, Hy. clear -Hni Ha Hy.
      apply elem_of_app in Hni as [?|?]; [set_solver|]. set_solver.
Qed.

(** Linking [i] behind [x]. *)
Lemma dbl_push nx pv x i l y :
  dbl nx pv x l y → NoDup (x :: i :: l) → y ∉ i :: l →
  dbl (fupd (fupd nx i (nx x)) x i) (fupd (fupd pv i x) (nx x) i) x (i :: l) y.
Proof.
  intros Hd Hnd Hy. apply NoDup_cons in Hnd as [Hx Hnd]. apply NoDup_cons in Hnd as [Hi Hnd].
  assert (Hni : nx x ≠ i).
  { rewrite (dbl_first _ _ _ _ _ Hd). destruct l; simpl; set_solver. }
  simpl. split; [apply fupd_eq|]. split; [rewrite (fupd_ne _ (nx x)) by done; apply fupd_eq|].
  destruct l as [|a l]; simpl in *.
  - destruct Hd as [H1 H2]. subst y. rewrite (fupd_ne _ x) by set_solver. by rewrite !fupd_eq.
  - destruct Hd as (H1 & H2 & H3). subst a. rewrite (fupd_ne _ x) by set_solver. rewrite !fupd_eq.
    apply NoDup_cons in Hnd as [Ha Hnd].
    split; [done|]. split; [done|]. eapply dbl_frame; [exact H3| |]; intros z Hz; rewrite !fupd_ne by set_solver; done.
Qed.
End dbl.
