(* ===== verification/BufCache.v ===== *)
(** * The interface of the buffer cache

    The disk, the abstract state of the cache, and [BufCache], what bio.c
    promises to the log and the file system: a map from the numbers of the
    blocks in use to their contents, reference counts and holders.  A block that
    is not in use reads as what the disk holds. *)
From S2P Require Import Prelude Spinlock Sleeplock.

Definition BSIZE : Z := 1024.
Definition NBUF : nat := 30.

(** ** The disk

    Its contents at some instant and the blocks written since, newest first. *)

Record disk := mkdisk { d_init : Z → list Z; d_writes : list (Z * list Z) }.

Fixpoint last_write (ws : list (Z * list Z)) (b : Z) : option (list Z) :=
  match ws with
  | [] => None
  | (b', l) :: ws => if decide (b' = b) then Some l else last_write ws b
  end.
Definition dread (d : disk) (b : Z) : list Z := default (d_init d b) (last_write (d_writes d) b).
Definition dwrite (b : Z) (l : list Z) (d : disk) : disk := mkdisk (d_init d) ((b, l) :: d_writes d).

Lemma dread_write d b l b' : dread (dwrite b l d) b' = if decide (b = b') then l else dread d b'.
Proof. unfold dread. simpl. by case_decide. Qed.

(** ** The abstract cache *)

(** A block in use: its contents, the number of references, and the buffer the
    running process has it locked in. *)
Record cbuf := mkcbuf { cb_data : list Z; cb_refs : nat; cb_held : option nat }.
Record cache := mkcache { c_disk : disk; c_bufs : gmap Z cbuf }.

(** What a reader of block [b] gets. *)
Definition c_view (c : cache) (b : Z) : list Z :=
  match c_bufs c !! b with Some x => cb_data x | None => dread (c_disk c) b end.
Definition c_refs (c : cache) (b : Z) : nat :=
  match c_bufs c !! b with Some x => cb_refs x | None => 0 end.

Definition c_put (b : Z) (x : cbuf) (c : cache) : cache := mkcache (c_disk c) (<[b := x]> (c_bufs c)).

Definition c_bread (b : Z) (h : nat) (c : cache) : cache :=
  c_put b (mkcbuf (c_view c b) (S (c_refs c b)) (Some h)) c.
Definition c_bwrite (b : Z) (c : cache) : cache := mkcache (dwrite b (c_view c b) (c_disk c)) (c_bufs c).
Definition c_store (b : Z) (h : nat) (l : list Z) (c : cache) : cache :=
  c_put b (mkcbuf l (c_refs c b) (Some h)) c.
Definition c_brelse (b : Z) (c : cache) : cache :=
  if decide (c_refs c b = 1%nat) then mkcache (c_disk c) (delete b (c_bufs c))
  else c_put b (mkcbuf (c_view c b) (pred (c_refs c b)) None) c.
Definition c_bpin (b : Z) (h : nat) (c : cache) : cache := c_put b (mkcbuf (c_view c b) (S (c_refs c b)) (Some h)) c.
Definition c_bunpin (b : Z) (h : nat) (c : cache) : cache := c_put b (mkcbuf (c_view c b) (pred (c_refs c b)) (Some h)) c.

(** [bread] can return: the block is in use and not locked, or it is not in use
    and a buffer is left. *)
Definition c_room (b : Z) (c : cache) : Prop :=
  match c_bufs c !! b with
  | Some x => cb_held x = None
  | None => (size (c_bufs c) < NBUF)%nat
  end.
(** The running process has [b] locked in buffer [h]. *)
Definition c_holds (b : Z) (h : nat) (c : cache) : Prop :=
  ∃ x, c_bufs c !! b = Some x ∧ cb_held x = Some h.

(** Reference counts are 32 bits wide. *)
Definition ref_ok (n : nat) : Prop := Z.of_nat n < 2 ^ 32 - 1.

Class BufCache (S : Type) := {
  bread : Z → Z → M S nat;
  bwrite : nat → M S unit;
  brelse : nat → M S unit;
  bpin : nat → M S unit;
  bunpin : nat → M S unit;
  (** reading and writing [b->data], reading [b->blockno] *)
  bdata : nat → M S (list Z);
  bstore : nat → list Z → M S unit;
  blockno : nat → M S Z;
  bc_hart : S → hart;
  bc_set_hart : hart → S → S;
  bc_disk : S → disk;
  (** [s] is a state of the cache of device [dev] that looks like [c] *)
  bc_rep : Z → S → cache → Prop }.

(** The promises. *)
Class BufCacheLaws (S : Type) {C : BufCache S} := {
  bread_law dev b s c : bc_rep dev s c → c_room b c → ref_ok (c_refs c b) →
    ∃ h s', bread dev b s = Ok (h, s') ∧ bc_rep dev s' (c_bread b h c) ∧ bc_hart s' = bc_hart s;
  bread_full dev b s c : bc_rep dev s c → c_bufs c !! b = None → size (c_bufs c) = NBUF →
    bread dev b s = Panic "bget: no buffers";
  bwrite_law dev b h s c : bc_rep dev s c → c_holds b h c →
    ∃ s', bwrite h s = Ok (tt, s') ∧ bc_rep dev s' (c_bwrite b c) ∧ bc_hart s' = bc_hart s;
  brelse_law dev b h s c : bc_rep dev s c → c_holds b h c →
    (c_refs c b = 1%nat → c_view c b = dread (c_disk c) b) →
    ∃ s', brelse h s = Ok (tt, s') ∧ bc_rep dev s' (c_brelse b c) ∧ bc_hart s' = bc_hart s;
  bpin_law dev b h s c : bc_rep dev s c → c_holds b h c → ref_ok (c_refs c b) →
    ∃ s', bpin h s = Ok (tt, s') ∧ bc_rep dev s' (c_bpin b h c) ∧ bc_hart s' = bc_hart s;
  bunpin_law dev b h s c : bc_rep dev s c → c_holds b h c → (1 < c_refs c b)%nat →
    ∃ s', bunpin h s = Ok (tt, s') ∧ bc_rep dev s' (c_bunpin b h c) ∧ bc_hart s' = bc_hart s;
  bdata_law dev b h s c : bc_rep dev s c → c_holds b h c → bdata h s = Ok (c_view c b, s);
  bstore_law dev b h l s c : bc_rep dev s c → c_holds b h c →
    ∃ s', bstore h l s = Ok (tt, s') ∧ bc_rep dev s' (c_store b h l c) ∧ bc_hart s' = bc_hart s;
  blockno_law dev b h s c : bc_rep dev s c → c_holds b h c → blockno h s = Ok (b, s);
  bc_disk_law dev s c : bc_rep dev s c → bc_disk s = c_disk c;
  bc_hart_good dev s c : bc_rep dev s c → hart_good (bc_hart s);
  bc_hart_rep dev s c h : bc_rep dev s c → hart_good h → bc_rep dev (bc_set_hart h s) c;
  bc_hart_set h s : bc_hart (bc_set_hart h s) = h;
  bc_hart_set2 h h' s : bc_set_hart h (bc_set_hart h' s) = bc_set_hart h s;
  bc_hart_get s : bc_set_hart (bc_hart s) s = s }.

(** ** The promises, entry by entry *)

Section entries.
Context {S : Type} `{C : !BufCache S} `{!BufCacheLaws S}.
Implicit Types (s : S) (c : cache).

Lemma c_holds_entry b h c v r : c_bufs c !! b = Some (mkcbuf v r (Some h)) → c_holds b h c ∧ c_view c b = v ∧ c_refs c b = r.
Proof. intros H. unfold c_holds, c_view, c_refs. rewrite H. split; [by eexists|done]. Qed.

Lemma bread_entry dev b s c v r :
  bc_rep dev s c → c_bufs c !! b = Some (mkcbuf v r None) → ref_ok r →
  ∃ h s', bread dev b s = Ok (h, s') ∧ bc_rep dev s' (c_put b (mkcbuf v (Datatypes.S r) (Some h)) c) ∧ bc_hart s' = bc_hart s.
Proof.
  intros Hr Hb Hok. destruct (bread_law dev b s c Hr) as (h & s' & E & H & Hh).
  - unfold c_room. by rewrite Hb.
  - unfold c_refs. by rewrite Hb.
  - exists h, s'. unfold c_bread, c_view, c_refs in H. by rewrite Hb in H.
Qed.

Lemma bread_fresh dev b s c :
  bc_rep dev s c → c_bufs c !! b = None → (size (c_bufs c) < NBUF)%nat →
  ∃ h s', bread dev b s = Ok (h, s') ∧ bc_rep dev s' (c_put b (mkcbuf (dread (c_disk c) b) 1 (Some h)) c) ∧ bc_hart s' = bc_hart s.
Proof.
  intros Hr Hb Hsz. destruct (bread_law dev b s c Hr) as (h & s' & E & H & Hh).
  - unfold c_room. by rewrite Hb.
  - unfold c_refs. by rewrite Hb.
  - exists h, s'. unfold c_bread, c_view, c_refs in H. by rewrite Hb in H.
Qed.

Lemma bdata_entry dev b h s c v r :
  bc_rep dev s c → c_bufs c !! b = Some (mkcbuf v r (Some h)) → bdata h s = Ok (v, s).
Proof. intros Hr (Hh & <- & _)%c_holds_entry. by eapply bdata_law. Qed.

Lemma bstore_entry dev b h s c v r l :
  bc_rep dev s c → c_bufs c !! b = Some (mkcbuf v r (Some h)) →
  ∃ s', bstore h l s = Ok (tt, s') ∧ bc_rep dev s' (c_put b (mkcbuf l r (Some h)) c) ∧ bc_hart s' = bc_hart s.
Proof. intros Hr (Hh & _ & <-)%c_holds_entry. by eapply bstore_law. Qed.

Lemma bwrite_entry dev b h s c v r :
  bc_rep dev s c → c_bufs c !! b = Some (mkcbuf v r (Some h)) →
  ∃ s', bwrite h s = Ok (tt, s') ∧ bc_rep dev s' (mkcache (dwrite b v (c_disk c)) (c_bufs c)) ∧ bc_hart s' = bc_hart s.
Proof. intros Hr (Hh & <- & _)%c_holds_entry. by eapply bwrite_law. Qed.

Lemma brelse_entry dev b h s c v r :
  bc_rep dev s c → c_bufs c !! b = Some (mkcbuf v r (Some h)) → (1 < r)%nat →
  ∃ s', brelse h s = Ok (tt, s') ∧ bc_rep dev s' (c_put b (mkcbuf v (pred r) None) c) ∧ bc_hart s' = bc_hart s.
Proof.
  intros Hr Hb Hr1. apply c_holds_entry in Hb as (Hh & Hv & Hrf).
  destruct (brelse_law dev b h s c Hr Hh) as (s' & E & H & Hhart); [lia|].
  exists s'. unfold c_brelse in H. rewrite decide_False, Hv, Hrf in H by lia. done.
Qed.

Lemma brelse_last dev b h s c v :
  bc_rep dev s c → c_bufs c !! b = Some (mkcbuf v 1 (Some h)) → v = dread (c_disk c) b →
  ∃ s', brelse h s = Ok (tt, s') ∧ bc_rep dev s' (mkcache (c_disk c) (delete b (c_bufs c))) ∧ bc_hart s' = bc_hart s.
Proof.
  intros Hr Hb Hd. apply c_holds_entry in Hb as (Hh & Hv & Hrf).
  destruct (brelse_law dev b h s c Hr Hh) as (s' & E & H & Hhart); [congruence|].
  exists s'. unfold c_brelse in H. by rewrite decide_True in H.
Qed.

Lemma bpin_entry dev b h s c v r :
  bc_rep dev s c → c_bufs c !! b = Some (mkcbuf v r (Some h)) → ref_ok r →
  ∃ s', bpin h s = Ok (tt, s') ∧ bc_rep dev s' (c_put b (mkcbuf v (Datatypes.S r) (Some h)) c) ∧ bc_hart s' = bc_hart s.
Proof.
  intros Hr Hb Hok. apply c_holds_entry in Hb as (Hh & <- & <-). by apply bpin_law.
Qed.

Lemma bunpin_entry dev b h s c v r :
  bc_rep dev s c → c_bufs c !! b = Some (mkcbuf v r (Some h)) → (1 < r)%nat →
  ∃ s', bunpin h s = Ok (tt, s') ∧ bc_rep dev s' (c_put b (mkcbuf v (pred r) (Some h)) c) ∧ bc_hart s' = bc_hart s.
Proof.
  intros Hr Hb Hok. apply c_holds_entry in Hb as (Hh & <- & <-). by apply bunpin_law.
Qed.

Lemma blockno_entry dev b h s c v r :
  bc_rep dev s c → c_bufs c !! b = Some (mkcbuf v r (Some h)) → blockno h s = Ok (b, s).
Proof. intros Hr (Hh & _)%c_holds_entry. by eapply blockno_law. Qed.
End entries.
