(* ===== verification/Bio.v ===== *)
(** * The buffer cache: kernel/bio.c

    [bcache.buf[30]] and the list head are one array of 31 buffers linked by
    index; [virtio_disk_rw] is the transfer as its caller sees it.  BioSpec.v
    shows that this code implements the interface of BufCache.v. *)
From S2P Require Import Prelude Spinlock Sleeplock BufCache.

(** The index of [bcache.head]. *)
Definition HEAD : nat := NBUF.

(** ** Buffers *)

(** [struct buf]; [disk], which only the driver uses, is left out. *)
Record buf := mkbuf {
  b_valid : Z; b_dev : Z; b_blockno : Z; b_lock : sleeplock; b_refcnt : Z;
  b_prev : nat; b_next : nat; b_data : list Z }.

Definition set_ident (dev blockno : Z) (b : buf) : buf :=
  mkbuf (b_valid b) dev blockno (b_lock b) (b_refcnt b) (b_prev b) (b_next b) (b_data b).
Definition set_valid (v : Z) (b : buf) : buf :=
  mkbuf v (b_dev b) (b_blockno b) (b_lock b) (b_refcnt b) (b_prev b) (b_next b) (b_data b).
Definition set_sleep (lk : sleeplock) (b : buf) : buf :=
  mkbuf (b_valid b) (b_dev b) (b_blockno b) lk (b_refcnt b) (b_prev b) (b_next b) (b_data b).
Definition set_refcnt (r : Z) (b : buf) : buf :=
  mkbuf (b_valid b) (b_dev b) (b_blockno b) (b_lock b) r (b_prev b) (b_next b) (b_data b).
Definition set_prev (p : nat) (b : buf) : buf :=
  mkbuf (b_valid b) (b_dev b) (b_blockno b) (b_lock b) (b_refcnt b) p (b_next b) (b_data b).
Definition set_next (n : nat) (b : buf) : buf :=
  mkbuf (b_valid b) (b_dev b) (b_blockno b) (b_lock b) (b_refcnt b) (b_prev b) n (b_data b).
Definition set_data (d : list Z) (b : buf) : buf :=
  mkbuf (b_valid b) (b_dev b) (b_blockno b) (b_lock b) (b_refcnt b) (b_prev b) (b_next b) d.

(** [bcache], the disk, and what the code sees of the processor: the hart, the
    running process's id and the channels it has called [wakeup] on. *)
Record bst := mkbst {
  bufs : list buf; bc_lock : spinlock; bdisk : disk;
  bhart : hart; bpid : Z; bwoken : list nat }.

Definition with_bufs (f : list buf → list buf) (s : bst) : bst :=
  mkbst (f (bufs s)) (bc_lock s) (bdisk s) (bhart s) (bpid s) (bwoken s).
Definition with_disk (f : disk → disk) (s : bst) : bst :=
  mkbst (bufs s) (bc_lock s) (f (bdisk s)) (bhart s) (bpid s) (bwoken s).
Definition with_hart (h : hart) (s : bst) : bst :=
  mkbst (bufs s) (bc_lock s) (bdisk s) h (bpid s) (bwoken s).
Definition with_bclock (lk : spinlock) (s : bst) : bst :=
  mkbst (bufs s) lk (bdisk s) (bhart s) (bpid s) (bwoken s).

(** A static array of zeros. *)
Definition buf0 : buf := mkbuf 0 0 0 (mksleep 0 (mklock "" 0 None) "" 0) 0 0 0 (replicate (Z.to_nat BSIZE) 0).

#[export] Instance bcache_lock : HasLocks bst unit := {
  get_hart := bhart;
  set_hart := with_hart;
  get_lock _ := bc_lock;
  set_lock _ := with_bclock }.

#[export] Instance buf_locks : SleepEnv bst nat := {
  se_hart := bhart;
  se_set_hart := with_hart;
  se_get i s := default (b_lock buf0) (b_lock <$> bufs s !! i);
  se_set i lk := with_bufs (alter (set_sleep lk) i);
  se_pid := bpid;
  se_wakeup i s := mkbst (bufs s) (bc_lock s) (bdisk s) (bhart s) (bpid s) (i :: bwoken s) }.

Definition getb (i : nat) : M bst buf := λ s,
  match bufs s !! i with Some b => Ok (b, s) | None => Fault end.
Definition upd (i : nat) (f : buf → buf) : M bst unit := λ s,
  match bufs s !! i with Some _ => Ok (tt, with_bufs (alter f i) s) | None => Fault end.

Definition lock_bcache : M bst unit := acquireM tt.
Definition unlock_bcache : M bst unit := releaseM tt.

(** The transfer between the buffer and the disk. *)
Definition virtio_disk_rw (i : nat) (write : bool) : M bst unit :=
  b ← getb i;
  if write then modify (with_disk (dwrite (b_blockno b) (b_data b)))
  else d ← gets bdisk; upd i (set_data (dread d (b_blockno b))).

(** ** bio.c *)

(** [b->next = head.next; b->prev = &head; head.next->prev = b; head.next = b] *)
Definition push_front (i : nat) : M bst unit :=
  h ← getb HEAD; upd i (set_next (b_next h)) ;;
  upd i (set_prev HEAD) ;;
  h ← getb HEAD; upd (b_next h) (set_prev i) ;;
  upd HEAD (set_next i).

Definition binit : M bst unit :=
  modify (with_bclock (initlock "bcache")) ;;
  upd HEAD (set_prev HEAD) ;;
  upd HEAD (set_next HEAD) ;;
  forM (seq 0 NBUF) (λ i,
    h ← getb HEAD; upd i (set_next (b_next h)) ;;
    upd i (set_prev HEAD) ;;
    upd i (set_sleep (initsleeplock "buffer")) ;;
    h ← getb HEAD; upd (b_next h) (set_prev i) ;;
    upd HEAD (set_next i)).

(** [for(b = head.next; b != &head; b = b->next)] *)
Fixpoint find_cached (fuel : nat) (i : nat) (dev blockno : Z) : M bst (option nat) :=
  match fuel with
  | O => hang
  | S fuel =>
      if decide (i = HEAD) then mret None
      else
        b ← getb i;
        if bool_decide (b_dev b = dev) && bool_decide (b_blockno b = blockno) then mret (Some i)
        else find_cached fuel (b_next b) dev blockno
  end.
(** [for(b = head.prev; b != &head; b = b->prev)] *)
Fixpoint find_unused (fuel : nat) (i : nat) : M bst (option nat) :=
  match fuel with
  | O => hang
  | S fuel =>
      if decide (i = HEAD) then mret None
      else
        b ← getb i;
        if bool_decide (b_refcnt b = 0) then mret (Some i) else find_unused fuel (b_prev b)
  end.

Definition bget (dev blockno : Z) : M bst nat :=
  lock_bcache ;;
  h ← getb HEAD;
  r ← find_cached (S NBUF) (b_next h) dev blockno;
  match r with
  | Some i =>
      upd i (λ b, set_refcnt (u32 (b_refcnt b + 1)) b) ;;
      unlock_bcache ;;
      acquiresleep i ;;
      mret i
  | None =>
      h ← getb HEAD;
      r ← find_unused (S NBUF) (b_prev h);
      match r with
      | Some i =>
          upd i (set_ident dev blockno) ;;
          upd i (set_valid 0) ;;
          upd i (set_refcnt 1) ;;
          unlock_bcache ;;
          acquiresleep i ;;
          mret i
      | None => panic "bget: no buffers"
      end
  end.

Definition bread (dev blockno : Z) : M bst nat :=
  i ← bget dev blockno;
  b ← getb i;
  (if bool_decide (b_valid b = 0) then
     virtio_disk_rw i false ;;
     upd i (set_valid 1)
   else mret tt) ;;
  mret i.

Definition bwrite (i : nat) : M bst unit :=
  h ← holdingsleep i;
  if negb h then panic "bwrite" else virtio_disk_rw i true.

Definition brelse (i : nat) : M bst unit :=
  h ← holdingsleep i;
  if negb h then panic "brelse"
  else
    releasesleep i ;;
    lock_bcache ;;
    upd i (λ b, set_refcnt (u32 (b_refcnt b - 1)) b) ;;
    b ← getb i;
    (if bool_decide (b_refcnt b = 0) then
       b ← getb i; upd (b_next b) (set_prev (b_prev b)) ;;
       b ← getb i; upd (b_prev b) (set_next (b_next b)) ;;
       push_front i
     else mret tt) ;;
    unlock_bcache.

Definition bpin (i : nat) : M bst unit :=
  lock_bcache ;;
  upd i (λ b, set_refcnt (u32 (b_refcnt b + 1)) b) ;;
  unlock_bcache.

Definition bunpin (i : nat) : M bst unit :=
  lock_bcache ;;
  upd i (λ b, set_refcnt (u32 (b_refcnt b - 1)) b) ;;
  unlock_bcache.

(** ** Equations of the state *)

#[export] Instance buf_lock_laws : SleepLaws bst nat.
Proof.
  refine {| sl_valid := λ i s, is_Some (bufs s !! i) |}; try done.
  - intros i lk s [b Hb]. cbn. by rewrite list_lookup_alter_eq, Hb.
  - intros i lk lk' s. cbn. unfold with_bufs. cbn. f_equal.
    apply list_eq. intros k. destruct (decide (i = k)) as [<-|Hne].
    + rewrite !list_lookup_alter_eq. by destruct (bufs s !! i).
    + by rewrite !list_lookup_alter_ne by done.
  - intros i s. cbn. unfold with_bufs. destruct s as [l]. cbn. f_equal. apply list_eq. intros k.
    destruct (decide (i = k)) as [<-|Hne]; [|by rewrite list_lookup_alter_ne].
    rewrite list_lookup_alter_eq. destruct (l !! i) as [b|]; [|done]. cbn. by destruct b.
  - by intros [].
Defined.
