(* ===== verification/BioSpec.v ===== *)
(** * The buffer cache implements its interface

    [bio_rep] relates the array of buffers to the abstract cache of BufCache.v:
    the links form one ring through all buffers, every buffer in use stands for
    its block, an unused valid buffer holds what is on disk, and no block has two
    buffers. *)
From S2P Require Import Prelude Spinlock Sleeplock Ring BufCache Bio.

(** ** The parts of a buffer array *)

Definition nx (bs : list buf) (i : nat) : nat := default 0%nat (b_next <$> bs !! i).
Definition pv (bs : list buf) (i : nat) : nat := default 0%nat (b_prev <$> bs !! i).
(** A buffer without its links. *)
Definition bcore (b : buf) : buf := set_prev 0 (set_next 0 b).

Definition held_ok (pid : Z) (i : nat) (lk : sleeplock) (h : option nat) : Prop :=
  match h with
  | Some h => h = i ∧ holds pid lk = true
  | None => sl_locked lk = 0
  end.

Definition buf_ok (dev pid : Z) (c : cache) (i : nat) (b : buf) : Prop :=
  lock_quiet (sl_lk (b_lock b)) ∧
  if decide (b_refcnt b = 0) then
    sl_locked (b_lock b) = 0 ∧
    (b_dev b = dev → c_bufs c !! b_blockno b = None ∧
       (b_valid b ≠ 0 → b_data b = dread (c_disk c) (b_blockno b)))
  else
    b_dev b = dev ∧ b_valid b ≠ 0 ∧
    ∃ x, c_bufs c !! b_blockno b = Some x ∧ b_data b = cb_data x ∧ b_refcnt b = Z.of_nat (cb_refs x) ∧
      Z.of_nat (cb_refs x) < 2 ^ 32 ∧ held_ok pid i (b_lock b) (cb_held x).

Record bufs_ok (dev pid : Z) (bs : list buf) (c : cache) : Prop := {
  bo_len : length bs = S NBUF;
  bo_buf i b : (i < NBUF)%nat → bs !! i = Some b → buf_ok dev pid c i b;
  bo_all k x : c_bufs c !! k = Some x →
    ∃ i b, (i < NBUF)%nat ∧ bs !! i = Some b ∧ b_refcnt b ≠ 0 ∧ b_blockno b = k;
  bo_inj i j b b' : (i < NBUF)%nat → (j < NBUF)%nat → bs !! i = Some b → bs !! j = Some b' →
    b_dev b = dev → b_dev b' = dev → b_blockno b = b_blockno b' → i = j }.

Definition ring (bs : list buf) (l : list nat) : Prop :=
  l ≡ₚ seq 0 NBUF ∧ dbl (nx bs) (pv bs) HEAD l HEAD.

Definition bio_rep (dev : Z) (s : bst) (c : cache) : Prop :=
  bufs_ok dev (bpid s) (bufs s) c ∧ (∃ l, ring (bufs s) l) ∧
  lock_quiet (bc_lock s) ∧ hart_good (bhart s) ∧ bdisk s = c_disk c.

(** ** Links *)

Lemma ring_nodup bs l : ring bs l → NoDup (HEAD :: l) ∧ HEAD ∉ l.
Proof.
  intros [Hl _]. assert (HEAD ∉ l).
  { rewrite Hl. intros H%elem_of_seq. unfold HEAD in H. lia. }
  split; [|done]. apply NoDup_cons. split; [done|]. rewrite Hl. apply NoDup_seq.
Qed.

Lemma ring_elem bs l i : ring bs l → i ∈ l ↔ (i < NBUF)%nat.
Proof. intros [Hl _]. rewrite Hl, elem_of_seq. lia. Qed.

Lemma dbl_ext {K} (f g f' g' : K → K) x l y :
  dbl f g x l y → (∀ z, f' z = f z) → (∀ z, g' z = g z) → dbl f' g' x l y.
Proof. intros H Hf Hg. eapply dbl_frame; [exact H| |]; intros z _; [apply Hf|apply Hg]. Qed.

Lemma alter_next bs i v : (i < length bs)%nat →
  (∀ k, nx (alter (set_next v) i bs) k = fupd (nx bs) i v k) ∧ (∀ k, pv (alter (set_next v) i bs) k = pv bs k).
Proof.
  intros Hi. apply lookup_lt_is_Some in Hi as [b Hb]. split; intros k; unfold nx, pv.
  - destruct (decide (i = k)) as [<-|Hne].
    + rewrite list_lookup_alter_eq, Hb, fupd_eq. done.
    + by rewrite list_lookup_alter_ne, fupd_ne by done.
  - destruct (decide (i = k)) as [<-|Hne]; [|by rewrite list_lookup_alter_ne].
    by rewrite list_lookup_alter_eq, Hb.
Qed.
Lemma alter_prev bs i v : (i < length bs)%nat →
  (∀ k, pv (alter (set_prev v) i bs) k = fupd (pv bs) i v k) ∧ (∀ k, nx (alter (set_prev v) i bs) k = nx bs k).
Proof.
  intros Hi. apply lookup_lt_is_Some in Hi as [b Hb]. split; intros k; unfold nx, pv.
  - destruct (decide (i = k)) as [<-|Hne].
    + rewrite list_lookup_alter_eq, Hb, fupd_eq. done.
    + by rewrite list_lookup_alter_ne, fupd_ne by done.
  - destruct (decide (i = k)) as [<-|Hne]; [|by rewrite list_lookup_alter_ne].
    by rewrite list_lookup_alter_eq, Hb.
Qed.

(** An update that keeps the links keeps the ring. *)
Lemma ring_upd bs i f l :
  ring bs l → (∀ b, b_next (f b) = b_next b ∧ b_prev (f b) = b_prev b) → ring (alter f i bs) l.
Proof.
  intros [Hl Hd] Hf. split; [done|]. eapply dbl_ext; [exact Hd| |]; intros z; unfold nx, pv;
    (destruct (decide (i = z)) as [<-|Hne]; [|by rewrite list_lookup_alter_ne]);
    rewrite list_lookup_alter_eq; (destruct (bs !! i) as [b|]; [|done]); simpl; apply Hf.
Qed.

(** An update of links only keeps the rest. *)
Lemma bufs_ok_core dev pid bs bs' c :
  bufs_ok dev pid bs c → (∀ i, bcore <$> bs' !! i = bcore <$> bs !! i) → bufs_ok dev pid bs' c.
Proof.
  intros [H1 H2 H3 H4] He.
  assert (Hto : ∀ i b', bs' !! i = Some b' → ∃ b, bs !! i = Some b ∧ bcore b' = bcore b).
  { intros i b' Hb. specialize (He i). rewrite Hb in He. destruct (bs !! i) as [b|]; [|done].
    exists b. split; [done|]. apply (inj Some). exact He. }
  assert (Hfrom : ∀ i b, bs !! i = Some b → ∃ b', bs' !! i = Some b' ∧ bcore b' = bcore b).
  { intros i b Hb. specialize (He i). rewrite Hb in He. destruct (bs' !! i) as [b'|]; [|done].
    exists b'. split; [done|]. apply (inj Some). exact He. }
  assert (Hok : ∀ i b b', bcore b' = bcore b → buf_ok dev pid c i b → buf_ok dev pid c i b').
  { intros i b b' E H. destruct b, b'. unfold bcore, set_prev, set_next in E. cbn in E. injection E; intros; subst. exact H. }
  constructor.
  - rewrite <-H1.
    assert (E : bcore <$> bs' = bcore <$> bs) by (apply list_eq; intros i; by rewrite !list_lookup_fmap).
    apply (f_equal length) in E. by rewrite !length_fmap in E.
  - intros i b' Hi (b & Hb & E)%Hto. eapply Hok; [exact E|]. by apply H2.
  - intros k x (i & b & Hi & Hb & Hr & Hk)%H3. destruct (Hfrom _ _ Hb) as (b' & Hb' & E).
    exists i, b'. destruct b, b'. unfold bcore, set_prev, set_next in E. cbn in *. injection E; intros; subst. done.
  - intros i j b b' Hi Hj (x & Hx & E)%Hto (y & Hy & E')%Hto Hd Hd' Hk.
    apply (H4 i j x y); try done; destruct b, b', x, y; unfold bcore, set_prev, set_next in E, E'; cbn in *; injection E; injection E'; intros; subst; done.
Qed.

(** The contents of one buffer change, and with it the entry of its block. *)
Lemma bufs_ok_upd dev pid bs c c' i b f :
  bufs_ok dev pid bs c → (i < NBUF)%nat → bs !! i = Some b → b_dev b = dev →
  b_dev (f b) = dev → b_blockno (f b) = b_blockno b →
  (∀ k, k ≠ b_blockno b → c_bufs c' !! k = c_bufs c !! k ∧ dread (c_disk c') k = dread (c_disk c) k) →
  buf_ok dev pid c' i (f b) → (is_Some (c_bufs c' !! b_blockno b) → b_refcnt (f b) ≠ 0) →
  bufs_ok dev pid (alter f i bs) c'.
Proof.
  intros [H1 H2 H3 H4] Hi Hb Hd Hfd Hfk Hc Hok Hr.
  assert (Hcase : ∀ j x, alter f i bs !! j = Some x → (j = i ∧ x = f b) ∨ (j ≠ i ∧ bs !! j = Some x)).
  { intros j x Hx. destruct (decide (i = j)) as [<-|Hne].
    - rewrite list_lookup_alter_eq, Hb in Hx. left. by simplify_eq/=.
    - rewrite list_lookup_alter_ne in Hx by done. by right. }
  constructor.
  - by rewrite length_alter.
  - intros j x Hj [[-> ->]|[Hne Hx]]%Hcase; [done|]. pose proof (H2 j x Hj Hx) as (Hq & Ho). split; [done|].
    assert (Hk : b_dev x = dev → b_blockno x ≠ b_blockno b).
    { intros Hxd E. apply Hne. by apply (H4 j i x b). }
    destruct (decide (b_refcnt x = 0)).
    + destruct Ho as [Ho1 Ho2]. split; [done|]. intros Hxd. destruct (Hc _ (Hk Hxd)) as [-> ->]. by apply Ho2.
    + destruct Ho as (Ho1 & Ho2 & Ho3). destruct (Hc _ (Hk Ho1)) as [-> _]. done.
  - intros k x Hx. destruct (decide (k = b_blockno b)) as [->|Hne].
    + exists i, (f b). rewrite list_lookup_alter_eq, Hb. split_and!; [done|done|by apply Hr|done].
    + destruct (Hc _ Hne) as [E _]. rewrite E in Hx. destruct (H3 _ _ Hx) as (j & y & Hj & Hy & Hry & Hk).
      exists j, y. rewrite list_lookup_alter_ne; [done|]. intros ->. congruence.
  - assert (Hid : ∀ j x, alter f i bs !! j = Some x → b_dev x = dev → ∃ y, bs !! j = Some y ∧ b_dev y = dev ∧ b_blockno y = b_blockno x).
    { intros j x [[-> ->]|[Hne Hx]]%Hcase Hxd; [by exists b|by exists x]. }
    intros j k x y Hj Hk Hx Hy Hxd Hyd E. destruct (Hid _ _ Hx Hxd) as (x' & Hx' & Hxd' & Hxk').
    destruct (Hid _ _ Hy Hyd) as (y' & Hy' & Hyd' & Hyk'). eapply (H4 j k); try done. congruence.
Qed.

(** An unused buffer is given a new block that no buffer has. *)
Lemma bufs_ok_rename dev pid bs c i b k :
  bufs_ok dev pid bs c → (i < NBUF)%nat → bs !! i = Some b → b_refcnt b = 0 →
  (∀ j x, (j < NBUF)%nat → bs !! j = Some x → b_dev x = dev → b_blockno x ≠ k) →
  bufs_ok dev pid (alter (λ b, set_valid 0 (set_ident dev k b)) i bs) c.
Proof.
  intros [H1 H2 H3 H4] Hi Hb Hr Hk. set (f := λ b, set_valid 0 (set_ident dev k b)).
  assert (Hcase : ∀ j x, alter f i bs !! j = Some x → (j = i ∧ x = f b) ∨ (j ≠ i ∧ bs !! j = Some x)).
  { intros j x Hx. destruct (decide (i = j)) as [<-|Hne].
    - rewrite list_lookup_alter_eq, Hb in Hx. left. by simplify_eq/=.
    - rewrite list_lookup_alter_ne in Hx by done. by right. }
  assert (Hno : c_bufs c !! k = None).
  { destruct (c_bufs c !! k) as [x|] eqn:E; [|done]. exfalso. destruct (H3 _ _ E) as (j & y & Hj & Hy & Hry & Hyk).
    apply (Hk j y Hj Hy); [|done]. pose proof (H2 j y Hj Hy) as (_ & Ho). rewrite decide_False in Ho by done. apply Ho. }
  constructor.
  - by rewrite length_alter.
  - intros j x Hj [[-> ->]|[Hne Hx]]%Hcase; [|by apply H2]. pose proof (H2 i b Hi Hb) as (Hq & Ho).
    split; [done|]. simpl. rewrite decide_True in Ho |- * by done. split; [apply Ho|]. intros _. done.
  - intros k' x (j & y & Hj & Hy & Hry & Hyk)%H3. exists j, y. rewrite list_lookup_alter_ne; [done|]. intros ->. congruence.
  - intros j j' x y Hj Hj' [[-> ->]|[Hne Hx]]%Hcase [[-> ->]|[Hne' Hy]]%Hcase Hxd Hyd E; simpl in *; try done.
    + exfalso. by apply (Hk j' y Hj' Hy).
    + exfalso. by apply (Hk j x Hj Hx).
    + by apply (H4 j j' x y).
Qed.

(** ** Running the code *)

Lemma lock_bcache_ok bs lk d h p w :
  lock_quiet lk →
  lock_bcache (mkbst bs lk d h p w) = Ok (tt, mkbst bs (held_by (hartid h) lk) d (push_off h) p w).
Proof. intros H. unfold lock_bcache, acquireM. cbn. by rewrite acquire_quiet. Qed.
Lemma unlock_bcache_ok bs lk d h p w :
  lock_quiet lk → hart_good h →
  unlock_bcache (mkbst bs (held_by (hartid h) lk) d (push_off h) p w) = Ok (tt, mkbst bs lk d h p w).
Proof. intros H Hh. unfold unlock_bcache, releaseM. cbn. by rewrite release_quiet. Qed.

Lemma getb_ok i s b : bufs s !! i = Some b → getb i s = Ok (b, s).
Proof. intros H. unfold getb. by rewrite H. Qed.
Lemma buf_upd_ok i f s : (i < length (bufs s))%nat → upd i f s = Ok (tt, with_bufs (alter f i) s).
Proof. intros [b H]%lookup_lt_is_Some. unfold upd. by rewrite H. Qed.

Lemma nx_get bs i b : bs !! i = Some b → b_next b = nx bs i.
Proof. intros H. unfold nx. by rewrite H. Qed.
Lemma pv_get bs i b : bs !! i = Some b → b_prev b = pv bs i.
Proof. intros H. unfold pv. by rewrite H. Qed.

Lemma find_cached_ok fuel dev k s f g x l :
  dbl f g x l HEAD → (∀ i b, bufs s !! i = Some b → b_next b = f i) → HEAD ∉ l →
  (∀ i, i ∈ l → is_Some (bufs s !! i)) → (length l < fuel)%nat →
  ∃ r, find_cached fuel (f x) dev k s = Ok (r, s) ∧
    match r with
    | Some i => i ∈ l ∧ ∃ b, bufs s !! i = Some b ∧ b_dev b = dev ∧ b_blockno b = k
    | None => ∀ i b, i ∈ l → bufs s !! i = Some b → b_dev b = dev → b_blockno b ≠ k
    end.
Proof.
  intros Hd Hf. revert x l Hd. induction fuel as [|fuel IH]; intros x l Hd Hh Hl Hlen; [lia|].
  rewrite (dbl_first _ _ _ _ _ Hd). destruct l as [|i l]; cbn [hd find_cached].
  - rewrite decide_True by done. exists None. split; [done|]. intros i b Hi. set_solver.
  - rewrite decide_False by set_solver. destruct (Hl i ltac:(set_solver)) as [b Hb].
    rewrite (bind_Ok_eq _ _ _ _ _ (getb_ok _ _ _ Hb)).
    destruct (bool_decide (b_dev b = dev) && bool_decide (b_blockno b = k)) eqn:E.
    + apply andb_prop in E as [E1%bool_decide_eq_true E2%bool_decide_eq_true].
      exists (Some i). split; [done|]. split; [set_solver|by exists b].
    + rewrite (Hf _ _ Hb). simpl in Hd. destruct Hd as (H1 & H2 & H3).
      destruct (IH i l H3) as (r & Er & Hr); [set_solver|intros j Hj; apply Hl; set_solver|simpl in Hlen; lia|].
      exists r. split; [exact Er|]. destruct r as [j|].
      * destruct Hr as [Hj Hr]. split; [set_solver|done].
      * intros j b' [->|Hj]%elem_of_cons Hb' Hdev; [|by apply (Hr j)].
        rewrite Hb in Hb'. injection Hb' as <-. intros Hk. by rewrite (bool_decide_true (b_dev b = _)), (bool_decide_true (b_blockno b = _)) in E.
Qed.

Lemma find_unused_ok fuel s f g x l :
  dbl f g x l HEAD → (∀ i b, bufs s !! i = Some b → b_prev b = f i) → HEAD ∉ l →
  (∀ i, i ∈ l → is_Some (bufs s !! i)) → (length l < fuel)%nat →
  ∃ r, find_unused fuel (f x) s = Ok (r, s) ∧
    match r with
    | Some i => i ∈ l ∧ ∃ b, bufs s !! i = Some b ∧ b_refcnt b = 0
    | None => ∀ i b, i ∈ l → bufs s !! i = Some b → b_refcnt b ≠ 0
    end.
Proof.
  intros Hd Hf. revert x l Hd. induction fuel as [|fuel IH]; intros x l Hd Hh Hl Hlen; [lia|].
  rewrite (dbl_first _ _ _ _ _ Hd). destruct l as [|i l]; cbn [hd find_unused].
  - rewrite decide_True by done. exists None. split; [done|]. intros i b Hi. set_solver.
  - rewrite decide_False by set_solver. destruct (Hl i ltac:(set_solver)) as [b Hb].
    rewrite (bind_Ok_eq _ _ _ _ _ (getb_ok _ _ _ Hb)). case_bool_decide as E.
    + exists (Some i). split; [done|]. split; [set_solver|by exists b].
    + rewrite (Hf _ _ Hb). simpl in Hd. destruct Hd as (H1 & H2 & H3).
      destruct (IH i l H3) as (r & Er & Hr); [set_solver|intros j Hj; apply Hl; set_solver|simpl in Hlen; lia|].
      exists r. split; [exact Er|]. destruct r as [j|].
      * destruct Hr as [Hj Hr]. split; [set_solver|done].
      * intros j b' [->|Hj]%elem_of_cons Hb'; [congruence|by apply (Hr j)].
Qed.

(** Some buffer is unused unless 30 blocks are in use. *)
Lemma unused_buffer dev pid bs c :
  bufs_ok dev pid bs c → (size (c_bufs c) < NBUF)%nat → ∃ i b, (i < NBUF)%nat ∧ bs !! i = Some b ∧ b_refcnt b = 0.
Proof.
  intros [H1 H2 H3 H4] Hsz.
  destruct (decide (Exists (λ b, b_refcnt b = 0) (take NBUF bs))) as [He|Hne].
  - apply Exists_exists in He as (b & (i & Hi & Hlt)%elem_of_take & Hr). by exists i, b.
  - exfalso. apply not_Exists_Forall in Hne; [|apply _]. rewrite Forall_forall in Hne.
    assert (Hall : ∀ i b, (i < NBUF)%nat → bs !! i = Some b → b_dev b = dev ∧ is_Some (c_bufs c !! b_blockno b)).
    { intros i b Hi Hb. assert (Hr : b_refcnt b ≠ 0) by (apply Hne, elem_of_take; eauto).
      pose proof (H2 i b Hi Hb) as (_ & Ho). rewrite decide_False in Ho by done.
      destruct Ho as (? & _ & x & ? & _). split; [done|by exists x]. }
    set (ks := b_blockno <$> take NBUF bs).
    assert (Hnd : NoDup ks).
    { apply NoDup_alt. intros i j k Hi Hj. unfold ks in Hi, Hj. rewrite list_lookup_fmap in Hi, Hj.
      apply fmap_Some in Hi as (b & [Hi Hlt]%lookup_take_Some & ->), Hj as (b' & [Hj Hlt']%lookup_take_Some & E).
      apply (H4 i j b b'); try done; [apply (Hall i)|apply (Hall j)]; done. }
    assert (Hsub : list_to_set ks ⊆@{gset Z} dom (c_bufs c)).
    { intros k (b & -> & (i & Hi & Hlt)%elem_of_take)%elem_of_list_to_set%list_elem_of_fmap.
      apply elem_of_dom. by apply (Hall i). }
    apply subseteq_size in Hsub. rewrite size_list_to_set, size_dom in Hsub by done.
    unfold ks in Hsub. rewrite length_fmap, length_take, H1 in Hsub. lia.
Qed.

(** Run [upd] at the head of the computation. *)
Ltac run_upd :=
  first
    [ erewrite bind_Ok_eq by (apply buf_upd_ok; cbn; rewrite ?length_alter; unfold HEAD; lia)
    | rewrite buf_upd_ok by (cbn; rewrite ?length_alter; unfold HEAD; lia) ];
  unfold with_bufs; cbn [bufs bc_lock bdisk bhart bpid bwoken].

(** ** bread *)

Definition got (p : Z) (b : buf) : buf :=
  set_sleep (take_sl p (b_lock b)) (set_refcnt (u32 (b_refcnt b + 1)) b).

Lemma alter_alter {A} (f g : A → A) i (l : list A) : alter f i (alter g i l) = alter (λ x, f (g x)) i l.
Proof.
  apply list_eq. intros k. destruct (decide (i = k)) as [<-|Hne].
  - rewrite !list_lookup_alter_eq. by destruct (l !! i).
  - by rewrite !list_lookup_alter_ne.
Qed.

Lemma alter_at {A} (f g : A → A) i (l : list A) x : l !! i = Some x → f x = g x → alter f i l = alter g i l.
Proof.
  intros Hx E. apply list_eq. intros k. destruct (decide (i = k)) as [<-|Hne].
  - rewrite !list_lookup_alter_eq, Hx. simpl. by rewrite E.
  - by rewrite !list_lookup_alter_ne.
Qed.

(** The last steps of [bget], when the chosen buffer is not locked. *)
Lemma got_run bs lk d h p w i b :
  bs !! i = Some b → lock_quiet (sl_lk (b_lock b)) → sl_locked (b_lock b) = 0 → lock_quiet lk → hart_good h →
  (unlock_bcache ;; acquiresleep i ;; mret i)
    (mkbst (alter (λ b, set_refcnt (u32 (b_refcnt b + 1)) b) i bs) (held_by (hartid h) lk) d (push_off h) p w) =
  Ok (i, mkbst (alter (got p) i bs) lk d h p w).
Proof.
  intros Hb Hq H0 Hlk Hh. rewrite (bind_Ok_eq _ _ _ _ _ (unlock_bcache_ok _ _ _ _ _ _ Hlk Hh)).
  set (s := mkbst _ lk d h p w). assert (Hg : se_get i s = b_lock b).
  { cbn. by rewrite list_lookup_alter_eq, Hb. }
  assert (Hv : sl_valid i s) by (unfold s; cbn; by rewrite list_lookup_alter_eq, Hb).
  rewrite (bind_Ok_eq _ _ _ _ _ (acquiresleep_ok i s Hv ltac:(by rewrite Hg) Hh ltac:(by rewrite Hg))).
  rewrite Hg. unfold mret, M_ret. do 2 f_equal. cbn. unfold with_bufs. cbn. f_equal. rewrite alter_alter.
  by apply (alter_at _ _ _ _ _ Hb).
Qed.

(** [bget]: a buffer of the block, one that had it or an unused one that is
    given to it ([bs1] is the array with the new identity). *)
Lemma bget_ok dev k s c :
  bio_rep dev s c → c_room k c →
  ∃ i bs1 b, bufs_ok dev (bpid s) bs1 c ∧ (∃ l, ring bs1 l) ∧ (i < NBUF)%nat ∧ bs1 !! i = Some b ∧
    b_dev b = dev ∧ b_blockno b = k ∧
    bget dev k s = Ok (i, mkbst (alter (got (bpid s)) i bs1) (bc_lock s) (bdisk s) (bhart s) (bpid s) (bwoken s)).
Proof.
  destruct s as [bs lk d h p w]. intros (Hbs & (l & Hr) & Hlk & Hh & Hd) Hroom. simpl in *.
  pose proof (ring_nodup _ _ Hr) as [Hnd Hhd]. pose proof (bo_len _ _ _ _ Hbs) as Hlen.
  assert (Hin : ∀ i, i ∈ l → is_Some (bs !! i)).
  { intros i Hi. apply (ring_elem _ _ _ Hr) in Hi. apply lookup_lt_is_Some. lia. }
  assert (Hll : length l = NBUF) by (destruct Hr as [Hp _]; by rewrite Hp, length_seq).
  destruct (lookup_lt_is_Some_2 bs HEAD) as [hd Hhead]; [rewrite Hlen; unfold HEAD; lia|].
  unfold bget. rewrite (bind_Ok_eq _ _ _ _ _ (lock_bcache_ok bs lk d h p w Hlk)).
  set (s1 := mkbst bs (held_by (hartid h) lk) d (push_off h) p w).
  rewrite (bind_Ok_eq _ _ _ _ _ (getb_ok HEAD s1 hd Hhead)). rewrite (nx_get _ _ _ Hhead).
  destruct (find_cached_ok (S NBUF) dev k s1 (nx bs) (pv bs) HEAD l) as (r & Er & Hres); [apply Hr|apply nx_get|done|done|lia|].
  rewrite (bind_Ok_eq _ _ _ _ _ Er). destruct r as [i|].
  - destruct Hres as (Hi & b & Hb & Hdev & Hk). simpl in Hb. apply (ring_elem _ _ _ Hr) in Hi.
    exists i, bs, b. split_and!; try done; [by exists l|].
    rewrite (bind_Ok_eq _ _ _ _ _ (buf_upd_ok i _ s1 ltac:(simpl; eapply lookup_lt_Some, Hb))). unfold with_bufs. cbn [bufs bc_lock bdisk bhart bpid bwoken].
    destruct (bo_buf _ _ _ _ Hbs i b Hi Hb) as [Hq Ho].
    apply (got_run bs lk d h p w i b); try done.
    destruct (decide (b_refcnt b = 0)); [by destruct Ho|]. destruct Ho as (_ & _ & x & Hx & _ & _ & _ & Hheld).
    unfold c_room in Hroom. rewrite <-Hk, Hx in Hroom. by rewrite Hroom in Hheld.
  - assert (Hno : ∀ j x, (j < NBUF)%nat → bs !! j = Some x → b_dev x = dev → b_blockno x ≠ k).
    { intros j x Hj Hx. apply (Hres j x); [by apply (ring_elem _ _ _ Hr)|done]. }
    assert (Hnone : c_bufs c !! k = None).
    { destruct (c_bufs c !! k) as [x|] eqn:E; [|done]. exfalso.
      destruct (bo_all _ _ _ _ Hbs _ _ E) as (j & y & Hj & Hy & Hry & Hyk).
      destruct (bo_buf _ _ _ _ Hbs j y Hj Hy) as [_ Ho]. rewrite decide_False in Ho by done. by apply (Hno j y); [..|apply Ho|]. }
    unfold c_room in Hroom. rewrite Hnone in Hroom.
    rewrite (bind_Ok_eq _ _ _ _ _ (getb_ok HEAD s1 hd Hhead)). rewrite (pv_get _ _ _ Hhead).
    destruct (find_unused_ok (S NBUF) s1 (pv bs) (nx bs) HEAD (reverse l)) as (r & Er' & Hres').
    { apply dbl_rev, Hr. } { apply pv_get. } { by rewrite elem_of_reverse. }
    { intros i Hi. apply Hin. by rewrite <-elem_of_reverse. } { rewrite length_reverse. lia. }
    rewrite (bind_Ok_eq _ _ _ _ _ Er'). destruct r as [i|].
    2:{ exfalso. destruct (unused_buffer _ _ _ _ Hbs Hroom) as (i & b & Hi & Hb & H0).
        apply (Hres' i b); [|done|done]. by apply elem_of_reverse, (ring_elem _ _ _ Hr). }
    destruct Hres' as (Hi & b & Hb & H0). simpl in Hb. apply elem_of_reverse, (ring_elem _ _ _ Hr) in Hi.
    exists i, (alter (λ b, set_valid 0 (set_ident dev k b)) i bs), (set_valid 0 (set_ident dev k b)).
    split_and!; [by eapply bufs_ok_rename| |done|by rewrite list_lookup_alter_eq, Hb|done|done|].
    { exists l. by apply ring_upd. }
    assert (Hl : (i < length bs)%nat) by (eapply lookup_lt_Some, Hb).
    rewrite (bind_Ok_eq _ _ _ _ _ (buf_upd_ok i _ s1 Hl)). unfold with_bufs. cbn [bufs bc_lock bdisk bhart bpid bwoken s1].
    run_upd.
    run_upd.
    rewrite (alter_alter (set_valid 0)).
    set (bs1 := alter _ i bs). assert (Hb1 : bs1 !! i = Some (set_valid 0 (set_ident dev k b))) by (unfold bs1; by rewrite list_lookup_alter_eq, Hb).
    rewrite (alter_at (set_refcnt 1) (λ b, set_refcnt (u32 (b_refcnt b + 1)) b) i bs1 _ Hb1); [|cbn; by rewrite H0].
    destruct (bo_buf _ _ _ _ Hbs i b Hi Hb) as [Hq Ho]. rewrite decide_True in Ho by done.
    apply (got_run bs1 lk d h p w i _ Hb1); [done|apply Ho|done|done].
Qed.

Lemma virtio_read_ok i s b :
  bufs s !! i = Some b →
  virtio_disk_rw i false s = Ok (tt, with_bufs (alter (set_data (dread (bdisk s) (b_blockno b))) i) s).
Proof.
  intros Hb. unfold virtio_disk_rw. rewrite (bind_Ok_eq _ _ _ _ _ (getb_ok _ _ _ Hb)).
  apply (buf_upd_ok i (set_data (dread (bdisk s) (b_blockno b))) s). eapply lookup_lt_Some, Hb.
Qed.
Lemma virtio_write_ok i s b :
  bufs s !! i = Some b →
  virtio_disk_rw i true s = Ok (tt, with_disk (dwrite (b_blockno b) (b_data b)) s).
Proof. intros Hb. unfold virtio_disk_rw. by rewrite (bind_Ok_eq _ _ _ _ _ (getb_ok _ _ _ Hb)). Qed.

Lemma bread_ok dev k s c :
  bio_rep dev s c → c_room k c → ref_ok (c_refs c k) →
  ∃ i s', bread dev k s = Ok (i, s') ∧ bio_rep dev s' (c_bread k i c) ∧ bhart s' = bhart s.
Proof.
  intros Hrep Hroom Href. destruct (bget_ok dev k s c Hrep Hroom) as (i & bs1 & b & Hbs & (l & Hr) & Hi & Hb & Hdev & Hk & E).
  destruct Hrep as (_ & _ & Hlk & Hh & Hd). destruct s as [bs lk d h p w]. cbn [bufs bc_lock bdisk bhart bpid bwoken] in *.
  unfold bread. rewrite (bind_Ok_eq _ _ _ _ _ E). set (s1 := mkbst _ lk d h p w).
  assert (Hb1 : bufs s1 !! i = Some (got p b)) by (cbn; by rewrite list_lookup_alter_eq, Hb).
  rewrite (bind_Ok_eq _ _ _ _ _ (getb_ok _ _ _ Hb1)). cbn [b_valid got set_sleep set_refcnt].
  destruct (bo_buf _ _ _ _ Hbs i b Hi Hb) as [Hq Ho].
  (* the result, whatever was done to the contents *)
  assert (Hfin : ∀ f, (∀ b, b_next (f b) = b_next b ∧ b_prev (f b) = b_prev b) →
    b_dev (f b) = dev → b_blockno (f b) = k → b_valid (f b) ≠ 0 → b_data (f b) = c_view c k →
    b_lock (f b) = take_sl p (b_lock b) → b_refcnt (f b) = u32 (b_refcnt b + 1) →
    bio_rep dev (mkbst (alter f i bs1) lk d h p w) (c_bread k i c)).
  { intros f Hl Hfd Hfk Hfv Hfdata Hfl Hfr. split_and!; try done; [|exists l; by apply ring_upd].
    assert (Hrefs : b_refcnt b = Z.of_nat (c_refs c k)).
    { unfold c_refs. destruct (decide (b_refcnt b = 0)) as [H0|H0].
      - destruct Ho as [_ Ho]. rewrite <-Hk. destruct (Ho Hdev) as [-> _]. done.
      - destruct Ho as (_ & _ & x & Hx & _ & Hrx & _). by rewrite <-Hk, Hx. }
    unfold ref_ok in Href. assert (Hu : u32 (b_refcnt b + 1) = Z.of_nat (S (c_refs c k))) by (rewrite u32_small; lia).
    eapply bufs_ok_upd; try done; [congruence| | |].
    - intros j Hj. cbn. by rewrite lookup_insert_ne by congruence.
    - split; [by rewrite Hfl|]. rewrite decide_False by (rewrite Hfr, Hu; lia). split; [done|]. split; [done|].
      eexists. cbn. rewrite Hfk, lookup_insert_eq. split; [done|]. cbn. rewrite Hfr, Hu, Hfl.
      split_and!; [done|done|lia|done|]. unfold holds. cbn. by rewrite !bool_decide_true by done.
    - intros _. rewrite Hfr, Hu. lia. }
  case_bool_decide as Hv.
  - destruct (decide (b_refcnt b = 0)) as [H0|H0]; [|by destruct Ho as (_ & ? & _)].
    destruct Ho as [_ Ho]. destruct (Ho Hdev) as [Hnone _]. rewrite Hk in Hnone.
    exists i, (mkbst (alter (λ b, set_valid 1 (set_data (dread d k) (got p b))) i bs1) lk d h p w).
    split; [|split; [|done]].
    + assert (Hlt : (i < length bs1)%nat) by (eapply lookup_lt_Some, Hb).
      unfold mbind at 1, M_bind at 1. rewrite (bind_Ok_eq _ _ _ _ _ (virtio_read_ok _ _ _ Hb1)).
      rewrite buf_upd_ok by (cbn; rewrite !length_alter; exact Hlt).
      unfold mret, M_ret, with_bufs. cbn. by rewrite Hk, !alter_alter.
    + apply Hfin; try done. unfold c_view. rewrite Hnone. cbn. by rewrite Hd.
  - exists i, s1. split; [done|]. split; [|done]. apply Hfin; try done. cbn. unfold c_view.
    destruct (decide (b_refcnt b = 0)) as [H0|H0].
    + destruct Ho as [_ Ho]. destruct (Ho Hdev) as [Hn Hdata]. rewrite <-Hk, Hn. by apply Hdata.
    + destruct Ho as (_ & _ & x & Hx & Hdx & _). by rewrite <-Hk, Hx.
Qed.

(** ** The operations on a locked buffer *)

(** The buffer that stands for a block the process holds. *)
Lemma held_buf dev k i s c :
  bio_rep dev s c → c_holds k i c →
  (i < NBUF)%nat ∧ ∃ b, bufs s !! i = Some b ∧ b_dev b = dev ∧ b_blockno b = k ∧ b_valid b ≠ 0 ∧
    b_data b = c_view c k ∧ b_refcnt b = Z.of_nat (c_refs c k) ∧ b_refcnt b ≠ 0 ∧ Z.of_nat (c_refs c k) < 2 ^ 32 ∧
    lock_quiet (sl_lk (b_lock b)) ∧ holds (bpid s) (b_lock b) = true ∧ sl_valid i s ∧ se_get i s = b_lock b.
Proof.
  intros (Hbs & _) (x & Hx & Hh). destruct (bo_all _ _ _ _ Hbs _ _ Hx) as (j & b & Hj & Hb & Hr & Hk).
  destruct (bo_buf _ _ _ _ Hbs j b Hj Hb) as [Hq Ho]. rewrite decide_False in Ho by done.
  destruct Ho as (Hdev & Hv & x' & Hx' & Hdata & Hrefs & Hlt & Hheld). rewrite Hk, Hx in Hx'. injection Hx' as <-.
  rewrite Hh in Hheld. destruct Hheld as [-> Hheld]. split; [done|]. exists b. unfold c_view, c_refs. rewrite Hx.
  split_and!; try done; cbn; by rewrite Hb.
Qed.

(** One buffer and the entry of its block change together. *)
Lemma rep_upd dev s c k i b f x d p w :
  bio_rep dev s c → c_holds k i c → bufs s !! i = Some b → p = bpid s →
  (∀ b, b_next (f b) = b_next b ∧ b_prev (f b) = b_prev b) → (∀ b, sl_lk (b_lock (f b)) = sl_lk (b_lock b)) →
  b_dev (f b) = b_dev b → b_blockno (f b) = b_blockno b → b_valid (f b) = b_valid b →
  b_data (f b) = cb_data x → b_refcnt (f b) = Z.of_nat (cb_refs x) → (0 < cb_refs x)%nat → Z.of_nat (cb_refs x) < 2 ^ 32 →
  held_ok p i (b_lock (f b)) (cb_held x) → (∀ j, j ≠ k → dread d j = dread (c_disk c) j) →
  bio_rep dev (mkbst (alter f i (bufs s)) (bc_lock s) d (bhart s) p w) (mkcache d (<[k := x]> (c_bufs c))).
Proof.
  intros Hrep Hhold Hb -> Hlinks Hlk Hfd Hfk Hfv Hdata Hrefs H0 Hlt Hheld Hd.
  destruct (held_buf _ _ _ _ _ Hrep Hhold) as (Hi & b' & Hb' & Hdev & Hk & Hv & _ & _ & _ & _ & Hq & _).
  rewrite Hb in Hb'. injection Hb' as <-. destruct Hrep as (Hbs & (l & Hr) & Hbl & Hh & _).
  split_and!; try done; [|exists l; by apply ring_upd]. cbn.
  eapply bufs_ok_upd; try done; cbn; [congruence| | |].
  - intros j Hj. rewrite Hk in Hj. split; [by rewrite lookup_insert_ne|by apply Hd].
  - split; [by rewrite Hlk|]. rewrite decide_False by (rewrite Hrefs; lia). split; [congruence|]. split; [congruence|].
    exists x. cbn. by rewrite Hfk, Hk, lookup_insert_eq.
  - intros _. rewrite Hrefs. lia.
Qed.

Lemma bwrite_ok dev k i s c :
  bio_rep dev s c → c_holds k i c →
  ∃ s', bwrite i s = Ok (tt, s') ∧ bio_rep dev s' (c_bwrite k c) ∧ bhart s' = bhart s.
Proof.
  intros Hrep Hhold. destruct (held_buf _ _ _ _ _ Hrep Hhold) as (Hi & b & Hb & Hdev & Hk & Hv & Hdata & Hrefs & Hr0 & Hlt & Hq & Hheld & Hsv & Hsg).
  pose proof Hrep as (Hbs & (l & Hr) & Hbl & Hh & Hd).
  unfold bwrite. rewrite (bind_Ok_eq _ _ _ _ _ (holdingsleep_ok i s Hsv ltac:(by rewrite Hsg) Hh)).
  rewrite Hsg. cbn [se_pid buf_locks]. rewrite Hheld. cbn [negb].
  rewrite (virtio_write_ok _ _ _ Hb). eexists. split; [done|]. split; [|done].
  destruct Hhold as (x & Hx & Hxh). split_and!; try done; [|by exists l|cbn; by rewrite Hd, Hk, Hdata].
  constructor; [apply Hbs| |apply Hbs|apply Hbs].
  intros j y Hj Hy. destruct (bo_buf _ _ _ _ Hbs j y Hj Hy) as [Hyq Hyo]. split; [done|]. case_decide as Hy0; [|done].
  destruct Hyo as [Hyl Hyo]. split; [done|]. intros Hyd. destruct (Hyo Hyd) as [Hn Hdat]. split; [done|].
  intros Hyv. unfold c_bwrite. cbn [c_disk]. rewrite dread_write, decide_False; [by apply Hdat|]. intros E. congruence.
Qed.

Lemma bpin_ok dev k i s c :
  bio_rep dev s c → c_holds k i c → ref_ok (c_refs c k) →
  ∃ s', bpin i s = Ok (tt, s') ∧ bio_rep dev s' (c_bpin k i c) ∧ bhart s' = bhart s.
Proof.
  intros Hrep Hhold Href. destruct (held_buf _ _ _ _ _ Hrep Hhold) as (Hi & b & Hb & Hdev & Hk & Hv & Hdata & Hrefs & Hr0 & Hlt & Hq & Hheld & Hsv & Hsg).
  pose proof Hrep as (Hbs & (l & Hr) & Hbl & Hh & Hd). destruct s as [bs lk d h p w]. cbn [bufs bc_lock bdisk bhart bpid] in *.
  unfold bpin. rewrite (bind_Ok_eq _ _ _ _ _ (lock_bcache_ok bs lk d h p w Hbl)).
  erewrite bind_Ok_eq by (apply buf_upd_ok; cbn; eapply lookup_lt_Some, Hb). unfold with_bufs. cbn [bufs bc_lock bdisk bhart bpid bwoken].
  rewrite unlock_bcache_ok by done. eexists. split; [done|]. split; [|done].
  unfold c_bpin, c_put. rewrite <-Hd. unfold ref_ok in Href.
  eapply (rep_upd dev (mkbst bs lk d h p w)); try done; cbn [cb_data cb_refs cb_held b_data b_refcnt set_refcnt].
  - rewrite Hrefs, u32_small; lia.
  - lia.
  - lia.
  - intros j _. cbn. by rewrite Hd.
Qed.

Lemma bunpin_ok dev k i s c :
  bio_rep dev s c → c_holds k i c → (1 < c_refs c k)%nat →
  ∃ s', bunpin i s = Ok (tt, s') ∧ bio_rep dev s' (c_bunpin k i c) ∧ bhart s' = bhart s.
Proof.
  intros Hrep Hhold Href. destruct (held_buf _ _ _ _ _ Hrep Hhold) as (Hi & b & Hb & Hdev & Hk & Hv & Hdata & Hrefs & Hr0 & Hlt & Hq & Hheld & Hsv & Hsg).
  pose proof Hrep as (Hbs & (l & Hr) & Hbl & Hh & Hd). destruct s as [bs lk d h p w]. cbn [bufs bc_lock bdisk bhart bpid] in *.
  unfold bunpin. rewrite (bind_Ok_eq _ _ _ _ _ (lock_bcache_ok bs lk d h p w Hbl)).
  erewrite bind_Ok_eq by (apply buf_upd_ok; cbn; eapply lookup_lt_Some, Hb). unfold with_bufs. cbn [bufs bc_lock bdisk bhart bpid bwoken].
  rewrite unlock_bcache_ok by done. eexists. split; [done|]. split; [|done].
  unfold c_bunpin, c_put. rewrite <-Hd.
  eapply (rep_upd dev (mkbst bs lk d h p w)); try done; cbn [cb_data cb_refs cb_held b_data b_refcnt set_refcnt].
  - rewrite Hrefs, u32_small; lia.
  - lia.
  - lia.
  - intros j _. cbn. by rewrite Hd.
Qed.

Definition bdata (i : nat) : M bst (list Z) := b ← getb i; mret (b_data b).
Definition bstore (i : nat) (l : list Z) : M bst unit := upd i (set_data l).
Definition blockno (i : nat) : M bst Z := b ← getb i; mret (b_blockno b).

Lemma bstore_ok dev k i l s c :
  bio_rep dev s c → c_holds k i c →
  ∃ s', bstore i l s = Ok (tt, s') ∧ bio_rep dev s' (c_store k i l c) ∧ bhart s' = bhart s.
Proof.
  intros Hrep Hhold. destruct (held_buf _ _ _ _ _ Hrep Hhold) as (Hi & b & Hb & Hdev & Hk & Hv & Hdata & Hrefs & Hr0 & Hlt & Hq & Hheld & Hsv & Hsg).
  pose proof Hrep as (Hbs & _ & Hbl & Hh & Hd). unfold bstore.
  rewrite buf_upd_ok by (eapply lookup_lt_Some, Hb). eexists. split; [done|]. split; [|done].
  unfold c_store, c_put, with_bufs. rewrite Hd.
  eapply (rep_upd dev s); try done; cbn [cb_data cb_refs cb_held b_data b_refcnt set_data]. lia.
Qed.

Lemma bdata_ok dev k i s c : bio_rep dev s c → c_holds k i c → bdata i s = Ok (c_view c k, s).
Proof.
  intros Hrep Hh. destruct (held_buf _ _ _ _ _ Hrep Hh) as (_ & x & Hx & _ & _ & _ & <- & _).
  unfold bdata. by rewrite (bind_Ok_eq _ _ _ _ _ (getb_ok _ _ _ Hx)).
Qed.
Lemma blockno_ok dev k i s c : bio_rep dev s c → c_holds k i c → blockno i s = Ok (k, s).
Proof.
  intros Hrep Hh. destruct (held_buf _ _ _ _ _ Hrep Hh) as (_ & x & Hx & _ & <- & _).
  unfold blockno. by rewrite (bind_Ok_eq _ _ _ _ _ (getb_ok _ _ _ Hx)).
Qed.

(** ** Moving a buffer to the front of the ring *)

Lemma getb_links j s :
  (j < length (bufs s))%nat → ∃ b, getb j s = Ok (b, s) ∧ b_next b = nx (bufs s) j ∧ b_prev b = pv (bufs s) j.
Proof.
  intros [b Hb]%lookup_lt_is_Some. exists b. split; [by apply getb_ok|]. split; [by apply nx_get|by apply pv_get].
Qed.

Lemma core_alter (bs : list buf) (i : nat) f :
  (∀ b, bcore (f b) = bcore b) → ∀ j, bcore <$> alter f i bs !! j = bcore <$> bs !! j.
Proof.
  intros Hf j. destruct (decide (i = j)) as [<-|Hne]; [|by rewrite list_lookup_alter_ne].
  rewrite list_lookup_alter_eq. destruct (bs !! i); [|done]. simpl. by rewrite Hf.
Qed.

(** The links of a ring stay inside the array. *)
Lemma buf_ring_range bs l (i : nat) : ring bs l → i ∈ HEAD :: l → (nx bs i ≤ NBUF)%nat ∧ (pv bs i ≤ NBUF)%nat.
Proof.
  intros Hr Hi. pose proof (ring_nodup _ _ Hr) as [Hnd Hh].
  assert (Hin : ∀ z, z ∈ HEAD :: l → (z ≤ NBUF)%nat).
  { intros z [->|Hz]%elem_of_cons; [unfold HEAD; lia|]. apply (ring_elem _ _ _ Hr) in Hz. lia. }
  assert (Hseg : ∀ f g x l' y, dbl f g x l' y → (y ≤ NBUF)%nat → (x ≤ NBUF)%nat → (∀ z, z ∈ l' → (z ≤ NBUF)%nat) → (f x ≤ NBUF)%nat ∧ (g y ≤ NBUF)%nat).
  { intros f g x l' y H Hy Hx Hz. rewrite (dbl_first _ _ _ _ _ H), (dbl_last _ _ _ _ _ H). split.
    - destruct l'; simpl; [done|apply Hz; set_solver].
    - destruct (last l') eqn:E; simpl; [|done]. apply last_Some in E as [? ->]. apply Hz. set_solver. }
  apply elem_of_cons in Hi as [->|Hi].
  - destruct Hr as [Hp Hd]. eapply Hseg; [exact Hd|unfold HEAD; lia|unfold HEAD; lia|]. intros z Hz. apply Hin. set_solver.
  - apply list_elem_of_split in Hi as (l1 & l2 & ->). destruct Hr as [Hp (H1 & H2)%dbl_app].
    assert (Hni : (i ≤ NBUF)%nat) by (apply Hin; set_solver). split.
    + eapply (Hseg _ _ i l2 HEAD H2); [unfold HEAD; lia|done|]. intros z Hz. apply Hin. set_solver.
    + eapply (Hseg _ _ HEAD l1 i H1); [done|unfold HEAD; lia|]. intros z Hz. apply Hin. set_solver.
Qed.

Definition move_front (i : nat) : M bst unit :=
  b ← getb i; upd (b_next b) (set_prev (b_prev b)) ;;
  b ← getb i; upd (b_prev b) (set_next (b_next b)) ;;
  push_front i.

Lemma move_front_ok bs lk d h p w l i :
  ring bs l → length bs = S NBUF → (i < NBUF)%nat →
  ∃ bs' l', move_front i (mkbst bs lk d h p w) = Ok (tt, mkbst bs' lk d h p w) ∧ ring bs' l' ∧
    (∀ j, bcore <$> bs' !! j = bcore <$> bs !! j).
Proof.
  intros Hr Hlen Hi. pose proof (ring_nodup _ _ Hr) as [Hnd Hh].
  assert (Hil : i ∈ l) by (by apply (ring_elem _ _ _ Hr)).
  destruct (buf_ring_range _ _ i Hr ltac:(set_solver)) as [Hn Hp].
  assert (HiH : i ≠ HEAD) by (unfold HEAD; lia).
  set (n := nx bs i) in *. set (q := pv bs i) in *.
  unfold move_front. destruct (getb_links i (mkbst bs lk d h p w)) as (b & E & Hbn & Hbp); [simpl; lia|].
  rewrite (bind_Ok_eq _ _ _ _ _ E), Hbn, Hbp. cbn [bufs]. fold n q.
  set (bs1 := alter (set_prev q) n bs). assert (L1 : length bs1 = S NBUF) by (unfold bs1; by rewrite length_alter).
  run_upd. fold bs1.
  destruct (alter_prev bs n q ltac:(lia)) as [P1 N1]. fold bs1 in P1, N1.
  destruct (getb_links i (mkbst bs1 lk d h p w)) as (b1 & E1 & Hbn1 & Hbp1); [simpl; lia|].
  rewrite (bind_Ok_eq _ _ _ _ _ E1), Hbn1, Hbp1. cbn [bufs]. rewrite N1, P1. fold n.
  assert (Hq1 : fupd (pv bs) n q i = q) by (unfold fupd; by case_decide). rewrite Hq1.
  set (bs2 := alter (set_next n) q bs1). assert (L2 : length bs2 = S NBUF) by (unfold bs2; by rewrite length_alter).
  run_upd. fold bs2.
  destruct (alter_next bs1 q n ltac:(lia)) as [N2 P2]. fold bs2 in P2, N2.
  assert (Hd2 : ∃ l', l' ≡ₚ l ∧ ∃ l2, l' = i :: l2 ∧ dbl (nx bs2) (pv bs2) HEAD l2 HEAD).
  { apply list_elem_of_split in Hil as (l1 & l2 & ->). exists (i :: l1 ++ l2). split; [by rewrite Permutation_middle|].
    exists (l1 ++ l2). split; [done|]. destruct Hr as [_ Hd].
    eapply dbl_ext; [apply (dbl_unlink _ _ _ _ _ _ _ Hd Hnd Hh)| |]; intros z.
    - fold n q. rewrite N2. unfold fupd. case_decide; [done|apply N1].
    - fold n q. rewrite P2. apply P1. }
  destruct Hd2 as (l' & Hperm & l2 & -> & Hd2).
  assert (Hl2 : (∀ z, z ∈ i :: l2 → (z < NBUF)%nat)).
  { intros z Hz. rewrite Hperm in Hz. by apply (ring_elem _ _ _ Hr). }
  set (m := nx bs2 HEAD). assert (Hm : (m ≤ NBUF)%nat).
  { unfold m. rewrite (dbl_first _ _ _ _ _ Hd2). destruct l2 as [|a l2]; simpl; [unfold HEAD; lia|]. assert (a < NBUF)%nat by (apply Hl2; set_solver). lia. }
  unfold push_front. destruct (getb_links HEAD (mkbst bs2 lk d h p w)) as (b2 & E2 & Hbn2 & _); [simpl; unfold HEAD; lia|].
  rewrite (bind_Ok_eq _ _ _ _ _ E2), Hbn2. cbn [bufs]. fold m.
  set (bs3 := alter (set_next m) i bs2). assert (L3 : length bs3 = S NBUF) by (unfold bs3; by rewrite length_alter).
  run_upd. fold bs3.
  destruct (alter_next bs2 i m ltac:(lia)) as [N3 P3]. fold bs3 in P3, N3.
  set (bs4 := alter (set_prev HEAD) i bs3). assert (L4 : length bs4 = S NBUF) by (unfold bs4; by rewrite length_alter).
  run_upd. fold bs4.
  destruct (alter_prev bs3 i HEAD ltac:(lia)) as [P4 N4]. fold bs4 in P4, N4.
  destruct (getb_links HEAD (mkbst bs4 lk d h p w)) as (b4 & E4 & Hbn4 & _); [simpl; unfold HEAD; lia|].
  rewrite (bind_Ok_eq _ _ _ _ _ E4), Hbn4. cbn [bufs]. rewrite N4, N3, fupd_ne by done. fold m.
  set (bs5 := alter (set_prev i) m bs4). assert (L5 : length bs5 = S NBUF) by (unfold bs5; by rewrite length_alter).
  run_upd. fold bs5.
  destruct (alter_prev bs4 m i ltac:(lia)) as [P5 N5]. fold bs5 in P5, N5.
  run_upd.
  set (bs6 := alter (set_next i) HEAD bs5).
  destruct (alter_next bs5 HEAD i ltac:(unfold HEAD; lia)) as [N6 P6]. fold bs6 in P6, N6.
  exists bs6, (i :: l2). split; [done|]. split.
  - split; [by rewrite Hperm; apply Hr|]. destruct Hr as [Hps _].
    eapply dbl_ext; [apply (dbl_push _ _ _ i _ _ Hd2)| |].
    + by rewrite Hperm.
    + intros Hx. apply Hl2 in Hx. unfold HEAD in Hx. lia.
    + intros z. rewrite N6. fold m. unfold fupd. case_decide; [done|]. rewrite N5, N4, N3. done.
    + intros z. rewrite P6, P5. fold m. unfold fupd. case_decide; [done|]. rewrite P4. unfold fupd. case_decide; [done|]. by rewrite P3.
  - intros j. unfold bs6, bs5, bs4, bs3, bs2, bs1. by rewrite !core_alter.
Qed.

(** ** brelse *)

Lemma brelse_ok dev k i s c :
  bio_rep dev s c → c_holds k i c → (c_refs c k = 1%nat → c_view c k = dread (c_disk c) k) →
  ∃ s', brelse i s = Ok (tt, s') ∧ bio_rep dev s' (c_brelse k c) ∧ bhart s' = bhart s.
Proof.
  intros Hrep Hhold Hclean. destruct (held_buf _ _ _ _ _ Hrep Hhold) as (Hi & b & Hb & Hdev & Hk & Hv & Hdata & Hrefs & Hr0 & Hlt & Hq & Hheld & Hsv & Hsg).
  pose proof Hrep as (Hbs & (l & Hr) & Hbl & Hh & Hd).
  unfold brelse. rewrite (bind_Ok_eq _ _ _ _ _ (holdingsleep_ok i s Hsv ltac:(by rewrite Hsg) Hh)).
  rewrite Hsg. cbn [se_pid buf_locks]. rewrite Hheld. cbn [negb].
  rewrite (bind_Ok_eq _ _ _ _ _ (releasesleep_ok i s Hsv ltac:(by rewrite Hsg) Hh)). rewrite Hsg.
  destruct s as [bs lk d h p w]. cbn [bufs bc_lock bdisk bhart bpid bwoken se_set se_wakeup buf_locks] in *. unfold with_bufs. cbn [bufs bc_lock bdisk bhart bpid bwoken].
  pose proof (bo_len _ _ _ _ Hbs) as Hlen.
  rewrite (bind_Ok_eq _ _ _ _ _ (lock_bcache_ok _ lk d h p _ Hbl)). run_upd. rewrite alter_alter.
  set (f := λ x, set_refcnt _ _). assert (Hf : f b = set_refcnt (b_refcnt b - 1) (set_sleep (drop_sl (b_lock b)) b)).
  { unfold f. cbn. rewrite u32_small by lia. done. }
  assert (Hlinks : ∀ x, b_next (f x) = b_next x ∧ b_prev (f x) = b_prev x) by done.
  set (s1 := mkbst _ (held_by _ lk) _ _ _ _).
  assert (Hb1 : bufs s1 !! i = Some (f b)) by (cbn; by rewrite list_lookup_alter_eq, Hb).
  rewrite (bind_Ok_eq _ _ _ _ _ (getb_ok _ _ _ Hb1)). rewrite Hf. cbn [b_refcnt set_refcnt].
  assert (Hbase : ∀ c', (∀ j, j ≠ k → c_bufs c' !! j = c_bufs c !! j) → c_disk c' = c_disk c →
    buf_ok dev p c' i (f b) → (is_Some (c_bufs c' !! k) → b_refcnt (f b) ≠ 0) → bufs_ok dev p (alter f i bs) c').
  { intros c' Hc Hcd Hok Hsome. apply (bufs_ok_upd dev p bs c c' i b f); [done|done|done|done|done|done| |done|by rewrite Hk].
    intros j Hj. rewrite Hcd. split; [apply Hc; congruence|done]. }
  unfold c_brelse. destruct (decide (c_refs c k = 1%nat)) as [H1|H1].
  - rewrite bool_decide_true by (rewrite Hrefs, H1; done).
    destruct (move_front_ok (alter f i bs) (held_by (hartid h) lk) d (push_off h) p (i :: w) l i) as (bs' & l' & E & Hr' & Hcore);
      [by apply ring_upd|by rewrite length_alter|done|].
    fold (move_front i). fold s1 in E. rewrite (bind_Ok_eq _ _ _ _ _ E). rewrite unlock_bcache_ok by done.
    eexists. split; [done|]. split; [|done]. split_and!; try done; [|by exists l'].
    cbn. eapply bufs_ok_core; [|exact Hcore]. apply Hbase; cbn [c_bufs c_disk].
    + intros j Hj. by rewrite lookup_delete_ne.
    + done.
    + rewrite Hf. split; [done|]. cbn. rewrite decide_True by lia. split; [done|]. intros _.
      rewrite Hk, lookup_delete_eq. split; [done|]. intros _. rewrite Hdata. by apply Hclean.
    + rewrite lookup_delete_eq. by intros [].
  - rewrite bool_decide_false by lia. unfold mbind at 1, M_bind at 1. cbn [mret M_ret]. unfold s1. rewrite unlock_bcache_ok by done.
    eexists. split; [done|]. split; [|done]. split_and!; try done; [|exists l; by apply ring_upd].
    apply Hbase; unfold c_put; cbn [c_bufs c_disk].
    + intros j Hj. by rewrite lookup_insert_ne.
    + done.
    + rewrite Hf. split; [done|]. cbn. rewrite decide_False by lia. split; [done|]. split; [done|].
      eexists. rewrite Hk, lookup_insert_eq. split; [done|]. cbn. split_and!; [done|lia|lia|done].
    + intros _. rewrite Hf. cbn [b_refcnt set_refcnt]. lia.
Qed.

(** With 30 other blocks in use there is no buffer left. *)
Lemma size_list_to_set_le (l : list Z) : (size (list_to_set l : gset Z) ≤ length l)%nat.
Proof.
  induction l as [|x l IH]; [done|]. cbn [list_to_set length].
  destruct (decide (x ∈ (list_to_set l : gset Z))) as [Hx|Hx].
  - rewrite subseteq_union_1_L by set_solver. lia.
  - rewrite size_union by set_solver. rewrite size_singleton. lia.
Qed.

Lemma all_used dev pid bs c i b :
  bufs_ok dev pid bs c → size (c_bufs c) = NBUF → (i < NBUF)%nat → bs !! i = Some b → b_refcnt b ≠ 0.
Proof.
  intros [H1 H2 H3 H4] Hsz Hi Hb H0. set (us := filter (λ b, b_refcnt b ≠ 0) (take NBUF bs)).
  assert (Hlt : (length us < length (take NBUF bs))%nat).
  { apply (length_filter_lt _ _ b); [apply elem_of_take; eauto|tauto]. }
  assert (Hsub : dom (c_bufs c) ⊆ (list_to_set (b_blockno <$> us) : gset Z)).
  { intros k [x Hx]%elem_of_dom. destruct (H3 _ _ Hx) as (j & y & Hj & Hy & Hr & <-).
    apply elem_of_list_to_set, list_elem_of_fmap. exists y. split; [done|]. apply list_elem_of_filter. split; [done|].
    apply elem_of_take. eauto. }
  apply subseteq_size in Hsub. pose proof (size_list_to_set_le (b_blockno <$> us)) as Hle.
  rewrite length_fmap in Hle. rewrite size_dom, Hsz in Hsub. rewrite length_take in Hlt. lia.
Qed.

Lemma bread_full_ok dev k s c :
  bio_rep dev s c → c_bufs c !! k = None → size (c_bufs c) = NBUF → bread dev k s = Panic "bget: no buffers".
Proof.
  intros (Hbs & (l & Hr) & Hbl & Hh & Hd) Hk Hsz. destruct s as [bs lk d h p w]. cbn [bufs bc_lock bdisk bhart bpid] in *.
  pose proof (ring_nodup _ _ Hr) as [Hnd Hhd]. pose proof (bo_len _ _ _ _ Hbs) as Hlen.
  assert (Hin : ∀ i, i ∈ l → (i < NBUF)%nat ∧ is_Some (bs !! i)).
  { intros i Hi. apply (ring_elem _ _ _ Hr) in Hi. split; [done|]. apply lookup_lt_is_Some. lia. }
  assert (Hll : length l = NBUF) by (destruct Hr as [Hp _]; by rewrite Hp, length_seq).
  destruct (lookup_lt_is_Some_2 bs HEAD) as [hd Hhead]; [rewrite Hlen; unfold HEAD; lia|].
  unfold bread, bget, mbind, M_bind. rewrite (lock_bcache_ok bs lk d h p w Hbl).
  set (s1 := mkbst bs (held_by (hartid h) lk) d (push_off h) p w).
  rewrite (getb_ok HEAD s1 hd Hhead). rewrite (nx_get _ _ _ Hhead).
  destruct (find_cached_ok (S NBUF) dev k s1 (nx bs) (pv bs) HEAD l) as (r & Er & Hres); [apply Hr|apply nx_get|done|apply Hin|lia|].
  rewrite Er. destruct r as [i|].
  { exfalso. destruct Hres as (Hi & b & Hb & Hdev & Hbk). apply Hin in Hi as [Hi _]. simpl in Hb.
    pose proof (all_used _ _ _ _ i b Hbs Hsz Hi Hb) as Hu. destruct (bo_buf _ _ _ _ Hbs i b Hi Hb) as [_ Ho].
    rewrite decide_False in Ho by done. destruct Ho as (_ & _ & x & Hx & _). congruence. }
  rewrite (getb_ok HEAD s1 hd Hhead). rewrite (pv_get _ _ _ Hhead).
  destruct (find_unused_ok (S NBUF) s1 (pv bs) (nx bs) HEAD (reverse l)) as (r & Er' & Hres').
  { apply dbl_rev, Hr. } { apply pv_get. } { by rewrite elem_of_reverse. }
  { intros i Hi. apply Hin. by rewrite <-elem_of_reverse. } { rewrite length_reverse. lia. }
  rewrite Er'. destruct r as [i|]; [|done]. exfalso. destruct Hres' as (Hi & b & Hb & H0).
  apply elem_of_reverse, Hin in Hi as [Hi _]. by apply (all_used _ _ _ _ i b Hbs Hsz Hi Hb).
Qed.

(** ** The interface *)

#[export] Instance bio_cache : BufCache bst := {
  BufCache.bread := bread; BufCache.bwrite := bwrite; BufCache.brelse := brelse;
  BufCache.bpin := bpin; BufCache.bunpin := bunpin;
  BufCache.bdata := bdata; BufCache.bstore := bstore; BufCache.blockno := blockno;
  bc_hart := bhart; bc_set_hart := with_hart; bc_disk := bdisk; bc_rep := bio_rep }.

#[export] Instance bio_cache_laws : BufCacheLaws bst.
Proof.
  constructor; simpl.
  - apply bread_ok.
  - apply bread_full_ok.
  - intros. by apply bwrite_ok.
  - intros. by apply brelse_ok.
  - intros. by apply bpin_ok.
  - intros. by apply bunpin_ok.
  - intros. by eapply bdata_ok.
  - intros. by apply bstore_ok.
  - intros. by eapply blockno_ok.
  - intros dev s c (_ & _ & _ & _ & ?). done.
  - intros dev s c (_ & _ & _ & ? & _). done.
  - intros dev s c h (? & ? & ? & ? & ?) Hh. done.
  - done.
  - done.
  - by intros [].
Qed.

(** ** At boot *)

(** The kernel's zeroed memory; the contents of the buffers do not matter. *)
Definition bss (z : list Z) : list buf := replicate (S NBUF) (set_data z buf0).
Definition boot_state (z : list Z) (d : disk) (pid : Z) : bst :=
  mkbst (bss z) (mklock "" 0 None) d (mkhart 0 true 0 true) pid [].

(** The buffers after [binit], in the order of the array; the head is last. *)
Definition linked (z : list Z) (i : nat) : buf :=
  let lk := if decide (i = HEAD) then mksleep 0 (mklock "" 0 None) "" 0 else initsleeplock "buffer" in
  mkbuf 0 0 0 lk 0 (if decide (i = 29)%nat then 30 else if decide (i = 30)%nat then 0 else S i)%nat
    (if decide (i = 0)%nat then 30 else pred i)%nat z.
Definition booted (z : list Z) (d : disk) (pid : Z) : bst :=
  mkbst (linked z <$> seq 0 (S NBUF)) (initlock "bcache") d (mkhart 0 true 0 true) pid [].

Lemma binit_run z d pid : binit (boot_state z d pid) = Ok (tt, booted z d pid).
Proof. vm_compute. reflexivity. Qed.

Lemma linked_lookup z i b : (linked z <$> seq 0 (S NBUF)) !! i = Some b → (i < S NBUF)%nat ∧ b = linked z i.
Proof.
  rewrite list_lookup_fmap. intros (j & Hj & ->)%fmap_Some. apply lookup_seq in Hj as [-> Hj]. done.
Qed.

Lemma booted_rep z d pid dev : dev ≠ 0 → bio_rep dev (booted z d pid) (mkcache d ∅).
Proof.
  intros Hdev. split_and!.
  - constructor.
    + cbn [bufs booted]. by rewrite length_fmap, length_seq.
    + intros i b Hi Hb. apply linked_lookup in Hb as [_ ->]. unfold linked.
      rewrite (decide_False (P := i = HEAD)) by (unfold HEAD; lia). split; [done|]. cbn. done.
    + intros k x Hx. cbn in Hx. by rewrite lookup_empty in Hx.
    + intros i j b b' _ _ Hb _ Hd. apply linked_lookup in Hb as [_ ->]. simpl in Hd. congruence.
  - exists (reverse (seq 0 NBUF)). split; [apply reverse_Permutation|]. vm_compute. repeat split.
  - done.
  - split; [split; [done|done]|done].
  - done.
Qed.
