(* ===== verification/BioClaims.v ===== *)
(** * What the buffer cache promises, for whole runs

    Any sequence of cache operations by one process, from the state [binit]
    leaves, against a specification that knows only block numbers. *)
From S2P Require Import Prelude Spinlock Sleeplock BufCache Bio BioSpec.

(** An operation on block [k]; all but [ORead] are on a block the process has
    locked. *)
Inductive bop :=
  | ORead (k : Z) | OStore (k : Z) (l : list Z) | OWrite (k : Z) | ORelse (k : Z) | OPin (k : Z) | OUnpin (k : Z).

(** ** The specification

    Of [cache], with the buffer of a locked block always called 0.  [None]: the
    caller breaks the rules (an access to a block it has not locked, a second
    lock, more than 30 blocks in use, or the last release of a block whose
    changes were not written). *)
Definition locked (k : Z) (a : cache) : bool :=
  match c_bufs a !! k with Some x => bool_decide (cb_held x = Some 0%nat) | None => false end.
Definition room (k : Z) (a : cache) : bool :=
  match c_bufs a !! k with
  | Some x => bool_decide (cb_held x = None)
  | None => bool_decide (size (c_bufs a) < NBUF)%nat
  end.

Definition aspec (o : bop) (a : cache) : option (list Z * cache) :=
  match o with
  | ORead k => if room k a && bool_decide (ref_ok (c_refs a k)) then Some (c_view a k, c_bread k 0 a) else None
  | OStore k l => if locked k a then Some ([], c_store k 0 l a) else None
  | OWrite k => if locked k a then Some ([], c_bwrite k a) else None
  | ORelse k =>
      if locked k a && bool_decide (c_refs a k = 1%nat → c_view a k = dread (c_disk a) k)
      then Some ([], c_brelse k a) else None
  | OPin k => if locked k a && bool_decide (ref_ok (c_refs a k)) then Some ([], c_bpin k 0 a) else None
  | OUnpin k => if locked k a && bool_decide (1 < c_refs a k)%nat then Some ([], c_bunpin k 0 a) else None
  end.
Fixpoint aspecs (os : list bop) (a : cache) : option (list (list Z) * cache) :=
  match os with
  | [] => Some ([], a)
  | o :: os =>
      '(r, a) ← aspec o a;
      '(rs, a) ← aspecs os a;
      Some (r :: rs, a)
  end.

(** ** The code

    The process remembers the buffer [bread] returned for a block. *)
Definition run_bop (dev : Z) (o : bop) (env : gmap Z nat) : M bst (list Z * gmap Z nat) :=
  let on k (c : nat → M bst unit) := match env !! k with Some h => c h | None => fault end in
  match o with
  | ORead k => h ← bread dev k; l ← bdata h; mret (l, <[k := h]> env)
  | OStore k l => on k (λ h, bstore h l) ;; mret ([], env)
  | OWrite k => on k bwrite ;; mret ([], env)
  | ORelse k => on k brelse ;; mret ([], delete k env)
  | OPin k => on k bpin ;; mret ([], env)
  | OUnpin k => on k bunpin ;; mret ([], env)
  end.
Fixpoint run_bops (dev : Z) (os : list bop) (env : gmap Z nat) : M bst (list (list Z)) :=
  match os with
  | [] => mret []
  | o :: os =>
      '(r, env) ← run_bop dev o env;
      rs ← run_bops dev os env;
      mret (r :: rs)
  end.

(** ** The simulation *)

(** The same entry, but for the name of the buffer. *)
Definition same_entry (h : option nat) (x y : option cbuf) : Prop :=
  match x, y with
  | Some x, Some y => cb_data x = cb_data y ∧ cb_refs x = cb_refs y ∧
      (cb_held x = None ∧ cb_held y = None ∨ ∃ i, h = Some i ∧ cb_held x = Some i ∧ cb_held y = Some 0%nat)
  | None, None => True
  | _, _ => False
  end.
Definition sim (env : gmap Z nat) (c a : cache) : Prop :=
  c_disk c = c_disk a ∧ ∀ k, same_entry (env !! k) (c_bufs c !! k) (c_bufs a !! k).

Lemma sim_view env c a k : sim env c a → c_view c k = c_view a k.
Proof.
  intros [Hd H]. unfold c_view. specialize (H k). unfold same_entry in H.
  destruct (c_bufs c !! k), (c_bufs a !! k); try done; [by destruct H|by rewrite Hd].
Qed.
Lemma sim_refs env c a k : sim env c a → c_refs c k = c_refs a k.
Proof.
  intros [Hd H]. unfold c_refs. specialize (H k). unfold same_entry in H.
  destruct (c_bufs c !! k), (c_bufs a !! k); try done. by destruct H as (_ & ? & _).
Qed.
Lemma sim_size env c a : sim env c a → size (c_bufs c) = size (c_bufs a).
Proof.
  intros [_ H]. rewrite <-!(size_dom (D := gset Z)). f_equal. apply set_eq. intros k. rewrite !elem_of_dom.
  specialize (H k). unfold same_entry in H. destruct (c_bufs c !! k), (c_bufs a !! k); try done; split; intros []; try done; by eexists.
Qed.
Lemma sim_room env c a k : sim env c a → room k a = true → c_room k c.
Proof.
  intros Hs H. pose proof (sim_size _ _ _ Hs) as Hsz. destruct Hs as [_ Hs]. specialize (Hs k).
  unfold room, c_room, same_entry in *. destruct (c_bufs c !! k), (c_bufs a !! k); try done.
  - apply bool_decide_eq_true in H. destruct Hs as (_ & _ & [[? _]|(i & _ & _ & ?)]); [done|congruence].
  - apply bool_decide_eq_true in H. lia.
Qed.
Lemma sim_locked env c a k : sim env c a → locked k a = true → ∃ i, env !! k = Some i ∧ c_holds k i c.
Proof.
  intros [_ Hs] H. specialize (Hs k). unfold locked, same_entry, c_holds in *.
  destruct (c_bufs c !! k) as [x|], (c_bufs a !! k); try done. apply bool_decide_eq_true in H.
  destruct Hs as (_ & _ & [[_ ?]|(i & ? & ? & _)]); [congruence|]. exists i. split; [done|by exists x].
Qed.

(** The entry of one block changes in step. *)
Lemma sim_put env c a k l r h :
  sim env c a → env !! k = Some h →
  sim env (c_put k (mkcbuf l r (Some h)) c) (c_put k (mkcbuf l r (Some 0%nat)) a).
Proof.
  intros [Hd H] Hk. split; [done|]. intros j. cbn. destruct (decide (j = k)) as [->|Hne].
  - rewrite !lookup_insert_eq, Hk. cbn. split; [done|]. split; [done|]. right. by exists h.
  - rewrite !lookup_insert_ne by done. apply H.
Qed.
Lemma sim_new env c a k l r h :
  sim env c a → sim (<[k := h]> env) (c_put k (mkcbuf l r (Some h)) c) (c_put k (mkcbuf l r (Some 0%nat)) a).
Proof.
  intros [Hd H]. split; [done|]. intros j. cbn. destruct (decide (j = k)) as [->|Hne].
  - rewrite !lookup_insert_eq. cbn. split; [done|]. split; [done|]. right. by exists h.
  - rewrite !lookup_insert_ne by done. apply H.
Qed.
Lemma sim_drop env c a k :
  sim env c a → sim (delete k env) (c_brelse k c) (c_brelse k a).
Proof.
  intros Hs. unfold c_brelse. rewrite (sim_refs _ _ _ k Hs), (sim_view _ _ _ k Hs). destruct Hs as [Hd H].
  case_decide; (split; [done|]); intros j; cbn; (destruct (decide (j = k)) as [->|Hne]).
  - by rewrite !lookup_delete_eq.
  - rewrite !lookup_delete_ne by done. apply H.
  - rewrite !lookup_insert_eq. cbn. split; [done|]. split; [done|]. by left.
  - rewrite !lookup_insert_ne, lookup_delete_ne by done. apply H.
Qed.

Lemma run_bop_ok dev o env s c a r a' :
  bio_rep dev s c → sim env c a → aspec o a = Some (r, a') →
  ∃ env' s' c', run_bop dev o env s = Ok ((r, env'), s') ∧ bio_rep dev s' c' ∧ sim env' c' a'.
Proof.
  intros Hrep Hs Ho. pose proof (λ k, sim_view _ _ _ k Hs) as Hview. pose proof (λ k, sim_refs _ _ _ k Hs) as Hrefs.
  destruct o as [k|k l|k|k|k|k]; unfold aspec in Ho; repeat case_match; simplify_eq;
    repeat match goal with
    | H : _ && _ = true |- _ => apply andb_prop in H as [? ?%bool_decide_eq_true]
    | H : locked _ _ = true |- _ => destruct (sim_locked _ _ _ _ Hs H) as (i & Hi & Hh); clear H
    | H : bool_decide _ = true |- _ => apply bool_decide_eq_true in H
    end; unfold run_bop; rewrite ?Hi.
  - destruct (bread_ok dev k s c Hrep) as (i & s1 & E & Hrep1 & _); [by eapply sim_room|by rewrite Hrefs|].
    assert (Hh : c_holds k i (c_bread k i c)) by (eexists; cbn; rewrite lookup_insert_eq; done).
    exists (<[k := i]> env), s1, (c_bread k i c). rewrite (bind_Ok_eq _ _ _ _ _ E).
    rewrite (bind_Ok_eq _ _ _ _ _ (bdata_ok dev k i s1 _ Hrep1 Hh)). split; [|split; [done|]].
    + unfold mret, M_ret. do 3 f_equal. unfold c_view at 1. cbn. rewrite lookup_insert_eq. cbn. apply Hview.
    + unfold c_bread. rewrite Hview, Hrefs. by apply sim_new.
  - destruct (bstore_ok dev k i l s c Hrep Hh) as (s1 & E & Hrep1 & _). rewrite (bind_Ok_eq _ _ _ _ _ E).
    eexists _, _, _. split; [done|]. split; [exact Hrep1|]. unfold c_store. rewrite Hrefs. by apply sim_put.
  - destruct (bwrite_ok dev k i s c Hrep Hh) as (s1 & E & Hrep1 & _). rewrite (bind_Ok_eq _ _ _ _ _ E).
    eexists _, _, _. split; [done|]. split; [exact Hrep1|]. unfold c_bwrite. rewrite Hview. destruct Hs as [Hd Hs].
    split; [cbn; by rewrite Hd|done].
  - destruct (brelse_ok dev k i s c Hrep Hh) as (s1 & E & Hrep1 & _).
    { destruct Hs as [Hd _]. rewrite Hrefs, Hview, Hd. done. }
    rewrite (bind_Ok_eq _ _ _ _ _ E). eexists _, _, _. split; [done|]. split; [exact Hrep1|]. by apply sim_drop.
  - destruct (bpin_ok dev k i s c Hrep Hh) as (s1 & E & Hrep1 & _); [by rewrite Hrefs|]. rewrite (bind_Ok_eq _ _ _ _ _ E).
    eexists _, _, _. split; [done|]. split; [exact Hrep1|]. unfold c_bpin. rewrite Hrefs, Hview. by apply sim_put.
  - destruct (bunpin_ok dev k i s c Hrep Hh) as (s1 & E & Hrep1 & _); [by rewrite Hrefs|]. rewrite (bind_Ok_eq _ _ _ _ _ E).
    eexists _, _, _. split; [done|]. split; [exact Hrep1|]. unfold c_bunpin. rewrite Hrefs, Hview. by apply sim_put.
Qed.

Lemma run_bops_ok dev os env s c a rs a' :
  bio_rep dev s c → sim env c a → aspecs os a = Some (rs, a') →
  ∃ s' c' env', run_bops dev os env s = Ok (rs, s') ∧ bio_rep dev s' c' ∧ sim env' c' a'.
Proof.
  revert env s c a rs. induction os as [|o os IH]; intros env s c a rs Hrep Hs Ho; simpl in Ho.
  - simplify_eq. by exists s, c, env.
  - destruct (aspec o a) as [[r a1]|] eqn:E1; [|done]. simpl in Ho.
    destruct (aspecs os a1) as [[rs' a2]|] eqn:E2; [|done]. simpl in Ho. simplify_eq.
    destruct (run_bop_ok _ _ _ _ _ _ _ _ Hrep Hs E1) as (env1 & s1 & c1 & R1 & Hrep1 & Hs1).
    destruct (IH _ _ _ _ _ Hrep1 Hs1 E2) as (s2 & c2 & env2 & R2 & Hrep2 & Hs2).
    exists s2, c2, env2. split; [|done]. cbn [run_bops]. rewrite (bind_Ok_eq _ _ _ _ _ R1).
    by rewrite (bind_Ok_eq _ _ _ _ _ R2).
Qed.

(** The buffers hold what the specification's cache says: no two of them stand
    for the same block of the device (in use or not), each block in use has its
    buffer, with its contents, reference count and lock, and each buffer in use
    stands for such a block. *)
Definition one_buffer_per_block (dev : Z) (s : bst) (a : cache) : Prop :=
  (∀ i j b b', (i < NBUF)%nat → (j < NBUF)%nat → bufs s !! i = Some b → bufs s !! j = Some b' →
     b_dev b = dev → b_dev b' = dev → b_blockno b = b_blockno b' → i = j) ∧
  (∀ k x, c_bufs a !! k = Some x → ∃ i b, (i < NBUF)%nat ∧ bufs s !! i = Some b ∧
     b_dev b = dev ∧ b_blockno b = k ∧ b_valid b ≠ 0 ∧ b_data b = cb_data x ∧
     b_refcnt b = Z.of_nat (cb_refs x) ∧ b_refcnt b ≠ 0 ∧
     (if decide (cb_held x = None) then sl_locked (b_lock b) = 0 else holds (bpid s) (b_lock b) = true)) ∧
  (∀ i b, (i < NBUF)%nat → bufs s !! i = Some b → b_refcnt b ≠ 0 →
     b_dev b = dev ∧ is_Some (c_bufs a !! b_blockno b)).

Lemma rep_one_buffer dev s c env a : bio_rep dev s c → sim env c a → one_buffer_per_block dev s a.
Proof.
  intros (Hb & _) [_ Hs]. split; [apply (bo_inj _ _ _ _ Hb)|]. split.
  - intros k x Hx. specialize (Hs k). rewrite Hx in Hs. unfold same_entry in Hs.
    destruct (c_bufs c !! k) as [y|] eqn:Ey; [|done]. destruct Hs as (E1 & E2 & E3).
    destruct (bo_all _ _ _ _ Hb k y Ey) as (i & b & Hi & Hib & Hr & Hk).
    destruct (bo_buf _ _ _ _ Hb i b Hi Hib) as [_ Ho]. rewrite decide_False in Ho by done.
    destruct Ho as (Hd & Hv & y' & Ey' & H1 & H2 & _ & H3). assert (y' = y) as -> by congruence.
    exists i, b. rewrite <- E1, <- E2. split_and!; try done. unfold held_ok in H3.
    destruct E3 as [[Ey0 Ex]|(j & _ & Ej & Ex)]; rewrite Ex; [by rewrite Ey0 in H3|]. rewrite Ej in H3. apply H3.
  - intros i b Hi Hib Hr. destruct (bo_buf _ _ _ _ Hb i b Hi Hib) as [_ Ho]. rewrite decide_False in Ho by done.
    destruct Ho as (Hd & _ & y & Ey & _). split; [done|]. specialize (Hs (b_blockno b)). rewrite Ey in Hs.
    unfold same_entry in Hs. by destruct (c_bufs a !! b_blockno b).
Qed.

(** C21: the buffer cache is a map from block numbers to contents.  After
    [binit], any sequence of [bread], changes, [bwrite], [brelse], [bpin] and
    [bunpin] that the specification allows runs to its end without panic,
    deadlock or running out of buffers; every [bread] returns the contents the
    specification gives (the last ones written, even when the buffer was
    recycled in between), the disk receives exactly the specified writes in
    that order, and there is one buffer per block: no two buffers stand for the
    same block, and each block in use is in one of the thirty with the
    specification's contents, reference count and lock. *)
Theorem bcache_refinement dev z d pid os rs a :
  dev ≠ 0 → aspecs os (mkcache d ∅) = Some (rs, a) →
  ∃ s, (binit ;; run_bops dev os ∅) (boot_state z d pid) = Ok (rs, s) ∧ bdisk s = c_disk a ∧
    one_buffer_per_block dev s a.
Proof.
  intros Hdev Ho. rewrite (bind_Ok_eq _ _ _ _ _ (binit_run z d pid)).
  assert (Hs : sim ∅ (mkcache d ∅) (mkcache d ∅)) by (split; [done|]; intros k; by rewrite lookup_empty).
  destruct (run_bops_ok dev os ∅ _ _ _ _ _ (booted_rep z d pid dev Hdev) Hs Ho) as (s & c & env & R & Hrep & Hsim).
  exists s. split; [exact R|]. split; [|by eapply rep_one_buffer].
  destruct Hrep as (_ & _ & _ & _ & Hd), Hsim as [Hda _]. congruence.
Qed.

(** Two blocks; the second is changed, pinned, released, read again, written
    and unpinned. *)
Definition demo_ops : list bop :=
  [ORead 1; ORead 7; OStore 7 [9; 9]; OPin 7; ORelse 7; ORelse 1; ORead 7; OWrite 7; OUnpin 7; ORelse 7; ORead 7].
Definition demo_bdisk : disk := mkdisk (λ b, [b; b]) [].

Lemma bcache_refinement_witness :
  ∃ s, (binit ;; run_bops 1 demo_ops ∅) (boot_state [] demo_bdisk 5) =
    Ok ([[1; 1]; [7; 7]; []; []; []; []; [9; 9]; []; []; []; [9; 9]], s) ∧ d_writes (bdisk s) = [(7, [9; 9])].
Proof.
  assert (E : ∃ a, aspecs demo_ops (mkcache demo_bdisk ∅) = Some ([[1; 1]; [7; 7]; []; []; []; []; [9; 9]; []; []; []; [9; 9]], a) ∧
    d_writes (c_disk a) = [(7, [9; 9])]).
  { eexists. split; [vm_compute; reflexivity|reflexivity]. }
  destruct E as (a & E & Ha).
  destruct (bcache_refinement 1 [] demo_bdisk 5 demo_ops _ a ltac:(discriminate) E) as (s & R & Hd & _).
  exists s. split; [exact R|]. rewrite Hd. exact Ha.
Defined.
