(* ===== verification/Log.v ===== *)
(** * The redo log: kernel/log.c

    Written against the interface of the buffer cache.  The code runs one
    process at a time: where it would sleep until another process acts, it does
    not return ([Hang]); LogCap.v interleaves system calls.  [wakeup(&log)] is
    counted.  LogRun.v and LogClaims.v show that a transaction is atomic
    whatever the moment of a crash. *)
From S2P Require Import Prelude Spinlock Sleeplock BufCache.

Definition MAXOPBLOCKS : Z := 10.
Definition LOGSIZE : Z := MAXOPBLOCKS * 3.

(** 32-bit fields of a block. *)
Definition get32 (l : list Z) (off : Z) : Z := le_value (take 4 (drop (Z.to_nat off) l)).
Definition put32 (l : list Z) (off v : Z) : list Z :=
  take (Z.to_nat off) l ++ le_bytes 4 (u32 v) ++ drop (Z.to_nat off + 4) l.

(** [struct logheader] in a block: [n] and [block[i]]. *)
Definition hb_n : Z := 0.
Definition hb_block (i : Z) : Z := 4 + 4 * i.
Definition sizeof_logheader : Z := 4 + 4 * LOGSIZE.

(** [struct log] over the state [S] of the buffer cache. *)
Record lst (S : Type) := mklst {
  l_bc : S; log_lock : spinlock; log_start : Z; log_size : Z; log_outstanding : Z; log_committing : Z;
  log_dev : Z; lh_n : Z; lh_block : list Z; log_wakes : nat }.
Arguments mklst {S}.
Arguments l_bc {S}. Arguments log_lock {S}. Arguments log_start {S}. Arguments log_size {S}.
Arguments log_outstanding {S}. Arguments log_committing {S}. Arguments log_dev {S}. Arguments lh_n {S}.
Arguments lh_block {S}. Arguments log_wakes {S}.

Section log_c.
Context {S : Type} `{C : !BufCache S}.
Abbreviation L := (lst S).

Definition with_bc (b : S) (s : L) : L :=
  mklst b (log_lock s) (log_start s) (log_size s) (log_outstanding s) (log_committing s) (log_dev s) (lh_n s) (lh_block s) (log_wakes s).
Definition with_lock (lk : spinlock) (s : L) : L :=
  mklst (l_bc s) lk (log_start s) (log_size s) (log_outstanding s) (log_committing s) (log_dev s) (lh_n s) (lh_block s) (log_wakes s).
Definition with_place (start size dev : Z) (s : L) : L :=
  mklst (l_bc s) (log_lock s) start size (log_outstanding s) (log_committing s) dev (lh_n s) (lh_block s) (log_wakes s).
Definition with_outstanding (n : Z) (s : L) : L :=
  mklst (l_bc s) (log_lock s) (log_start s) (log_size s) n (log_committing s) (log_dev s) (lh_n s) (lh_block s) (log_wakes s).
Definition with_committing (n : Z) (s : L) : L :=
  mklst (l_bc s) (log_lock s) (log_start s) (log_size s) (log_outstanding s) n (log_dev s) (lh_n s) (lh_block s) (log_wakes s).
Definition with_n (n : Z) (s : L) : L :=
  mklst (l_bc s) (log_lock s) (log_start s) (log_size s) (log_outstanding s) (log_committing s) (log_dev s) n (lh_block s) (log_wakes s).
Definition with_block (b : list Z) (s : L) : L :=
  mklst (l_bc s) (log_lock s) (log_start s) (log_size s) (log_outstanding s) (log_committing s) (log_dev s) (lh_n s) b (log_wakes s).
Definition wakeup_log : M L unit := modify (λ s,
  mklst (l_bc s) (log_lock s) (log_start s) (log_size s) (log_outstanding s) (log_committing s) (log_dev s) (lh_n s) (lh_block s) (Datatypes.S (log_wakes s))).

#[export] Instance log_locks : HasLocks L unit := {
  get_hart s := bc_hart (l_bc s);
  set_hart h s := with_bc (bc_set_hart h (l_bc s)) s;
  get_lock _ := log_lock;
  set_lock _ := with_lock }.

(** Calls of the buffer cache. *)
Definition inbc {A} (m : M S A) : M L A := λ s,
  match m (l_bc s) with
  | Ok (a, b) => Ok (a, with_bc b s)
  | Panic e => Panic e
  | Fault => Fault
  | Hang => Hang
  end.
(** [log.lh.block[i]] and [log.lh.block[i] = v] *)
Definition lh_get (i : Z) : M L Z := λ s,
  match zidx (lh_block s) i with Some v => Ok (v, s) | None => Fault end.
Definition lh_set (i v : Z) : M L unit := λ s,
  match zupd (lh_block s) i v with Some l => Ok (tt, with_block l s) | None => Fault end.

(** The body of the loop of [install_trans]. *)
Definition install_one (recovering tail : Z) : M L unit :=
  dev ← gets log_dev; start ← gets log_start;
  lbuf ← inbc (bread dev (u32 (start + tail + 1)));
  k ← lh_get tail;
  dbuf ← inbc (bread dev (u32 k));
  l ← inbc (bdata lbuf); inbc (bstore dbuf l) ;;
  inbc (bwrite dbuf) ;;
  (if bool_decide (recovering = 0) then inbc (bunpin dbuf) else mret tt) ;;
  inbc (brelse lbuf) ;;
  inbc (brelse dbuf).
Definition install_trans (recovering : Z) : M L unit :=
  n ← gets lh_n; forM (seqZ 0 n) (install_one recovering).

Definition read_head : M L unit :=
  dev ← gets log_dev; start ← gets log_start;
  buf ← inbc (bread dev (u32 start));
  lh ← inbc (bdata buf);
  modify (with_n (i32 (get32 lh hb_n))) ;;
  n ← gets lh_n;
  forM (seqZ 0 n) (λ i, lh_set i (i32 (get32 lh (hb_block i)))) ;;
  inbc (brelse buf).

(** [hb->field = v] in the buffer. *)
Definition hb_store (buf : nat) (off v : Z) : M L unit :=
  l ← inbc (bdata buf); inbc (bstore buf (put32 l off v)).
Definition write_head : M L unit :=
  dev ← gets log_dev; start ← gets log_start;
  buf ← inbc (bread dev (u32 start));
  n ← gets lh_n;
  hb_store buf hb_n n ;;
  forM (seqZ 0 n) (λ i, b ← lh_get i; hb_store buf (hb_block i) b) ;;
  inbc (bwrite buf) ;;
  inbc (brelse buf).

Definition recover_from_log : M L unit :=
  read_head ;;
  install_trans 1 ;;
  modify (with_n 0) ;;
  write_head.

(** [start] and [size] are [sb->logstart] and [sb->nlog]. *)
Definition initlog (dev start size : Z) : M L unit :=
  if bool_decide (sizeof_logheader >= BSIZE) then panic "initlog: too big logheader"
  else
    modify (with_lock (initlock "log")) ;;
    modify (with_place start size dev) ;;
    recover_from_log.

(** One pass of the [while(1)] of [begin_op], with the lock held: [true] when
    the call may start, [false] when it sleeps. *)
Definition begin_round : M L bool :=
  committing ← gets log_committing; n ← gets lh_n; out ← gets log_outstanding;
  if bool_decide (committing ≠ 0) then mret false
  else if bool_decide (i32 (n + (out + 1) * MAXOPBLOCKS) > LOGSIZE) then mret false
  else modify (with_outstanding (out + 1)) ;; mret true.
Definition begin_op : M L unit :=
  acquireM tt ;;
  go ← begin_round;
  if go : bool then releaseM tt else hang.

(** The body of the loop of [write_log]. *)
Definition write_one (tail : Z) : M L unit :=
  dev ← gets log_dev; start ← gets log_start;
  to ← inbc (bread dev (u32 (start + tail + 1)));
  k ← lh_get tail;
  from ← inbc (bread dev (u32 k));
  l ← inbc (bdata from); inbc (bstore to l) ;;
  inbc (bwrite to) ;;
  inbc (brelse from) ;;
  inbc (brelse to).
Definition write_log : M L unit := n ← gets lh_n; forM (seqZ 0 n) write_one.

Definition commit : M L unit :=
  n ← gets lh_n;
  if bool_decide (n > 0) then
    write_log ;;
    write_head ;;
    install_trans 0 ;;
    modify (with_n 0) ;;
    write_head
  else mret tt.

(** [end_op] up to the commit: whether this call has to commit. *)
Definition end_round : M L bool :=
  out ← gets log_outstanding; modify (with_outstanding (out - 1)) ;;
  committing ← gets log_committing;
  if bool_decide (committing ≠ 0) then panic "log.committing"
  else
    out ← gets log_outstanding;
    if bool_decide (out = 0) then modify (with_committing 1) ;; mret true
    else wakeup_log ;; mret false.
Definition end_op : M L unit :=
  acquireM tt ;;
  do_commit ← end_round;
  releaseM tt ;;
  if do_commit : bool then
    commit ;;
    acquireM tt ;;
    modify (with_committing 0) ;;
    wakeup_log ;;
    releaseM tt
  else mret tt.

(** [for(i = 0; i < log.lh.n; i++) if(log.lh.block[i] == b->blockno) break]:
    the final [i]. *)
Fixpoint absorb (k : nat) (i b : Z) : M L Z :=
  match k with
  | O => mret i
  | Datatypes.S k =>
      x ← lh_get i;
      if bool_decide (u32 x = b) then mret i else absorb k (i + 1) b
  end.
Definition log_write (b : nat) : M L unit :=
  acquireM tt ;;
  n ← gets lh_n; size ← gets log_size; out ← gets log_outstanding;
  if bool_decide (n >= LOGSIZE) || bool_decide (n >= size - 1) then panic "too big a transaction"
  else if bool_decide (out < 1) then panic "log_write outside of trans"
  else
    k ← inbc (blockno b);
    i ← absorb (Z.to_nat n) 0 k;
    lh_set i (i32 k) ;;
    (if bool_decide (i = n) then
       inbc (bpin b) ;;
       modify (with_n (n + 1))
     else mret tt) ;;
    releaseM tt.
End log_c.
