(* ===== verification/LogRun.v ===== *)
(** * The log on an abstract cache

    What each loop of log.c does to the disk and to the cache, as writes in
    order; proved from the promises of BufCache.v alone. *)
From S2P Require Import Prelude Spinlock Sleeplock BufCache Log.

(** ** Header fields *)

Lemma get_put32 l off v : 0 ≤ off → off + 4 ≤ Z.of_nat (length l) → get32 (put32 l off v) off = u32 v.
Proof.
  intros H0 Hl. unfold get32, put32. rewrite drop_app_ge by (rewrite length_take; lia).
  rewrite length_take, Nat.min_l, Nat.sub_diag, drop_0 by lia.
  rewrite take_app_le by (by rewrite length_le_bytes). rewrite take_ge by (by rewrite length_le_bytes).
  apply le_value_bytes. unfold u32. apply Z.mod_pos_bound. lia.
Qed.

Lemma length_put32 l off v : 0 ≤ off → off + 4 ≤ Z.of_nat (length l) → length (put32 l off v) = length l.
Proof. intros H0 Hl. unfold put32. rewrite !length_app, length_take, length_le_bytes, length_drop. lia. Qed.

Lemma lookup_put32_ne l off v j :
  0 ≤ off → off + 4 ≤ Z.of_nat (length l) → Z.of_nat j < off ∨ off + 4 ≤ Z.of_nat j → put32 l off v !! j = l !! j.
Proof.
  intros H0 Hl Hj. unfold put32. destruct (decide (Z.of_nat j < off)).
  - rewrite lookup_app_l by (rewrite length_take; lia). apply lookup_take_lt. lia.
  - rewrite lookup_app_r by (rewrite length_take; lia). rewrite lookup_app_r by (rewrite length_le_bytes, length_take; lia).
    rewrite lookup_drop, length_le_bytes, length_take. f_equal. lia.
Qed.

Lemma get_put32_ne l off v off' :
  0 ≤ off → off + 4 ≤ Z.of_nat (length l) → 0 ≤ off' → off' + 4 ≤ off ∨ off + 4 ≤ off' →
  get32 (put32 l off v) off' = get32 l off'.
Proof.
  intros H0 Hl H0' Hd. unfold get32. f_equal. apply list_eq. intros j.
  destruct (decide (j < 4)%nat) as [Hj|Hj].
  - rewrite !lookup_take_lt, !lookup_drop by lia. apply lookup_put32_ne; lia.
  - by rewrite !lookup_take_ge by lia.
Qed.

Lemma i32_u32 v : - 2 ^ 31 ≤ v < 2 ^ 31 → i32 (u32 v) = v.
Proof. intros H. unfold i32, u32. rewrite Zplus_mod_idemp_l. rewrite Z.mod_small by lia. lia. Qed.

(** ** What a header block says *)

Definition hdr_n (l : list Z) : Z := i32 (get32 l hb_n).
Definition hdr_block (l : list Z) (i : nat) : Z := i32 (get32 l (hb_block (Z.of_nat i))).
Definition hdr_blocks (l : list Z) : list Z := hdr_block l <$> seq 0 (Z.to_nat (hdr_n l)).

(** The header block [write_head] makes out of [l]. *)
Fixpoint put_blocks (l : list Z) (i : Z) (ks : list Z) : list Z :=
  match ks with [] => l | k :: ks => put_blocks (put32 l (hb_block i) k) (i + 1) ks end.
Definition put_header (l : list Z) (ks : list Z) : list Z :=
  put_blocks (put32 l hb_n (Z.of_nat (length ks))) 0 ks.

Lemma put_blocks_spec ks l i :
  0 ≤ i → hb_block (i + Z.of_nat (length ks)) ≤ Z.of_nat (length l) → (∀ k, k ∈ ks → - 2 ^ 31 ≤ k < 2 ^ 31) →
  length (put_blocks l i ks) = length l ∧
  (∀ off, 0 ≤ off → off + 4 ≤ hb_block i → get32 (put_blocks l i ks) off = get32 l off) ∧
  (∀ j k, ks !! j = Some k → i32 (get32 (put_blocks l i ks) (hb_block (i + Z.of_nat j))) = k).
Proof.
  unfold hb_block. revert l i. induction ks as [|k ks IH]; intros l i Hi Hl Hks; cbn [put_blocks length] in *; [done|].
  destruct (IH (put32 l (hb_block i) k) (i + 1)) as (H1 & H2 & H3).
  { lia. } { unfold hb_block. rewrite length_put32 by lia. lia. } { intros x Hx. apply Hks. set_solver. }
  split; [|split].
  - rewrite H1. unfold hb_block. apply length_put32; lia.
  - intros off H0 Hoff. rewrite H2 by lia. unfold hb_block. apply get_put32_ne; lia.
  - intros j x Hj. destruct j as [|j]; simpl in Hj.
    + injection Hj as <-. replace (i + Z.of_nat 0) with i by lia. rewrite H2 by lia.
      unfold hb_block. rewrite get_put32 by lia. apply i32_u32, Hks. set_solver.
    + replace (i + Z.of_nat (S j)) with (i + 1 + Z.of_nat j) by lia. by apply H3.
Qed.

Lemma put_header_spec l ks :
  length l = Z.to_nat BSIZE → Z.of_nat (length ks) ≤ LOGSIZE → (∀ k, k ∈ ks → - 2 ^ 31 ≤ k < 2 ^ 31) →
  length (put_header l ks) = Z.to_nat BSIZE ∧ hdr_n (put_header l ks) = Z.of_nat (length ks) ∧ hdr_blocks (put_header l ks) = ks.
Proof.
  intros Hl Hn Hks. unfold LOGSIZE, MAXOPBLOCKS, BSIZE in *.
  destruct (put_blocks_spec ks (put32 l hb_n (Z.of_nat (length ks))) 0) as (H1 & H2 & H3); unfold hb_block, hb_n in *.
  { done. } { rewrite length_put32; lia. } { done. }
  assert (Hhn : hdr_n (put_header l ks) = Z.of_nat (length ks)).
  { unfold hdr_n, put_header, hb_n. rewrite H2 by lia. rewrite get_put32 by lia. apply i32_u32. lia. }
  split; [|split; [done|]].
  - unfold put_header, hb_n. rewrite H1. rewrite length_put32; lia.
  - unfold hdr_blocks. rewrite Hhn, Nat2Z.id. apply list_eq. intros j. rewrite list_lookup_fmap.
    destruct (ks !! j) as [k|] eqn:E.
    + pose proof (lookup_lt_Some _ _ _ E). rewrite (lookup_seq_lt 0) by done. simpl. f_equal. unfold hdr_block, hb_block, put_header, hb_n.
      replace (Z.of_nat j) with (0 + Z.of_nat j) by lia. by apply H3.
    + apply lookup_ge_None in E. by rewrite (lookup_seq_ge 0).
Qed.

(** ** Sequences of disk writes *)

(** The disk after the writes [ws], in this order. *)
Definition writes (ws : list (Z * list Z)) (d : disk) : disk := mkdisk (d_init d) (reverse ws ++ d_writes d).

Lemma writes_nil d : writes [] d = d.
Proof. by destruct d. Qed.
Lemma writes_snoc ws k l d : writes (ws ++ [(k, l)]) d = dwrite k l (writes ws d).
Proof. unfold writes, dwrite. by rewrite reverse_snoc. Qed.
Lemma writes_app w1 w2 d : writes (w1 ++ w2) d = writes w2 (writes w1 d).
Proof. unfold writes. simpl. f_equal. by rewrite reverse_app, app_assoc. Qed.

Lemma writes_other ws d k : k ∉ ws.*1 → dread (writes ws d) k = dread d k.
Proof.
  revert d. induction ws as [|[j l] ws IH] using rev_ind; intros d Hk; [by rewrite writes_nil|].
  rewrite fmap_app in Hk. simpl in Hk. rewrite writes_snoc, dread_write, decide_False by set_solver. apply IH. set_solver.
Qed.

Lemma writes_last ws d k l : NoDup ws.*1 → (k, l) ∈ ws → dread (writes ws d) k = l.
Proof.
  induction ws as [|[j m] ws IH] using rev_ind; [set_solver|]. rewrite fmap_app, NoDup_app. simpl.
  intros (Hnd & Hj & _) Hin. rewrite writes_snoc, dread_write. apply elem_of_app in Hin as [Hin|Hin].
  - rewrite decide_False; [by apply IH|]. intros ->. apply (Hj k); [|set_solver].
    apply list_elem_of_fmap. by exists (k, l).
  - apply list_elem_of_singleton in Hin. simplify_eq. by rewrite decide_True.
Qed.

Section spec.
Context {S : Type} `{C : !BufCache S} `{!BufCacheLaws S}.
Abbreviation L := (lst S).
Implicit Types (s : L) (c : cache).

Definition lrep s c : Prop := bc_rep (log_dev s) (l_bc s) c.
(** Only the cache differs, and not the hart. *)
Definition same_log s s' : Prop := s' = with_bc (l_bc s') s ∧ bc_hart (l_bc s') = bc_hart (l_bc s).

Lemma with_bc_self s : with_bc (l_bc s) s = s.
Proof. by destruct s. Qed.
#[global] Instance same_log_preorder : PreOrder same_log.
Proof.
  split.
  - intros s. split; [by rewrite with_bc_self|done].
  - intros s1 s2 s3 [H1 H2] [H3 H4]. split; [|congruence]. rewrite H3, H1. done.
Qed.
Lemma same_log_bc s b : bc_hart b = bc_hart (l_bc s) → same_log s (with_bc b s).
Proof. by split. Qed.

Lemma inbc_bind {A B} (m : M S A) (f : A → M L B) s a b :
  m (l_bc s) = Ok (a, b) → (inbc m ≫= f) s = f a (with_bc b s).
Proof. intros E. unfold mbind, M_bind, inbc. by rewrite E. Qed.
Lemma inbc_last {A} (m : M S A) s a b : m (l_bc s) = Ok (a, b) → inbc m s = Ok (a, with_bc b s).
Proof. intros E. unfold inbc. by rewrite E. Qed.
Lemma lh_get_bind {B} i (f : Z → M L B) s v : zidx (lh_block s) i = Some v → (lh_get i ≫= f) s = f v s.
Proof. intros E. unfold mbind, M_bind, lh_get. by rewrite E. Qed.

(** A cache buffer is copied to a block of the log. *)
Lemma write_one_ok s c tail k v :
  lrep s c → zidx (lh_block s) tail = Some k →
  let a := log_start s + tail + 1 in
  0 ≤ a < 2 ^ 32 → 0 ≤ k < 2 ^ 32 → a ≠ k → c_bufs c !! a = None → c_bufs c !! k = Some (mkcbuf v 1 None) →
  (size (c_bufs c) < NBUF)%nat →
  ∃ s', write_one tail s = Ok (tt, s') ∧ lrep s' (mkcache (dwrite a v (c_disk c)) (c_bufs c)) ∧ same_log s s'.
Proof.
  intros Hrep Hk a Ha Hkr Hak Hna Hck Hsz. unfold write_one, lrep in *. rewrite !gets_bind.
  rewrite u32_small by done. fold a.
  destruct (bread_fresh _ a _ _ Hrep Hna Hsz) as (h1 & b1 & E1 & R1 & T1). erewrite inbc_bind by exact E1.
  rewrite (lh_get_bind _ _ _ k) by done. rewrite u32_small by done.
  destruct (bread_entry _ k _ _ v 1 R1) as (h2 & b2 & E2 & R2 & T2); [cbn; by simplify_map_eq|done|].
  erewrite inbc_bind by exact E2.
  assert (E3 := bdata_entry _ k h2 _ _ v 2 R2 ltac:(cbn; by simplify_map_eq)). erewrite inbc_bind by exact E3.
  destruct (bstore_entry _ a h1 _ _ _ 1 v R2 ltac:(cbn; by simplify_map_eq)) as (b4 & E4 & R4 & T4).
  erewrite inbc_bind by exact E4.
  destruct (bwrite_entry _ a h1 _ _ v 1 R4 ltac:(cbn; by simplify_map_eq)) as (b5 & E5 & R5 & T5).
  erewrite inbc_bind by exact E5.
  destruct (brelse_entry _ k h2 _ _ v 2 R5 ltac:(cbn; by simplify_map_eq)) as (b6 & E6 & R6 & T6); [lia|].
  erewrite inbc_bind by exact E6.
  destruct (brelse_last _ a h1 _ _ v R6) as (b7 & E7 & R7 & T7).
  { cbn. by simplify_map_eq. } { cbn [c_disk c_put]. by rewrite dread_write, decide_True. }
  erewrite inbc_last by exact E7. eexists. split; [done|]. split; [|split; [done|cbn; congruence]].
  cbn. refine (eq_ind _ (λ x, bc_rep _ _ x) R7 _ _). cbn. unfold c_put; cbn. f_equal.
  clearbody a. apply map_eq. intros j. destruct (decide (j = a)), (decide (j = k)); subst; by simplify_map_eq.
Qed.

(** A block of the log is copied to its home, in [commit]: its buffer is pinned
    and goes out of use. *)
Lemma install_commit_ok s c tail k v :
  lrep s c → zidx (lh_block s) tail = Some k →
  let a := log_start s + tail + 1 in
  0 ≤ a < 2 ^ 32 → 0 ≤ k < 2 ^ 32 → a ≠ k → c_bufs c !! a = None → c_bufs c !! k = Some (mkcbuf v 1 None) →
  (size (c_bufs c) < NBUF)%nat →
  ∃ s', install_one 0 tail s = Ok (tt, s') ∧
    lrep s' (mkcache (dwrite k (dread (c_disk c) a) (c_disk c)) (delete k (c_bufs c))) ∧ same_log s s'.
Proof.
  intros Hrep Hk a Ha Hkr Hak Hna Hck Hsz. unfold install_one, lrep in *. rewrite !gets_bind.
  rewrite u32_small by done. fold a. set (w := dread (c_disk c) a).
  destruct (bread_fresh _ a _ _ Hrep Hna Hsz) as (h1 & b1 & E1 & R1 & T1). erewrite inbc_bind by exact E1.
  rewrite (lh_get_bind _ _ _ k) by done. rewrite u32_small by done.
  destruct (bread_entry _ k _ _ v 1 R1) as (h2 & b2 & E2 & R2 & T2); [cbn; by simplify_map_eq|done|].
  erewrite inbc_bind by exact E2.
  assert (E3 := bdata_entry _ a h1 _ _ w 1 R2 ltac:(cbn; by simplify_map_eq)). erewrite inbc_bind by exact E3.
  destruct (bstore_entry _ k h2 _ _ _ 2 w R2 ltac:(cbn; by simplify_map_eq)) as (b4 & E4 & R4 & T4).
  erewrite inbc_bind by exact E4.
  destruct (bwrite_entry _ k h2 _ _ w 2 R4 ltac:(cbn; by simplify_map_eq)) as (b5 & E5 & R5 & T5).
  erewrite inbc_bind by exact E5. rewrite bool_decide_true by done.
  destruct (bunpin_entry _ k h2 _ _ w 2 R5 ltac:(cbn; by simplify_map_eq)) as (b6 & E6 & R6 & T6); [lia|].
  erewrite inbc_bind by exact E6.
  destruct (brelse_last _ a h1 _ _ w R6) as (b7 & E7 & R7 & T7).
  { cbn. by simplify_map_eq. } { cbn [c_disk c_put]. by rewrite dread_write, decide_False. }
  erewrite inbc_bind by exact E7.
  destruct (brelse_last _ k h2 _ _ w R7) as (b8 & E8 & R8 & T8).
  { cbn. by simplify_map_eq. } { cbn [c_disk c_put]. by rewrite dread_write, decide_True. }
  erewrite inbc_last by exact E8. eexists. split; [done|]. split; [|split; [done|cbn; congruence]].
  cbn. refine (eq_ind _ (λ x, bc_rep _ _ x) R8 _ _). cbn. unfold c_put; cbn. f_equal.
  clearbody a. apply map_eq. intros j. destruct (decide (j = a)), (decide (j = k)); subst; by simplify_map_eq.
Qed.

(** The same after a reboot: the home block is not in use. *)
Lemma install_recover_ok s D tail k :
  lrep s (mkcache D ∅) → zidx (lh_block s) tail = Some k →
  let a := log_start s + tail + 1 in
  0 ≤ a < 2 ^ 32 → 0 ≤ k < 2 ^ 32 → a ≠ k →
  ∃ s', install_one 1 tail s = Ok (tt, s') ∧ lrep s' (mkcache (dwrite k (dread D a) D) ∅) ∧ same_log s s'.
Proof.
  intros Hrep Hk a Ha Hkr Hak. unfold install_one, lrep in *. rewrite !gets_bind.
  rewrite u32_small by done. fold a. set (w := dread D a).
  destruct (bread_fresh _ a _ _ Hrep) as (h1 & b1 & E1 & R1 & T1); [done|cbn; rewrite map_size_empty; unfold NBUF; lia|].
  erewrite inbc_bind by exact E1.
  rewrite (lh_get_bind _ _ _ k) by done. rewrite u32_small by done.
  destruct (bread_fresh _ k _ _ R1) as (h2 & b2 & E2 & R2 & T2).
  { cbn. by simplify_map_eq. } { cbn. rewrite insert_empty, map_size_singleton. unfold NBUF. lia. }
  erewrite inbc_bind by exact E2.
  assert (E3 := bdata_entry _ a h1 _ _ w 1 R2 ltac:(cbn; by simplify_map_eq)). erewrite inbc_bind by exact E3.
  destruct (bstore_entry _ k h2 _ _ _ 1 w R2 ltac:(cbn; by simplify_map_eq)) as (b4 & E4 & R4 & T4).
  erewrite inbc_bind by exact E4.
  destruct (bwrite_entry _ k h2 _ _ w 1 R4 ltac:(cbn; by simplify_map_eq)) as (b5 & E5 & R5 & T5).
  erewrite inbc_bind by exact E5. rewrite bool_decide_false by done.
  unfold mbind at 1, M_bind at 1. unfold mret, M_ret.
  destruct (brelse_last _ a h1 _ _ w R5) as (b7 & E7 & R7 & T7).
  { cbn. by simplify_map_eq. } { cbn [c_disk c_put]. by rewrite dread_write, decide_False. }
  erewrite inbc_bind by exact E7.
  destruct (brelse_last _ k h2 _ _ w R7) as (b8 & E8 & R8 & T8).
  { cbn. by simplify_map_eq. } { cbn [c_disk c_put]. by rewrite dread_write, decide_True. }
  erewrite inbc_last by exact E8. eexists. split; [done|]. split; [|split; [done|cbn; congruence]].
  cbn. refine (eq_ind _ (λ x, bc_rep _ _ x) R8 _ _). cbn. unfold c_put; cbn. f_equal.
  clearbody a. apply map_eq. intros j. destruct (decide (j = a)), (decide (j = k)); subst; by simplify_map_eq.
Qed.

(** ** The header *)

Lemma hb_store_ok s c buf b l off v :
  lrep s c → c_bufs c !! b = Some (mkcbuf l 1 (Some buf)) →
  ∃ s', hb_store buf off v s = Ok (tt, s') ∧ lrep s' (c_put b (mkcbuf (put32 l off v) 1 (Some buf)) c) ∧ same_log s s'.
Proof.
  intros Hrep Hb. unfold hb_store, lrep in *.
  rewrite (inbc_bind _ _ _ _ _ (bdata_entry _ b buf _ _ l 1 Hrep Hb)).
  destruct (bstore_entry _ b buf _ _ l 1 (put32 l off v) Hrep Hb) as (b1 & E1 & R1 & T1).
  erewrite inbc_last by exact E1. eexists. split; [done|]. split; [done|]. by split.
Qed.

Lemma c_put_put b x y c : c_put b x (c_put b y c) = c_put b x c.
Proof. unfold c_put. cbn. by rewrite insert_insert_eq. Qed.

(** The in-memory header lists the blocks [ks]. *)
Definition heads s (ks : list Z) : Prop :=
  lh_n s = Z.of_nat (length ks) ∧ take (length ks) (lh_block s) = ks ∧ length (lh_block s) = Z.to_nat LOGSIZE.

Lemma heads_get s ks i k : heads s ks → ks !! i = Some k → zidx (lh_block s) (Z.of_nat i) = Some k.
Proof.
  intros (_ & Ht & Hl) Hk. rewrite <-Ht in Hk. apply lookup_take_Some in Hk as [Hk _].
  apply zidx_Some. rewrite Nat2Z.id. split; [|done]. apply lookup_lt_Some in Hk. lia.
Qed.
Lemma heads_le s ks : heads s ks → (length ks ≤ Z.to_nat LOGSIZE)%nat.
Proof. intros (_ & Ht & Hl). rewrite <-Ht, length_take. lia. Qed.
Lemma heads_same s s' ks : heads s ks → same_log s s' → heads s' ks.
Proof. intros H [-> _]. exact H. Qed.

Lemma write_head_loop s c ks buf b l m :
  heads s ks → lrep s c → c_bufs c !! b = Some (mkcbuf l 1 (Some buf)) → (m ≤ length ks)%nat →
  ∃ s', forM (seqZ (Z.of_nat m) (Z.of_nat (length ks - m))) (λ i, k ← lh_get i; hb_store buf (hb_block i) k) s = Ok (tt, s') ∧
    lrep s' (c_put b (mkcbuf (put_blocks l (Z.of_nat m) (drop m ks)) 1 (Some buf)) c) ∧ same_log s s'.
Proof.
  intros Hh. remember (length ks - m)%nat as n eqn:Hn. revert s c l m Hh Hn. induction n as [|n IH]; intros s c l m Hh Hn Hrep Hb Hm.
  - exists s. rewrite drop_ge by lia. split; [done|]. split; [|done]. cbn [put_blocks].
    unfold c_put. rewrite insert_id by done. by destruct c.
  - destruct (lookup_lt_is_Some_2 ks m) as [k Hk]; [lia|].
    rewrite seqZ_cons by lia. cbn [forM]. rewrite (drop_S _ _ _ Hk).
    destruct (hb_store_ok s c buf b l (hb_block (Z.of_nat m)) k Hrep Hb) as (s1 & E1 & R1 & H1).
    unfold mbind at 1, M_bind at 1. rewrite (lh_get_bind _ _ _ k) by (by eapply heads_get). rewrite E1.
    replace (Z.pred (Z.of_nat (Datatypes.S n))) with (Z.of_nat n) by lia. replace (Z.succ (Z.of_nat m)) with (Z.of_nat (Datatypes.S m)) by lia.
    destruct (IH s1 _ (put32 l (hb_block (Z.of_nat m)) k) (Datatypes.S m) ltac:(by eapply heads_same) ltac:(lia) R1) as (s2 & E2 & R2 & H2).
    { cbn. by simplify_map_eq. } { lia. }
    exists s2. split; [exact E2|]. split; [|by etrans]. rewrite c_put_put in R2. cbn [put_blocks].
    by replace (Z.of_nat m + 1) with (Z.of_nat (Datatypes.S m)) by lia.
Qed.

(** [write_head] writes one block: the header that lists [ks]. *)
Lemma write_head_ok s c ks :
  heads s ks → lrep s c → 0 ≤ log_start s < 2 ^ 32 → c_bufs c !! log_start s = None → (size (c_bufs c) < NBUF)%nat →
  ∃ s', write_head s = Ok (tt, s') ∧
    lrep s' (mkcache (dwrite (log_start s) (put_header (dread (c_disk c) (log_start s)) ks) (c_disk c)) (c_bufs c)) ∧ same_log s s'.
Proof.
  intros Hh Hrep Hst Hno Hsz. unfold write_head. rewrite !gets_bind. rewrite u32_small by done.
  set (b := log_start s) in *. set (l0 := dread (c_disk c) b).
  destruct (bread_fresh _ b _ _ Hrep Hno Hsz) as (buf & b1 & E1 & R1 & T1). erewrite inbc_bind by exact E1.
  rewrite gets_bind. cbn [lh_n with_bc]. destruct Hh as (Hn & Hh). rewrite Hn.
  destruct (hb_store_ok (with_bc b1 s) _ buf b l0 hb_n (Z.of_nat (length ks)) R1 ltac:(cbn; by simplify_map_eq)) as (s2 & E2 & R2 & H2).
  rewrite (bind_Ok_eq _ _ _ _ _ E2). rewrite c_put_put in R2.
  assert (Hh2 : heads s2 ks) by (eapply heads_same; [|exact H2]; by split).
  destruct (write_head_loop s2 _ ks buf b _ 0 Hh2 R2 ltac:(cbn; by simplify_map_eq) ltac:(lia)) as (s3 & E3 & R3 & H3).
  rewrite Nat.sub_0_r in E3. rewrite (bind_Ok_eq _ _ _ _ _ E3). rewrite c_put_put in R3.
  set (hd := put_blocks _ (Z.of_nat 0) _) in R3.
  destruct (bwrite_entry _ b buf _ _ hd 1 R3 ltac:(cbn; by simplify_map_eq)) as (b4 & E4 & R4 & T4).
  erewrite inbc_bind by exact E4.
  destruct (brelse_last _ b buf b4 _ hd R4) as (b5 & E5 & R5 & T5).
  { cbn. rewrite lookup_insert_eq. reflexivity. } { cbn [c_disk c_put]. by rewrite dread_write, decide_True. }
  erewrite inbc_last by exact E5. eexists. split; [done|]. split.
  - destruct H3 as [H3 _], H2 as [H2 _]. rewrite H3, H2 in R5 |- *. cbn in R5 |- *. fold b in R5. unfold put_header. fold l0.
    refine (eq_ind _ (λ x, bc_rep _ _ x) R5 _ _). cbn. unfold c_put; cbn. unfold hd; change (drop 0 ks) with ks. f_equal.
    by rewrite delete_insert_id.
  - assert (H4 : same_log s s3).
    { etrans; [|exact H3]. etrans; [|exact H2]. by apply same_log_bc. }
    etrans; [exact H4|]. split; [done|cbn; congruence].
Qed.
End spec.

(** ** Commit and recovery as sequences of disk writes

    [commit_writes] and [recover_writes] are the blocks that [commit] and
    [recover_from_log] write, in order. *)

(** Where the log lies, and the blocks outside it. *)
Definition log_place (start size : Z) : Prop := 0 ≤ start ∧ 0 < size ∧ start + size < 2 ^ 31.
Definition home (start size k : Z) : Prop := 0 ≤ k < 2 ^ 31 ∧ (k < start ∨ start + size ≤ k).

(** The blocks [ks] are in use, once each, with the contents [val]; no other. *)
Definition pins (bufs : gmap Z cbuf) (ks : list Z) (val : Z → list Z) : Prop :=
  ∀ k, bufs !! k = if decide (k ∈ ks) then Some (mkcbuf (val k) 1 None) else None.

Lemma pins_size bufs ks val : pins bufs ks val → NoDup ks → size bufs = length ks.
Proof.
  intros H Hnd. rewrite <-(size_dom (D := gset Z)).
  assert (E : dom bufs = (list_to_set ks : gset Z)).
  { apply set_eq. intros k. rewrite elem_of_dom, elem_of_list_to_set, H. case_decide; split; try done; by intros []. }
  rewrite E. by apply size_list_to_set.
Qed.

Lemma pins_nil bufs val : pins bufs [] val → bufs = ∅.
Proof. intros H. apply map_eq. intros k. by rewrite H, lookup_empty. Qed.

Lemma pins_delete bufs k ks val : pins bufs (k :: ks) val → k ∉ ks → pins (delete k bufs) ks val.
Proof.
  intros H Hk j. destruct (decide (j = k)) as [->|Hne].
  - by rewrite lookup_delete_eq, decide_False.
  - rewrite lookup_delete_ne, H by done. repeat case_decide; set_solver.
Qed.

(** The log blocks of the transaction, its home blocks, the recovered blocks. *)
Definition log_writes (start : Z) (ks : list Z) (val : Z → list Z) : list (Z * list Z) :=
  imap (λ i k, (start + Z.of_nat i + 1, val k)) ks.
Definition home_writes (ks : list Z) (val : Z → list Z) : list (Z * list Z) := (λ k, (k, val k)) <$> ks.
Definition recover_installs (start : Z) (d : disk) (ks : list Z) : list (Z * list Z) :=
  imap (λ i k, (k, dread d (start + Z.of_nat i + 1))) ks.

Lemma log_writes_fst start ks val j : j ∈ (log_writes start ks val).*1 → start < j ≤ start + Z.of_nat (length ks).
Proof.
  unfold log_writes. intros ([? ?] & -> & Hin)%list_elem_of_fmap. apply list_elem_of_lookup_1 in Hin as [i Hi].
  rewrite list_lookup_imap in Hi. destruct (ks !! i) as [k|] eqn:E; [|done]. simplify_eq/=.
  apply lookup_lt_Some in E. lia.
Qed.
Lemma home_writes_fst ks val : (home_writes ks val).*1 = ks.
Proof. unfold home_writes. rewrite <-list_fmap_compose. apply list_fmap_id. Qed.
Lemma recover_installs_fst start d ks : (recover_installs start d ks).*1 = ks.
Proof.
  unfold recover_installs. apply list_eq. intros i. rewrite list_lookup_fmap, list_lookup_imap. by destruct (ks !! i).
Qed.
Lemma log_writes_lookup start ks val i k :
  ks !! i = Some k → log_writes start ks val !! i = Some (start + Z.of_nat i + 1, val k).
Proof. intros H. unfold log_writes. by rewrite list_lookup_imap, H. Qed.
Lemma home_writes_lookup ks val i k : ks !! i = Some k → home_writes ks val !! i = Some (k, val k).
Proof. intros H. unfold home_writes. by rewrite list_lookup_fmap, H. Qed.
Lemma recover_installs_lookup start d ks i k :
  ks !! i = Some k → recover_installs start d ks !! i = Some (k, dread d (start + Z.of_nat i + 1)).
Proof. intros H. unfold recover_installs. by rewrite list_lookup_imap, H. Qed.

Lemma log_writes_nodup start ks val : NoDup (log_writes start ks val).*1.
Proof.
  apply NoDup_alt. intros i j x. rewrite !list_lookup_fmap. unfold log_writes. rewrite !list_lookup_imap.
  destruct (ks !! i), (ks !! j); simpl; intros [= <-] [= E]. lia.
Qed.

Lemma NoDup_drop {A} n (l : list A) : NoDup l → NoDup (drop n l).
Proof. intros H. rewrite <-(take_drop n l) in H. by apply NoDup_app in H as (_ & _ & H). Qed.

Lemma elem_of_drop_in {A} n (l : list A) x : x ∈ drop n l → x ∈ l.
Proof. intros H. rewrite <-(take_drop n l). apply elem_of_app. by right. Qed.

Section runs.
Context {S : Type} `{C : !BufCache S} `{!BufCacheLaws S}.
Abbreviation L := (lst S).
Implicit Types (s : L).

Lemma write_log_ok s d bufs ks val :
  log_place (log_start s) (log_size s) → heads s ks → Z.of_nat (length ks) < log_size s → (length ks < NBUF)%nat →
  NoDup ks → (∀ k, k ∈ ks → home (log_start s) (log_size s) k) → pins bufs ks val → lrep s (mkcache d bufs) →
  ∃ s', write_log s = Ok (tt, s') ∧ lrep s' (mkcache (writes (log_writes (log_start s) ks val) d) bufs) ∧ same_log s s'.
Proof.
  intros Hpl Hh Hsz Hnb Hnd Hhome Hpins Hrep. unfold write_log. rewrite gets_bind. destruct (Hh) as (-> & _).
  set (ws := log_writes (log_start s) ks val).
  destruct (forM_count (λ i s', lrep s' (mkcache (writes (take (Z.to_nat i) ws) d) bufs) ∧ same_log s s') write_one (length ks) 0 s)
    as (s' & E & Hrep' & Hsame).
  - intros i s' Hi [Hrep' [Hs Hb]]. destruct (lookup_lt_is_Some_2 ks (Z.to_nat i)) as [k Hk]; [lia|].
    assert (Hkh : home (log_start s) (log_size s) k) by (apply Hhome; eapply list_elem_of_lookup_2, Hk).
    assert (Hst : log_start s' = log_start s) by (by rewrite Hs). assert (Hbl : lh_block s' = lh_block s) by (by rewrite Hs).
    unfold log_place, home in *.
    destruct (write_one_ok s' (mkcache (writes (take (Z.to_nat i) ws) d) bufs) i k (val k)) as (s2 & E2 & Hrep2 & Hsame2); cbn [c_bufs].
    + done. + rewrite Hbl. replace i with (Z.of_nat (Z.to_nat i)) by lia. by eapply heads_get.
    + rewrite Hst. lia. + lia. + rewrite Hst. lia.
    + rewrite Hpins, Hst. rewrite decide_False; [done|]. intros Hin%Hhome. lia.
    + rewrite Hpins. rewrite decide_True; [done|]. eapply list_elem_of_lookup_2, Hk.
    + rewrite (pins_size _ _ _ Hpins Hnd). lia.
    + exists s2. split; [done|]. split; [|etrans; [by split|done]].
      replace (Z.to_nat (i + 1)) with (Datatypes.S (Z.to_nat i)) by lia.
      rewrite (take_S_r ws _ _ (log_writes_lookup _ _ _ _ _ Hk)), writes_snoc, Z2Nat.id by lia. cbn [c_disk] in Hrep2. by rewrite <-Hst.
  - split; [|done]. cbn [Z.to_nat take]. by rewrite writes_nil.
  - exists s'. split; [exact E|]. split; [|done]. rewrite Z.add_0_l, Nat2Z.id, take_ge in Hrep'; [done|].
    unfold ws, log_writes. by rewrite length_imap.
Qed.

Lemma install_commit_all s d bufs ks val :
  log_place (log_start s) (log_size s) → heads s ks → Z.of_nat (length ks) < log_size s → (length ks < NBUF)%nat →
  NoDup ks → (∀ k, k ∈ ks → home (log_start s) (log_size s) k) → pins bufs ks val → lrep s (mkcache d bufs) →
  (∀ i k, ks !! i = Some k → dread d (log_start s + Z.of_nat i + 1) = val k) →
  ∃ s', install_trans 0 s = Ok (tt, s') ∧ lrep s' (mkcache (writes (home_writes ks val) d) ∅) ∧ same_log s s'.
Proof.
  intros Hpl Hh Hsz Hnb Hnd Hhome Hpins Hrep Hlog. unfold install_trans. rewrite gets_bind. destruct (Hh) as (-> & _).
  set (ws := home_writes ks val).
  destruct (forM_count (λ i s', (∃ bs, pins bs (drop (Z.to_nat i) ks) val ∧ lrep s' (mkcache (writes (take (Z.to_nat i) ws) d) bs)) ∧ same_log s s') (install_one 0) (length ks) 0 s)
    as (s' & E & (bs & Hp & Hrep') & Hsame).
  - intros i s' Hi [(bs & Hp & Hrep') [Hs Hb]]. destruct (lookup_lt_is_Some_2 ks (Z.to_nat i)) as [k Hk]; [lia|].
    assert (Hkh : home (log_start s) (log_size s) k) by (apply Hhome; eapply list_elem_of_lookup_2, Hk).
    assert (Hst : log_start s' = log_start s) by (by rewrite Hs). assert (Hbl : lh_block s' = lh_block s) by (by rewrite Hs).
    rewrite (drop_S _ _ _ Hk) in Hp.
    assert (Hndd : NoDup (k :: drop (Datatypes.S (Z.to_nat i)) ks)) by (rewrite <-(drop_S _ _ _ Hk); by apply NoDup_drop).
    unfold log_place, home in *.
    destruct (install_commit_ok s' (mkcache (writes (take (Z.to_nat i) ws) d) bs) i k (val k)) as (s2 & E2 & Hrep2 & Hsame2); cbn [c_bufs].
    + done. + rewrite Hbl. replace i with (Z.of_nat (Z.to_nat i)) by lia. by eapply heads_get.
    + rewrite Hst. lia. + lia. + rewrite Hst. lia.
    + rewrite Hp, Hst. rewrite decide_False; [done|]. rewrite <-(drop_S _ _ _ Hk). intros Hin%elem_of_drop_in%Hhome. lia.
    + rewrite Hp. rewrite decide_True; [done|]. set_solver.
    + rewrite (pins_size _ _ _ Hp Hndd). rewrite <-(drop_S _ _ _ Hk), length_drop. lia.
    + exists s2. split; [done|]. split; [|etrans; [by split|done]].
      exists (delete k bs). replace (Z.to_nat (i + 1)) with (Datatypes.S (Z.to_nat i)) by lia.
      split; [apply pins_delete; [done|by apply NoDup_cons in Hndd as [? _]]|].
      rewrite (take_S_r ws _ _ (home_writes_lookup _ _ _ _ Hk)), writes_snoc. cbn [c_disk c_bufs] in Hrep2.
      rewrite writes_other in Hrep2.
      * rewrite Hst in Hrep2. replace (log_start s + i + 1) with (log_start s + Z.of_nat (Z.to_nat i) + 1) in Hrep2 by lia.
        by rewrite (Hlog _ _ Hk) in Hrep2.
      * rewrite Hst. intros Hin. apply list_elem_of_fmap in Hin as (x & Hx & Hin). apply elem_of_take in Hin as (j & Hj & _).
        unfold ws, home_writes in Hj. rewrite list_lookup_fmap in Hj. apply fmap_Some in Hj as (k' & Hk' & ->).
        apply list_elem_of_lookup_2, Hhome in Hk'. simpl in Hx. lia.
  - split; [|done]. exists bufs. cbn [Z.to_nat take drop]. by rewrite writes_nil.
  - exists s'. split; [exact E|]. split; [|done]. rewrite Z.add_0_l, Nat2Z.id in Hrep', Hp.
    rewrite drop_ge in Hp by done. rewrite take_ge in Hrep' by (unfold ws, home_writes; by rewrite length_fmap).
    by rewrite (pins_nil _ _ Hp) in Hrep'.
Qed.

Lemma install_recover_all s d ks :
  log_place (log_start s) (log_size s) → heads s ks → Z.of_nat (length ks) < log_size s →
  (∀ k, k ∈ ks → home (log_start s) (log_size s) k) → lrep s (mkcache d ∅) →
  ∃ s', install_trans 1 s = Ok (tt, s') ∧ lrep s' (mkcache (writes (recover_installs (log_start s) d ks) d) ∅) ∧ same_log s s'.
Proof.
  intros Hpl Hh Hsz Hhome Hrep. unfold install_trans. rewrite gets_bind. destruct (Hh) as (-> & _).
  set (ws := recover_installs (log_start s) d ks).
  assert (Hfst : ws.*1 = ks) by apply recover_installs_fst.
  destruct (forM_count (λ i s', lrep s' (mkcache (writes (take (Z.to_nat i) ws) d) ∅) ∧ same_log s s') (install_one 1) (length ks) 0 s)
    as (s' & E & Hrep' & Hsame).
  - intros i s' Hi [Hrep' [Hs Hb]]. destruct (lookup_lt_is_Some_2 ks (Z.to_nat i)) as [k Hk]; [lia|].
    assert (Hkh : home (log_start s) (log_size s) k) by (apply Hhome; eapply list_elem_of_lookup_2, Hk).
    assert (Hst : log_start s' = log_start s) by (by rewrite Hs). assert (Hbl : lh_block s' = lh_block s) by (by rewrite Hs).
    unfold log_place, home in *.
    destruct (install_recover_ok s' (writes (take (Z.to_nat i) ws) d) i k) as (s2 & E2 & Hrep2 & Hsame2).
    + done. + rewrite Hbl. replace i with (Z.of_nat (Z.to_nat i)) by lia. by eapply heads_get.
    + rewrite Hst. lia. + lia. + rewrite Hst. lia.
    + exists s2. split; [done|]. split; [|etrans; [by split|done]].
      replace (Z.to_nat (i + 1)) with (Datatypes.S (Z.to_nat i)) by lia.
      rewrite (take_S_r ws _ _ (recover_installs_lookup _ _ _ _ _ Hk)), writes_snoc.
      rewrite writes_other in Hrep2.
      * rewrite Hst in Hrep2. by replace (log_start s + i + 1) with (log_start s + Z.of_nat (Z.to_nat i) + 1) in Hrep2 by lia.
      * rewrite Hst. intros Hin. assert (Hin' : log_start s + i + 1 ∈ ws.*1).
        { apply list_elem_of_fmap in Hin as (x & -> & Hin). apply list_elem_of_fmap. exists x. split; [done|].
          apply elem_of_take in Hin as (j & Hj & _). by eapply list_elem_of_lookup_2. }
        rewrite Hfst in Hin'. apply Hhome in Hin'. lia.
  - split; [|done]. cbn [Z.to_nat take]. by rewrite writes_nil.
  - exists s'. split; [exact E|]. split; [|done]. rewrite Z.add_0_l, Nat2Z.id, take_ge in Hrep'; [done|].
    unfold ws, recover_installs. by rewrite length_imap.
Qed.

(** ** The header is read back *)

Lemma lh_set_ok i v s :
  0 ≤ i < Z.of_nat (length (lh_block s)) → lh_set i v s = Ok (tt, with_block (<[Z.to_nat i := v]> (lh_block s)) s).
Proof. intros Hi. unfold lh_set, zupd. by rewrite decide_True. Qed.

(** Only the cache and the in-memory header differ. *)
Definition same_frame s s' : Prop :=
  s' = with_bc (l_bc s') (with_n (lh_n s') (with_block (lh_block s') s)) ∧ bc_hart (l_bc s') = bc_hart (l_bc s).

Lemma same_log_frame s s' : same_log s s' → same_frame s s'.
Proof. intros [E Hh]. split; [|done]. rewrite E. by destruct s. Qed.
#[global] Instance same_frame_trans : Transitive same_frame.
Proof. intros s1 s2 s3 [E1 H1] [E2 H2]. split; [|congruence]. by rewrite E2, E1. Qed.

Lemma read_head_ok s d :
  let l := dread d (log_start s) in
  0 ≤ log_start s < 2 ^ 32 → 0 ≤ hdr_n l ≤ LOGSIZE → length (lh_block s) = Z.to_nat LOGSIZE → lrep s (mkcache d ∅) →
  ∃ s', read_head s = Ok (tt, s') ∧ heads s' (hdr_blocks l) ∧ lrep s' (mkcache d ∅) ∧ same_frame s s'.
Proof.
  intros l Hst Hn Hlen Hrep. unfold read_head. rewrite !gets_bind, u32_small by done.
  destruct (bread_fresh _ (log_start s) _ _ Hrep) as (buf & b1 & E1 & R1 & T1); [done|cbn; rewrite map_size_empty; unfold NBUF; lia|].
  erewrite inbc_bind by exact E1. fold l in R1.
  assert (E2 := bdata_entry _ (log_start s) buf _ _ l 1 R1 ltac:(cbn; by simplify_map_eq)). erewrite inbc_bind by exact E2.
  rewrite modify_bind, gets_bind. cbn [lh_n with_n]. change (i32 (get32 l hb_n)) with (hdr_n l).
  set (s1 := with_n _ _). set (n := Z.to_nat (hdr_n l)). replace (hdr_n l) with (Z.of_nat n) by (unfold n; lia).
  assert (Hl1 : length (lh_block s1) = Z.to_nat LOGSIZE) by done.
  destruct (forM_count (λ i s', length (lh_block s') = Z.to_nat LOGSIZE ∧ take (Z.to_nat i) (lh_block s') = hdr_block l <$> seq 0 (Z.to_nat i) ∧
      s' = with_block (lh_block s') s1) (λ i, lh_set i (i32 (get32 l (hb_block i)))) n 0 s1) as (s2 & E3 & Hl2 & Ht2 & Hs2).
  - intros i s' Hi (Hl' & Ht & Hs'). rewrite lh_set_ok by (rewrite Hl'; unfold LOGSIZE, MAXOPBLOCKS in *; lia).
    eexists. split; [done|]. cbn [lh_block with_block]. split; [by rewrite length_insert|]. split; [|by rewrite Hs'].
    replace (Z.to_nat (i + 1)) with (Datatypes.S (Z.to_nat i)) by lia.
    assert (Hlt : (Z.to_nat i < length (lh_block s'))%nat) by (rewrite Hl'; unfold LOGSIZE, MAXOPBLOCKS in *; lia).
    rewrite (take_S_r _ _ (i32 (get32 l (hb_block i)))) by (by apply list_lookup_insert_eq).
    rewrite take_insert_ge by done. rewrite Ht, seq_S, fmap_app. simpl. unfold hdr_block. by rewrite Z2Nat.id by lia.
  - done.
  - rewrite (bind_Ok_eq _ _ _ _ _ E3). rewrite Z.add_0_l, Nat2Z.id in Ht2.
    assert (Hb2 : l_bc s2 = b1) by (by rewrite Hs2).
    destruct (brelse_last _ (log_start s) buf b1 _ l R1) as (b4 & E4 & R4 & T4); [cbn; by simplify_map_eq|done|].
    erewrite inbc_last by (rewrite Hb2; exact E4). eexists. split; [done|]. split_and!.
    + split; [|split]; cbn [lh_n lh_block with_bc].
      * rewrite Hs2. cbn. unfold hdr_blocks. rewrite length_fmap, length_seq. unfold n. lia.
      * unfold hdr_blocks at 1. rewrite length_fmap, length_seq. exact Ht2.
      * done.
    + unfold lrep. cbn [log_dev l_bc with_bc]. replace (log_dev s2) with (log_dev s) by (by rewrite Hs2).
      refine (eq_ind _ (λ x, bc_rep _ _ x) R4 _ _). unfold c_put. cbn. f_equal. apply delete_insert_id. by rewrite lookup_empty.
    + split; [|cbn; congruence]. cbn. rewrite Hs2. done.
Qed.
End runs.
