(* ===== verification/LogClaims.v ===== *)
(** * Transactions are atomic

    The disk may stop after any of the block writes of [commit], and again
    after any of the block writes of a recovery.  [recovered] is what a disk
    holds for a reader that takes the log into account; commit changes it in one
    step and recovery never changes it. *)
From S2P Require Import Prelude Spinlock Sleeplock BufCache Log LogRun.

Section place.
Context (start size : Z).

Definition header (d : disk) : list Z := hdr_blocks (dread d start).
(** The contents of block [k] after the log has been replayed. *)
Definition recovered (d : disk) (k : Z) : list Z :=
  match list_find (λ x, x = k) (header d) with
  | Some (i, _) => dread d (start + Z.of_nat i + 1)
  | None => dread d k
  end.
(** A log the code can replay. *)
Definition log_wf (d : disk) : Prop :=
  length (dread d start) = Z.to_nat BSIZE ∧ 0 ≤ hdr_n (dread d start) ≤ LOGSIZE ∧ hdr_n (dread d start) < size ∧
  NoDup (header d) ∧ ∀ k, k ∈ header d → home start size k.

Definition commit_writes (d : disk) (ks : list Z) (val : Z → list Z) : list (Z * list Z) :=
  let h := put_header (dread d start) ks in
  log_writes start ks val ++ [(start, h)] ++ home_writes ks val ++ [(start, put_header h [])].
Definition recover_writes (d : disk) : list (Z * list Z) :=
  recover_installs start d (header d) ++ [(start, put_header (dread d start) [])].

(** The contents once the transaction has taken effect. *)
Definition updated (d : disk) (ks : list Z) (val : Z → list Z) (k : Z) : list Z :=
  if decide (k ∈ ks) then val k else dread d k.

Lemma length_header d : length (header d) = Z.to_nat (hdr_n (dread d start)).
Proof. unfold header, hdr_blocks. by rewrite length_fmap, length_seq. Qed.

Lemma recovered_in d k i :
  NoDup (header d) → header d !! i = Some k → recovered d k = dread d (start + Z.of_nat i + 1).
Proof.
  intros Hnd Hi. unfold recovered. destruct (list_find (λ x, x = k) (header d)) as [[j x]|] eqn:E.
  - apply list_find_Some in E as (Hj & -> & _). by rewrite (NoDup_lookup _ _ _ _ Hnd Hj Hi).
  - apply list_find_None in E. rewrite Forall_forall in E. exfalso. eapply E; [eapply list_elem_of_lookup_2, Hi|done].
Qed.
Lemma recovered_out d k : k ∉ header d → recovered d k = dread d k.
Proof.
  intros Hk. unfold recovered. destruct (list_find (λ x, x = k) (header d)) as [[j x]|] eqn:E; [|done].
  apply list_find_Some in E as (Hj & -> & _). by apply list_elem_of_lookup_2 in Hj.
Qed.
Lemma recovered_empty d k : hdr_n (dread d start) = 0 → recovered d k = dread d k.
Proof.
  intros H. apply recovered_out. assert (E : length (header d) = 0%nat) by (by rewrite length_header, H).
  apply length_zero_iff_nil in E. rewrite E. set_solver.
Qed.

Lemma header_empty d : hdr_n (dread d start) = 0 → header d = [].
Proof. intros H. apply length_zero_iff_nil. by rewrite length_header, H. Qed.

(** A header block as [write_head] leaves it. *)
Lemma header_put d l ks :
  dread d start = put_header l ks → length l = Z.to_nat BSIZE → Z.of_nat (length ks) ≤ LOGSIZE →
  (∀ k, k ∈ ks → home start size k) →
  header d = ks ∧ hdr_n (dread d start) = Z.of_nat (length ks) ∧ length (dread d start) = Z.to_nat BSIZE.
Proof.
  intros E Hl Hn Hh. unfold header. rewrite E. destruct (put_header_spec l ks Hl Hn) as (H1 & H2 & H3).
  - intros k Hk%Hh. unfold home in Hk. lia.
  - done.
Qed.

Hypothesis Hplace : log_place start size.

Lemma take_fst {A B} m (l : list (A * B)) x : x ∈ (take m l).*1 → x ∈ l.*1.
Proof. intros H. rewrite <-(take_drop m l), fmap_app. apply elem_of_app. by left. Qed.

(** Every state the disk goes through in [commit]. *)
Lemma commit_prefix d ks val m :
  length (dread d start) = Z.to_nat BSIZE → hdr_n (dread d start) = 0 →
  NoDup ks → Z.of_nat (length ks) ≤ LOGSIZE → Z.of_nat (length ks) < size → (∀ k, k ∈ ks → home start size k) →
  let d' := writes (take m (commit_writes d ks val)) d in
  log_wf d' ∧ ∀ k, home start size k →
    recovered d' k = if decide (m ≤ length ks)%nat then dread d k else updated d ks val k.
Proof.
  intros Hl H0 Hnd HnL Hns Hhome. unfold commit_writes. set (h := put_header (dread d start) ks). cbv zeta.
  set (w1 := log_writes start ks val). set (w3 := home_writes ks val). unfold log_place, home in *.
  assert (L1 : length w1 = length ks) by (unfold w1, log_writes; by rewrite length_imap).
  assert (L3 : length w3 = length ks) by (unfold w3, home_writes; by rewrite length_fmap).
  assert (F1 : ∀ x, x ∈ w1.*1 → start < x ≤ start + Z.of_nat (length ks)) by apply log_writes_fst.
  assert (F3 : w3.*1 = ks) by apply home_writes_fst.
  assert (Hempty : ∀ d', dread d' start = put_header h [] ∨ dread d' start = dread d start → log_wf d' ∧ header d' = []).
  { intros d' Hd'. assert (Hh : header d' = [] ∧ hdr_n (dread d' start) = 0 ∧ length (dread d' start) = Z.to_nat BSIZE).
    { destruct Hd' as [E|E].
      - assert (Hlh : length h = Z.to_nat BSIZE) by (apply put_header_spec; [done|done|intros k Hk%Hhome; lia]).
        destruct (header_put d' h [] E Hlh) as (E1 & E2 & E3); [unfold LOGSIZE, MAXOPBLOCKS; simpl; lia|set_solver|done].
      - unfold header. rewrite E. split; [|done]. apply length_zero_iff_nil. unfold hdr_blocks. by rewrite length_fmap, length_seq, H0. }
    destruct Hh as (E1 & E2 & E3). split; [|done]. unfold log_wf. rewrite E1, E2, E3. unfold LOGSIZE, MAXOPBLOCKS.
    split_and!; try done; try lia; [constructor|set_solver]. }
  destruct (decide (m ≤ length ks)%nat) as [Hm|Hm].
  - rewrite take_app_le by lia. set (d' := writes (take m w1) d).
    assert (Hold : ∀ k, k ≤ start ∨ start + size ≤ k → dread d' k = dread d k).
    { intros k Hk. apply writes_other. intros Hin%take_fst%F1. lia. }
    destruct (Hempty d') as [Hwf He]; [right; apply Hold; lia|]. split; [done|]. intros k Hk.
    rewrite recovered_out by (rewrite He; set_solver). apply Hold. lia.
  - rewrite take_app_ge by lia. rewrite L1. destruct (m - length ks)%nat as [|m'] eqn:Em; [lia|]. cbn [app take].
    rewrite writes_app. set (d1 := writes w1 d).
    assert (Hlog : ∀ i k, ks !! i = Some k → dread d1 (start + Z.of_nat i + 1) = val k).
    { intros i k Hk. apply writes_last; [apply log_writes_nodup|].
      eapply list_elem_of_lookup_2, log_writes_lookup, Hk. }
    assert (Hd1 : ∀ k, k ≤ start ∨ start + size ≤ k → dread d1 k = dread d k).
    { intros k Hk. apply writes_other. intros Hin%F1. lia. }
    destruct (decide (m' ≤ length ks)%nat) as [Hm'|Hm'].
    + rewrite take_app_le by lia. change ((start, h) :: take m' w3) with ([(start, h)] ++ take m' w3).
      rewrite writes_app. set (d2 := writes [(start, h)] d1). set (d' := writes (take m' w3) d2).
      assert (Hd2 : ∀ k, dread d2 k = if decide (start = k) then h else dread d1 k).
      { intros k. unfold d2. change [(start, h)] with ([] ++ [(start, h)]). by rewrite writes_snoc, writes_nil, dread_write. }
      assert (Hd' : ∀ k, k ∉ ks → dread d' k = dread d2 k).
      { intros k Hk. apply writes_other. intros Hin%take_fst. rewrite F3 in Hin. done. }
      assert (Hst : dread d' start = h) by (rewrite Hd' by (intros Hin%Hhome; lia); rewrite Hd2; by rewrite decide_True).
      destruct (header_put d' (dread d start) ks Hst Hl HnL Hhome) as (E1 & E2 & E3).
      split; [unfold log_wf; rewrite E1, E2, E3; split_and!; try done; lia|]. intros k Hk. unfold updated.
      case_decide as Hin.
      * apply list_elem_of_lookup_1 in Hin as [i Hi]. rewrite (recovered_in _ _ i) by (by rewrite E1).
        assert (Hlt := lookup_lt_Some _ _ _ Hi). rewrite Hd' by (intros Hin%Hhome; lia).
        rewrite Hd2, decide_False by lia. by apply Hlog.
      * rewrite recovered_out by (by rewrite E1). rewrite Hd' by done. rewrite Hd2, decide_False by lia. apply Hd1. lia.
    + rewrite take_ge by (rewrite length_app, L3; simpl; lia). change ((start, h) :: w3 ++ ?x) with ([(start, h)] ++ w3 ++ x).
      rewrite app_assoc, writes_snoc. set (d2 := writes ([(start, h)] ++ w3) d1). set (d' := dwrite _ _ d2).
      destruct (Hempty d') as [Hwf He]; [left; unfold d'; rewrite dread_write; by rewrite decide_True|]. split; [done|]. intros k Hk.
      rewrite recovered_out by (rewrite He; set_solver). unfold d'. rewrite dread_write, decide_False by lia.
      unfold d2. rewrite writes_app. unfold updated. case_decide as Hin.
      * apply writes_last; [by rewrite F3|]. apply list_elem_of_fmap. by exists k.
      * rewrite writes_other by (by rewrite F3). change [(start, h)] with ([] ++ [(start, h)]).
        rewrite writes_snoc, writes_nil, dread_write, decide_False by lia. apply Hd1. lia.
Qed.

(** At its end. *)
Lemma commit_final d ks val k :
  length (dread d start) = Z.to_nat BSIZE → hdr_n (dread d start) = 0 →
  NoDup ks → Z.of_nat (length ks) ≤ LOGSIZE → Z.of_nat (length ks) < size → (∀ k, k ∈ ks → home start size k) →
  home start size k → dread (writes (commit_writes d ks val) d) k = updated d ks val k.
Proof.
  intros Hl H0 Hnd HnL Hns Hhome Hk. set (w := commit_writes d ks val).
  assert (Hlen : (length w = 2 * length ks + 2)%nat).
  { unfold w, commit_writes, log_writes, home_writes. rewrite !length_app, length_imap, length_fmap. simpl. lia. }
  destruct (commit_prefix d ks val (length w) Hl H0 Hnd HnL Hns Hhome) as [_ Hrec].
  fold w in Hrec. rewrite take_ge in Hrec by done. specialize (Hrec k Hk). rewrite decide_False in Hrec by lia. rewrite <-Hrec.
  symmetry. apply recovered_empty. set (h := put_header (dread d start) ks).
  assert (Hlh : length h = Z.to_nat BSIZE).
  { apply put_header_spec; [done|done|]. intros x Hx%Hhome. unfold home in Hx. lia. }
  assert (Hd : dread (writes w d) start = put_header h []).
  { unfold w, commit_writes. fold h. rewrite !app_assoc, writes_snoc, dread_write. by rewrite decide_True. }
  apply (header_put _ h [] Hd Hlh); [unfold LOGSIZE, MAXOPBLOCKS; simpl; lia|set_solver].
Qed.

(** Every state the disk goes through in a recovery. *)
Lemma recover_prefix d m :
  log_wf d →
  let d' := writes (take m (recover_writes d)) d in
  log_wf d' ∧ (∀ k, home start size k → recovered d' k = recovered d k) ∧
  ((length (header d) < m)%nat → header d' = [] ∧ hdr_n (dread d' start) = 0 ∧ ∀ k, home start size k → dread d' k = recovered d k).
Proof.
  intros (Hl & Hn & Hs & Hnd & Hhome). unfold recover_writes. set (ks := header d) in *. set (w := recover_installs start d ks).
  cbv zeta. unfold log_place, home in *.
  assert (Lks : Z.of_nat (length ks) = hdr_n (dread d start)) by (unfold ks; rewrite length_header; lia).
  assert (L : length w = length ks) by (unfold w, recover_installs; by rewrite length_imap).
  assert (F : w.*1 = ks) by apply recover_installs_fst.
  assert (Hw : ∀ m k, k ∉ ks → dread (writes (take m w) d) k = dread d k).
  { intros m0 k Hk. apply writes_other. intros Hin%take_fst. by rewrite F in Hin. }
  assert (Hlogb : ∀ i, (i < length ks)%nat → start + Z.of_nat i + 1 ∉ ks) by (intros i Hi Hin%Hhome; lia).
  assert (Hst : start ∉ ks) by (intros Hin%Hhome; lia).
  destruct (decide (m ≤ length ks)%nat) as [Hm|Hm].
  - rewrite take_app_le by lia. set (d' := writes (take m w) d).
    assert (Hd : dread d' start = dread d start) by (by apply Hw). assert (He : header d' = ks) by (unfold header; by rewrite Hd).
    split; [unfold log_wf; rewrite Hd, He; done|]. split; [|lia]. intros k Hk.
    destruct (decide (k ∈ ks)) as [Hin|Hout].
    + apply list_elem_of_lookup_1 in Hin as [i Hi]. rewrite !(recovered_in _ _ i) by (by rewrite ?He).
      apply Hw, Hlogb. by eapply lookup_lt_Some.
    + rewrite !recovered_out by (by rewrite ?He). by apply Hw.
  - rewrite take_ge by (rewrite length_app, L; simpl; lia). rewrite writes_snoc. set (d1 := writes w d). set (d' := dwrite _ _ d1).
    assert (Hd : dread d' start = put_header (dread d start) []) by (unfold d'; rewrite dread_write; by rewrite decide_True).
    destruct (header_put d' (dread d start) [] Hd Hl) as (E1 & E2 & E3); [unfold LOGSIZE, MAXOPBLOCKS; simpl; lia|set_solver|].
    assert (Hfin : ∀ k, 0 ≤ k < 2 ^ 31 ∧ (k < start ∨ start + size ≤ k) → dread d' k = recovered d k).
    { intros k Hk. unfold d'. rewrite dread_write, decide_False by lia. destruct (decide (k ∈ ks)) as [Hin|Hout].
      - apply list_elem_of_lookup_1 in Hin as [i Hi]. rewrite (recovered_in d k i) by done.
        apply writes_last; [by rewrite F|]. eapply list_elem_of_lookup_2, recover_installs_lookup, Hi.
      - rewrite recovered_out by done. apply writes_other. by rewrite F. }
    split; [|split].
    + unfold log_wf. rewrite E1, E2, E3. unfold LOGSIZE, MAXOPBLOCKS. change (Z.of_nat (length [])) with 0. split_and!; try done; try lia; [constructor|set_solver].
    + intros k Hk. rewrite recovered_out by (rewrite E1; set_solver). by apply Hfin.
    + intros _. split; [done|]. split; [done|]. by apply Hfin.
Qed.
End place.

(** ** Running the code *)

Section code.
Context {S : Type} `{C : !BufCache S} `{!BufCacheLaws S}.
Abbreviation L := (lst S).
Implicit Types (s : L).

(** The spin lock of the log. *)
Definition enter s : L :=
  with_bc (bc_set_hart (push_off (bc_hart (l_bc s))) (l_bc s)) (with_lock (held_by (hartid (bc_hart (l_bc s))) (log_lock s)) s).
Definition leave (h : hart) (lk : spinlock) s : L := with_bc (bc_set_hart h (l_bc s)) (with_lock lk s).

Lemma lock_log_ok s : lock_quiet (log_lock s) → acquireM tt s = Ok (tt, enter s).
Proof. intros H. unfold acquireM. cbn. by rewrite acquire_quiet. Qed.
Lemma unlock_log_ok s h lk :
  lock_quiet lk → hart_good h → log_lock s = held_by (hartid h) lk → bc_hart (l_bc s) = push_off h →
  releaseM tt s = Ok (tt, leave h lk s).
Proof. intros Hlk Hh H1 H2. unfold releaseM. cbn. by rewrite H1, H2, release_quiet. Qed.

Lemma lrep_enter s c : lrep s c → lrep (enter s) c ∧ bc_hart (l_bc (enter s)) = push_off (bc_hart (l_bc s)).
Proof.
  intros H. unfold lrep in *. cbn. split; [|apply bc_hart_set].
  apply bc_hart_rep; [done|]. apply hart_good_push. by eapply bc_hart_good.
Qed.
Lemma lrep_leave s c h lk : lrep s c → hart_good h → lrep (leave h lk s) c ∧ bc_hart (l_bc (leave h lk s)) = h.
Proof. intros H Hh. unfold lrep in *. cbn. split; [by apply bc_hart_rep|apply bc_hart_set]. Qed.

(** A transaction of the blocks [ks] with the new contents [val], complete in
    the cache, not yet on disk. *)
Record txn (dev : Z) s (d : disk) (ks : list Z) (val : Z → list Z) : Prop := {
  tx_dev : log_dev s = dev;
  tx_place : log_place (log_start s) (log_size s);
  tx_rep : ∃ bufs, lrep s (mkcache d bufs) ∧ pins bufs ks val;
  tx_heads : heads s ks;
  tx_some : ks ≠ [];
  tx_nodup : NoDup ks;
  tx_home : ∀ k, k ∈ ks → home (log_start s) (log_size s) k;
  tx_fits : Z.of_nat (length ks) < log_size s;
  tx_bufs : (length ks < NBUF)%nat;
  tx_clean : length (dread d (log_start s)) = Z.to_nat BSIZE ∧ hdr_n (dread d (log_start s)) = 0;
  tx_lock : lock_quiet (log_lock s) }.

Lemma heads_nil s : length (lh_block s) = Z.to_nat LOGSIZE → heads (with_n 0 s) [].
Proof. intros H. split; [done|]. split; [by rewrite take_0|done]. Qed.

Lemma commit_ok dev s d ks val :
  txn dev s d ks val →
  ∃ s', commit s = Ok (tt, s') ∧ lrep s' (mkcache (writes (commit_writes (log_start s) d ks val) d) ∅) ∧ heads s' [] ∧ same_frame s s'.
Proof.
  intros [_ Hpl (bufs & Hrep & Hp) Hh Hne Hnd Hhome Hfit Hnb [Hl0 Hn0] _]. unfold commit. rewrite gets_bind.
  assert (Hlen : 0 < lh_n s) by (destruct Hh as (-> & _); destruct ks; [done|simpl; lia]).
  rewrite bool_decide_true by lia. set (b := log_start s) in *.
  destruct (write_log_ok s d bufs ks val Hpl Hh Hfit Hnb Hnd Hhome Hp Hrep) as (s1 & E1 & R1 & H1).
  rewrite (bind_Ok_eq _ _ _ _ _ E1). set (w1 := log_writes (log_start s) ks val) in *.
  assert (Hst1 : log_start s1 = b) by (by destruct H1 as [-> _]). assert (Hsz1 : log_size s1 = log_size s) by (by destruct H1 as [-> _]).
  assert (Hh1 : heads s1 ks) by (by eapply heads_same).
  assert (Hstart : dread (writes w1 d) b = dread d b).
  { apply writes_other. intros Hin%log_writes_fst. unfold b in *. lia. }
  unfold log_place in Hpl.
  destruct (write_head_ok s1 _ ks Hh1 R1) as (s2 & E2 & R2 & H2); cbn [c_bufs].
  { rewrite Hst1. unfold b. lia. }
  { rewrite Hp, Hst1. apply decide_False. intros Hin%Hhome. unfold home, b in *. lia. }
  { rewrite (pins_size _ _ _ Hp Hnd). done. }
  rewrite (bind_Ok_eq _ _ _ _ _ E2). cbn [c_disk c_bufs] in R2. rewrite Hst1, Hstart in R2.
  set (h := put_header (dread d b) ks) in *. rewrite <-writes_snoc in R2.
  assert (Hst2 : log_start s2 = b) by (by destruct H2 as [-> _]). assert (Hsz2 : log_size s2 = log_size s) by (by destruct H2 as [-> _]).
  assert (Hh2 : heads s2 ks) by (by eapply heads_same).
  destruct (install_commit_all s2 _ bufs ks val ltac:(by rewrite Hst2, Hsz2) Hh2 ltac:(by rewrite Hsz2) Hnb Hnd ltac:(by rewrite Hst2, Hsz2) Hp R2) as (s3 & E3 & R3 & H3).
  { intros i k Hi. rewrite Hst2, writes_snoc, dread_write, decide_False by lia.
    apply writes_last; [apply log_writes_nodup|]. eapply list_elem_of_lookup_2, log_writes_lookup, Hi. }
  rewrite (bind_Ok_eq _ _ _ _ _ E3). rewrite modify_bind. rewrite <-writes_app in R3.
  assert (Hst3 : log_start s3 = b) by (by destruct H3 as [-> _]).
  assert (Hlen3 : length (lh_block s3) = Z.to_nat LOGSIZE) by (eapply heads_same in H3; [|done]; apply H3).
  destruct (write_head_ok (with_n 0 s3) _ [] (heads_nil _ Hlen3) R3) as (s4 & E4 & R4 & H4).
  { cbn. rewrite Hst3. unfold b. lia. } { done. } { cbn. rewrite map_size_empty. unfold NBUF. lia. }
  exists s4. split; [exact E4|]. split; [|split].
  - cbn [c_disk c_bufs log_start with_n] in R4. rewrite Hst3 in R4. rewrite <-writes_snoc in R4.
    unfold commit_writes. fold b h w1. rewrite !app_assoc.
    assert (Hh4 : dread (writes ((w1 ++ [(b, h)]) ++ home_writes ks val) d) b = h).
    { rewrite writes_app, writes_other.
      - by rewrite writes_snoc, dread_write, decide_True.
      - rewrite home_writes_fst. intros Hin%Hhome. unfold home, b in *. lia. }
    by rewrite Hh4 in R4.
  - eapply heads_same; [by apply heads_nil|done].
  - etrans; [apply same_log_frame; etrans; [exact H1|]; etrans; [exact H2|exact H3]|].
    destruct H4 as [H4 H4']. split; [|done]. rewrite H4. done.
Qed.

Lemma recover_ok s d :
  log_place (log_start s) (log_size s) → log_wf (log_start s) (log_size s) d → length (lh_block s) = Z.to_nat LOGSIZE →
  lrep s (mkcache d ∅) →
  ∃ s', recover_from_log s = Ok (tt, s') ∧ lrep s' (mkcache (writes (recover_writes (log_start s) d) d) ∅) ∧ heads s' [] ∧ same_frame s s'.
Proof.
  intros Hpl (Hl & Hn & Hsz & Hnd & Hhome) Hlen Hrep. unfold recover_from_log. set (b := log_start s) in *.
  pose proof Hpl as Hpl'. unfold log_place in Hpl.
  destruct (read_head_ok s d ltac:(fold b; lia) Hn Hlen Hrep) as (s1 & E1 & Hh1 & R1 & H1). rewrite (bind_Ok_eq _ _ _ _ _ E1).
  assert (Hst1 : log_start s1 = b) by (by destruct H1 as [-> _]). assert (Hsz1 : log_size s1 = log_size s) by (by destruct H1 as [-> _]).
  fold b in Hh1. fold (header b d) in Hh1.
  destruct (install_recover_all s1 d (header b d) ltac:(by rewrite Hst1, Hsz1) Hh1) as (s2 & E2 & R2 & H2).
  { rewrite Hsz1, length_header. lia. } { by rewrite Hst1, Hsz1. } { done. }
  rewrite (bind_Ok_eq _ _ _ _ _ E2). rewrite modify_bind. rewrite Hst1 in R2.
  assert (Hst2 : log_start s2 = b) by (by destruct H2 as [-> _]).
  assert (Hlen2 : length (lh_block s2) = Z.to_nat LOGSIZE) by (eapply heads_same in H2; [|done]; apply H2).
  destruct (write_head_ok (with_n 0 s2) _ [] (heads_nil _ Hlen2) R2) as (s4 & E4 & R4 & H4).
  { cbn. rewrite Hst2. lia. } { done. } { cbn. rewrite map_size_empty. unfold NBUF. lia. }
  exists s4. split; [exact E4|]. split; [|split].
  - cbn [c_disk c_bufs log_start with_n] in R4. rewrite Hst2 in R4. unfold recover_writes. rewrite writes_snoc.
    rewrite (writes_other (recover_installs b d (header b d))) in R4; [done|].
    rewrite recover_installs_fst. intros Hin%Hhome. unfold home in Hin. lia.
  - eapply heads_same; [by apply heads_nil|done].
  - etrans; [exact H1|]. etrans; [apply same_log_frame, H2|].
    destruct H4 as [H4 H4']. split; [|done]. rewrite H4. done.
Qed.
End code.
