(* ===== verification/Crash.v ===== *)
(** * Crashes

    A crash leaves a disk that has received some of the writes, oldest first;
    the machine then boots with an empty cache and runs [initlog]. *)
From S2P Require Import Prelude Spinlock Sleeplock BufCache Bio BioSpec Log LogRun LogClaims.

(** [dc]: the disk [d] with the first few of the writes that lead to [d']. *)
Definition crash (d d' dc : disk) : Prop :=
  ∃ w1 w2, d' = mkdisk (d_init d) (w1 ++ w2 ++ d_writes d) ∧ dc = mkdisk (d_init d) (w2 ++ d_writes d).

Lemma crash_take d ws dc : crash d (writes ws d) dc → ∃ m, dc = writes (take m ws) d.
Proof.
  intros (w1 & w2 & E & ->). unfold writes in E. injection E as E. rewrite app_assoc in E. apply app_inv_tail in E.
  exists (length w2). unfold writes. f_equal. f_equal. rewrite <-(reverse_involutive ws), E, reverse_app.
  rewrite take_app_le by (by rewrite length_reverse). rewrite take_ge by (by rewrite length_reverse).
  by rewrite reverse_involutive.
Qed.
Lemma take_crash d ws m : crash d (writes ws d) (writes (take m ws) d).
Proof.
  exists (reverse (drop m ws)), (reverse (take m ws)). split; [|done]. unfold writes. f_equal.
  by rewrite app_assoc, <-reverse_app, take_drop.
Qed.

Section crash.
Context {S : Type} `{C : !BufCache S} `{!BufCacheLaws S}.
Abbreviation L := (lst S).
Implicit Types (s : L).

(** The log's static memory after a boot. *)
Definition log_bss (b : S) : L := mklst b (mklock "" 0 None) 0 0 0 0 0 0 (replicate (Z.to_nat LOGSIZE) 0) 0.

(** A boot on disk [d] that crashes during the recovery and leaves [d']. *)
Definition interrupted (dev start size : Z) (d d' : disk) : Prop :=
  ∃ b s', bc_rep dev b (mkcache d ∅) ∧ initlog dev start size (log_bss b) = Ok (tt, s') ∧ crash d (bc_disk (l_bc s')) d'.

Lemma initlog_ok dev start size b d :
  log_place start size → log_wf start size d → bc_rep dev b (mkcache d ∅) →
  ∃ s', initlog dev start size (log_bss b) = Ok (tt, s') ∧
    lrep s' (mkcache (writes (recover_writes start d) d) ∅) ∧ lh_n s' = 0 ∧ log_dev s' = dev.
Proof.
  intros Hpl Hwf Hrep. unfold initlog. rewrite bool_decide_false by (unfold sizeof_logheader, LOGSIZE, MAXOPBLOCKS, BSIZE; lia).
  rewrite !modify_bind. set (s0 := with_place _ _ _ _).
  destruct (recover_ok s0 d Hpl Hwf ltac:(done) Hrep) as (s' & E & R & Hh & Hf).
  exists s'. split; [exact E|]. split; [exact R|]. split; [apply Hh|]. destruct Hf as [-> _]. done.
Qed.

(** What any number of interrupted recoveries preserves. *)
Lemma interrupted_ok dev start size d d' :
  log_place start size → log_wf start size d → rtc (interrupted dev start size) d d' →
  log_wf start size d' ∧ ∀ k, home start size k → recovered start d' k = recovered start d k.
Proof.
  intros Hpl Hwf H. induction H as [|d1 d2 d3 (b & s' & Hb & E & Hc) _ IH]; [done|].
  destruct (initlog_ok dev start size b d1 Hpl Hwf Hb) as (s2 & E2 & R2 & _ & Hd2). rewrite E in E2. injection E2 as <-.
  unfold lrep in R2. rewrite Hd2 in R2. apply bc_disk_law in R2. cbn in R2. rewrite R2 in Hc.
  apply crash_take in Hc as [m ->].
  destruct (recover_prefix start size Hpl d1 m Hwf) as (Hwf' & Hrec & _).
  destruct (IH Hwf') as [H1 H2]. split; [done|]. intros k Hk. rewrite H2, Hrec by done. done.
Qed.

(** [end_op] of the last system call of the transaction. *)
Lemma end_op_commits dev s d ks val :
  txn dev s d ks val → log_outstanding s = 1 → log_committing s = 0 →
  ∃ s', end_op s = Ok (tt, s') ∧ lrep s' (mkcache (writes (commit_writes (log_start s) d ks val) d) ∅) ∧ heads s' [] ∧
    log_outstanding s' = 0 ∧ log_committing s' = 0 ∧ log_dev s' = dev.
Proof.
  intros Htx Hout Hcom. pose proof Htx as [Hdev Hpl (bufs & Hrep & Hp) Hh Hne Hnd Hhome Hfit Hnb Hcl Hlk].
  unfold end_op. rewrite (bind_Ok_eq _ _ _ _ _ (lock_log_ok s Hlk)).
  assert (Hg : hart_good (bc_hart (l_bc s))) by (eapply bc_hart_good; exact Hrep).
  unfold end_round. unfold mbind at 1, M_bind at 1. rewrite gets_bind, modify_bind, gets_bind. cbn [log_committing with_outstanding enter with_bc with_lock].
  rewrite Hcom, bool_decide_false by tauto. rewrite gets_bind. cbn [log_outstanding with_outstanding enter with_bc with_lock].
  rewrite Hout, bool_decide_true by done. rewrite modify_bind. unfold mret at 1, M_ret at 1.
  set (s1 := with_committing _ _).
  rewrite (bind_Ok_eq _ _ _ _ _ (unlock_log_ok s1 (bc_hart (l_bc s)) (log_lock s) Hlk Hg eq_refl (bc_hart_set _ _))).
  set (s2 := leave _ _ s1).
  assert (R1 : lrep s1 (mkcache d bufs)) by (apply (lrep_enter s _ Hrep)).
  destruct (lrep_leave s1 _ (bc_hart (l_bc s)) (log_lock s) R1 Hg) as [R2 Hh2]. fold s2 in R2, Hh2.
  assert (Htx2 : txn dev s2 d ks val) by (constructor; try done; by exists bufs).
  destruct (commit_ok dev s2 d ks val Htx2) as (s3 & E3 & R3 & H3 & [F3 F3']). rewrite (bind_Ok_eq _ _ _ _ _ E3).
  assert (Hlk3 : lock_quiet (log_lock s3)) by (by rewrite F3).
  assert (Hg3 : hart_good (bc_hart (l_bc s3))) by (eapply bc_hart_good; exact R3).
  rewrite (bind_Ok_eq _ _ _ _ _ (lock_log_ok s3 Hlk3)). rewrite modify_bind. unfold wakeup_log. rewrite modify_bind.
  set (s4 := mklst _ _ _ _ _ _ _ _ _ _).
  rewrite (unlock_log_ok s4 (bc_hart (l_bc s3)) (log_lock s3) Hlk3 Hg3 eq_refl (bc_hart_set _ _)).
  destruct (lrep_enter s3 _ R3) as [R4 _]. assert (R4' : lrep s4 (mkcache (writes (commit_writes (log_start s) d ks val) d) ∅)) by exact R4.
  destruct (lrep_leave s4 _ (bc_hart (l_bc s3)) (log_lock s3) R4' Hg3) as [R5 _].
  eexists. split; [done|]. split; [exact R5|]. split; [exact H3|]. cbn. rewrite F3. cbn. done.
Qed.

(** C20: a transaction is atomic.  When the last system call of a transaction
    ends, [end_op] commits: it returns, and the home blocks of [ks] hold the new
    contents while every other block outside the log is as before.  If instead
    the machine stops after any number of the disk writes that [end_op] makes,
    and then stops again, any number of times, in the middle of the recovery at
    boot, then the next [initlog] that completes leaves either all the old
    contents or all the new contents, and an empty log. *)
Theorem log_atomic dev s d ks val :
  txn dev s d ks val → log_outstanding s = 1 → log_committing s = 0 →
  let start := log_start s in let size := log_size s in
  ∃ s', end_op s = Ok (tt, s') ∧ log_outstanding s' = 0 ∧ log_committing s' = 0 ∧ lh_n s' = 0 ∧
    (∀ k, home start size k → dread (bc_disk (l_bc s')) k = updated d ks val k) ∧
    ∀ dc d2 b, crash d (bc_disk (l_bc s')) dc → rtc (interrupted dev start size) dc d2 → bc_rep dev b (mkcache d2 ∅) →
      ∃ s2, initlog dev start size (log_bss b) = Ok (tt, s2) ∧
        hdr_n (dread (bc_disk (l_bc s2)) start) = 0 ∧ lh_n s2 = 0 ∧
        ((∀ k, home start size k → dread (bc_disk (l_bc s2)) k = dread d k) ∨
         (∀ k, home start size k → dread (bc_disk (l_bc s2)) k = updated d ks val k)).
Proof.
  intros Htx Hout Hcom start size. destruct (end_op_commits dev s d ks val Htx Hout Hcom) as (s' & E & R & Hh & Ho & Hc & Hdev).
  unfold lrep in R. rewrite Hdev in R. apply bc_disk_law in R. cbn [c_disk] in R.
  destruct Htx as [_ Hpl _ Hheads Hne Hnd Hhome Hfit Hnb [Hl0 Hn0] _]. fold start size in R, Hpl, Hhome, Hfit, Hl0, Hn0.
  pose proof (heads_le _ _ Hheads) as HnL.
  assert (HnL' : Z.of_nat (length ks) ≤ LOGSIZE) by (unfold LOGSIZE, MAXOPBLOCKS in *; lia).
  exists s'. split_and!; [done|done|done|apply Hh| |]; rewrite R.
  - intros k Hk. by apply (commit_final start size Hpl).
  - intros dc d2 b Hcr Hint Hb. apply crash_take in Hcr as [m ->].
    destruct (commit_prefix start size Hpl d ks val m Hl0 Hn0 Hnd HnL' Hfit Hhome) as [Hwf Hrec].
    destruct (interrupted_ok dev start size _ _ Hpl Hwf Hint) as [Hwf2 Hrec2].
    destruct (initlog_ok dev start size b d2 Hpl Hwf2 Hb) as (s2 & E2 & R2 & Hn2 & Hd2).
    unfold lrep in R2. rewrite Hd2 in R2. apply bc_disk_law in R2. cbn [c_disk] in R2.
    exists s2. rewrite R2. destruct (recover_prefix start size Hpl d2 (Datatypes.S (length (header start d2))) Hwf2) as (_ & _ & Hfin).
    rewrite take_ge in Hfin by (unfold recover_writes, recover_installs; rewrite length_app, length_imap; simpl; lia).
    destruct (Hfin ltac:(lia)) as (_ & Hz & Hk). split_and!; [done|done|done|].
    destruct (decide (m ≤ length ks)%nat) as [Hm|Hm]; [left|right]; intros k Hhk; rewrite Hk, Hrec2, Hrec by done; done.
Qed.
End crash.

(** ** An example: block 40 changes, the crash comes after two writes *)

Definition zero_block : list Z := replicate (Z.to_nat BSIZE) 0.
Definition ones_block : list Z := replicate (Z.to_nat BSIZE) 1.
Definition demo_ldisk : disk := mkdisk (λ _, zero_block) [].

Lemma demo_cached : ∃ b, bio_rep 1 b (mkcache demo_ldisk {[40 := mkcbuf ones_block 1 None]}).
Proof.
  assert (R0 := booted_rep [] demo_ldisk 5 1 ltac:(done)).
  destruct (bread_fresh (C := bio_cache) 1 40 _ _ R0) as (h & b1 & _ & R1 & _); [done|vm_compute; lia|].
  destruct (bstore_entry (C := bio_cache) 1 40 h _ _ _ 1 ones_block R1 ltac:(cbn; by rewrite lookup_insert_eq)) as (b2 & _ & R2 & _).
  destruct (bpin_entry (C := bio_cache) 1 40 h _ _ ones_block 1 R2 ltac:(cbn; by rewrite lookup_insert_eq)) as (b3 & _ & R3 & _); [done|].
  destruct (brelse_entry (C := bio_cache) 1 40 h _ _ ones_block 2 R3 ltac:(cbn; by rewrite lookup_insert_eq) ltac:(lia)) as (b4 & _ & R4 & _).
  exists b4. refine (eq_ind _ (λ x, bio_rep 1 b4 x) R4 _ _). unfold c_put. cbn. f_equal.
Qed.

Definition demo_log (b : bst) : lst bst :=
  mklst b (initlock "log") 2 30 1 0 1 1 (40 :: replicate 29 0) 0.

Lemma demo_txn b :
  bio_rep 1 b (mkcache demo_ldisk {[40 := mkcbuf ones_block 1 None]}) → txn 1 (demo_log b) demo_ldisk [40] (λ _, ones_block).
Proof.
  intros Hb. constructor; try done.
  - eexists. split; [exact Hb|]. intros k. destruct (decide (k = 40)) as [->|Hne].
    + rewrite decide_True by set_solver. apply lookup_singleton_eq.
    + rewrite decide_False by set_solver. by apply lookup_singleton_ne.
  - apply NoDup_singleton.
  - intros k ->%list_elem_of_singleton. unfold home. simpl. lia.
  - cbn. unfold NBUF. lia.
Qed.

Lemma log_atomic_witness :
  ∃ b s' s2 dc, txn 1 (demo_log b) demo_ldisk [40] (λ _, ones_block) ∧
    end_op (demo_log b) = Ok (tt, s') ∧ dread (bdisk (l_bc s')) 40 = ones_block ∧
    crash demo_ldisk (bdisk (l_bc s')) dc ∧ length (d_writes dc) = 2%nat ∧
    initlog 1 2 30 (log_bss (booted [] dc 5)) = Ok (tt, s2) ∧
    (dread (bdisk (l_bc s2)) 40 = zero_block ∨ dread (bdisk (l_bc s2)) 40 = ones_block).
Proof.
  destruct demo_cached as [b Hb]. pose proof (demo_txn b Hb) as Htx.
  destruct (log_atomic 1 (demo_log b) demo_ldisk [40] (λ _, ones_block) Htx eq_refl eq_refl) as (s' & E & _ & _ & _ & Hnew & Hcrash).
  destruct (end_op_commits 1 (demo_log b) demo_ldisk [40] (λ _, ones_block) Htx eq_refl eq_refl) as (s1 & E1 & R1 & _ & _ & _ & Hd1).
  rewrite E in E1. injection E1 as <-. unfold lrep in R1. rewrite Hd1 in R1. apply bc_disk_law in R1. cbn [c_disk bc_disk bio_cache] in R1.
  set (W := commit_writes 2 demo_ldisk [40] (λ _, ones_block)). set (dc := writes (take 2 W) demo_ldisk).
  assert (Hdc : crash demo_ldisk (bdisk (l_bc s')) dc) by (rewrite R1; apply take_crash).
  assert (H40 : home 2 30 40) by (unfold home; lia).
  destruct (Hcrash dc dc (booted [] dc 5) Hdc) as (s2 & E2 & _ & _ & Hor); [apply rtc_refl|apply booted_rep; discriminate|].
  exists b, s', s2, dc. split; [exact Htx|]. split; [exact E|]. split; [exact (Hnew 40 H40)|]. split; [exact Hdc|].
  split; [reflexivity|]. split; [exact E2|].
  destruct Hor as [Ho|Hn]; [left; exact (Ho 40 H40)|right; exact (Hn 40 H40)].
Defined.
