(* ===== verification/LogCap.v ===== *)
(** * Log space

    System calls that overlap share one transaction.  [begin_op] admits a call
    only if the log has room for [MAXOPBLOCKS] more blocks per call;
    [log_capacity] shows that this keeps [log_write] from running out of log,
    provided the log has more than [LOGSIZE] blocks.  The file systems that
    mkfs makes have exactly [LOGSIZE], and there it can run out
    ([log_overflow]). *)
From S2P Require Import Prelude Spinlock Sleeplock BufCache Bio BioSpec Log LogRun LogClaims Crash.

Create HintDb keeps.

Section cap.
Context {S : Type} `{C : !BufCache S}.
Abbreviation L := (lst S).
Implicit Types (s : L).

(** The counters. *)
Definition counters s : Z * Z * Z * Z := (log_size s, log_outstanding s, log_committing s, lh_n s).
(** Code that leaves them alone. *)
Definition keeps {A} (m : M L A) : Prop := ∀ s a s', m s = Ok (a, s') → counters s' = counters s.

(** Split equations between counters. *)
Ltac split_counters :=
  repeat match goal with
  | H : counters _ = counters _ |- _ => unfold counters in H; injection H as ? ? ? ?
  end; simpl in *.

Lemma keeps_ret {A} (a : A) : keeps (mret a).
Proof. intros s b s' [= _ <-]. done. Qed.
Lemma keeps_bind {A B} (m : M L A) (f : A → M L B) : keeps m → (∀ a, keeps (f a)) → keeps (m ≫= f).
Proof.
  intros Hm Hf s b s' E. unfold mbind, M_bind in E. destruct (m s) as [[a s1]| | |] eqn:E1; try done.
  rewrite <-(Hm _ _ _ E1). by apply (Hf _ _ _ _ E).
Qed.
Lemma keeps_gets {A} (f : L → A) : keeps (gets f).
Proof. intros s b s' [= _ <-]. done. Qed.
Lemma keeps_inbc {A} (m : M S A) : keeps (inbc m).
Proof. intros s b s' E. unfold inbc in E. destruct (m (l_bc s)) as [[a b1]| | |]; try done. by injection E as _ <-. Qed.
Lemma keeps_lh_get i : keeps (lh_get i).
Proof. intros s b s' E. unfold lh_get in E. destruct (zidx _ _); try done. by injection E as _ <-. Qed.
Lemma keeps_lh_set i v : keeps (lh_set i v).
Proof. intros s b s' E. unfold lh_set in E. destruct (zupd _ _ _); try done. by injection E as _ <-. Qed.
Lemma keeps_forM {A} (l : list A) (f : A → M L unit) : (∀ x, keeps (f x)) → keeps (forM l f).
Proof. intros Hf. induction l as [|x l IH]; [apply keeps_ret|]. apply keeps_bind; [apply Hf|done]. Qed.
Lemma lkeeps_acquire : keeps (acquireM tt).
Proof.
  intros s b s' E. unfold acquireM in E. cbn in E. destruct (acquire _ _) as [[lk h]| | |]; try done.
  by injection E as _ <-.
Qed.
Lemma lkeeps_release : keeps (releaseM tt).
Proof.
  intros s b s' E. unfold releaseM in E. cbn in E. destruct (release _ _) as [[lk h]| | |]; try done.
  by injection E as _ <-.
Qed.
Lemma lkeeps_wakeup : keeps wakeup_log.
Proof. intros s b s' [= _ <-]. done. Qed.

#[local] Hint Resolve keeps_ret keeps_bind keeps_gets keeps_inbc keeps_lh_get keeps_lh_set keeps_forM lkeeps_acquire lkeeps_release lkeeps_wakeup : keeps.

Lemma keeps_write_log : keeps write_log.
Proof. unfold write_log, write_one. eauto 20 with keeps. Qed.
Lemma keeps_install r : keeps (install_trans r).
Proof. unfold install_trans, install_one. apply keeps_bind; [apply keeps_gets|]. intros n. apply keeps_forM. intros i.
  repeat (apply keeps_bind; [eauto with keeps|intros ?]); [|eauto with keeps]. case_bool_decide; eauto with keeps. Qed.
Lemma keeps_write_head : keeps write_head.
Proof. unfold write_head, hb_store. eauto 20 with keeps. Qed.

Lemma bind_Ok_inv {A B} (m : M L A) (f : A → M L B) s b s' :
  (m ≫= f) s = Ok (b, s') → ∃ a s1, m s = Ok (a, s1) ∧ f a s1 = Ok (b, s').
Proof. unfold mbind, M_bind. destruct (m s) as [[a s1]| | |]; try done. intros E. by exists a, s1. Qed.

Lemma commit_counters s s' :
  0 ≤ lh_n s → commit s = Ok (tt, s') →
  log_size s' = log_size s ∧ log_outstanding s' = log_outstanding s ∧ log_committing s' = log_committing s ∧ lh_n s' = 0.
Proof.
  intros Hn E. unfold commit in E. rewrite gets_bind in E. case_bool_decide as H0.
  - apply bind_Ok_inv in E as ([] & s1 & E1 & E). apply bind_Ok_inv in E as ([] & s2 & E2 & E).
    apply bind_Ok_inv in E as ([] & s3 & E3 & E). rewrite modify_bind in E.
    apply keeps_write_log in E1. apply keeps_write_head in E2, E. apply keeps_install in E3. split_counters.
    split_and!; congruence.
  - injection E as <-. split_and!; try done. lia.
Qed.

Lemma absorb_keeps k i b : keeps (absorb k i b).
Proof.
  revert i. induction k as [|k IH]; intros i; [apply keeps_ret|]. cbn [absorb].
  apply keeps_bind; [apply keeps_lh_get|]. intros x. case_bool_decide; [apply keeps_ret|apply IH].
Qed.

Lemma log_write_counters h s s' :
  log_write h s = Ok (tt, s') →
  log_size s' = log_size s ∧ log_outstanding s' = log_outstanding s ∧ log_committing s' = log_committing s ∧
  (lh_n s' = lh_n s ∨ lh_n s' = lh_n s + 1).
Proof.
  intros E. unfold log_write in E. apply bind_Ok_inv in E as ([] & s1 & E1 & E). rewrite !gets_bind in E.
  apply lkeeps_acquire in E1. destruct (_ || _); [done|]. case_bool_decide; [done|].
  apply bind_Ok_inv in E as (k & s2 & E2 & E). apply bind_Ok_inv in E as (i & s3 & E3 & E).
  apply bind_Ok_inv in E as ([] & s4 & E4 & E). apply bind_Ok_inv in E as ([] & s5 & E5 & E).
  apply keeps_inbc in E2. apply absorb_keeps in E3. apply keeps_lh_set in E4. apply lkeeps_release in E.
  split_counters. case_bool_decide.
  - apply bind_Ok_inv in E5 as ([] & s6 & E6 & E5). apply keeps_inbc in E6. split_counters.
    injection E5 as <-. simpl in *. split_and!; try congruence. right. congruence.
  - injection E5 as <-. split_and!; try congruence. left. congruence.
Qed.

(** A full log. *)
Lemma log_write_full h s :
  lock_quiet (log_lock s) → LOGSIZE ≤ lh_n s ∨ log_size s - 1 ≤ lh_n s → log_write h s = Panic "too big a transaction".
Proof.
  intros Hlk Hfull. unfold log_write. rewrite (bind_Ok_eq _ _ _ _ _ (lock_log_ok s Hlk)), !gets_bind.
  cbn [lh_n log_size enter with_bc with_lock].
  assert (E : bool_decide (lh_n s >= LOGSIZE) || bool_decide (lh_n s >= log_size s - 1) = true).
  { apply orb_true_iff. rewrite !bool_decide_eq_true. lia. }
  by rewrite E.
Qed.

(** ** Overlapping system calls

    The calls in progress, with the number of times each has called
    [log_write]. *)
Record sys := mksys { y_log : L; y_calls : list Z }.

Inductive sstep : sys → sys → Prop :=
  (** the cache is used *)
  | ss_cache s calls b : sstep (mksys s calls) (mksys (with_bc b s) calls)
  (** a pass of [begin_op]; a call that is not admitted sleeps *)
  | ss_begin s calls s1 s2 s3 :
      acquireM tt s = Ok (tt, s1) → begin_round s1 = Ok (true, s2) → releaseM tt s2 = Ok (tt, s3) →
      sstep (mksys s calls) (mksys s3 (0 :: calls))
  | ss_wait s calls s1 s2 s3 :
      acquireM tt s = Ok (tt, s1) → begin_round s1 = Ok (false, s2) → releaseM tt s2 = Ok (tt, s3) →
      sstep (mksys s calls) (mksys s3 calls)
  (** a call keeps to its share of the log *)
  | ss_write s c1 w c2 h s' :
      w < MAXOPBLOCKS → log_write h s = Ok (tt, s') →
      sstep (mksys s (c1 ++ w :: c2)) (mksys s' (c1 ++ (w + 1) :: c2))
  | ss_end s c1 w c2 s' :
      end_op s = Ok (tt, s') → sstep (mksys s (c1 ++ w :: c2)) (mksys s' (c1 ++ c2)).

(** Blocks that the calls in progress may still add. *)
Definition reserved (calls : list Z) : Z := foldr (λ w n, (MAXOPBLOCKS - w) + n) 0 calls.

Definition cap_inv (x : sys) : Prop :=
  let s := y_log x in
  0 ≤ lh_n s ∧ lh_n s + reserved (y_calls x) ≤ LOGSIZE ∧ log_outstanding s = Z.of_nat (length (y_calls x)) ∧
  Z.of_nat (length (y_calls x)) ≤ 3 ∧ log_committing s = 0 ∧ Forall (λ w, 0 ≤ w ≤ MAXOPBLOCKS) (y_calls x).

Lemma reserved_app c1 c2 : reserved (c1 ++ c2) = reserved c1 + reserved c2.
Proof. unfold reserved. induction c1 as [|w c1 IH]; simpl; [done|]. rewrite IH. lia. Qed.
Lemma reserved_nonneg c : Forall (λ w, 0 ≤ w ≤ MAXOPBLOCKS) c → 0 ≤ reserved c ≤ MAXOPBLOCKS * Z.of_nat (length c).
Proof. unfold MAXOPBLOCKS. induction 1; simpl; unfold MAXOPBLOCKS in *; lia. Qed.

Lemma end_op_counters s s' :
  0 ≤ lh_n s → log_committing s = 0 → end_op s = Ok (tt, s') →
  log_size s' = log_size s ∧ log_outstanding s' = log_outstanding s - 1 ∧ log_committing s' = 0 ∧
  lh_n s' = if decide (log_outstanding s = 1) then 0 else lh_n s.
Proof.
  intros Hn Hc E. unfold end_op in E. apply bind_Ok_inv in E as ([] & s1 & E1 & E). apply lkeeps_acquire in E1.
  apply bind_Ok_inv in E as (go & s2 & E2 & E). apply bind_Ok_inv in E as ([] & s3 & E3 & E). apply lkeeps_release in E3.
  split_counters. unfold end_round in E2. rewrite gets_bind, modify_bind, gets_bind in E2. cbn [log_committing with_outstanding] in E2.
  case_bool_decide as Hcom; [done|]. rewrite gets_bind in E2. cbn [log_outstanding with_outstanding] in E2.
  case_bool_decide as Hz.
  - rewrite modify_bind in E2. injection E2 as <- <-. simpl in *. apply bind_Ok_inv in E as ([] & s4 & E4 & E).
    apply commit_counters in E4 as (K1 & K2 & K3 & K4); [|congruence]. apply bind_Ok_inv in E as ([] & s5 & E5 & E).
    apply lkeeps_acquire in E5. rewrite modify_bind in E. apply bind_Ok_inv in E as ([] & s6 & E6 & E). apply lkeeps_wakeup in E6. apply lkeeps_release in E.
    split_counters. rewrite decide_True by lia. split_and!; congruence.
  - unfold wakeup_log in E2. rewrite modify_bind in E2. injection E2 as <- <-. simpl in *. injection E as <-.
    rewrite decide_False by lia. split_and!; congruence.
Qed.

Lemma cap_step x y : cap_inv x → sstep x y → cap_inv y.
Proof.
  intros (Hn & Hr & Ho & Hlen & Hc & Hf) Hs. destruct Hs as [s calls b|s calls s1 s2 s3 E1 E2 E3|s calls s1 s2 s3 E1 E2 E3|s c1 w c2 h s' Hw E|s c1 w c2 s' E];
    unfold cap_inv in *; simpl in *.
  - done.
  - apply lkeeps_acquire in E1. apply lkeeps_release in E3. split_counters.
    unfold begin_round in E2. rewrite !gets_bind in E2. case_bool_decide; [done|]. case_bool_decide as Hfull; [done|].
    rewrite modify_bind in E2. injection E2 as <-. simpl in *.
    pose proof (reserved_nonneg _ Hf) as Hres. unfold LOGSIZE, MAXOPBLOCKS in *.
    rewrite i32_small in Hfull by lia.
    split_and!; try lia. constructor; [lia|done].
  - apply lkeeps_acquire in E1. apply lkeeps_release in E3. split_counters.
    unfold begin_round in E2. rewrite !gets_bind in E2. case_bool_decide; [injection E2 as <-; split_and!; try done; congruence|].
    case_bool_decide; [injection E2 as <-; split_and!; try done; congruence|done].
  - apply log_write_counters in E as (K1 & K2 & K3 & K4). rewrite reserved_app in *. simpl in *. rewrite length_app in *. simpl in *.
    apply Forall_app in Hf as [Hf1 Hf2]. apply Forall_cons in Hf2 as [Hw' Hf2].
    split_and!; try lia. apply Forall_app. split; [done|]. constructor; [lia|done].
  - apply end_op_counters in E as (K1 & K2 & K3 & K4); [|done|done]. rewrite reserved_app in *. simpl in *. rewrite length_app in *. simpl in *.
    apply Forall_app in Hf as [Hf1 Hf2]. apply Forall_cons in Hf2 as [Hw' Hf2].
    case_decide as H1.
    + assert (c1 = [] ∧ c2 = []) as [-> ->] by (split; apply length_zero_iff_nil; lia). simpl.
      unfold LOGSIZE, MAXOPBLOCKS in *. split_and!; try lia. constructor.
    + split_and!; try lia. by apply Forall_app.
Qed.

Lemma cap_reach s x : lh_n s = 0 → log_outstanding s = 0 → log_committing s = 0 → rtc sstep (mksys s []) x → cap_inv x ∧ log_size (y_log x) = log_size s.
Proof.
  intros Hn Ho Hc H.
  assert (H0 : cap_inv (mksys s [])) by (unfold cap_inv; simpl; rewrite Hn, Ho, Hc; unfold LOGSIZE, MAXOPBLOCKS; split_and!; try lia; constructor).
  change (log_size s) with (log_size (y_log (mksys s []))). clear Hn Ho Hc. revert H0.
  induction H as [|x y z Hs _ IH]; [done|]. intros Hx. destruct (IH (cap_step _ _ Hx Hs)) as [H1 H2]. split; [done|].
  rewrite H2. destruct Hx as (Hn & _ & _ & _ & Hc & _). destruct Hs as [s1 calls b|s1 calls s2 s3 s4 E1 E2 E3|s1 calls s2 s3 s4 E1 E2 E3|s1 c1 w c2 h s' Hw E|s1 c1 w c2 s' E]; simpl in *.
  - done.
  - apply lkeeps_acquire in E1. apply lkeeps_release in E3. split_counters. unfold begin_round in E2. rewrite !gets_bind in E2.
    repeat (case_bool_decide; [done|]). rewrite modify_bind in E2. injection E2 as <-. simpl in *. congruence.
  - apply lkeeps_acquire in E1. apply lkeeps_release in E3. split_counters. unfold begin_round in E2. rewrite !gets_bind in E2.
    repeat (case_bool_decide; [injection E2 as <-; congruence|]). done.
  - by apply log_write_counters in E as (? & _).
  - by apply end_op_counters in E as (? & _).
Qed.

(** C23: the log has room for every write that the protocol allows.  From an
    empty log of more than [LOGSIZE] blocks, however any number of overlapping
    system calls begin (when [begin_op] admits them), call [log_write] and end:
    a call in progress that has written fewer than [MAXOPBLOCKS] blocks finds a
    log that is not full and an open transaction, so neither panic of
    [log_write] can occur; and never more than 3 calls are in progress. *)
Theorem log_capacity s x w :
  lh_n s = 0 → log_outstanding s = 0 → log_committing s = 0 → LOGSIZE < log_size s →
  rtc sstep (mksys s []) x → w ∈ y_calls x → w < MAXOPBLOCKS →
  lh_n (y_log x) < LOGSIZE ∧ lh_n (y_log x) < log_size (y_log x) - 1 ∧ 1 ≤ log_outstanding (y_log x) ≤ 3.
Proof.
  intros Hn Ho Hc Hsz H Hw Hlt. destruct (cap_reach s x Hn Ho Hc H) as [(Hn' & Hr & Ho' & Hl & _ & Hf) Hs].
  apply list_elem_of_split in Hw as (c1 & c2 & E). rewrite E in Hr, Ho', Hl, Hf. rewrite reserved_app in Hr. simpl in Hr.
  rewrite length_app in Ho', Hl. simpl in Ho', Hl. apply Forall_app in Hf as [Hf1 Hf2]. apply Forall_cons in Hf2 as [_ Hf2].
  apply reserved_nonneg in Hf1, Hf2. rewrite Hs. lia.
Qed.

(** Whole calls of the code as steps. *)
Lemma begin_op_step s s' calls : begin_op s = Ok (tt, s') → sstep (mksys s calls) (mksys s' (0 :: calls)).
Proof.
  intros E. unfold begin_op in E. apply bind_Ok_inv in E as ([] & s1 & E1 & E). apply bind_Ok_inv in E as (go & s2 & E2 & E).
  destruct go; [|done]. by eapply ss_begin.
Qed.

(** A call that writes the blocks [ks]. *)
Definition write_blocks (dev : Z) (ks : list Z) : M L unit :=
  forM ks (λ k, h ← inbc (BufCache.bread dev k); log_write h ;; inbc (BufCache.brelse h)).

Lemma inbc_step {A} (m : M S A) s a s' calls : inbc m s = Ok (a, s') → sstep (mksys s calls) (mksys s' calls).
Proof. unfold inbc. destruct (m (l_bc s)) as [[x b]| | |]; try done. intros [= _ <-]. apply ss_cache. Qed.

Lemma write_blocks_steps dev ks s s' c1 w c2 :
  write_blocks dev ks s = Ok (tt, s') → w + Z.of_nat (length ks) ≤ MAXOPBLOCKS →
  rtc sstep (mksys s (c1 ++ w :: c2)) (mksys s' (c1 ++ (w + Z.of_nat (length ks)) :: c2)).
Proof.
  revert s w. induction ks as [|k ks IH]; intros s w E Hw.
  - injection E as <-. rewrite Z.add_0_r. apply rtc_refl.
  - unfold write_blocks in E. cbn [forM] in E. apply bind_Ok_inv in E as ([] & s3 & E3 & E).
    apply bind_Ok_inv in E3 as (h & s1 & E1 & E3). apply bind_Ok_inv in E3 as ([] & s2 & E2 & E3). cbn [length] in Hw |- *.
    eapply rtc_l; [eapply inbc_step, E1|]. eapply rtc_l; [eapply ss_write; [lia|exact E2]|].
    eapply rtc_l; [eapply inbc_step, E3|].
    replace (w + Z.of_nat (Datatypes.S (length ks))) with (w + 1 + Z.of_nat (length ks)) by lia.
    apply IH; [exact E|lia].
Qed.
End cap.

(** ** A log as mkfs makes it *)

(** An empty log of [size] blocks behind the superblock, no call in progress. *)
Definition fresh_log (size : Z) : lst bst :=
  mklst (booted [] (mkdisk (λ _, []) []) 5) (initlock "log") 2 size 0 0 1 0 (replicate (Z.to_nat LOGSIZE) 0) 0.

Lemma log_capacity_witness :
  ∃ x, rtc sstep (mksys (fresh_log 31) []) x ∧ y_calls x = [0] ∧ lh_n (y_log x) < LOGSIZE ∧ log_outstanding (y_log x) = 1.
Proof.
  assert (E : ∃ s, begin_op (fresh_log 31) = Ok (tt, s) ∧ log_outstanding s = 1) by (eexists; split; vm_compute; reflexivity).
  destruct E as (s & E & Ho). exists (mksys s [0]).
  assert (R : rtc sstep (mksys (fresh_log 31) []) (mksys s [0])) by (apply rtc_once, begin_op_step, E).
  destruct (log_capacity (fresh_log 31) (mksys s [0]) 0 eq_refl eq_refl eq_refl eq_refl R ltac:(left) eq_refl) as (H & _).
  split; [exact R|]. split; [reflexivity|]. split; [exact H|exact Ho].
Defined.

(** Three calls, two of which write ten blocks and one nine. *)
Abbreviation three_calls :=
  (begin_op ;; begin_op ;; begin_op ;;
   write_blocks 1 (seqZ 100 10) ;; write_blocks 1 (seqZ 200 10) ;; write_blocks 1 (seqZ 300 9)).
Definition after_calls : lst bst :=
  match three_calls (fresh_log LOGSIZE) with Ok (_, s) => s | _ => fresh_log LOGSIZE end.

Lemma three_calls_run : three_calls (fresh_log LOGSIZE) = Ok (tt, after_calls).
Proof. vm_compute. reflexivity. Qed.

Lemma after_calls_full : lh_n after_calls = 29 ∧ log_size after_calls = 30 ∧ lock_quiet (log_lock after_calls).
Proof. split; [vm_compute; reflexivity|]. split; [vm_compute; reflexivity|]. vm_compute. reflexivity. Qed.
Opaque after_calls.

Lemma three_calls_steps : rtc sstep (mksys (fresh_log LOGSIZE) []) (mksys after_calls [9; 10; 10]).
Proof.
  pose proof three_calls_run as E.
  apply bind_Ok_inv in E as ([] & s1 & E1 & E). apply bind_Ok_inv in E as ([] & s2 & E2 & E).
  apply bind_Ok_inv in E as ([] & s3 & E3 & E). apply bind_Ok_inv in E as ([] & s4 & E4 & E).
  apply bind_Ok_inv in E as ([] & s5 & E5 & E).
  eapply rtc_l; [eapply begin_op_step, E1|]. eapply rtc_l; [eapply begin_op_step, E2|]. eapply rtc_l; [eapply begin_op_step, E3|].
  etrans; [apply (write_blocks_steps 1 _ s3 s4 [0; 0] 0 [] E4); done|].
  etrans; [apply (write_blocks_steps 1 _ s4 s5 [0] 0 [10] E5); done|].
  apply (write_blocks_steps 1 _ s5 after_calls [] 0 [10; 10] E). done.
Qed.

(** C26: on a file system made by mkfs the log can run out.  Its log has
    [LOGSIZE] blocks, one of them the header, so 29 data blocks, while
    [begin_op] admits three calls of ten blocks each: with three calls in
    progress that have written 10, 10 and 9 different blocks, the tenth block
    of the third call makes [log_write] panic. *)
Theorem log_overflow :
  ∃ x, rtc sstep (mksys (fresh_log LOGSIZE) []) x ∧ y_calls x = [9; 10; 10] ∧
    ∀ b, log_write b (y_log x) = Panic "too big a transaction".
Proof.
  exists (mksys after_calls [9; 10; 10]). split; [exact three_calls_steps|]. split; [reflexivity|].
  intros b. cbn [y_log]. destruct after_calls_full as (Hn & Hs & Hl). apply log_write_full; [exact Hl|].
  right. by rewrite Hn, Hs.
Qed.
