(* ===== verification/LogWrite.v ===== *)
(** * A system call inside a transaction

    [log_write] on every branch, and the whole pattern of a system call:
    [begin_op], then for each block [bread], a change, [log_write] and
    [brelse].  What it leaves is what Crash.v starts from. *)
From S2P Require Import Prelude Spinlock Sleeplock BufCache Bio BioSpec Log LogRun LogClaims Crash LogCap.

Section call.
Context {S : Type} `{C : !BufCache S} `{!BufCacheLaws S}.
Abbreviation L := (lst S).
Implicit Types (s : L).

(** The header lists block numbers. *)
Definition blocks_ok (ks : list Z) : Prop := ∀ k, k ∈ ks → 0 ≤ k < 2 ^ 31.

Lemma absorb_ok s ks k i m :
  heads s ks → blocks_ok ks → (i + m = length ks)%nat → (∀ j x, (j < i)%nat → ks !! j = Some x → x ≠ k) →
  ∃ j, absorb m (Z.of_nat i) k s = Ok (Z.of_nat j, s) ∧
    if decide (k ∈ ks) then ks !! j = Some k else j = length ks.
Proof.
  intros Hh Hb. revert i. induction m as [|m IH]; intros i Hi Hno; cbn [absorb].
  - exists i. split; [done|]. rewrite decide_False; [lia|]. intros [j Hj]%list_elem_of_lookup_1.
    pose proof (lookup_lt_Some _ _ _ Hj). eapply Hno; [|exact Hj|done]. lia.
  - destruct (lookup_lt_is_Some_2 ks i) as [x Hx]; [lia|].
    rewrite (lh_get_bind _ _ _ x) by (by eapply heads_get).
    assert (Hxr : 0 ≤ x < 2 ^ 31) by (apply Hb; eapply list_elem_of_lookup_2, Hx).
    rewrite u32_small by lia. case_bool_decide as Hk.
    + subst x. exists i. split; [done|]. rewrite decide_True; [done|]. eapply list_elem_of_lookup_2, Hx.
    + replace (Z.of_nat i + 1) with (Z.of_nat (Datatypes.S i)) by lia. apply IH; [lia|]. intros j y Hj Hy.
      destruct (decide (j = i)) as [->|]; [congruence|]. apply (Hno j y); [lia|done].
Qed.

Lemma heads_snoc s ks k :
  heads s ks → (length ks < Z.to_nat LOGSIZE)%nat →
  heads (with_n (lh_n s + 1) (with_block (<[length ks := k]> (lh_block s)) s)) (ks ++ [k]).
Proof.
  intros (Hn & Ht & Hl) Hlt. split; [|split]; cbn.
  - rewrite Hn, length_app. simpl. lia.
  - rewrite length_app. simpl. replace (length ks + 1)%nat with (Datatypes.S (length ks)) by lia.
    rewrite (take_S_r _ _ k) by (apply list_lookup_insert_eq; lia). by rewrite take_insert_ge, Ht by done.
  - by rewrite length_insert.
Qed.

Lemma heads_absorb s ks k j :
  heads s ks → ks !! j = Some k → heads (with_block (<[j := k]> (lh_block s)) s) ks.
Proof.
  intros Hh Hj. pose proof (heads_get _ _ _ _ Hh Hj) as Hz. apply zidx_Some in Hz as [_ Hz]. rewrite Nat2Z.id in Hz.
  rewrite list_insert_id by done. by destruct s.
Qed.

Lemma log_write_run s c ks k h v r :
  lrep s c → heads s ks → blocks_ok ks → 0 ≤ k < 2 ^ 31 → lock_quiet (log_lock s) → 1 ≤ log_outstanding s →
  Z.of_nat (length ks) < LOGSIZE → Z.of_nat (length ks) < log_size s - 1 →
  c_bufs c !! k = Some (mkcbuf v r (Some h)) → ref_ok r →
  let ks' := if decide (k ∈ ks) then ks else ks ++ [k] in
  ∃ s', log_write h s = Ok (tt, s') ∧ heads s' ks' ∧
    lrep s' (if decide (k ∈ ks) then c else c_put k (mkcbuf v (Datatypes.S r) (Some h)) c) ∧
    lock_quiet (log_lock s') ∧ log_outstanding s' = log_outstanding s ∧ log_committing s' = log_committing s ∧
    log_start s' = log_start s ∧ log_size s' = log_size s ∧ log_dev s' = log_dev s ∧
    bc_hart (l_bc s') = bc_hart (l_bc s).
Proof.
  intros Hrep Hh Hb Hk Hlk Hout Hn1 Hn2 Hc Href ks'. pose proof Hh as (Hn & Ht & Hl).
  assert (Hg : hart_good (bc_hart (l_bc s))) by (eapply bc_hart_good; exact Hrep).
  destruct (lrep_enter s c Hrep) as [R1 T1]. unfold log_write.
  rewrite (bind_Ok_eq _ _ _ _ _ (lock_log_ok s Hlk)), !gets_bind. cbn [lh_n log_size log_outstanding enter with_bc with_lock].
  rewrite !(bool_decide_false (_ >= _)) by lia. cbn [orb]. rewrite bool_decide_false by lia.
  fold (enter s). set (s1 := enter s) in *.
  erewrite inbc_bind by exact (blockno_entry _ k h _ _ v r R1 Hc). rewrite with_bc_self.
  assert (Hh1 : heads s1 ks) by exact Hh. rewrite Hn, Nat2Z.id.
  destruct (absorb_ok s1 ks k 0 (length ks) Hh1 Hb) as (j & E2 & Hj); [lia|intros; lia|].
  rewrite (bind_Ok_eq _ _ _ _ _ E2). rewrite i32_small by lia. pose proof (heads_le _ _ Hh) as Hle.
  unfold ks'. destruct (decide (k ∈ ks)) as [Hin|Hout'].
  - pose proof (lookup_lt_Some _ _ _ Hj) as Hjl.
    rewrite (bind_Ok_eq _ _ _ _ _ (lh_set_ok (Z.of_nat j) k s1 ltac:(cbn; rewrite Hl; lia))). rewrite Nat2Z.id.
    rewrite bool_decide_false by lia. unfold mbind at 1, M_bind at 1. unfold mret, M_ret.
    set (s2 := with_block _ s1).
    rewrite (unlock_log_ok s2 (bc_hart (l_bc s)) (log_lock s) Hlk Hg eq_refl (bc_hart_set _ _)).
    destruct (lrep_leave s2 c (bc_hart (l_bc s)) (log_lock s) R1 Hg) as [R2 T2].
    eexists. split; [done|]. split; [exact (heads_absorb s1 ks k j Hh1 Hj)|]. split; [exact R2|]. do 6 (split; [done|]). exact T2.
  - subst j.
    rewrite (bind_Ok_eq _ _ _ _ _ (lh_set_ok (Z.of_nat (length ks)) k s1 ltac:(cbn; rewrite Hl; lia))). rewrite Nat2Z.id.
    rewrite bool_decide_true by done. set (s2 := with_block _ s1).
    destruct (bpin_entry _ k h _ c v r R1 Hc Href) as (b3 & E3 & R3 & T3).
    unfold mbind at 1, M_bind at 1. erewrite inbc_bind by exact E3. unfold modify.
    set (s4 := with_n _ _).
    rewrite (unlock_log_ok s4 (bc_hart (l_bc s)) (log_lock s) Hlk Hg eq_refl ltac:(cbn; rewrite T3; apply bc_hart_set)).
    assert (R4 : lrep s4 (c_put k (mkcbuf v (Datatypes.S r) (Some h)) c)) by exact R3.
    destruct (lrep_leave s4 _ (bc_hart (l_bc s)) (log_lock s) R4 Hg) as [R5 T5].
    eexists. split; [done|]. split; [|split; [exact R5|do 6 (split; [done|]); exact T5]].
    unfold s4. rewrite <-Hn. apply (heads_snoc s1 ks k Hh1). lia.
Qed.

(** One change of a block by a system call. *)
Definition update_block (k : Z) (l : list Z) : M L unit :=
  dev ← gets log_dev;
  h ← inbc (BufCache.bread dev k);
  inbc (BufCache.bstore h l) ;;
  log_write h ;;
  inbc (BufCache.brelse h).
Definition update_blocks (ups : list (Z * list Z)) : M L unit := forM ups (λ u, update_block u.1 u.2).

(** The blocks changed, in the order of their first change, and their contents. *)
Definition add_block (k : Z) (ks : list Z) : list Z := if decide (k ∈ ks) then ks else ks ++ [k].
Definition changed (ups : list (Z * list Z)) : list Z := foldl (λ ks u, add_block u.1 ks) [] ups.
Definition value_of (d : disk) (ups : list (Z * list Z)) : Z → list Z := dread (writes ups d).

Lemma changed_snoc ups u : changed (ups ++ [u]) = add_block u.1 (changed ups).
Proof. unfold changed. by rewrite foldl_app. Qed.
Lemma length_changed ups : (length (changed ups) ≤ length ups)%nat.
Proof.
  induction ups as [|u ups IH] using rev_ind; [done|]. rewrite changed_snoc, length_app. unfold add_block.
  case_decide; rewrite ?length_app; simpl; lia.
Qed.
Lemma changed_elem ups k : k ∈ changed ups ↔ k ∈ ups.*1.
Proof.
  induction ups as [|u ups IH] using rev_ind; [done|]. rewrite changed_snoc, fmap_app. unfold add_block.
  case_decide; set_solver.
Qed.
Lemma changed_nodup ups : NoDup (changed ups).
Proof.
  induction ups as [|u ups IH] using rev_ind; [constructor|]. rewrite changed_snoc. unfold add_block. case_decide; [done|].
  apply NoDup_app. split; [done|]. split; [set_solver|apply NoDup_singleton].
Qed.

(** After some of the changes. *)
Record in_call (dev : Z) (d : disk) (ups : list (Z * list Z)) s : Prop := {
  ic_dev : log_dev s = dev;
  ic_rep : ∃ bufs, lrep s (mkcache d bufs) ∧ pins bufs (changed ups) (value_of d ups);
  ic_heads : heads s (changed ups);
  ic_lock : lock_quiet (log_lock s);
  ic_out : log_outstanding s = 1;
  ic_com : log_committing s = 0 }.

Lemma update_block_ok dev d ups s k l :
  in_call dev d ups s → blocks_ok (changed ups) → 0 ≤ k < 2 ^ 31 →
  Z.of_nat (length ups) < MAXOPBLOCKS → MAXOPBLOCKS < log_size s - 1 →
  ∃ s', update_block k l s = Ok (tt, s') ∧ in_call dev d (ups ++ [(k, l)]) s' ∧ log_start s' = log_start s ∧ log_size s' = log_size s.
Proof.
  intros [Hdev (bufs & Hrep & Hp) Hh Hlk Ho Hcm] Hb Hk Hlen Hsz.
  pose proof (length_changed ups) as Hlc. unfold MAXOPBLOCKS in *.
  assert (Hval : ∀ j, value_of d (ups ++ [(k, l)]) j = if decide (k = j) then l else value_of d ups j).
  { intros j. unfold value_of. by rewrite writes_snoc, dread_write. }
  unfold update_block. rewrite gets_bind, Hdev. unfold lrep in Hrep. rewrite Hdev in Hrep.
  (* the buffer, locked, with the new contents *)
  assert (Hread : ∃ h b2, (h ← inbc (BufCache.bread dev k); inbc (BufCache.bstore h l) ;; mret h) s = Ok (h, with_bc b2 s) ∧
    bc_rep dev b2 (c_put k (mkcbuf l (if decide (k ∈ changed ups) then 2 else 1) (Some h)) (mkcache d bufs))).
  { pose proof (Hp k) as Hpk. destruct (decide (k ∈ changed ups)) as [Hin|Hin].
    - destruct (bread_entry _ k _ _ _ 1 Hrep Hpk) as (h & b1 & E1 & R1 & _); [done|].
      destruct (bstore_entry _ k h _ _ _ 2 l R1 ltac:(cbn; by rewrite lookup_insert_eq)) as (b2 & E2 & R2 & _).
      exists h, b2. erewrite inbc_bind by exact E1. erewrite inbc_bind by exact E2. split; [done|]. by rewrite c_put_put in R2.
    - destruct (bread_fresh _ k _ _ Hrep Hpk) as (h & b1 & E1 & R1 & _).
      { cbn [c_bufs]. rewrite (pins_size bufs _ _ Hp (changed_nodup ups)). unfold NBUF. lia. }
      destruct (bstore_entry _ k h _ _ _ 1 l R1 ltac:(cbn; by rewrite lookup_insert_eq)) as (b2 & E2 & R2 & _).
      exists h, b2. erewrite inbc_bind by exact E1. erewrite inbc_bind by exact E2. split; [done|]. by rewrite c_put_put in R2. }
  destruct Hread as (h & b2 & E12 & R2). apply bind_Ok_inv in E12 as (h' & s1 & E1 & E12).
  apply bind_Ok_inv in E12 as ([] & s2 & E2 & E12). injection E12 as -> ->.
  rewrite (bind_Ok_eq _ _ _ _ _ E1), (bind_Ok_eq _ _ _ _ _ E2).
  set (s2 := with_bc b2 s). set (r := if decide (k ∈ changed ups) then 2%nat else 1%nat) in R2.
  assert (R2' : lrep s2 (c_put k (mkcbuf l r (Some h)) (mkcache d bufs))) by (unfold lrep; cbn; by rewrite Hdev).
  destruct (log_write_run s2 _ (changed ups) k h l r R2') as (s3 & E3 & Hh3 & R3 & Hlk3 & Ho3 & Hc3 & Hst3 & Hsz3 & Hd3 & _); try done.
  { cbn. lia. } { unfold LOGSIZE, MAXOPBLOCKS. lia. } { cbn. lia. } { cbn. by rewrite lookup_insert_eq. } { unfold r. by case_decide. }
  rewrite (bind_Ok_eq _ _ _ _ _ E3).
  assert (R3' : lrep s3 (c_put k (mkcbuf l 2 (Some h)) (mkcache d bufs))).
  { unfold r in R3. destruct (decide (k ∈ changed ups)); [done|]. by rewrite c_put_put in R3. }
  unfold lrep in R3'. destruct (brelse_entry _ k h _ _ l 2 R3' ltac:(cbn; by rewrite lookup_insert_eq) ltac:(lia)) as (b4 & E4 & R4 & _).
  rewrite c_put_put in R4. erewrite inbc_last by exact E4. eexists. split; [done|]. cbn [log_start log_size with_bc].
  split; [|done]. constructor; cbn; [by rewrite Hd3| | |exact Hlk3|by rewrite Ho3|by rewrite Hc3].
  - exists (<[k := mkcbuf l 1 None]> bufs). split; [exact R4|]. intros j. rewrite changed_snoc, Hval. cbn [fst].
    unfold add_block. destruct (decide (j = k)) as [->|Hne].
    + rewrite lookup_insert_eq, decide_True, (decide_True (P := k = k)) by (case_decide; set_solver). done.
    + rewrite lookup_insert_ne, Hp, (decide_False (P := k = j)) by done. repeat case_decide; set_solver.
  - by rewrite changed_snoc.
Qed.

Lemma update_blocks_ok dev d more ups s :
  in_call dev d ups s → (∀ u, u ∈ ups ++ more → home (log_start s) (log_size s) u.1) →
  Z.of_nat (length (ups ++ more)) ≤ MAXOPBLOCKS → MAXOPBLOCKS < log_size s - 1 →
  ∃ s', update_blocks more s = Ok (tt, s') ∧ in_call dev d (ups ++ more) s' ∧ log_start s' = log_start s ∧ log_size s' = log_size s.
Proof.
  revert ups s. induction more as [|[k l] more IH]; intros ups s Hc Hhome Hlen Hsz.
  - exists s. rewrite app_nil_r. done.
  - rewrite length_app in Hlen. simpl in Hlen.
    assert (Hb : blocks_ok (changed ups)).
    { intros j Hj%changed_elem%list_elem_of_fmap. destruct Hj as (u & -> & Hu).
      destruct (Hhome u) as [? _]; [set_solver|done]. }
    destruct (update_block_ok dev d ups s k l Hc Hb) as (s1 & E1 & Hc1 & Hst1 & Hsz1); [|lia|done|].
    { destruct (Hhome (k, l)) as [? _]; [set_solver|done]. }
    destruct (IH (ups ++ [(k, l)]) s1 Hc1) as (s2 & E2 & Hc2 & Hst2 & Hsz2).
    { rewrite <-app_assoc, Hst1, Hsz1. exact Hhome. } { rewrite !length_app. simpl. lia. } { lia. }
    exists s2. rewrite <-app_assoc in Hc2. split; [|split; [done|split; congruence]].
    unfold update_blocks. cbn [forM fst snd]. by rewrite (bind_Ok_eq _ _ _ _ _ E1).
Qed.

Lemma begin_op_ok s c :
  lrep s c → lock_quiet (log_lock s) → log_committing s = 0 → lh_n s = 0 → log_outstanding s = 0 →
  ∃ s', begin_op s = Ok (tt, s') ∧ lrep s' c ∧ lock_quiet (log_lock s') ∧ log_outstanding s' = 1 ∧ log_committing s' = 0 ∧
    lh_n s' = 0 ∧ lh_block s' = lh_block s ∧ log_start s' = log_start s ∧ log_size s' = log_size s ∧ log_dev s' = log_dev s.
Proof.
  intros Hrep Hlk Hc Hn Ho. assert (Hg : hart_good (bc_hart (l_bc s))) by (eapply bc_hart_good; exact Hrep).
  destruct (lrep_enter s c Hrep) as [R1 T1]. unfold begin_op. rewrite (bind_Ok_eq _ _ _ _ _ (lock_log_ok s Hlk)).
  unfold begin_round. unfold mbind at 1, M_bind at 1. rewrite !gets_bind. cbn [log_committing lh_n log_outstanding enter with_bc with_lock].
  rewrite Hc, Hn, Ho. rewrite bool_decide_false by tauto. rewrite bool_decide_false by (vm_compute; discriminate).
  rewrite modify_bind. unfold mret at 1, M_ret at 1. set (s2 := with_outstanding _ _).
  rewrite (unlock_log_ok s2 (bc_hart (l_bc s)) (log_lock s) Hlk Hg eq_refl (bc_hart_set _ _)).
  destruct (lrep_leave s2 c (bc_hart (l_bc s)) (log_lock s) R1 Hg) as [R2 _].
  eexists. split; [done|]. split; [exact R2|]. done.
Qed.

(** C22: a system call as a transaction.  From a log with nothing to do and an
    idle cache, a call that begins, changes up to ten blocks outside the log
    (some perhaps several times) through [log_write], and ends returns without
    panic or deadlock, for a log of more than 11 blocks; nothing reaches the
    disk before [end_op], and afterwards the disk holds, outside the log, the
    last contents written to each block and the old contents of the others, and
    the log is empty again. *)
Theorem system_call_transaction dev s d ups :
  lrep s (mkcache d ∅) → lock_quiet (log_lock s) → log_dev s = dev →
  log_committing s = 0 → lh_n s = 0 → log_outstanding s = 0 → length (lh_block s) = Z.to_nat LOGSIZE →
  log_place (log_start s) (log_size s) → MAXOPBLOCKS + 1 < log_size s →
  length (dread d (log_start s)) = Z.to_nat BSIZE → hdr_n (dread d (log_start s)) = 0 →
  Z.of_nat (length ups) ≤ MAXOPBLOCKS → ups ≠ [] → (∀ u, u ∈ ups → home (log_start s) (log_size s) u.1) →
  ∃ s1 s2, (begin_op ;; update_blocks ups) s = Ok (tt, s1) ∧ bc_disk (l_bc s1) = d ∧
    end_op s1 = Ok (tt, s2) ∧ lh_n s2 = 0 ∧ log_outstanding s2 = 0 ∧
    (∀ k, home (log_start s) (log_size s) k → dread (bc_disk (l_bc s2)) k = dread (writes ups d) k) ∧
    txn dev s1 d (changed ups) (value_of d ups).
Proof.
  intros Hrep Hlk Hdev Hc Hn Ho Hlen Hpl Hsz Hl0 Hn0 Hups Hne Hhome.
  destruct (begin_op_ok s _ Hrep Hlk Hc Hn Ho) as (s0 & E0 & R0 & Hlk0 & Ho0 & Hc0 & Hn0' & Hb0 & Hst0 & Hsz0 & Hd0).
  assert (Hic : in_call dev d [] s0).
  { constructor; try done; [congruence| |].
    - exists ∅. split; [done|]. intros k. rewrite lookup_empty, decide_False; [done|]. apply not_elem_of_nil.
    - split; [done|]. split; [done|]. by rewrite Hb0. }
  destruct (update_blocks_ok dev d ups [] s0 Hic) as (s1 & E1 & Hic1 & Hst1 & Hsz1); cbn [app].
  { by rewrite Hst0, Hsz0. } { done. } { lia. }
  cbn [app] in Hic1. destruct Hic1 as [Hd1 (bufs & R1 & Hp1) Hh1 Hlk1 Ho1 Hc1].
  assert (Hst : log_start s1 = log_start s) by congruence. assert (Hsize : log_size s1 = log_size s) by congruence.
  pose proof (length_changed ups) as Hlc.
  assert (Hhome' : ∀ k, k ∈ changed ups → home (log_start s) (log_size s) k).
  { intros k (u & -> & Hu)%changed_elem%list_elem_of_fmap. by apply Hhome. }
  assert (Htx : txn dev s1 d (changed ups) (value_of d ups)).
  { constructor; rewrite ?Hst, ?Hsize; try done.
    - by exists bufs.
    - intros E. destruct ups as [|u ups]; [done|]. assert (Hin : u.1 ∈ changed (u :: ups)) by (apply changed_elem; set_solver).
      rewrite E in Hin. set_solver.
    - apply changed_nodup.
    - lia.
    - unfold MAXOPBLOCKS in *. unfold NBUF. lia. }
  destruct (end_op_commits dev s1 d _ _ Htx Ho1 Hc1) as (s2 & E2 & R2 & Hh2 & Ho2 & Hc2 & Hd2).
  unfold lrep in R2. rewrite Hd2 in R2. apply bc_disk_law in R2. cbn [c_disk] in R2.
  exists s1, s2. split; [by rewrite (bind_Ok_eq _ _ _ _ _ E0)|]. split; [unfold lrep in R1; by apply bc_disk_law in R1|].
  split; [done|]. split; [apply Hh2|]. split; [done|]. split; [|done]. intros k Hk. rewrite R2, Hst.
  assert (HL : Z.of_nat (length (changed ups)) ≤ LOGSIZE) by (unfold LOGSIZE, MAXOPBLOCKS in *; lia).
  assert (HS : Z.of_nat (length (changed ups)) < log_size s) by lia.
  rewrite (commit_final (log_start s) (log_size s) Hpl d (changed ups) (value_of d ups) k Hl0 Hn0 (changed_nodup ups) HL HS Hhome' Hk).
  unfold updated. case_decide as Hin; [done|]. symmetry. apply writes_other. by rewrite <-changed_elem.
Qed.
End call.

(** Two blocks, one of them changed twice. *)
Definition demo_ups : list (Z * list Z) := [(40, ones_block); (41, ones_block); (40, zero_block)].
Definition demo_idle : lst bst :=
  mklst (booted [] demo_ldisk 5) (initlock "log") 2 30 0 0 1 0 (replicate (Z.to_nat LOGSIZE) 0) 0.

Lemma system_call_transaction_witness :
  ∃ s1 s2, (begin_op ;; update_blocks demo_ups) demo_idle = Ok (tt, s1) ∧ end_op s1 = Ok (tt, s2) ∧
    dread (bdisk (l_bc s2)) 41 = ones_block ∧ dread (bdisk (l_bc s2)) 40 = zero_block.
Proof.
  destruct (system_call_transaction 1 demo_idle demo_ldisk demo_ups) as (s1 & s2 & E1 & _ & E2 & _ & _ & Hd & _).
  - apply booted_rep. discriminate.
  - reflexivity.
  - reflexivity.
  - reflexivity.
  - reflexivity.
  - reflexivity.
  - reflexivity.
  - unfold log_place. simpl. lia.
  - vm_compute. reflexivity.
  - reflexivity.
  - vm_compute. reflexivity.
  - vm_compute. discriminate.
  - discriminate.
  - intros u Hu. unfold home. simpl log_start. simpl log_size. unfold demo_ups in Hu.
    repeat (apply elem_of_cons in Hu as [->|Hu]; [simpl; lia|]). apply not_elem_of_nil in Hu. destruct Hu.
  - exists s1, s2. split; [exact E1|]. split; [exact E2|]. split.
    + assert (Hk : home 2 30 41) by (unfold home; simpl; lia). exact (Hd 41 Hk).
    + assert (Hk : home 2 30 40) by (unfold home; simpl; lia). exact (Hd 40 Hk).
Defined.
