(* ===== verification/Printf.v ===== *)
(** * Formatted output: user/printf.c and kernel/printf.c

    Both printers are written against an output that takes one character at a
    time and a memory that holds the format and the strings ([Printer]); the
    user library's output is [write] of one byte, the kernel's is the console.
    [char] is unsigned; arguments are the 64-bit words of the [va_list]. *)
From S2P Require Import Prelude CString Ulib.

Class Printer (S : Type) := { pr_mem : S → mem; pr_putc : Z → M S unit }.

Definition rd {S} `{!Printer S} (a : Z) : M S Z := λ s,
  match pr_mem s !! a with Some v => Ok (v, s) | None => Fault end.

(** [static char digits[]], with its NUL. *)
Definition udigits : list Z := [48; 49; 50; 51; 52; 53; 54; 55; 56; 57; 65; 66; 67; 68; 69; 70; 0].
Definition kdigits : list Z := [48; 49; 50; 51; 52; 53; 54; 55; 56; 57; 97; 98; 99; 100; 101; 102; 0].

Definition va_arg (ap : list Z) : res (Z * list Z) :=
  match ap with a :: ap' => Ok (a, ap') | [] => Fault end.

Definition null_text : list Z := [40; 110; 117; 108; 108; 41].

Section printer.
Context {S : Type} `{!Printer S}.

(** ** Numbers *)
Section digits.
Context (digits : list Z).

(** [buf[i++] = c], with [room] bytes of [buf] left. *)
Definition buf_put (room : nat) (c : Z) (buf : list Z) : res (nat * list Z) :=
  match room with O => Fault | Datatypes.S room => Ok (room, buf ++ [c]) end.

(** The [do]-[while] loop: it ends, or runs out of [buf]. *)
Fixpoint digit_loop (room : nat) (x base : Z) (buf : list Z) : res (nat * list Z) :=
  match room with
  | O => Fault
  | Datatypes.S room =>
      match zidx digits (x mod base) with
      | None => Fault
      | Some c =>
          let x := x / base in
          if bool_decide (x ≠ 0) then digit_loop room x base (buf ++ [c]) else Ok (room, buf ++ [c])
      end
  end.

(** [-xx] wraps at -2^31. *)
Definition printint (xx base sgn : Z) : M S unit :=
  let neg := bool_decide (sgn ≠ 0) && bool_decide (xx < 0) in
  let x := u32 (if neg then - xx else xx) in
  '(room, buf) ← lift (digit_loop 16 x base []);
  '(_, buf) ← lift (if neg then buf_put room 45 buf else Ok (room, buf));
  forM (reverse buf) pr_putc.

Fixpoint ptr_loop (k : nat) (x : Z) : M S unit :=
  match k with
  | O => mret tt
  | Datatypes.S k =>
      match zidx digits (Z.shiftr x 60) with
      | None => fault
      | Some c => pr_putc c ;; ptr_loop k (u64 (Z.shiftl x 4))
      end
  end.
Definition printptr (x : Z) : M S unit := pr_putc 48 ;; pr_putc 120 ;; ptr_loop 16 x.
End digits.

(** The bytes from [s] to the NUL. *)
Fixpoint puts_loop (fuel : nat) (s : Z) : M S unit :=
  match fuel with
  | O => hang
  | Datatypes.S fuel =>
      c ← rd s;
      if bool_decide (c ≠ 0) then pr_putc c ;; puts_loop fuel (s + 1) else mret tt
  end.
Definition puts (s : Z) : M S unit := λ st, puts_loop (Datatypes.S (size (pr_mem st))) s st.
Definition put_string (s : Z) : M S unit :=
  if bool_decide (s = 0) then forM null_text pr_putc else puts s.

(** ** user/printf.c *)

(** The conversion after a [%]. *)
Definition uconv (c : Z) (ap : list Z) : M S (list Z) :=
  if bool_decide (c = 100) then
    '(a, ap) ← lift (va_arg ap); printint udigits (i32 a) 10 1 ;; mret ap
  else if bool_decide (c = 108) then
    '(a, ap) ← lift (va_arg ap); printint udigits (i32 (u64 a)) 10 0 ;; mret ap
  else if bool_decide (c = 120) then
    '(a, ap) ← lift (va_arg ap); printint udigits (i32 a) 16 0 ;; mret ap
  else if bool_decide (c = 112) then
    '(a, ap) ← lift (va_arg ap); printptr udigits (u64 a) ;; mret ap
  else if bool_decide (c = 115) then
    '(a, ap) ← lift (va_arg ap); put_string (u64 a) ;; mret ap
  else if bool_decide (c = 99) then
    '(a, ap) ← lift (va_arg ap); pr_putc (u8 (u32 a)) ;; mret ap
  else if bool_decide (c = 37) then pr_putc c ;; mret ap
  else pr_putc 37 ;; pr_putc c ;; mret ap.

(** The loop over the format; [pct] is [state == '%']. *)
Fixpoint vprintf_loop (fuel : nat) (fmt : Z) (pct : bool) (ap : list Z) : M S unit :=
  match fuel with
  | O => hang
  | Datatypes.S fuel =>
      x ← rd fmt;
      if bool_decide (x = 0) then mret tt
      else
        let c := Z.land x 255 in
        if pct then ap ← uconv c ap; vprintf_loop fuel (fmt + 1) false ap
        else if bool_decide (c = 37) then vprintf_loop fuel (fmt + 1) true ap
        else pr_putc c ;; vprintf_loop fuel (fmt + 1) false ap
  end.
Definition vprintf (fmt : Z) (ap : list Z) : M S unit := λ s,
  vprintf_loop (Datatypes.S (size (pr_mem s))) fmt false ap s.

(** ** kernel/printf.c: between taking and releasing [pr.lock] *)

(** The same text as in user/printf.c, over the other digits. *)
Definition kprintint (xx base sign : Z) : M S unit := printint kdigits xx base sign.
Definition kprintptr (x : Z) : M S unit := printptr kdigits x.

Definition kconv (c : Z) (ap : list Z) : M S (list Z) :=
  if bool_decide (c = 100) then
    '(a, ap) ← lift (va_arg ap); kprintint (i32 a) 10 1 ;; mret ap
  else if bool_decide (c = 120) then
    '(a, ap) ← lift (va_arg ap); kprintint (i32 a) 16 1 ;; mret ap
  else if bool_decide (c = 112) then
    '(a, ap) ← lift (va_arg ap); kprintptr (u64 a) ;; mret ap
  else if bool_decide (c = 115) then
    '(a, ap) ← lift (va_arg ap); put_string (u64 a) ;; mret ap
  else if bool_decide (c = 37) then pr_putc 37 ;; mret ap
  else pr_putc 37 ;; pr_putc c ;; mret ap.

Fixpoint kprintf_loop (fuel : nat) (fmt : Z) (ap : list Z) : M S unit :=
  match fuel with
  | O => hang
  | Datatypes.S fuel =>
      x ← rd fmt;
      let c := Z.land x 255 in
      if bool_decide (c = 0) then mret tt
      else if bool_decide (c ≠ 37) then pr_putc c ;; kprintf_loop fuel (fmt + 1) ap
      else
        y ← rd (fmt + 1);
        let c := Z.land y 255 in
        if bool_decide (c = 0) then mret tt
        else ap ← kconv c ap; kprintf_loop fuel (fmt + 2) ap
  end.
Definition kprintf_body (fmt : Z) (ap : list Z) : M S unit := λ s,
  if bool_decide (fmt = 0) then Panic "null fmt"
  else kprintf_loop (Datatypes.S (size (pr_mem s))) fmt ap s.
End printer.

(** ** What a number looks like *)

(** The value of digits, most significant first. *)
Definition horner (base : Z) (ds : list Z) : Z := foldl (λ v d, v * base + d) 0 ds.

(** [ds] is the number [x] in [base] without leading zeros. *)
Record numeral (base x : Z) (ds : list Z) : Prop := {
  nu_value : horner base ds = x;
  nu_digits : Forall (λ d, 0 ≤ d < base) ds;
  nu_lead : hd 0 ds = 0 → ds = [0] }.

(** The text of an [int] in a base, signed or as an unsigned 32-bit word. *)
Definition int_text (digits : list Z) (base : Z) (sgn : bool) (xx : Z) (t : list Z) : Prop :=
  ∃ ds, numeral base (if sgn then Z.abs xx else u32 xx) ds ∧
    t = (if sgn && bool_decide (xx < 0) then [45] else []) ++ ((λ d, default 0 (zidx digits d)) <$> ds).

(** Sixteen hexadecimal digits. *)
Definition ptr_text (digits : list Z) (x : Z) : list Z :=
  [48; 120] ++ ((λ i, default 0 (zidx digits (x / 16 ^ i mod 16))) <$> reverse (seqZ 0 16)).

(** The differences between the two printers. *)
Record dialect := Dialect { d_digits : list Z; d_xsigned : bool; d_user : bool }.
Definition user_dialect : dialect := Dialect udigits false true.
Definition kernel_dialect : dialect := Dialect kdigits true false.

(** The conversions, as the code has them.  [%l] is the user library's only: the
    unsigned decimal text of the low 32 bits of its argument.
    [conv D m c ap t ap']: the conversion [%c] prints [t] and leaves [ap']. *)
Inductive conv (D : dialect) (m : mem) : Z → list Z → list Z → list Z → Prop :=
  | conv_d a ap t : int_text (d_digits D) 10 true (i32 a) t → conv D m 100 (a :: ap) t ap
  | conv_l a ap t : d_user D = true → int_text (d_digits D) 10 false (i32 (u64 a)) t → conv D m 108 (a :: ap) t ap
  | conv_x a ap t : int_text (d_digits D) 16 (d_xsigned D) (i32 a) t → conv D m 120 (a :: ap) t ap
  | conv_p a ap : conv D m 112 (a :: ap) (ptr_text (d_digits D) (u64 a)) ap
  | conv_s a ap l : u64 a ≠ 0 → str_at m (u64 a) l → Forall (λ c, 0 ≤ c < 256) l → conv D m 115 (a :: ap) l ap
  | conv_null a ap : u64 a = 0 → conv D m 115 (a :: ap) null_text ap
  | conv_c a ap : d_user D = true → conv D m 99 (a :: ap) [u8 a] ap
  | conv_pct ap : conv D m 37 ap [37] ap
  | conv_other c ap : c ∉ [100; 120; 112; 115; 37] → (d_user D = true → c ∉ [108; 99]) → conv D m c ap [37; c] ap.

Inductive rendered (D : dialect) (m : mem) : list Z → list Z → list Z → Prop :=
  | r_nil ap : rendered D m [] ap []
  | r_end ap : rendered D m [37] ap []
  | r_char c f ap o : c ≠ 37 → rendered D m f ap o → rendered D m (c :: f) ap (c :: o)
  | r_conv c f ap t ap' o : conv D m c ap t ap' → rendered D m f ap' o → rendered D m (37 :: c :: f) ap (t ++ o).

(** ** An output that works *)

Class PrinterLaws (S : Type) `{!Printer S} := {
  pr_out : S → list Z;
  pr_ready : S → Prop;
  putc_ok c s : 0 ≤ c < 256 → pr_ready s →
    ∃ s', pr_putc c s = Ok (tt, s') ∧ pr_ready s' ∧ pr_mem s' = pr_mem s ∧ pr_out s' = pr_out s ++ [c] }.

(** ** Digits *)

Lemma horner_snoc base ds d : horner base (ds ++ [d]) = horner base ds * base + d.
Proof. unfold horner. by rewrite foldl_app. Qed.

Lemma numeral_snoc base x ds d :
  1 < base → 0 < x → 0 ≤ d < base → numeral base x ds → numeral base (x * base + d) (ds ++ [d]).
Proof.
  intros Hb Hx Hd [Hv Hds Hl]. constructor.
  - by rewrite horner_snoc, Hv.
  - apply Forall_app. split; [done|]. by constructor.
  - intros H. destruct ds as [|e ds]; [simpl in Hv; cbv in Hv; lia|]. simpl in H.
    assert (E : e :: ds = [0]) by (apply Hl; done). rewrite E in Hv. cbv in Hv. lia.
Qed.

Lemma numeral_digit base x : 0 ≤ x < base → numeral base x [x].
Proof. intros H. constructor; [cbv; lia|by constructor|]. simpl. by intros ->. Qed.

(** Sixteen bytes are enough for 32 bits in any base of the table from 5 up. *)
Definition digit_table (base : Z) (digits : list Z) : Prop :=
  5 ≤ base ∧ ∀ d, 0 ≤ d < base → is_Some (zidx digits d).

Lemma digit_loop_ok base digits : digit_table base digits → ∀ k x room buf,
  0 ≤ x < base ^ Z.of_nat k → (0 < k ≤ room)%nat →
  ∃ ds room', digit_loop digits room x base buf = Ok (room', buf ++ reverse ((λ d, default 0 (zidx digits d)) <$> ds)) ∧
    numeral base x ds ∧ (room ≤ room' + k)%nat.
Proof.
  intros [Hb Htab]. induction k as [|k IH]; intros x room buf Hx Hk; [lia|].
  destruct room as [|room]; [lia|]. simpl.
  assert (Hm : 0 ≤ x mod base < base) by (apply Z.mod_pos_bound; lia).
  destruct (Htab _ Hm) as [c Ec]. rewrite Ec.
  rewrite Nat2Z.inj_succ, Z.pow_succ_r in Hx by lia. case_bool_decide as Hz.
  - assert (Hq : 0 ≤ x / base < base ^ Z.of_nat k).
    { split; [apply Z.div_pos; lia|]. apply Z.div_lt_upper_bound; lia. }
    assert (Hk0 : (0 < k)%nat). { destruct k; [|lia]. change (base ^ Z.of_nat 0) with 1 in Hq. lia. }
    destruct (IH (x / base) room (buf ++ [c]) Hq) as (ds & room' & E & Hn & Hr); [lia|].
    exists (ds ++ [x mod base]), room'. split; [|split].
    + rewrite E. rewrite fmap_app, reverse_app. simpl. rewrite Ec. simpl. by rewrite <-app_assoc.
    + rewrite (Z.div_mod x base) at 1 by lia. rewrite Z.mul_comm. apply numeral_snoc; [lia|lia|done|done].
    + lia.
  - exists [x mod base], room. split; [|split].
    + simpl. by rewrite Ec.
    + apply numeral_digit in Hm. rewrite (Z.mod_small x base) in * by (apply Z.div_small_iff in Hz; lia). done.
    + lia.
Qed.

Section printing.
Context {S : Type} `{!Printer S, !PrinterLaws S}.

(** [m] ends normally, having printed [t] and changed no memory. *)
Definition prints {A} (m : M S A) (s : S) (a : A) (t : list Z) : Prop :=
  ∃ s', m s = Ok (a, s') ∧ pr_ready s' ∧ pr_mem s' = pr_mem s ∧ pr_out s' = pr_out s ++ t.

Lemma prints_bind {A B} (m : M S A) (f : A → M S B) s a b t1 t2 :
  prints m s a t1 → (∀ s', pr_ready s' → pr_mem s' = pr_mem s → prints (f a) s' b t2) →
  prints (m ≫= f) s b (t1 ++ t2).
Proof.
  intros (s1 & E1 & R1 & M1 & O1) H2. destruct (H2 s1 R1 M1) as (s2 & E2 & R2 & M2 & O2).
  exists s2. rewrite (bind_Ok_eq _ _ _ _ _ E1). split; [done|]. split; [done|]. split; [congruence|].
  by rewrite O2, O1, app_assoc.
Qed.

Lemma prints_ret {A} (a : A) s : pr_ready s → prints (mret a) s a [].
Proof. intros H. exists s. by rewrite app_nil_r. Qed.

Lemma prints_putc c s : 0 ≤ c < 256 → pr_ready s → prints (pr_putc c) s tt [c].
Proof. intros Hc Hs. destruct (putc_ok c s Hc Hs) as (s' & ?). by exists s'. Qed.

Lemma prints_then {A} (m : M S unit) (k : M S A) s a t1 t2 t :
  prints m s tt t1 → (∀ s', pr_ready s' → pr_mem s' = pr_mem s → prints k s' a t2) → t = t1 ++ t2 →
  prints (m ;; k) s a t.
Proof. intros H1 H2 ->. by apply (prints_bind m (λ _, k) s tt). Qed.

Lemma prints_lift {A B} (a : A) (f : A → M S B) r s b t : r = Ok a → prints (f a) s b t → prints (lift r ≫= f) s b t.
Proof. intros -> (s' & E & H). exists s'. done. Qed.

Lemma prints_forM l s : Forall (λ c, 0 ≤ c < 256) l → pr_ready s → prints (forM l pr_putc) s tt l.
Proof.
  intros Hl. revert s. induction Hl as [|c l Hc Hl IH]; intros s Hs; simpl; [by apply prints_ret|].
  eapply prints_then; [by apply prints_putc| |done]. intros s' Hs' _. by apply IH.
Qed.

Lemma prints_rd {B} a x (f : Z → M S B) s b t : pr_mem s !! a = Some x → prints (f x) s b t → prints (rd a ≫= f) s b t.
Proof.
  intros Ex (s' & E & H). exists s'. split; [|done]. rewrite (bind_Ok_eq _ _ s x s); [done|]. unfold rd. by rewrite Ex.
Qed.

(** ** Numbers and strings *)

Lemma table_bytes digits base ds :
  digit_table base digits → Forall (λ c, 0 ≤ c < 256) digits → Forall (λ d, 0 ≤ d < base) ds →
  Forall (λ c, 0 ≤ c < 256) ((λ d, default 0 (zidx digits d)) <$> ds).
Proof.
  intros [_ Ht] Hb Hds. apply Forall_fmap. eapply Forall_impl; [exact Hds|]. intros d Hd. simpl.
  destruct (Ht d Hd) as [c Ec]. rewrite Ec. simpl. apply zidx_Some in Ec as [_ Ec].
  by apply (Forall_lookup_1 _ _ _ _ Hb Ec).
Qed.

Lemma printint_ok digits base sgn xx s :
  digit_table base digits → Forall (λ c, 0 ≤ c < 256) digits →
  - 2 ^ 31 ≤ xx < 2 ^ 31 → pr_ready s →
  ∃ t, int_text digits base (bool_decide (sgn ≠ 0)) xx t ∧ prints (printint digits xx base sgn) s tt t.
Proof.
  intros Ht Hb Hxx Hs. unfold printint, int_text.
  set (sg := bool_decide (sgn ≠ 0)). set (neg := sg && bool_decide (xx < 0)).
  set (x := u32 (if neg then - xx else xx)).
  assert (Hx : 0 ≤ x < base ^ Z.of_nat 15).
  { assert (0 ≤ x < 2 ^ 32) by (unfold x, u32; apply Z.mod_pos_bound; lia).
    assert (5 ^ Z.of_nat 15 ≤ base ^ Z.of_nat 15) by (destruct Ht; apply Z.pow_le_mono_l; lia).
    assert (2 ^ 32 < 5 ^ Z.of_nat 15) by (vm_compute; reflexivity). lia. }
  destruct (digit_loop_ok base digits Ht 15 x 16 [] Hx) as (ds & room & E & Hn & Hr); [lia|].
  set (t0 := (λ d, default 0 (zidx digits d)) <$> ds) in *.
  exists ((if neg then [45] else []) ++ t0). split.
  { exists ds. split; [|done]. replace (if sg then Z.abs xx else u32 xx) with x; [done|].
    unfold x, neg. destruct sg; [|done]. simpl. case_bool_decide; rewrite u32_small by lia; lia. }
  assert (Ht0 : Forall (λ c, 0 ≤ c < 256) t0) by (eapply table_bytes; [done..|by apply (nu_digits _ _ _ Hn)]).
  apply (prints_lift _ _ _ _ _ _ E). simpl. destruct neg.
  - destruct room as [|room]; [lia|]. eapply prints_lift; [done|]. simpl.
    rewrite reverse_snoc, reverse_involutive. apply prints_forM; [|done]. by constructor.
  - eapply prints_lift; [done|]. simpl. rewrite reverse_involutive. by apply prints_forM.
Qed.

Lemma top_digit x k : 0 ≤ k < 16 → Z.shiftr (u64 (x * 16 ^ (15 - k))) 60 = x / 16 ^ k mod 16.
Proof.
  intros Hk. rewrite Z.shiftr_div_pow2 by lia. unfold u64. change (2 ^ 64) with (2 ^ 60 * 16).
  rewrite Z.rem_mul_r by lia. rewrite Z.add_comm, Z.mul_comm, Z.div_add_l by lia.
  rewrite (Z.div_small (_ mod _)) by (apply Z.mod_pos_bound; lia). rewrite Z.add_0_r.
  change (2 ^ 60) with (16 ^ 15). replace (16 ^ 15) with (16 ^ k * 16 ^ (15 - k)) by (rewrite <-Z.pow_add_r by lia; f_equal; lia).
  rewrite Z.div_mul_cancel_r by (apply Z.pow_nonzero; lia). done.
Qed.

Lemma next_word x k : 0 < k < 16 → u64 (Z.shiftl (u64 (x * 16 ^ (15 - k))) 4) = u64 (x * 16 ^ (15 - (k - 1))).
Proof.
  intros Hk. rewrite Z.shiftl_mul_pow2 by lia. unfold u64. rewrite Zmult_mod_idemp_l. f_equal.
  replace (15 - (k - 1)) with (Z.succ (15 - k)) by lia. rewrite Z.pow_succ_r by lia. change (2 ^ 4) with 16. ring.
Qed.

Lemma ptr_loop_ok digits k x s :
  digit_table 16 digits → Forall (λ c, 0 ≤ c < 256) digits → (k < 16)%nat → pr_ready s →
  prints (ptr_loop digits (Datatypes.S k) (u64 (x * 16 ^ (15 - Z.of_nat k)))) s tt
    ((λ i, default 0 (zidx digits (x / 16 ^ i mod 16))) <$> reverse (seqZ 0 (Z.of_nat (Datatypes.S k)))).
Proof.
  intros Ht Hb Hk. revert s. induction k as [|k IH]; intros s Hs; cbn [ptr_loop];
    rewrite top_digit by lia; rewrite seqZ_S, reverse_snoc; rewrite fmap_cons, Z.add_0_l.
  all: set (d := x / 16 ^ _ mod 16); assert (Hd : 0 ≤ d < 16) by (apply Z.mod_pos_bound; lia);
    destruct (proj2 Ht d Hd) as [c Ec]; rewrite Ec; simpl default;
    assert (Hc : 0 ≤ c < 256) by (apply zidx_Some in Ec as [_ Ec]; apply (Forall_lookup_1 _ _ _ _ Hb Ec)).
  - eapply prints_then; [by apply prints_putc| |done]. intros s' Hs' _. by apply prints_ret.
  - eapply (prints_then _ _ _ _ [c]); [by apply prints_putc| |done]. intros s' Hs' _.
    rewrite next_word by lia. replace (15 - (Z.of_nat (Datatypes.S k) - 1)) with (15 - Z.of_nat k) by lia.
    apply IH; [lia|done].
Qed.

Lemma printptr_ok digits x s :
  digit_table 16 digits → Forall (λ c, 0 ≤ c < 256) digits → 0 ≤ x < 2 ^ 64 → pr_ready s →
  prints (printptr digits x) s tt (ptr_text digits x).
Proof.
  intros Ht Hb Hx Hs. unfold printptr, ptr_text.
  eapply (prints_then _ _ _ _ [48]); [by apply prints_putc| |done]. intros s1 H1 _.
  eapply (prints_then _ _ _ _ [120]); [by apply prints_putc| |done]. intros s2 H2 _.
  pose proof (ptr_loop_ok digits 15 x s2 Ht Hb) as P. rewrite Z.sub_diag, Z.mul_1_r, u64_small in P by lia.
  apply P; [lia|done].
Qed.

Lemma puts_loop_ok fuel a l s :
  pr_ready s → str_at (pr_mem s) a l → Forall (λ c, 0 ≤ c < 256) l → (length l < fuel)%nat →
  prints (puts_loop fuel a) s tt l.
Proof.
  revert a l s. induction fuel as [|fuel IH]; intros a l s Hs Hl Hb Hf; [lia|]. cbn [puts_loop].
  destruct l as [|c l].
  - apply str_nil in Hl. eapply prints_rd; [done|]. simpl. by apply prints_ret.
  - apply str_cons in Hl as (Ec & Hc & Hl). apply Forall_cons in Hb as [Hbc Hb].
    eapply prints_rd; [done|]. rewrite bool_decide_true by done.
    eapply (prints_then _ _ _ _ [c]); [by apply prints_putc| |done]. intros s' Hs' Hm.
    apply IH; [done|by rewrite Hm|done|simpl in Hf; lia].
Qed.

Lemma str_length m a l : str_at m a l → (length l < size m)%nat.
Proof.
  intros [_ H]. apply bytes_mapped in H. apply mapped_size in H; [|lia]. rewrite length_app in H. simpl in H. lia.
Qed.

Lemma puts_ok a l s :
  pr_ready s → str_at (pr_mem s) a l → Forall (λ c, 0 ≤ c < 256) l → prints (puts a) s tt l.
Proof.
  intros Hs Hl Hb. pose proof (str_length _ _ _ Hl) as Hf.
  destruct (puts_loop_ok (Datatypes.S (size (pr_mem s))) a l s Hs Hl Hb ltac:(lia)) as (s' & E & H). by exists s'.
Qed.
End printing.

(** ** Numerals are unique *)

Lemma numeral_inv base x ds d :
  1 < base → numeral base x (ds ++ [d]) → d = x mod base ∧ (ds = [] ∧ x = d ∨ 0 < x / base ∧ numeral base (x / base) ds).
Proof.
  intros Hb [Hv Hds Hl]. rewrite horner_snoc in Hv. apply Forall_app in Hds as [Hds [Hd _]%Forall_cons].
  assert (E1 : x mod base = d) by (rewrite <-Hv, Z.add_comm, Z.mod_add, Z.mod_small by lia; done).
  assert (E2 : x / base = horner base ds) by (rewrite <-Hv, Z.div_add_l, Z.div_small by lia; lia).
  split; [done|]. destruct ds as [|e ds]; [left; split; [done|cbv in Hv; lia]|right].
  assert (He : e ≠ 0). { intros ->. simpl in Hl. destruct ds; specialize (Hl eq_refl); discriminate. }
  assert (Hpos : ∀ l v, 0 < v → Forall (λ d, 0 ≤ d < base) l → 0 < foldl (λ v d, v * base + d) v l).
  { induction l as [|y l IH]; intros v Hv0 Hf; simpl; [done|]. apply Forall_cons in Hf as [? ?]. apply IH; [nia|done]. }
  apply Forall_cons in Hds as Hds'. destruct Hds' as [He' Hds']. split.
  - rewrite E2. unfold horner. simpl. apply Hpos; [lia|done].
  - constructor; [done|done|]. simpl. done.
Qed.

Lemma numeral_unique base x ds ds' : 1 < base → numeral base x ds → numeral base x ds' → ds = ds'.
Proof.
  intros Hb. revert x ds'. induction ds as [|d ds IH] using rev_ind; intros x ds' H H'.
  - destruct H as [_ _ Hl]. specialize (Hl eq_refl). discriminate.
  - destruct ds' as [|e ds' _] using rev_ind; [destruct H' as [_ _ Hl]; specialize (Hl eq_refl); discriminate|].
    apply numeral_inv in H as [-> H]; [|done]. apply numeral_inv in H' as [-> H']; [|done]. f_equal.
    assert (Hs : ∀ y : Z, y = x mod base → x = y → x / base = 0).
    { intros y Ey ->. apply Z.div_small. rewrite Ey. apply Z.mod_pos_bound. lia. }
    destruct H as [[-> Hx]|[Hx H]], H' as [[-> Hx']|[Hx' H']]; [done| | |by apply (IH (x / base))].
    + apply Hs in Hx; [lia|done].
    + apply Hs in Hx'; [lia|done].
Qed.

Lemma int_text_unique digits base sgn xx t t' :
  1 < base → int_text digits base sgn xx t → int_text digits base sgn xx t' → t = t'.
Proof. intros Hb (ds & H & ->) (ds' & H' & ->). by rewrite (numeral_unique base _ ds ds' Hb H H'). Qed.

Lemma udigits_table base : 5 ≤ base ≤ 16 → digit_table base udigits.
Proof. intros [H ?]. split; [done|]. intros d Hd. apply zidx_is_Some. simpl. lia. Qed.
Lemma kdigits_table base : 5 ≤ base ≤ 16 → digit_table base kdigits.
Proof. intros [H ?]. split; [done|]. intros d Hd. apply zidx_is_Some. simpl. lia. Qed.
Lemma udigits_bytes : Forall (λ c, 0 ≤ c < 256) udigits.
Proof. unfold udigits. repeat (constructor; [lia|]). constructor. Qed.
Lemma kdigits_bytes : Forall (λ c, 0 ≤ c < 256) kdigits.
Proof. unfold kdigits. repeat (constructor; [lia|]). constructor. Qed.
Lemma null_bytes : Forall (λ c, 0 ≤ c < 256) null_text.
Proof. unfold null_text. repeat (constructor; [lia|]). constructor. Qed.
Lemma i32_range z : - 2 ^ 31 ≤ i32 z < 2 ^ 31.
Proof. unfold i32. pose proof (Z.mod_pos_bound (z + 2 ^ 31) (2 ^ 32)). lia. Qed.
Lemma u64_range z : 0 ≤ u64 z < 2 ^ 64.
Proof. apply Z.mod_pos_bound. lia. Qed.
Lemma u8_u32 a : u8 (u32 a) = u8 a.
Proof. unfold u8, u32. change (2 ^ 32) with (2 ^ 8 * 2 ^ 24). rewrite Z.rem_mul_r by lia.
  rewrite (Z.mul_comm (2 ^ 8)), Z.mod_add, Z.mod_mod by lia. done. Qed.
Lemma u8_range a : 0 ≤ u8 a < 256.
Proof. apply Z.mod_pos_bound. lia. Qed.
Lemma land_byte c : 0 ≤ c < 256 → Z.land c 255 = c.
Proof. intros H. change 255 with (Z.ones 8). rewrite Z.land_ones by lia. by apply Z.mod_small. Qed.

Section formats.
Context {S : Type} `{!Printer S, !PrinterLaws S}.

Lemma printint_text digits base (sgn : bool) xx t s :
  digit_table base digits → Forall (λ c, 0 ≤ c < 256) digits → pr_ready s →
  int_text digits base sgn (i32 xx) t → prints (printint digits (i32 xx) base (if sgn then 1 else 0)) s tt t.
Proof.
  intros Ht Hb Hs H. destruct (printint_ok digits base (if sgn then 1 else 0) (i32 xx) s Ht Hb (i32_range xx) Hs) as (t' & H' & P).
  replace (bool_decide ((if sgn then 1 else 0) ≠ 0)) with sgn in H' by by destruct sgn.
  rewrite (int_text_unique digits base sgn _ t t' ltac:(destruct Ht; lia) H H'). done.
Qed.

Lemma put_string_ok a l s :
  pr_ready s → a ≠ 0 → str_at (pr_mem s) a l → Forall (λ c, 0 ≤ c < 256) l → prints (put_string a) s tt l.
Proof. intros. unfold put_string. rewrite bool_decide_false by done. by apply puts_ok. Qed.
Lemma put_null_ok a s : pr_ready s → a = 0 → prints (put_string a) s tt null_text.
Proof. intros Hs ->. unfold put_string. rewrite bool_decide_true by done. apply prints_forM; [apply null_bytes|done]. Qed.

Lemma prints_ret_after (m : M S unit) {A} (a : A) s t : prints m s tt t → prints (m ;; mret a) s a t.
Proof. intros H. eapply prints_then; [exact H| |symmetry; apply app_nil_r]. intros s' Hs' _. by apply prints_ret. Qed.

Ltac pick_conv := repeat first [rewrite bool_decide_true by done | rewrite bool_decide_false by set_solver].

Lemma uconv_ok c ap t ap' s :
  conv user_dialect (pr_mem s) c ap t ap' → pr_ready s → 0 ≤ c < 256 → prints (uconv c ap) s ap' t.
Proof.
  intros H Hs Hc. unfold uconv. destruct H as [a ap t H|a ap t _ H|a ap t H|a ap|a ap l Ha Hl Hb|a ap Ha|a ap _|ap|c ap H H2];
    pick_conv; try (eapply prints_lift; [done|]; cbv beta iota); try apply prints_ret_after.
  - by apply (printint_text udigits 10 true); [apply udigits_table|apply udigits_bytes| |].
  - by apply (printint_text udigits 10 false); [apply udigits_table|apply udigits_bytes| |].
  - by apply (printint_text udigits 16 false); [apply udigits_table|apply udigits_bytes| |].
  - apply printptr_ok; [by apply udigits_table|apply udigits_bytes|apply u64_range|done].
  - by apply put_string_ok.
  - by apply put_null_ok.
  - rewrite u8_u32. apply prints_putc; [apply u8_range|done].
  - by apply prints_putc.
  - specialize (H2 eq_refl). pick_conv. eapply (prints_then _ _ _ _ [37]); [by apply prints_putc| |done].
    intros s' Hs' _. by apply prints_ret_after, prints_putc.
Qed.

Lemma kconv_ok c ap t ap' s :
  conv kernel_dialect (pr_mem s) c ap t ap' → pr_ready s → 0 ≤ c < 256 → prints (kconv c ap) s ap' t.
Proof.
  intros H Hs Hc. unfold kconv, kprintint, kprintptr. destruct H as [a ap t H|a ap t ? H|a ap t H|a ap|a ap l Ha Hl Hb|a ap Ha|a ap ?|ap|c ap H H2];
    try discriminate; pick_conv; try (eapply prints_lift; [done|]; cbv beta iota); try apply prints_ret_after.
  - by apply (printint_text kdigits 10 true); [apply kdigits_table|apply kdigits_bytes| |].
  - by apply (printint_text kdigits 16 true); [apply kdigits_table|apply kdigits_bytes| |].
  - apply printptr_ok; [by apply kdigits_table|apply kdigits_bytes|apply u64_range|done].
  - by apply put_string_ok.
  - by apply put_null_ok.
  - by apply prints_putc.
  - pick_conv. eapply (prints_then _ _ _ _ [37]); [by apply prints_putc| |done].
    intros s' Hs' _. by apply prints_ret_after, prints_putc.
Qed.

(** ** The loops over the format *)

Lemma vprintf_loop_ok m f ap o : rendered user_dialect m f ap o → ∀ fuel a s,
  str_at m a f → Forall (λ c, 0 ≤ c < 256) f → (length f < fuel)%nat → pr_ready s → pr_mem s = m →
  prints (vprintf_loop fuel a false ap) s tt o.
Proof.
  induction 1 as [ap|ap|c f ap o Hc H IH|c f ap t ap' o Hcv H IH]; intros fuel a s Hl Hb Hf Hs Hm;
    (destruct fuel as [|fuel]; [lia|]); cbn [vprintf_loop].
  - apply str_nil in Hl. eapply prints_rd; [by rewrite Hm|]. rewrite bool_decide_true by done. by apply prints_ret.
  - apply str_cons in Hl as (Ex & _ & Hl). apply str_nil in Hl. eapply prints_rd; [by rewrite Hm|].
    rewrite bool_decide_false by done. simpl Z.land. rewrite bool_decide_true by done.
    destruct fuel as [|fuel]; [simpl in Hf; lia|]. cbn [vprintf_loop].
    eapply prints_rd; [by rewrite Hm|]. rewrite bool_decide_true by done. by apply prints_ret.
  - apply str_cons in Hl as (Ex & H0 & Hl). apply Forall_cons in Hb as [Hbc Hb]. eapply prints_rd; [by rewrite Hm|].
    rewrite bool_decide_false by done. cbv zeta. rewrite land_byte, bool_decide_false by done.
    eapply (prints_then _ _ _ _ [c]); [by apply prints_putc| |done]. intros s' Hs' Hm'.
    apply IH; [done|done|simpl in Hf; lia|done|congruence].
  - apply str_cons in Hl as (Ex & _ & Hl). apply str_cons in Hl as (Ey & H0 & Hl).
    apply Forall_cons in Hb as [_ Hb]. apply Forall_cons in Hb as [Hbc Hb].
    eapply prints_rd; [by rewrite Hm|]. rewrite bool_decide_false by done. simpl Z.land. rewrite bool_decide_true by done.
    destruct fuel as [|fuel]; [simpl in Hf; lia|]. cbn [vprintf_loop].
    eapply prints_rd; [by rewrite Hm|]. rewrite bool_decide_false by done. cbv zeta. rewrite land_byte by done.
    eapply prints_bind; [apply uconv_ok; [by rewrite Hm|done|done]|]. intros s' Hs' Hm'.
    apply IH; [done|done|simpl in Hf; lia|done|congruence].
Qed.

Lemma kprintf_loop_ok m f ap o : rendered kernel_dialect m f ap o → ∀ fuel a s,
  str_at m a f → Forall (λ c, 0 ≤ c < 256) f → (length f < fuel)%nat → pr_ready s → pr_mem s = m →
  prints (kprintf_loop fuel a ap) s tt o.
Proof.
  induction 1 as [ap|ap|c f ap o Hc H IH|c f ap t ap' o Hcv H IH]; intros fuel a s Hl Hb Hf Hs Hm;
    (destruct fuel as [|fuel]; [lia|]); cbn [kprintf_loop].
  - apply str_nil in Hl. eapply prints_rd; [by rewrite Hm|]. rewrite bool_decide_true by done. by apply prints_ret.
  - apply str_cons in Hl as (Ex & _ & Hl). apply str_nil in Hl. eapply prints_rd; [by rewrite Hm|].
    simpl Z.land. rewrite bool_decide_false by done. rewrite (bool_decide_false (37 ≠ 37)) by congruence.
    eapply prints_rd; [by rewrite Hm|]. rewrite bool_decide_true by done. by apply prints_ret.
  - apply str_cons in Hl as (Ex & H0 & Hl). apply Forall_cons in Hb as [Hbc Hb]. eapply prints_rd; [by rewrite Hm|].
    cbv zeta. rewrite land_byte, bool_decide_false, bool_decide_true by done.
    eapply (prints_then _ _ _ _ [c]); [by apply prints_putc| |done]. intros s' Hs' Hm'.
    apply IH; [done|done|simpl in Hf; lia|done|congruence].
  - apply str_cons in Hl as (Ex & _ & Hl). apply str_cons in Hl as (Ey & H0 & Hl).
    apply Forall_cons in Hb as [_ Hb]. apply Forall_cons in Hb as [Hbc Hb].
    eapply prints_rd; [by rewrite Hm|]. simpl Z.land. rewrite bool_decide_false by done. rewrite (bool_decide_false (37 ≠ 37)) by congruence.
    eapply prints_rd; [by rewrite Hm|]. cbv zeta. rewrite land_byte, bool_decide_false by done.
    eapply prints_bind; [apply kconv_ok; [by rewrite Hm|done|done]|]. intros s' Hs' Hm'.
    replace (a + 2) with (a + 1 + 1) by lia. apply IH; [done|done|simpl in Hf; lia|done|congruence].
Qed.

(** C29: the printers print what the format says.  For any format and
    arguments, [vprintf] of the user library and [printf] of the kernel end
    normally, with memory unchanged, and print exactly the text that the format
    denotes in their dialect: plain characters, [%d], [%x], [%p], [%s] (also of
    a null pointer), [%%], unknown conversions in full, and a [%] at the end as
    nothing.  The kernel prints [%x] signed and in lower case.  The user library
    knows [%c] and [%l] too, which the comment above [vprintf] ("only understands
    %d, %x, %p, %s") leaves out; its [%l] takes a 64-bit argument and prints the
    low 32 bits ([percent_l_low_bits]), as [printint] takes an [int]. *)
Theorem printf_output fmt f ap t (s : S) :
  pr_ready s → str_at (pr_mem s) fmt f → Forall (λ c, 0 ≤ c < 256) f →
  (rendered user_dialect (pr_mem s) f ap t → prints (vprintf fmt ap) s tt t) ∧
  (fmt ≠ 0 → rendered kernel_dialect (pr_mem s) f ap t → prints (kprintf_body fmt ap) s tt t).
Proof.
  intros Hs Hf Hb. pose proof (str_length _ _ _ Hf) as Hlen. split.
  - intros H. apply (vprintf_loop_ok _ _ _ _ H (Datatypes.S (size (pr_mem s))) fmt s); [done|done|lia|done|done].
  - intros H0 H. destruct (kprintf_loop_ok _ _ _ _ H (Datatypes.S (size (pr_mem s))) fmt s) as (s' & E & H'); [done|done|lia|done|done|].
    exists s'. split; [|done]. unfold kprintf_body. by rewrite bool_decide_false.
Qed.
End formats.

(** ** The output of the user library: [putc] of user/printf.c *)

(** Memory, the file descriptor, and the bytes written to each descriptor. *)
Record ust := Ust { u_mem : mem; u_fd : Z; u_out : list (Z * Z) }.

(** [write(fd, &c, 1)] *)
Definition putc (fd c : Z) : M ust unit := modify (λ s, Ust (u_mem s) (u_fd s) (u_out s ++ [(fd, u8 c)])).

Instance user_printer : Printer ust := { pr_mem := u_mem; pr_putc := λ c s, putc (u_fd s) c s }.

Definition fprintf (fd fmt : Z) (ap : list Z) : M ust unit := λ s, vprintf fmt ap (Ust (u_mem s) fd (u_out s)).
Definition printf (fmt : Z) (ap : list Z) : M ust unit := λ s, vprintf fmt ap (Ust (u_mem s) 1 (u_out s)).

#[refine] Instance user_printer_laws : PrinterLaws ust := { pr_out := λ s, (u_out s).*2; pr_ready := λ _, True }.
Proof.
  intros c s Hc _. eexists. split; [done|]. split; [done|]. split; [done|]. simpl. rewrite fmap_app. simpl.
  unfold u8. by rewrite Z.mod_small.
Defined.

(** ** Reading a number back *)

Lemma i32_wrap a b : i32 (i32 a * 10 + b) = i32 (a * 10 + b).
Proof.
  unfold i32. f_equal. set (k := (a + 2 ^ 31) / 2 ^ 32).
  replace ((a + 2 ^ 31) mod 2 ^ 32 - 2 ^ 31) with (a - 2 ^ 32 * k) by (rewrite Z.mod_eq by lia; fold k; lia).
  replace ((a - 2 ^ 32 * k) * 10 + b + 2 ^ 31) with (a * 10 + b + 2 ^ 31 + - (k * 10) * 2 ^ 32) by lia.
  apply Z.mod_add. lia.
Qed.

(** The characters of decimal digits. *)
Definition dec_text (ds : list Z) : list Z := (λ d, default 0 (zidx udigits d)) <$> ds.

Lemma dec_char d : 0 ≤ d < 10 → default 0 (zidx udigits d) = 48 + d.
Proof.
  intros H. pose proof (forallb_upto (λ d, bool_decide (default 0 (zidx udigits d) = 48 + d)) 10 eq_refl d) as E.
  specialize (E H). by apply bool_decide_eq_true in E.
Qed.

Lemma atoi_loop_ok ds : Forall (λ d, 0 ≤ d < 10) ds → ∀ fuel m a v,
  str_at m a (dec_text ds) → (length ds < fuel)%nat →
  atoi_loop fuel a (i32 v) m = Ok (i32 (foldl (λ v d, v * 10 + d) v ds), m).
Proof.
  induction 1 as [|d ds Hd Hds IH]; intros fuel m a v Hl Hf; (destruct fuel as [|fuel]; [lia|]); cbn [atoi_loop].
  - apply str_nil in Hl. mem_step. done.
  - unfold dec_text in Hl. rewrite fmap_cons, dec_char in Hl by done. apply str_cons in Hl as (Ec & _ & Hl).
    mem_step. rewrite !bool_decide_true by lia. simpl. replace (i32 v * 10 + (48 + d) - 48) with (i32 v * 10 + d) by lia.
    rewrite i32_wrap. apply IH; [done|simpl in Hf; lia].
Qed.

Lemma atoi_ok m a ds : Forall (λ d, 0 ≤ d < 10) ds → str_at m a (dec_text ds) → atoi a m = Ok (i32 (horner 10 ds), m).
Proof.
  intros Hds Hl. unfold atoi, fueled. change 0 with (i32 0) at 1. apply atoi_loop_ok; [done..|].
  pose proof (str_length _ _ _ Hl) as H. unfold dec_text in H. rewrite length_fmap in H. lia.
Qed.

Lemma numeral_length x ds : 0 ≤ x < 2 ^ 32 → numeral 10 x ds → (length ds ≤ 10)%nat.
Proof.
  intros Hx [Hv Hds Hl]. destruct (decide (length ds ≤ 10)%nat) as [|Hn]; [done|exfalso].
  assert (Hp : ∀ l v, Forall (λ d, 0 ≤ d < 10) l → 0 ≤ v → v * 10 ^ Z.of_nat (length l) ≤ foldl (λ v d, v * 10 + d) v l).
  { induction l as [|e l IH]; intros v Hf Hv0; cbn [foldl length]; [change (10 ^ Z.of_nat 0) with 1; lia|]. apply Forall_cons in Hf as [He Hf].
    specialize (IH (v * 10 + e) Hf ltac:(lia)). rewrite Nat2Z.inj_succ, Z.pow_succ_r by lia. nia. }
  destruct ds as [|d ds]; [simpl in Hn; lia|]. apply Forall_cons in Hds as [Hd Hds].
  assert (Hd0 : d ≠ 0). { intros ->. specialize (Hl eq_refl). injection Hl as ->. simpl in Hn. lia. }
  unfold horner in Hv. simpl in Hv. specialize (Hp ds d Hds ltac:(lia)).
  assert (10 ^ 10 ≤ 10 ^ Z.of_nat (length ds)) by (cbn [length] in Hn; apply Z.pow_le_mono_r; lia).
  assert (1 * 10 ^ Z.of_nat (length ds) ≤ d * 10 ^ Z.of_nat (length ds)) by (apply Z.mul_le_mono_nonneg_r; lia).
  change (0 * 10 + d) with d in Hv. rewrite Hv in Hp. assert (2 ^ 32 < 10 ^ 10) by (vm_compute; reflexivity). lia.
Qed.

(** Numbers survive printing.  [printint] in base 10 stays inside its
    16-byte buffer for every [int], -2^31 included: it prints an optional minus
    and at most ten digits, from which [atoi] reads back the number (of a
    negative number, behind the minus that [atoi] does not know, its negation). *)
Theorem printint_atoi xx (s : ust) :
  - 2 ^ 31 ≤ xx < 2 ^ 31 →
  ∃ t, prints (printint udigits xx 10 1) s tt ((if bool_decide (xx < 0) then [45] else []) ++ t) ∧
    (length t ≤ 10)%nat ∧ ∀ m a, str_at m a t → atoi a m = Ok (i32 (Z.abs xx), m).
Proof.
  intros Hxx. destruct (printint_ok udigits 10 1 xx s) as (t & (ds & Hn & Ht) & P);
    [by apply udigits_table|apply udigits_bytes|done|done|].
  exists (dec_text ds). simpl in Hn, Ht. split; [by rewrite Ht in P|]. split.
  - unfold dec_text. rewrite length_fmap. apply (numeral_length (Z.abs xx)); [lia|done].
  - intros m a Hl. destruct Hn as [Hv Hds _]. rewrite <-Hv. by apply atoi_ok.
Qed.

Lemma printint_atoi_witness :
  ∃ t, prints (printint udigits (-2147483648) 10 1) (Ust ∅ 1 []) tt ([45] ++ t) ∧ (length t ≤ 10)%nat.
Proof.
  destruct (printint_atoi (-2147483648) (Ust ∅ 1 [])) as (t & P & H & _); [lia|]. exists t. split; [exact P|exact H].
Defined.

(** ** A format *)

(** The bytes of a text of ASCII characters. *)
Fixpoint text (t : string) : list Z :=
  match t with
  | EmptyString => []
  | String c t => Z.of_nat (Ascii.nat_of_ascii c) :: text t
  end.
Definition mem_of (l : list (Z * list Z)) : mem :=
  foldr (λ p m, list_to_map (zip (seqZ p.1 (Z.of_nat (length p.2) + 1)) (p.2 ++ [0])) ∪ m) ∅ l.

(** "pid %d: %s %x%%" with -5, "grep" and 255. *)
Definition demo_pmem : mem := mem_of [(100, text "pid %d: %s %x%%"); (200, text "grep")].
Definition demo_pst : ust := Ust demo_pmem 1 [].

Lemma bytes_dec l : forallb (λ c, (0 <=? c) && (c <? 256)) l = true → Forall (λ c, 0 ≤ c < 256) l.
Proof. rewrite forallb_forall, Forall_forall. intros H c Hc%list_elem_of_In. specialize (H c Hc). lia. Qed.

Lemma demo_rendered : rendered user_dialect demo_pmem (text "pid %d: %s %x%%") [-5; 200; 255] (text "pid -5: grep FF%").
Proof.
  change (text "pid %d: %s %x%%") with (text "pid " ++ 37 :: 100 :: text ": " ++ 37 :: 115 :: text " " ++ 37 :: 120 :: 37 :: 37 :: []).
  do 4 (apply r_char; [discriminate|]). 
  apply (r_conv _ _ 100 _ [-5; 200; 255] [45; 53] [200; 255] (text ": grep FF%")).
  { apply conv_d. exists [5]. split; [|reflexivity]. apply numeral_digit. simpl. lia. }
  do 2 (apply r_char; [discriminate|]).
  apply (r_conv _ _ 115 _ [200; 255] (text "grep") [255] (text " FF%")).
  { apply conv_s; [discriminate| |].
    - apply str_at_dec. vm_compute. reflexivity.
    - apply bytes_dec. reflexivity. }
  apply r_char; [discriminate|]. apply (r_conv _ _ 120 _ [255] [70; 70] [] [37]).
  { apply conv_x. exists [15; 15]. split; [|reflexivity]. constructor; [reflexivity| |discriminate].
    repeat (constructor; [lia|]). constructor. }
  apply (r_conv _ _ 37 [] [] [37] [] []); [apply conv_pct|apply r_nil].
Qed.

(** What is above the low 32 bits of a [%l] argument does not show. *)
Lemma percent_l_low_bits m a k ap t :
  conv user_dialect m 108 (a :: ap) t ap → conv user_dialect m 108 (a + 2 ^ 32 * k :: ap) t ap.
Proof.
  intros H. inversion H as [|? ? ? _ Ht| | | | | | |? ? _ Hn]; subst.
  - apply conv_l; [done|]. replace (i32 (u64 (a + 2 ^ 32 * k))) with (i32 (u64 a)); [done|].
    assert (Hi : ∀ z, i32 (u64 z) = i32 z).
    { intros z. unfold i32, u64. f_equal. pose proof (Z.div_mod z (2 ^ 64) ltac:(lia)) as Hz.
      replace (z + 2 ^ 31) with (z mod 2 ^ 64 + 2 ^ 31 + (2 ^ 32 * (z / 2 ^ 64)) * 2 ^ 32) by lia.
      by rewrite Z.mod_add by lia. }
    rewrite !Hi. unfold i32. f_equal. replace (a + 2 ^ 32 * k + 2 ^ 31) with (a + 2 ^ 31 + k * 2 ^ 32) by lia.
    by rewrite Z.mod_add by lia.
  - exfalso. apply (Hn eq_refl). set_solver.
Qed.

(** A file of 4294967303 bytes is listed as one of 7. *)
Definition demo_long : ust := Ust (mem_of [(100, text "%l")]) 1 [].
Example percent_l_prints_7 :
  vprintf 100 [2 ^ 32 + 7] demo_long = Ok (tt, Ust (u_mem demo_long) 1 [(1, 55)]).
Proof. vm_compute. reflexivity. Qed.

Lemma printf_output_witness :
  prints (vprintf 100 [-5; 200; 255]) demo_pst tt (text "pid -5: grep FF%").
Proof.
  refine (proj1 (printf_output 100 (text "pid %d: %s %x%%") [-5; 200; 255] (text "pid -5: grep FF%") demo_pst I _ _) demo_rendered).
  - apply str_at_dec. vm_compute. reflexivity.
  - apply bytes_dec. reflexivity.
Defined.
