(* ===== verification/ByteRing.v ===== *)
(** * Byte rings: a circular buffer addressed by free-running counters

    uart.c and console.c keep an array of [size] bytes and counters of [w] bits
    that are reduced modulo [size] at every access.  [ring_at] says which bytes
    lie from a counter on; the lemmas are the accesses. *)
From S2P Require Import Prelude.

Section ring.
Context (size w : Z).

Definition ring_at (buf : list Z) (r : Z) (q : list Z) : Prop :=
  Z.of_nat (length buf) = size ∧ Z.of_nat (length q) ≤ size ∧
  ∀ k x, q !! k = Some x → zidx buf ((r + Z.of_nat k) mod size) = Some x.

Context (Hs : 0 < size) (Hw : (size | w)) (Hw0 : 0 < w).

(** Reducing a counter to its width does not change its position. *)
Lemma mod_pos a : (a mod w) mod size = a mod size.
Proof. apply Z.mod_mod_divide. done. Qed.

Lemma ring_shift buf r q : ring_at buf r q → ring_at buf (r mod w) q.
Proof.
  intros (H1 & H2 & H3). split; [done|]. split; [done|]. intros k x Hk. rewrite <-(H3 k x Hk). f_equal.
  rewrite <-Zplus_mod_idemp_l, mod_pos, Zplus_mod_idemp_l. done.
Qed.

Lemma ring_nil buf r : Z.of_nat (length buf) = size → ring_at buf r [].
Proof. intros H. split; [done|]. split; [simpl; lia|]. done. Qed.

Lemma ring_put buf r q x :
  ring_at buf r q → Z.of_nat (length q) < size →
  ∃ buf', zupd buf (((r + Z.of_nat (length q)) mod w) mod size) x = Some buf' ∧ ring_at buf' r (q ++ [x]).
Proof.
  intros (H1 & H2 & H3) Hlt. rewrite mod_pos. set (p := (r + Z.of_nat (length q)) mod size).
  assert (Hp : 0 ≤ p < Z.of_nat (length buf)) by (rewrite H1; apply Z.mod_pos_bound; lia).
  exists (<[Z.to_nat p := x]> buf). split; [by apply zupd_Some|].
  split; [by rewrite length_insert|]. split; [rewrite length_app; simpl; lia|].
  intros k y Hk. rewrite zidx_insert by done. case_decide as Hpk.
  - destruct (decide (k = length q)) as [->|Hne].
    + rewrite lookup_app_r, Nat.sub_diag in Hk by lia. done.
    + assert (Hk' : (k < length q)%nat). { apply lookup_lt_Some in Hk. rewrite length_app in Hk. simpl in Hk. lia. }
      exfalso. unfold p in Hpk. assert (Hd : (Z.of_nat (length q) - Z.of_nat k) mod size = 0).
      { replace (Z.of_nat (length q) - Z.of_nat k) with (r + Z.of_nat (length q) - (r + Z.of_nat k)) by lia.
        rewrite Zminus_mod, Hpk, Z.sub_diag. apply Z.mod_0_l. lia. }
      rewrite Z.mod_small in Hd by lia. lia.
  - apply H3. rewrite lookup_app_l in Hk; [done|]. apply lookup_lt_Some in Hk. rewrite length_app in Hk. simpl in Hk.
    destruct (decide (k = length q)) as [->|]; [by destruct Hpk|lia].
Qed.

Lemma ring_get buf r x q :
  ring_at buf r (x :: q) → zidx buf (r mod size) = Some x ∧ ring_at buf ((r + 1) mod w) q.
Proof.
  intros (H1 & H2 & H3). split.
  - specialize (H3 0%nat x eq_refl). by rewrite Z.add_0_r in H3.
  - apply ring_shift. split; [done|]. split; [simpl in H2; lia|]. intros k y Hk. specialize (H3 (S k) y Hk).
    by replace (r + 1 + Z.of_nat k) with (r + Z.of_nat (S k)) by lia.
Qed.

Lemma ring_last buf r q x :
  ring_at buf r (q ++ [x]) → zidx buf ((r + Z.of_nat (length q)) mod size) = Some x ∧ ring_at buf r q.
Proof.
  intros (H1 & H2 & H3). split.
  - apply (H3 (length q) x). by rewrite lookup_app_r, Nat.sub_diag by lia.
  - split; [done|]. split; [rewrite length_app in H2; lia|]. intros k y Hk. apply H3.
    rewrite lookup_app_l; [done|]. by apply lookup_lt_Some in Hk.
Qed.

(** The difference of two counters at most [size] apart. *)
Lemma mod_diff a n : size < w → 0 ≤ n ≤ size → ((a + n) mod w - a) mod w = n.
Proof.
  intros Hlt Hn. rewrite Zminus_mod_idemp_l. replace (a + n - a) with n by lia. apply Z.mod_small. lia.
Qed.

Lemma mod_same a n m : size < w → 0 ≤ n ≤ size → 0 ≤ m ≤ size → (a + n) mod w = (a + m) mod w ↔ n = m.
Proof.
  intros Hlt Hn Hm. split; [|by intros ->]. intros H.
  rewrite <-(mod_diff a n Hlt Hn), <-(mod_diff a m Hlt Hm). by rewrite H.
Qed.
End ring.
