(* ===== verification/Uart.v ===== *)
(** * The serial port: kernel/uart.c

    The state of the console subsystem, and the UART's half of it: the transmit
    ring that [uartputc] fills and the interrupt empties, and the polled
    [uartputc_sync] of kernel [printf].  The device is modelled by what the
    driver sees of it: the bytes written to THR in order, how many more polls
    of LSR find it busy after each of them, the bytes waiting in RHR, and the
    writes to the other registers. *)
From S2P Require Import Prelude Spinlock CString ByteRing.

(** The 16550: [dev_wait] lists, for the current and the coming bytes, how many
    polls of LSR find the transmitter busy (none when the list ends). *)
Record udev := mkudev { dev_wait : list nat; dev_rx : list Z; dev_tx : list Z; dev_ctl : list (Z * Z) }.

Record uart := mkuart { uart_tx_lock : spinlock; uart_tx_buf : list Z; uart_tx_w : Z; uart_tx_r : Z }.
Record cons := mkcons { cons_lock : spinlock; cons_buf : list Z; cons_r : Z; cons_w : Z; cons_e : Z }.

(** [wakeup(&uart_tx_r)], [wakeup(&cons.r)] and [procdump()] *)
Inductive cevent := WakeTx | WakeCons | Procdump.

Record cst := mkcst {
  c_hart : hart; c_uart : uart; c_cons : cons; c_dev : udev;
  pr_lock : spinlock; pr_locking : Z; c_panicked : Z; c_mem : mem; c_evs : list cevent }.

Definition with_hart (h : hart) (s : cst) : cst :=
  mkcst h (c_uart s) (c_cons s) (c_dev s) (pr_lock s) (pr_locking s) (c_panicked s) (c_mem s) (c_evs s).
Definition with_uart (u : uart) (s : cst) : cst :=
  mkcst (c_hart s) u (c_cons s) (c_dev s) (pr_lock s) (pr_locking s) (c_panicked s) (c_mem s) (c_evs s).
Definition with_cons (c : cons) (s : cst) : cst :=
  mkcst (c_hart s) (c_uart s) c (c_dev s) (pr_lock s) (pr_locking s) (c_panicked s) (c_mem s) (c_evs s).
Definition with_dev (d : udev) (s : cst) : cst :=
  mkcst (c_hart s) (c_uart s) (c_cons s) d (pr_lock s) (pr_locking s) (c_panicked s) (c_mem s) (c_evs s).
Definition with_pr (lk : spinlock) (locking panicked : Z) (s : cst) : cst :=
  mkcst (c_hart s) (c_uart s) (c_cons s) (c_dev s) lk locking panicked (c_mem s) (c_evs s).
Definition with_evs (l : list cevent) (s : cst) : cst :=
  mkcst (c_hart s) (c_uart s) (c_cons s) (c_dev s) (pr_lock s) (pr_locking s) (c_panicked s) (c_mem s) l.

Definition emit (e : cevent) : M cst unit := modify (λ s, with_evs (c_evs s ++ [e]) s).

(** The three spin locks. *)
Inductive clock := TxLock | ConsLock | PrLock.
Definition with_tx_lock (lk : spinlock) (u : uart) : uart := mkuart lk (uart_tx_buf u) (uart_tx_w u) (uart_tx_r u).
Definition with_cons_lock (lk : spinlock) (c : cons) : cons := mkcons lk (cons_buf c) (cons_r c) (cons_w c) (cons_e c).
#[export] Instance console_locks : HasLocks cst clock := {
  get_hart := c_hart;
  set_hart := with_hart;
  get_lock l s := match l with TxLock => uart_tx_lock (c_uart s) | ConsLock => cons_lock (c_cons s) | PrLock => pr_lock s end;
  set_lock l lk s := match l with
    | TxLock => with_uart (with_tx_lock lk (c_uart s)) s
    | ConsLock => with_cons (with_cons_lock lk (c_cons s)) s
    | PrLock => with_pr lk (pr_locking s) (c_panicked s) s
    end }.

(** ** Registers *)

(** [ReadReg(LSR) & LSR_TX_IDLE] *)
Definition lsr_tx_idle : M cst bool := λ s,
  let d := c_dev s in
  match dev_wait d with
  | S k :: l => Ok (false, with_dev (mkudev (k :: l) (dev_rx d) (dev_tx d) (dev_ctl d)) s)
  | _ => Ok (true, s)
  end.
(** [WriteReg(THR, c)] *)
Definition write_thr (c : Z) : M cst unit := modify (λ s,
  let d := c_dev s in with_dev (mkudev (tl (dev_wait d)) (dev_rx d) (dev_tx d ++ [u8 c]) (dev_ctl d)) s).
(** [WriteReg] of another register. *)
Definition write_reg (r v : Z) : M cst unit := modify (λ s,
  let d := c_dev s in with_dev (mkudev (dev_wait d) (dev_rx d) (dev_tx d) (dev_ctl d ++ [(r, v)])) s).

Definition IER : Z := 1.
Definition FCR : Z := 2.
Definition LCR : Z := 3.
Definition IER_RX_ENABLE : Z := Z.shiftl 1 0.
Definition IER_TX_ENABLE : Z := Z.shiftl 1 1.
Definition FCR_FIFO_ENABLE : Z := Z.shiftl 1 0.
Definition FCR_FIFO_CLEAR : Z := Z.shiftl 3 1.
Definition LCR_EIGHT_BITS : Z := Z.shiftl 3 0.
Definition LCR_BAUD_LATCH : Z := Z.shiftl 1 7.
Definition UART_TX_BUF_SIZE : Z := 32.

Definition uartinit : M cst unit :=
  write_reg IER 0 ;;
  write_reg LCR LCR_BAUD_LATCH ;;
  write_reg 0 3 ;;
  write_reg 1 0 ;;
  write_reg LCR LCR_EIGHT_BITS ;;
  write_reg FCR (Z.lor FCR_FIFO_ENABLE FCR_FIFO_CLEAR) ;;
  write_reg IER (Z.lor IER_TX_ENABLE IER_RX_ENABLE) ;;
  modify (λ s, with_uart (with_tx_lock (initlock "uart") (c_uart s)) s).

(** ** Transmission *)

(** [uart_tx_buf[uart_tx_w % UART_TX_BUF_SIZE] = c; uart_tx_w += 1] *)
Definition tx_put (c : Z) : M cst unit := λ s,
  let u := c_uart s in
  match zupd (uart_tx_buf u) (uart_tx_w u mod UART_TX_BUF_SIZE) (u8 c) with
  | Some b => Ok (tt, with_uart (mkuart (uart_tx_lock u) b (u64 (uart_tx_w u + 1)) (uart_tx_r u)) s)
  | None => Fault
  end.
(** [c = uart_tx_buf[uart_tx_r % UART_TX_BUF_SIZE]; uart_tx_r += 1] *)
Definition tx_take : M cst Z := λ s,
  let u := c_uart s in
  match zidx (uart_tx_buf u) (uart_tx_r u mod UART_TX_BUF_SIZE) with
  | Some c => Ok (c, with_uart (mkuart (uart_tx_lock u) (uart_tx_buf u) (uart_tx_w u) (u64 (uart_tx_r u + 1))) s)
  | None => Fault
  end.

(** Each round of the loop sends a byte: at most the whole ring. *)
Fixpoint uartstart_loop (fuel : nat) : M cst unit :=
  match fuel with
  | O => hang
  | S fuel =>
      u ← gets c_uart;
      if bool_decide (uart_tx_w u = uart_tx_r u) then mret tt
      else
        idle ← lsr_tx_idle;
        if negb idle then mret tt
        else c ← tx_take; emit WakeTx ;; write_thr c ;; uartstart_loop fuel
  end.
Definition uartstart : M cst unit := uartstart_loop (S (Z.to_nat UART_TX_BUF_SIZE)).

(** [uartputc] from the test of [panicked], the lock taken: [true] when it
    returned, [false] when it went to sleep on [uart_tx_r], which gives up the
    lock.  A sleeper that is woken takes the lock again ([uartputc_again]). *)
Definition uartputc_round (c : Z) : M cst bool :=
  u ← gets c_uart;
  if bool_decide (uart_tx_w u = u64 (uart_tx_r u + UART_TX_BUF_SIZE)) then
    releaseM TxLock ;; mret false
  else
    tx_put c ;; uartstart ;; releaseM TxLock ;; mret true.
Definition uartputc (c : Z) : M cst bool :=
  acquireM TxLock ;;
  p ← gets c_panicked;
  if bool_decide (p ≠ 0) then hang else uartputc_round c.
Definition uartputc_again (c : Z) : M cst bool := acquireM TxLock ;; uartputc_round c.

(** The polls of LSR until it is idle. *)
Fixpoint spin_tx (fuel : nat) : M cst unit :=
  match fuel with
  | O => hang
  | S fuel => idle ← lsr_tx_idle; if negb idle then spin_tx fuel else mret tt
  end.
Definition pushM : M cst unit := modify (λ s, with_hart (push_off (c_hart s)) s).
Definition popM : M cst unit := λ s, h ← pop_off (c_hart s); Ok (tt, with_hart h s).
Definition uartputc_sync (c : Z) : M cst unit :=
  pushM ;;
  p ← gets c_panicked;
  if bool_decide (p ≠ 0) then hang
  else
    w ← gets (λ s, hd 0%nat (dev_wait (c_dev s)));
    spin_tx (S w) ;;
    write_thr c ;;
    popM.

(** ** Reception *)
Definition uartgetc : M cst Z := λ s,
  let d := c_dev s in
  match dev_rx d with
  | c :: l => Ok (c, with_dev (mkudev (dev_wait d) l (dev_tx d) (dev_ctl d)) s)
  | [] => Ok (-1, s)
  end.

(** The end of [uartintr]: send buffered characters. *)
Definition uartintr_tx : M cst unit := acquireM TxLock ;; uartstart ;; releaseM TxLock.
