(* ===== verification/UartClaims.v ===== *)
(** * Correctness of the serial port driver

    The transmit ring as a queue of bytes; [uart_sends] shows that any sequence
    of calls and interrupts transmits the accepted bytes in order, and
    [uart_drains] that the interrupts empty the ring. *)
From S2P Require Import Prelude Spinlock Sleeplock CString ByteRing Uart.

(** The queue [q] is in the ring. *)
Record tx_rep (u : uart) (q : list Z) : Prop := {
  tx_ring : ring_at UART_TX_BUF_SIZE (uart_tx_buf u) (uart_tx_r u) q;
  tx_rd : 0 ≤ uart_tx_r u < 2 ^ 64;
  tx_wr : uart_tx_w u = u64 (uart_tx_r u + Z.of_nat (length q));
  tx_bytes : Forall (λ c, 0 ≤ c < 256) q }.

(** Between calls: nobody in a critical section, no panic. *)
Record calm (s : cst) : Prop := {
  cm_hart : hart_good (c_hart s);
  cm_tx : lock_quiet (uart_tx_lock (c_uart s));
  cm_cons : lock_quiet (cons_lock (c_cons s));
  cm_pr : lock_quiet (pr_lock s);
  cm_run : c_panicked s = 0 }.

Lemma tx_div : (UART_TX_BUF_SIZE | 2 ^ 64).
Proof. by exists (2 ^ 59). Qed.

Lemma tx_size : 0 < UART_TX_BUF_SIZE.
Proof. reflexivity. Qed.

Lemma tx_empty u q : tx_rep u q → uart_tx_w u = uart_tx_r u ↔ q = [].
Proof.
  intros [(_ & Hl & _) Hr Hw _]. rewrite Hw. rewrite <-(u64_small (uart_tx_r u)) at 2 by done.
  replace (uart_tx_r u) with (uart_tx_r u + 0) at 2 by lia. unfold u64.
  rewrite mod_same with (size := UART_TX_BUF_SIZE) by (unfold UART_TX_BUF_SIZE in *; lia). destruct q; simpl; split; intros; try done; lia.
Qed.

Lemma tx_full u q : tx_rep u q → uart_tx_w u = u64 (uart_tx_r u + UART_TX_BUF_SIZE) ↔ Z.of_nat (length q) = UART_TX_BUF_SIZE.
Proof.
  intros [(_ & Hl & _) Hr Hw _]. rewrite Hw. unfold u64.
  apply mod_same with (size := UART_TX_BUF_SIZE); unfold UART_TX_BUF_SIZE in *; lia.
Qed.

(** What transmission may change. *)
Definition tx_frame (s s' : cst) : Prop :=
  c_hart s' = c_hart s ∧ c_cons s' = c_cons s ∧ pr_lock s' = pr_lock s ∧ pr_locking s' = pr_locking s ∧
  c_panicked s' = c_panicked s ∧ c_mem s' = c_mem s ∧ uart_tx_lock (c_uart s') = uart_tx_lock (c_uart s) ∧
  dev_rx (c_dev s') = dev_rx (c_dev s).

Lemma tx_frame_refl s : tx_frame s s.
Proof. done. Qed.
Lemma tx_frame_trans s1 s2 s3 : tx_frame s1 s2 → tx_frame s2 s3 → tx_frame s1 s3.
Proof. unfold tx_frame. intros. naive_solver congruence. Qed.

Definition tx_idle (s : cst) : bool := match dev_wait (c_dev s) with S _ :: _ => false | _ => true end.
Definition line (s : cst) : list Z := dev_tx (c_dev s).

Lemma lsr_ok s : ∃ s', lsr_tx_idle s = Ok (tx_idle s, s') ∧ c_uart s' = c_uart s ∧ line s' = line s ∧ tx_frame s s' ∧
  (tx_idle s = true → s' = s) ∧ c_evs s' = c_evs s.
Proof.
  unfold lsr_tx_idle, tx_idle. destruct (dev_wait (c_dev s)) as [|[|k] l] eqn:E; eexists; (split; [done|]); done.
Qed.

Lemma uartstart_loop_ok fuel q s :
  tx_rep (c_uart s) q → (length q < fuel)%nat →
  ∃ k s', uartstart_loop fuel s = Ok (tt, s') ∧ tx_rep (c_uart s') (drop k q) ∧ line s' = line s ++ take k q ∧
    tx_frame s s' ∧ (tx_idle s = true → q = [] ∨ (0 < k)%nat) ∧ c_evs s' = c_evs s ++ ((λ _, WakeTx) <$> take k q).
Proof.
  revert q s. induction fuel as [|fuel IH]; intros q s Hq Hf; [lia|]. cbn [uartstart_loop]. rewrite gets_bind.
  destruct q as [|c q].
  - rewrite bool_decide_true by (by apply (tx_empty _ [])). exists 0%nat, s. simpl. rewrite !app_nil_r.
    split; [done|]. split; [done|]. split; [done|]. split; [done|]. split; [by left|done].
  - rewrite bool_decide_false by (by rewrite (tx_empty _ (c :: q))).
    destruct (lsr_ok s) as (s1 & E1 & Hu1 & Hl1 & Hf1 & Hi1 & He1). rewrite (bind_Ok_eq _ _ _ _ _ E1).
    destruct (tx_idle s) eqn:Ei; cbv beta; cbn [negb].
    2: { exists 0%nat, s1. simpl take. simpl drop. rewrite !app_nil_r, Hu1. done. }
    rewrite (Hi1 eq_refl) in *. clear E1 Hi1 Hu1 Hl1 Hf1 He1.
    destruct Hq as [Hr Hrd Hw Hb]. apply ring_get with (w := 2 ^ 64) in Hr as [Ec Hr]; [|apply tx_div].
    set (u' := mkuart (uart_tx_lock (c_uart s)) (uart_tx_buf (c_uart s)) (uart_tx_w (c_uart s)) (u64 (uart_tx_r (c_uart s) + 1))).
    assert (Et : tx_take s = Ok (c, with_uart u' s)) by (unfold tx_take; by rewrite Ec).
    rewrite (bind_Ok_eq _ _ _ _ _ Et). unfold emit. rewrite modify_bind. unfold write_thr. rewrite modify_bind.
    set (s2 := with_dev _ _). apply Forall_cons in Hb as [Hc Hb].
    assert (Hq2 : tx_rep (c_uart s2) q).
    { constructor; [exact Hr|apply Z.mod_pos_bound; lia| |done]. simpl. rewrite Hw. unfold u64. rewrite Zplus_mod_idemp_l.
      f_equal. simpl length. lia. }
    destruct (IH q s2 Hq2) as (k & s3 & E3 & R3 & L3 & F3 & _ & V3); [simpl in Hf; lia|].
    exists (S k), s3. split; [done|]. split; [done|]. split.
    + rewrite L3. unfold line, s2. simpl. unfold u8. rewrite Z.mod_small by done. by rewrite <-app_assoc.
    + split; [|split; [intros _; right; lia|]].
      * eapply tx_frame_trans; [|exact F3]. done.
      * rewrite V3. unfold s2. simpl. by rewrite <- app_assoc.
Qed.

Lemma uartstart_ok q s :
  tx_rep (c_uart s) q → ∃ k s', uartstart s = Ok (tt, s') ∧ tx_rep (c_uart s') (drop k q) ∧ line s' = line s ++ take k q ∧
    tx_frame s s' ∧ (tx_idle s = true → q = [] ∨ (0 < k)%nat) ∧ c_evs s' = c_evs s ++ ((λ _, WakeTx) <$> take k q).
Proof.
  intros Hq. apply uartstart_loop_ok; [done|]. destruct Hq as [(_ & H & _) _ _ _]. unfold UART_TX_BUF_SIZE in *. simpl. lia.
Qed.

(** ** The critical sections *)

Lemma lock_ok l s : lock_quiet (get_lock l s) → acquireM (L := clock) l s = Ok (tt, with_hart (push_off (c_hart s)) (set_lock l (held_by (hartid (c_hart s)) (get_lock l s)) s)).
Proof. intros H. unfold acquireM. cbn. by rewrite acquire_quiet. Qed.

Lemma unlock_ok l s lk h :
  lock_quiet lk → hart_good h → c_hart s = push_off h → get_lock l s = held_by (hartid h) lk →
  releaseM (L := clock) l s = Ok (tt, with_hart h (set_lock l lk s)).
Proof. intros Hk Hh Eh El. unfold releaseM. rewrite El. simpl get_hart. rewrite Eh, release_quiet by done. done. Qed.

(** Calm states stay calm through [tx_frame] and the lock operations. *)
Lemma calm_frame s s' : tx_frame s s' → calm s → calm s'.
Proof.
  intros (Eh & Ec & Ep & El & Epn & Em & Et & Er) []. constructor; congruence.
Qed.

Definition locked_tx (s : cst) : cst :=
  with_hart (push_off (c_hart s)) (with_uart (with_tx_lock (held_by (hartid (c_hart s)) (uart_tx_lock (c_uart s))) (c_uart s)) s).
Definition unlocked_tx (h : hart) (lk : spinlock) (s : cst) : cst := with_hart h (with_uart (with_tx_lock lk (c_uart s)) s).

Lemma lock_tx_ok s : calm s → acquireM TxLock s = Ok (tt, locked_tx s).
Proof. intros [_ H _ _ _]. by apply (lock_ok TxLock). Qed.

Lemma unlock_tx_ok s s' : calm s → tx_frame (locked_tx s) s' →
  releaseM TxLock s' = Ok (tt, unlocked_tx (c_hart s) (uart_tx_lock (c_uart s)) s') ∧
  tx_frame s (unlocked_tx (c_hart s) (uart_tx_lock (c_uart s)) s').
Proof.
  intros [Hh Hl _ _ _] (Eh & Ec & Ep & El & Epn & Em & Et & Er). split; [|done].
  by apply (unlock_ok TxLock).
Qed.

Lemma tx_rep_lock lk u q : tx_rep u q → tx_rep (with_tx_lock lk u) q.
Proof. intros []. by constructor. Qed.

Lemma tx_put_ok s q c : tx_rep (c_uart s) q → Z.of_nat (length q) < UART_TX_BUF_SIZE →
  ∃ s', tx_put c s = Ok (tt, s') ∧ tx_rep (c_uart s') (q ++ [u8 c]) ∧ line s' = line s ∧ tx_frame s s' ∧ c_dev s' = c_dev s.
Proof.
  intros [Hr Hrd Hw Hb] Hl. destruct (ring_put _ (2 ^ 64) tx_size tx_div _ _ _ (u8 c) Hr Hl) as (b & E & Hr').
  unfold tx_put. rewrite Hw. unfold u64 at 1. rewrite E. eexists. split; [done|]. split; [|done].
  constructor; [done|done| |].
  - simpl. unfold u64. rewrite Zplus_mod_idemp_l, length_app. f_equal. simpl. lia.
  - apply Forall_app. split; [done|]. constructor; [apply Z.mod_pos_bound; lia|done].
Qed.

(** One call of [uartputc], up to where it returns or sleeps. *)
Lemma uartputc_ok s q c :
  calm s → tx_rep (c_uart s) q →
  ∃ b s', uartputc c s = Ok (b, s') ∧ uartputc_again c s = Ok (b, s') ∧ calm s' ∧ tx_frame s s' ∧
    (b = false ∧ Z.of_nat (length q) = UART_TX_BUF_SIZE ∧ tx_rep (c_uart s') q ∧ line s' = line s ∨
     b = true ∧ Z.of_nat (length q) < UART_TX_BUF_SIZE ∧
       ∃ q1 q2, q ++ [u8 c] = q1 ++ q2 ∧ tx_rep (c_uart s') q2 ∧ line s' = line s ++ q1).
Proof.
  intros Hc Hq. set (s1 := locked_tx s).
  assert (Hq1 : tx_rep (c_uart s1) q) by by apply tx_rep_lock.
  assert (Hrun : ∃ b s', uartputc_round c s1 = Ok (b, s') ∧ calm s' ∧ tx_frame s s' ∧
    (b = false ∧ Z.of_nat (length q) = UART_TX_BUF_SIZE ∧ tx_rep (c_uart s') q ∧ line s' = line s ∨
     b = true ∧ Z.of_nat (length q) < UART_TX_BUF_SIZE ∧
       ∃ q1 q2, q ++ [u8 c] = q1 ++ q2 ∧ tx_rep (c_uart s') q2 ∧ line s' = line s ++ q1)).
  { unfold uartputc_round. rewrite gets_bind. case_bool_decide as Hfull; rewrite (tx_full _ _ Hq1) in Hfull.
    - destruct (unlock_tx_ok s s1 Hc) as [Eu Fu]; [done|]. rewrite (bind_Ok_eq _ _ _ _ _ Eu).
      eexists false, _. split; [done|]. split; [by eapply calm_frame|]. split; [done|]. left.
      split; [done|]. split; [done|]. split; [by do 2 apply tx_rep_lock|done].
    - assert (Hlt : Z.of_nat (length q) < UART_TX_BUF_SIZE) by (destruct Hq as [(_ & ? & _) _ _ _]; lia).
      destruct (tx_put_ok s1 q c Hq1 Hlt) as (s2 & E2 & Q2 & L2 & F2 & _). rewrite (bind_Ok_eq _ _ _ _ _ E2).
      destruct (uartstart_ok _ s2 Q2) as (k & s3 & E3 & Q3 & L3 & F3 & _). rewrite (bind_Ok_eq _ _ _ _ _ E3).
      destruct (unlock_tx_ok s s3 Hc) as [Eu Fu]; [by eapply tx_frame_trans|]. rewrite (bind_Ok_eq _ _ _ _ _ Eu).
      eexists true, _. split; [done|]. split; [by eapply calm_frame|]. split; [done|]. right.
      split; [done|]. split; [done|]. exists (take k (q ++ [u8 c])), (drop k (q ++ [u8 c])).
      split; [by rewrite take_drop|]. split; [by apply tx_rep_lock|]. change (line s3 = line s ++ take k (q ++ [u8 c])). by rewrite L3, L2. }
  destruct Hrun as (b & s' & E & H). exists b, s'. split; [|split; [|done]].
  - unfold uartputc. rewrite (bind_Ok_eq _ _ _ _ _ (lock_tx_ok s Hc)), gets_bind.
    rewrite bool_decide_false; [done|]. intros Hp. apply Hp. by apply Hc.
  - unfold uartputc_again. by rewrite (bind_Ok_eq _ _ _ _ _ (lock_tx_ok s Hc)).
Qed.

Lemma uartintr_tx_ok s q :
  calm s → tx_rep (c_uart s) q →
  ∃ s' q1 q2, uartintr_tx s = Ok (tt, s') ∧ calm s' ∧ tx_frame s s' ∧ q = q1 ++ q2 ∧
    tx_rep (c_uart s') q2 ∧ line s' = line s ++ q1 ∧ (tx_idle s = true → q = [] ∨ q1 ≠ []) ∧
    c_evs s' = c_evs s ++ ((λ _, WakeTx) <$> q1).
Proof.
  intros Hc Hq. unfold uartintr_tx. rewrite (bind_Ok_eq _ _ _ _ _ (lock_tx_ok s Hc)).
  destruct (uartstart_ok q (locked_tx s)) as (k & s3 & E3 & Q3 & L3 & F3 & I3 & V3); [by apply tx_rep_lock|].
  rewrite (bind_Ok_eq _ _ _ _ _ E3). destruct (unlock_tx_ok s s3 Hc F3) as [Eu Fu].
  eexists _, (take k q), (drop k q). split; [exact Eu|]. split; [by eapply calm_frame|]. split; [done|].
  split; [by rewrite take_drop|]. split; [by apply tx_rep_lock|]. split; [exact L3|].
  split; [|exact V3]. intros Hi. destruct (I3 Hi) as [->|Hk]; [by left|]. destruct q as [|c q]; [by left|]. right. destruct k; [lia|done].
Qed.

(** Characters sent by polling change the device and nothing else. *)
Definition typed (s s' : cst) (l : list Z) : Prop :=
  ∃ d, s' = with_dev d s ∧ dev_rx d = dev_rx (c_dev s) ∧ dev_tx d = dev_tx (c_dev s) ++ l.

Lemma typed_refl s : typed s s [].
Proof. exists (c_dev s). rewrite app_nil_r. by destruct s. Qed.
Lemma typed_trans s1 s2 s3 l1 l2 : typed s1 s2 l1 → typed s2 s3 l2 → typed s1 s3 (l1 ++ l2).
Proof.
  intros (d1 & -> & R1 & T1) (d2 & -> & R2 & T2). exists d2. split; [done|]. simpl in R2, T2.
  by rewrite R2, T2, R1, T1, app_assoc.
Qed.
Lemma typed_line s s' l : typed s s' l → c_uart s' = c_uart s ∧ line s' = line s ++ l ∧ tx_frame s s'.
Proof. by intros (d & -> & R & T). Qed.

Lemma spin_tx_ok k l s : dev_wait (c_dev s) = l → hd 0%nat l = k → ∃ s', spin_tx (S k) s = Ok (tt, s') ∧ typed s s' [].
Proof.
  revert l s. induction k as [|k IH]; intros l s El Ek; cbn [spin_tx].
  - assert (Ei : lsr_tx_idle s = Ok (true, s)). { unfold lsr_tx_idle. rewrite El. destruct l as [|[|j] l]; done. }
    rewrite (bind_Ok_eq _ _ _ _ _ Ei). exists s. split; [done|apply typed_refl].
  - destruct l as [|j l]; [done|]. simpl in Ek. subst j.
    assert (Ei : lsr_tx_idle s = Ok (false, with_dev (mkudev (k :: l) (dev_rx (c_dev s)) (dev_tx (c_dev s)) (dev_ctl (c_dev s))) s)).
    { unfold lsr_tx_idle. by rewrite El. }
    rewrite (bind_Ok_eq _ _ _ _ _ Ei). simpl negb. cbv iota. set (s1 := with_dev _ _).
    destruct (IH (k :: l) s1 eq_refl eq_refl) as (s' & E & Ht). exists s'. split; [exact E|].
    apply (typed_trans s s1 s' [] []); [|done]. eexists. split; [done|]. by rewrite app_nil_r.
Qed.

Lemma uartputc_sync_ok s c : hart_good (c_hart s) → c_panicked s = 0 → ∃ s', uartputc_sync c s = Ok (tt, s') ∧ typed s s' [u8 c].
Proof.
  intros [Hh Hg] Hp. unfold uartputc_sync, pushM. rewrite modify_bind, gets_bind. set (s1 := with_hart _ s).
  rewrite bool_decide_false by (intros Hp'; by apply Hp'). rewrite gets_bind.
  destruct (spin_tx_ok (hd 0%nat (dev_wait (c_dev s1))) (dev_wait (c_dev s1)) s1) as (s2 & E2 & d & -> & R & T); [done..|].
  rewrite (bind_Ok_eq _ _ _ _ _ E2). unfold write_thr. rewrite modify_bind. eexists. split.
  - unfold popM. simpl c_hart. rewrite pop_push_off by done. simpl. rewrite Hg. done.
  - exists (mkudev (tl (dev_wait d)) (dev_rx d) (dev_tx d ++ [u8 c]) (dev_ctl d)). split; [by destruct s|].
    split; [done|]. simpl. rewrite T. by rewrite app_nil_r.
Qed.

(** ** Sequences of calls and interrupts *)

(** A call of [uartputc], a sleeper of [uartputc] that runs again, the transmit
    half of an interrupt, a polled character, and the device becoming idle. *)
Inductive uop := UPut (c : Z) | UAgain (c : Z) | UIntr | USync (c : Z) | UIdle.

Definition dev_ready : M cst unit := modify (λ s,
  let d := c_dev s in with_dev (mkudev (0%nat :: tl (dev_wait d)) (dev_rx d) (dev_tx d) (dev_ctl d)) s).

(** The bytes that the operation put into the ring. *)
Definition uart_op (o : uop) : M cst (list Z) :=
  match o with
  | UPut c => b ← uartputc c; mret (if (b : bool) then [u8 c] else [])
  | UAgain c => b ← uartputc_again c; mret (if (b : bool) then [u8 c] else [])
  | UIntr => uartintr_tx ;; mret []
  | USync c => uartputc_sync c ;; mret []
  | UIdle => dev_ready ;; mret []
  end.
Fixpoint uart_run (ops : list uop) : M cst (list Z) :=
  match ops with
  | [] => mret []
  | o :: ops => l ← uart_op o; l' ← uart_run ops; mret (l ++ l')
  end.
(** Interrupts of an idle transmitter. *)
Fixpoint uart_drain (k : nat) : M cst unit :=
  match k with O => mret tt | S k => dev_ready ;; uartintr_tx ;; uart_drain k end.

(** Transmitted bytes are marked with whether they went through the ring. *)
Definition ringed (out : list (bool * Z)) : list Z := out ≫= (λ p, if (p.1 : bool) then [p.2] else []).
Definition polled (out : list (bool * Z)) : list Z := out ≫= (λ p, if (p.1 : bool) then [] else [p.2]).
Definition mark (b : bool) (l : list Z) : list (bool * Z) := pair b <$> l.
Definition sync_chars (ops : list uop) : list Z := ops ≫= (λ o, match o with USync c => [u8 c] | _ => [] end).

Lemma ringed_app l1 l2 : ringed (l1 ++ l2) = ringed l1 ++ ringed l2.
Proof. apply bind_app. Qed.
Lemma polled_app l1 l2 : polled (l1 ++ l2) = polled l1 ++ polled l2.
Proof. apply bind_app. Qed.
Lemma mark_snd b l : (mark b l).*2 = l.
Proof. unfold mark. rewrite <-list_fmap_compose. apply list_fmap_id. Qed.
Lemma ringed_mark b l : ringed (mark b l) = if b then l else [].
Proof. unfold ringed, mark. induction l as [|x l IH]; [by destruct b|]. rewrite fmap_cons, bind_cons, IH. by destruct b. Qed.
Lemma polled_mark b l : polled (mark b l) = if b then [] else l.
Proof. unfold polled, mark. induction l as [|x l IH]; [by destruct b|]. rewrite fmap_cons, bind_cons, IH. by destruct b. Qed.

(** One operation: it transmits [out], of which the ring's part continues the queue. *)
Definition op_effect (s s' : cst) (q acc q' : list Z) (out : list (bool * Z)) (sync : list Z) : Prop :=
  calm s' ∧ tx_rep (c_uart s') q' ∧ line s' = line s ++ out.*2 ∧ q ++ acc = ringed out ++ q' ∧ polled out = sync.

Lemma putc_effect s s' q c (b : bool) :
  calm s' → (b = false ∧ Z.of_nat (length q) = UART_TX_BUF_SIZE ∧ tx_rep (c_uart s') q ∧ line s' = line s ∨
     b = true ∧ Z.of_nat (length q) < UART_TX_BUF_SIZE ∧
       ∃ q1 q2, q ++ [u8 c] = q1 ++ q2 ∧ tx_rep (c_uart s') q2 ∧ line s' = line s ++ q1) →
  ∃ out q', op_effect s s' q (if b then [u8 c] else []) q' out [].
Proof.
  intros Hc [(-> & _ & Hq & Hl)|(-> & _ & q1 & q2 & Hq & Hr & Hl)].
  - exists [], q. split; [done|]. split; [done|]. simpl. by rewrite !app_nil_r.
  - exists (mark true q1), q2. split; [done|]. split; [done|]. rewrite mark_snd, ringed_mark, polled_mark. done.
Qed.

Lemma uart_op_ok o s q : calm s → tx_rep (c_uart s) q →
  ∃ acc s' out q', uart_op o s = Ok (acc, s') ∧ op_effect s s' q acc q' out (sync_chars [o]).
Proof.
  intros Hc Hq. destruct o as [c|c| |c|]; cbn [uart_op].
  - destruct (uartputc_ok s q c Hc Hq) as (b & s' & E & _ & Hc' & _ & H). rewrite (bind_Ok_eq _ _ _ _ _ E).
    destruct (putc_effect s s' q c b Hc' H) as (out & q' & He). by eexists _, s', out, q'.
  - destruct (uartputc_ok s q c Hc Hq) as (b & s' & _ & E & Hc' & _ & H). rewrite (bind_Ok_eq _ _ _ _ _ E).
    destruct (putc_effect s s' q c b Hc' H) as (out & q' & He). by eexists _, s', out, q'.
  - destruct (uartintr_tx_ok s q Hc Hq) as (s' & q1 & q2 & E & Hc' & _ & Eq & Hr & Hl & _). rewrite (bind_Ok_eq _ _ _ _ _ E).
    exists [], s', (mark true q1), q2. split; [done|]. split; [done|]. split; [done|].
    rewrite mark_snd, ringed_mark, polled_mark, app_nil_r. done.
  - destruct (uartputc_sync_ok s c) as (s' & E & (Eu & Hl & Hf)%typed_line); [apply Hc..|]. rewrite (bind_Ok_eq _ _ _ _ _ E).
    exists [], s', (mark false [u8 c]), q. split; [done|]. split; [by eapply calm_frame|]. split; [by rewrite Eu|].
    rewrite mark_snd, ringed_mark, polled_mark, app_nil_r. done.
  - exists [], (with_dev (mkudev (0%nat :: tl (dev_wait (c_dev s))) (dev_rx (c_dev s)) (dev_tx (c_dev s)) (dev_ctl (c_dev s))) s), [], q.
    split; [done|]. split; [by destruct Hc|]. split; [done|]. simpl. by rewrite !app_nil_r.
Qed.

Lemma uart_run_ok ops s q : calm s → tx_rep (c_uart s) q →
  ∃ acc s' out q', uart_run ops s = Ok (acc, s') ∧ op_effect s s' q acc q' out (sync_chars ops).
Proof.
  revert s q. induction ops as [|o ops IH]; intros s q Hc Hq.
  - exists [], s, [], q. split; [done|]. split; [done|]. split; [done|]. simpl. by rewrite !app_nil_r.
  - destruct (uart_op_ok o s q Hc Hq) as (l1 & s1 & o1 & q1 & E1 & C1 & R1 & L1 & Q1 & P1).
    destruct (IH s1 q1 C1 R1) as (l2 & s2 & o2 & q2 & E2 & C2 & R2 & L2 & Q2 & P2).
    exists (l1 ++ l2), s2, (o1 ++ o2), q2. split.
    { cbn [uart_run]. by rewrite (bind_Ok_eq _ _ _ _ _ E1), (bind_Ok_eq _ _ _ _ _ E2). }
    split; [done|]. split; [done|]. split; [by rewrite L2, L1, fmap_app, app_assoc|].
    split; [by rewrite ringed_app, app_assoc, Q1, <-!app_assoc, Q2|]. rewrite polled_app, P1, P2. simpl. by rewrite app_nil_r.
Qed.

Lemma uart_drain_ok k s q : calm s → tx_rep (c_uart s) q → (length q ≤ k)%nat →
  ∃ s', uart_drain k s = Ok (tt, s') ∧ calm s' ∧ tx_rep (c_uart s') [] ∧ line s' = line s ++ q.
Proof.
  revert s q. induction k as [|k IH]; intros s q Hc Hq Hk; cbn [uart_drain].
  - destruct q; [|simpl in Hk; lia]. exists s. by rewrite app_nil_r.
  - unfold dev_ready. rewrite modify_bind. set (s1 := with_dev _ s). assert (Hc1 : calm s1) by by destruct Hc.
    destruct (uartintr_tx_ok s1 q Hc1 Hq) as (s2 & q1 & q2 & E & Hc2 & _ & -> & Hr & Hl & Hp). rewrite (bind_Ok_eq _ _ _ _ _ E).
    destruct (IH s2 q2 Hc2 Hr) as (s3 & E3 & Hc3 & Hr3 & Hl3).
    { rewrite length_app in Hk. destruct (proj1 Hp eq_refl) as [He|He]; [destruct q1, q2; simpl in *; try done; lia|].
      destruct q1; [done|]. simpl in Hk. lia. }
    exists s3. split; [done|]. split; [done|]. split; [done|]. rewrite Hl3, Hl. by rewrite <-app_assoc.
Qed.

(** C28: the serial line delivers what it accepted.  Whatever the order of
    [uartputc] calls (also those that slept on a full ring), interrupts, polled
    characters and busy spells of the device, every operation ends without
    panic, the bytes that went through the ring leave it in the order in which
    [uartputc] accepted them, polled characters are sent at once and in order,
    at most 32 bytes wait in the ring, and each of them is on the line after
    that many interrupts of an idle transmitter. *)
Theorem uart_delivers ops s :
  calm s → tx_rep (c_uart s) [] →
  ∃ acc s' out q s2, uart_run ops s = Ok (acc, s') ∧
    line s' = line s ++ out.*2 ∧ acc = ringed out ++ q ∧ polled out = sync_chars ops ∧
    Z.of_nat (length q) ≤ UART_TX_BUF_SIZE ∧
    uart_drain (length q) s' = Ok (tt, s2) ∧ line s2 = line s' ++ q ∧ tx_rep (c_uart s2) [].
Proof.
  intros Hc Hq. destruct (uart_run_ok ops s [] Hc Hq) as (acc & s' & out & q & E & C & R & L & Q & P).
  destruct (uart_drain_ok (length q) s' q C R) as (s2 & E2 & _ & R2 & L2); [lia|].
  exists acc, s', out, q, s2. split; [done|]. split; [done|]. split; [done|]. split; [done|].
  split; [by destruct R as [(_ & H & _) _ _ _]|]. done.
Qed.

(** ** After [uartinit] and [consoleinit]: the first bytes *)
Definition cst0 : cst :=
  mkcst (mkhart 0 true 0 true) (mkuart (mklock "" 0 None) (replicate 32 0) 0 0) (mkcons (mklock "" 0 None) (replicate 128 0) 0 0 0)
    (mkudev [0; 2]%nat [] [] []) (mklock "" 0 None) 0 0 ∅ [].

(** The second byte finds the device busy and waits in the ring; kernel
    [printf] overtakes it. *)
Definition demo_uops : list uop := [UPut 65; UPut 66; USync 67; UIntr].

Lemma cst0_calm : calm cst0.
Proof. constructor; [|reflexivity..]. split; [|reflexivity]. split; [simpl; lia|]. simpl. lia. Qed.
Lemma cst0_tx : tx_rep (c_uart cst0) [].
Proof. constructor; [by apply ring_nil|done|done|constructor]. Qed.

Lemma demo_uart_bytes :
  match uart_run demo_uops cst0 with Ok (acc, s') => Some (acc, line s') | _ => None end = Some ([65; 66], [65; 67; 66]).
Proof. vm_compute. reflexivity. Qed.

Lemma uart_delivers_witness :
  ∃ acc s', uart_run demo_uops cst0 = Ok (acc, s') ∧ acc = [65; 66] ∧ line s' = [65; 67; 66] ∧
    ∃ out q, line s' = line cst0 ++ out.*2 ∧ acc = ringed out ++ q.
Proof.
  destruct (uart_delivers demo_uops cst0 cst0_calm cst0_tx) as (acc & s' & out & q & s2 & E & L & A & _).
  pose proof demo_uart_bytes as B. rewrite E in B. injection B as Ba Bl. exists acc, s'.
  split; [exact E|]. split; [exact Ba|]. split; [exact Bl|]. exists out, q. split; [exact L|exact A].
Defined.
