(* ===== verification/Console.v ===== *)
(** * The console: kernel/console.c, [uartintr], and kernel [printf]

    Keyboard input is edited in a ring of 128 bytes between three counters:
    [cons_r] to [cons_w] holds finished lines for [consoleread], [cons_w] to
    [cons_e] the line being edited.  Calls run up to where they return or sleep
    (the lock given up); a sleeper goes on at the head of its loop.  User memory
    is a parameter: [either_copyin] and [either_copyout] of one byte. *)
From S2P Require Import Prelude Spinlock CString ByteRing Printf Uart.

Definition BACKSPACE : Z := 256.
(** [C(x)], control-x *)
Definition C (x : Z) : Z := x - 64.
Definition INPUT_BUF : Z := 128.

Definition consputc (c : Z) : M cst unit :=
  if bool_decide (c = BACKSPACE) then uartputc_sync 8 ;; uartputc_sync 32 ;; uartputc_sync 8
  else uartputc_sync c.

Definition set_cons (f : cons → cons) : M cst unit := modify (λ s, with_cons (f (c_cons s)) s).
Definition with_r (r : Z) (c : cons) : cons := mkcons (cons_lock c) (cons_buf c) r (cons_w c) (cons_e c).
Definition with_w (w : Z) (c : cons) : cons := mkcons (cons_lock c) (cons_buf c) (cons_r c) w (cons_e c).
Definition with_e (e : Z) (c : cons) : cons := mkcons (cons_lock c) (cons_buf c) (cons_r c) (cons_w c) e.

(** [cons.buf[i % INPUT_BUF]] *)
Definition cons_at (i : Z) : M cst Z := λ s,
  match zidx (cons_buf (c_cons s)) (i mod INPUT_BUF) with Some c => Ok (c, s) | None => Fault end.
(** [cons.buf[cons.e++ % INPUT_BUF] = c] *)
Definition cons_store (c : Z) : M cst unit := λ s,
  let k := c_cons s in
  match zupd (cons_buf k) (cons_e k mod INPUT_BUF) (u8 c) with
  | Some b => Ok (tt, with_cons (mkcons (cons_lock k) b (cons_r k) (cons_w k) (u32 (cons_e k + 1))) s)
  | None => Fault
  end.
(** [c = cons.buf[cons.r++ % INPUT_BUF]] *)
Definition cons_take : M cst Z :=
  k ← gets c_cons; c ← cons_at (cons_r k); set_cons (with_r (u32 (cons_r k + 1))) ;; mret c.

(** ** Input *)

(** Control-u: the loop runs back to the start of the line. *)
Fixpoint kill_line (fuel : nat) : M cst unit :=
  match fuel with
  | O => hang
  | S fuel =>
      k ← gets c_cons;
      if bool_decide (cons_e k ≠ cons_w k) then
        c ← cons_at (u32 (cons_e k - 1));
        if bool_decide (c ≠ 10) then
          set_cons (with_e (u32 (cons_e k - 1))) ;; consputc BACKSPACE ;; kill_line fuel
        else mret tt
      else mret tt
  end.

(** The [switch]. *)
Definition console_char (c : Z) : M cst unit :=
   if bool_decide (c = C 80) then emit Procdump
   else if bool_decide (c = C 85) then
     k ← gets c_cons; kill_line (S (Z.to_nat (u32 (cons_e k - cons_w k))))
   else if bool_decide (c = C 72) || bool_decide (c = 127) then
     k ← gets c_cons;
     if bool_decide (cons_e k ≠ cons_w k) then
       set_cons (with_e (u32 (cons_e k - 1))) ;; consputc BACKSPACE
     else mret tt
   else
     k ← gets c_cons;
     if bool_decide (c ≠ 0) && bool_decide (u32 (cons_e k - cons_r k) < INPUT_BUF) then
       let c := if bool_decide (c = 13) then 10 else c in
       consputc c ;;
       cons_store c ;;
       k ← gets c_cons;
       if bool_decide (c = 10) || bool_decide (c = C 68) || bool_decide (cons_e k = u32 (cons_r k + INPUT_BUF)) then
         set_cons (with_w (cons_e k)) ;; emit WakeCons
       else mret tt
     else mret tt.
Definition consoleintr (c : Z) : M cst unit :=
  acquireM ConsLock ;; console_char c ;; releaseM ConsLock.

(** [uartintr]: all the input that waits, then output. *)
Fixpoint uartintr_rx (fuel : nat) : M cst unit :=
  match fuel with
  | O => hang
  | S fuel => c ← uartgetc; if bool_decide (c = -1) then mret tt else consoleintr c ;; uartintr_rx fuel
  end.
Definition uartintr : M cst unit :=
  n ← gets (λ s, length (dev_rx (c_dev s)));
  uartintr_rx (S n) ;; uartintr_tx.

(** ** read() and write() *)
Section user.
Context {U : Type} (copyin : Z → U → option Z) (copyout : Z → Z → U → option U).

(** What a call did: returned, or went to sleep where it goes on with these
    arguments. *)
Inductive cread := RRet (v : Z) | RSleep (dst n : Z).
Inductive cwrite := WRet (v : Z) | WSleep (i c : Z).

Definition cread_done (v : Z) (u : U) : M cst (cread * U) := releaseM ConsLock ;; mret (RRet v, u).

(** The loop with [n] bytes to go; [k] is [n] as a measure. *)
Fixpoint cread_loop (k : nat) (killed : bool) (target dst n : Z) (u : U) : M cst (cread * U) :=
  match k with
  | O => cread_done (i32 (target - n)) u
  | S k =>
      q ← gets c_cons;
      if bool_decide (cons_r q = cons_w q) then
        if killed then cread_done (-1) u
        else releaseM ConsLock ;; mret (RSleep dst n, u)
      else
        c ← cons_take;
        if bool_decide (c = C 68) then
          (if bool_decide (u32 n < target) then
             q ← gets c_cons; set_cons (with_r (u32 (cons_r q - 1)))
           else mret tt) ;;
          cread_done (i32 (target - n)) u
        else
          match copyout dst c u with
          | None => cread_done (i32 (target - n)) u
          | Some u =>
              if bool_decide (c = 10) then cread_done (i32 (target - (n - 1))) u
              else cread_loop k killed target (dst + 1) (n - 1) u
          end
  end.
Definition consoleread (killed : bool) (dst n : Z) (u : U) : M cst (cread * U) :=
  acquireM ConsLock ;; cread_loop (Z.to_nat n) killed (u32 n) dst n u.
(** A sleeper of [consoleread] runs again. *)
Definition consoleread_again (killed : bool) (target dst n : Z) (u : U) : M cst (cread * U) :=
  acquireM ConsLock ;; cread_loop (Z.to_nat n) killed target dst n u.

(** [k] characters left, the next one at [src+i]. *)
Fixpoint cwrite_loop (k : nat) (src i : Z) (u : U) : M cst cwrite :=
  match k with
  | O => mret (WRet i)
  | S k =>
      match copyin (src + i) u with
      | None => mret (WRet i)
      | Some c => b ← uartputc c; if (b : bool) then cwrite_loop k src (i + 1) u else mret (WSleep i c)
      end
  end.
Definition consolewrite (src n : Z) (u : U) : M cst cwrite := cwrite_loop (Z.to_nat n) src 0 u.
Definition consolewrite_again (src n i c : Z) (u : U) : M cst cwrite :=
  b ← uartputc_again c; if (b : bool) then cwrite_loop (Z.to_nat (n - (i + 1))) src (i + 1) u else mret (WSleep i c).
End user.

Definition consoleinit : M cst unit :=
  set_cons (with_cons_lock (initlock "cons")) ;; uartinit.

(** ** kernel/printf.c on the console *)

#[export] Instance console_printer : Printer cst := { pr_mem := c_mem; pr_putc := consputc }.

Definition kprintf (fmt : Z) (ap : list Z) : M cst unit :=
  locking ← gets pr_locking;
  (if bool_decide (locking ≠ 0) then acquireM PrLock else mret tt) ;;
  kprintf_body fmt ap ;;
  (if bool_decide (locking ≠ 0) then releaseM PrLock else mret tt).

(** [panic] with the addresses of its two string constants: it never returns. *)
Definition kpanic_prints (prefix newline s : Z) : M cst unit :=
  modify (λ st, with_pr (pr_lock st) 0 (c_panicked st) st) ;;
  kprintf prefix [] ;; kprintf s [] ;; kprintf newline [] ;;
  modify (λ st, with_pr (pr_lock st) (pr_locking st) 1 st).
Definition kpanic {A} (prefix newline s : Z) : M cst A := kpanic_prints prefix newline s ;; hang.

Definition printfinit : M cst unit := modify (λ s, with_pr (initlock "pr") 1 (c_panicked s) s).
