(* ===== verification/ConsoleClaims.v ===== *)
(** * Correctness of the console

    The input ring as finished lines and a line being edited, what each input
    character and each [read] does to them, and the console as an output of
    kernel [printf]. *)
From S2P Require Import Prelude Spinlock Sleeplock CString ByteRing Printf Uart UartClaims Console.

(** Finished input [d] and the line [e] being edited.  The line holds no
    newline, and a full ring has no unfinished line, so that a reader can run. *)
Record cons_rep (k : cons) (d e : list Z) : Prop := {
  cr_ring : ring_at INPUT_BUF (cons_buf k) (cons_r k) (d ++ e);
  cr_r : 0 ≤ cons_r k < 2 ^ 32;
  cr_w : cons_w k = u32 (cons_r k + Z.of_nat (length d));
  cr_e : cons_e k = u32 (cons_r k + Z.of_nat (length (d ++ e)));
  cr_bytes : Forall (λ c, 0 ≤ c < 256) (d ++ e);
  cr_edit : Forall (λ c, c ≠ 10) e;
  cr_full : Z.of_nat (length (d ++ e)) = INPUT_BUF → e = [] }.

Lemma in_size : 0 < INPUT_BUF.
Proof. reflexivity. Qed.
Lemma in_div : (INPUT_BUF | 2 ^ 32).
Proof. by exists (2 ^ 25). Qed.

Lemma rep_len k d e : cons_rep k d e → Z.of_nat (length (d ++ e)) ≤ INPUT_BUF.
Proof. by intros [(_ & H & _) _ _ _ _ _ _]. Qed.

Lemma counters_same r n m : 0 ≤ n ≤ INPUT_BUF → 0 ≤ m ≤ INPUT_BUF → u32 (r + n) = u32 (r + m) ↔ n = m.
Proof. intros Hn Hm. apply mod_same with (size := INPUT_BUF); [done|done|done]. Qed.

Lemma edit_empty k d e : cons_rep k d e → cons_e k = cons_w k ↔ e = [].
Proof.
  intros H. pose proof (rep_len _ _ _ H) as Hl. destruct H as [_ _ -> -> _ _ _]. rewrite length_app in *.
  rewrite counters_same by lia. destruct e; simpl; split; intros; try done; lia.
Qed.

Lemma done_empty k d e : cons_rep k d e → cons_r k = cons_w k ↔ d = [].
Proof.
  intros H. pose proof (rep_len _ _ _ H) as Hl. destruct H as [_ Hr -> _ _ _ _]. rewrite length_app in Hl.
  rewrite <-(u32_small (cons_r k)) at 1 by done. replace (cons_r k) with (cons_r k + 0) at 1 by lia.
  rewrite counters_same by lia. destruct d; simpl; split; intros; try done; lia.
Qed.

Lemma in_use k d e : cons_rep k d e → u32 (cons_e k - cons_r k) = Z.of_nat (length (d ++ e)).
Proof.
  intros H. pose proof (rep_len _ _ _ H) as Hl. destruct H as [_ _ _ -> _ _ _].
  apply mod_diff with (size := INPUT_BUF); [done|lia].
Qed.

(** ** Characters *)

(** What one input character does: the lines after it, the echo, the events. *)
Definition backspaces (k : nat) : list Z := concat (replicate k [8; 32; 8]).
Definition intr_spec (c : Z) (d e : list Z) : (list Z * list Z) * list Z * list cevent :=
  if decide (c = 16) then ((d, e), [], [Procdump])
  else if decide (c = 21) then ((d, []), backspaces (length e), [])
  else if decide (c = 8 ∨ c = 127) then
    ((d, removelast e), match e with [] => [] | _ => backspaces 1 end, [])
  else if decide (c = 0 ∨ INPUT_BUF ≤ Z.of_nat (length (d ++ e))) then ((d, e), [], [])
  else
    let c := if decide (c = 13) then 10 else c in
    if bool_decide (c = 10 ∨ c = 4 ∨ Z.of_nat (length (d ++ e)) + 1 = INPUT_BUF)
    then ((d ++ e ++ [c], []), [c], [WakeCons])
    else ((d, e ++ [c]), [c], []).

Lemma consputc_ok s c : 0 ≤ c < 256 → hart_good (c_hart s) → c_panicked s = 0 →
  ∃ s', consputc c s = Ok (tt, s') ∧ typed s s' [c].
Proof.
  intros Hc Hh Hp. unfold consputc, BACKSPACE. rewrite bool_decide_false by lia.
  destruct (uartputc_sync_ok s c Hh Hp) as (s' & E & T). exists s'. split; [done|].
  unfold u8 in T. by rewrite Z.mod_small in T.
Qed.

Lemma consputc_bs s : hart_good (c_hart s) → c_panicked s = 0 →
  ∃ s', consputc BACKSPACE s = Ok (tt, s') ∧ typed s s' [8; 32; 8].
Proof.
  intros Hh Hp. unfold consputc. rewrite bool_decide_true by done.
  destruct (uartputc_sync_ok s 8 Hh Hp) as (s1 & E1 & T1). rewrite (bind_Ok_eq _ _ _ _ _ E1).
  destruct (uartputc_sync_ok s1 32) as (s2 & E2 & T2); [by destruct T1 as (? & -> & _)..|]. rewrite (bind_Ok_eq _ _ _ _ _ E2).
  destruct (uartputc_sync_ok s2 8) as (s3 & E3 & T3); [destruct T2 as (? & -> & _); by destruct T1 as (? & -> & _)..|].
  exists s3. split; [done|]. apply (typed_trans _ _ _ [8] [32; 8] T1). by apply (typed_trans _ _ _ [32] [8] T2).
Qed.

Lemma rep_pop k d e c : cons_rep k d (e ++ [c]) →
  zidx (cons_buf k) (u32 (cons_e k - 1) mod INPUT_BUF) = Some c ∧ cons_rep (with_e (u32 (cons_e k - 1)) k) d e.
Proof.
  intros [Hr Hr0 Hw He Hb Hd Hf].
  assert (Ee : u32 (cons_e k - 1) = u32 (cons_r k + Z.of_nat (length (d ++ e)))).
  { rewrite He. unfold u32. rewrite Zminus_mod_idemp_l. f_equal. rewrite !length_app. simpl. lia. }
  rewrite app_assoc in Hr, Hb, Hf. destruct (ring_last _ _ _ _ _ Hr) as [Hx Hr']. split.
  - rewrite Ee. unfold u32. by rewrite mod_pos by apply in_div.
  - apply Forall_app in Hb as [Hb _]. apply Forall_app in Hd as [Hd _].
    constructor; [done|done|done|exact Ee|done|done|]. intros Hlen. destruct Hr as (_ & Hlen' & _).
    rewrite length_app in Hlen'. simpl in Hlen'. lia.
Qed.

Lemma kill_line_ok e : ∀ fuel s d, cons_rep (c_cons s) d e → (length e < fuel)%nat → hart_good (c_hart s) → c_panicked s = 0 →
  ∃ s' k, kill_line fuel s = Ok (tt, s') ∧ typed (with_cons k s) s' (backspaces (length e)) ∧
    cons_rep k d [] ∧ cons_lock k = cons_lock (c_cons s).
Proof.
  induction e as [|c e IH] using rev_ind; intros fuel s d Hk Hf Hh Hp; (destruct fuel as [|fuel]; [lia|]);
    cbn [kill_line]; rewrite gets_bind.
  - rewrite bool_decide_false by (rewrite (edit_empty _ _ _ Hk); tauto). exists s, (c_cons s).
    split; [done|]. split; [|done]. destruct s. apply typed_refl.
  - rewrite bool_decide_true by (rewrite (edit_empty _ _ _ Hk); by destruct e).
    destruct (rep_pop _ _ _ _ Hk) as [Hx Hk']. assert (Hc : c ≠ 10).
    { destruct Hk as [_ _ _ _ _ Hd _]. apply Forall_app in Hd as [_ Hd]. by apply Forall_cons in Hd as [? _]. }
    assert (Ea : cons_at (u32 (cons_e (c_cons s) - 1)) s = Ok (c, s)) by (unfold cons_at; by rewrite Hx).
    rewrite (bind_Ok_eq _ _ _ _ _ Ea), bool_decide_true by done. unfold set_cons. rewrite modify_bind.
    set (s1 := with_cons _ s). destruct (consputc_bs s1 Hh Hp) as (s2 & E2 & dv & -> & R2 & T2).
    rewrite (bind_Ok_eq _ _ _ _ _ E2). destruct (IH fuel (with_dev dv s1) d Hk') as (s3 & k & E3 & (dv3 & -> & R3 & T3) & Hk3 & Hlk); [|done|done|].
    { rewrite length_app in Hf. simpl in Hf. lia. }
    exists (with_dev dv3 (with_cons k s)), k. split; [exact E3|]. split; [|done]. exists dv3. split; [done|]. split; [simpl in *; congruence|].
    rewrite length_app, Nat.add_comm. change (backspaces (1 + length e)) with ([8; 32; 8] ++ backspaces (length e)).
    rewrite T3. simpl c_dev. rewrite T2. by rewrite <-app_assoc.
Qed.

(** What a character may change: [cons] but its lock, the device, the events. *)
Definition cframe (s s' : cst) (l : list Z) (ev : list cevent) : Prop :=
  ∃ k dv, s' = with_evs (c_evs s ++ ev) (with_dev dv (with_cons k s)) ∧ cons_lock k = cons_lock (c_cons s) ∧
    dev_rx dv = dev_rx (c_dev s) ∧ dev_tx dv = dev_tx (c_dev s) ++ l.

Lemma cframe_typed s s' k l : typed (with_cons k s) s' l → cons_lock k = cons_lock (c_cons s) → cframe s s' l [].
Proof. intros (dv & -> & R & T) Hk. exists k, dv. rewrite app_nil_r. done. Qed.

Lemma cframe_refl s ev : cframe s (with_evs (c_evs s ++ ev) s) [] ev.
Proof. exists (c_cons s), (c_dev s). rewrite app_nil_r. by destruct s. Qed.

Lemma cframe_emit s s' l e : cframe s s' l [] → cframe s (with_evs (c_evs s' ++ [e]) s') l [e].
Proof. intros (k & dv & -> & H). exists k, dv. split; [|done]. simpl. by rewrite app_nil_r. Qed.

Lemma rep_push k d e c b : cons_rep k d e → 0 ≤ c < 256 → c ≠ 10 ∨ b = true → Z.of_nat (length (d ++ e)) < INPUT_BUF →
  (b = false → Z.of_nat (length (d ++ e)) + 1 ≠ INPUT_BUF) →
  ∃ buf, zupd (cons_buf k) (cons_e k mod INPUT_BUF) c = Some buf ∧
    let k' := mkcons (cons_lock k) buf (cons_r k) (cons_w k) (u32 (cons_e k + 1)) in
    cons_rep (if b then with_w (cons_e k') k' else k') (if b then d ++ e ++ [c] else d) (if b then [] else e ++ [c]) ∧
    cons_e k' = u32 (cons_r k + Z.of_nat (length (d ++ e) + 1)).
Proof.
  intros Hk Hc Hb Hlt Hfull. destruct Hk as [Hr Hr0 Hw He Hby Hd Hf].
  destruct (ring_put _ (2 ^ 32) in_size in_div _ _ _ c Hr Hlt) as (buf & E & Hr').
  exists buf. split; [rewrite He; exact E|]. cbv zeta.
  assert (Ee : u32 (cons_e k + 1) = u32 (cons_r k + Z.of_nat (length (d ++ e) + 1))).
  { rewrite He. unfold u32. rewrite Zplus_mod_idemp_l. f_equal. lia. }
  split; [|exact Ee]. rewrite <-app_assoc in Hr'. assert (Hby' : Forall (λ c, 0 ≤ c < 256) (d ++ e ++ [c])).
  { rewrite app_assoc. apply Forall_app. split; [done|by constructor]. }
  destruct b; constructor; cbn; rewrite ?app_nil_r; try done.
  - rewrite Ee. do 2 f_equal. rewrite !length_app. simpl. lia.
  - rewrite Ee. do 2 f_equal. rewrite !length_app. simpl. lia.
  - rewrite Ee. do 2 f_equal. rewrite !length_app. simpl. lia.
  - apply Forall_app. split; [done|]. constructor; [|done]. destruct Hb; [done|discriminate].
  - intros Hl. exfalso. apply (Hfull eq_refl). rewrite <-Hl, !length_app. simpl. lia.
Qed.

Ltac take_branch := repeat first [rewrite bool_decide_true by done | rewrite bool_decide_false by (unfold C; lia)].

Lemma console_char_ok s d e c :
  cons_rep (c_cons s) d e → 0 ≤ c < 256 → hart_good (c_hart s) → c_panicked s = 0 →
  let '((d', e'), l, ev) := intr_spec c d e in
  ∃ s', console_char c s = Ok (tt, s') ∧ cframe s s' l ev ∧ cons_rep (c_cons s') d' e'.
Proof.
  intros Hk Hc Hh Hp. unfold intr_spec, console_char.
  case_decide as H16; [|case_decide as H21; [|case_decide as Hbs; [|case_decide as Hno]]].
  - rewrite bool_decide_true by done. eexists. split; [done|]. split; [apply cframe_refl|done].
  - rewrite bool_decide_false, bool_decide_true by (unfold C; lia). rewrite gets_bind.
    destruct (kill_line_ok e (S (Z.to_nat (u32 (cons_e (c_cons s) - cons_w (c_cons s))))) s d) as (s' & k & E & T & K & L); try done.
    { pose proof (rep_len _ _ _ Hk) as Hl. destruct Hk as [_ _ -> -> _ _ _]. unfold u32. rewrite <-Zminus_mod, Z.mod_small.
      - rewrite length_app. lia.
      - rewrite length_app in *. unfold INPUT_BUF in *. lia. }
    exists s'. split; [done|]. split; [by eapply cframe_typed|]. by destruct T as (? & -> & _).
  - rewrite !(bool_decide_false (c = C _)) by (unfold C; lia).
    replace (bool_decide (c = C 72) || bool_decide (c = 127)) with true
      by (destruct Hbs as [->| ->]; [rewrite bool_decide_true by done|rewrite orb_true_r]; done).
    rewrite gets_bind. destruct e as [|x e _] using rev_ind.
    + rewrite bool_decide_false by (rewrite (edit_empty _ _ _ Hk); tauto). exists s. split; [done|]. split; [|done].
      exists (c_cons s), (c_dev s). rewrite !app_nil_r. by destruct s.
    + rewrite bool_decide_true by (rewrite (edit_empty _ _ _ Hk); by destruct e).
      destruct (rep_pop _ _ _ _ Hk) as [_ Hk']. unfold set_cons. rewrite modify_bind. set (s1 := with_cons _ s).
      destruct (consputc_bs s1 Hh Hp) as (s2 & E2 & T2). exists s2. split; [done|].
      replace (match e ++ [x] with [] => [] | _ => backspaces 1 end) with [8; 32; 8] by by destruct e.
      split; [by eapply cframe_typed|]. rewrite removelast_last. by destruct T2 as (? & -> & _).
  - rewrite (bool_decide_false (c = C 80)), (bool_decide_false (c = C 85)), (bool_decide_false (c = C 72)), (bool_decide_false (c = 127)) by (unfold C; lia). cbn [orb]. rewrite gets_bind, (in_use _ _ _ Hk).
    replace (bool_decide (c ≠ 0) && bool_decide (Z.of_nat (length (d ++ e)) < INPUT_BUF)) with false
      by (symmetry; apply andb_false_iff; destruct Hno as [->|Hno]; [left|right]; apply bool_decide_false; [tauto|lia]).
    exists s. split; [done|]. split; [|done]. exists (c_cons s), (c_dev s). rewrite !app_nil_r. by destruct s.
  - rewrite (bool_decide_false (c = C 80)), (bool_decide_false (c = C 85)), (bool_decide_false (c = C 72)), (bool_decide_false (c = 127)) by (unfold C; lia). cbn [orb]. rewrite gets_bind, (in_use _ _ _ Hk).
    rewrite (bool_decide_true (c ≠ 0)), (bool_decide_true (_ < _)) by lia. cbn [andb].
    replace (if bool_decide (c = 13) then 10 else c) with (if decide (c = 13) then 10 else c) by (by repeat case_decide; case_bool_decide).
    set (x := if decide (c = 13) then 10 else c). assert (Hx : 0 ≤ x < 256) by (unfold x; case_decide; lia).
    destruct (consputc_ok s x Hx Hh Hp) as (s1 & E1 & dv & -> & R1 & T1). rewrite (bind_Ok_eq _ _ _ _ _ E1). clear E1.
    set (b := bool_decide (x = 10 ∨ x = 4 ∨ Z.of_nat (length (d ++ e)) + 1 = INPUT_BUF)).
    destruct (rep_push _ d e x b Hk Hx) as (buf & Eb & Hk' & Ee); [unfold b; case_bool_decide; naive_solver lia|lia|unfold b; case_bool_decide; naive_solver|].
    unfold cons_store. unfold mbind at 1, M_bind at 1. cbn [c_cons with_dev].
    unfold u8. rewrite (Z.mod_small x) by done. rewrite Eb. rewrite gets_bind. cbn [c_cons with_cons cons_r cons_e].
    assert (Hb : bool_decide (x = 10) || bool_decide (x = C 68) || bool_decide (u32 (cons_e (c_cons s) + 1) = u32 (cons_r (c_cons s) + INPUT_BUF)) = b).
    { assert (Hs : u32 (cons_e (c_cons s) + 1) = u32 (cons_r (c_cons s) + INPUT_BUF) ↔ Z.of_nat (length (d ++ e)) + 1 = INPUT_BUF).
      { cbn in Ee. rewrite Ee, counters_same by (unfold INPUT_BUF in *; lia). lia. }
      unfold b. rewrite !bool_decide_or, orb_assoc. f_equal. by apply bool_decide_ext. }
    rewrite Hb. cbv zeta in Hk'. destruct b.
    + eexists. split; [done|]. split; [|exact Hk'].
      eexists _, dv. split; [reflexivity|]. done.
    + eexists. split; [done|]. split; [|exact Hk'].
      exists (mkcons (cons_lock (c_cons s)) buf (cons_r (c_cons s)) (cons_w (c_cons s)) (u32 (cons_e (c_cons s) + 1))), dv.
      rewrite app_nil_r. split; [by destruct s|]. done.
Qed.

(** ** The critical section of [cons.lock] *)

Definition locked_cons (s : cst) : cst :=
  with_hart (push_off (c_hart s)) (with_cons (with_cons_lock (held_by (hartid (c_hart s)) (cons_lock (c_cons s))) (c_cons s)) s).
Definition unlocked_cons (h : hart) (lk : spinlock) (s : cst) : cst := with_hart h (with_cons (with_cons_lock lk (c_cons s)) s).

Lemma cons_rep_lock lk k d e : cons_rep k d e → cons_rep (with_cons_lock lk k) d e.
Proof. intros []. by constructor. Qed.

Lemma lock_cons_ok s : calm s → acquireM ConsLock s = Ok (tt, locked_cons s).
Proof. intros [_ _ H _ _]. by apply (lock_ok ConsLock). Qed.

(** Around the section: calm again, and [cframe] seen from outside. *)
Lemma unlock_cons_ok s s' l ev : calm s → cframe (locked_cons s) s' l ev →
  ∃ s2, releaseM ConsLock s' = Ok (tt, s2) ∧ calm s2 ∧ cframe s s2 l ev ∧ c_cons s2 = with_cons_lock (cons_lock (c_cons s)) (c_cons s') ∧
    c_uart s2 = c_uart s ∧ line s2 = line s ++ l ∧ dev_rx (c_dev s2) = dev_rx (c_dev s).
Proof.
  intros Hc (k & dv & -> & Hk & R & T). exists (unlocked_cons (c_hart s) (cons_lock (c_cons s)) (with_evs (c_evs (locked_cons s) ++ ev) (with_dev dv (with_cons k (locked_cons s))))).
  split; [apply (unlock_ok ConsLock); [apply Hc|apply Hc|done|exact Hk]|].
  split; [by destruct Hc|]. split; [|done]. exists (with_cons_lock (cons_lock (c_cons s)) k), dv. done.
Qed.

Lemma consoleintr_ok s d e c :
  calm s → cons_rep (c_cons s) d e → 0 ≤ c < 256 →
  let '((d', e'), l, ev) := intr_spec c d e in
  ∃ s', consoleintr c s = Ok (tt, s') ∧ calm s' ∧ cframe s s' l ev ∧ cons_rep (c_cons s') d' e' ∧
    c_uart s' = c_uart s ∧ line s' = line s ++ l ∧ dev_rx (c_dev s') = dev_rx (c_dev s).
Proof.
  intros Hc Hk Hr. pose proof (console_char_ok (locked_cons s) d e c) as H. destruct (intr_spec c d e) as [[[d' e'] l] ev].
  destruct H as (s1 & E1 & F1 & K1); [by apply cons_rep_lock|done|apply hart_good_push, Hc|apply Hc|].
  destruct (unlock_cons_ok s s1 l ev Hc F1) as (s2 & E2 & C2 & F2 & K2 & U2 & L2 & R2). exists s2. split.
  - unfold consoleintr. by rewrite (bind_Ok_eq _ _ _ _ _ (lock_cons_ok s Hc)), (bind_Ok_eq _ _ _ _ _ E1).
  - split; [done|]. split; [done|]. split; [rewrite K2; by apply cons_rep_lock|]. done.
Qed.

(** ** All the input of an interrupt *)

Fixpoint intrs_spec (cs : list Z) (d e : list Z) : (list Z * list Z) * list Z * list cevent :=
  match cs with
  | [] => ((d, e), [], [])
  | c :: cs =>
      let '((d, e), l, ev) := intr_spec c d e in
      let '(de, l', ev') := intrs_spec cs d e in
      (de, l ++ l', ev ++ ev')
  end.

Lemma uartintr_rx_ok cs : ∀ fuel s d e,
  calm s → cons_rep (c_cons s) d e → dev_rx (c_dev s) = cs → Forall (λ c, 0 ≤ c < 256) cs → (length cs < fuel)%nat →
  let '((d', e'), l, ev) := intrs_spec cs d e in
  ∃ s', uartintr_rx fuel s = Ok (tt, s') ∧ calm s' ∧ cons_rep (c_cons s') d' e' ∧ c_uart s' = c_uart s ∧
    line s' = line s ++ l ∧ c_evs s' = c_evs s ++ ev ∧ dev_rx (c_dev s') = [].
Proof.
  induction cs as [|c cs IH]; intros fuel s d e Hc Hk Hrx Hcs Hf; (destruct fuel as [|fuel]; [lia|]); cbn [intrs_spec uartintr_rx].
  - assert (E : uartgetc s = Ok (-1, s)) by (unfold uartgetc; by rewrite Hrx). rewrite (bind_Ok_eq _ _ _ _ _ E).
    exists s. rewrite !app_nil_r. done.
  - set (s1 := with_dev (mkudev (dev_wait (c_dev s)) cs (dev_tx (c_dev s)) (dev_ctl (c_dev s))) s).
    assert (E : uartgetc s = Ok (c, s1)) by (unfold uartgetc; by rewrite Hrx). rewrite (bind_Ok_eq _ _ _ _ _ E).
    apply Forall_cons in Hcs as [Hb Hcs]. rewrite bool_decide_false by lia.
    assert (Hc1 : calm s1) by by destruct Hc. pose proof (consoleintr_ok s1 d e c Hc1 Hk Hb) as H.
    destruct (intr_spec c d e) as [[[d1 e1] l1] ev1]. destruct H as (s2 & E2 & C2 & F2 & K2 & U2 & L2 & R2).
    rewrite (bind_Ok_eq _ _ _ _ _ E2). specialize (IH fuel s2 d1 e1 C2 K2 R2 Hcs ltac:(simpl in Hf; lia)).
    destruct (intrs_spec cs d1 e1) as [[[d2 e2] l2] ev2]. destruct IH as (s3 & E3 & C3 & K3 & U3 & L3 & V3 & R3).
    exists s3. split; [done|]. split; [done|]. split; [done|]. split; [by rewrite U3, U2|]. split; [by rewrite L3, L2, app_assoc|].
    split; [|done]. rewrite V3. destruct F2 as (k & dv & -> & _). simpl. by rewrite app_assoc.
Qed.

(** ** read() *)
Section user.
Context {U : Type} (copyout : Z → Z → U → option U).

(** [k] bytes wanted, [first] when none was read yet: what is delivered, what
    stays, user memory, and whether input ran out.  Control-d ends the file:
    it is eaten only by a read that got nothing.  A byte that cannot be copied
    out is lost. *)
Fixpoint read_spec (k : nat) (first : bool) (dst : Z) (d : list Z) (u : U) : list Z * list Z * U * bool :=
  match k with
  | O => ([], d, u, false)
  | S k =>
      match d with
      | [] => ([], [], u, true)
      | c :: d' =>
          if bool_decide (c = 4) then ([], if first then d' else d, u, false)
          else
            match copyout dst c u with
            | None => ([], d', u, false)
            | Some u =>
                if bool_decide (c = 10) then ([c], d', u, false)
                else let '(l, r, u, sl) := read_spec k false (dst + 1) d' u in (c :: l, r, u, sl)
            end
      end
  end.

Definition read_result (killed slept : bool) (got dst n : Z) (l : list Z) : cread :=
  if slept then if killed then RRet (-1) else RSleep (dst + Z.of_nat (length l)) (n - Z.of_nat (length l))
  else RRet (got + Z.of_nat (length l)).

Lemma cread_result_cons killed slept got dst n c l :
  read_result killed slept (got + 1) (dst + 1) (n - 1) l = read_result killed slept got dst n (c :: l).
Proof. unfold read_result. cbn [length]. destruct slept, killed; f_equal; lia. Qed.

Lemma cons_take_ok k d e c : cons_rep k (c :: d) e →
  zidx (cons_buf k) (cons_r k mod INPUT_BUF) = Some c ∧ cons_rep (with_r (u32 (cons_r k + 1)) k) d e ∧
  u32 (u32 (cons_r k + 1) - 1) = cons_r k.
Proof.
  intros [Hr Hr0 Hw He Hb Hd Hf]. apply ring_get with (w := 2 ^ 32) in Hr as Hg; [|apply in_div]. destruct Hg as [Ec Hr'].
  split; [done|]. split.
  - simpl in Hb. apply Forall_cons in Hb as [_ Hb]. constructor; try done.
    + apply Z.mod_pos_bound. lia.
    + simpl. rewrite Hw. unfold u32. rewrite Zplus_mod_idemp_l. f_equal. simpl length. lia.
    + simpl. rewrite He. unfold u32. rewrite Zplus_mod_idemp_l. f_equal. simpl length. lia.
    + intros Hl. exfalso. destruct Hr as (_ & Hlen & _). change ((c :: d) ++ e) with (c :: (d ++ e)) in Hlen. cbn [length] in Hlen. lia.
  - unfold u32. rewrite Zminus_mod_idemp_l. replace (cons_r k + 1 - 1) with (cons_r k) by lia. by apply Z.mod_small.
Qed.

(** Reading changes [cons_r] only. *)
Lemma with_r_self s : with_cons (with_r (cons_r (c_cons s)) (c_cons s)) s = s.
Proof. by destruct s as [? ? []]. Qed.

(** Reading ends with the release of the lock. *)
Lemma cread_done_ok (lk : spinlock) (h : hart) v (u : U) s :
  hart_good h → lock_quiet lk → c_hart s = push_off h → cons_lock (c_cons s) = held_by (hartid h) lk →
  cread_done v u s = Ok ((RRet v, u), unlocked_cons h lk s).
Proof. intros Hh Hl E1 E2. unfold cread_done. by rewrite (bind_Ok_eq _ _ _ _ _ (unlock_ok ConsLock s lk h Hl Hh E1 E2)). Qed.

Lemma cread_loop_ok killed lk h target : ∀ k s dst n d e u,
  cons_rep (c_cons s) d e → hart_good h → lock_quiet lk → c_hart s = push_off h → cons_lock (c_cons s) = held_by (hartid h) lk →
  n = Z.of_nat k → n ≤ target < 2 ^ 31 →
  let '(l, r, u', slept) := read_spec k (bool_decide (n = target)) dst d u in
  ∃ x, cread_loop copyout k killed target dst n u s =
      Ok ((read_result killed slept (target - n) dst n l, u'), unlocked_cons h lk (with_cons (with_r x (c_cons s)) s)) ∧
    cons_rep (with_r x (c_cons s)) r e.
Proof.
  induction k as [|k IH]; intros s dst n d e u Hk Hh Hlk Eh El Hn Ht; cbn [read_spec cread_loop].
  - exists (cons_r (c_cons s)). rewrite with_r_self. replace (with_r (cons_r (c_cons s)) (c_cons s)) with (c_cons s) by by destruct (c_cons s).
    split; [|done]. rewrite (cread_done_ok lk h) by done. unfold read_result. do 4 f_equal. rewrite i32_small; simpl; lia.
  - rewrite gets_bind. destruct d as [|c d].
    + rewrite (bool_decide_true (cons_r _ = _)) by (by rewrite (done_empty _ _ _ Hk)). exists (cons_r (c_cons s)). rewrite with_r_self.
      replace (with_r (cons_r (c_cons s)) (c_cons s)) with (c_cons s) by by destruct (c_cons s). split; [|done].
      unfold read_result. destruct killed; [by rewrite (cread_done_ok lk h)|].
      rewrite (bind_Ok_eq _ _ _ _ _ (unlock_ok ConsLock s lk h Hlk Hh Eh El)). simpl. rewrite Z.add_0_r, Z.sub_0_r. done.
    + rewrite (bool_decide_false (cons_r _ = _)) by (by rewrite (done_empty _ _ _ Hk)). destruct (cons_take_ok _ _ _ _ Hk) as (Ec & Hk' & Er).
      set (s1 := with_cons (with_r (u32 (cons_r (c_cons s) + 1)) (c_cons s)) s).
      assert (Et : cons_take s = Ok (c, s1)).
      { unfold cons_take. rewrite gets_bind. unfold mbind at 1, M_bind at 1, cons_at. by rewrite Ec. }
      rewrite (bind_Ok_eq _ _ _ _ _ Et). change (C 68) with 4. case_bool_decide as H4.
      * rewrite (u32_small n) by lia. rewrite (bool_decide_ext (n < target) (¬ n = target)) by lia. rewrite bool_decide_not.
        destruct (bool_decide (n = target)) eqn:Hfirst; cbn [negb].
        -- exists (u32 (cons_r (c_cons s) + 1)). split; [|exact Hk']. unfold mbind at 1, M_bind at 1, mret at 1, M_ret at 1.
           rewrite (cread_done_ok lk h) by done. unfold read_result. do 4 f_equal. rewrite i32_small; simpl; lia.
        -- exists (cons_r (c_cons s)). replace (with_r (cons_r (c_cons s)) (c_cons s)) with (c_cons s) by by destruct (c_cons s).
           split; [|exact Hk]. unfold mbind at 1, M_bind at 1. rewrite gets_bind. unfold set_cons, modify. cbn [c_cons with_cons s1 with_r cons_r].
           rewrite Er. rewrite (cread_done_ok lk h) by done. unfold read_result, unlocked_cons, s1. do 2 f_equal.
           do 2 f_equal. rewrite i32_small; simpl; lia.
      * destruct (copyout dst c u) as [u1|].
        2: { exists (u32 (cons_r (c_cons s) + 1)). split; [|exact Hk'].
             rewrite (cread_done_ok lk h) by done. unfold read_result. do 4 f_equal. rewrite i32_small; simpl; lia. }
        case_bool_decide as H10.
        -- exists (u32 (cons_r (c_cons s) + 1)). split; [|exact Hk'].
           rewrite (cread_done_ok lk h) by done. unfold read_result. do 4 f_equal. rewrite i32_small; simpl; lia.
        -- specialize (IH s1 (dst + 1) (n - 1) d e u1 Hk' Hh Hlk Eh El ltac:(lia) ltac:(lia)).
           rewrite bool_decide_false in IH by lia. destruct (read_spec k false (dst + 1) d u1) as [[[l r] u2] sl].
           destruct IH as (x & Ex & Kx). exists x. split; [|exact Kx]. rewrite Ex.
           replace (target - (n - 1)) with (target - n + 1) by lia. rewrite (cread_result_cons _ _ _ _ _ c). done.
Qed.

(** C27: the console delivers edited lines.  From a calm console with finished
    input [d] and the line [e]: an interrupt with any waiting characters ends
    without panic and has the effect of [intr_spec] for each character in order:
    editing, control-u, control-d, end of line, echo, one [wakeup(&cons.r)] per
    finished line, one [procdump] per control-p.  Then it sends output from the
    ring, with one [wakeup(&uart_tx_r)] per character; nothing else is woken.
    What does not fit into the 128 bytes is dropped, and a full ring is never
    left without a finished line.  A [read] of [n] bytes stores and returns the
    bytes of the first finished line that fit, up to a control-d, which it eats
    and answers with 0 when it is first; it stops short at a byte user memory
    refuses, which is lost; when all finished input is used up first, it goes to
    sleep, or returns -1 if the caller is killed. *)
Theorem console_input (s : cst) d e q killed dst n (u : U) :
  calm s → cons_rep (c_cons s) d e → tx_rep (c_uart s) q → Forall (λ c, 0 ≤ c < 256) (dev_rx (c_dev s)) → 0 ≤ n < 2 ^ 31 →
  let '((d', e'), echo, ev) := intrs_spec (dev_rx (c_dev s)) d e in
  let '(l, rest, u', slept) := read_spec (Z.to_nat n) true dst d u in
  (∃ s' q1 q2, uartintr s = Ok (tt, s') ∧ calm s' ∧ cons_rep (c_cons s') d' e' ∧ dev_rx (c_dev s') = [] ∧
     q = q1 ++ q2 ∧ tx_rep (c_uart s') q2 ∧ line s' = line s ++ echo ++ q1 ∧
     c_evs s' = c_evs s ++ ev ++ ((λ _, WakeTx) <$> q1)) ∧
  (∃ s', consoleread copyout killed dst n u s = Ok ((read_result killed slept 0 dst n l, u'), s') ∧
     calm s' ∧ cons_rep (c_cons s') rest e ∧ line s' = line s ∧ c_uart s' = c_uart s ∧ c_evs s' = c_evs s).
Proof.
  intros Hc Hk Hq Hrx Hn. pose proof (uartintr_rx_ok (dev_rx (c_dev s)) (S (length (dev_rx (c_dev s)))) s d e Hc Hk eq_refl Hrx ltac:(lia)) as H1.
  destruct (intrs_spec _ d e) as [[[d' e'] echo] ev]. destruct H1 as (s1 & E1 & C1 & K1 & U1 & L1 & V1 & R1).
  pose proof (cread_loop_ok killed (cons_lock (c_cons s)) (c_hart s) n (Z.to_nat n) (locked_cons s) dst n d e u
    (cons_rep_lock _ _ _ _ Hk) (cm_hart _ Hc) (cm_cons _ Hc) eq_refl eq_refl ltac:(lia) ltac:(lia)) as H2.
  rewrite bool_decide_true in H2 by done. destruct (read_spec _ true dst d u) as [[[l rest] u'] slept].
  destruct H2 as (x & E2 & K2). split.
  - rewrite <-U1 in Hq. destruct (uartintr_tx_ok s1 q C1 Hq) as (s2 & q1 & q2 & E3 & C3 & F3 & Eq & Q3 & L3 & _ & V3).
    exists s2, q1, q2. destruct F3 as (_ & Fc & _ & _ & _ & _ & _ & Fr). split.
    { unfold uartintr. by rewrite gets_bind, (bind_Ok_eq _ _ _ _ _ E1). }
    split; [done|]. split; [by rewrite Fc|]. split; [by rewrite Fr|]. split; [done|]. split; [done|]. split; [by rewrite L3, L1, app_assoc|].
    by rewrite V3, V1, app_assoc.
  - eexists. split; [unfold consoleread; rewrite (bind_Ok_eq _ _ _ _ _ (lock_cons_ok s Hc)), (u32_small n) by lia;
      rewrite Z.sub_diag in E2; exact E2|].
    split; [by destruct Hc|]. split; [exact (cons_rep_lock _ _ _ _ K2)|]. done.
Qed.
End user.

(** ** The console prints *)

#[export] Instance console_printer_laws : PrinterLaws cst.
Proof.
  refine {| pr_out := line; pr_ready := λ s, hart_good (c_hart s) ∧ c_panicked s = 0 |}.
  intros c s Hc [Hh Hp]. destruct (consputc_ok s c Hc Hh Hp) as (s' & E & T). exists s'. split; [exact E|].
  destruct T as (dv & -> & R & T). done.
Defined.

Lemma typed_prints {A} (m : M cst A) s a t : prints m s a t → ∃ s', m s = Ok (a, s') ∧ line s' = line s ++ t.
Proof. intros (s' & E & _ & _ & H). by exists s'. Qed.

(** ** Typing "lx", backspace, "s", return: the line is "ls" *)
Definition demo_typed : list Z := [108; 120; 127; 115; 13].
Definition demo_cst : cst := with_dev (mkudev [] demo_typed [] []) cst0.

Lemma cst0_cons : cons_rep (c_cons cst0) [] [].
Proof. by constructor. Qed.

(** A console with the finished line "ls\n" in its ring. *)
Definition demo_line : cst :=
  with_cons (mkcons (cons_lock (c_cons cst0)) ([108; 115; 10] ++ replicate 125 0) 0 3 3) demo_cst.

Lemma demo_line_rep : cons_rep (c_cons demo_line) [108; 115; 10] [].
Proof.
  constructor; try done.
  - split; [reflexivity|]. split; [by vm_compute|]. intros [|[|[|k]]] b H; try (injection H as <-; reflexivity).
    by destruct k.
  - repeat constructor; lia.
Qed.

Lemma console_input_witness :
  (∃ s', uartintr demo_cst = Ok (tt, s') ∧ cons_rep (c_cons s') [108; 115; 10] [] ∧
     line s' = [108; 120; 8; 32; 8; 115; 10] ∧ c_evs s' = [WakeCons]) ∧
  (∃ s', consoleread (λ _ c u, Some (u ++ [c])) false 0 5 [] demo_line = Ok ((RRet 3, [108; 115; 10]), s') ∧
     cons_rep (c_cons s') [] []).
Proof.
  assert (Hc : calm demo_cst). { destruct cst0_calm. constructor; assumption. }
  assert (Hc2 : calm demo_line). { destruct cst0_calm. constructor; assumption. }
  assert (Hb : Forall (λ c, 0 ≤ c < 256) (dev_rx (c_dev demo_cst))) by (apply bytes_dec; reflexivity).
  split.
  - destruct (console_input (λ _ c u, Some (u ++ [c])) demo_cst [] [] [] false 0 5 ([] : list Z) Hc cst0_cons cst0_tx Hb ltac:(lia))
      as [(s1 & q1 & q2 & E1 & _ & K1 & _ & Eq & _ & L1 & V1) _].
    exists s1. split; [exact E1|]. split; [exact K1|]. destruct q1; [split; [exact L1|exact V1]|discriminate Eq].
  - destruct (console_input (λ _ c u, Some (u ++ [c])) demo_line [108; 115; 10] [] [] false 0 5 ([] : list Z) Hc2 demo_line_rep cst0_tx Hb ltac:(lia))
      as [_ (s2 & E2 & _ & K2 & _)].
    exists s2. split; [exact E2|exact K2].
Defined.
