(* ===== verification/BlockIO.v ===== *)
(** * What the file system asks of the log and the buffer cache

    fs.c reads, changes and releases blocks inside a transaction.  [BlockEnv]
    is that interface, [BlockLaws] its promises on an abstract view: the
    contents of every block, which blocks the call holds locked, which of those
    have unlogged changes, and which the transaction has logged.  The last
    section discharges the promises with the log of Log.v on any buffer cache
    that keeps those of BufCache.v. *)
From S2P Require Import Prelude Spinlock Sleeplock BufCache Log LogRun LogClaims LogCap LogWrite.

(** The view: [v_home] are the blocks a transaction may change. *)
Record bview := mkview {
  v_data : Z → list Z; v_held : gmap Z nat; v_dirty : gset Z; v_log : list Z; v_home : Z → Prop }.

Definition put_fun (b : Z) (l : list Z) (f : Z → list Z) : Z → list Z := λ k, if decide (k = b) then l else f k.

Definition v_hold (b : Z) (h : nat) (v : bview) : bview := mkview (v_data v) (<[b := h]> (v_held v)) (v_dirty v) (v_log v) (v_home v).
Definition v_store (b : Z) (l : list Z) (v : bview) : bview :=
  mkview (put_fun b l (v_data v)) (v_held v) ({[b]} ∪ v_dirty v) (v_log v) (v_home v).
Definition v_logged (b : Z) (v : bview) : bview :=
  mkview (v_data v) (v_held v) (v_dirty v ∖ {[b]}) (add_block b (v_log v)) (v_home v).
Definition v_release (b : Z) (v : bview) : bview := mkview (v_data v) (delete b (v_held v)) (v_dirty v) (v_log v) (v_home v).
(** A whole change: read, change, log, release. *)
Definition v_write (b : Z) (l : list Z) (v : bview) : bview :=
  mkview (put_fun b l (v_data v)) (v_held v) (v_dirty v) (add_block b (v_log v)) (v_home v).

(** Room for one more block in the log, and for one more buffer. *)
Definition v_can_log (b : Z) (v : bview) : Prop := v_home v b ∧ (b ∈ v_log v ∨ Z.of_nat (length (v_log v)) < MAXOPBLOCKS).
Definition v_room (v : bview) : Prop := (length (v_log v) + size (v_held v) < NBUF)%nat.

Class BlockEnv (B : Type) := {
  be_bread : Z → Z → M B nat;
  be_data : nat → M B (list Z);
  be_store : nat → list Z → M B unit;
  be_log_write : nat → M B unit;
  be_brelse : nat → M B unit;
  be_initlog : Z → Z → Z → M B unit;  (** [initlog(dev, sb)] with the two words it uses *)
  be_hart : B → hart;
  be_set_hart : hart → B → B }.

Class BlockLaws (B : Type) {E : BlockEnv B} := {
  (** [s] is inside a transaction on device [dev] and looks like [v] *)
  be_rep : Z → B → bview → Prop;
  be_bread_law dev b s v : be_rep dev s v → v_held v !! b = None → v_room v →
    ∃ h s', be_bread dev b s = Ok (h, s') ∧ be_rep dev s' (v_hold b h v) ∧ be_hart s' = be_hart s;
  be_data_law dev b h s v : be_rep dev s v → v_held v !! b = Some h → be_data h s = Ok (v_data v b, s);
  be_store_law dev b h l s v : be_rep dev s v → v_held v !! b = Some h →
    ∃ s', be_store h l s = Ok (tt, s') ∧ be_rep dev s' (v_store b l v) ∧ be_hart s' = be_hart s;
  be_log_law dev b h s v : be_rep dev s v → v_held v !! b = Some h → v_can_log b v →
    ∃ s', be_log_write h s = Ok (tt, s') ∧ be_rep dev s' (v_logged b v) ∧ be_hart s' = be_hart s;
  be_release_law dev b h s v : be_rep dev s v → v_held v !! b = Some h → b ∉ v_dirty v →
    ∃ s', be_brelse h s = Ok (tt, s') ∧ be_rep dev s' (v_release b v) ∧ be_hart s' = be_hart s;
  be_ext dev s v v' : be_rep dev s v → (∀ b, v_data v' b = v_data v b) → v_held v' = v_held v → v_dirty v' = v_dirty v →
    v_log v' = v_log v → v_home v' = v_home v → be_rep dev s v';
  be_hart_good dev s v : be_rep dev s v → hart_good (be_hart s);
  be_hart_rep dev s v h : be_rep dev s v → hart_good h → be_rep dev (be_set_hart h s) v;
  be_hart_set h s : be_hart (be_set_hart h s) = h;
  be_hart_set2 h h' s : be_set_hart h (be_set_hart h' s) = be_set_hart h s;
  be_hart_get s : be_set_hart (be_hart s) s = s }.

(** ** The log on a buffer cache *)
Section log.
Context {S : Type} `{C : !BufCache S} `{!BufCacheLaws S}.
Abbreviation L := (lst S).

#[export] Instance log_blocks : BlockEnv L := {
  be_bread dev b := inbc (BufCache.bread dev b);
  be_data h := inbc (BufCache.bdata h);
  be_store h l := inbc (BufCache.bstore h l);
  be_log_write := log_write;
  be_brelse h := inbc (BufCache.brelse h);
  be_initlog := initlog;
  be_hart s := bc_hart (l_bc s);
  be_set_hart h s := with_bc (bc_set_hart h (l_bc s)) s }.

(** The entries of the cache: logged blocks are pinned, held ones locked. *)
Definition entry (v : bview) (k : Z) : option cbuf :=
  if decide (k ∈ v_log v) then Some (mkcbuf (v_data v k) (match v_held v !! k with Some _ => 2 | None => 1 end) (v_held v !! k))
  else match v_held v !! k with Some h => Some (mkcbuf (v_data v k) 1 (Some h)) | None => None end.

Record log_rep (dev : Z) (s : L) (v : bview) : Prop := {
  lr_dev : log_dev s = dev;
  lr_cache : ∃ d bufs, lrep s (mkcache d bufs) ∧ (∀ k, bufs !! k = entry v k) ∧
    ∀ k, k ∉ v_log v → k ∉ v_dirty v → v_data v k = dread d k;
  lr_heads : heads s (v_log v);
  lr_nodup : NoDup (v_log v);
  lr_len : Z.of_nat (length (v_log v)) ≤ MAXOPBLOCKS;
  lr_lock : lock_quiet (log_lock s);
  lr_out : log_outstanding s = 1;
  lr_com : log_committing s = 0;
  lr_size : MAXOPBLOCKS + 1 < log_size s;
  lr_home : ∀ k, v_home v k → home (log_start s) (log_size s) k;
  lr_homes : ∀ k, k ∈ v_log v → v_home v k;
  lr_dirty : ∀ k, k ∈ v_dirty v → is_Some (v_held v !! k) }.

Lemma size_union_sum (X Y : gset Z) : (size (X ∪ Y) ≤ size X + size Y)%nat.
Proof. rewrite size_union_alt. pose proof (subseteq_size (Y ∖ X) Y ltac:(set_solver)). lia. Qed.

Lemma entry_size v (bufs : gmap Z cbuf) : (∀ k, bufs !! k = entry v k) → NoDup (v_log v) → (size bufs ≤ length (v_log v) + size (v_held v))%nat.
Proof.
  intros Hb Hnd. rewrite <-(size_dom (D := gset Z) bufs), <-(size_dom (D := gset Z) (v_held v)).
  rewrite <-(size_list_to_set (C := gset Z) (v_log v)) by done. etrans; [|apply size_union_sum].
  apply subseteq_size. intros k Hk. apply elem_of_dom in Hk as [x Hx]. rewrite Hb in Hx. unfold entry in Hx.
  apply elem_of_union. case_decide; [left; by apply elem_of_list_to_set|]. right. apply elem_of_dom.
  destruct (v_held v !! k); [done|discriminate].
Qed.

(** The cache after one of its entries changed. *)
Lemma entries_put (bufs : gmap Z cbuf) v v' b x :
  (∀ k, bufs !! k = entry v k) → entry v' b = Some x → (∀ k, k ≠ b → entry v' k = entry v k) →
  ∀ k, <[b := x]> bufs !! k = entry v' k.
Proof.
  intros Hb Hx Ho k. destruct (decide (k = b)) as [->|Hk]; [by rewrite lookup_insert_eq|].
  by rewrite lookup_insert_ne, Ho.
Qed.

Lemma with_bc_rep dev s b v v' :
  log_rep dev s v → v_log v' = v_log v → v_home v' = v_home v → (∀ k, k ∈ v_dirty v' → is_Some (v_held v' !! k)) →
  (∃ d bufs, bc_rep dev b (mkcache d bufs) ∧ (∀ k, bufs !! k = entry v' k) ∧
    ∀ k, k ∉ v_log v' → k ∉ v_dirty v' → v_data v' k = dread d k) →
  log_rep dev (with_bc b s) v'.
Proof.
  intros [] El Eh Hd (d & bufs & Hr & Hb & Hc). rewrite El in Hc. constructor; rewrite ?El, ?Eh; try done.
  exists d, bufs. split; [|done]. unfold lrep. cbn. by rewrite lr_dev0.
Qed.

Lemma log_bread dev b s v : log_rep dev s v → v_held v !! b = None → v_room v →
  ∃ h s', be_bread dev b s = Ok (h, s') ∧ log_rep dev s' (v_hold b h v) ∧ be_hart s' = be_hart s.
Proof.
  intros Hr Hn Hroom. destruct (lr_cache _ _ _ Hr) as (d & bufs & Hrep & Hb & Hc). unfold lrep in Hrep. rewrite (lr_dev _ _ _ Hr) in Hrep.
  pose proof (Hb b) as Hbb. unfold entry in Hbb. rewrite Hn in Hbb.
  assert (Hread : ∃ h b', BufCache.bread dev b (l_bc s) = Ok (h, b') ∧ bc_hart b' = bc_hart (l_bc s) ∧
    bc_rep dev b' (c_put b (mkcbuf (v_data v b) (if decide (b ∈ v_log v) then 2 else 1) (Some h)) (mkcache d bufs))).
  { destruct (decide (b ∈ v_log v)) as [Hin|Hin].
    - destruct (bread_entry dev b _ _ _ _ Hrep Hbb) as (h & b' & E & R & Hh); [done|]. by exists h, b'.
    - destruct (bread_fresh dev b _ _ Hrep Hbb) as (h & b' & E & R & Hh).
      { cbn. pose proof (entry_size v bufs Hb (lr_nodup _ _ _ Hr)). unfold v_room in Hroom. lia. }
      exists h, b'. rewrite Hc; [done|done|]. intros Hd%(lr_dirty _ _ _ Hr). rewrite Hn in Hd. by destruct Hd. }
  destruct Hread as (h & b' & E & Hh & R). exists h, (with_bc b' s). split; [cbn; unfold inbc; by rewrite E|]. split; [|exact Hh].
  apply (with_bc_rep dev s b' v); [done|done|done| |].
  - intros k Hk%(lr_dirty _ _ _ Hr). cbn. destruct (decide (k = b)) as [->|]; [by rewrite lookup_insert_eq|by rewrite lookup_insert_ne].
  - exists d, (<[b := mkcbuf (v_data v b) (if decide (b ∈ v_log v) then 2 else 1) (Some h)]> bufs).
    split; [exact R|]. split; [|exact Hc]. apply (entries_put bufs v); [done| |].
    + unfold entry. cbn. rewrite lookup_insert_eq. by case_decide.
    + intros k Hk. unfold entry. cbn. by rewrite lookup_insert_ne.
Qed.

(** The entry of a block that is held. *)
Lemma held_entry dev s v b h : log_rep dev s v → v_held v !! b = Some h →
  ∃ d bufs, bc_rep dev (l_bc s) (mkcache d bufs) ∧ (∀ k, bufs !! k = entry v k) ∧
    (∀ k, k ∉ v_log v → k ∉ v_dirty v → v_data v k = dread d k) ∧
    bufs !! b = Some (mkcbuf (v_data v b) (if decide (b ∈ v_log v) then 2 else 1) (Some h)).
Proof.
  intros Hr Hh. destruct (lr_cache _ _ _ Hr) as (d & bufs & Hrep & Hb & Hc). unfold lrep in Hrep. rewrite (lr_dev _ _ _ Hr) in Hrep.
  exists d, bufs. split; [done|]. split; [done|]. split; [done|]. rewrite Hb. unfold entry. rewrite Hh. by case_decide.
Qed.

Lemma log_data dev b h s v : log_rep dev s v → v_held v !! b = Some h → be_data h s = Ok (v_data v b, s).
Proof.
  intros Hr Hh. destruct (held_entry dev s v b h Hr Hh) as (d & bufs & Hrep & _ & _ & He). cbn. unfold inbc.
  rewrite (bdata_entry dev b h _ _ _ _ Hrep He). by destruct s.
Qed.

Lemma log_store dev b h l s v : log_rep dev s v → v_held v !! b = Some h →
  ∃ s', be_store h l s = Ok (tt, s') ∧ log_rep dev s' (v_store b l v) ∧ be_hart s' = be_hart s.
Proof.
  intros Hr Hh. destruct (held_entry dev s v b h Hr Hh) as (d & bufs & Hrep & Hb & Hc & He).
  destruct (bstore_entry dev b h _ _ _ _ l Hrep He) as (b' & E & R & Hhart). exists (with_bc b' s).
  split; [cbn; unfold inbc; by rewrite E|]. split; [|exact Hhart]. apply (with_bc_rep dev s b' v); [done|done|done| |].
  - intros k. cbn. rewrite elem_of_union, elem_of_singleton. intros [->|Hk]; [by rewrite Hh|]. by apply (lr_dirty _ _ _ Hr).
  - exists d, (<[b := mkcbuf l (if decide (b ∈ v_log v) then 2 else 1) (Some h)]> bufs). split; [exact R|]. split.
    + apply (entries_put bufs v); [done| |]; unfold entry; cbn; unfold put_fun.
      * rewrite Hh, (decide_True (P := b = b)) by done. by case_decide.
      * intros k Hk. by rewrite (decide_False (P := k = b)).
    + intros k. cbn. unfold put_fun. intros Hl Hd. rewrite decide_False by set_solver. apply Hc; [done|set_solver].
Qed.

Lemma log_release dev b h s v : log_rep dev s v → v_held v !! b = Some h → b ∉ v_dirty v →
  ∃ s', be_brelse h s = Ok (tt, s') ∧ log_rep dev s' (v_release b v) ∧ be_hart s' = be_hart s.
Proof.
  intros Hr Hh Hd. destruct (held_entry dev s v b h Hr Hh) as (d & bufs & Hrep & Hb & Hc & He).
  assert (Hrel : ∃ b' bufs', BufCache.brelse h (l_bc s) = Ok (tt, b') ∧ bc_hart b' = bc_hart (l_bc s) ∧
    bc_rep dev b' (mkcache d bufs') ∧ bufs' !! b = entry (v_release b v) b ∧ ∀ k, k ≠ b → bufs' !! k = bufs !! k).
  { unfold entry. cbn. rewrite lookup_delete_eq. destruct (decide (b ∈ v_log v)) as [Hin|Hin].
    - destruct (brelse_entry dev b h _ _ _ _ Hrep He) as (b' & E & R & Hh'); [lia|].
      exists b', (<[b := mkcbuf (v_data v b) 1 None]> bufs). split; [done|]. split; [done|]. split; [exact R|].
      split; [by rewrite lookup_insert_eq|]. intros k Hk. by rewrite lookup_insert_ne.
    - destruct (brelse_last dev b h _ _ _ Hrep He) as (b' & E & R & Hh'); [by apply Hc|].
      exists b', (delete b bufs). split; [done|]. split; [done|]. split; [exact R|].
      split; [by rewrite lookup_delete_eq|]. intros k Hk. by rewrite lookup_delete_ne. }
  destruct Hrel as (b' & bufs' & E & Hhart & R & Hbb & Hbo). exists (with_bc b' s).
  split; [cbn; unfold inbc; by rewrite E|]. split; [|exact Hhart]. apply (with_bc_rep dev s b' v); [done|done|done| |].
  - intros k. cbn. intros Hk. rewrite lookup_delete_ne by set_solver. by apply (lr_dirty _ _ _ Hr).
  - exists d, bufs'. split; [done|]. split; [|exact Hc]. intros k. destruct (decide (k = b)) as [->|Hk]; [done|].
    rewrite Hbo, Hb by done. unfold entry. cbn. by rewrite lookup_delete_ne.
Qed.

Lemma log_logged dev b h s v : log_rep dev s v → v_held v !! b = Some h → v_can_log b v →
  ∃ s', be_log_write h s = Ok (tt, s') ∧ log_rep dev s' (v_logged b v) ∧ be_hart s' = be_hart s.
Proof.
  intros Hr Hh [Hhome Hroom]. destruct (held_entry dev s v b h Hr Hh) as (d & bufs & Hrep & Hb & Hc & He).
  destruct Hr as [Hdev _ Hheads Hnd Hlen Hlk Hout Hcom Hsz Hho Hhs Hdi]. pose proof (Hho b Hhome) as [Hbr _].
  assert (Hlr : lrep s (mkcache d bufs)) by (unfold lrep; by rewrite Hdev). unfold MAXOPBLOCKS in *.
  destruct (log_write_run s _ (v_log v) b h (v_data v b) (if decide (b ∈ v_log v) then 2 else 1)%nat Hlr Hheads) as (s' & E & Hh' & R & Hlk' & Ho' & Hc' & Hst' & Hsz' & Hd' & Hhart); try done.
  { intros k Hk%Hhs%Hho. apply Hk. } { lia. } { unfold LOGSIZE, MAXOPBLOCKS. lia. } { lia. } { by case_decide. }
  exists s'. split; [exact E|].
  split; [|exact Hhart]. constructor; cbn; try done; try congruence.
  - exists d. destruct (decide (b ∈ v_log v)) as [Hin|Hin].
    + assert (Ea : add_block b (v_log v) = v_log v) by (unfold add_block; by rewrite decide_True).
      exists bufs. split; [exact R|]. split; [intros k; unfold entry; cbn; rewrite Ea; apply Hb|].
      intros k. rewrite Ea. intros Hk Hk2. apply Hc; [done|set_solver].
    + assert (Ea : add_block b (v_log v) = v_log v ++ [b]) by (unfold add_block; by rewrite decide_False).
      eexists. split; [exact R|]. split.
      * apply (entries_put bufs v); [done| |]; unfold entry; cbn; rewrite Ea.
        -- rewrite decide_True by set_solver. by rewrite Hh.
        -- intros k Hk. repeat case_decide; set_solver.
      * intros k. rewrite Ea. intros Hk Hk2. apply Hc; set_solver.
  - unfold add_block. case_decide; [done|]. apply NoDup_app. split; [done|]. split; [set_solver|apply NoDup_singleton].
  - unfold add_block. case_decide; [done|]. rewrite length_app. simpl. destruct Hroom; [done|]. unfold MAXOPBLOCKS in *. lia.
  - by rewrite Hsz'.
  - intros k Hk. rewrite Hst', Hsz'. by apply Hho.
  - intros k. unfold add_block. case_decide; [by apply Hhs|]. rewrite elem_of_app, list_elem_of_singleton. intros [Hk| ->]; [by apply Hhs|done].
  - intros k Hk. apply Hdi. set_solver.
Qed.
#[export] Instance log_block_laws : BlockLaws L.
Proof.
  refine {| be_rep := log_rep |}.
  - apply log_bread.
  - apply log_data.
  - apply log_store.
  - apply log_logged.
  - apply log_release.
  - intros dev s v v' [] Hv Hh Hd Hl Hm. constructor; rewrite ?Hl, ?Hm, ?Hd, ?Hh; try done.
    destruct lr_cache0 as (d & bufs & Hrep & Hb & Hc). exists d, bufs. split; [done|]. split.
    + intros k. rewrite Hb. unfold entry. by rewrite Hl, Hh, Hv.
    + intros k. rewrite Hv. apply Hc.
  - intros dev s v Hr. destruct (lr_cache _ _ _ Hr) as (d & bufs & Hrep & _). cbn. eapply bc_hart_good. exact Hrep.
  - intros dev s v h Hr Hh. apply (with_bc_rep dev s _ v v Hr); [done|done|by apply (lr_dirty _ _ _ Hr)|].
    destruct (lr_cache _ _ _ Hr) as (d & bufs & Hrep & Hb & Hc). exists d, bufs. split; [|done]. unfold lrep in Hrep.
    rewrite (lr_dev _ _ _ Hr) in Hrep. by apply bc_hart_rep.
  - intros h s. apply bc_hart_set.
  - intros h h' s. cbn. unfold with_bc. cbn. by rewrite bc_hart_set2.
  - intros s. cbn. rewrite bc_hart_get. by destruct s.
Defined.
End log.
