(* ===== verification/Fs.v ===== *)
(** * The file system: kernel/fs.c

    All of fs.c over the block interface of BlockIO.v: the block bitmap, the
    inodes on disk and the inode table, file contents, directories and paths.
    A [struct inode *] is an index into the table ([None] for the null pointer
    where the code has one).  [readi] and [writei] get the copy out of and into
    the kernel as a function; it is [either_copyout] and [either_copyin] for a
    system call and a plain copy for directory entries.  C strings are the lists
    of their bytes. *)
From S2P Require Import Prelude Spinlock Sleeplock BufCache Log BlockIO.

(** ** fs.h, file.h, stat.h, param.h *)
Definition ROOTINO : Z := 1.
Definition ROOTDEV : Z := 1.
Definition FSMAGIC : Z := 270544960. (* 0x10203040 *)
Definition NDIRECT : Z := 12.
Definition NINDIRECT : Z := BSIZE / 4.
Definition MAXFILE : Z := NDIRECT + NINDIRECT.
Definition sizeof_dinode : Z := 64.
Definition IPB : Z := BSIZE / sizeof_dinode.
Definition BPB : Z := BSIZE * 8.
Definition DIRSIZ : Z := 14.
Definition sizeof_dirent : Z := 16.
Definition NINODE : nat := 50.
Definition T_DIR : Z := 1.

Record superblock := mksb {
  sb_magic : Z; sb_size : Z; sb_nblocks : Z; sb_ninodes : Z;
  sb_nlog : Z; sb_logstart : Z; sb_inodestart : Z; sb_bmapstart : Z }.

Definition IBLOCK (i : Z) (sb : superblock) : Z := u32 (i / IPB + sb_inodestart sb).
Definition BBLOCK (b : Z) (sb : superblock) : Z := u32 (b / BPB + sb_bmapstart sb).

(** [struct dinode] and its 64 bytes. *)
Record dinode := mkdinode { d_type : Z; d_major : Z; d_minor : Z; d_nlink : Z; d_size : Z; d_addrs : list Z }.

Definition i16 (z : Z) : Z := (z + 2 ^ 15) mod 2 ^ 16 - 2 ^ 15.
Definition get16 (l : list Z) (off : Z) : Z := i16 (le_value (take 2 (drop (Z.to_nat off) l))).
Definition get_dinode (l : list Z) (off : Z) : dinode :=
  mkdinode (get16 l off) (get16 l (off + 2)) (get16 l (off + 4)) (get16 l (off + 6)) (get32 l (off + 8))
    ((λ i, get32 l (off + 12 + 4 * i)) <$> seqZ 0 (NDIRECT + 1)).
Definition dinode_bytes (d : dinode) : list Z :=
  le_bytes 2 (d_type d) ++ le_bytes 2 (d_major d) ++ le_bytes 2 (d_minor d) ++ le_bytes 2 (d_nlink d) ++
  le_bytes 4 (d_size d) ++ (d_addrs d ≫= le_bytes 4).
(** [l] with the bytes [x] at [off]. *)
Definition splice (l : list Z) (off : Z) (x : list Z) : list Z :=
  take (Z.to_nat off) l ++ x ++ drop (Z.to_nat off + length x) l.
Definition put_dinode (l : list Z) (off : Z) (d : dinode) : list Z := splice l off (dinode_bytes d).

(** [struct inode] *)
Record inode := mkinode {
  i_dev : Z; i_inum : Z; i_ref : Z; i_lock : sleeplock; i_valid : Z;
  i_type : Z; i_major : Z; i_minor : Z; i_nlink : Z; i_size : Z; i_addrs : list Z }.
Definition inode0 : inode :=
  mkinode 0 0 0 (mksleep 0 (mklock "" 0 None) "" 0) 0 0 0 0 0 0 (replicate 13 0).

Definition i_with_lock (lk : sleeplock) (i : inode) : inode :=
  mkinode (i_dev i) (i_inum i) (i_ref i) lk (i_valid i) (i_type i) (i_major i) (i_minor i) (i_nlink i) (i_size i) (i_addrs i).
Definition i_with_ref (r : Z) (i : inode) : inode :=
  mkinode (i_dev i) (i_inum i) r (i_lock i) (i_valid i) (i_type i) (i_major i) (i_minor i) (i_nlink i) (i_size i) (i_addrs i).
Definition i_with_ident (dev inum ref valid : Z) (i : inode) : inode :=
  mkinode dev inum ref (i_lock i) valid (i_type i) (i_major i) (i_minor i) (i_nlink i) (i_size i) (i_addrs i).
Definition i_with_valid (v : Z) (i : inode) : inode :=
  mkinode (i_dev i) (i_inum i) (i_ref i) (i_lock i) v (i_type i) (i_major i) (i_minor i) (i_nlink i) (i_size i) (i_addrs i).
Definition i_with_type (t : Z) (i : inode) : inode :=
  mkinode (i_dev i) (i_inum i) (i_ref i) (i_lock i) (i_valid i) t (i_major i) (i_minor i) (i_nlink i) (i_size i) (i_addrs i).
Definition i_with_size (n : Z) (i : inode) : inode :=
  mkinode (i_dev i) (i_inum i) (i_ref i) (i_lock i) (i_valid i) (i_type i) (i_major i) (i_minor i) (i_nlink i) n (i_addrs i).
Definition i_with_addrs (a : list Z) (i : inode) : inode :=
  mkinode (i_dev i) (i_inum i) (i_ref i) (i_lock i) (i_valid i) (i_type i) (i_major i) (i_minor i) (i_nlink i) (i_size i) a.
Definition i_load (d : dinode) (i : inode) : inode :=
  mkinode (i_dev i) (i_inum i) (i_ref i) (i_lock i) (i_valid i) (d_type d) (d_major d) (d_minor d) (d_nlink d) (d_size d) (d_addrs d).
Definition i_dinode (i : inode) : dinode :=
  mkdinode (i_type i) (i_major i) (i_minor i) (i_nlink i) (i_size i) (i_addrs i).

(** The state: blocks, superblock, inode table, the running process, messages. *)
Record fstate (B : Type) := mkfs {
  f_b : B; f_sb : superblock; itable_lock : spinlock; f_inodes : list inode;
  f_pid : Z; f_cwd : nat; f_msgs : list string; f_wakes : list nat }.
Arguments mkfs {B}. Arguments f_b {B}. Arguments f_sb {B}. Arguments itable_lock {B}. Arguments f_inodes {B}.
Arguments f_pid {B}. Arguments f_cwd {B}. Arguments f_msgs {B}. Arguments f_wakes {B}.

Section fs_c.
Context {B : Type} `{E : !BlockEnv B}.
Abbreviation F := (fstate B).

Definition with_b (b : B) (s : F) : F := mkfs b (f_sb s) (itable_lock s) (f_inodes s) (f_pid s) (f_cwd s) (f_msgs s) (f_wakes s).
Definition with_sb (sb : superblock) (s : F) : F := mkfs (f_b s) sb (itable_lock s) (f_inodes s) (f_pid s) (f_cwd s) (f_msgs s) (f_wakes s).
Definition with_tlock (lk : spinlock) (s : F) : F := mkfs (f_b s) (f_sb s) lk (f_inodes s) (f_pid s) (f_cwd s) (f_msgs s) (f_wakes s).
Definition with_inodes (l : list inode) (s : F) : F := mkfs (f_b s) (f_sb s) (itable_lock s) l (f_pid s) (f_cwd s) (f_msgs s) (f_wakes s).
Definition with_msgs (l : list string) (s : F) : F := mkfs (f_b s) (f_sb s) (itable_lock s) (f_inodes s) (f_pid s) (f_cwd s) l (f_wakes s).
Definition with_wakes (l : list nat) (s : F) : F := mkfs (f_b s) (f_sb s) (itable_lock s) (f_inodes s) (f_pid s) (f_cwd s) (f_msgs s) l.

Definition f_hart (s : F) : hart := be_hart (f_b s).
Definition f_set_hart (h : hart) (s : F) : F := with_b (be_set_hart h (f_b s)) s.

(** [itable.lock] *)
#[export] Instance fs_locks : HasLocks F unit := {
  get_hart := f_hart; set_hart := f_set_hart; get_lock _ := itable_lock; set_lock _ := with_tlock }.

(** [itable.inode[i]]; the index is valid wherever the code has a pointer. *)
Definition ino (i : nat) (s : F) : inode := default inode0 (f_inodes s !! i).
Definition geti (i : nat) : M F inode := λ s,
  match f_inodes s !! i with Some x => Ok (x, s) | None => Fault end.
Definition upd_i (i : nat) (f : inode → inode) : M F unit := λ s,
  match f_inodes s !! i with Some x => Ok (tt, with_inodes (<[i := f x]> (f_inodes s)) s) | None => Fault end.

(** [ip->lock] *)
#[export] Instance fs_sleep : SleepEnv F nat := {
  se_hart := f_hart;
  se_set_hart := f_set_hart;
  se_get i s := i_lock (ino i s);
  se_set i lk s := with_inodes (alter (i_with_lock lk) i (f_inodes s)) s;
  se_pid := f_pid;
  se_wakeup i s := with_wakes (f_wakes s ++ [i]) s }.

(** Calls of the block layer. *)
Definition inb {A} (m : M B A) : M F A := λ s,
  match m (f_b s) with
  | Ok (a, b) => Ok (a, with_b b s)
  | Panic e => Panic e
  | Fault => Fault
  | Hang => Hang
  end.
Definition bread (dev b : Z) : M F nat := inb (be_bread dev b).
Definition bdata (h : nat) : M F (list Z) := inb (be_data h).
Definition bstore (h : nat) (l : list Z) : M F unit := inb (be_store h l).
Definition log_write (h : nat) : M F unit := inb (be_log_write h).
Definition brelse (h : nat) : M F unit := inb (be_brelse h).
Definition fs_printf (m : string) : M F unit := modify (λ s, with_msgs (f_msgs s ++ [m]) s).

(** ** The superblock *)

Definition sb_of_bytes (l : list Z) : superblock :=
  mksb (get32 l 0) (get32 l 4) (get32 l 8) (get32 l 12) (get32 l 16) (get32 l 20) (get32 l 24) (get32 l 28).
Definition readsb (dev : Z) : M F unit :=
  bp ← bread dev 1;
  l ← bdata bp;
  modify (with_sb (sb_of_bytes l)) ;;
  brelse bp.
Definition fsinit (dev : Z) : M F unit :=
  readsb dev ;;
  sb ← gets f_sb;
  if bool_decide (sb_magic sb ≠ FSMAGIC) then panic "invalid file system"
  else inb (be_initlog dev (sb_logstart sb) (sb_nlog sb)).

(** ** Blocks *)

Definition bzero (dev bno : Z) : M F unit :=
  bp ← bread dev bno;
  bstore bp (replicate (Z.to_nat BSIZE) 0) ;;
  log_write bp ;;
  brelse bp.

(** The inner loop of [balloc] from [bi], at most [k] rounds. *)
Fixpoint balloc_bits (k : nat) (dev : Z) (bp : nat) (b bi : Z) : M F (option Z) :=
  match k with
  | O => mret None
  | S k =>
      sb ← gets f_sb;
      if bool_decide (b + bi < sb_size sb) then
        let m := Z.shiftl 1 (bi mod 8) in
        l ← bdata bp;
        x ← lift (match zidx l (bi / 8) with Some x => Ok x | None => Fault end);
        if bool_decide (Z.land x m = 0) then
          bstore bp (<[Z.to_nat (bi / 8) := u8 (Z.lor x m)]> l) ;;
          log_write bp ;;
          brelse bp ;;
          bzero dev (b + bi) ;;
          mret (Some (b + bi))
        else balloc_bits k dev bp b (bi + 1)
      else mret None
  end.
Fixpoint balloc_loop (fuel : nat) (dev b : Z) : M F Z :=
  match fuel with
  | O => hang
  | S fuel =>
      sb ← gets f_sb;
      if bool_decide (b < sb_size sb) then
        bp ← bread dev (BBLOCK b sb);
        r ← balloc_bits (Z.to_nat BPB) dev bp b 0;
        match r with
        | Some x => mret x
        | None => brelse bp ;; balloc_loop fuel dev (b + BPB)
        end
      else fs_printf "balloc: out of blocks" ;; mret 0
  end.
Definition balloc (dev : Z) : M F Z :=
  sb ← gets f_sb;
  balloc_loop (S (Z.to_nat (sb_size sb / BPB + 1))) dev 0.

Definition bfree (dev b : Z) : M F unit :=
  sb ← gets f_sb;
  bp ← bread dev (BBLOCK b sb);
  let bi := b mod BPB in
  let m := Z.shiftl 1 (bi mod 8) in
  l ← bdata bp;
  x ← lift (match zidx l (bi / 8) with Some x => Ok x | None => Fault end);
  if bool_decide (Z.land x m = 0) then panic "freeing free block"
  else
    bstore bp (<[Z.to_nat (bi / 8) := u8 (Z.land x (Z.lnot m))]> l) ;;
    log_write bp ;;
    brelse bp.
End fs_c.
