(* ===== verification/Inode.v ===== *)
(** * Inodes: the second half of kernel/fs.c up to [writei]

    The inode table, reading and writing inodes, the block map of a file, and
    the contents of files. *)
From S2P Require Import Prelude Spinlock Sleeplock BufCache Log BlockIO Fs.

Section inode_c.
Context {B : Type} `{E : !BlockEnv B}.
Abbreviation F := (fstate B).

Definition iinit : M F unit :=
  modify (with_tlock (initlock "itable")) ;;
  forM (seq 0 NINODE) (λ i, upd_i i (i_with_lock (initsleeplock "inode"))).

(** ** The inode table *)

(** The search of [iget] from slot [i]: the inode, or the first empty slot. *)
Fixpoint iget_scan (k : nat) (i : nat) (dev inum : Z) (empty : option nat) : M F (nat + option nat) :=
  match k with
  | O => mret (inr empty)
  | S k =>
      x ← geti i;
      if bool_decide (i_ref x > 0) && bool_decide (i_dev x = dev) && bool_decide (i_inum x = inum) then mret (inl i)
      else
        let empty := match empty with
                     | None => if bool_decide (i_ref x = 0) then Some i else None
                     | Some e => Some e
                     end in
        iget_scan k (S i) dev inum empty
  end.
Definition iget (dev inum : Z) : M F nat :=
  acquireM tt ;;
  r ← iget_scan NINODE 0 dev inum None;
  match r with
  | inl i => upd_i i (λ x, i_with_ref (i32 (i_ref x + 1)) x) ;; releaseM tt ;; mret i
  | inr None => panic "iget: no inodes"
  | inr (Some i) => upd_i i (i_with_ident dev inum 1 0) ;; releaseM tt ;; mret i
  end.

Definition idup (i : nat) : M F nat :=
  acquireM tt ;; upd_i i (λ x, i_with_ref (i32 (i_ref x + 1)) x) ;; releaseM tt ;; mret i.

(** ** Inodes on disk *)

Fixpoint ialloc_loop (fuel : nat) (dev type inum : Z) : M F nat :=
  match fuel with
  | O => hang
  | S fuel =>
      sb ← gets f_sb;
      if bool_decide (inum < sb_ninodes sb) then
        bp ← bread dev (IBLOCK inum sb);
        l ← bdata bp;
        let off := inum mod IPB * sizeof_dinode in
        if bool_decide (d_type (get_dinode l off) = 0) then
          bstore bp (put_dinode l off (mkdinode type 0 0 0 0 (replicate 13 0))) ;;
          log_write bp ;;
          brelse bp ;;
          iget dev inum
        else brelse bp ;; ialloc_loop fuel dev type (inum + 1)
      else panic "ialloc: no inodes"
  end.
Definition ialloc (dev type : Z) : M F nat :=
  sb ← gets f_sb; ialloc_loop (S (Z.to_nat (sb_ninodes sb))) dev type 1.

Definition iupdate (ip : nat) : M F unit :=
  x ← geti ip; sb ← gets f_sb;
  bp ← bread (i_dev x) (IBLOCK (i_inum x) sb);
  l ← bdata bp;
  bstore bp (put_dinode l (i_inum x mod IPB * sizeof_dinode) (i_dinode x)) ;;
  log_write bp ;;
  brelse bp.

Definition ilock (ip : nat) : M F unit :=
  x ← geti ip;
  if bool_decide (i_ref x < 1) then panic "ilock"
  else
    acquiresleep ip ;;
    x ← geti ip;
    if bool_decide (i_valid x = 0) then
      sb ← gets f_sb;
      bp ← bread (i_dev x) (IBLOCK (i_inum x) sb);
      l ← bdata bp;
      upd_i ip (i_load (get_dinode l (i_inum x mod IPB * sizeof_dinode))) ;;
      brelse bp ;;
      upd_i ip (i_with_valid 1) ;;
      x ← geti ip;
      if bool_decide (i_type x = 0) then panic "ilock: no type" else mret tt
    else mret tt.

Definition iunlock (ip : nat) : M F unit :=
  held ← holdingsleep ip;
  x ← geti ip;
  if negb held || bool_decide (i_ref x < 1) then panic "iunlock" else releasesleep ip.

(** ** The blocks of a file *)

(** [ip->addrs[i]] and [ip->addrs[i] = a] *)
Definition get_addr (ip : nat) (i : Z) : M F Z :=
  x ← geti ip; lift (match zidx (i_addrs x) i with Some a => Ok a | None => Fault end).
Definition set_addr (ip : nat) (i a : Z) : M F unit :=
  x ← geti ip;
  match zupd (i_addrs x) i a with
  | Some l => upd_i ip (i_with_addrs l)
  | None => fault
  end.

(** [a] when it is not 0, else a new block, which [set] stores. *)
Definition bmap_slot (dev a : Z) (set : Z → M F unit) : M F Z :=
  if bool_decide (a = 0) then
    a ← balloc dev;
    if bool_decide (a = 0) then mret 0 else set a ;; mret a
  else mret a.

Definition bmap (ip : nat) (bn : Z) : M F Z :=
  x ← geti ip;
  if bool_decide (bn < NDIRECT) then
    a ← get_addr ip bn;
    bmap_slot (i_dev x) a (set_addr ip bn)
  else
    let bn := bn - NDIRECT in
    if bool_decide (bn < NINDIRECT) then
      a ← get_addr ip NDIRECT;
      addr ← bmap_slot (i_dev x) a (set_addr ip NDIRECT);
      if bool_decide (addr = 0) then mret 0
      else
        bp ← bread (i_dev x) addr;
        l ← bdata bp;
        addr ← bmap_slot (i_dev x) (get32 l (4 * bn)) (λ a, bstore bp (put32 l (4 * bn) a) ;; log_write bp);
        brelse bp ;;
        mret addr
    else panic "bmap: out of range".

Definition trunc_direct (ip : nat) (i : Z) : M F unit :=
  x ← geti ip;
  a ← get_addr ip i;
  if bool_decide (a ≠ 0) then bfree (i_dev x) a ;; set_addr ip i 0 else mret tt.
Definition trunc_indirect (dev : Z) (l : list Z) (j : Z) : M F unit :=
  let a := get32 l (4 * j) in
  if bool_decide (a ≠ 0) then bfree dev a else mret tt.
Definition itrunc (ip : nat) : M F unit :=
  forM (seqZ 0 NDIRECT) (trunc_direct ip) ;;
  x ← geti ip;
  a ← get_addr ip NDIRECT;
  (if bool_decide (a ≠ 0) then
     bp ← bread (i_dev x) a;
     l ← bdata bp;
     forM (seqZ 0 NINDIRECT) (trunc_indirect (i_dev x) l) ;;
     brelse bp ;;
     bfree (i_dev x) a ;;
     set_addr ip NDIRECT 0
   else mret tt) ;;
  upd_i ip (i_with_size 0) ;;
  iupdate ip.

(** ** The end of an inode *)

Definition iput (ip : nat) : M F unit :=
  acquireM tt ;;
  x ← geti ip;
  (if bool_decide (i_ref x = 1) && bool_decide (i_valid x ≠ 0) && bool_decide (i_nlink x = 0) then
     acquiresleep ip ;;
     releaseM tt ;;
     itrunc ip ;;
     upd_i ip (i_with_type 0) ;;
     iupdate ip ;;
     upd_i ip (i_with_valid 0) ;;
     releasesleep ip ;;
     acquireM tt
   else mret tt) ;;
  upd_i ip (λ x, i_with_ref (i32 (i_ref x - 1)) x) ;;
  releaseM tt.
Definition iunlockput (ip : nat) : M F unit := iunlock ip ;; iput ip.

(** [struct stat] as [stati] fills it. *)
Record istat := mkistat { s_dev : Z; s_ino : Z; s_type : Z; s_nlink : Z; s_size : Z }.
Definition stati (ip : nat) : M F istat :=
  x ← geti ip; mret (mkistat (i_dev x) (i_inum x) (i_type x) (i_nlink x) (i_size x)).

(** ** Contents *)

(** [out dst l] copies the bytes [l] to [dst]: the memory after it, and whether it
    succeeded (a copy that fails may have moved some bytes).  The loop with [tot]
    done. *)
Fixpoint readi_loop {A} (out : Z → list Z → A → A * bool) (fuel : nat) (ip : nat) (dst off n tot : Z) (a : A) : M F (Z * A) :=
  match fuel with
  | O => hang
  | S fuel =>
      if bool_decide (tot < n) then
        addr ← bmap ip (off / BSIZE);
        if bool_decide (addr = 0) then mret (tot, a)
        else
          x ← geti ip;
          bp ← bread (i_dev x) addr;
          let m := Z.min (n - tot) (BSIZE - off mod BSIZE) in
          l ← bdata bp;
          let '(a, ok) := out dst (take (Z.to_nat m) (drop (Z.to_nat (off mod BSIZE)) l)) a in
          if (ok : bool) then brelse bp ;; readi_loop out fuel ip (dst + m) (u32 (off + m)) n (tot + m) a
          else brelse bp ;; mret (u32 (-1), a)
      else mret (tot, a)
  end.
(** Every round but the first and the last reads a whole block. *)
Definition readi {A} (out : Z → list Z → A → A * bool) (ip : nat) (dst off n : Z) (a : A) : M F (Z * A) :=
  x ← geti ip;
  if bool_decide (off > i_size x) || bool_decide (u32 (off + n) < off) then mret (0, a)
  else
    let n := if bool_decide (u32 (off + n) > i_size x) then u32 (i_size x - off) else n in
    '(tot, a) ← readi_loop out (Z.to_nat (n / BSIZE) + 3) ip dst off n 0 a;
    mret (i32 tot, a).

(** The bytes [d] arrive in the buffer [bp] at [o]. *)
Definition copy_in (bp : nat) (o : Z) (d : list Z) : M F unit :=
  match d with [] => mret tt | _ => l ← bdata bp; bstore bp (splice l o d) end.

(** [src a m] copies the [m] bytes at [a]: the bytes that arrived, and whether it
    succeeded ([copyin] goes page by page, so that a copy that fails may leave its
    first bytes in the buffer).  The result is [tot] and the final [off]. *)
Fixpoint writei_loop (src : Z → Z → list Z * bool) (fuel : nat) (ip : nat) (from off n tot : Z) : M F (Z * Z) :=
  match fuel with
  | O => hang
  | S fuel =>
      if bool_decide (tot < n) then
        addr ← bmap ip (off / BSIZE);
        if bool_decide (addr = 0) then mret (tot, off)
        else
          x ← geti ip;
          bp ← bread (i_dev x) addr;
          let m := Z.min (n - tot) (BSIZE - off mod BSIZE) in
          let '(d, ok) := src from m in
          copy_in bp (off mod BSIZE) d ;;
          if (ok : bool) then
            log_write bp ;;
            brelse bp ;;
            writei_loop src fuel ip (from + m) (u32 (off + m)) n (tot + m)
          else brelse bp ;; mret (tot, off)
      else mret (tot, off)
  end.
Definition writei (src : Z → Z → list Z * bool) (ip : nat) (from off n : Z) : M F Z :=
  x ← geti ip;
  if bool_decide (off > i_size x) || bool_decide (u32 (off + n) < off) then mret (-1)
  else if bool_decide (u32 (off + n) > MAXFILE * BSIZE) then mret (-1)
  else
    '(tot, off) ← writei_loop src (Z.to_nat (n / BSIZE) + 3) ip from off n 0;
    x ← geti ip;
    (if bool_decide (off > i_size x) then upd_i ip (i_with_size off) else mret tt) ;;
    iupdate ip ;;
    mret (i32 tot).
End inode_c.
