(* ===== verification/Dir.v ===== *)
(** * Directories and paths: the rest of kernel/fs.c

    A name on disk is 14 bytes, ended by a NUL when it is shorter; a path is the
    list of its bytes before the NUL, and a pointer into it the rest from there. *)
From S2P Require Import Prelude Spinlock Sleeplock BufCache Log BlockIO Fs Inode.

(** [strncmp] on bytes; [None] when it reads past the end of an array. *)
Fixpoint strncmp_bytes (n : nat) (p q : list Z) : option Z :=
  match n with
  | O => Some 0
  | S n =>
      match p, q with
      | x :: p, y :: q => if bool_decide (x ≠ 0) && bool_decide (x = y) then strncmp_bytes n p q else Some (x - y)
      | _, _ => None
      end
  end.
Definition namecmp (s t : list Z) : option Z := strncmp_bytes (Z.to_nat DIRSIZ) s t.

(** [strncpy] of a name into [n] bytes. *)
Fixpoint strncpy_bytes (n : nat) (t : list Z) : option (list Z) :=
  match n with
  | O => Some []
  | S n =>
      match t with
      | [] => None
      | c :: t => if bool_decide (c = 0) then Some (replicate (S n) 0) else cons c <$> strncpy_bytes n t
      end
  end.

(** [struct dirent] *)
Definition de_inum (de : list Z) : Z := le_value (take 2 de).
Definition de_name (de : list Z) : list Z := drop 2 de.
Definition dirent_bytes (inum : Z) (name : list Z) : list Z := le_bytes 2 inum ++ name.

(** ** Paths *)

(** The path behind its leading slashes. *)
Fixpoint skip_slashes (path : list Z) : list Z :=
  match path with
  | c :: p => if bool_decide (c = 47) then skip_slashes p else path
  | [] => []
  end.
(** The bytes up to the next slash or the end, and the rest. *)
Fixpoint take_elem (path : list Z) : list Z * list Z :=
  match path with
  | c :: p => if bool_decide (c = 47) then ([], path) else let '(e, r) := take_elem p in (c :: e, r)
  | [] => ([], [])
  end.
(** The rest of the path and the new contents of [name]. *)
Definition skipelem (path name : list Z) : option (list Z * list Z) :=
  match skip_slashes path with
  | [] => None
  | path =>
      let '(s, rest) := take_elem path in
      let len := Z.of_nat (length s) in
      let name := if bool_decide (len >= DIRSIZ) then take (Z.to_nat DIRSIZ) s
                  else s ++ 0 :: drop (S (length s)) name in
      Some (skip_slashes rest, name)
  end.

Section dir_c.
Context {B : Type} `{E : !BlockEnv B}.
Abbreviation F := (fstate B).

(** [readi(dp, 0, (uint64)&de, off, sizeof(de))]: the result and the entry. *)
Definition read_dirent (dp : nat) (off : Z) : M F (Z * list Z) :=
  readi (λ _ l de, (de ++ l, true)) dp 0 off sizeof_dirent [].

(** From offset [off]; the inode and where its entry is. *)
Fixpoint dirlookup_loop (fuel : nat) (dp : nat) (name : list Z) (off : Z) : M F (option (nat * Z)) :=
  match fuel with
  | O => hang
  | S fuel =>
      x ← geti dp;
      if bool_decide (off < i_size x) then
        '(r, de) ← read_dirent dp off;
        if bool_decide (r ≠ sizeof_dirent) then panic "dirlookup read"
        else if bool_decide (de_inum de = 0) then dirlookup_loop fuel dp name (u32 (off + sizeof_dirent))
        else
          c ← lift (match namecmp name (de_name de) with Some c => Ok c | None => Fault end);
          if bool_decide (c = 0) then
            x ← geti dp; i ← iget (i_dev x) (de_inum de); mret (Some (i, off))
          else dirlookup_loop fuel dp name (u32 (off + sizeof_dirent))
      else mret None
  end.
Definition dirlookup (dp : nat) (name : list Z) : M F (option (nat * Z)) :=
  x ← geti dp;
  if bool_decide (i_type x ≠ T_DIR) then panic "dirlookup not DIR"
  else dirlookup_loop (S (Z.to_nat (i_size x / sizeof_dirent + 1))) dp name 0.

(** The offset of the first empty entry, or the end of the directory. *)
Fixpoint dirlink_loop (fuel : nat) (dp : nat) (off : Z) : M F Z :=
  match fuel with
  | O => hang
  | S fuel =>
      x ← geti dp;
      if bool_decide (off < i_size x) then
        '(r, de) ← read_dirent dp off;
        if bool_decide (r ≠ sizeof_dirent) then panic "dirlink read"
        else if bool_decide (de_inum de = 0) then mret off
        else dirlink_loop fuel dp (off + sizeof_dirent)
      else mret off
  end.
Definition dirlink (dp : nat) (name : list Z) (inum : Z) : M F Z :=
  r ← dirlookup dp name;
  match r with
  | Some (ip, _) => iput ip ;; mret (-1)
  | None =>
      x ← geti dp;
      off ← dirlink_loop (S (Z.to_nat (i_size x / sizeof_dirent + 1))) dp 0;
      n ← lift (match strncpy_bytes (Z.to_nat DIRSIZ) name with Some n => Ok n | None => Fault end);
      let de := dirent_bytes (u16 inum) n in
      r ← writei (λ a m, (take (Z.to_nat m) (drop (Z.to_nat a) de), true)) dp 0 off sizeof_dirent;
      if bool_decide (r ≠ sizeof_dirent) then panic "dirlink" else mret 0
  end.

(** The loop of [namex]; every round takes an element off the path. *)
Fixpoint namex_loop (fuel : nat) (path : list Z) (nameiparent : bool) (name : list Z) (ip : nat) : M F (option nat * list Z) :=
  match fuel with
  | O => hang
  | S fuel =>
      match skipelem path name with
      | None =>
          if nameiparent then iput ip ;; mret (None, name) else mret (Some ip, name)
      | Some (path, name) =>
          ilock ip ;;
          x ← geti ip;
          if bool_decide (i_type x ≠ T_DIR) then iunlockput ip ;; mret (None, name)
          else if nameiparent && bool_decide (path = []) then iunlock ip ;; mret (Some ip, name)
          else
            next ← dirlookup ip name;
            match next with
            | None => iunlockput ip ;; mret (None, name)
            | Some (next, _) => iunlockput ip ;; namex_loop fuel path nameiparent name next
            end
      end
  end.
Definition namex (path : list Z) (nameiparent : bool) (name : list Z) : M F (option nat * list Z) :=
  cwd ← gets f_cwd;
  ip ← (match path with
        | c :: _ => if bool_decide (c = 47) then iget ROOTDEV ROOTINO else idup cwd
        | [] => idup cwd
        end);
  namex_loop (S (length path)) path nameiparent name ip.

(** [name] is a local array with unknown contents. *)
Definition namei (path junk : list Z) : M F (option nat) := r ← namex path false junk; mret r.1.
Definition nameiparent (path name : list Z) : M F (option nat * list Z) := namex path true name.
End dir_c.
