(* ===== verification/FsBlocks.v ===== *)
(** * The block layer of the file system, and the block bitmap

    Each pattern of block accesses in fs.c on the view of BlockIO.v; [balloc]
    and [bfree] as operations on the set of used blocks. *)
From S2P Require Import Prelude Spinlock Sleeplock BufCache Log LogCap LogWrite BlockIO Fs.

(** ** Bits of a block *)

Definition bit_at (l : list Z) (i : Z) : bool := Z.testbit (default 0 (l !! Z.to_nat (i / 8))) (i mod 8).
Definition set_bit (l : list Z) (i : Z) : list Z :=
  <[Z.to_nat (i / 8) := u8 (Z.lor (default 0 (l !! Z.to_nat (i / 8))) (Z.shiftl 1 (i mod 8)))]> l.
Definition clear_bit (l : list Z) (i : Z) : list Z :=
  <[Z.to_nat (i / 8) := u8 (Z.land (default 0 (l !! Z.to_nat (i / 8))) (Z.lnot (Z.shiftl 1 (i mod 8))))]> l.

Lemma land_bit x i : 0 ≤ i → Z.land x (Z.shiftl 1 i) = 0 ↔ Z.testbit x i = false.
Proof.
  intros Hi. split.
  - intros H. assert (E : Z.testbit (Z.land x (Z.shiftl 1 i)) i = false) by (rewrite H; apply Z.bits_0).
    rewrite Z.land_spec, Z.shiftl_spec, Z.sub_diag in E by done. by rewrite andb_true_r in E.
  - intros H. apply Z.bits_inj'. intros j Hj. rewrite Z.land_spec, Z.shiftl_spec, Z.bits_0 by done.
    destruct (decide (j = i)) as [->|Hne]; [by rewrite H|]. destruct (decide (j < i)).
    + rewrite (Z.testbit_neg_r 1) by lia. apply andb_false_r.
    + change 1 with (2 ^ 0). rewrite Z.pow2_bits_false by lia. apply andb_false_r.
Qed.

Lemma u8_bit x i : 0 ≤ i < 8 → Z.testbit (u8 x) i = Z.testbit x i.
Proof. intros Hi. unfold u8. by rewrite Z.mod_pow2_bits_low by lia. Qed.

Lemma one_bit i j : 0 ≤ i → 0 ≤ j → Z.testbit (Z.shiftl 1 i) j = bool_decide (i = j).
Proof.
  intros Hi Hj. rewrite Z.shiftl_spec by done. case_bool_decide as H; [subst; by rewrite Z.sub_diag|].
  destruct (decide (j < i)); [by apply Z.testbit_neg_r; lia|]. change 1 with (2 ^ 0). apply Z.pow2_bits_false. lia.
Qed.

Lemma bit_insert (f : Z → Z) l i j :
  0 ≤ i < 8 * Z.of_nat (length l) → 0 ≤ j < 8 * Z.of_nat (length l) →
  bit_at (<[Z.to_nat (i / 8) := u8 (f (default 0 (l !! Z.to_nat (i / 8))))]> l) j =
  if decide (i / 8 = j / 8) then Z.testbit (f (default 0 (l !! Z.to_nat (i / 8)))) (j mod 8) else bit_at l j.
Proof.
  intros Hi Hj. unfold bit_at.
  assert (H1 : 0 ≤ i / 8 < Z.of_nat (length l)) by (split; [apply Z.div_pos; lia|apply Z.div_lt_upper_bound; lia]).
  assert (H2 : 0 ≤ j / 8 < Z.of_nat (length l)) by (split; [apply Z.div_pos; lia|apply Z.div_lt_upper_bound; lia]).
  case_decide as He.
  - rewrite <-He, list_lookup_insert_eq by lia. simpl. apply u8_bit. apply Z.mod_pos_bound. lia.
  - rewrite list_lookup_insert_ne by lia. done.
Qed.

Lemma same_bit i j : i / 8 = j / 8 → i mod 8 = j mod 8 ↔ i = j.
Proof. intros H. pose proof (Z.div_mod i 8). pose proof (Z.div_mod j 8). split; [intros; lia|by intros ->]. Qed.

Lemma bit_set l i j :
  0 ≤ i < 8 * Z.of_nat (length l) → 0 ≤ j < 8 * Z.of_nat (length l) →
  bit_at (set_bit l i) j = bool_decide (i = j) || bit_at l j.
Proof.
  intros Hi Hj. unfold set_bit. rewrite (bit_insert (λ x, Z.lor x (Z.shiftl 1 (i mod 8)))) by done.
  pose proof (Z.mod_pos_bound i 8). pose proof (Z.mod_pos_bound j 8). case_decide as He.
  - rewrite Z.lor_spec, one_bit by lia. rewrite orb_comm. unfold bit_at. rewrite He. f_equal. apply bool_decide_ext. by apply same_bit.
  - rewrite bool_decide_false; [done|]. by intros ->.
Qed.

Lemma bit_clear l i j :
  0 ≤ i < 8 * Z.of_nat (length l) → 0 ≤ j < 8 * Z.of_nat (length l) →
  bit_at (clear_bit l i) j = negb (bool_decide (i = j)) && bit_at l j.
Proof.
  intros Hi Hj. unfold clear_bit. rewrite (bit_insert (λ x, Z.land x (Z.lnot (Z.shiftl 1 (i mod 8))))) by done.
  pose proof (Z.mod_pos_bound i 8). pose proof (Z.mod_pos_bound j 8). case_decide as He.
  - rewrite Z.land_spec, Z.lnot_spec, one_bit by lia. rewrite andb_comm. unfold bit_at. rewrite He. do 2 f_equal.
    apply bool_decide_ext. by apply same_bit.
  - rewrite bool_decide_false; [done|]. by intros ->.
Qed.

Lemma length_set_bit l i : length (set_bit l i) = length l.
Proof. apply length_insert. Qed.
Lemma length_clear_bit l i : length (clear_bit l i) = length l.
Proof. apply length_insert. Qed.

(** ** Block accesses *)
Section blocks.
Context {B : Type} `{E : !BlockEnv B} `{!BlockLaws B}.
Abbreviation F := (fstate B).
Implicit Types (s : F) (v : bview).

(** One after the other: [m] turns view [v] into [v'] and changes nothing else
    of the file system's state. *)
Definition goes {A} (dev : Z) (m : M F A) s v (a : A) v' : Prop :=
  ∃ b, m s = Ok (a, with_b b s) ∧ be_rep dev b v' ∧ be_hart b = be_hart (f_b s).

Lemma goes_bind {A C} dev (m : M F A) (f : A → M F C) s v a v1 c v2 :
  goes dev m s v a v1 → (∀ b, be_rep dev b v1 → be_hart b = be_hart (f_b s) → goes dev (f a) (with_b b s) v1 c v2) →
  goes dev (m ≫= f) s v c v2.
Proof.
  intros (b & E1 & R1 & H1) H2. destruct (H2 b R1 H1) as (b2 & E2 & R2 & Hh). exists b2.
  rewrite (bind_Ok_eq _ _ _ _ _ E1), E2. split; [done|]. split; [done|]. cbn in Hh. congruence.
Qed.
(** A change of a block followed by something else. *)
Lemma goes_then3 {A} dev (m1 m2 m3 : M F unit) (k : M F A) s v v1 a v2 :
  goes dev (m1 ;; m2 ;; m3) s v tt v1 → (∀ b, be_rep dev b v1 → be_hart b = be_hart (f_b s) → goes dev k (with_b b s) v1 a v2) →
  goes dev (m1 ;; m2 ;; m3 ;; k) s v a v2.
Proof.
  intros H1 H2. destruct (goes_bind dev _ (λ _, k) s v tt v1 a v2 H1 H2) as (b & Eb & H). exists b. split; [|done].
  rewrite <-Eb. unfold mbind, M_bind. destruct (m1 s) as [[[] s1]| | |]; [|done..]. by destruct (m2 s1) as [[[] s2]| | |].
Qed.
Lemma goes_ret {A} dev s v (a : A) : be_rep dev (f_b s) v → goes dev (mret a) s v a v.
Proof. intros H. exists (f_b s). split; [by destruct s|]. done. Qed.

Lemma gets_goes {A C} dev (g : F → A) (f : A → M F C) s v c v' : goes dev (f (g s)) s v c v' → goes dev (gets g ≫= f) s v c v'.
Proof. done. Qed.
Lemma lift_goes {A C} dev (r : res A) a (f : A → M F C) s v c v' : r = Ok a → goes dev (f a) s v c v' → goes dev (lift r ≫= f) s v c v'.
Proof. by intros ->. Qed.

Lemma bread_goes {C} dev b (f : nat → M F C) s v c v' :
  be_rep dev (f_b s) v → v_held v !! b = None → v_room v →
  (∀ h b', be_rep dev b' (v_hold b h v) → be_hart b' = be_hart (f_b s) → goes dev (f h) (with_b b' s) (v_hold b h v) c v') →
  goes dev (bread dev b ≫= f) s v c v'.
Proof.
  intros Hr Hn Hroom Hf. destruct (be_bread_law dev b _ v Hr Hn Hroom) as (h & b' & E1 & R1 & H1).
  destruct (Hf h b' R1 H1) as (b2 & E2 & R2 & H2). exists b2. rewrite (bind_Ok_eq _ _ _ h (with_b b' s)).
  - rewrite E2. split; [done|]. split; [done|]. cbn in H2. congruence.
  - unfold bread, inb. by rewrite E1.
Qed.

Lemma bdata_goes {C} dev b h (f : list Z → M F C) s v c v' :
  be_rep dev (f_b s) v → v_held v !! b = Some h → goes dev (f (v_data v b)) s v c v' → goes dev (bdata h ≫= f) s v c v'.
Proof.
  intros Hr Hh (b2 & E2 & H). exists b2. rewrite (bind_Ok_eq _ _ _ (v_data v b) s); [done|].
  unfold bdata, inb. rewrite (be_data_law dev b h _ v Hr Hh). by destruct s.
Qed.

Lemma bstore_goes dev b h l s v : be_rep dev (f_b s) v → v_held v !! b = Some h → goes dev (bstore h l) s v tt (v_store b l v).
Proof.
  intros Hr Hh. destruct (be_store_law dev b h l _ v Hr Hh) as (b' & E1 & R1 & H1). exists b'.
  unfold bstore, inb. by rewrite E1.
Qed.
Lemma log_write_goes dev b h s v : be_rep dev (f_b s) v → v_held v !! b = Some h → v_can_log b v → goes dev (log_write h) s v tt (v_logged b v).
Proof.
  intros Hr Hh Hc. destruct (be_log_law dev b h _ v Hr Hh Hc) as (b' & E1 & R1 & H1). exists b'.
  unfold log_write, inb. by rewrite E1.
Qed.
Lemma brelse_goes dev b h s v : be_rep dev (f_b s) v → v_held v !! b = Some h → b ∉ v_dirty v → goes dev (brelse h) s v tt (v_release b v).
Proof.
  intros Hr Hh Hc. destruct (be_release_law dev b h _ v Hr Hh Hc) as (b' & E1 & R1 & H1). exists b'.
  unfold brelse, inb. by rewrite E1.
Qed.

(** The end of a change: store, log, release. *)
Lemma write_held_goes dev b h l s v : be_rep dev (f_b s) v → v_held v !! b = Some h → v_can_log b v →
  b ∉ v_dirty v → goes dev (bstore h l ;; log_write h ;; brelse h) s v tt (v_release b (v_write b l v)).
Proof.
  intros Hr Hh Hc Hd. eapply goes_bind; [by apply bstore_goes|]. intros b1 R1 H1.
  eapply goes_bind; [by apply log_write_goes|]. intros b2 R2 H2.
  destruct (brelse_goes dev b h (with_b b2 (with_b b1 s)) (v_logged b (v_store b l v))) as (b3 & E3 & R3 & H3);
    [done|done|cbn; set_solver|]. exists b3. split; [done|]. split; [|done].
  eapply be_ext; [exact R3|done|done| |done|done]. cbn. set_solver.
Qed.

Lemma hold_release b h v : v_held v !! b = None → v_held (v_release b (v_hold b h v)) = v_held v.
Proof. intros H. cbn. by rewrite delete_insert_id. Qed.

(** A whole change of a block. *)
Lemma write_block_goes dev b l s v : be_rep dev (f_b s) v → v_held v !! b = None → v_room v → v_can_log b v → b ∉ v_dirty v →
  goes dev (bp ← bread dev b; bstore bp l ;; log_write bp ;; brelse bp) s v tt (v_write b l v).
Proof.
  intros Hr Hn Hroom Hc Hd. apply bread_goes; [done..|]. intros h b1 R1 H1.
  destruct (write_held_goes dev b h l (with_b b1 s) (v_hold b h v)) as (b2 & E2 & R2 & H2); [done|cbn; by rewrite lookup_insert_eq|done|done|].
  exists b2. split; [done|]. split; [|done]. eapply be_ext; [exact R2|done|cbn; by rewrite delete_insert_id|done|done|done].
Qed.

(** ** The bitmap *)

Definition used (sb : superblock) v (b : Z) : bool := bit_at (v_data v (BBLOCK b sb)) (b mod BPB).

(** Room for [k] more blocks in the transaction; few blocks are held. *)
Definition v_spare (k : Z) v : Prop := Z.of_nat (length (v_log v)) + k ≤ MAXOPBLOCKS ∧ (size (v_held v) ≤ 10)%nat.

Lemma spare_room k v : 0 ≤ k → v_spare k v → v_room v.
Proof. unfold v_spare, v_room, MAXOPBLOCKS, NBUF. lia. Qed.
Lemma length_add_block b l : (length (add_block b l) ≤ length l + 1)%nat.
Proof. unfold add_block. case_decide; rewrite ?length_app; simpl; lia. Qed.
Lemma spare_write k b l v : v_spare k v → v_spare (k - 1) (v_write b l v).
Proof. intros [H1 H2]. split; cbn; [pose proof (length_add_block b (v_log v)); lia|done]. Qed.
Lemma spare_can_log k b v : 0 < k → v_spare k v → v_home v b → v_can_log b v.
Proof. intros Hk [H _] Hh. split; [done|]. right. unfold MAXOPBLOCKS in *. lia. Qed.

(** A bitmap whose blocks are blocks of a transaction and marked as used, as
    mkfs makes it; locked blocks are used and none of the bitmap. *)
Record bitmap_ok (sb : superblock) v : Prop := {
  bo_size : 0 ≤ sb_size sb < 2 ^ 31;
  bo_start : 0 ≤ sb_bmapstart sb ∧ sb_bmapstart sb + sb_size sb / BPB < 2 ^ 31;
  bo_len b : 0 ≤ b < sb_size sb → length (v_data v (BBLOCK b sb)) = Z.to_nat BSIZE;
  bo_home b : 0 ≤ b < sb_size sb → v_home v (BBLOCK b sb);
  bo_free b : 0 ≤ b < sb_size sb → used sb v b = false → v_home v b ∧ ∀ c, 0 ≤ c < sb_size sb → b ≠ BBLOCK c sb;
  bo_held b : is_Some (v_held v !! b) → (0 ≤ b < sb_size sb → used sb v b = true) ∧ ∀ c, 0 ≤ c < sb_size sb → b ≠ BBLOCK c sb;
  bo_clean : v_dirty v = ∅ }.

Lemma not_held sb v b : bitmap_ok sb v → (0 ≤ b < sb_size sb ∧ used sb v b = false ∨ ∃ c, 0 ≤ c < sb_size sb ∧ b = BBLOCK c sb) → v_held v !! b = None.
Proof.
  intros Hb Hor. destruct (v_held v !! b) as [h|] eqn:Eh; [|done]. exfalso.
  destruct (bo_held _ _ Hb b) as [H1 H2]; [by rewrite Eh|].
  destruct Hor as [[Hr Hu]|(c & Hc & ->)]; [by rewrite H1 in Hu|by eapply H2].
Qed.

Lemma bblock_same sb b c : 0 ≤ sb_bmapstart sb → sb_bmapstart sb + sb_size sb / BPB < 2 ^ 31 → 0 ≤ b < sb_size sb → 0 ≤ c < sb_size sb →
  BBLOCK b sb = BBLOCK c sb ↔ b / BPB = c / BPB.
Proof.
  intros H0 H1 Hb Hc. unfold BBLOCK. change BPB with 8192 in *.
  assert (b / 8192 ≤ sb_size sb / 8192) by (apply Z.div_le_mono; lia).
  assert (c / 8192 ≤ sb_size sb / 8192) by (apply Z.div_le_mono; lia).
  assert (0 ≤ b / 8192) by (apply Z.div_pos; lia). assert (0 ≤ c / 8192) by (apply Z.div_pos; lia).
  rewrite !u32_small by lia. lia.
Qed.

(** The view after [balloc] took block [x]. *)
Definition v_alloc (sb : superblock) (x : Z) v : bview :=
  v_write x (replicate (Z.to_nat BSIZE) 0) (v_write (BBLOCK x sb) (set_bit (v_data v (BBLOCK x sb)) (x mod BPB)) v).

Lemma shiftl_mod b : 0 ≤ b mod 8 < 8.
Proof. apply Z.mod_pos_bound. lia. Qed.

(** The test and the update of the code. *)
Lemma code_bit l i x : zidx l (i / 8) = Some x →
  (Z.land x (Z.shiftl 1 (i mod 8)) = 0 ↔ bit_at l i = false) ∧
  <[Z.to_nat (i / 8) := u8 (Z.lor x (Z.shiftl 1 (i mod 8)))]> l = set_bit l i ∧
  <[Z.to_nat (i / 8) := u8 (Z.land x (Z.lnot (Z.shiftl 1 (i mod 8))))]> l = clear_bit l i.
Proof.
  intros Hx. apply zidx_Some in Hx as [_ Hx]. unfold bit_at, set_bit, clear_bit. rewrite Hx. simpl.
  split; [|done]. apply land_bit. pose proof (shiftl_mod i). lia.
Qed.

Lemma bzero_goes dev x s v : be_rep dev (f_b s) v → v_held v !! x = None → v_room v → v_can_log x v → x ∉ v_dirty v →
  goes dev (bzero dev x) s v tt (v_write x (replicate (Z.to_nat BSIZE) 0) v).
Proof. apply write_block_goes. Qed.

Lemma balloc_bits_goes dev sb b h v : bitmap_ok sb v → v_spare 2 v → b mod BPB = 0 → 0 ≤ b < sb_size sb →
  ∀ k bi s, f_sb s = sb → 0 ≤ bi → bi + Z.of_nat k = BPB → be_rep dev (f_b s) (v_hold (BBLOCK b sb) h v) →
  goes dev (balloc_bits k dev h b bi) s (v_hold (BBLOCK b sb) h v) None (v_hold (BBLOCK b sb) h v) ∧
    (∀ j, bi ≤ j < BPB → b + j < sb_size sb → used sb v (b + j) = true) ∨
  ∃ x, b + bi ≤ x < b + BPB ∧ x < sb_size sb ∧ used sb v x = false ∧ (∀ j, bi ≤ j → b + j < x → used sb v (b + j) = true) ∧
    goes dev (balloc_bits k dev h b bi) s (v_hold (BBLOCK b sb) h v) (Some x) (v_alloc sb x v).
Proof.
  intros Hbm Hsp Hb0 Hbs. set (bm := BBLOCK b sb). pose proof Hbm as [Hsz [Hst1 Hst2] Hlen Hhome Hfree Hheld Hclean].
  assert (Hbmn : v_held v !! bm = None) by (eapply not_held; [exact Hbm|right; by exists b]).
  assert (Hblk : ∀ j, 0 ≤ j < BPB → (b + j) mod BPB = j ∧ (b + j) / BPB = b / BPB).
  { intros j Hj. pose proof (Z.div_mod b BPB ltac:(done)) as Hdm. rewrite Hb0, Z.add_0_r in Hdm. change BPB with 8192 in *. split.
    - rewrite Hdm, Z.mul_comm, Z.add_comm, Z.mod_add by lia. by apply Z.mod_small.
    - rewrite Hdm at 1. rewrite Z.mul_comm, Z.div_add_l by lia. rewrite (Z.div_small j) by done. lia. }
  induction k as [|k IH]; intros bi s Hsb Hbi Hk Hr.
  { left. split; [by apply goes_ret|]. intros j Hj. lia. }
  cbn [balloc_bits].
  destruct (decide (b + bi < sb_size sb)) as [Hlt|Hge].
  2: { left. split; [|intros j Hj; lia]. apply gets_goes. rewrite Hsb, bool_decide_false by lia. by apply goes_ret. }
  assert (Hj : 0 ≤ bi < BPB) by lia. destruct (Hblk bi Hj) as [Hm Hd].
  assert (Ebm : BBLOCK (b + bi) sb = bm) by (apply bblock_same; [done|done|lia|done|done]).
  assert (Hl : length (v_data v bm) = Z.to_nat BSIZE) by by apply Hlen.
  assert (Hx : is_Some (zidx (v_data v bm) (bi / 8))).
  { apply zidx_is_Some. rewrite Hl. change BPB with 8192 in *. change (Z.of_nat (Z.to_nat BSIZE)) with 1024.
    split; [apply Z.div_pos; lia|apply Z.div_lt_upper_bound; lia]. }
  destruct Hx as [x Hx]. destruct (code_bit _ _ _ Hx) as (Hbit & Hset & _).
  assert (Hu : used sb v (b + bi) = bit_at (v_data v bm) bi) by (unfold used; by rewrite Ebm, Hm).
  destruct (bit_at (v_data v bm) bi) eqn:Eb.
  - destruct (IH (bi + 1) s Hsb) as [[Hg Hall]|(y & Hy & Hys & Hyu & Hyall & Hg)]; [lia|lia|done| |].
    + left. split.
      * apply gets_goes. rewrite Hsb, bool_decide_true by lia. apply (bdata_goes dev bm); [done|cbn; by rewrite lookup_insert_eq|].
        cbn [v_data v_hold]. eapply lift_goes; [by rewrite Hx|]. rewrite bool_decide_false by (rewrite Hbit; done). exact Hg.
      * intros j Hj' Hlt'. destruct (decide (j = bi)) as [->|]; [done|]. apply Hall; lia.
    + right. exists y. split; [lia|]. split; [done|]. split; [done|]. split.
      * intros j Hj' Hlt'. destruct (decide (j = bi)) as [->|]; [done|]. apply Hyall; lia.
      * apply gets_goes. rewrite Hsb, bool_decide_true by lia. apply (bdata_goes dev bm); [done|cbn; by rewrite lookup_insert_eq|].
        cbn [v_data v_hold]. eapply lift_goes; [by rewrite Hx|]. rewrite bool_decide_false by (rewrite Hbit; done). exact Hg.
  - right. exists (b + bi). split; [lia|]. split; [done|]. split; [done|]. split; [intros j ? ?; lia|].
    destruct (Hfree (b + bi)) as [Hxh Hxb]; [lia|done|].
    apply gets_goes. rewrite Hsb, bool_decide_true by lia. apply (bdata_goes dev bm); [done|cbn; by rewrite lookup_insert_eq|].
    cbn [v_data v_hold]. eapply lift_goes; [by rewrite Hx|]. rewrite bool_decide_true by (by rewrite Hbit). rewrite Hset.
    set (l' := set_bit (v_data v bm) bi). set (v1 := v_write bm l' v).
    assert (W : goes dev (bstore h l' ;; log_write h ;; brelse h) s (v_hold bm h v) tt v1).
    { destruct (write_held_goes dev bm h l' s (v_hold bm h v)) as (b1 & E1 & R1 & H1);
        [done|cbn; by rewrite lookup_insert_eq|by apply (spare_can_log 2 _ v); [lia|done|apply Hhome]|cbn; rewrite Hclean; apply not_elem_of_empty|].
      exists b1. split; [exact E1|]. split; [|done]. eapply be_ext; [exact R1|done|cbn; by rewrite delete_insert_id|done|done|done]. }
    assert (Z : ∀ b1, be_rep dev b1 v1 → goes dev (bzero dev (b + bi)) (with_b b1 s) v1 tt (v_alloc sb (b + bi) v)).
    { intros b1 R1. unfold v_alloc. rewrite Ebm, Hm. apply bzero_goes; [done| | | |].
      - cbn. eapply not_held; [exact Hbm|left]. split; [lia|done].
      - apply (spare_room 1); [lia|]. by apply (spare_write 2).
      - apply (spare_can_log 1); [lia|by apply (spare_write 2)|done].
      - cbn. rewrite Hclean. apply not_elem_of_empty. }
    eapply goes_then3; [exact W|]. intros b1 R1 H1. eapply goes_bind; [by apply Z|]. intros b2 R2 H2. by apply goes_ret.
Qed.

Definition with_msg (m : string) s : F := with_msgs (f_msgs s ++ [m]) s.

(** The search, bitmap block by bitmap block. *)
Lemma balloc_loop_ok dev sb v : bitmap_ok sb v → v_spare 2 v →
  ∀ fuel b s, f_sb s = sb → be_rep dev (f_b s) v → b mod BPB = 0 → 0 ≤ b → (∀ y, 0 ≤ y < b → y < sb_size sb → used sb v y = true) →
  sb_size sb ≤ b + BPB * (Z.of_nat fuel - 1) → (0 < fuel)%nat →
  (∃ x, 0 ≤ x < sb_size sb ∧ used sb v x = false ∧ (∀ y, 0 ≤ y < x → used sb v y = true) ∧
     goes dev (balloc_loop fuel dev b) s v x (v_alloc sb x v)) ∨
  ((∀ y, 0 ≤ y < sb_size sb → used sb v y = true) ∧
     ∃ b', balloc_loop fuel dev b s = Ok (0, with_msg "balloc: out of blocks" (with_b b' s)) ∧ be_rep dev b' v ∧ be_hart b' = be_hart (f_b s)).
Proof.
  intros Hbm Hsp. induction fuel as [|fuel IH]; intros b s Hsb Hr Hb0 Hb Hall Hf Hf0; [lia|].
  destruct (decide (b < sb_size sb)) as [Hlt|Hge].
  2: { right. split; [intros y Hy; apply Hall; lia|]. exists (f_b s). cbn [balloc_loop]. rewrite gets_bind, Hsb, bool_decide_false by lia.
       split; [by destruct s|]. done. }
  assert (Hn : v_held v !! BBLOCK b sb = None) by (eapply not_held; [exact Hbm|right; by exists b]).
  destruct (be_bread_law dev (BBLOCK b sb) (f_b s) v Hr Hn) as (h & b1 & E1 & R1 & H1); [apply (spare_room 2); [lia|done]|].
  assert (E1' : bread dev (BBLOCK b sb) s = Ok (h, with_b b1 s)) by (unfold bread, inb; by rewrite E1).
  assert (Erun : balloc_loop (Datatypes.S fuel) dev b s = (r ← balloc_bits (Z.to_nat BPB) dev h b 0;
      match r with Some x => mret x | None => brelse h ;; balloc_loop fuel dev (b + BPB) end) (with_b b1 s)).
  { cbn [balloc_loop]. rewrite gets_bind, Hsb, bool_decide_true by done. by rewrite (bind_Ok_eq _ _ _ _ _ E1'). }
  destruct (balloc_bits_goes dev sb b h v Hbm Hsp Hb0 ltac:(lia) (Z.to_nat BPB) 0 (with_b b1 s))
    as [[(b2 & E2 & R2 & H2) Hnone]|(x & Hx & Hxs & Hxu & Hxall & (b2 & E2 & R2 & H2))]; [done|lia|done|done| |].
  - rewrite (bind_Ok_eq _ _ _ _ _ E2) in Erun.
    destruct (brelse_goes dev (BBLOCK b sb) h (with_b b2 (with_b b1 s)) _ R2) as (b3 & E3 & R3 & H3).
    { cbn. by rewrite lookup_insert_eq. } { cbn. rewrite (bo_clean _ _ Hbm). apply not_elem_of_empty. }
    rewrite (bind_Ok_eq _ _ _ _ _ E3) in Erun. change (with_b b3 (with_b b2 (with_b b1 s))) with (with_b b3 s) in Erun.
    assert (R3' : be_rep dev b3 v) by (eapply be_ext; [exact R3|done|cbn; by rewrite delete_insert_id|done..]).
    assert (H3' : be_hart b3 = be_hart (f_b s)) by (cbn in *; congruence).
    assert (Hall' : ∀ y, 0 ≤ y < b + BPB → y < sb_size sb → used sb v y = true).
    { intros y Hy Hys. destruct (decide (y < b)); [apply Hall; lia|]. replace y with (b + (y - b)) by lia. apply Hnone; lia. }
    change BPB with 8192 in *.
    destruct (IH (b + 8192) (with_b b3 s) Hsb R3') as [(x & Hx & Hu & Hm & (b4 & E4 & R4 & H4))|[Hm (b4 & E4 & R4 & H4)]].
    { replace (b + 8192) with (b + 1 * 8192) by lia. rewrite Z.mod_add by lia. exact Hb0. } { lia. } { done. } { lia. } { lia. }
    + left. exists x. split; [done|]. split; [done|]. split; [done|]. exists b4. rewrite Erun. split; [exact E4|]. split; [done|]. cbn in H4. congruence.
    + right. split; [done|]. exists b4. rewrite Erun. split; [exact E4|]. split; [done|]. cbn in H4. congruence.
  - left. exists x. split; [lia|]. split; [done|]. split.
    + intros y Hy. destruct (decide (y < b)); [apply Hall; lia|]. replace y with (b + (y - b)) by lia. apply Hxall; lia.
    + exists b2. rewrite Erun, (bind_Ok_eq _ _ _ _ _ E2). split; [done|]. split; [done|]. cbn in H2. congruence.
Qed.

Lemma balloc_ok dev s v : be_rep dev (f_b s) v → bitmap_ok (f_sb s) v → v_spare 2 v →
  (∃ x, 0 ≤ x < sb_size (f_sb s) ∧ used (f_sb s) v x = false ∧ (∀ y, 0 ≤ y < x → used (f_sb s) v y = true) ∧
     goes dev (balloc dev) s v x (v_alloc (f_sb s) x v)) ∨
  ((∀ y, 0 ≤ y < sb_size (f_sb s) → used (f_sb s) v y = true) ∧
     ∃ b', balloc dev s = Ok (0, with_msg "balloc: out of blocks" (with_b b' s)) ∧ be_rep dev b' v ∧ be_hart b' = be_hart (f_b s)).
Proof.
  intros Hr Hbm Hsp. apply (balloc_loop_ok dev (f_sb s) v Hbm Hsp); [done|done|reflexivity|lia|intros; lia| |lia].
  destruct (bo_size _ _ Hbm) as [H0 _]. change BPB with 8192.
  pose proof (Z.div_mod (sb_size (f_sb s)) 8192 ltac:(lia)) as Hdm. pose proof (Z.mod_pos_bound (sb_size (f_sb s)) 8192 ltac:(lia)).
  assert (0 ≤ sb_size (f_sb s) / 8192) by (apply Z.div_pos; lia). lia.
Qed.

(** ** Freeing *)

Definition v_free (sb : superblock) (x : Z) v : bview :=
  v_write (BBLOCK x sb) (clear_bit (v_data v (BBLOCK x sb)) (x mod BPB)) v.

Lemma bitmap_byte sb v x : bitmap_ok sb v → 0 ≤ x < sb_size sb → ∃ y, zidx (v_data v (BBLOCK x sb)) (x mod BPB / 8) = Some y.
Proof.
  intros Hbm Hx. apply zidx_is_Some. rewrite (bo_len _ _ Hbm) by done. change (Z.of_nat (Z.to_nat BSIZE)) with 1024. change BPB with 8192.
  pose proof (Z.mod_pos_bound x 8192 ltac:(lia)). split; [apply Z.div_pos; lia|apply Z.div_lt_upper_bound; lia].
Qed.

Lemma bfree_goes dev x s v : be_rep dev (f_b s) v → bitmap_ok (f_sb s) v → v_spare 1 v → 0 ≤ x < sb_size (f_sb s) →
  used (f_sb s) v x = true → goes dev (bfree dev x) s v tt (v_free (f_sb s) x v).
Proof.
  intros Hr Hbm Hsp Hx Hu. unfold bfree. apply gets_goes. set (bm := BBLOCK x (f_sb s)).
  assert (Hn : v_held v !! bm = None) by (eapply not_held; [exact Hbm|right; by exists x]).
  apply bread_goes; [done|done|by apply (spare_room 1)|]. intros h b1 R1 H1.
  apply (bdata_goes dev bm); [done|cbn; by rewrite lookup_insert_eq|].
  destruct (bitmap_byte (f_sb s) v x Hbm Hx) as [y Hy]. destruct (code_bit _ _ _ Hy) as (Hbit & _ & Hclr).
  cbn [v_data v_hold]. eapply lift_goes; [unfold bm; by rewrite Hy|].
  rewrite bool_decide_false by (rewrite Hbit; unfold used in Hu; by rewrite Hu). unfold bm. rewrite Hclr.
  destruct (write_held_goes dev bm h (clear_bit (v_data v bm) (x mod BPB)) (with_b b1 s) (v_hold bm h v)) as (b2 & E2 & R2 & H2).
  { done. } { cbn. by rewrite lookup_insert_eq. } { apply (spare_can_log 1 _ v); [lia|done|by apply (bo_home _ _ Hbm)]. }
  { cbn. rewrite (bo_clean _ _ Hbm). apply not_elem_of_empty. }
  exists b2. split; [exact E2|]. split; [|done]. eapply be_ext; [exact R2|done|cbn; by rewrite delete_insert_id|done..].
Qed.

Lemma bfree_panics dev x s v : be_rep dev (f_b s) v → bitmap_ok (f_sb s) v → v_spare 1 v → 0 ≤ x < sb_size (f_sb s) →
  used (f_sb s) v x = false → bfree dev x s = Panic "freeing free block".
Proof.
  intros Hr Hbm Hsp Hx Hu. unfold bfree. rewrite gets_bind.
  assert (Hn : v_held v !! BBLOCK x (f_sb s) = None) by (eapply not_held; [exact Hbm|right; by exists x]).
  destruct (be_bread_law dev (BBLOCK x (f_sb s)) (f_b s) v Hr Hn) as (h & b1 & E1 & R1 & H1); [by apply (spare_room 1)|].
  assert (E1' : bread dev (BBLOCK x (f_sb s)) s = Ok (h, with_b b1 s)) by (unfold bread, inb; by rewrite E1).
  rewrite (bind_Ok_eq _ _ _ _ _ E1').
  assert (E2 : bdata h (with_b b1 s) = Ok (v_data v (BBLOCK x (f_sb s)), with_b b1 s)).
  { unfold bdata, inb. cbn. rewrite (be_data_law dev (BBLOCK x (f_sb s)) h b1 _ R1); [done|]. cbn. by rewrite lookup_insert_eq. }
  rewrite (bind_Ok_eq _ _ _ _ _ E2). destruct (bitmap_byte (f_sb s) v x Hbm Hx) as [y Hy]. destruct (code_bit _ _ _ Hy) as (Hbit & _).
  unfold mbind at 1, M_bind at 1, lift. rewrite Hy. rewrite bool_decide_true by (by rewrite Hbit). done.
Qed.
End blocks.
