(* ===== verification/FsAlloc.v ===== *)
(** * The block allocator

    [balloc] and [bfree] keep the bitmap well formed and act on the set of used
    blocks; the block interface with the log and the buffer cache below it gives
    the instance of the witness. *)
From S2P Require Import Prelude Spinlock Sleeplock BufCache Bio BioSpec Log LogRun LogClaims LogCap LogWrite Crash BlockIO Fs FsBlocks.

Section alloc.
Context {B : Type} `{E : !BlockEnv B} `{!BlockLaws B}.
Abbreviation F := (fstate B).
Implicit Types (s : F) (v : bview).

Lemma mod_range b : 0 ≤ b mod BPB < 8 * 1024.
Proof. change BPB with 8192. apply Z.mod_pos_bound. lia. Qed.

Lemma same_block_bit b c : b / BPB = c / BPB → bool_decide (b mod BPB = c mod BPB) = bool_decide (b = c).
Proof.
  intros H. apply bool_decide_ext. change BPB with 8192 in *. pose proof (Z.div_mod b 8192). pose proof (Z.div_mod c 8192).
  split; [intros; lia|by intros ->].
Qed.

Lemma bm_length sb v x : bitmap_ok sb v → 0 ≤ x < sb_size sb → 8 * Z.of_nat (length (v_data v (BBLOCK x sb))) = 8 * 1024.
Proof. intros Hb Hx. by rewrite (bo_len _ _ Hb x Hx). Qed.

Lemma used_alloc sb v x y : bitmap_ok sb v → 0 ≤ x < sb_size sb → used sb v x = false → 0 ≤ y < sb_size sb →
  used sb (v_alloc sb x v) y = bool_decide (x = y) || used sb v y.
Proof.
  intros Hb Hx Hu Hy. destruct (bo_start _ _ Hb) as [H0 H1]. destruct (bo_free _ _ Hb x Hx Hu) as [_ Hne].
  unfold used, v_alloc. cbn. unfold put_fun. rewrite decide_False by (intros He; by apply (Hne y Hy)).
  case_decide as Hbb; rewrite bblock_same in Hbb by done.
  - rewrite <-(proj2 (bblock_same sb y x H0 H1 Hy Hx) Hbb). rewrite bit_set.
    + rewrite same_block_bit by done. done.
    + rewrite (bm_length sb v y) by done. apply mod_range.
    + rewrite (bm_length sb v y) by done. apply mod_range.
  - rewrite bool_decide_false; [done|]. by intros ->.
Qed.

Lemma used_free sb v x y : bitmap_ok sb v → 0 ≤ x < sb_size sb → 0 ≤ y < sb_size sb →
  used sb (v_free sb x v) y = negb (bool_decide (x = y)) && used sb v y.
Proof.
  intros Hb Hx Hy. destruct (bo_start _ _ Hb) as [H0 H1]. unfold used, v_free. cbn. unfold put_fun.
  case_decide as Hbb; rewrite bblock_same in Hbb by done.
  - rewrite <-(proj2 (bblock_same sb y x H0 H1 Hy Hx) Hbb). rewrite bit_clear.
    + rewrite same_block_bit by done. done.
    + rewrite (bm_length sb v y) by done. apply mod_range.
    + rewrite (bm_length sb v y) by done. apply mod_range.
  - rewrite bool_decide_false; [done|]. by intros ->.
Qed.

Lemma alloc_bitmap_ok sb v x : bitmap_ok sb v → 0 ≤ x < sb_size sb → used sb v x = false → bitmap_ok sb (v_alloc sb x v).
Proof.
  intros Hb Hx Hu. destruct (bo_free _ _ Hb x Hx Hu) as [Hh Hne]. constructor.
  - apply Hb.
  - apply Hb.
  - intros b Hr. cbn. unfold put_fun. rewrite decide_False by (intros He; by apply (Hne b Hr)). case_decide as Hbb.
    + rewrite length_set_bit. by apply (bo_len _ _ Hb).
    + by apply (bo_len _ _ Hb).
  - apply Hb.
  - intros b Hr Hu'. rewrite used_alloc in Hu' by done. apply orb_false_iff in Hu' as [_ Hu']. by apply (bo_free _ _ Hb).
  - intros b Hd. destruct (bo_held _ _ Hb b Hd) as [H1 H2]. split; [|done]. intros Hr. rewrite used_alloc, H1 by done. apply orb_true_r.
  - apply Hb.
Qed.

(** Only blocks of files are freed. *)
Lemma free_bitmap_ok sb v x : bitmap_ok sb v → 0 ≤ x < sb_size sb → v_home v x → v_held v !! x = None →
  (∀ c, 0 ≤ c < sb_size sb → x ≠ BBLOCK c sb) → bitmap_ok sb (v_free sb x v).
Proof.
  intros Hb Hx Hh Hn Hne. constructor.
  - apply Hb.
  - apply Hb.
  - intros b Hr. cbn. unfold put_fun. case_decide as Hbb; [|by apply (bo_len _ _ Hb)].
    rewrite length_clear_bit. by apply (bo_len _ _ Hb).
  - apply Hb.
  - intros b Hr Hu'. rewrite used_free in Hu' by done. destruct (decide (x = b)) as [<-|Hxb]; [done|].
    rewrite bool_decide_false in Hu' by done. by apply (bo_free _ _ Hb).
  - intros b Hd. destruct (bo_held _ _ Hb b Hd) as [H1 H2]. split; [|done]. intros Hr. rewrite used_free, H1 by done.
    rewrite bool_decide_false; [done|]. intros ->. cbn in Hd. rewrite Hn in Hd. by destruct Hd.
  - apply Hb.
Qed.

Lemma alloc_other sb v x y : y ≠ x → y ≠ BBLOCK x sb → v_data (v_alloc sb x v) y = v_data v y.
Proof. intros H1 H2. cbn. unfold put_fun. by rewrite !decide_False. Qed.

(** C30: [balloc] and [bfree] maintain the set of used blocks.  Inside a
    transaction with room for its writes, on a well-formed bitmap: [balloc]
    returns the lowest free block, marked as used and filled with zeros, with
    every other block but the bitmap's unchanged and the bitmap well formed
    again, and a [bfree] of it restores the set of used blocks; when all blocks
    are used it returns 0 and changes nothing; [bfree] of a free block panics. *)
Theorem block_allocator dev s v :
  be_rep dev (f_b s) v → bitmap_ok (f_sb s) v → v_spare 3 v →
  ((∃ x s' v', 0 ≤ x < sb_size (f_sb s) ∧ used (f_sb s) v x = false ∧ (∀ y, 0 ≤ y < x → used (f_sb s) v y = true) ∧
      balloc dev s = Ok (x, s') ∧ be_rep dev (f_b s') v' ∧ bitmap_ok (f_sb s') v' ∧ f_sb s' = f_sb s ∧
      v_data v' x = replicate (Z.to_nat BSIZE) 0 ∧
      (∀ y, 0 ≤ y < sb_size (f_sb s) → used (f_sb s) v' y = bool_decide (x = y) || used (f_sb s) v y) ∧
      (∀ y, y ≠ x → y ≠ BBLOCK x (f_sb s) → v_data v' y = v_data v y) ∧
      ∃ s2 v2, bfree dev x s' = Ok (tt, s2) ∧ be_rep dev (f_b s2) v2 ∧ bitmap_ok (f_sb s) v2 ∧
        ∀ y, 0 ≤ y < sb_size (f_sb s) → used (f_sb s) v2 y = used (f_sb s) v y) ∨
   ((∀ y, 0 ≤ y < sb_size (f_sb s) → used (f_sb s) v y = true) ∧ ∃ s', balloc dev s = Ok (0, s') ∧ be_rep dev (f_b s') v)) ∧
  (∀ x, 0 ≤ x < sb_size (f_sb s) → used (f_sb s) v x = false → bfree dev x s = Panic "freeing free block").
Proof.
  intros Hr Hb Hsp. assert (Hsp2 : v_spare 2 v) by (destruct Hsp; split; [lia|done]). assert (Hsp1 : v_spare 1 v) by (destruct Hsp; split; [lia|done]).
  split; [|intros; by eapply bfree_panics].
  destruct (balloc_ok dev s v Hr Hb Hsp2) as [(x & Hx & Hu & Hmin & (b1 & E1 & R1 & H1))|[Hall (b1 & E1 & R1 & _)]].
  2: { right. split; [done|]. eexists. split; [exact E1|]. exact R1. }
  left. pose proof (alloc_bitmap_ok _ _ _ Hb Hx Hu) as Hb1. destruct (bo_free _ _ Hb x Hx Hu) as [Hh Hne].
  assert (Hn : v_held v !! x = None) by (eapply not_held; [exact Hb|by left]).
  assert (Hux : used (f_sb s) (v_alloc (f_sb s) x v) x = true) by (rewrite used_alloc by done; by rewrite bool_decide_true).
  assert (Hsp' : v_spare 1 (v_alloc (f_sb s) x v)) by (apply (spare_write 2), (spare_write 3), Hsp).
  destruct (bfree_goes dev x (with_b b1 s) _ R1 Hb1 Hsp' Hx Hux) as (b2 & E2 & R2 & _).
  exists x, (with_b b1 s), (v_alloc (f_sb s) x v). split; [done|]. split; [done|]. split; [done|]. split; [exact E1|]. split; [done|].
  split; [done|]. split; [done|]. split; [cbn; unfold put_fun; by rewrite decide_True|]. split; [intros; by apply used_alloc|].
  split; [intros; by apply alloc_other|].
  exists (with_b b2 (with_b b1 s)), (v_free (f_sb s) x (v_alloc (f_sb s) x v)). split; [exact E2|]. split; [exact R2|]. split.
  - apply free_bitmap_ok; [done|done|exact Hh|exact Hn|done].
  - intros y Hy. cbn [f_sb with_b]. rewrite used_free, used_alloc by done. destruct (decide (x = y)) as [->|Hxy].
    + rewrite bool_decide_true by done. simpl. by rewrite Hu.
    + by rewrite bool_decide_false.
Qed.
End alloc.

(** ** A disk of 1000 blocks whose first 46 are used *)

Definition demo_bitmap : list Z := [255; 255; 255; 255; 255; 63] ++ replicate 1018 0.
Definition demo_fsdisk : disk := mkdisk (λ k, if decide (k = 45) then demo_bitmap else zero_block) [].
Definition demo_sb : superblock := mksb FSMAGIC 1000 954 200 30 2 32 45.
Definition demo_txlog : lst bst :=
  mklst (booted [] demo_fsdisk 5) (initlock "log") 2 30 1 0 1 0 (replicate (Z.to_nat LOGSIZE) 0) 0.
Definition demo_fs : fstate (lst bst) := mkfs demo_txlog demo_sb (initlock "itable") (replicate NINODE inode0) 5 0 [] [].
Definition demo_view : bview := mkview (dread demo_fsdisk) ∅ ∅ [] (home 2 30).

Lemma demo_fs_rep : be_rep 1 (f_b demo_fs) demo_view.
Proof.
  constructor; try reflexivity.
  - exists demo_fsdisk, ∅. split; [apply booted_rep; discriminate|]. split; [|done]. intros k. reflexivity.
  - split; [reflexivity|]. split; reflexivity.
  - constructor.
  - vm_compute. discriminate.
  - done.
  - intros k Hk. cbn in Hk. by apply elem_of_nil in Hk.
  - intros k Hk. cbn in Hk. set_solver.
Qed.

Lemma demo_bblock c : 0 ≤ c < 1000 → BBLOCK c demo_sb = 45.
Proof. intros Hc. unfold BBLOCK. change BPB with 8192. rewrite Z.div_small by lia. reflexivity. Qed.

Lemma demo_used b : 0 ≤ b < 46 → used demo_sb demo_view b = true.
Proof. apply (forallb_upto (λ b, used demo_sb demo_view b) 46). vm_compute. reflexivity. Qed.

Lemma demo_bitmap_ok : bitmap_ok demo_sb demo_view.
Proof.
  constructor; cbn [sb_size demo_sb sb_bmapstart].
  - vm_compute. split; [discriminate|reflexivity].
  - vm_compute. split; [discriminate|reflexivity].
  - intros b Hb. rewrite demo_bblock by done. reflexivity.
  - intros b Hb. rewrite demo_bblock by done. cbn. unfold home. lia.
  - intros b Hb Hu. assert (46 ≤ b). { destruct (decide (46 ≤ b)); [done|]. rewrite demo_used in Hu by lia. discriminate. }
    split; [cbn; unfold home; lia|]. intros c Hc. rewrite demo_bblock by done. lia.
  - intros b [h Hd]. cbn in Hd. rewrite lookup_empty in Hd. discriminate.
  - reflexivity.
Qed.

Lemma block_allocator_witness :
  (∃ s', balloc 1 demo_fs = Ok (46, s')) ∧ bfree 1 46 demo_fs = Panic "freeing free block".
Proof.
  destruct (block_allocator 1 demo_fs demo_view demo_fs_rep demo_bitmap_ok) as [Ha Hf].
  { split; [vm_compute; discriminate|cbn; rewrite map_size_empty; lia]. }
  change (f_sb demo_fs) with demo_sb in Ha, Hf.
  assert (H46 : used demo_sb demo_view 46 = false) by (vm_compute; reflexivity).
  split; [|apply (Hf 46); [cbn; lia|exact H46]].
  destruct Ha as [(x & s' & v' & Hx & Hu & Hmin & E & _)|[Hall _]].
  - assert (x = 46) as ->; [|by exists s'].
    destruct (decide (x < 46)) as [Hlt|]; [|destruct (decide (x = 46)) as [|Hne]; [done|]].
    + rewrite demo_used in Hu by lia. discriminate Hu.
    + rewrite (Hmin 46) in H46 by lia. discriminate H46.
  - rewrite Hall in H46 by (cbn; lia). discriminate H46.
Defined.
