(* ===== verification/DirPath.v ===== *)
(** * Names and paths

    [skipelem] against a reference that splits a path at its slashes, and
    [namecmp] as equality of names. *)
From S2P Require Import Prelude Spinlock Sleeplock BufCache Log BlockIO Fs Inode Dir.

(** ** Reference *)

(** The pieces between slashes, empty ones too. *)
Fixpoint split_slash (p : list Z) : list (list Z) :=
  match p with
  | [] => [[]]
  | c :: p =>
      if decide (c = 47) then [] :: split_slash p
      else match split_slash p with
           | x :: r => (c :: x) :: r
           | [] => [[c]]
           end
  end.
Definition nonempty_elem (x : list Z) : Prop := x ≠ [].
#[global] Instance nonempty_elem_dec x : Decision (nonempty_elem x).
Proof. unfold nonempty_elem. apply _. Defined.
Definition elems (p : list Z) : list (list Z) := filter nonempty_elem (split_slash p).

(** The name in a 14-byte buffer: up to the first NUL. *)
Fixpoint cname (n : nat) (l : list Z) : list Z :=
  match n, l with
  | S n, c :: l => if decide (c = 0) then [] else c :: cname n l
  | _, _ => []
  end.
Definition name_of (l : list Z) : list Z := cname 14 l.

(** ** [skipelem] *)

Lemma skip_slashes_elems p : elems (skip_slashes p) = elems p.
Proof.
  induction p as [|c p IH]; [done|]. cbn [skip_slashes]. case_bool_decide as Hc; [|done].
  rewrite IH. unfold elems. cbn [split_slash]. rewrite decide_True by done. rewrite filter_cons_False; [done|]. by intros H.
Qed.
Lemma skip_slashes_head p c r : skip_slashes p = c :: r → c ≠ 47.
Proof. induction p as [|d p IH]; [done|]. cbn [skip_slashes]. case_bool_decide; [done|]. by intros [= <- _]. Qed.
Lemma skip_slashes_length p : (length (skip_slashes p) ≤ length p)%nat.
Proof. induction p as [|c p IH]; [done|]. cbn [skip_slashes]. case_bool_decide; simpl; lia. Qed.

Lemma split_slash_ne p : split_slash p ≠ [].
Proof. destruct p as [|c p]; [done|]. cbn. case_decide; [done|]. by destruct (split_slash p). Qed.

Lemma take_elem_ok p e r : take_elem p = (e, r) →
  p = e ++ r ∧ Forall (λ c, c ≠ 47) e ∧ (r = [] ∨ ∃ r', r = 47 :: r') ∧
  split_slash p = e :: (match r with [] => [] | _ :: r' => split_slash r' end).
Proof.
  revert e r. induction p as [|c p IH]; intros e r; cbn [take_elem].
  - intros [= <- <-]. split; [done|]. split; [done|]. split; [by left|done].
  - case_bool_decide as Hc.
    + intros [= <- <-]. split; [done|]. split; [done|]. split; [right; subst; by eexists|]. cbn. by rewrite decide_True.
    + destruct (take_elem p) as [e0 r0]. intros [= <- <-]. destruct (IH _ _ eq_refl) as (-> & Hf & Hr & Hs).
      split; [done|]. split; [by constructor|]. split; [done|]. cbn. rewrite decide_False by done. by rewrite Hs.
Qed.

Lemma elems_nil p : elems p = [] → skip_slashes p = [].
Proof.
  intros H. rewrite <-skip_slashes_elems in H. destruct (skip_slashes p) as [|c q] eqn:Eq; [done|]. exfalso.
  pose proof (skip_slashes_head _ _ _ Eq) as Hc. unfold elems in H. cbn in H. rewrite decide_False in H by done.
  destruct (split_slash q) as [|x l] eqn:Es; [by apply split_slash_ne in Es|]. by rewrite filter_cons_True in H.
Qed.

Lemma elems_skip e r p : take_elem p = (e, r) → e ≠ [] → elems p = e :: elems (skip_slashes r).
Proof.
  intros H He. destruct (take_elem_ok _ _ _ H) as (_ & _ & Hr & Hs). unfold elems at 1. rewrite Hs, filter_cons_True by done.
  f_equal. rewrite skip_slashes_elems. destruct r as [|c r']; [done|]. destruct Hr as [|[r0 [= -> ->]]]; [done|].
  unfold elems. cbn [split_slash]. rewrite decide_True by done. by rewrite filter_cons_False by (by intros K).
Qed.

Lemma cname_take n e l : Forall (λ c, c ≠ 0) e → cname n (e ++ 0 :: l) = take n e.
Proof.
  intros He. revert n. induction He as [|c e Hc He IH]; intros n; (destruct n as [|n]; [done|]); cbn; [done|].
  by rewrite decide_False, IH.
Qed.
Lemma cname_full n e : Forall (λ c, c ≠ 0) e → cname n (take n e) = take n e.
Proof.
  intros He. revert n. induction He as [|c e Hc He IH]; intros n; (destruct n as [|n]; [done|]); cbn; [done|].
  by rewrite decide_False, IH.
Qed.

Lemma skipelem_ok p name : Forall (λ c, c ≠ 0) p → length name = 14%nat →
  match elems p with
  | [] => skipelem p name = None
  | e :: es => ∃ r nm, skipelem p name = Some (r, nm) ∧ elems r = es ∧ (r = [] ↔ es = []) ∧
      name_of nm = take 14 e ∧ length nm = 14%nat ∧ Forall (λ c, c ≠ 0) r ∧ (length r < length p)%nat
  end.
Proof.
  intros Hp Hn. unfold skipelem. pose proof (skip_slashes_length p) as Hlen.
  assert (Hsub : ∀ q, Forall (λ c, c ≠ 0) q → Forall (λ c, c ≠ 0) (skip_slashes q)).
  { induction 1 as [|c q Hc Hq IH]; [done|]. cbn [skip_slashes]. case_bool_decide; [done|by constructor]. }
  rewrite <-skip_slashes_elems. destruct (skip_slashes p) as [|c q] eqn:Eq; [done|].
  pose proof (skip_slashes_head _ _ _ Eq) as Hc. pose proof (Hsub p Hp) as Hcq. rewrite Eq in Hcq.
  destruct (take_elem (c :: q)) as [e r] eqn:Et. destruct (take_elem_ok _ _ _ Et) as (Ep & Hf & Hr & _).
  assert (He : e ≠ []).
  { intros ->. destruct Hr as [->|[r' ->]]; [done|]. simpl in Ep. congruence. }
  rewrite (elems_skip e r _ Et He). rewrite Ep in Hcq. apply Forall_app in Hcq as [He0 Hr0].
  assert (Hl : (length (skip_slashes r) < length (c :: q))%nat).
  { pose proof (skip_slashes_length r). rewrite Ep, length_app. destruct e; [done|]. simpl. lia. }
  eexists _, _. split; [done|]. split; [done|]. split.
  { split; [by intros ->|]. intros Hes. apply elems_nil in Hes. destruct (skip_slashes r) as [|d x] eqn:Er; [done|].
    apply skip_slashes_head in Er as Hd. cbn [skip_slashes] in Hes. by rewrite bool_decide_false in Hes. }
  change (Z.to_nat DIRSIZ) with 14%nat. unfold DIRSIZ. case_bool_decide as Hge.
  - split; [by apply cname_full|]. split; [rewrite length_take; lia|]. split; [by apply Hsub|]. simpl in Hlen, Hl |- *. lia.
  - split; [by apply cname_take|]. split; [rewrite length_app; simpl; rewrite length_drop; lia|]. split; [by apply Hsub|]. simpl in Hlen, Hl |- *. lia.
Qed.

(** The names that a walk like [namex]'s loop sees. *)
Fixpoint path_walk (fuel : nat) (path name : list Z) : option (list (list Z)) :=
  match fuel with
  | O => None
  | S fuel =>
      match skipelem path name with
      | None => Some []
      | Some (path, name) => cons (name_of name) <$> path_walk fuel path name
      end
  end.

Lemma path_walk_ok fuel p name : Forall (λ c, c ≠ 0) p → length name = 14%nat → (length p < fuel)%nat →
  path_walk fuel p name = Some (take 14 <$> elems p).
Proof.
  revert p name. induction fuel as [|fuel IH]; intros p name Hp Hn Hf; [lia|]. cbn [path_walk].
  pose proof (skipelem_ok p name Hp Hn) as H. destruct (elems p) as [|e es]; [by rewrite H|].
  destruct H as (r & nm & -> & He & _ & Hnm & Hln & Hr & Hlr). rewrite IH, He, Hnm by (try done; lia). done.
Qed.

(** ** Comparing names *)

Lemma strncmp_name n s t : (n ≤ length s)%nat → (n ≤ length t)%nat →
  ∃ c, strncmp_bytes n s t = Some c ∧ (c = 0 ↔ cname n s = cname n t).
Proof.
  revert s t. induction n as [|n IH]; intros s t Hs Ht; [by exists 0|].
  destruct s as [|x s]; [simpl in Hs; lia|]. destruct t as [|y t]; [simpl in Ht; lia|]. cbn [strncmp_bytes cname].
  destruct (decide (x = 0)) as [Hx|Hx].
  - rewrite bool_decide_false by tauto. cbn [andb]. exists (x - y). split; [done|]. subst x. case_decide; split; intros; try done; lia.
  - rewrite bool_decide_true by done. cbn [andb]. case_bool_decide as Hxy.
    + subst y. rewrite decide_False by done. destruct (IH s t) as (c & E & Hc); [simpl in *; lia..|]. exists c. split; [done|].
      rewrite Hc. split; [by intros ->|by intros [= ?]].
    + exists (x - y). split; [done|]. case_decide; split; intros; try done; try lia. simplify_eq.
Qed.

(** C31: path lookup sees the elements of the path.  For any path without a NUL
    and any 14-byte name buffer, [skipelem] called until it fails takes off, in
    order, exactly the non-empty pieces between the slashes, each cut to 14
    bytes in the buffer, and reports the last one by an empty rest; it always
    terminates; and [namecmp] of two buffers is 0 exactly when they hold the same
    name. *)
Theorem path_elements p name s t :
  Forall (λ c, c ≠ 0) p → length name = 14%nat → length s = 14%nat → length t = 14%nat →
  path_walk (S (length p)) p name = Some (take 14 <$> elems p) ∧
  (∀ r nm, skipelem p name = Some (r, nm) → r = [] ↔ length (elems p) = 1%nat) ∧
  (namecmp s t = Some 0 ↔ name_of s = name_of t).
Proof.
  intros Hp Hn Hs Ht. split; [apply path_walk_ok; [done|done|lia]|]. split.
  - intros r nm E. pose proof (skipelem_ok p name Hp Hn) as H. destruct (elems p) as [|e es]; [congruence|].
    destruct H as (r' & nm' & E' & _ & Hes & _). rewrite E in E'. injection E' as <- <-. rewrite Hes. destruct es; simpl; split; intros; try done; lia.
  - unfold namecmp, name_of. change (Z.to_nat DIRSIZ) with 14%nat. destruct (strncmp_name 14 s t) as (c & E & Hc); [lia..|].
    rewrite E, <-Hc. split; [by intros [= ->]|by intros ->].
Qed.

(** "//usr//bin/" *)
Definition demo_path : list Z := [47; 47; 117; 115; 114; 47; 47; 98; 105; 110; 47].

Lemma path_elements_witness :
  path_walk 12 demo_path (replicate 14 0) = Some [[117; 115; 114]; [98; 105; 110]] ∧ elems demo_path = [[117; 115; 114]; [98; 105; 110]].
Proof.
  destruct (path_elements demo_path (replicate 14 0) (replicate 14 0) (replicate 14 0)) as [H _].
  - unfold demo_path. repeat (constructor; [lia|]). constructor.
  - reflexivity.
  - reflexivity.
  - reflexivity.
  - split; [exact H|reflexivity].
Defined.
