(* ===== verification/FsRead.v ===== *)
(** * Reading files

    The blocks of a file through [bmap], and [readi] as a slice of the file's
    bytes, for files whose blocks are all there. *)
From S2P Require Import Prelude Spinlock Sleeplock BufCache Log LogWrite BlockIO Fs FsBlocks Inode.

(** The disk address of block [n] of an inode, 0 when there is none. *)
Definition baddr (v : bview) (x : inode) (n : Z) : Z :=
  if decide (n < NDIRECT) then default 0 (zidx (i_addrs x) n)
  else let a := default 0 (zidx (i_addrs x) NDIRECT) in
       if decide (a = 0) then 0 else get32 (v_data v a) (4 * (n - NDIRECT)).

(** A file none of whose blocks is missing or locked. *)
Record file_ok (v : bview) (x : inode) : Prop := {
  fo_addrs : length (i_addrs x) = 13%nat;
  fo_size : 0 ≤ i_size x ≤ MAXFILE * BSIZE;
  fo_mapped n : 0 ≤ n → n * BSIZE < i_size x → baddr v x n ≠ 0;
  fo_len n : 0 ≤ n → n * BSIZE < i_size x → length (v_data v (baddr v x n)) = Z.to_nat BSIZE;
  fo_held n : 0 ≤ n → n * BSIZE < i_size x → v_held v !! baddr v x n = None;
  fo_ind : NDIRECT * BSIZE < i_size x → v_held v !! default 0 (zidx (i_addrs x) NDIRECT) = None }.

(** The bytes of the file from [off] on. *)
Definition file_byte (v : bview) (x : inode) (i : Z) : Z :=
  default 0 (v_data v (baddr v x (i / BSIZE)) !! Z.to_nat (i mod BSIZE)).
Definition content (v : bview) (x : inode) (off n : Z) : list Z := file_byte v x <$> seqZ off n.

Lemma content_app v x off n m : 0 ≤ n → 0 ≤ m → content v x off (n + m) = content v x off n ++ content v x (off + n) m.
Proof. intros Hn Hm. unfold content. rewrite seqZ_app, fmap_app by lia. done. Qed.
Lemma length_file_content v x off n : length (content v x off n) = Z.to_nat n.
Proof. unfold content. by rewrite length_fmap, length_seqZ. Qed.

Lemma lookup_seqZ_fmap (f : Z → Z) off n k : (f <$> seqZ off n) !! k = if decide (Z.of_nat k < n) then Some (f (off + Z.of_nat k)) else None.
Proof.
  rewrite list_lookup_fmap. case_decide.
  - by rewrite lookup_seqZ_lt by lia.
  - by rewrite lookup_seqZ_ge by lia.
Qed.

(** Bytes of one block. *)
Lemma chunk_content v x off m :
  length (v_data v (baddr v x (off / BSIZE))) = Z.to_nat BSIZE → 0 ≤ off → 0 ≤ m ≤ BSIZE - off mod BSIZE →
  take (Z.to_nat m) (drop (Z.to_nat (off mod BSIZE)) (v_data v (baddr v x (off / BSIZE)))) = content v x off m.
Proof.
  intros Hl Ho Hm. unfold BSIZE in *. pose proof (Z.mod_pos_bound off 1024). apply list_eq. intros k.
  unfold content. rewrite lookup_seqZ_fmap. case_decide as Hk.
  - rewrite lookup_take_lt by lia. rewrite lookup_drop. unfold file_byte, BSIZE.
    pose proof (Z.div_mod off 1024 ltac:(lia)) as Hdm.
    assert (Hd : (off + Z.of_nat k) / 1024 = off / 1024).
    { symmetry. apply (Z.div_unique _ _ _ (off mod 1024 + Z.of_nat k)); lia. }
    assert (Hr : (off + Z.of_nat k) mod 1024 = off mod 1024 + Z.of_nat k).
    { symmetry. apply (Z.mod_unique _ _ (off / 1024)); lia. }
    rewrite Hd, Hr. replace (Z.to_nat (off mod 1024 + Z.of_nat k)) with (Z.to_nat (off mod 1024) + k)%nat by lia.
    destruct (lookup_lt_is_Some_2 (v_data v (baddr v x (off / 1024))) (Z.to_nat (off mod 1024) + k)) as [y Hy]; [lia|].
    by rewrite Hy.
  - by rewrite lookup_take_ge by lia.
Qed.

Section read.
Context {B : Type} `{E : !BlockEnv B} `{!BlockLaws B}.
Abbreviation F := (fstate B).
Implicit Types (s : F) (v : bview).

Lemma geti_goes {C} dev i x (f : inode → M F C) s v c v' :
  f_inodes s !! i = Some x → goes dev (f x) s v c v' → goes dev (geti i ≫= f) s v c v'.
Proof. intros Hx (b & Eb & H). exists b. split; [|done]. rewrite (bind_Ok_eq _ _ _ x s); [done|]. unfold geti. by rewrite Hx. Qed.

Lemma get_addr_goes {C} dev i n x a (f : Z → M F C) s v c v' :
  f_inodes s !! i = Some x → zidx (i_addrs x) n = Some a → goes dev (f a) s v c v' → goes dev (get_addr i n ≫= f) s v c v'.
Proof.
  intros Hx Ha (b & Eb & H). exists b. split; [|done]. rewrite (bind_Ok_eq _ _ _ a s); [done|].
  unfold get_addr, mbind at 1, M_bind at 1, geti. rewrite Hx. unfold lift. by rewrite Ha.
Qed.

Lemma slot_goes {C} dev d a set (f : Z → M F C) s v c v' : a ≠ 0 → goes dev (f a) s v c v' → goes dev (bmap_slot d a set ≫= f) s v c v'.
Proof. intros Ha H. unfold bmap_slot. by rewrite bool_decide_false by done. Qed.

(** [bmap] of a block that is there changes nothing. *)
Lemma bmap_goes dev ip n x s v :
  be_rep dev (f_b s) v → v_room v → v_dirty v = ∅ → f_inodes s !! ip = Some x → i_dev x = dev → file_ok v x →
  0 ≤ n → n * BSIZE < i_size x → goes dev (bmap ip n) s v (baddr v x n) v.
Proof.
  intros Hr Hroom Hcl Hx Hd Hf Hn Hs. unfold bmap. pose proof (fo_mapped _ _ Hf n Hn Hs) as Hm.
  apply (geti_goes dev ip x); [done|]. unfold baddr in *. pose proof (fo_addrs _ _ Hf) as Ha.
  case_decide as Hnd.
  - rewrite bool_decide_true by done. destruct (proj2 (zidx_is_Some (i_addrs x) n)) as [a Ea]; [unfold NDIRECT in *; lia|].
    rewrite Ea in *. simpl in Hm |- *. apply (get_addr_goes dev ip n x a); [done|done|].
    unfold bmap_slot. rewrite bool_decide_false by done. by apply goes_ret.
  - rewrite bool_decide_false by done. destruct (fo_size _ _ Hf) as [_ Hsz].
    assert (Hni : n - NDIRECT < NINDIRECT). { unfold MAXFILE, NDIRECT, NINDIRECT, BSIZE in *. change (1024 / 4) with 256 in *. lia. }
    rewrite bool_decide_true by done. destruct (proj2 (zidx_is_Some (i_addrs x) NDIRECT)) as [a Ea]; [unfold NDIRECT; lia|].
    assert (Hind : v_held v !! a = None).
    { pose proof (fo_ind _ _ Hf) as H. rewrite Ea in H. apply H. unfold BSIZE, NDIRECT in *. lia. }
    rewrite Ea in *. simpl default in *. destruct (decide (a = 0)) as [->|Ha0]; [done|].
    apply (get_addr_goes dev ip NDIRECT x a); [done|done|]. apply slot_goes; [done|]. rewrite bool_decide_false by done.
    rewrite Hd. apply bread_goes; [done|done|done|]. intros h b1 R1 H1.
    apply (bdata_goes dev a); [done|cbn; by rewrite lookup_insert_eq|]. cbn [v_data v_hold]. apply slot_goes; [done|].
    eapply goes_bind.
    { apply (brelse_goes dev a); [exact R1|cbn; by rewrite lookup_insert_eq|]. cbn. rewrite Hcl. apply not_elem_of_empty. }
    intros b2 R2 H2. exists b2. split; [done|]. split; [|done].
    eapply be_ext; [exact R2|done|cbn; by rewrite delete_insert_id|done..].
Qed.

(** ** [readi]

    The copy out of the kernel always succeeds and copies its bytes to their
    place: copying in pieces is copying at once. *)
Context {A : Type} (out : Z → list Z → A → A * bool) (put : A → Z → list Z → A).
Context (out_put : ∀ dst l a, out dst l a = (put a dst l, true)).
Context (put_app : ∀ a dst l1 l2, put (put a dst l1) (dst + Z.of_nat (length l1)) l2 = put a dst (l1 ++ l2)).
Context (put_nil : ∀ a dst, put a dst [] = a).

Lemma readi_loop_goes dev ip x : ∀ fuel s v dst off n tot a,
  be_rep dev (f_b s) v → v_room v → v_dirty v = ∅ → f_inodes s !! ip = Some x → i_dev x = dev → file_ok v x →
  0 ≤ off → 0 ≤ tot ≤ n → off + (n - tot) ≤ i_size x →
  (0 < fuel)%nat → (tot < n → (n - tot + off mod BSIZE + BSIZE - 1) / BSIZE + 1 ≤ Z.of_nat fuel) →
  goes dev (readi_loop out fuel ip dst off n tot a) s v (n, put a dst (content v x off (n - tot))) v.
Proof.
  induction fuel as [|fuel IH]; intros s v dst off n tot a Hr Hroom Hcl Hx Hd Hf Ho Ht Hsz Hf0 Hfu; [lia|].
  cbn [readi_loop]. case_bool_decide as Hlt.
  2: { assert (tot = n) as -> by lia. rewrite Z.sub_diag. change (content v x off 0) with (@nil Z). rewrite put_nil. by apply goes_ret. }
  assert (Hm0 : 0 ≤ off mod BSIZE < BSIZE) by (unfold BSIZE; apply Z.mod_pos_bound; lia).
  assert (Hdm : off = BSIZE * (off / BSIZE) + off mod BSIZE) by (unfold BSIZE; apply Z.div_mod; lia).
  assert (Hq : 0 ≤ off / BSIZE) by (unfold BSIZE; apply Z.div_pos; lia).
  assert (Hbn : off / BSIZE * BSIZE < i_size x) by lia.
  pose proof (fo_mapped _ _ Hf _ Hq Hbn) as Ham. pose proof (fo_len _ _ Hf _ Hq Hbn) as Hal.
  set (m := Z.min (n - tot) (BSIZE - off mod BSIZE)). assert (Hm : 0 < m ≤ n - tot ∧ m ≤ BSIZE - off mod BSIZE) by lia.
  eapply goes_bind; [by apply (bmap_goes dev ip _ x)|]. intros b1 R1 H1. rewrite bool_decide_false by done.
  apply (geti_goes dev ip x); [done|]. rewrite Hd. apply bread_goes; [exact R1|by apply (fo_held _ _ Hf)|done|].
  intros h b2 R2 H2. apply (bdata_goes dev (baddr v x (off / BSIZE))); [exact R2|cbn; by rewrite lookup_insert_eq|]. cbn [v_data v_hold].
  rewrite chunk_content by (try done; lia). rewrite out_put.
  eapply goes_bind; [apply (brelse_goes dev (baddr v x (off / BSIZE))); [exact R2|cbn; by rewrite lookup_insert_eq|cbn; rewrite Hcl; apply not_elem_of_empty]|].
  intros b3 R3 H3. assert (R3' : be_rep dev b3 v).
  { eapply be_ext; [exact R3|done|cbn; rewrite delete_insert_id; [done|by apply (fo_held _ _ Hf)]|done..]. }
  assert (Hmax : i_size x < 2 ^ 32).
  { destruct (fo_size _ _ Hf) as [_ H]. unfold MAXFILE, NDIRECT, NINDIRECT, BSIZE in H. change (1024 / 4) with 256 in H. lia. }
  rewrite u32_small by lia.
  assert (Hsum : put (put a dst (content v x off m)) (dst + m) (content v x (off + m) (n - (tot + m))) = put a dst (content v x off (n - tot))).
  { replace (n - tot) with (m + (n - (tot + m))) by lia. rewrite content_app by lia. rewrite <-put_app, length_file_content, Z2Nat.id by lia. done. }
  rewrite <-Hsum.
  destruct (IH (with_b b3 s) v (dst + m) (off + m) n (tot + m) (put a dst (content v x off m))) as (b4 & E4 & R4 & H4); try done; try lia.
  { specialize (Hfu Hlt). unfold BSIZE in *. assert (1 ≤ (n - tot + off mod 1024 + 1024 - 1) / 1024) by (apply Z.div_le_lower_bound; lia). lia. }
  { intros Hlt'. specialize (Hfu Hlt). unfold BSIZE in *. assert (Em : m = 1024 - off mod 1024) by lia.
    assert (Ez : (off + m) mod 1024 = 0).
    { rewrite Em. replace (off + (1024 - off mod 1024)) with ((off / 1024 + 1) * 1024) by lia. by rewrite Z.mod_mul. }
    rewrite Ez. replace (n - tot + off mod 1024 + 1024 - 1) with (n - (tot + m) + 0 + 1024 - 1 + 1 * 1024) in Hfu by lia.
    rewrite Z.div_add in Hfu by lia. lia. }
  exists b4. split; [exact E4|]. split; [exact R4|exact H4].
Qed.

(** How much of a request is inside the file. *)
Definition read_len (size off n : Z) : Z :=
  if decide (off > size ∨ 2 ^ 32 ≤ off + n) then 0 else Z.min n (size - off).

Lemma readi_goes dev ip x s v dst off n a :
  be_rep dev (f_b s) v → v_room v → v_dirty v = ∅ → f_inodes s !! ip = Some x → i_dev x = dev → file_ok v x →
  0 ≤ off < 2 ^ 32 → 0 ≤ n < 2 ^ 32 →
  goes dev (readi out ip dst off n a) s v (read_len (i_size x) off n, put a dst (content v x off (read_len (i_size x) off n))) v.
Proof.
  intros Hr Hroom Hcl Hx Hd Hf Ho Hn. unfold readi. apply (geti_goes dev ip x); [done|].
  assert (Hmax : 0 ≤ i_size x < 2 ^ 31).
  { destruct (fo_size _ _ Hf) as [? H]. unfold MAXFILE, NDIRECT, NINDIRECT, BSIZE in H. change (1024 / 4) with 256 in H. lia. }
  unfold read_len. case_decide as Hout.
  { replace (bool_decide (off > i_size x) || bool_decide (u32 (off + n) < off)) with true.
    2: { symmetry. apply orb_true_iff. destruct (decide (off > i_size x)); [left; by apply bool_decide_true|right].
         apply bool_decide_true. destruct Hout as [?|Hov]; [done|]. unfold u32.
         rewrite <-(Z.mod_add _ (-1)), Z.mod_small by lia. lia. }
    change (content v x off 0) with (@nil Z). rewrite put_nil. by apply goes_ret. }
  assert (Hin : off ≤ i_size x ∧ off + n < 2 ^ 32) by lia. rewrite !(u32_small (off + n)) by lia.
  rewrite (bool_decide_false (off > i_size x)), (bool_decide_false (off + n < off)) by lia. cbn [orb].
  replace (if bool_decide (off + n > i_size x) then u32 (i_size x - off) else n) with (Z.min n (i_size x - off)).
  2: { case_bool_decide; [rewrite u32_small by lia|]; lia. }
  set (k := Z.min n (i_size x - off)). eapply goes_bind.
  - apply (readi_loop_goes dev ip x); try done; try lia. intros Hk. unfold BSIZE.
    assert (Hq : 0 ≤ k / 1024) by (apply Z.div_pos; lia). pose proof (Z.mod_pos_bound off 1024 ltac:(lia)).
    pose proof (Z.div_mod k 1024 ltac:(lia)). pose proof (Z.mod_pos_bound k 1024 ltac:(lia)).
    assert ((k - 0 + off mod 1024 + 1024 - 1) / 1024 < k / 1024 + 3) by (apply Z.div_lt_upper_bound; lia). lia.
  - intros b Rb Hb. rewrite Z.sub_0_r, i32_small by lia. by apply goes_ret.
Qed.
End read.
