(* ===== verification/FsGrow.v ===== *)
(** * Files that grow

    The blocks of a file, what it means that they are the file's own, and the two
    ways in which [bmap] gives a file one more block: in a slot of the inode and
    in an entry of the indirect block. *)
From S2P Require Import Prelude Spinlock Sleeplock BufCache Log LogRun LogCap LogWrite BlockIO Fs FsBlocks FsAlloc Inode FsRead.

Definition iaddr (x : inode) : Z := default 0 (zidx (i_addrs x) NDIRECT).
(** The blocks that hold the file or its indirect block. *)
Definition block_of (v : bview) (x : inode) (b : Z) : Prop := b ≠ 0 ∧ (b = iaddr x ∨ ∃ n, 0 ≤ n < MAXFILE ∧ baddr v x n = b).

Lemma block_of_search v x b : b ≠ 0 ∧ (b = iaddr x ∨ Exists (λ n, baddr v x n = b) (seqZ 0 MAXFILE)) ↔ block_of v x b.
Proof.
  unfold block_of. rewrite Exists_exists. split; intros [H0 [H|(n & Hn & H)]]; split; try done; try (by left); right; exists n.
  - apply elem_of_seqZ in Hn. by split; [lia|].
  - split; [apply elem_of_seqZ; lia|done].
Qed.
#[global] Instance block_of_dec v x b : Decision (block_of v x b).
Proof.
  destruct (decide (b ≠ 0 ∧ (b = iaddr x ∨ Exists (λ n, baddr v x n = b) (seqZ 0 MAXFILE)))) as [H|H]; [left|right]; by rewrite <-block_of_search.
Defined.

(** A block that a file may have. *)
Record data_block (sb : superblock) (v : bview) (b : Z) : Prop := {
  db_range : 0 < b < sb_size sb;
  db_used : used sb v b = true;
  db_home : v_home v b;
  db_bitmap c : 0 ≤ c < sb_size sb → b ≠ BBLOCK c sb;
  db_len : length (v_data v b) = Z.to_nat BSIZE;
  db_held : v_held v !! b = None }.

(** Its blocks are its own and there are no holes. *)
Record file_wf (sb : superblock) (v : bview) (x : inode) : Prop := {
  fw_addrs : length (i_addrs x) = 13%nat;
  fw_size : 0 ≤ i_size x ≤ MAXFILE * BSIZE;
  fw_block b : block_of v x b → data_block sb v b ∧ b ≠ IBLOCK (i_inum x) sb;
  fw_inj n m : 0 ≤ n < MAXFILE → 0 ≤ m < MAXFILE → baddr v x n ≠ 0 → baddr v x n = baddr v x m → n = m;
  fw_ind n : 0 ≤ n < MAXFILE → baddr v x n ≠ 0 → baddr v x n ≠ iaddr x;
  fw_mapped n : 0 ≤ n → n * BSIZE < i_size x → baddr v x n ≠ 0 }.

(** The file system around the file: the bitmap, block 0, the inode's block. *)
Record around (sb : superblock) (v : bview) (inum : Z) : Prop := {
  ar_bitmap : bitmap_ok sb v;
  ar_zero : 0 < sb_size sb ∧ used sb v 0 = true;
  ar_ihome : v_home v (IBLOCK inum sb);
  ar_ilen : length (v_data v (IBLOCK inum sb)) = Z.to_nat BSIZE;
  ar_iheld : v_held v !! IBLOCK inum sb = None;
  ar_ibitmap c : 0 ≤ c < sb_size sb → IBLOCK inum sb ≠ BBLOCK c sb;
  ar_iused : 0 ≤ IBLOCK inum sb < sb_size sb → used sb v (IBLOCK inum sb) = true;
  ar_held : (size (v_held v) ≤ 8)%nat }.

Lemma baddr_direct v x n : n < NDIRECT → baddr v x n = default 0 (zidx (i_addrs x) n).
Proof. intros H. unfold baddr. by rewrite decide_True. Qed.
Lemma baddr_indirect v x n : NDIRECT ≤ n → baddr v x n = if decide (iaddr x = 0) then 0 else get32 (v_data v (iaddr x)) (4 * (n - NDIRECT)).
Proof. intros H. unfold baddr, iaddr. by rewrite decide_False by lia. Qed.

Lemma wf_file_ok sb v x : file_wf sb v x → file_ok v x.
Proof.
  intros [H1 H2 H3 H4 H5 H6]. assert (Hb : ∀ n, 0 ≤ n → n * BSIZE < i_size x → data_block sb v (baddr v x n)).
  { intros n Hn Hs. apply H3. split; [by apply H6|]. right. exists n. split; [|done]. unfold MAXFILE, NDIRECT, NINDIRECT, BSIZE in *. change (1024 / 4) with 256 in *. lia. }
  split; [done|done|done|intros n Hn Hs; by apply Hb|intros n Hn Hs; by apply Hb|].
  intros Hs. fold (iaddr x). assert (Hm : baddr v x NDIRECT ≠ 0) by (apply H6; [done|lia]). rewrite baddr_indirect in Hm by done.
  case_decide; [done|]. apply H3. split; [done|by left].
Qed.

(** A block keeps its contents when others are allocated. *)
Definition kept (sb : superblock) (v : bview) (b : Z) : Prop := (∀ c, 0 ≤ c < sb_size sb → b ≠ BBLOCK c sb) ∧ (0 ≤ b < sb_size sb → used sb v b = true).
Lemma data_kept sb v b : data_block sb v b → kept sb v b.
Proof. intros H. split; intros; by apply H. Qed.

Section alloc.
Context (sb : superblock) (v : bview) (a : Z) (Hbm : bitmap_ok sb v) (Ha : 0 < a < sb_size sb) (Hu : used sb v a = false).

Lemma alloc_kept b : kept sb v b → v_data (v_alloc sb a v) b = v_data v b.
Proof.
  intros [H1 H2]. apply alloc_other; [|apply H1; lia]. intros ->. rewrite H2 in Hu; [done|lia].
Qed.
Lemma alloc_new : v_data (v_alloc sb a v) a = replicate (Z.to_nat BSIZE) 0.
Proof. unfold v_alloc. cbn. unfold put_fun. by rewrite decide_True. Qed.
Lemma alloc_used b : 0 ≤ b < sb_size sb → used sb (v_alloc sb a v) b = bool_decide (a = b) || used sb v b.
Proof. intros Hb. apply used_alloc; [done|lia|done|done]. Qed.
Lemma alloc_data_block b : data_block sb v b → data_block sb (v_alloc sb a v) b.
Proof.
  intros H. pose proof (data_kept _ _ _ H) as Hk. destruct H as [H1 H2 H3 H4 H5 H6]. split; [done|rewrite alloc_used, H2 by lia; apply orb_true_r|done|done| |done].
  by rewrite alloc_kept.
Qed.
Lemma alloc_data_block_new : v_held v !! a = None → data_block sb (v_alloc sb a v) a.
Proof.
  intros Hn. destruct (bo_free _ _ Hbm a ltac:(lia) Hu) as [Hh Hb]. split; [done|rewrite alloc_used by lia; by rewrite bool_decide_true|done|done|by rewrite alloc_new|done].
Qed.
Lemma alloc_around inum : around sb v inum → around sb (v_alloc sb a v) inum.
Proof.
  intros [H1 H2 H3 H4 H5 H6 H7 H8]. split; try done.
  - apply alloc_bitmap_ok; [done|lia|done].
  - destruct H2 as [H0 H2]. split; [done|]. rewrite alloc_used by lia. rewrite H2. apply orb_true_r.
  - rewrite alloc_kept; [done|]. by split.
  - intros Hr. rewrite alloc_used by done. rewrite H7 by done. apply orb_true_r.
Qed.
Lemma alloc_fresh x b : file_wf sb v x → block_of v x b → b ≠ a.
Proof. intros Hw Hb ->. destruct (fw_block _ _ _ Hw a Hb) as [[_ H _ _ _ _] _]. by rewrite Hu in H. Qed.
End alloc.

(** A write to a block that is not of the bitmap. *)
Section write.
Context (sb : superblock) (v : bview) (c : Z) (l : list Z) (Hc : ∀ b, 0 ≤ b < sb_size sb → c ≠ BBLOCK b sb).

Lemma write_other b : b ≠ c → v_data (v_write c l v) b = v_data v b.
Proof. intros H. cbn. unfold put_fun. by rewrite decide_False. Qed.
Lemma write_at : v_data (v_write c l v) c = l.
Proof. cbn. unfold put_fun. by rewrite decide_True. Qed.
Lemma write_used b : 0 ≤ b < sb_size sb → used sb (v_write c l v) b = used sb v b.
Proof. intros Hb. unfold used. rewrite write_other; [done|]. intros H. by apply (Hc b Hb). Qed.
Lemma write_bitmap : bitmap_ok sb v → bitmap_ok sb (v_write c l v).
Proof.
  intros [H1 H2 H3 H4 H5 H6 H7]. split; try done.
  - intros b Hb. rewrite write_other; [by apply H3|]. intros H. by apply (Hc b Hb).
  - intros b Hb. rewrite write_used by done. by apply H5.
  - intros b Hb. destruct (H6 b Hb) as [H8 H9]. split; [|done]. intros Hr. rewrite write_used by done. by apply H8.
Qed.
Lemma write_data_block b : data_block sb v b → (b = c → length l = Z.to_nat BSIZE) → data_block sb (v_write c l v) b.
Proof.
  intros [H1 H2 H3 H4 H5 H6] Hl. split; try done; [rewrite write_used; [done|lia]|]. destruct (decide (b = c)) as [->|Hn]; [rewrite write_at; by apply Hl|by rewrite write_other].
Qed.
Lemma write_around inum : around sb v inum → (IBLOCK inum sb = c → length l = Z.to_nat BSIZE) → around sb (v_write c l v) inum.
Proof.
  intros [H1 H2 H3 H4 H5 H6 H7 H8] Hl. split; try done.
  - by apply write_bitmap.
  - destruct H2 as [H0 H2]. split; [done|]. rewrite write_used by lia. done.
  - destruct (decide (IBLOCK inum sb = c)) as [He|Hn]; [rewrite He, write_at; by apply Hl|by rewrite write_other].
  - intros Hr. rewrite write_used by done. by apply H7.
Qed.
End write.

(** What a growing file keeps. *)
Definition zeros : list Z := replicate (Z.to_nat BSIZE) 0.
Record grown (sb : superblock) (v : bview) (x : inode) (v' : bview) (x' : inode) : Prop := {
  gr_other : x' = i_with_addrs (i_addrs x') x;
  gr_baddr n : 0 ≤ n < MAXFILE → baddr v x n ≠ 0 → baddr v' x' n = baddr v x n;
  gr_iaddr : iaddr x ≠ 0 → iaddr x' = iaddr x;
  gr_data b : kept sb v b → (iaddr x ≠ 0 → b ≠ iaddr x) → v_data v' b = v_data v b;
  gr_used b : 0 ≤ b < sb_size sb → used sb v' b = true ↔ used sb v b = true ∨ block_of v' x' b;
  gr_fresh b : block_of v' x' b → ¬ block_of v x b → 0 ≤ b < sb_size sb ∧ used sb v b = false;
  gr_new n : 0 ≤ n < MAXFILE → baddr v x n = 0 → baddr v' x' n ≠ 0 → v_data v' (baddr v' x' n) = zeros ∧ baddr v' x' n ∈ v_log v';
  gr_held : v_held v' = v_held v;
  gr_home : v_home v' = v_home v;
  gr_log b : b ∈ v_log v → b ∈ v_log v' }.

Lemma elem_add_block b c l : b ∈ add_block c l ↔ b = c ∨ b ∈ l.
Proof. unfold add_block. case_decide as H; [split; [by right|by intros [->|]]|]. rewrite elem_of_app, list_elem_of_singleton. tauto. Qed.
Lemma le_value_zeros k : le_value (replicate k 0) = 0.
Proof. induction k as [|k IH]; [done|]. cbn [replicate le_value]. by rewrite IH. Qed.
Lemma get32_zeros off : get32 zeros off = 0.
Proof. unfold get32, zeros. rewrite drop_replicate, take_replicate. apply le_value_zeros. Qed.
Lemma i_addrs_with l x : i_addrs (i_with_addrs l x) = l.
Proof. done. Qed.

Lemma block_of_baddr v x n : 0 ≤ n < MAXFILE → baddr v x n ≠ 0 → block_of v x (baddr v x n).
Proof. intros Hn H. split; [done|]. right. by exists n. Qed.
Lemma block_of_iaddr v x : iaddr x ≠ 0 → block_of v x (iaddr x).
Proof. intros H. split; [done|by left]. Qed.

Lemma grown_block sb v x v' x' b : grown sb v x v' x' → block_of v x b → block_of v' x' b.
Proof.
  intros Hg [H0 [->|(n & Hn & <-)]].
  - rewrite <-(gr_iaddr _ _ _ _ _ Hg H0). apply block_of_iaddr. by rewrite (gr_iaddr _ _ _ _ _ Hg H0).
  - rewrite <-(gr_baddr _ _ _ _ _ Hg n Hn H0). apply block_of_baddr; [done|]. by rewrite (gr_baddr _ _ _ _ _ Hg n Hn H0).
Qed.
Lemma grown_kept sb v x v' x' b : grown sb v x v' x' → kept sb v b → kept sb v' b.
Proof. intros Hg [H1 H2]. split; [done|]. intros Hr. apply (gr_used _ _ _ _ _ Hg b Hr). left. by apply H2. Qed.
Lemma grown_refl sb v x : file_wf sb v x → grown sb v x v x.
Proof.
  intros Hw. split; try (by intros); [by destruct x|..].
  - intros b Hb. split; [by left|]. intros [|H]; [done|]. by destruct (fw_block _ _ _ Hw b H) as [[_ ? _ _ _ _] _].
Qed.
Lemma grown_trans sb v x v1 x1 v2 x2 : file_wf sb v1 x1 → grown sb v x v1 x1 → grown sb v1 x1 v2 x2 → grown sb v x v2 x2.
Proof.
  intros Hw G1 G2. split.
  - pose proof (gr_other _ _ _ _ _ G1) as E1. pose proof (gr_other _ _ _ _ _ G2) as E2. rewrite E2. rewrite E1 at 1. done.
  - intros n Hn H. pose proof (gr_baddr _ _ _ _ _ G1 n Hn H) as H1. rewrite <-H1. apply (gr_baddr _ _ _ _ _ G2 n Hn). by rewrite H1.
  - intros H. pose proof (gr_iaddr _ _ _ _ _ G1 H) as H1. rewrite <-H1. apply (gr_iaddr _ _ _ _ _ G2). by rewrite H1.
  - intros b Hk Hb. pose proof (gr_data _ _ _ _ _ G1 b Hk Hb) as H1. rewrite <-H1. apply (gr_data _ _ _ _ _ G2); [by eapply grown_kept|].
    intros H0 Heq. destruct (decide (iaddr x = 0)) as [He|He]; [|rewrite (gr_iaddr _ _ _ _ _ G1 He) in Heq; by apply Hb].
    + assert (Hn : ¬ block_of v x (iaddr x1)).
      { intros [_ [H|(n & Hn & H)]]; [congruence|]. apply (fw_ind _ _ _ Hw n Hn); rewrite (gr_baddr _ _ _ _ _ G1 n Hn); congruence. }
      destruct (gr_fresh _ _ _ _ _ G1 _ (block_of_iaddr v1 x1 H0) Hn) as [Hr Hf]. rewrite <-Heq in Hr, Hf. destruct Hk as [_ Hk]. by rewrite Hk in Hf.
  - intros b Hb. rewrite (gr_used _ _ _ _ _ G2 b Hb), (gr_used _ _ _ _ _ G1 b Hb). split; [|tauto]. intros [[H|H]|H]; [by left|right; by eapply grown_block|by right].
  - intros b Hb Hn. destruct (decide (block_of v1 x1 b)) as [H1|H1]; [by apply (gr_fresh _ _ _ _ _ G1)|].
    destruct (gr_fresh _ _ _ _ _ G2 b Hb H1) as [Hr Hf]. split; [done|]. destruct (used sb v b) eqn:Hu; [|done].
    rewrite (proj2 (gr_used _ _ _ _ _ G1 b Hr) (or_introl Hu)) in Hf. discriminate Hf.
  - intros n Hn H0 H2. destruct (decide (baddr v1 x1 n = 0)) as [H1|H1]; [by apply (gr_new _ _ _ _ _ G2)|].
    pose proof (gr_baddr _ _ _ _ _ G2 n Hn H1) as He. rewrite He. destruct (gr_new _ _ _ _ _ G1 n Hn H0 H1) as [Hz Hl].
    split; [|by apply (gr_log _ _ _ _ _ G2)]. rewrite <-Hz. apply (gr_data _ _ _ _ _ G2); [|intros _; by apply (fw_ind _ _ _ Hw n Hn)].
    apply data_kept, (fw_block _ _ _ Hw). by apply block_of_baddr.
  - etrans; [apply (gr_held _ _ _ _ _ G2)|apply (gr_held _ _ _ _ _ G1)].
  - etrans; [apply (gr_home _ _ _ _ _ G2)|apply (gr_home _ _ _ _ _ G1)].
  - intros b Hb. by apply (gr_log _ _ _ _ _ G2), (gr_log _ _ _ _ _ G1).
Qed.

(** ** One more block in a slot of the inode *)
Section slot.
Context (sb : superblock) (v : bview) (x : inode) (i a : Z) (Hw : file_wf sb v x) (Har : around sb v (i_inum x)) (Hi : 0 ≤ i ≤ NDIRECT)
  (Hslot : default 0 (zidx (i_addrs x) i) = 0) (Ha : 0 < a < sb_size sb) (Hu : used sb v a = false).
Let v' := v_alloc sb a v.
Let x' := i_with_addrs (<[Z.to_nat i := a]> (i_addrs x)) x.

Lemma slot_addr j : default 0 (zidx (i_addrs x') j) = if decide (j = i) then a else default 0 (zidx (i_addrs x) j).
Proof.
  unfold x'. rewrite i_addrs_with, zidx_insert; [|rewrite (fw_addrs _ _ _ Hw); unfold NDIRECT in Hi; lia]. destruct (decide (i = j)) as [->|Hn]; [by rewrite decide_True|]. by rewrite decide_False.
Qed.
Lemma slot_iaddr : iaddr x' = if decide (i = NDIRECT) then a else iaddr x.
Proof. unfold iaddr. rewrite slot_addr. by destruct (decide (NDIRECT = i)), (decide (i = NDIRECT)); congruence. Qed.
Lemma slot_kept b : kept sb v b → v_data v' b = v_data v b.
Proof. by apply alloc_kept. Qed.
Lemma slot_baddr n : 0 ≤ n < MAXFILE → baddr v' x' n = if decide (n = i ∧ i < NDIRECT) then a else baddr v x n.
Proof.
  intros Hn. destruct (decide (n < NDIRECT)) as [Hd|Hd].
  - rewrite !baddr_direct by done. rewrite slot_addr. repeat case_decide; lia || tauto.
  - rewrite (decide_False (P := n = i ∧ i < NDIRECT)) by lia. rewrite !baddr_indirect by lia. rewrite slot_iaddr. destruct (decide (i = NDIRECT)) as [Hi0|Hi0].
    + rewrite (decide_True (P := iaddr x = 0)) by (unfold iaddr; rewrite <-Hi0; exact Hslot). rewrite decide_False by lia. unfold v'. by rewrite (alloc_new sb v a), get32_zeros.
    + case_decide as H0; [done|]. rewrite slot_kept; [done|]. apply data_kept, (fw_block _ _ _ Hw). by apply block_of_iaddr.
Qed.
Lemma slot_block b : block_of v' x' b ↔ b = a ∨ block_of v x b.
Proof.
  split.
  - intros [H0 [Hb|(n & Hn & Hb)]].
    + rewrite slot_iaddr in Hb. case_decide; [by left|right; by split; [|left]].
    + rewrite slot_baddr in Hb by done. case_decide; [by left|right; split; [done|right; by exists n]].
  - intros [->|[H0 [->|(n & Hn & <-)]]].
    + split; [lia|]. destruct (decide (i = NDIRECT)) as [He|He]; [left; by rewrite slot_iaddr, decide_True|]. right. exists i. rewrite slot_baddr; [|unfold MAXFILE, NDIRECT, NINDIRECT, BSIZE in *; change (1024 / 4) with 256; lia].
      rewrite decide_True; [|lia]. unfold MAXFILE, NDIRECT, NINDIRECT, BSIZE in *. change (1024 / 4) with 256. by split; [lia|].
    + split; [done|]. left. rewrite slot_iaddr, decide_False; [done|]. intros ->. by apply H0.
    + split; [done|]. right. exists n. split; [done|]. rewrite slot_baddr by done. rewrite decide_False; [done|]. intros [-> Hd]. apply H0. by rewrite baddr_direct.
Qed.
Lemma slot_new : ¬ block_of v x a.
Proof. intros H. destruct (fw_block _ _ _ Hw a H) as [[_ H1 _ _ _ _] _]. congruence. Qed.
Lemma slot_data_block b : block_of v' x' b → data_block sb v' b ∧ b ≠ IBLOCK (i_inum x') sb.
Proof.
  pose proof (ar_bitmap _ _ _ Har) as Hbm. intros [->|Hb]%slot_block.
  - split; [apply alloc_data_block_new; [done|done|done|]|].
    + eapply not_held; [exact Hbm|]. left. split; [lia|done].
    + intros He. pose proof (ar_iused _ _ _ Har) as Hiu. change (i_inum x') with (i_inum x) in He. rewrite <-He in Hiu. rewrite Hiu in Hu; [done|lia].
  - destruct (fw_block _ _ _ Hw b Hb) as [H1 H2]. split; [by apply alloc_data_block|done].
Qed.
Lemma slot_wf : file_wf sb v' x'.
Proof.
  pose proof slot_new as Hnew. split.
  - unfold x'. rewrite i_addrs_with, length_insert. apply Hw.
  - apply Hw.
  - apply slot_data_block.
  - intros n m Hn Hm. rewrite !slot_baddr by done. repeat case_decide; intros Hnz He; try lia; try (by apply (fw_inj _ _ _ Hw)).
    + exfalso. apply Hnew. rewrite He. apply block_of_baddr; [done|lia].
    + exfalso. apply Hnew. rewrite <-He. by apply block_of_baddr.
  - intros n Hn. rewrite slot_baddr, slot_iaddr by done. repeat case_decide; intros Hnz He; try lia.
    + apply Hnew. rewrite He. apply block_of_iaddr. lia.
    + apply Hnew. rewrite <-He. by apply block_of_baddr.
    + by apply (fw_ind _ _ _ Hw n Hn).
  - intros n Hn Hs. rewrite slot_baddr; [|destruct (fw_size _ _ _ Hw) as [_ H]; change (i_size x') with (i_size x) in Hs; unfold MAXFILE, NDIRECT, NINDIRECT, BSIZE in *; change (1024 / 4) with 256 in *; lia].
    case_decide; [lia|]. by apply (fw_mapped _ _ _ Hw).
Qed.
Lemma slot_grown : grown sb v x v' x'.
Proof.
  pose proof slot_new as Hnew. split.
  - done.
  - intros n Hn H0. rewrite slot_baddr by done. rewrite decide_False; [done|]. intros [-> Hd]. apply H0. by rewrite baddr_direct.
  - intros H0. rewrite slot_iaddr, decide_False; [done|]. intros ->. by apply H0.
  - intros b Hk _. by apply slot_kept.
  - intros b Hb. rewrite slot_block. unfold v'. rewrite (alloc_used sb v a) by (try done; apply Har). rewrite orb_true_iff, bool_decide_eq_true. split; [intros [->|]; tauto|].
    intros [H|[->|H]]; [by right|by left|right]. by destruct (fw_block _ _ _ Hw b H) as [[_ ? _ _ _ _] _].
  - intros b [->|Hb]%slot_block Hn; [by split; [lia|]|done].
  - intros n Hn H0. rewrite slot_baddr by done. case_decide; [|done]. intros _. split; [by apply alloc_new|]. unfold v', v_alloc. cbn. rewrite elem_add_block. by left.
  - done.
  - done.
  - intros b Hb. unfold v', v_alloc. cbn. rewrite !elem_add_block. tauto.
Qed.
End slot.

(** ** One more entry of the indirect block *)
Section entry.
Context (sb : superblock) (v : bview) (x : inode) (n0 a : Z) (Hw : file_wf sb v x) (Har : around sb v (i_inum x)) (Hn0 : NDIRECT ≤ n0 < MAXFILE)
  (Hi0 : iaddr x ≠ 0) (Hentry : baddr v x n0 = 0) (Ha : 0 < a < sb_size sb) (Hu : used sb v a = false).
Let off := 4 * (n0 - NDIRECT).
Let v' := v_write (iaddr x) (put32 (v_data v (iaddr x)) off a) (v_alloc sb a v).

Lemma entry_ind : data_block sb v (iaddr x).
Proof. apply (fw_block _ _ _ Hw). by apply block_of_iaddr. Qed.
Lemma entry_off : 0 ≤ off ∧ off + 4 ≤ Z.of_nat (length (v_data v (iaddr x))).
Proof. rewrite (db_len _ _ _ entry_ind). unfold off. unfold MAXFILE, NDIRECT, NINDIRECT, BSIZE in *. change (1024 / 4) with 256 in *. lia. Qed.
Lemma entry_kept b : kept sb v b → b ≠ iaddr x → v_data v' b = v_data v b.
Proof. intros Hk Hb. unfold v'. rewrite write_other by done. by apply alloc_kept. Qed.
Lemma entry_baddr n : 0 ≤ n < MAXFILE → baddr v' x n = if decide (n = n0) then a else baddr v x n.
Proof.
  intros Hn. destruct entry_off as [Ho1 Ho2]. destruct (decide (n < NDIRECT)) as [Hd|Hd]; [rewrite !baddr_direct, decide_False by lia; done|].
  rewrite !baddr_indirect by lia. rewrite !(decide_False (P := iaddr x = 0)) by done. unfold v'. rewrite write_at.
  pose proof (bo_size _ _ (ar_bitmap _ _ _ Har)). case_decide as He.
  - subst n. fold off. rewrite get_put32 by done. apply u32_small. lia.
  - apply get_put32_ne; [done|done|lia|unfold off; lia].
Qed.
Lemma entry_new : ¬ block_of v x a.
Proof. intros H. destruct (fw_block _ _ _ Hw a H) as [[_ H1 _ _ _ _] _]. congruence. Qed.
Lemma entry_block b : block_of v' x b ↔ b = a ∨ block_of v x b.
Proof.
  split.
  - intros [H0 [Hb|(n & Hn & Hb)]]; [right; by split; [|left]|]. rewrite entry_baddr in Hb by done. case_decide; [by left|right; split; [done|right; by exists n]].
  - intros [->|[H0 [->|(n & Hn & <-)]]].
    + split; [lia|]. right. exists n0. split; [unfold NDIRECT in *; lia|]. rewrite entry_baddr by (unfold NDIRECT in *; lia). by rewrite decide_True.
    + by split; [|left].
    + split; [done|]. right. exists n. split; [done|]. rewrite entry_baddr by done. rewrite decide_False; [done|]. by intros ->.
Qed.
Lemma entry_data_block b : data_block sb (v_alloc sb a v) b → data_block sb v' b.
Proof.
  intros H. apply write_data_block; [apply entry_ind|done|]. intros _. destruct entry_off. rewrite length_put32 by done. apply entry_ind.
Qed.
Lemma entry_wf : file_wf sb v' x.
Proof.
  pose proof entry_new as Hnew. pose proof (ar_bitmap _ _ _ Har) as Hbm. split; [apply Hw|apply Hw|..].
  - intros b [->|Hb]%entry_block.
    + split; [apply entry_data_block, alloc_data_block_new; [done|done|done|]|].
      * eapply not_held; [exact Hbm|]. left. split; [lia|done].
      * intros He. pose proof (ar_iused _ _ _ Har) as Hiu. rewrite <-He in Hiu. rewrite Hiu in Hu; [done|lia].
    + destruct (fw_block _ _ _ Hw b Hb) as [H1 H2]. split; [by apply entry_data_block, alloc_data_block|done].
  - intros n m Hn Hm. rewrite !entry_baddr by done. repeat case_decide; intros Hnz He; try lia; try (by apply (fw_inj _ _ _ Hw)).
    + exfalso. apply Hnew. rewrite He. apply block_of_baddr; [done|lia].
    + exfalso. apply Hnew. rewrite <-He. by apply block_of_baddr.
  - intros n Hn. rewrite entry_baddr by done. case_decide; intros Hnz He; [|by apply (fw_ind _ _ _ Hw n Hn)].
    apply Hnew. rewrite He. by apply block_of_iaddr.
  - intros n Hn Hs. rewrite entry_baddr; [|destruct (fw_size _ _ _ Hw) as [_ H]; unfold MAXFILE, NDIRECT, NINDIRECT, BSIZE in *; change (1024 / 4) with 256 in *; lia].
    case_decide; [lia|]. by apply (fw_mapped _ _ _ Hw).
Qed.
Lemma entry_grown : grown sb v x v' x.
Proof.
  pose proof entry_new as Hnew. assert (Hne : a ≠ iaddr x) by (intros ->; by apply Hnew, block_of_iaddr). split.
  - by destruct x.
  - intros n Hn H0. rewrite entry_baddr by done. rewrite decide_False; [done|]. by intros ->.
  - done.
  - intros b Hk Hb. apply entry_kept; [done|by apply Hb].
  - intros b Hb. rewrite entry_block. unfold v'. rewrite write_used; [|intros c Hcr; by apply (db_bitmap _ _ _ entry_ind)|done]. rewrite (alloc_used sb v a) by (try done; apply Har).
    rewrite orb_true_iff, bool_decide_eq_true. split; [intros [->|]; tauto|].
    intros [H|[->|H]]; [by right|by left|right]. by destruct (fw_block _ _ _ Hw b H) as [[_ ? _ _ _ _] _].
  - intros b [->|Hb]%entry_block Hn; [by split; [lia|]|done].
  - intros n Hn H0. rewrite entry_baddr by done. case_decide; [|done]. intros _. split; [unfold v'; rewrite write_other by done; by apply alloc_new|].
    unfold v', v_alloc. cbn. rewrite !elem_add_block. tauto.
  - done.
  - done.
  - intros b Hb. unfold v', v_alloc. cbn. rewrite !elem_add_block. tauto.
Qed.
Lemma entry_around : around sb v' (i_inum x).
Proof.
  apply write_around; [apply entry_ind|apply alloc_around; try done; apply Har|]. intros He. destruct (fw_block _ _ _ Hw (iaddr x) (block_of_iaddr v x Hi0)) as [_ H]. congruence.
Qed.
End entry.
