(* ===== verification/FsBmap.v ===== *)
(** * [bmap]

    Inside a transaction with room for what it may log, [bmap] returns the address
    of a block of the file, which it adds to the file when it is missing and the
    disk is not full. *)
From S2P Require Import Prelude Spinlock Sleeplock BufCache Log LogRun LogCap LogWrite BlockIO Fs FsBlocks FsAlloc Inode FsRead FsGrow.

Section bmap.
Context {B : Type} `{E : !BlockEnv B} `{!BlockLaws B}.
Abbreviation F := (fstate B).
Implicit Types (s : F) (v : bview) (x : inode).

(** Only the blocks and inode [ip] changed. *)
Record same_but (ip : nat) s s' x' : Prop := {
  sm_inodes : f_inodes s' = <[ip := x']> (f_inodes s);
  sm_sb : f_sb s' = f_sb s;
  sm_lock : itable_lock s' = itable_lock s;
  sm_pid : f_pid s' = f_pid s;
  sm_cwd : f_cwd s' = f_cwd s;
  sm_wakes : f_wakes s' = f_wakes s;
  sm_hart : be_hart (f_b s') = be_hart (f_b s) }.
Definition run {A} dev ip (m : M F A) s (a : A) v' x' : Prop := ∃ s', m s = Ok (a, s') ∧ be_rep dev (f_b s') v' ∧ same_but ip s s' x'.

Lemma same_but_refl ip s x : f_inodes s !! ip = Some x → same_but ip s s x.
Proof. intros H. split; try done. by rewrite list_insert_id. Qed.
Lemma same_but_trans ip s s1 s2 x1 x2 : same_but ip s s1 x1 → same_but ip s1 s2 x2 → same_but ip s s2 x2.
Proof. intros [] []. split; try congruence. rewrite sm_inodes1, sm_inodes0. apply list_insert_insert_eq. Qed.
Lemma same_but_lookup ip s s' x x' : f_inodes s !! ip = Some x → same_but ip s s' x' → f_inodes s' !! ip = Some x'.
Proof. intros Hx []. rewrite sm_inodes0. apply list_lookup_insert_eq. by eapply lookup_lt_Some. Qed.

Lemma bind_assoc {A C D} (m : M F A) (f : A → M F C) (g : C → M F D) s : ((m ≫= f) ≫= g) s = (m ≫= λ a, f a ≫= g) s.
Proof. unfold mbind, M_bind. by destruct (m s) as [[a s1]| | |]. Qed.
Lemma run_ret {A} dev ip s v x (a : A) : f_inodes s !! ip = Some x → be_rep dev (f_b s) v → run dev ip (mret a) s a v x.
Proof. intros Hx Hr. exists s. split; [done|]. split; [done|]. by apply same_but_refl. Qed.
Lemma run_bind {A C} dev ip (m : M F A) (f : A → M F C) s a v1 x1 c v2 x2 :
  run dev ip m s a v1 x1 → (∀ s1, be_rep dev (f_b s1) v1 → same_but ip s s1 x1 → run dev ip (f a) s1 c v2 x2) → run dev ip (m ≫= f) s c v2 x2.
Proof.
  intros (s1 & E1 & R1 & S1) H. destruct (H s1 R1 S1) as (s2 & E2 & R2 & S2). exists s2. rewrite (bind_Ok_eq _ _ _ _ _ E1).
  split; [done|]. split; [done|]. by eapply same_but_trans.
Qed.
Lemma run_step {A C} dev ip (m : M F A) (f : A → M F C) s a s1 x1 c v2 x2 :
  m s = Ok (a, s1) → same_but ip s s1 x1 → run dev ip (f a) s1 c v2 x2 → run dev ip (m ≫= f) s c v2 x2.
Proof. intros E1 S1 (s2 & E2 & R2 & S2). exists s2. rewrite (bind_Ok_eq _ _ _ _ _ E1). split; [done|]. split; [done|]. by eapply same_but_trans. Qed.
Lemma goes_run {A} dev ip (m : M F A) s v a v' x : f_inodes s !! ip = Some x → goes dev m s v a v' → run dev ip m s a v' x.
Proof. intros Hx (b & E1 & R1 & H1). exists (with_b b s). split; [done|]. split; [done|]. split; try done. cbn. by rewrite list_insert_id. Qed.
Lemma run_ext {A} dev ip (m : M F A) s a v v' x : run dev ip m s a v x → (∀ b, v_data v' b = v_data v b) → v_held v' = v_held v → v_dirty v' = v_dirty v →
  v_log v' = v_log v → v_home v' = v_home v → run dev ip m s a v' x.
Proof. intros (s1 & E1 & R1 & S1) H1 H2 H3 H4 H5. exists s1. split; [done|]. split; [|done]. by eapply be_ext. Qed.

Lemma run_lookup {A} dev ip (m : M F A) s x a v' x' : f_inodes s !! ip = Some x → run dev ip m s a v' x' →
  ∃ s1, m s = Ok (a, s1) ∧ be_rep dev (f_b s1) v' ∧ same_but ip s s1 x' ∧ f_inodes s1 !! ip = Some x'.
Proof. intros Hx (s1 & E1 & R1 & S1). exists s1. split; [done|]. split; [done|]. split; [done|]. by eapply same_but_lookup. Qed.

(** The pieces of the code. *)
Lemma run_geti {C} dev ip (f : inode → M F C) s x c v' x' : f_inodes s !! ip = Some x → run dev ip (f x) s c v' x' → run dev ip (geti ip ≫= f) s c v' x'.
Proof. intros Hx (s1 & E1 & H). exists s1. split; [|done]. rewrite (bind_Ok_eq _ _ _ x s); [done|]. unfold geti. by rewrite Hx. Qed.
Lemma run_get_addr {C} dev ip i (f : Z → M F C) s x c v' x' : f_inodes s !! ip = Some x → length (i_addrs x) = 13%nat → 0 ≤ i ≤ NDIRECT →
  run dev ip (f (default 0 (zidx (i_addrs x) i))) s c v' x' → run dev ip (get_addr ip i ≫= f) s c v' x'.
Proof.
  intros Hx Hl Hi (s1 & E1 & H). destruct (proj2 (zidx_is_Some (i_addrs x) i)) as [a Ea]; [unfold NDIRECT in Hi; lia|]. rewrite Ea in E1. exists s1. split; [|done].
  rewrite (bind_Ok_eq _ _ _ a s); [done|]. unfold get_addr, mbind, M_bind, geti. rewrite Hx. unfold lift. by rewrite Ea.
Qed.
Lemma run_set_addr dev ip i a s v x : f_inodes s !! ip = Some x → length (i_addrs x) = 13%nat → 0 ≤ i ≤ NDIRECT → be_rep dev (f_b s) v →
  run dev ip (set_addr ip i a) s tt v (i_with_addrs (<[Z.to_nat i := a]> (i_addrs x)) x).
Proof.
  intros Hx Hl Hi Hr. exists (with_inodes (<[ip := i_with_addrs (<[Z.to_nat i := a]> (i_addrs x)) x]> (f_inodes s)) s). split; [|by split].
  unfold set_addr. rewrite (bind_Ok_eq _ _ _ x s) by (unfold geti; by rewrite Hx).
  assert (Hz : zupd (i_addrs x) i a = Some (<[Z.to_nat i := a]> (i_addrs x))) by (apply zupd_Some; split; [unfold NDIRECT in Hi; lia|done]).
  rewrite Hz. unfold upd_i. by rewrite Hx.
Qed.
Lemma run_bread {C} dev ip b (f : nat → M F C) s v x c v' x' : f_inodes s !! ip = Some x → be_rep dev (f_b s) v → v_held v !! b = None → v_room v →
  (∀ h s1, be_rep dev (f_b s1) (v_hold b h v) → same_but ip s s1 x → run dev ip (f h) s1 c v' x') → run dev ip (bread dev b ≫= f) s c v' x'.
Proof.
  intros Hx Hr Hn Hroom Hf. destruct (be_bread_law dev b _ v Hr Hn Hroom) as (h & b' & E1 & R1 & H1).
  eapply run_bind; [|by apply (Hf h)]. exists (with_b b' s). split; [unfold bread, inb; by rewrite E1|]. split; [done|]. split; try done. cbn. by rewrite list_insert_id.
Qed.
Lemma run_bdata {C} dev ip b h (f : list Z → M F C) s v c v' x' : be_rep dev (f_b s) v → v_held v !! b = Some h →
  run dev ip (f (v_data v b)) s c v' x' → run dev ip (bdata h ≫= f) s c v' x'.
Proof.
  intros Hr Hh (s1 & E1 & H). exists s1. split; [|done]. rewrite (bind_Ok_eq _ _ _ (v_data v b) s); [done|]. unfold bdata, inb. rewrite (be_data_law dev b h _ v Hr Hh). by destruct s.
Qed.

(** ** Allocation *)

Definition all_used sb v : Prop := ∀ y, 0 ≤ y < sb_size sb → used sb v y = true.
Lemma balloc_run dev ip s v x sb : be_rep dev (f_b s) v → f_inodes s !! ip = Some x → f_sb s = sb → bitmap_ok sb v → 0 < sb_size sb ∧ used sb v 0 = true → v_spare 2 v →
  (∃ a, 0 < a < sb_size sb ∧ used sb v a = false ∧ run dev ip (balloc dev) s a (v_alloc sb a v) x) ∨
  (all_used sb v ∧ run dev ip (balloc dev) s 0 v x).
Proof.
  intros Hr Hx <- Hb [H0 Hu0] Hsp. destruct (balloc_ok dev s v Hr Hb Hsp) as [(a & Ha & Hu & _ & Hg)|[Hall (b & E1 & R1 & H1)]].
  - left. exists a. split; [|split; [done|by apply (goes_run _ _ _ _ v)]]. destruct (decide (a = 0)) as [->|]; [congruence|lia].
  - right. split; [done|]. eexists. split; [exact E1|]. split; [done|]. split; try done. cbn. by rewrite list_insert_id.
Qed.

Definition slot_cost (a : Z) : Z := if decide (a = 0) then 2 else 0.
(** What [bmap] leaves, with address [a] in the place [get] of the file. *)
Record bmapped sb v x (cost : Z) v' x' : Prop := {
  bm_wf : file_wf sb v' x';
  bm_around : around sb v' (i_inum x');
  bm_grown : grown sb v x v' x';
  bm_log : Z.of_nat (length (v_log v')) ≤ Z.of_nat (length (v_log v)) + cost }.
Lemma bmapped_refl sb v x : file_wf sb v x → around sb v (i_inum x) → bmapped sb v x 0 v x.
Proof. intros Hw Ha. split; [done|done|by apply grown_refl|lia]. Qed.

Lemma around_spare sb v inum k : around sb v inum → Z.of_nat (length (v_log v)) + k ≤ MAXOPBLOCKS → v_spare k v.
Proof. intros Ha Hl. split; [done|]. pose proof (ar_held _ _ _ Ha). lia. Qed.
Lemma alloc_log sb a v : Z.of_nat (length (v_log (v_alloc sb a v))) ≤ Z.of_nat (length (v_log v)) + 2.
Proof. unfold v_alloc. cbn. pose proof (length_add_block (BBLOCK a sb) (v_log v)). pose proof (length_add_block a (add_block (BBLOCK a sb) (v_log v))). lia. Qed.

Lemma bmap_slot_run dev ip i s v x sb : be_rep dev (f_b s) v → f_inodes s !! ip = Some x → f_sb s = sb → file_wf sb v x → around sb v (i_inum x) → 0 ≤ i ≤ NDIRECT →
  Z.of_nat (length (v_log v)) + slot_cost (default 0 (zidx (i_addrs x) i)) ≤ MAXOPBLOCKS →
  ∃ v' x', run dev ip (bmap_slot dev (default 0 (zidx (i_addrs x) i)) (set_addr ip i)) s (default 0 (zidx (i_addrs x') i)) v' x' ∧
    bmapped sb v x (slot_cost (default 0 (zidx (i_addrs x) i))) v' x' ∧
    (default 0 (zidx (i_addrs x') i) = 0 → all_used sb v') ∧
    (default 0 (zidx (i_addrs x) i) = 0 → default 0 (zidx (i_addrs x') i) ≠ 0 → default 0 (zidx (i_addrs x') i) ∈ v_log v') ∧
    (∀ m, 0 ≤ m < MAXFILE → m ≠ i ∨ i = NDIRECT → baddr v' x' m = baddr v x m).
Proof.
  intros Hr Hx Hsb Hw Ha Hi Hl. unfold slot_cost in *. set (a0 := default 0 (zidx (i_addrs x) i)) in *. unfold bmap_slot. case_decide as H0.
  - rewrite bool_decide_true by done.
    destruct (balloc_run dev ip s v x sb Hr Hx Hsb (ar_bitmap _ _ _ Ha) (ar_zero _ _ _ Ha)) as [(a & Hra & Hu & Hrun)|[Hall Hrun]]; [by eapply around_spare| |].
    + pose proof (slot_addr sb v x i a Hw Hi) as Haddr. exists (v_alloc sb a v), (i_with_addrs (<[Z.to_nat i := a]> (i_addrs x)) x).
      rewrite Haddr, decide_True by done. split.
      * eapply run_bind; [exact Hrun|]. intros s1 R1 S1. rewrite bool_decide_false by lia. eapply run_bind; [apply run_set_addr; [by eapply same_but_lookup|apply Hw|done|done]|].
        intros s2 R2 S2. apply run_ret; [|done]. eapply same_but_lookup; [|exact S2]. by eapply same_but_lookup.
      * split; [split|].
        -- by apply slot_wf.
        -- apply alloc_around; try done. apply Ha.
        -- by apply slot_grown.
        -- apply alloc_log.
        -- split; [lia|]. split; [intros _ _; unfold v_alloc; cbn; rewrite elem_add_block; by left|].
           intros m Hm Hor. rewrite (slot_baddr sb v x i a) by done. rewrite decide_False; [done|]. intros [-> ?]. destruct Hor; lia.
    + exists v, x. fold a0. rewrite H0. split; [|split; [|split; [done|split; [done|done]]]].
      * eapply run_bind; [exact Hrun|]. intros s1 R1 S1. rewrite bool_decide_true by done. apply run_ret; [|done]. by eapply same_but_lookup.
      * destruct (bmapped_refl sb v x Hw Ha). split; try done. lia.
  - rewrite bool_decide_false by done. exists v, x. split; [by apply run_ret|]. split; [by apply bmapped_refl|]. split; [done|]. by split.
Qed.

(** ** The indirect block *)

Lemma hold_bitmap sb v b h : bitmap_ok sb v → data_block sb v b → bitmap_ok sb (v_hold b h v).
Proof.
  intros [H1 H2 H3 H4 H5 H6 H7] [D1 D2 D3 D4 D5 D6]. split; try done. intros c Hc. cbn in Hc. destruct (decide (c = b)) as [->|Hn]; [by split|].
  rewrite lookup_insert_ne in Hc by done. by apply H6.
Qed.
Definition entry_cost v x n : Z := if decide (baddr v x n = 0) then 2 + (if decide (iaddr x ∈ v_log v) then 0 else 1) else 0.
Definition entry_code (dev ind n : Z) : M F Z :=
  bp ← bread dev ind;
  l ← bdata bp;
  addr ← bmap_slot dev (get32 l (4 * (n - NDIRECT))) (λ a, bstore bp (put32 l (4 * (n - NDIRECT)) a) ;; log_write bp);
  brelse bp ;;
  mret addr.

Lemma release_run dev ip b h s v v' x a : f_inodes s !! ip = Some x → be_rep dev (f_b s) v → v_held v !! b = Some h → b ∉ v_dirty v →
  (∀ c, v_data v' c = v_data v c) → v_held v' = delete b (v_held v) → v_dirty v' = v_dirty v → v_log v' = v_log v → v_home v' = v_home v →
  run dev ip (brelse h ;; mret (M := M F) (a : Z)) s a v' x.
Proof.
  intros Hx Hr Hh Hd H1 H2 H3 H4 H5. eapply run_bind; [apply (goes_run _ _ _ _ v); [exact Hx|by apply (brelse_goes dev b)]|]. intros s1 R1 S1.
  apply (run_ext _ _ _ _ _ (v_release b v)); [apply run_ret; [by eapply same_but_lookup|done]|done..].
Qed.
Lemma entry_log a v x n sb : baddr v x n = 0 →
  Z.of_nat (length (add_block (iaddr x) (v_log (v_alloc sb a v)))) ≤ Z.of_nat (length (v_log v)) + entry_cost v x n.
Proof.
  intros H0. unfold entry_cost. rewrite decide_True by done. pose proof (alloc_log sb a v). case_decide as Hin.
  - unfold add_block at 1. rewrite decide_True; [lia|]. unfold v_alloc. cbn. rewrite !elem_add_block. tauto.
  - pose proof (length_add_block (iaddr x) (v_log (v_alloc sb a v))). lia.
Qed.

Lemma entry_run dev ip n s v x sb : be_rep dev (f_b s) v → f_inodes s !! ip = Some x → f_sb s = sb → file_wf sb v x → around sb v (i_inum x) → NDIRECT ≤ n < MAXFILE →
  iaddr x ≠ 0 → Z.of_nat (length (v_log v)) + entry_cost v x n ≤ MAXOPBLOCKS →
  ∃ v', run dev ip (entry_code dev (iaddr x) n) s (baddr v' x n) v' x ∧ bmapped sb v x (entry_cost v x n) v' x ∧
    (baddr v' x n = 0 → all_used sb v') ∧ (baddr v x n = 0 → baddr v' x n ≠ 0 → iaddr x ∈ v_log v').
Proof.
  intros Hr Hx Hsb Hw Ha Hn Hi Hl. pose proof (entry_ind sb v x Hw Hi) as Hdb. pose proof (ar_bitmap _ _ _ Ha) as Hbm. pose proof (bo_clean _ _ Hbm) as Hcl.
  assert (Hba : baddr v x n = get32 (v_data v (iaddr x)) (4 * (n - NDIRECT))) by (rewrite baddr_indirect by lia; by rewrite decide_False).
  assert (Hec : 0 ≤ entry_cost v x n) by (unfold entry_cost; repeat case_decide; lia).
  assert (Hroom : v_room v) by (apply (spare_room 0); [lia|eapply around_spare; [done|lia]]).
  assert (Hback : ∀ h s1, be_rep dev (f_b s1) (v_hold (iaddr x) h v) → f_inodes s1 !! ip = Some x → ∀ a : Z, run dev ip (brelse h ;; mret a) s1 a v x).
  { intros h s1 R1 Hx1 a. eapply (release_run dev ip (iaddr x) h s1 _ v x); [done|exact R1|cbn; by rewrite lookup_insert_eq|cbn; rewrite Hcl; apply not_elem_of_empty|done| |done..].
    cbn. rewrite delete_insert_id; [done|apply Hdb]. }
  destruct (decide (baddr v x n = 0)) as [H0|H0].
  2: { exists v. assert (He : entry_cost v x n = 0) by (unfold entry_cost; by rewrite decide_False). rewrite He. split; [|split; [by apply bmapped_refl|by split]].
       unfold entry_code. apply (run_bread _ _ _ _ _ v x); [done|done|apply Hdb|done|]. intros h s1 R1 S1.
       apply (run_bdata _ _ (iaddr x) h _ _ (v_hold (iaddr x) h v)); [done|cbn; by rewrite lookup_insert_eq|]. cbn [v_data v_hold]. rewrite <-Hba.
       unfold bmap_slot. rewrite bool_decide_false by done. apply Hback; [done|by eapply same_but_lookup]. }
  assert (Hspare : ∀ h, v_spare 2 (v_hold (iaddr x) h v)).
  { intros h. unfold entry_cost in Hl. rewrite decide_True in Hl by done. split; cbn; [case_decide; lia|]. rewrite map_size_insert_None by apply Hdb. pose proof (ar_held _ _ _ Ha). lia. }
  assert (Hall : (∃ a, 0 < a < sb_size sb ∧ used sb v a = false ∧ run dev ip (entry_code dev (iaddr x) n) s a (v_write (iaddr x) (put32 (v_data v (iaddr x)) (4 * (n - NDIRECT)) a) (v_alloc sb a v)) x) ∨
    (all_used sb v ∧ run dev ip (entry_code dev (iaddr x) n) s 0 v x)).
  2: { destruct Hall as [(a & Hra & Hu & Hrun)|[Hall Hrun]].
       - exists (v_write (iaddr x) (put32 (v_data v (iaddr x)) (4 * (n - NDIRECT)) a) (v_alloc sb a v)).
         rewrite (entry_baddr sb v x n a); [|done..|unfold NDIRECT in Hn; lia]. rewrite decide_True by done.
         split; [done|]. split; [split|split; [lia|]].
         + by apply entry_wf.
         + by apply entry_around.
         + by apply entry_grown.
         + by apply entry_log.
         + intros _ _. cbn. rewrite elem_add_block. by left.
       - exists v. rewrite H0. split; [done|]. destruct (bmapped_refl sb v x Hw Ha). split; [split; try done; lia|]. by split. }
  destruct (be_bread_law dev (iaddr x) _ v Hr (db_held _ _ _ Hdb) Hroom) as (h & b' & E1 & R1 & H1). set (s1 := with_b b' s).
  assert (E1' : bread dev (iaddr x) s = Ok (h, s1)) by (unfold bread, inb; by rewrite E1).
  assert (S1 : same_but ip s s1 x) by (split; try done; cbn; by rewrite list_insert_id).
  assert (Hh : v_held (v_hold (iaddr x) h v) !! iaddr x = Some h) by (cbn; by rewrite lookup_insert_eq).
  set (off := 4 * (n - NDIRECT)) in *. set (l := v_data v (iaddr x)) in *.
  assert (Hrun : ∀ a v1 v2, run dev ip (balloc dev) s1 a v1 x →
    (∀ s2, be_rep dev (f_b s2) v1 → same_but ip s1 s2 x → run dev ip (addr ← (if bool_decide (a = 0) then mret 0 else (bstore h (put32 l off a) ;; log_write h) ;; mret a); brelse h ;; mret addr) s2 a v2 x) →
    run dev ip (entry_code dev (iaddr x) n) s a v2 x).
  { intros a v1 v2 Hb Hrest. unfold entry_code. apply (run_step _ _ _ _ _ h s1 x _ _ _ E1' S1). apply (run_bdata _ _ (iaddr x) h _ _ (v_hold (iaddr x) h v)); [done|done|]. cbn [v_data v_hold]. fold off l.
    unfold bmap_slot. rewrite bool_decide_true by congruence. destruct Hb as (s2 & E2 & R2 & S2). destruct (Hrest s2 R2 S2) as (s3 & E3 & R3 & S3).
    exists s3. split; [|split; [done|by eapply same_but_trans]]. rewrite bind_assoc, (bind_Ok_eq _ _ _ _ _ E2). exact E3. }
  destruct (balloc_run dev ip s1 (v_hold (iaddr x) h v) x sb R1 Hx Hsb (hold_bitmap sb v _ h Hbm Hdb) (ar_zero _ _ _ Ha) (Hspare h)) as [(a & Hra & Hu & Hb)|[Hall Hb]].
  - left. exists a. split; [done|]. split; [exact Hu|]. apply (Hrun a _ _ Hb). intros s2 R2 S2. rewrite bool_decide_false by lia.
    pose proof (same_but_lookup ip s1 s2 x x Hx S2) as Hx2. eapply run_bind.
    { eapply run_bind; [|intros s3 R3 S3; apply run_ret; [by eapply same_but_lookup|exact R3]]. eapply run_bind; [eapply goes_run; [exact Hx2|by apply (bstore_goes dev (iaddr x))]|]. intros s3 R3 S3.
      eapply goes_run; [by eapply same_but_lookup|]. apply (log_write_goes dev (iaddr x)); [exact R3|done|]. split; [apply Hdb|]. cbn.
      destruct (decide (iaddr x ∈ v_log v)) as [Hin|Hin]; [left; rewrite !elem_add_block; tauto|right].
      pose proof (entry_log a v x n sb H0) as Hel. unfold entry_cost in Hel, Hl. rewrite decide_True in Hel, Hl by done. rewrite decide_False in Hel, Hl by done.
      pose proof (alloc_log sb a v) as Hal. unfold v_alloc in Hal. cbn in Hal. unfold MAXOPBLOCKS in *. lia. }
    intros s3 R3 S3. eapply (release_run dev ip (iaddr x) h s3); [by eapply same_but_lookup|exact R3|done|cbn; set_solver|done| |cbn; set_solver|done|done].
    cbn. rewrite delete_insert_id; [done|apply Hdb].
  - right. split; [exact Hall|]. apply (Hrun 0 _ _ Hb). intros s2 R2 S2. rewrite bool_decide_true by done. pose proof (same_but_lookup ip s1 s2 x x Hx S2) as Hx2. eapply run_bind; [apply run_ret; [exact Hx2|exact R2]|].
    intros s3 R3 S3. apply Hback; [done|]. by eapply same_but_lookup.
Qed.

(** ** [bmap] *)

Definition ind_cost v x : Z := if decide (iaddr x = 0) then 2 else if decide (iaddr x ∈ v_log v) then 0 else 1.
Definition bmap_cost v x n : Z := if decide (baddr v x n = 0) then 2 + (if decide (n < NDIRECT) then 0 else ind_cost v x) else 0.

Lemma grown_inum sb v x v' x' : grown sb v x v' x' → i_inum x' = i_inum x ∧ i_size x' = i_size x ∧ i_dev x' = i_dev x.
Proof. intros H. by rewrite (gr_other _ _ _ _ _ H). Qed.
Lemma bmapped_trans sb v x c1 v1 x1 c2 v2 x2 c : bmapped sb v x c1 v1 x1 → bmapped sb v1 x1 c2 v2 x2 → c1 + c2 ≤ c → bmapped sb v x c v2 x2.
Proof. intros [H1 H2 H3 H4] [H5 H6 H7 H8] Hc. split; [done|done|exact (grown_trans sb v x v1 x1 v2 x2 H1 H3 H7)|lia]. Qed.

Lemma bmap_run dev ip n s v x sb : be_rep dev (f_b s) v → f_inodes s !! ip = Some x → f_sb s = sb → i_dev x = dev → file_wf sb v x → around sb v (i_inum x) →
  0 ≤ n < MAXFILE → Z.of_nat (length (v_log v)) + bmap_cost v x n ≤ MAXOPBLOCKS →
  ∃ v' x', run dev ip (bmap ip n) s (baddr v' x' n) v' x' ∧ bmapped sb v x (bmap_cost v x n) v' x' ∧
    (baddr v' x' n = 0 → all_used sb v') ∧ (NDIRECT ≤ n → baddr v x n = 0 → baddr v' x' n ≠ 0 → ind_cost v' x' = 0).
Proof.
  intros Hr Hx Hsb Hdev Hw Ha Hn Hl. unfold bmap, bmap_cost in *. destruct (decide (n < NDIRECT)) as [Hd|Hd] eqn:Hde; rewrite ?Hde in Hl.
  - rewrite (baddr_direct v x n Hd) in *. destruct (bmap_slot_run dev ip n s v x sb) as (v1 & x1 & Hrun & Hb & Hfull & Hlog & Hrest); try done; [lia|].
    exists v1, x1. rewrite (baddr_direct v1 x1 n Hd). split; [|split; [|by split; [|lia]]].
    + apply (run_geti _ _ _ _ x); [done|]. rewrite bool_decide_true by done. apply (run_get_addr _ _ _ _ _ x); [done|apply Hw|lia|]. by rewrite Hdev.
    + destruct Hb. by split.
  - set (c1 := slot_cost (iaddr x)).
    assert (Hc : c1 ≤ if decide (baddr v x n = 0) then 2 + ind_cost v x else 0).
    { unfold c1, slot_cost, ind_cost. destruct (decide (iaddr x = 0)) as [H0|H0]; [|repeat case_decide; lia]. rewrite decide_True; [lia|]. rewrite baddr_indirect by lia. by rewrite decide_True. }
    destruct (bmap_slot_run dev ip NDIRECT s v x sb) as (v1 & x1 & Hrun & Hb1 & Hfull1 & Hlog1 & Hrest1); try done; [fold (iaddr x); fold c1; lia|].
    fold (iaddr x) in Hrun, Hb1, Hlog1. fold (iaddr x1) in Hrun, Hfull1, Hlog1. fold c1 in Hb1. pose proof (bm_grown _ _ _ _ _ _ Hb1) as G1.
    assert (Hcode : ∀ c v' x', (∀ s1, be_rep dev (f_b s1) v1 → same_but ip s s1 x1 → run dev ip (if bool_decide (iaddr x1 = 0) then mret 0 else entry_code dev (iaddr x1) n) s1 c v' x') →
      run dev ip (bmap ip n) s c v' x').
    { intros c v' x' H. unfold bmap. apply (run_geti _ _ _ _ x); [done|]. rewrite bool_decide_false by done. rewrite bool_decide_true by (unfold MAXFILE in Hn; lia).
      apply (run_get_addr _ _ _ _ _ x); [done|apply Hw|unfold NDIRECT; lia|]. rewrite Hdev. eapply run_bind; [exact Hrun|]. exact H. }
    destruct (decide (iaddr x1 = 0)) as [H10|H10].
    { assert (H0 : baddr v1 x1 n = 0) by (rewrite baddr_indirect by lia; by rewrite decide_True). exists v1, x1. rewrite H0. split; [|split; [|split; [by intros _; apply Hfull1|done]]].
      - apply Hcode. intros s1 R1 S1. rewrite bool_decide_true by done. apply run_ret; [by eapply same_but_lookup|done].
      - destruct Hb1. split; try done. lia. }
    assert (He : c1 + entry_cost v1 x1 n ≤ if decide (baddr v x n = 0) then 2 + ind_cost v x else 0).
    { unfold entry_cost. destruct (decide (baddr v1 x1 n = 0)) as [H0|H0]; [|lia]. destruct (decide (baddr v x n = 0)) as [Hb0|Hb0].
      2: { exfalso. apply Hb0. rewrite <-(gr_baddr _ _ _ _ _ G1 n Hn Hb0). done. }
      unfold c1, slot_cost, ind_cost. destruct (decide (iaddr x = 0)) as [Hi0|Hi0].
      - rewrite decide_True by (by apply Hlog1). lia.
      - rewrite (gr_iaddr _ _ _ _ _ G1 Hi0). destruct (decide (iaddr x ∈ v_log v)) as [Hin|Hin]; [|destruct (decide (iaddr x ∈ v_log v1)); lia]. rewrite decide_True by (by apply (gr_log _ _ _ _ _ G1)). lia. }
    destruct (run_lookup _ _ _ _ _ _ _ _ Hx Hrun) as (s1 & E1 & R1 & S1 & Hx1).
    destruct (entry_run dev ip n s1 v1 x1 sb) as (v2 & Hrun2 & Hb2 & Hfull2 & Hlog2); [done|done|by rewrite (sm_sb _ _ _ _ S1)|apply Hb1|apply Hb1|lia|done|pose proof (bm_log _ _ _ _ _ _ Hb1); lia|].
    exists v2, x1. split; [|split; [by eapply bmapped_trans|split; [exact Hfull2|]]].
    + unfold bmap. apply (run_geti _ _ _ _ x); [done|]. rewrite bool_decide_false by done. rewrite bool_decide_true by (unfold MAXFILE in Hn; lia).
      apply (run_get_addr _ _ _ _ _ x); [done|apply Hw|unfold NDIRECT; lia|]. rewrite Hdev. apply (run_step _ _ _ _ _ _ s1 x1 _ _ _ E1 S1). by rewrite bool_decide_false by done.
    + intros _ Hb0 Hne. unfold ind_cost. rewrite decide_False by done. rewrite decide_True; [done|]. destruct (decide (baddr v1 x1 n = 0)) as [H0|H0]; [by apply Hlog2|].
      rewrite Hrest1 in H0 by (try done; by right). done.
Qed.
End bmap.
