(* ===== verification/FsWrite.v ===== *)
(** * [writei]

    What a file is after a write, and that the blocks of a transaction are enough
    for it. *)
From S2P Require Import Prelude Spinlock Sleeplock BufCache Log LogRun LogCap LogWrite BlockIO Fs FsBlocks FsAlloc Inode FsRead FsGrow FsBmap.

(** ** Blocks a write may log *)

Definition blk_cost v x n : Z := if decide (baddr v x n = 0) then 2 else 1.
Definition blks_cost v x (lo k : Z) : Z := foldr (λ n c, blk_cost v x n + c) 0 (seqZ lo k).
(** For [r] bytes from [off]: data blocks, bitmap blocks, the indirect block. *)
Definition last_block (off r : Z) : Z := (off + r - 1) / BSIZE.
Definition write_cost v x (off r : Z) : Z :=
  if decide (0 < r) then
    blks_cost v x (off / BSIZE) (last_block off r + 1 - off / BSIZE) + (if decide (last_block off r < NDIRECT) then 0 else ind_cost v x)
  else 0.

Lemma blks_cost_cons v x lo k : 0 < k → blks_cost v x lo k = blk_cost v x lo + blks_cost v x (lo + 1) (k - 1).
Proof. intros Hk. unfold blks_cost. rewrite seqZ_cons by done. cbn. by replace (Z.succ lo) with (lo + 1) by lia; replace (Z.pred k) with (k - 1) by lia. Qed.
Lemma blks_cost_mono v x v' x' lo k : (∀ n, lo ≤ n < lo + k → blk_cost v' x' n ≤ blk_cost v x n) → blks_cost v' x' lo k ≤ blks_cost v x lo k.
Proof.
  intros H. unfold blks_cost. assert (HF : Forall (λ n, blk_cost v' x' n ≤ blk_cost v x n) (seqZ lo k)) by (apply Forall_forall; intros n Hn%elem_of_seqZ; apply H; lia).
  induction HF; cbn; lia.
Qed.
Lemma blks_cost_max v x lo k : 0 ≤ k → 0 ≤ blks_cost v x lo k ≤ 2 * k.
Proof.
  intros Hk. unfold blks_cost. rewrite <-(Z2Nat.id k) by done. generalize (Z.to_nat k) as j. clear k Hk. intros j. revert lo. induction j as [|j IH]; intros lo; [done|].
  rewrite seqZ_cons by lia. cbn. replace (Z.pred (Z.of_nat (Datatypes.S j))) with (Z.of_nat j) by lia. specialize (IH (Z.succ lo)). assert (1 ≤ blk_cost v x lo ≤ 2) by (unfold blk_cost; case_decide; lia). lia.
Qed.
Lemma ind_cost_range v x : 0 ≤ ind_cost v x ≤ 2.
Proof. unfold ind_cost. repeat case_decide; lia. Qed.

(** ** A file that another call changed *)

Record extends (sb : superblock) (v : bview) (x : inode) (v' : bview) (x' : inode) : Prop := {
  ex_other : x' = i_with_addrs (i_addrs x') x;
  ex_baddr n : 0 ≤ n < MAXFILE → baddr v x n ≠ 0 → baddr v' x' n = baddr v x n;
  ex_iaddr : iaddr x ≠ 0 → iaddr x' = iaddr x;
  ex_data b : kept sb v b → ¬ block_of v x b → v_data v' b = v_data v b;
  ex_used b : 0 ≤ b < sb_size sb → used sb v' b = true ↔ used sb v b = true ∨ block_of v' x' b;
  ex_fresh b : block_of v' x' b → ¬ block_of v x b → 0 ≤ b < sb_size sb ∧ used sb v b = false;
  ex_held : v_held v' = v_held v;
  ex_home : v_home v' = v_home v;
  ex_log b : b ∈ v_log v → b ∈ v_log v' }.

Lemma grown_extends sb v x v' x' : grown sb v x v' x' → extends sb v x v' x'.
Proof.
  intros [H1 H2 H3 H4 H5 H6 H7 H8 H9 H10]. split; try done. intros b Hk Hb. apply H4; [done|]. intros H0 ->. by apply Hb, block_of_iaddr.
Qed.
Lemma extends_block sb v x v' x' b : extends sb v x v' x' → block_of v x b → block_of v' x' b.
Proof.
  intros Hg [H0 [->|(n & Hn & <-)]].
  - rewrite <-(ex_iaddr _ _ _ _ _ Hg H0). apply block_of_iaddr. by rewrite (ex_iaddr _ _ _ _ _ Hg H0).
  - rewrite <-(ex_baddr _ _ _ _ _ Hg n Hn H0). apply block_of_baddr; [done|]. by rewrite (ex_baddr _ _ _ _ _ Hg n Hn H0).
Qed.
Lemma extends_kept sb v x v' x' b : extends sb v x v' x' → kept sb v b → kept sb v' b.
Proof. intros Hg [H1 H2]. split; [done|]. intros Hr. apply (ex_used _ _ _ _ _ Hg b Hr). left. by apply H2. Qed.
Lemma extends_trans sb v x v1 x1 v2 x2 : extends sb v x v1 x1 → extends sb v1 x1 v2 x2 → extends sb v x v2 x2.
Proof.
  intros G1 G2. split.
  - rewrite (ex_other _ _ _ _ _ G2), (ex_other _ _ _ _ _ G1). done.
  - intros n Hn H. pose proof (ex_baddr _ _ _ _ _ G1 n Hn H) as H1. rewrite <-H1. apply (ex_baddr _ _ _ _ _ G2 n Hn). by rewrite H1.
  - intros H. pose proof (ex_iaddr _ _ _ _ _ G1 H) as H1. rewrite <-H1. apply (ex_iaddr _ _ _ _ _ G2). by rewrite H1.
  - intros b Hk Hb. pose proof (ex_data _ _ _ _ _ G1 b Hk Hb) as H1. rewrite <-H1. apply (ex_data _ _ _ _ _ G2); [by eapply extends_kept|].
    intros Hb1. destruct (ex_fresh _ _ _ _ _ G1 b Hb1 Hb) as [Hr Hf]. destruct Hk as [_ Hk]. by rewrite Hk in Hf.
  - intros b Hb. rewrite (ex_used _ _ _ _ _ G2 b Hb), (ex_used _ _ _ _ _ G1 b Hb). split; [|tauto]. intros [[H|H]|H]; [by left|right; by eapply extends_block|by right].
  - intros b Hb Hn. destruct (decide (block_of v1 x1 b)) as [H1|H1]; [by apply (ex_fresh _ _ _ _ _ G1)|].
    destruct (ex_fresh _ _ _ _ _ G2 b Hb H1) as [Hr Hf]. split; [done|]. destruct (used sb v b) eqn:Hu; [|done].
    rewrite (proj2 (ex_used _ _ _ _ _ G1 b Hr) (or_introl Hu)) in Hf. discriminate Hf.
  - etrans; [apply (ex_held _ _ _ _ _ G2)|apply (ex_held _ _ _ _ _ G1)].
  - etrans; [apply (ex_home _ _ _ _ _ G2)|apply (ex_home _ _ _ _ _ G1)].
  - intros b Hb. by apply (ex_log _ _ _ _ _ G2), (ex_log _ _ _ _ _ G1).
Qed.
Lemma extends_refl sb v x : file_wf sb v x → extends sb v x v x.
Proof. intros H. by apply grown_extends, grown_refl. Qed.

(** ** Bytes *)

Lemma length_splice l o d : 0 ≤ o → o + Z.of_nat (length d) ≤ Z.of_nat (length l) → length (splice l o d) = length l.
Proof. intros H1 H2. unfold splice. rewrite !length_app, length_take, length_drop. lia. Qed.
Lemma splice_lookup l o d k : 0 ≤ o → o + Z.of_nat (length d) ≤ Z.of_nat (length l) →
  splice l o d !! k = if decide (Z.to_nat o ≤ k < Z.to_nat o + length d)%nat then d !! (k - Z.to_nat o)%nat else l !! k.
Proof.
  intros H1 H2. unfold splice. case_decide as Hk.
  - rewrite lookup_app_r by (rewrite length_take; lia). rewrite length_take, lookup_app_l by lia. f_equal. lia.
  - destruct (decide (k < Z.to_nat o)%nat).
    + rewrite lookup_app_l by (rewrite length_take; lia). by rewrite lookup_take_lt by lia.
    + rewrite lookup_app_r by (rewrite length_take; lia). rewrite length_take, lookup_app_r by lia. rewrite lookup_drop. f_equal. lia.
Qed.

(** A write of [d] at [o] in block [n] of a file. *)
Section write_block.
Context (sb : superblock) (v : bview) (x : inode) (n o : Z) (d : list Z) (Hw : file_wf sb v x) (Har : around sb v (i_inum x)) (Hn : 0 ≤ n < MAXFILE) (Hb : baddr v x n ≠ 0)
  (Ho : 0 ≤ o) (Hd : o + Z.of_nat (length d) ≤ BSIZE).
Let a := baddr v x n.
Let v' := v_write a (splice (v_data v a) o d) v.

Lemma wb_data_block : data_block sb v a ∧ a ≠ IBLOCK (i_inum x) sb.
Proof. apply (fw_block _ _ _ Hw). by apply block_of_baddr. Qed.
Lemma wb_len : length (splice (v_data v a) o d) = Z.to_nat BSIZE.
Proof. destruct wb_data_block as [H _]. pose proof (db_len _ _ _ H) as Hl. rewrite length_splice; [done|done|]. rewrite Hl. unfold BSIZE in *. lia. Qed.
Lemma wb_iaddr : iaddr x ≠ 0 → v_data v' (iaddr x) = v_data v (iaddr x).
Proof. intros H0. apply write_other. intros He. by apply (fw_ind _ _ _ Hw n Hn Hb). Qed.
Lemma wb_baddr m : baddr v' x m = baddr v x m.
Proof.
  unfold baddr. case_decide; [done|]. fold (iaddr x). case_decide as H0; [done|]. by rewrite wb_iaddr.
Qed.
Lemma wb_block b : block_of v' x b ↔ block_of v x b.
Proof. unfold block_of. by setoid_rewrite wb_baddr. Qed.
Lemma wb_wf : file_wf sb v' x.
Proof.
  destruct wb_data_block as [Hdb Hi]. split; [apply Hw|apply Hw|..].
  - intros b Hbk%wb_block. destruct (fw_block _ _ _ Hw b Hbk) as [H1 H2]. split; [|done]. apply write_data_block; [apply Hdb|done|]. intros _. apply wb_len.
  - intros m k. rewrite !wb_baddr. apply (fw_inj _ _ _ Hw).
  - intros m. rewrite wb_baddr. apply (fw_ind _ _ _ Hw).
  - intros m. rewrite wb_baddr. apply (fw_mapped _ _ _ Hw).
Qed.
Lemma wb_around : around sb v' (i_inum x).
Proof. destruct wb_data_block as [Hdb Hi]. apply write_around; [apply Hdb|done|]. intros He. by rewrite He in Hi. Qed.
Lemma wb_extends : extends sb v x v' x.
Proof.
  destruct wb_data_block as [Hdb Hi]. split.
  - by destruct x.
  - intros m Hm _. apply wb_baddr.
  - done.
  - intros b _ Hnb. apply write_other. intros ->. apply Hnb. by apply block_of_baddr.
  - intros b Hr. unfold v'. rewrite write_used; [|apply Hdb|done]. fold v'. rewrite wb_block. split; [by left|]. intros [|H]; [done|]. by destruct (fw_block _ _ _ Hw b H) as [[_ ? _ _ _ _] _].
  - intros b H1%wb_block H2. done.
  - done.
  - done.
  - intros b H. cbn. rewrite elem_add_block. by right.
Qed.
Lemma wb_byte i : 0 ≤ i → (0 ≤ i / BSIZE < MAXFILE) → baddr v x (i / BSIZE) ≠ 0 →
  file_byte v' x i = if decide (n * BSIZE + o ≤ i < n * BSIZE + o + Z.of_nat (length d)) then default 0 (d !! Z.to_nat (i - (n * BSIZE + o))) else file_byte v x i.
Proof.
  intros Hi Hib Hm. unfold file_byte. rewrite wb_baddr. unfold BSIZE in *. pose proof (Z.div_mod i 1024 ltac:(lia)) as Hdm. pose proof (Z.mod_pos_bound i 1024 ltac:(lia)).
  destruct (decide (i / 1024 = n)) as [He|Hne].
  - rewrite He. fold a. unfold v'. rewrite write_at. destruct wb_data_block as [Hdb _]. pose proof (db_len _ _ _ Hdb) as Hl. unfold BSIZE in Hl.
    rewrite splice_lookup by (rewrite ?Hl; lia). destruct (decide (n * 1024 + o ≤ i < n * 1024 + o + Z.of_nat (length d))) as [Hin|Hout].
    + rewrite decide_True by lia. do 2 f_equal. lia.
    + by rewrite decide_False by lia.
  - rewrite decide_False by lia. unfold v'. rewrite write_other; [done|]. unfold a. intros H1. apply Hne. by apply (fw_inj _ _ _ Hw).
Qed.
End write_block.

Lemma grown_byte sb v x v' x' i : file_wf sb v x → grown sb v x v' x' → 0 ≤ i / BSIZE < MAXFILE → baddr v x (i / BSIZE) ≠ 0 → file_byte v' x' i = file_byte v x i.
Proof.
  intros Hw Hg Hi H0. unfold file_byte. rewrite (gr_baddr _ _ _ _ _ Hg _ Hi H0). rewrite (gr_data _ _ _ _ _ Hg); [done| |].
  - apply data_kept, (fw_block _ _ _ Hw). by apply block_of_baddr.
  - intros _. by apply (fw_ind _ _ _ Hw).
Qed.

(** ** Costs of the next round *)

Lemma grown_ind_cost sb v x v' x' : grown sb v x v' x' → ind_cost v' x' ≤ ind_cost v x.
Proof.
  intros Hg. unfold ind_cost at 2. destruct (decide (iaddr x = 0)) as [H0|H0]; [apply ind_cost_range|].
  unfold ind_cost. rewrite (gr_iaddr _ _ _ _ _ Hg H0), decide_False by done. destruct (decide (iaddr x ∈ v_log v)) as [Hin|Hin].
  - rewrite decide_True; [done|]. by apply (gr_log _ _ _ _ _ Hg).
  - case_decide; lia.
Qed.
Lemma write_ind_cost v x a l : ind_cost (v_write a l v) x ≤ ind_cost v x.
Proof.
  unfold ind_cost. case_decide; [done|]. cbn. destruct (decide (iaddr x ∈ v_log v)) as [Hin|Hin]; [|case_decide; lia].
  rewrite decide_True; [done|]. rewrite elem_add_block. by right.
Qed.
Lemma write_cost_first v x off r : 0 ≤ off → 0 < r →
  write_cost v x off r = blk_cost v x (off / BSIZE) + blks_cost v x (off / BSIZE + 1) (last_block off r - off / BSIZE) + (if decide (last_block off r < NDIRECT) then 0 else ind_cost v x) ∧ off / BSIZE ≤ last_block off r.
Proof.
  intros Ho Hr. assert (Hle : off / BSIZE ≤ last_block off r) by (unfold last_block, BSIZE; apply Z.div_le_mono; lia). split; [|done].
  unfold write_cost. rewrite decide_True by done. rewrite blks_cost_cons by lia. replace (last_block off r + 1 - off / BSIZE - 1) with (last_block off r - off / BSIZE) by lia. lia.
Qed.
Lemma write_cost_nonneg v x off r : 0 ≤ off → 0 ≤ write_cost v x off r.
Proof.
  intros Ho. destruct (decide (0 < r)) as [Hr|Hr]; [|unfold write_cost; by rewrite decide_False by lia]. destruct (write_cost_first v x off r Ho Hr) as [-> Hle].
  pose proof (blks_cost_max v x (off / BSIZE + 1) (last_block off r - off / BSIZE) ltac:(lia)). pose proof (ind_cost_range v x). unfold blk_cost. repeat case_decide; lia.
Qed.
Lemma next_chunk off r m : 0 ≤ off → m = Z.min r (BSIZE - off mod BSIZE) → 0 < r → 0 < r - m →
  (off + m) / BSIZE = off / BSIZE + 1 ∧ (off + m) mod BSIZE = 0 ∧ last_block (off + m) (r - m) = last_block off r.
Proof.
  intros Ho -> Hr Hm. unfold last_block, BSIZE in *. pose proof (Z.div_mod off 1024 ltac:(lia)). pose proof (Z.mod_pos_bound off 1024 ltac:(lia)).
  assert (He : off + Z.min r (1024 - off mod 1024) = (off / 1024 + 1) * 1024) by lia. rewrite He. split; [by rewrite Z.div_mul|]. split; [by rewrite Z.mod_mul|]. f_equal. lia.
Qed.

Lemma chunk_bmap_cost v x off r : 0 ≤ off → 0 < r → bmap_cost v x (off / BSIZE) ≤ write_cost v x off r.
Proof.
  intros Ho Hr.   destruct (write_cost_first v x off r Ho Hr) as [-> Hle]. pose proof (blks_cost_max v x (off / BSIZE + 1) (last_block off r - off / BSIZE) ltac:(lia)). pose proof (ind_cost_range v x).
  unfold bmap_cost, blk_cost. repeat case_decide; lia.
Qed.
Lemma chunk_block off r : 0 ≤ off → 0 < r → off + r ≤ MAXFILE * BSIZE → 0 ≤ off / BSIZE < MAXFILE.
Proof. intros. unfold BSIZE in *. split; [apply Z.div_pos; lia|apply Z.div_lt_upper_bound; lia]. Qed.

Section cost.
Set Default Proof Using "All".
Context (sb : superblock) (v : bview) (x : inode) (v1 : bview) (x1 : inode) (off r m : Z) (l : list Z) (Hb : bmapped sb v x (bmap_cost v x (off / BSIZE)) v1 x1)
  (Hnz : baddr v1 x1 (off / BSIZE) ≠ 0) (Hind : NDIRECT ≤ off / BSIZE → baddr v x (off / BSIZE) = 0 → ind_cost v1 x1 = 0)
  (Ho : 0 ≤ off) (Hr : 0 < r) (Hm : m = Z.min r (BSIZE - off mod BSIZE)) (Hmax : off + r ≤ MAXFILE * BSIZE).
Let a := baddr v1 x1 (off / BSIZE).
Let v2 := v_write a l v1.

Lemma chunk_log : Z.of_nat (length (v_log v2)) ≤ Z.of_nat (length (v_log v)) + blk_cost v x (off / BSIZE) +
  (if decide (baddr v x (off / BSIZE) = 0) then if decide (off / BSIZE < NDIRECT) then 0 else ind_cost v x else 0).
Proof.
  pose proof (bm_log _ _ _ _ _ _ Hb) as Hl. pose proof (length_add_block a (v_log v1)) as Ha. unfold v2, blk_cost, bmap_cost in *. cbn.
  destruct (decide (baddr v x (off / BSIZE) = 0)) as [H0|H0]; [|lia].
  destruct (gr_new _ _ _ _ _ (bm_grown _ _ _ _ _ _ Hb) _ (chunk_block off r Ho Hr Hmax) H0 Hnz) as [_ Hin]. fold a in Hin. unfold add_block. rewrite decide_True by done. case_decide; lia.
Qed.
Lemma chunk_cost : (∀ n, baddr v2 x1 n = baddr v1 x1 n) →
  Z.of_nat (length (v_log v2)) + write_cost v2 x1 (off + m) (r - m) ≤ Z.of_nat (length (v_log v)) + write_cost v x off r.
Proof.
  intros Hsame. pose proof chunk_log as Hl. destruct (write_cost_first v x off r Ho Hr) as [Hc Hle]. pose proof (ind_cost_range v x).
  pose proof (blks_cost_max v x (off / BSIZE + 1) (last_block off r - off / BSIZE) ltac:(lia)). pose proof (bm_grown _ _ _ _ _ _ Hb) as Hg.
  destruct (decide (0 < r - m)) as [Hrm|Hrm].
  - destruct (next_chunk off r m Ho Hm Hr Hrm) as (E1 & E2 & E3). destruct (write_cost_first v2 x1 (off + m) (r - m)) as [Hc2 _]; [unfold BSIZE in *; pose proof (Z.mod_pos_bound off 1024); lia|done|].
    unfold write_cost at 1. rewrite decide_True by done. rewrite E1, E3. replace (last_block off r + 1 - (off / BSIZE + 1)) with (last_block off r - off / BSIZE) by lia.
    assert (Hmono : blks_cost v2 x1 (off / BSIZE + 1) (last_block off r - off / BSIZE) ≤ blks_cost v x (off / BSIZE + 1) (last_block off r - off / BSIZE)).
    { apply blks_cost_mono. intros n Hn. unfold blk_cost. rewrite Hsame. destruct (decide (baddr v x n = 0)) as [Hz|Hz]; [destruct (decide (baddr v1 x1 n = 0)); lia|].
      rewrite (gr_baddr _ _ _ _ _ Hg n); [by rewrite decide_False| |done]. pose proof (chunk_block off r Ho Hr Hmax). split; [lia|]. assert (last_block off r < MAXFILE) by (unfold last_block, BSIZE in *; apply Z.div_lt_upper_bound; lia). lia. }
    pose proof (grown_ind_cost _ _ _ _ _ Hg) as Hi1. pose proof (write_ind_cost v1 x1 a l) as Hi2. fold v2 in Hi2. pose proof (ind_cost_range v2 x1).
    destruct (decide (baddr v x (off / BSIZE) = 0)) as [Hz|Hz]; [|repeat case_decide; lia]. destruct (decide (off / BSIZE < NDIRECT)) as [Hd|Hd]; [repeat case_decide; lia|].
    rewrite Hind in Hi2 by (done || lia). rewrite decide_False in Hc by lia. repeat case_decide; lia.
  - unfold write_cost at 1. rewrite decide_False by done. repeat case_decide; lia.
Qed.
(** There is room to log the data block. *)
Lemma chunk_room : Z.of_nat (length (v_log v)) + write_cost v x off r ≤ MAXOPBLOCKS → a ∈ v_log v1 ∨ Z.of_nat (length (v_log v1)) < MAXOPBLOCKS.
Proof.
  intros Hroom. pose proof (bm_log _ _ _ _ _ _ Hb) as Hl. destruct (decide (baddr v x (off / BSIZE) = 0)) as [H0|H0].
  - left. by apply (gr_new _ _ _ _ _ (bm_grown _ _ _ _ _ _ Hb) _ (chunk_block off r Ho Hr Hmax) H0).
  - right. unfold bmap_cost in Hl. rewrite decide_False in Hl by done. destruct (write_cost_first v x off r Ho Hr) as [Hc Hle]. unfold blk_cost in Hc. rewrite decide_False in Hc by done.
    pose proof (blks_cost_max v x (off / BSIZE + 1) (last_block off r - off / BSIZE) ltac:(lia)). pose proof (ind_cost_range v x). destruct (decide (last_block off r < NDIRECT)); lia.
Qed.
End cost.

(** ** The loop *)

(** [k] bytes of [mem] from address [from] are at [off] of the file. *)
Record wrote (mem : Z → Z) (sb : superblock) (v : bview) (x : inode) (off k from : Z) (v' : bview) (x' : inode) : Prop := {
  wr_wf : file_wf sb v' x';
  wr_around : around sb v' (i_inum x');
  wr_ext : extends sb v x v' x';
  wr_in i : off ≤ i < off + k → baddr v' x' (i / BSIZE) ≠ 0 ∧ file_byte v' x' i = mem (from + (i - off));
  wr_out i : 0 ≤ i → i / BSIZE < MAXFILE → baddr v x (i / BSIZE) ≠ 0 → ¬ (off ≤ i < off + k) → file_byte v' x' i = file_byte v x i }.

Lemma byte_block off k i : 0 ≤ off → off + k ≤ MAXFILE * BSIZE → off ≤ i < off + k → 0 ≤ i / BSIZE < MAXFILE.
Proof. intros Ho Hk Hi. unfold BSIZE in *. split; [apply Z.div_pos; lia|apply Z.div_lt_upper_bound; lia]. Qed.
Lemma wrote_trans mem sb v x off m from v1 x1 k v2 x2 : 0 ≤ off → 0 ≤ m → 0 ≤ k → off + m + k ≤ MAXFILE * BSIZE →
  wrote mem sb v x off m from v1 x1 → wrote mem sb v1 x1 (off + m) k (from + m) v2 x2 → wrote mem sb v x off (m + k) from v2 x2.
Proof.
  intros Ho Hm Hk Hmax [W1 A1 E1 I1 O1] [W2 A2 E2 I2 O2]. split; [done|done|by eapply extends_trans|..].
  - intros i Hi. destruct (decide (i < off + m)) as [Hlt|Hge].
    + destruct (I1 i) as [Hb Hy]; [lia|]. assert (Hib : 0 ≤ i / BSIZE < MAXFILE) by (apply (byte_block off (m + k)); lia). rewrite (ex_baddr _ _ _ _ _ E2 _ Hib Hb). split; [done|].
      rewrite O2; [done|lia|lia|done|lia].
    + destruct (I2 i) as [Hb Hy]; [lia|]. split; [done|]. rewrite Hy. f_equal. lia.
  - intros i Hi Hib Hb Hout. rewrite O2; [apply O1; [done|done|done|lia]|done|done| |lia]. rewrite (ex_baddr _ _ _ _ _ E1); [done| |done]. split; [unfold BSIZE; apply Z.div_pos; lia|done].
Qed.
Lemma wrote_nil mem sb v x off from v1 x1 : file_wf sb v x → file_wf sb v1 x1 → around sb v1 (i_inum x1) → grown sb v x v1 x1 → wrote mem sb v x off 0 from v1 x1.
Proof.
  intros Hw Hw1 Ha Hg. split; [done|done|by apply grown_extends|intros i Hi; lia|]. intros i Hi Hib Hb _. apply (grown_byte sb); [done|done| |done].
  split; [unfold BSIZE; apply Z.div_pos; lia|done].
Qed.
Lemma wrote_chunk mem sb v x off m from v1 x1 d : file_wf sb v x → file_wf sb v1 x1 → around sb v1 (i_inum x1) → grown sb v x v1 x1 → 0 ≤ off → 0 < m ≤ BSIZE - off mod BSIZE →
  off / BSIZE < MAXFILE → baddr v1 x1 (off / BSIZE) ≠ 0 → d = mem <$> seqZ from m →
  wrote mem sb v x off m from (v_write (baddr v1 x1 (off / BSIZE)) (splice (v_data v1 (baddr v1 x1 (off / BSIZE))) (off mod BSIZE) d) v1) x1.
Proof.
  intros Hw Hw1 Ha Hg Ho Hm Hmax Hb ->. pose proof (Z.div_mod off BSIZE ltac:(done)) as Hdm. pose proof (Z.mod_pos_bound off BSIZE ltac:(done)) as Hmb.
  assert (Hn : 0 ≤ off / BSIZE < MAXFILE) by (split; [unfold BSIZE; apply Z.div_pos; lia|done]).
  assert (Hd : off mod BSIZE + Z.of_nat (length (mem <$> seqZ from m)) ≤ BSIZE) by (rewrite length_fmap, length_seqZ; lia). assert (H0 : 0 ≤ off mod BSIZE) by lia.
  pose proof (wb_byte sb v1 x1 (off / BSIZE) (off mod BSIZE) (mem <$> seqZ from m) Hw1 Hn Hb H0 Hd) as Hbyte. rewrite length_fmap, length_seqZ in Hbyte.
  split.
  - by apply wb_wf.
  - by apply wb_around.
  - eapply extends_trans; [by apply grown_extends|by apply wb_extends].
  - intros i Hi. assert (Hib : i / BSIZE = off / BSIZE) by (unfold BSIZE in *; symmetry; apply (Z.div_unique _ _ _ (off mod 1024 + (i - off))); lia).
    rewrite (wb_baddr sb v1 x1 _ _ _ Hw1 Hn Hb). rewrite Hbyte by (rewrite ?Hib; done || lia). rewrite Hib. split; [done|]. rewrite decide_True by lia.
    rewrite list_lookup_fmap, lookup_seqZ_lt by lia. cbn. f_equal. lia.
  - intros i Hi Hib Hbi Hout. assert (Hi0 : 0 ≤ i / BSIZE) by (unfold BSIZE; apply Z.div_pos; lia).
    rewrite Hbyte; [|done|done|rewrite (gr_baddr _ _ _ _ _ Hg); done]. rewrite decide_False by lia. apply (grown_byte sb); [done|done|done|done].
Qed.

(** The source of a write is the memory [mem]: a copy that succeeds brings the
    bytes asked for, and one that fails has brought nothing.  (A failing [copyin]
    brings nothing when the page of the first byte is the one that is missing;
    [partial_copy] in FsFile.v is about the other case.) *)
Definition source_ok (mem : Z → Z) (src : Z → Z → list Z * bool) : Prop :=
  ∀ a m, if (src a m).2 then (src a m).1 = mem <$> seqZ a m else (src a m).1 = [].

Section loop.
Context {B : Type} `{E : !BlockEnv B} `{!BlockLaws B}.
Abbreviation F := (fstate B).
Implicit Types (s : F) (v : bview) (x : inode).
Context (dev : Z) (ip : nat) (sb : superblock) (mem : Z → Z) (src : Z → Z → list Z * bool) (Hsrc : source_ok mem src).

(** The rest of a round, when the source gives the bytes [d], all of them. *)
Lemma write_round {A} a d o s v x : be_rep dev (f_b s) v → f_inodes s !! ip = Some x → v_held v !! a = None → v_room v → v_can_log a v → v_dirty v = ∅ →
  i_dev x = dev → d ≠ [] →
  ∃ s1, be_rep dev (f_b s1) (v_write a (splice (v_data v a) o d) v) ∧ same_but ip s s1 x ∧ ∀ k : M F A,
  (x ← geti ip; bp ← bread (i_dev x) a; copy_in bp o d ;; log_write bp ;; brelse bp ;; k) s = k s1.
Proof.
  intros Hr Hx Hn Hroom Hc Hcl Hdev Hne. destruct (be_bread_law dev a _ v Hr Hn Hroom) as (h & b1 & E1 & R1 & H1). set (s1 := with_b b1 s).
  destruct (write_held_goes dev a h (splice (v_data v a) o d) s1 (v_hold a h v)) as (b2 & E2 & R2 & H2); [done|cbn; by rewrite lookup_insert_eq|done|cbn; rewrite Hcl; apply not_elem_of_empty|].
  exists (with_b b2 s1). split; [eapply be_ext; [exact R2|done|cbn; by rewrite delete_insert_id|done..]|]. split; [split; try done; cbn; [by rewrite list_insert_id|cbn in H2; congruence]|].
  intros k. rewrite (bind_Ok_eq _ _ _ x s) by (unfold geti; by rewrite Hx). rewrite Hdev, (bind_Ok_eq _ _ _ h s1) by (unfold bread, inb; by rewrite E1).
  assert (Ec : copy_in h o d s1 = bstore h (splice (v_data v a) o d) s1).
  { unfold copy_in. destruct d; [done|]. rewrite (bind_Ok_eq _ _ _ (v_data v a) s1); [done|].
    unfold bdata, inb. cbn. rewrite (be_data_law dev a h b1 _ R1); [done|cbn; by rewrite lookup_insert_eq]. }
  unfold mbind at 1, M_bind at 1. rewrite Ec. revert E2. unfold mbind, M_bind. destruct (bstore h _ s1) as [[[] t1]| | |]; [|done..]. destruct (log_write h t1) as [[[] t2]| | |]; [|done..]. by intros ->.
Qed.

(** There is no free block, or the source failed on the next chunk: what is left
    of the request in the block that holds byte [off + k]. *)
Definition cut_short v' (from off n k : Z) : Prop :=
  all_used sb v' ∨ (src (from + k) (Z.min (n - k) (BSIZE - (off + k) mod BSIZE))).2 = false.

Lemma writei_loop_run : ∀ fuel s v x from off n tot, be_rep dev (f_b s) v → f_inodes s !! ip = Some x → f_sb s = sb → i_dev x = dev → file_wf sb v x → around sb v (i_inum x) →
  0 ≤ off → 0 ≤ tot ≤ n → off + (n - tot) ≤ MAXFILE * BSIZE → Z.of_nat (length (v_log v)) + write_cost v x off (n - tot) ≤ MAXOPBLOCKS →
  (0 < fuel)%nat → (tot < n → (n - tot + off mod BSIZE + BSIZE - 1) / BSIZE + 1 ≤ Z.of_nat fuel) →
  ∃ k v' x', run dev ip (writei_loop src fuel ip from off n tot) s (tot + k, off + k) v' x' ∧ 0 ≤ k ≤ n - tot ∧ wrote mem sb v x off k from v' x' ∧
    Z.of_nat (length (v_log v')) ≤ Z.of_nat (length (v_log v)) + write_cost v x off (n - tot) ∧ (k < n - tot → cut_short v' from off (n - tot) k).
Proof.
  induction fuel as [|fuel IH]; intros s v x from off n tot Hr Hx Hsb Hdev Hw Ha Ho Ht Hmax Hroom Hf0 Hfu; [lia|]. cbn [writei_loop]. cbv zeta. case_bool_decide as Hlt.
  2: { exists 0, v, x. rewrite !Z.add_0_r. split; [by apply run_ret|]. split; [lia|]. split; [by apply wrote_nil; [|done| |apply grown_refl]|]. split; [|lia].
       pose proof (write_cost_nonneg v x off (n - tot) Ho). lia. }
  set (m := Z.min (n - tot) (BSIZE - off mod BSIZE)). assert (Hr0 : 0 < n - tot) by lia. pose proof (chunk_block off (n - tot) Ho Hr0 Hmax) as Hblk.
  assert (Hbc : bmap_cost v x (off / BSIZE) ≤ write_cost v x off (n - tot)) by by apply chunk_bmap_cost. destruct (bmap_run dev ip (off / BSIZE) s v x sb) as (v1 & x1 & Hrun & Hb & Hfull & Hind); [done..|lia|].
  pose proof (bm_grown _ _ _ _ _ _ Hb) as Hg. destruct (run_lookup _ _ _ _ _ _ _ _ Hx Hrun) as (s1 & E1 & R1 & S1 & Hx1).
  destruct (decide (baddr v1 x1 (off / BSIZE) = 0)) as [H0|H0].
  { exists 0, v1, x1. rewrite !Z.add_0_r. split; [|split; [lia|split; [apply wrote_nil; [done|apply Hb|apply Hb|done]|split]]].
    - apply (run_step _ _ _ _ _ _ s1 x1 _ _ _ E1 S1). rewrite bool_decide_true by done. by apply run_ret.
    - pose proof (bm_log _ _ _ _ _ _ Hb). lia.
    - intros _. left. by apply Hfull. }
  pose proof (fw_block _ _ _ (bm_wf _ _ _ _ _ _ Hb) _ (block_of_baddr v1 x1 _ Hblk H0)) as [Hdb _]. pose proof (bo_clean _ _ (ar_bitmap _ _ _ (bm_around _ _ _ _ _ _ Hb))) as Hcl.
  assert (Hlog1 : Z.of_nat (length (v_log v1)) ≤ MAXOPBLOCKS) by (pose proof (bm_log _ _ _ _ _ _ Hb); lia).
  assert (Hvr : v_room v1) by (apply (spare_room 0); [lia|eapply around_spare; [apply Hb|lia]]). destruct (grown_inum _ _ _ _ _ Hg) as (_ & _ & Hdev1). rewrite Hdev in Hdev1.
  pose proof (Z.mod_pos_bound off BSIZE ltac:(done)) as Hmb. destruct (src from m) as [d [|]] eqn:Hsm.
  2: { pose proof (Hsrc from m) as Hd. rewrite Hsm in Hd. simpl in Hd. subst d.
        exists 0, v1, x1. rewrite !Z.add_0_r. split; [|split; [lia|split; [apply wrote_nil; [done|apply Hb|apply Hb|done]|split]]].
       - apply (run_step _ _ _ _ _ _ s1 x1 _ _ _ E1 S1). rewrite bool_decide_false by done. apply (run_geti _ _ _ _ x1); [done|]. rewrite Hdev1.
         apply (run_bread _ _ _ _ _ v1 x1); [done|done|apply Hdb|done|]. intros h s2 R2 S2.
         match goal with |- run _ _ _ ?s ?r ?v ?x => change (run dev ip (brelse h ;; mret (tot, off)) s r v x) end.
         pose proof (same_but_lookup _ _ _ _ _ Hx1 S2) as Hx2. eapply run_bind; [eapply (goes_run _ _ _ _ _ _ _ x1 Hx2); apply (brelse_goes dev (baddr v1 x1 (off / BSIZE))); [exact R2|cbn; by rewrite lookup_insert_eq|cbn; rewrite Hcl; apply not_elem_of_empty]|].
         intros s3 R3 S3. apply (run_ext _ _ _ _ _ _ v1 x1 (run_ret dev ip s3 _ x1 _ (same_but_lookup _ _ _ _ _ Hx2 S3) R3)); try done. cbn. rewrite delete_insert_id; [done|apply Hdb].
       - pose proof (bm_log _ _ _ _ _ _ Hb). lia.
       - intros _. right. rewrite !Z.add_0_r, Z.sub_0_r. fold m. by rewrite Hsm. }
  pose proof (Hsrc from m) as Hd. rewrite Hsm in Hd. simpl in Hd. set (a := baddr v1 x1 (off / BSIZE)) in *. set (v2 := v_write a (splice (v_data v1 a) (off mod BSIZE) d) v1).
  assert (W1 : wrote mem sb v x off m from v2 x1) by (apply wrote_chunk; try done; [apply Hb|apply Hb|lia|lia]).
  assert (Hsame : ∀ j, baddr v2 x1 j = baddr v1 x1 j).
  { apply (wb_baddr sb v1 x1 (off / BSIZE) (off mod BSIZE) d (bm_wf _ _ _ _ _ _ Hb) Hblk H0). }
  assert (Hind' : NDIRECT ≤ off / BSIZE → baddr v x (off / BSIZE) = 0 → ind_cost v1 x1 = 0) by (intros; by apply Hind).
  pose proof (chunk_cost sb v x v1 x1 off (n - tot) m (splice (v_data v1 a) (off mod BSIZE) d) Hb H0 Hind' Ho Hr0 eq_refl Hmax Hsame) as Hcost. fold a v2 in Hcost.
  assert (Hu : u32 (off + m) = off + m) by (apply u32_small; unfold MAXFILE, NDIRECT, NINDIRECT, BSIZE in *; change (1024 / 4) with 256 in *; lia).
  destruct (write_round (A := Z * Z) a d (off mod BSIZE) s1 v1 x1) as (s2 & R2 & S2 & Hround); [done|done|apply Hdb|done| |done|done|..].
  2: { rewrite Hd. intros Hnil. apply (f_equal length) in Hnil. rewrite length_fmap, length_seqZ in Hnil. simpl in Hnil. lia. }
  { split; [apply Hdb|]. apply (chunk_room sb v x v1 x1 off (n - tot) m [] Hb H0 Hind' Ho Hr0 eq_refl Hmax Hroom). }
  fold v2 in R2. pose proof (same_but_lookup _ _ _ _ _ Hx1 S2) as Hx2.
  destruct (IH s2 v2 x1 (from + m) (off + m) n (tot + m)) as (k & v' & x' & (s3 & E3 & R3 & S3) & Hk & Hwr & Hl & Hcs); try done; try lia.
  - by rewrite (sm_sb _ _ _ _ S2), (sm_sb _ _ _ _ S1).
  - apply W1.
  - apply W1.
  - replace (n - (tot + m)) with (n - tot - m) by lia. lia.
  - specialize (Hfu Hlt). unfold BSIZE in *. assert (1 ≤ (n - tot + off mod 1024 + 1024 - 1) / 1024) by (apply Z.div_le_lower_bound; lia). lia.
  - intros Hlt2. specialize (Hfu Hlt). destruct (next_chunk off (n - tot) m Ho eq_refl Hr0 ltac:(lia)) as (_ & E2 & _). rewrite E2. unfold BSIZE in *.
    replace (n - tot + off mod 1024 + 1024 - 1) with (n - (tot + m) + 0 + 1024 - 1 + 1 * 1024) in Hfu by lia. rewrite Z.div_add in Hfu by lia. lia.
  - exists (m + k), v', x'. replace (n - (tot + m)) with (n - tot - m) in * by lia. split; [|split; [lia|split; [apply (wrote_trans mem sb v x off m from v2 x1 k); [done|lia|lia|lia|done|done]|split; [lia|]]]].
    + apply (run_step _ _ _ _ _ _ s1 x1 _ _ _ E1 S1). rewrite bool_decide_false by done. exists s3. split; [|split; [done|by eapply same_but_trans]].
      rewrite Hround, Hu, E3. do 3 f_equal; lia.
    + intros Hlt2. destruct Hcs as [Hall|Hsj]; [lia|by left|]. right. replace (from + (m + k)) with (from + m + k) by lia.
      replace (n - tot - (m + k)) with (n - tot - m - k) by lia. by replace (off + (m + k)) with (off + m + k) by lia.
Qed.
End loop.
