(* ===== verification/FsFile.v ===== *)
(** * A file is what was written to it

    [iupdate], [writei] as a whole, and that [readi] reads what [writei] wrote. *)
From S2P Require Import Prelude Spinlock Sleeplock BufCache Bio BioSpec Log LogRun LogClaims LogCap LogWrite Crash BlockIO Fs FsBlocks FsAlloc Inode FsRead FsGrow FsBmap FsWrite.

(** ** Inodes on disk *)

Record dinode_ok (d : dinode) : Prop := {
  do_type : - 2 ^ 15 ≤ d_type d < 2 ^ 15; do_major : - 2 ^ 15 ≤ d_major d < 2 ^ 15; do_minor : - 2 ^ 15 ≤ d_minor d < 2 ^ 15; do_nlink : - 2 ^ 15 ≤ d_nlink d < 2 ^ 15;
  do_size : 0 ≤ d_size d < 2 ^ 32; do_len : length (d_addrs d) = 13%nat; do_addrs a : a ∈ d_addrs d → 0 ≤ a < 2 ^ 32 }.

Lemma length_dinode_bytes d : length (d_addrs d) = 13%nat → length (dinode_bytes d) = 64%nat.
Proof.
  intros H. destruct d as [t mj mn nl sz ad]. cbn in H. do 14 (destruct ad as [|? ad]; try discriminate H). reflexivity.
Qed.
Lemma drop_splice l o d k : 0 ≤ o → o + Z.of_nat (length d) ≤ Z.of_nat (length l) → 0 ≤ k → k ≤ Z.of_nat (length d) →
  drop (Z.to_nat (o + k)) (splice l o d) = drop (Z.to_nat k) d ++ drop (Z.to_nat o + length d) l.
Proof.
  intros H1 H2 H3 H4. unfold splice. rewrite drop_app_ge by (rewrite length_take; lia). rewrite length_take, drop_app_le by lia. do 2 f_equal. lia.
Qed.
Lemma i16_le z : - 2 ^ 15 ≤ z < 2 ^ 15 → i16 (le_value (le_bytes 2 z)) = z.
Proof.
  intros Hz. assert (Hv : le_value (le_bytes 2 z) = z mod 2 ^ 16).
  { cbn. rewrite Z.mul_0_r, Z.add_0_r. change (2 ^ 16) with (256 * 256). rewrite Z.rem_mul_r by lia. lia. }
  rewrite Hv. unfold i16. destruct (decide (0 ≤ z)).
  - rewrite (Z.mod_small z) by lia. rewrite Z.mod_small by lia. lia.
  - rewrite <-(Z.mod_add z 1) by lia. rewrite (Z.mod_small (z + 1 * 2 ^ 16)) by lia. rewrite <-(Z.mod_add _ (-1)) by lia. rewrite Z.mod_small by lia. lia.
Qed.
Lemma addr_bytes_drop ad : ∀ i, drop (4 * i) (ad ≫= le_bytes 4) = drop i ad ≫= le_bytes 4.
Proof.
  induction ad as [|a ad IH]; intros [|i]; try done. replace (4 * Datatypes.S i)%nat with (4 + 4 * i)%nat by lia. cbn [drop]. rewrite <-IH. done.
Qed.
Lemma le4 a : 0 ≤ a < 2 ^ 32 → le_value (le_bytes 4 a) = a.
Proof. intros H. apply le_value_bytes. exact H. Qed.
Lemma get_put_dinode l o d : dinode_ok d → 0 ≤ o → o + 64 ≤ Z.of_nat (length l) → get_dinode (put_dinode l o d) o = d.
Proof.
  intros [H1 H2 H3 H4 H5 H6 H7] Ho Hl. pose proof (length_dinode_bytes d H6) as Hlen.
  assert (Hd : ∀ k n, 0 ≤ k → k + Z.of_nat n ≤ 64 → take n (drop (Z.to_nat (o + k)) (put_dinode l o d)) = take n (drop (Z.to_nat k) (dinode_bytes d))).
  { intros k n Hk1 Hk2. unfold put_dinode. rewrite drop_splice by (rewrite ?Hlen; lia). apply take_app_le. rewrite length_drop, Hlen. lia. }
  assert (Haddr : ∀ i a, d_addrs d !! i = Some a → get32 (put_dinode l o d) (o + 12 + 4 * Z.of_nat i) = a).
  { intros i a Hi. assert (Hlt : (i < 13)%nat) by (apply lookup_lt_Some in Hi; lia). unfold get32. rewrite <-Z.add_assoc, Hd by lia. unfold dinode_bytes.
    replace (Z.to_nat (12 + 4 * Z.of_nat i)) with (12 + 4 * i)%nat by lia. cbn [le_bytes app drop]. change ((12 + 4 * i)%nat) with (Datatypes.S (Datatypes.S (Datatypes.S (Datatypes.S (Datatypes.S (Datatypes.S (Datatypes.S (Datatypes.S (Datatypes.S (Datatypes.S (Datatypes.S (Datatypes.S (4 * i)))))))))))))%nat.
    cbn [drop]. rewrite addr_bytes_drop, (drop_S _ _ _ Hi). cbn [mbind list_bind]. rewrite take_app_le by (rewrite length_le_bytes; lia). rewrite take_ge by (rewrite length_le_bytes; lia).
    apply le4, H7. by eapply list_elem_of_lookup_2. }
  assert (Hall : ((λ i, get32 (put_dinode l o d) (o + 12 + 4 * i)) <$> seqZ 0 (NDIRECT + 1)) = d_addrs d).
  { apply list_eq. intros i. rewrite list_lookup_fmap. destruct (d_addrs d !! i) as [a|] eqn:Hi.
    - rewrite lookup_seqZ_lt by (apply lookup_lt_Some in Hi; unfold NDIRECT; lia). cbn. f_equal. rewrite <-(Haddr i a Hi). done.
    - rewrite lookup_seqZ_ge; [done|]. apply lookup_ge_None in Hi. unfold NDIRECT. lia. }
  unfold get_dinode. rewrite Hall. unfold get16, get32. rewrite <-(Z.add_0_r o) at 1. rewrite !Hd by lia. clear Hd Haddr Hall Hlen.
  destruct d as [t mj mn nl sz ad]. cbn in H1, H2, H3, H4, H5, H6, H7 |- *.
  pose proof (i16_le t H1) as E1. pose proof (i16_le mj H2) as E2. pose proof (i16_le mn H3) as E3. pose proof (i16_le nl H4) as E4. pose proof (le4 sz H5) as E5. cbn in E1, E2, E3, E4, E5.
  change (Z.to_nat 0) with 0%nat. change (Z.to_nat 2) with 2%nat. change (Z.to_nat 4) with 4%nat. change (Z.to_nat 6) with 6%nat. change (Z.to_nat 8) with 8%nat. cbn [take drop le_value]. rewrite E1, E2, E3, E4. f_equal. exact E5.
Qed.

(** ** The block of the inode *)
Section inode_block.
Context (sb : superblock) (v : bview) (x : inode) (l : list Z) (Hw : file_wf sb v x) (Har : around sb v (i_inum x)) (Hl : length l = Z.to_nat BSIZE).
Let ib := IBLOCK (i_inum x) sb.
Let v' := v_write ib l v.

Lemma ib_other b : block_of v x b → v_data v' b = v_data v b.
Proof. intros Hb. apply write_other. by apply (fw_block _ _ _ Hw). Qed.
Lemma ib_baddr n : baddr v' x n = baddr v x n.
Proof.
  unfold baddr. case_decide; [done|]. fold (iaddr x). case_decide as H0; [done|]. rewrite ib_other; [done|]. by apply block_of_iaddr.
Qed.
Lemma ib_block b : block_of v' x b ↔ block_of v x b.
Proof. unfold block_of. by setoid_rewrite ib_baddr. Qed.
Lemma ib_wf : file_wf sb v' x.
Proof.
  split; [apply Hw|apply Hw|..].
  - intros b Hb%ib_block. destruct (fw_block _ _ _ Hw b Hb) as [H1 H2]. split; [|done]. apply write_data_block; [apply (ar_ibitmap _ _ _ Har)|done|by intros].
  - intros n m. rewrite !ib_baddr. apply (fw_inj _ _ _ Hw).
  - intros n. rewrite ib_baddr. apply (fw_ind _ _ _ Hw).
  - intros n. rewrite ib_baddr. apply (fw_mapped _ _ _ Hw).
Qed.
Lemma ib_around : around sb v' (i_inum x).
Proof. apply write_around; [apply (ar_ibitmap _ _ _ Har)|done|by intros]. Qed.
Lemma ib_byte i : 0 ≤ i / BSIZE < MAXFILE → baddr v x (i / BSIZE) ≠ 0 → file_byte v' x i = file_byte v x i.
Proof. intros Hi H0. unfold file_byte. rewrite ib_baddr, ib_other; [done|]. by apply block_of_baddr. Qed.
End inode_block.

(** The size changes and every byte below it is there. *)
Lemma size_wf sb v x n : file_wf sb v x → 0 ≤ n ≤ MAXFILE * BSIZE → (∀ m, 0 ≤ m → m * BSIZE < n → baddr v x m ≠ 0) → file_wf sb v (i_with_size n x).
Proof. intros [H1 H2 H3 H4 H5 H6] Hn Hm. by split. Qed.

(** What [writei] leaves when it wrote [k] bytes of [mem] from address [from]. *)
Record written (mem : Z → Z) (sb : superblock) (v : bview) (x : inode) (off k from : Z) (v' : bview) (x' : inode) : Prop := {
  wt_wf : file_wf sb v' x';
  wt_around : around sb v' (i_inum x');
  wt_inode : x' = i_with_size (Z.max (i_size x) (off + k)) (i_with_addrs (i_addrs x') x);
  wt_disk : v_data v' (IBLOCK (i_inum x) sb) = put_dinode (v_data v (IBLOCK (i_inum x) sb)) (i_inum x mod IPB * sizeof_dinode) (i_dinode x');
  wt_byte i : 0 ≤ i < i_size x' → file_byte v' x' i = if decide (off ≤ i < off + k) then mem (from + (i - off)) else file_byte v x i;
  wt_other b : kept sb v b → ¬ block_of v x b → b ≠ IBLOCK (i_inum x) sb → v_data v' b = v_data v b;
  wt_used b : 0 ≤ b < sb_size sb → used sb v' b = true ↔ used sb v b = true ∨ block_of v' x' b;
  wt_held : v_held v' = v_held v;
  wt_home : v_home v' = v_home v }.

Lemma around_kept sb v inum : around sb v inum → kept sb v (IBLOCK inum sb).
Proof. intros H. split; [apply (ar_ibitmap _ _ _ H)|apply (ar_iused _ _ _ H)]. Qed.
Lemma length_put_dinode sb v x : file_wf sb v x → around sb v (i_inum x) →
  length (put_dinode (v_data v (IBLOCK (i_inum x) sb)) (i_inum x mod IPB * sizeof_dinode) (i_dinode x)) = Z.to_nat BSIZE.
Proof.
  intros Hw Ha. assert (Hi : 0 ≤ i_inum x mod IPB < IPB) by (apply Z.mod_pos_bound; done). unfold put_dinode. change IPB with 16 in *.
  rewrite length_splice; [apply Ha|unfold sizeof_dinode; lia|]. rewrite length_dinode_bytes by apply Hw. rewrite (ar_ilen _ _ _ Ha). unfold sizeof_dinode, BSIZE. lia.
Qed.

Lemma wrote_written mem sb v x off k from v1 x1 : file_wf sb v x → around sb v (i_inum x) → 0 ≤ off ≤ i_size x → 0 ≤ k → off + k ≤ MAXFILE * BSIZE → wrote mem sb v x off k from v1 x1 →
  let x2 := i_with_size (Z.max (i_size x) (off + k)) x1 in
  file_wf sb v1 x2 ∧ written mem sb v x off k from (v_write (IBLOCK (i_inum x) sb) (put_dinode (v_data v1 (IBLOCK (i_inum x) sb)) (i_inum x mod IPB * sizeof_dinode) (i_dinode x2)) v1) x2.
Proof.
  intros Hw Ha Ho Hk Hmax [W1 A1 E1 I1 O1] x2. pose proof (ex_other _ _ _ _ _ E1) as Hx1. assert (Hin : i_inum x1 = i_inum x) by (by rewrite Hx1).
  assert (Hib : v_data v1 (IBLOCK (i_inum x) sb) = v_data v (IBLOCK (i_inum x) sb)).
  { apply (ex_data _ _ _ _ _ E1); [by apply around_kept|]. intros Hb. by apply (fw_block _ _ _ Hw) in Hb as [_ ?]. }
  assert (W2 : file_wf sb v1 x2).
  { apply size_wf; [done|pose proof (fw_size _ _ _ Hw); lia|]. intros m Hm Hlt. destruct (decide (m * BSIZE < i_size x)) as [Hlt2|Hge].
    - assert (Hmm : 0 ≤ m < MAXFILE) by (pose proof (fw_size _ _ _ Hw); unfold BSIZE in *; lia). pose proof (fw_mapped _ _ _ Hw m Hm Hlt2) as H0. by rewrite (ex_baddr _ _ _ _ _ E1 m Hmm H0).
    - destruct (I1 (m * BSIZE)) as [H0 _]; [lia|]. by rewrite Z.div_mul in H0 by done. }
  split; [done|]. set (l := put_dinode _ _ _).
  assert (A2 : around sb v1 (i_inum x2)) by exact A1. assert (Hl : length l = Z.to_nat BSIZE) by (unfold l; rewrite <-Hin; apply (length_put_dinode sb v1 x2 W2 A2)).
  assert (Hin2 : i_inum x2 = i_inum x) by exact Hin. pose proof (ib_wf sb v1 x2 l W2 A2 Hl) as W3. pose proof (ib_around sb v1 x2 l A2 Hl) as A3.
  pose proof (ib_byte sb v1 x2 l W2) as Hbyte. pose proof (ib_block sb v1 x2 l W2) as Hblock. rewrite Hin2 in W3, A3, Hbyte, Hblock. split.
  - done.
  - by rewrite Hin2.
  - unfold x2 at 1. rewrite Hx1. done.
  - rewrite write_at. unfold l. by rewrite Hib.
  - intros i Hi. change (i_size x2) with (Z.max (i_size x) (off + k)) in Hi. assert (Hi1 : 0 ≤ i / BSIZE < MAXFILE) by (pose proof (fw_size _ _ _ Hw); apply (byte_block 0 (MAXFILE * BSIZE)); lia).
    assert (Hb0 : off ≤ i < off + k ∨ baddr v x (i / BSIZE) ≠ 0).
    { destruct (decide (off ≤ i < off + k)); [by left|right]. apply (fw_mapped _ _ _ Hw); [lia|]. unfold BSIZE. pose proof (Z.div_mod i 1024). pose proof (Z.mod_pos_bound i 1024). lia. }
    assert (Hb1 : baddr v1 x1 (i / BSIZE) ≠ 0) by (destruct Hb0 as [Hr|H0]; [by apply I1|by rewrite (ex_baddr _ _ _ _ _ E1)]).
    rewrite Hbyte by done. change (file_byte v1 x2 i) with (file_byte v1 x1 i). case_decide as Hr; [by apply I1|]. apply O1; [lia|lia| |done]. by destruct Hb0.
  - intros b Hk1 Hb Hne. rewrite write_other by done. by apply (ex_data _ _ _ _ _ E1).
  - intros b Hb. rewrite write_used; [|apply (ar_ibitmap _ _ _ Ha)|done]. rewrite Hblock. change (block_of v1 x2 b) with (block_of v1 x1 b). apply (ex_used _ _ _ _ _ E1 b Hb).
  - apply (ex_held _ _ _ _ _ E1).
  - apply (ex_home _ _ _ _ _ E1).
Qed.

(** ** [writei] *)

(** A chunk of [filewrite] fits in a transaction. *)
Lemma chunk_fits sb v x off n : file_wf sb v x → 0 ≤ off ≤ i_size x → 0 ≤ n ≤ 3 * BSIZE → off + n ≤ MAXFILE * BSIZE → write_cost v x off n + 1 ≤ MAXOPBLOCKS.
Proof.
  intros Hw Ho Hn Hmax. unfold MAXOPBLOCKS. destruct (decide (0 < n)) as [Hr|Hr]; [|unfold write_cost; rewrite decide_False by lia; lia].
  destruct (write_cost_first v x off n) as [-> Hle]; [lia|done|]. pose proof (ind_cost_range v x) as Hic.
  pose proof (blks_cost_max v x (off / BSIZE + 1) (last_block off n - off / BSIZE) ltac:(lia)) as Hbc.
  pose proof (Z.div_mod off BSIZE ltac:(done)) as Hdm. pose proof (Z.mod_pos_bound off BSIZE ltac:(done)) as Hmb.
  assert (Hlast : last_block off n * BSIZE ≤ off + n - 1) by (unfold last_block, BSIZE; pose proof (Z.div_mod (off + n - 1) 1024); pose proof (Z.mod_pos_bound (off + n - 1) 1024); lia).
  unfold blk_cost. destruct (decide (off mod BSIZE = 0)) as [H0|H0].
  - assert (last_block off n - off / BSIZE ≤ 2) by (unfold BSIZE in *; lia). destruct (decide (baddr v x (off / BSIZE) = 0)), (decide (last_block off n < NDIRECT)); lia.
  - assert (Hm : baddr v x (off / BSIZE) ≠ 0) by (apply (fw_mapped _ _ _ Hw); unfold BSIZE in *; [apply Z.div_pos; lia|lia]). rewrite decide_False by done.
    assert (last_block off n - off / BSIZE ≤ 3) by (unfold BSIZE in *; lia). destruct (decide (last_block off n < NDIRECT)); lia.
Qed.

Section writei.
Context {B : Type} `{E : !BlockEnv B} `{!BlockLaws B}.
Abbreviation F := (fstate B).
Implicit Types (s : F) (v : bview) (x : inode).
Context (dev : Z) (ip : nat) (sb : superblock) (mem : Z → Z) (src : Z → Z → list Z * bool) (Hsrc : source_ok mem src).

Lemma iupdate_run s v x : be_rep dev (f_b s) v → f_inodes s !! ip = Some x → f_sb s = sb → i_dev x = dev → file_wf sb v x → around sb v (i_inum x) →
  Z.of_nat (length (v_log v)) + 1 ≤ MAXOPBLOCKS →
  run dev ip (iupdate ip) s tt (v_write (IBLOCK (i_inum x) sb) (put_dinode (v_data v (IBLOCK (i_inum x) sb)) (i_inum x mod IPB * sizeof_dinode) (i_dinode x)) v) x.
Proof.
  intros Hr Hx Hsb Hdev Hw Ha Hl. unfold iupdate. apply (run_geti _ _ _ _ x); [done|]. apply (goes_run _ _ _ _ v); [done|]. apply gets_goes. rewrite Hsb, Hdev.
  pose proof (bo_clean _ _ (ar_bitmap _ _ _ Ha)) as Hcl. assert (Hsp : v_spare 1 v) by (by eapply around_spare).
  apply bread_goes; [done|apply (ar_iheld _ _ _ Ha)|by apply (spare_room 1)|]. intros h b1 R1 H1. apply (bdata_goes dev (IBLOCK (i_inum x) sb)); [done|cbn; by rewrite lookup_insert_eq|]. cbn [v_data v_hold].
  destruct (write_held_goes dev (IBLOCK (i_inum x) sb) h (put_dinode (v_data v (IBLOCK (i_inum x) sb)) (i_inum x mod IPB * sizeof_dinode) (i_dinode x)) (with_b b1 s) (v_hold (IBLOCK (i_inum x) sb) h v)) as (b2 & E2 & R2 & H2).
  { done. } { cbn. by rewrite lookup_insert_eq. } { apply (spare_can_log 1 _ v); [lia|done|apply (ar_ihome _ _ _ Ha)]. } { cbn. rewrite Hcl. apply not_elem_of_empty. }
  exists b2. split; [exact E2|]. split; [|done]. eapply be_ext; [exact R2|done|cbn; rewrite delete_insert_id; [done|apply (ar_iheld _ _ _ Ha)]|done..].
Qed.
Lemma run_upd_size n s v x : be_rep dev (f_b s) v → f_inodes s !! ip = Some x →
  run dev ip (if bool_decide (n > i_size x) then upd_i ip (i_with_size n) else mret tt) s tt v (i_with_size (Z.max (i_size x) n) x).
Proof.
  intros Hr Hx. case_bool_decide as Hn.
  - rewrite Z.max_r by lia. exists (with_inodes (<[ip := i_with_size n x]> (f_inodes s)) s). split; [unfold upd_i; by rewrite Hx|]. split; [done|]. by split.
  - rewrite Z.max_l by lia. replace (i_with_size (i_size x) x) with x by (by destruct x). by apply run_ret.
Qed.

Lemma writei_refuses s x from off n : f_inodes s !! ip = Some x → 0 ≤ off < 2 ^ 32 → 0 ≤ n < 2 ^ 32 → 0 ≤ i_size x ≤ MAXFILE * BSIZE →
  off > i_size x ∨ off + n > MAXFILE * BSIZE → writei src ip from off n s = Ok (-1, s).
Proof.
  intros Hx Ho Hn Hsz Hor. unfold writei. rewrite (bind_Ok_eq _ _ _ x s) by (unfold geti; by rewrite Hx).
  assert (Hmax : MAXFILE * BSIZE < 2 ^ 31) by done. case_bool_decide as H1; [done|]. cbn [orb]. case_bool_decide as H2; [done|]. rewrite bool_decide_true; [done|].
  unfold u32 in *. destruct (decide (off + n < 2 ^ 32)); [rewrite Z.mod_small in * by lia; lia|].
  exfalso. apply H2. rewrite <-(Z.mod_add _ (-1)) by lia. rewrite Z.mod_small by lia. lia.
Qed.

Lemma writei_run s v x from off n : be_rep dev (f_b s) v → f_inodes s !! ip = Some x → f_sb s = sb → i_dev x = dev → file_wf sb v x → around sb v (i_inum x) →
  0 ≤ off ≤ i_size x → 0 ≤ n → off + n ≤ MAXFILE * BSIZE → Z.of_nat (length (v_log v)) + write_cost v x off n + 1 ≤ MAXOPBLOCKS →
  ∃ k v' x', run dev ip (writei src ip from off n) s k v' x' ∧ 0 ≤ k ≤ n ∧ written mem sb v x off k from v' x' ∧
    Z.of_nat (length (v_log v')) ≤ MAXOPBLOCKS ∧ (k < n → cut_short sb src v' from off n k).
Proof.
  intros Hr Hx Hsb Hdev Hw Ha Ho Hn Hmax Hroom. assert (Hbig : MAXFILE * BSIZE < 2 ^ 31) by done.
  destruct (writei_loop_run dev ip sb mem src Hsrc (Z.to_nat (n / BSIZE) + 3) s v x from off n 0) as (k & v1 & x1 & Hloop & Hk & Hwr & Hl & Hcs); try done; try lia.
  { rewrite Z.sub_0_r. lia. }
  { intros Hlt. unfold BSIZE. assert (Hq : 0 ≤ n / 1024) by (apply Z.div_pos; lia). pose proof (Z.mod_pos_bound off 1024 ltac:(lia)).
    pose proof (Z.div_mod n 1024 ltac:(lia)). pose proof (Z.mod_pos_bound n 1024 ltac:(lia)).
    assert ((n - 0 + off mod 1024 + 1024 - 1) / 1024 < n / 1024 + 3) by (apply Z.div_lt_upper_bound; lia). lia. }
  rewrite Z.sub_0_r in *. destruct (run_lookup _ _ _ _ _ _ _ _ Hx Hloop) as (s1 & E1 & R1 & S1 & Hx1).
  destruct (wrote_written mem sb v x off k from v1 x1 Hw Ha Ho ltac:(lia) ltac:(lia) Hwr) as [W2 Hwt]. pose proof (ex_other _ _ _ _ _ (wr_ext _ _ _ _ _ _ _ _ _ Hwr)) as Ex1.
  set (x2 := i_with_size (Z.max (i_size x) (off + k)) x1) in *. set (v2 := v_write _ _ v1) in Hwt.
  assert (Hsz : i_size x1 = i_size x) by (by rewrite Ex1). assert (Hinum : i_inum x1 = i_inum x) by (by rewrite Ex1). assert (Hd1 : i_dev x1 = dev) by (by rewrite Ex1).
  pose proof (run_upd_size (off + k) s1 v1 x1 R1 Hx1) as Hupd. replace (Z.max (i_size x1) (off + k)) with (Z.max (i_size x) (off + k)) in Hupd by (by rewrite Hsz). fold x2 in Hupd.
  destruct (run_lookup _ _ _ _ _ _ _ _ Hx1 Hupd) as (s2 & E2 & R2 & S2 & Hx2).
  assert (Hiu : run dev ip (iupdate ip) s2 tt v2 x2).
  { unfold v2. rewrite <-Hinum. apply (iupdate_run s2 v1 x2); try done; [by rewrite (sm_sb _ _ _ _ S2), (sm_sb _ _ _ _ S1)|apply Hwr|lia]. }
  exists k, v2, x2. split; [|split; [done|split; [done|split]]].
  - unfold writei. apply (run_geti _ _ _ _ x); [done|]. rewrite u32_small by lia. rewrite !bool_decide_false by lia. cbn [orb].
    apply (run_step _ _ _ _ _ _ s1 x1 _ _ _ E1 S1). rewrite Z.add_0_l. apply (run_geti _ _ _ _ x1); [done|]. apply (run_step _ _ _ _ _ _ s2 x2 _ _ _ E2 S2).
    eapply run_bind; [exact Hiu|]. intros s3 R3 S3. rewrite i32_small by lia. apply run_ret; [by eapply same_but_lookup|done].
  - unfold v2. cbn. pose proof (length_add_block (IBLOCK (i_inum x) sb) (v_log v1)). lia.
  - intros Hlt. destruct (Hcs Hlt) as [Hall|Hf]; [left|by right]. intros y Hy. unfold v2. rewrite write_used; [by apply Hall|apply (ar_ibitmap _ _ _ Ha)|done].
Qed.
End writei.

Section claim.
Context {B : Type} `{E : !BlockEnv B} `{!BlockLaws B}.
Abbreviation F := (fstate B).
Implicit Types (s : F) (v : bview) (x : inode).

(** C32: a file holds what was written to it.  In a fresh transaction, for a locked
    inode whose blocks are its own and without holes, at most three blocks of
    bytes (what [filewrite] asks for), and a source whose failing copies move
    nothing ([source_ok]): [writei] refuses a request that starts behind the end
    or would pass the largest file size; otherwise it writes the first [k] bytes
    at [off] within ten logged blocks.  It writes all [n] unless it stops at a
    chunk (the part of the request in one block) because the copy of that chunk
    failed, or because the disk has no free block; so [k] counts whole chunks.
    Every other byte of the file, every block of others and the inodes beside it
    are as before, the size is the larger of the old one and the end of the write,
    exactly the file's new blocks are newly marked as used, the file is well formed
    again, and the inode on disk is the one in memory; [readi] then returns those
    [k] bytes.  What a copy that fails half way leaves behind is [partial_copy]. *)
Theorem write_read {A} (out : Z → list Z → A → A * bool) (put : A → Z → list Z → A) dev ip (src : Z → Z → list Z * bool) (mem : Z → Z) (from off n : Z) s v x (dst : Z) (a : A) :
  source_ok mem src →
  (∀ dst l a, out dst l a = (put a dst l, true)) → (∀ a dst l1 l2, put (put a dst l1) (dst + Z.of_nat (length l1)) l2 = put a dst (l1 ++ l2)) → (∀ a dst, put a dst [] = a) →
  be_rep dev (f_b s) v → v_log v = [] → f_inodes s !! ip = Some x → i_dev x = dev → file_wf (f_sb s) v x → around (f_sb s) v (i_inum x) →
  0 ≤ off < 2 ^ 32 → 0 ≤ n ≤ 3 * BSIZE →
  ((off > i_size x ∨ off + n > MAXFILE * BSIZE) ∧ writei src ip from off n s = Ok (-1, s)) ∨
  (off ≤ i_size x ∧ off + n ≤ MAXFILE * BSIZE ∧ ∃ k s' v' x', writei src ip from off n s = Ok (k, s') ∧ 0 ≤ k ≤ n ∧ (k < n → cut_short (f_sb s) src v' from off n k) ∧
    be_rep dev (f_b s') v' ∧ Z.of_nat (length (v_log v')) ≤ MAXOPBLOCKS ∧ same_but ip s s' x' ∧ written mem (f_sb s) v x off k from v' x' ∧
    (dinode_ok (i_dinode x') → get_dinode (v_data v' (IBLOCK (i_inum x) (f_sb s))) (i_inum x mod IPB * sizeof_dinode) = i_dinode x') ∧
    ∃ s'', readi out ip dst off k a s' = Ok ((k, put a dst (mem <$> seqZ from k)), s'')).
Proof.
  intros Hsrc Hout Happ Hnil Hr Hlog Hx Hdev Hw Ha Ho Hn. pose proof (fw_size _ _ _ Hw) as Hsz. assert (Hbig : MAXFILE * BSIZE < 2 ^ 31) by done.
  destruct (decide (off > i_size x ∨ off + n > MAXFILE * BSIZE)) as [Hbad|Hok].
  { left. split; [done|]. by apply (writei_refuses ip src s x from off n); [|lia|unfold BSIZE in *; lia| |]. }
  right. split; [lia|]. split; [lia|].
  pose proof (chunk_fits (f_sb s) v x off n Hw ltac:(lia) ltac:(lia) ltac:(lia)) as Hfit.
  destruct (writei_run dev ip (f_sb s) mem src Hsrc s v x from off n) as (k & v' & x' & (s' & E1 & R1 & S1) & Hk & Hwt & Hl & Hcs); try done; [lia|lia|lia|rewrite Hlog; cbn; lia|].
  exists k, s', v', x'. do 7 (split; [done|]). split.
  { intros Hdo. rewrite (wt_disk _ _ _ _ _ _ _ _ _ Hwt). assert (Hi : 0 ≤ i_inum x mod IPB < IPB) by (apply Z.mod_pos_bound; done). change IPB with 16 in *.
    apply get_put_dinode; [done|unfold sizeof_dinode; lia|]. rewrite (ar_ilen _ _ _ Ha). unfold sizeof_dinode, BSIZE. lia. }
  pose proof (same_but_lookup _ _ _ _ _ Hx S1) as Hx'. pose proof (wt_wf _ _ _ _ _ _ _ _ _ Hwt) as Hw'. pose proof (wt_around _ _ _ _ _ _ _ _ _ Hwt) as Ha'.
  pose proof (wt_inode _ _ _ _ _ _ _ _ _ Hwt) as Hi'. assert (Hsz' : i_size x' = Z.max (i_size x) (off + k)) by (by rewrite Hi').
  assert (Hrl : read_len (i_size x') off k = k) by (unfold read_len; rewrite decide_False by lia; lia).
  assert (Hct : content v' x' off k = mem <$> seqZ from k).
  { apply list_eq. intros j. unfold content. rewrite !lookup_seqZ_fmap. case_decide as Hj; [|done]. f_equal. rewrite (wt_byte _ _ _ _ _ _ _ _ _ Hwt) by lia.
    rewrite decide_True by lia. f_equal. lia. }
  assert (Hroom' : v_room v') by (apply (spare_room 0); [lia|eapply around_spare; [done|lia]]).
  destruct (readi_goes out put Hout Happ Hnil dev ip x' s' v' dst off k a) as (b & E2 & _); try done.
  - apply (bo_clean _ _ (ar_bitmap _ _ _ Ha')).
  - rewrite Hi'. exact Hdev.
  - by eapply wf_file_ok.
  - unfold BSIZE in *. lia.
  - exists (with_b b s'). by rewrite E2, Hrl, Hct.
Qed.
End claim.

(** ** Two thousand bytes into an empty file *)

Definition demo_file : inode := mkinode 1 2 1 (initsleeplock "inode") 1 2 0 0 1 0 (replicate 13 0).
Definition demo_file_fs : fstate (lst bst) := with_inodes (<[0%nat := demo_file]> (f_inodes demo_fs)) demo_fs.
Definition demo_src (ad m : Z) : list Z * bool := ((λ i, i mod 251) <$> seqZ ad m, true).

Lemma demo_baddr n : baddr demo_view demo_file n = 0.
Proof.
  unfold baddr. assert (Hz : ∀ m, default 0 (zidx (i_addrs demo_file) m) = 0).
  { intros m. destruct (zidx (i_addrs demo_file) m) as [a|] eqn:Ha; [|done]. apply zidx_Some in Ha as [_ Ha]. cbn [i_addrs demo_file] in Ha. by apply lookup_replicate in Ha as [-> _]. }
  rewrite !Hz. case_decide; done.
Qed.
Lemma demo_file_wf : file_wf demo_sb demo_view demo_file.
Proof.
  split; [done|done| | | |].
  - intros b [H0 [->|(n & _ & Hb)]]; [by destruct H0|]. rewrite demo_baddr in Hb. congruence.
  - intros n m _ _ H0. exfalso. apply H0, demo_baddr.
  - intros n _ H0. exfalso. apply H0, demo_baddr.
  - intros n Hn Hs. cbn [i_size demo_file] in Hs. unfold BSIZE in Hs. lia.
Qed.
Lemma demo_around : around demo_sb demo_view 2.
Proof.
  split; [apply demo_bitmap_ok|split; [done|by vm_compute]| | |done| | |].
  - change (IBLOCK 2 demo_sb) with 32. cbn. unfold home. lia.
  - reflexivity.
  - intros c Hc. rewrite demo_bblock by (cbn in Hc; lia). done.
  - intros _. by vm_compute.
  - cbn. rewrite map_size_empty. lia.
Qed.

(** All of it is written, and read back. *)
Lemma write_read_witness : ∃ k s' s'' d, writei demo_src 0 5 0 2000 demo_file_fs = Ok (k, s') ∧ 0 ≤ k ≤ 2000 ∧
  readi (λ _ l de, (de ++ l, true)) 0 0 0 k [] s' = Ok ((k, d), s'') ∧ d = (λ i, i mod 251) <$> seqZ 5 k.
Proof.
  destruct (write_read (λ _ l de, (de ++ l, true)) (λ de _ l, de ++ l) 1 0 demo_src (λ i, i mod 251) 5 0 2000 demo_file_fs demo_view demo_file 0 []) as [[[H|H] _]|(_ & _ & k & s' & v' & x' & E1 & Hk & _ & _ & _ & _ & _ & _ & s'' & E2)].
  - intros ad m. reflexivity.
  - done.
  - intros d _ l1 l2. by rewrite <-app_assoc.
  - intros d _. apply app_nil_r.
  - apply demo_fs_rep.
  - done.
  - done.
  - done.
  - apply demo_file_wf.
  - apply demo_around.
  - lia.
  - unfold BSIZE. lia.
  - cbn in H. lia.
  - unfold MAXFILE, NDIRECT, NINDIRECT, BSIZE in H. change (1024 / 4) with 256 in H. lia.
  - exists k, s', s'', ((λ i, i mod 251) <$> seqZ 5 k). split; [exact E1|]. split; [exact Hk|]. split; [exact E2|done].
Defined.
Example demo_write_all : match writei demo_src 0 5 0 2000 demo_file_fs with Ok (k, _) => k = 2000 | _ => False end.
Proof. vm_compute. reflexivity. Qed.

(** A copy that fails after three bytes: [writei] returns 0, and nobody was asked
    to write these bytes, but they are in the cached block and are read from the
    file. *)
Definition half_copy (ad m : Z) : list Z * bool := ([1; 2; 3], false).
Lemma partial_copy :
  ∃ s1 s2 s3, writei demo_src 0 5 0 2000 demo_file_fs = Ok (2000, s1) ∧ writei half_copy 0 0 0 100 s1 = Ok (0, s2) ∧
    readi (λ _ l de, (de ++ l, true)) 0 0 0 5 [] s2 = Ok ((5, [1; 2; 3; 8; 9]), s3).
Proof.
  assert (H : match writei demo_src 0 5 0 2000 demo_file_fs with
    | Ok (k, s1) => k = 2000 ∧ match writei half_copy 0 0 0 100 s1 with
      | Ok (k2, s2) => k2 = 0 ∧ match readi (λ _ l de, (de ++ l, true)) 0 0 0 5 [] s2 with
        | Ok (r, _) => r = (5, [1; 2; 3; 8; 9]) | _ => False end
      | _ => False end
    | _ => False end).
  { vm_compute. split; [reflexivity|]. split; reflexivity. }
  destruct (writei demo_src 0 5 0 2000 demo_file_fs) as [[k s1]| | |]; [|done..]. destruct H as [-> H].
  destruct (writei half_copy 0 0 0 100 s1) as [[k2 s2]| | |] eqn:E2; [|done..]. destruct H as [-> H].
  destruct (readi (λ _ l de, (de ++ l, true)) 0 0 0 5 [] s2) as [[r s3]| | |] eqn:E3; [|done..]. subst r.
  exists s1, s2, s3. done.
Qed.
