(* ===== verification/FsDir.v ===== *)
(** * Directories: lookups

    [iget] as a search of the inode table, and [dirlookup] as the search for the
    first entry of a directory's contents with a given name. *)
From S2P Require Import Prelude Spinlock Sleeplock BufCache Bio BioSpec Log LogRun LogClaims LogCap LogWrite Crash BlockIO Fs FsBlocks FsAlloc Inode FsRead Dir DirPath.

(** ** The inode table *)

Definition is_inode (dev inum : Z) (x : inode) : Prop := 0 < i_ref x ∧ i_dev x = dev ∧ i_inum x = inum.
#[global] Instance is_inode_dec dev inum x : Decision (is_inode dev inum x).
Proof. unfold is_inode. apply _. Defined.
Definition is_free (x : inode) : Prop := i_ref x = 0.
#[global] Instance is_free_dec x : Decision (is_free x).
Proof. unfold is_free. apply _. Defined.

(** The slot that [iget] takes, and the table after it. *)
Definition iget_slot (dev inum : Z) (l : list inode) : option (nat * inode) :=
  match list_find (is_inode dev inum) l with
  | Some (i, x) => Some (i, i_with_ref (i32 (i_ref x + 1)) x)
  | None => match list_find is_free l with
            | Some (i, x) => Some (i, i_with_ident dev inum 1 0 x)
            | None => None
            end
  end.

Section dir.
Context {B : Type} `{E : !BlockEnv B} `{!BlockLaws B}.
Abbreviation F := (fstate B).
Implicit Types (s : F) (v : bview).

Lemma iget_scan_ok dev inum s : ∀ k i empty, (i + k = length (f_inodes s))%nat →
  iget_scan k i dev inum empty s =
  Ok (match list_find (is_inode dev inum) (drop i (f_inodes s)) with
      | Some (j, _) => inl (i + j)%nat
      | None => inr (match empty with Some e => Some e | None => (λ p, (i + p.1)%nat) <$> list_find is_free (drop i (f_inodes s)) end)
      end, s).
Proof.
  induction k as [|k IH]; intros i empty Hk; cbn [iget_scan].
  - rewrite drop_ge by lia. simpl. by destruct empty.
  - destruct (lookup_lt_is_Some_2 (f_inodes s) i) as [x Hx]; [lia|].
    assert (Eg : geti i s = Ok (x, s)) by (unfold geti; by rewrite Hx). rewrite (bind_Ok_eq _ _ _ _ _ Eg).
    rewrite (drop_S _ _ _ Hx). cbn [list_find].
    replace (bool_decide (i_ref x > 0) && bool_decide (i_dev x = dev) && bool_decide (i_inum x = inum)) with (bool_decide (is_inode dev inum x)).
    2: { rewrite <-!bool_decide_and. apply bool_decide_ext. unfold is_inode. split; intros; repeat split; try tauto; lia. }
    case_bool_decide as Hm.
    + rewrite decide_True by done. by rewrite Nat.add_0_r.
    + rewrite decide_False by done. rewrite IH by lia. clear IH.
      destruct (list_find (is_inode dev inum) (drop (Datatypes.S i) (f_inodes s))) as [[j y]|]; simpl; [do 3 f_equal; lia|].
      do 2 f_equal. destruct empty as [e|]; [done|]. case_bool_decide as H0.
      * rewrite decide_True by done. simpl. f_equal. by rewrite Nat.add_0_r.
      * rewrite decide_False by done. destruct (list_find is_free (drop (Datatypes.S i) (f_inodes s))) as [[j y]|]; simpl; [do 2 f_equal; lia|done].
Qed.

Lemma lock_itable s : lock_quiet (itable_lock s) → acquireM tt s =
  Ok (tt, f_set_hart (push_off (f_hart s)) (with_tlock (held_by (hartid (f_hart s)) (itable_lock s)) s)).
Proof. intros H. unfold acquireM. cbn. by rewrite acquire_quiet. Qed.

Lemma unlock_itable s h lk : lock_quiet lk → hart_good h → be_hart (f_b s) = push_off h → itable_lock s = held_by (hartid h) lk →
  releaseM tt s = Ok (tt, f_set_hart h (with_tlock lk s)).
Proof.
  intros Hq Hh Eb El. unfold releaseM. cbn [get_lock get_hart fs_locks]. unfold f_hart. rewrite El, Eb.
  by rewrite release_quiet.
Qed.

(** The whole critical section puts lock and hart back. *)
Lemma relock s l : lock_quiet (itable_lock s) → hart_good (f_hart s) →
  releaseM tt (with_inodes l (f_set_hart (push_off (f_hart s)) (with_tlock (held_by (hartid (f_hart s)) (itable_lock s)) s))) =
  Ok (tt, with_inodes l s).
Proof.
  intros Hq Hh. rewrite (unlock_itable _ (f_hart s) (itable_lock s)); [|done|done|cbn; by rewrite be_hart_set|done].
  f_equal. f_equal. unfold f_set_hart, with_b, with_tlock, with_inodes, f_hart. cbn. rewrite be_hart_set2, be_hart_get. by destruct s.
Qed.

Lemma iget_ok dev inum s : lock_quiet (itable_lock s) → hart_good (f_hart s) → length (f_inodes s) = NINODE →
  iget dev inum s =
  match iget_slot dev inum (f_inodes s) with
  | Some (i, y) => Ok (i, with_inodes (<[i := y]> (f_inodes s)) s)
  | None => Panic "iget: no inodes"
  end.
Proof.
  intros Hq Hh Hl. unfold iget. rewrite (bind_Ok_eq _ _ _ _ _ (lock_itable s Hq)). set (s1 := f_set_hart _ _).
  rewrite (bind_Ok_eq _ _ _ _ _ (iget_scan_ok dev inum s1 NINODE 0 None ltac:(cbn; by rewrite Hl))).
  change (f_inodes s1) with (f_inodes s). rewrite drop_0. unfold iget_slot.
  destruct (list_find (is_inode dev inum) (f_inodes s)) as [[i x]|] eqn:Ef.
  - apply list_find_Some in Ef as (Hx & _). assert (Eu : upd_i (0 + i) (λ x, i_with_ref (i32 (i_ref x + 1)) x) s1 =
      Ok (tt, with_inodes (<[i := i_with_ref (i32 (i_ref x + 1)) x]> (f_inodes s)) s1)) by (unfold upd_i; cbn; by rewrite Hx).
    rewrite (bind_Ok_eq _ _ _ _ _ Eu). by rewrite (bind_Ok_eq _ _ _ _ _ (relock s _ Hq Hh)).
  - destruct (list_find is_free (f_inodes s)) as [[i x]|] eqn:Ee; [|done]. cbn [fmap option_fmap option_map fst].
    apply list_find_Some in Ee as (Hx & _). assert (Eu : upd_i (0 + i) (i_with_ident dev inum 1 0) s1 =
      Ok (tt, with_inodes (<[i := i_with_ident dev inum 1 0 x]> (f_inodes s)) s1)) by (unfold upd_i; cbn; by rewrite Hx).
    rewrite (bind_Ok_eq _ _ _ _ _ Eu). by rewrite (bind_Ok_eq _ _ _ _ _ (relock s _ Hq Hh)).
Qed.

(** ** [dirlookup] *)

(** Entry [k] of a directory, and whether it has the name in buffer [name]. *)
Definition dirent_at (v : bview) (x : inode) (k : nat) : list Z := content v x (16 * Z.of_nat k) 16.
Definition named (v : bview) (x : inode) (name : list Z) (k : nat) : Prop :=
  de_inum (dirent_at v x k) ≠ 0 ∧ name_of (de_name (dirent_at v x k)) = name_of name.
#[global] Instance named_dec v x name k : Decision (named v x name k).
Proof. unfold named. apply _. Defined.
(** The first entry with the name, among the entries [i], [i]+1, ..., [i]+[n]-1. *)
Definition find_name (v : bview) (x : inode) (name : list Z) (i n : nat) : option nat :=
  (λ p, p.2) <$> list_find (named v x name) (seq i n).

Lemma read_dirent_goes dev dp x k s v :
  be_rep dev (f_b s) v → v_room v → v_dirty v = ∅ → f_inodes s !! dp = Some x → i_dev x = dev → file_ok v x →
  16 * (Z.of_nat k + 1) ≤ i_size x →
  goes dev (read_dirent dp (16 * Z.of_nat k)) s v (sizeof_dirent, dirent_at v x k) v.
Proof.
  intros Hr Hroom Hcl Hx Hd Hf Hk. unfold read_dirent.
  assert (Hmax : i_size x < 2 ^ 31).
  { destruct (fo_size _ _ Hf) as [_ H]. unfold MAXFILE, NDIRECT, NINDIRECT, BSIZE in H. change (1024 / 4) with 256 in H. lia. }
  pose proof (readi_goes (λ _ l de, (de ++ l, true)) (λ de _ l, de ++ l)) as H. cbv beta in H.
  specialize (H ltac:(done) ltac:(intros; by rewrite <-app_assoc) ltac:(intros; apply app_nil_r)
    dev dp x s v 0 (16 * Z.of_nat k) sizeof_dirent [] Hr Hroom Hcl Hx Hd Hf).
  assert (Hn : read_len (i_size x) (16 * Z.of_nat k) sizeof_dirent = 16).
  { unfold read_len, sizeof_dirent. rewrite decide_False by lia. lia. }
  rewrite Hn in H. apply H; unfold sizeof_dirent; lia.
Qed.

Lemma dirlookup_loop_ok dev dp x name v : v_room v → v_dirty v = ∅ → i_dev x = dev → file_ok v x → (14 ≤ length name)%nat →
  ∀ n fuel i s, be_rep dev (f_b s) v → f_inodes s !! dp = Some x → i_size x = 16 * Z.of_nat (i + n) → (n < fuel)%nat →
  ∃ b, be_rep dev b v ∧ be_hart b = be_hart (f_b s) ∧
    dirlookup_loop fuel dp name (16 * Z.of_nat i) s =
    match find_name v x name i n with
    | None => Ok (None, with_b b s)
    | Some k => (j ← iget dev (de_inum (dirent_at v x k)); mret (Some (j, 16 * Z.of_nat k))) (with_b b s)
    end.
Proof.
  intros Hroom Hcl Hd Hf Hname. induction n as [|n IH]; intros fuel i s Hr Hx Hsz Hfu; (destruct fuel as [|fuel]; [lia|]);
    cbn [dirlookup_loop]; (rewrite (bind_Ok_eq _ _ _ x s); [|unfold geti; by rewrite Hx]).
  - rewrite bool_decide_false by lia. exists (f_b s). split; [done|]. split; [done|]. by destruct s.
  - rewrite bool_decide_true by lia.
    destruct (read_dirent_goes dev dp x i s v Hr Hroom Hcl Hx Hd Hf ltac:(lia)) as (b1 & E1 & R1 & H1).
    rewrite (bind_Ok_eq _ _ _ _ _ E1). cbv beta iota. rewrite (bool_decide_false (_ ≠ _)) by tauto.
    assert (Hmax : i_size x < 2 ^ 31).
    { destruct (fo_size _ _ Hf) as [_ H]. unfold MAXFILE, NDIRECT, NINDIRECT, BSIZE in H. change (1024 / 4) with 256 in H. lia. }
    assert (Hnext : u32 (16 * Z.of_nat i + sizeof_dirent) = 16 * Z.of_nat (Datatypes.S i)) by (unfold sizeof_dirent; rewrite u32_small; lia).
    rewrite Hnext.
    destruct (IH fuel (Datatypes.S i) (with_b b1 s) R1 Hx ltac:(lia) ltac:(lia)) as (b2 & R2 & H2 & E2).
    unfold find_name in *. cbn [seq list_find]. set (de := dirent_at v x i) in *.
    assert (Hlen : length (de_name de) = 14%nat) by (unfold de_name; rewrite length_drop; unfold de, dirent_at; by rewrite length_file_content).
    destruct (decide (named v x name i)) as [Hnm|Hnm].
    + destruct Hnm as [Hi Hnm]. fold de in Hi, Hnm. exists b1. split; [done|]. split; [done|].
      rewrite bool_decide_false by done. unfold namecmp. change (Z.to_nat DIRSIZ) with 14%nat.
      destruct (strncmp_name 14 name (de_name de) Hname ltac:(lia)) as (c & Ec & Hc). rewrite Ec. unfold mbind at 1, M_bind at 1, lift.
      rewrite bool_decide_true by (by apply Hc). rewrite (bind_Ok_eq _ _ _ x (with_b b1 s)) by (unfold geti; cbn; by rewrite Hx).
      rewrite Hd. done.
    + exists b2. split; [done|]. split; [cbn in H2; congruence|].
      assert (Hrest : dirlookup_loop fuel dp name (16 * Z.of_nat (Datatypes.S i)) (with_b b1 s) =
        match (λ p, p.2) <$> (prod_map Datatypes.S id <$> list_find (named v x name) (seq (Datatypes.S i) n)) with
        | Some k => (j ← iget dev (de_inum (dirent_at v x k)); mret (Some (j, 16 * Z.of_nat k))) (with_b b2 s)
        | None => Ok (None, with_b b2 s)
        end).
      { rewrite E2. by destruct (list_find (named v x name) (seq (Datatypes.S i) n)) as [[j y]|]. }
      rewrite <-Hrest. case_bool_decide as Hi0; [done|]. unfold namecmp. change (Z.to_nat DIRSIZ) with 14%nat.
      destruct (strncmp_name 14 name (de_name de) Hname ltac:(lia)) as (c & Ec & Hc). rewrite Ec. unfold mbind at 1, M_bind at 1, lift.
      rewrite bool_decide_false; [done|]. intros ->. apply Hnm. split; [done|]. symmetry. by apply Hc.
Qed.

(** C33: [dirlookup] finds the first entry with the name.  In a directory whose
    blocks are in place and whose size is a whole number of entries, for any name
    buffer: without an entry of that name it returns 0 and changes nothing;
    otherwise it returns the offset of the first such entry and the inode table's
    slot for its inode number, whose count it raises (the slot that already
    has the inode, else the first free one), panicking only when the table is full. *)
Theorem dirlookup_first dev dp x name cnt s v :
  be_rep dev (f_b s) v → v_room v → v_dirty v = ∅ → f_inodes s !! dp = Some x → i_dev x = dev → file_ok v x →
  i_type x = T_DIR → i_size x = 16 * Z.of_nat cnt → (14 ≤ length name)%nat →
  lock_quiet (itable_lock s) → length (f_inodes s) = NINODE →
  match find_name v x name 0 cnt with
  | None => ∃ s', dirlookup dp name s = Ok (None, s') ∧ be_rep dev (f_b s') v ∧ f_inodes s' = f_inodes s
  | Some k =>
      match iget_slot dev (de_inum (dirent_at v x k)) (f_inodes s) with
      | None => dirlookup dp name s = Panic "iget: no inodes"
      | Some (i, y) => ∃ s', dirlookup dp name s = Ok (Some (i, 16 * Z.of_nat k), s') ∧ be_rep dev (f_b s') v ∧
          f_inodes s' = <[i := y]> (f_inodes s)
      end
  end.
Proof.
  intros Hr Hroom Hcl Hx Hd Hf Ht Hsz Hname Hlk Hlen. unfold dirlookup.
  rewrite (bind_Ok_eq _ _ _ x s) by (unfold geti; by rewrite Hx). rewrite Ht, (bool_decide_false (_ ≠ _)) by tauto.
  destruct (dirlookup_loop_ok dev dp x name v Hroom Hcl Hd Hf Hname cnt (Datatypes.S (Z.to_nat (i_size x / sizeof_dirent + 1))) 0 s) as (b & Rb & Hb & Eb);
    [done|done|done| |].
  { unfold sizeof_dirent. rewrite Hsz, Z.mul_comm, Z.div_mul by lia. lia. }
  change (16 * Z.of_nat 0) with 0 in Eb. destruct (find_name v x name 0 cnt) as [k|].
  - assert (Hg : hart_good (f_hart (with_b b s))) by (eapply be_hart_good; exact Rb).
    pose proof (iget_ok dev (de_inum (dirent_at v x k)) (with_b b s) Hlk Hg Hlen) as Hi. cbn [f_inodes with_b] in Hi.
    destruct (iget_slot dev (de_inum (dirent_at v x k)) (f_inodes s)) as [[i y]|].
    + exists (with_inodes (<[i := y]> (f_inodes s)) (with_b b s)). split; [|done]. rewrite Eb. by rewrite (bind_Ok_eq _ _ _ _ _ Hi).
    + rewrite Eb. unfold mbind, M_bind. by rewrite Hi.
  - exists (with_b b s). split; [exact Eb|]. done.
Qed.
End dir.

(** ** A root directory with an entry that was removed *)

Definition demo_name (l : list Z) : list Z := l ++ replicate (14 - length l) 0.
Definition demo_entries : list Z :=
  dirent_bytes 1 (demo_name [46]) ++ dirent_bytes 1 (demo_name [46; 46]) ++
  dirent_bytes 0 (demo_name [115; 104]) ++ dirent_bytes 7 (demo_name [115; 104]).
Definition demo_dirdisk : disk := mkdisk (λ k, if decide (k = 46) then demo_entries ++ replicate 960 0 else zero_block) [].
Definition demo_dirlog : lst bst :=
  mklst (booted [] demo_dirdisk 5) (initlock "log") 2 30 1 0 1 0 (replicate (Z.to_nat LOGSIZE) 0) 0.
Definition demo_root : inode := mkinode 1 1 1 (i_lock inode0) 1 T_DIR 0 0 1 64 (46 :: replicate 12 0).
Definition demo_dirfs : fstate (lst bst) :=
  mkfs demo_dirlog demo_sb (initlock "itable") (demo_root :: replicate 49 inode0) 5 0 [] [].
Definition demo_dirview : bview := mkview (dread demo_dirdisk) ∅ ∅ [] (home 2 30).

Lemma demo_dirfs_rep : be_rep 1 (f_b demo_dirfs) demo_dirview.
Proof.
  constructor; try reflexivity.
  - exists demo_dirdisk, ∅. split; [apply booted_rep; discriminate|]. split; [|done]. intros k. reflexivity.
  - split; [reflexivity|]. split; reflexivity.
  - constructor.
  - vm_compute. discriminate.
  - done.
  - intros k Hk. cbn in Hk. by apply elem_of_nil in Hk.
  - intros k Hk. cbn in Hk. set_solver.
Qed.

Lemma demo_root_ok : file_ok demo_dirview demo_root.
Proof.
  constructor; try done.
  - intros n H0 Hn. cbn in Hn. unfold BSIZE in Hn. assert (n = 0) as -> by lia. done.
  - intros n H0 Hn. cbn in Hn. unfold BSIZE in Hn. assert (n = 0) as -> by lia. done.
Qed.

(** "sh" is found in the fourth entry, "cat" is not there. *)
Lemma dirlookup_first_witness :
  (∃ s', dirlookup 0 (demo_name [115; 104]) demo_dirfs = Ok (Some (1%nat, 48), s')) ∧
  (∃ s', dirlookup 0 (demo_name [99; 97; 116]) demo_dirfs = Ok (None, s')).
Proof.
  assert (Hroom : v_room demo_dirview) by (vm_compute; lia).
  assert (Hq : lock_quiet (itable_lock demo_dirfs)) by (split; reflexivity).
  pose proof (λ name (Hn : (14 <= length name)%nat), dirlookup_first 1 0 demo_root name 4 demo_dirfs demo_dirview
    demo_dirfs_rep Hroom eq_refl eq_refl eq_refl demo_root_ok eq_refl eq_refl Hn Hq eq_refl) as H.
  split.
  - specialize (H (demo_name [115; 104]) ltac:(cbn; lia)).
    replace (find_name _ _ _ _ _) with (Some 3%nat) in H by (vm_compute; reflexivity).
    replace (iget_slot _ _ _) with (Some (1%nat, i_with_ident 1 7 1 0 inode0)) in H by (vm_compute; reflexivity).
    destruct H as (s' & E & _). by exists s'.
  - specialize (H (demo_name [99; 97; 116]) ltac:(cbn; lia)).
    replace (find_name _ _ _ _ _) with (@None nat) in H by (vm_compute; reflexivity).
    destruct H as (s' & E & _). by exists s'.
Defined.
