(* ===== verification/Sh.v ===== *)
(** * The shell's parser: user/sh.c

    A [char *] into the command line is an index into the buffer, a
    [struct cmd *] the index of a node in the list of nodes allocated so far:
    the parser fills the argument arrays of a node that redirections already
    point to.  The bytes after the line stay in the buffer, and [nulterminate]
    writes into it. *)
From S2P Require Import Ulib Prelude.

Definition O_WRONLY : Z := 1.
Definition O_RDWR : Z := 2.
Definition O_CREATE : Z := 512.
Definition O_TRUNC : Z := 1024.
Definition MAXARGS : nat := 10.

(** ** Commands

    The five structs behind [struct cmd]; [None] is a null [char *]. *)
Inductive node :=
  | EXEC (argv eargv : list (option Z))
  | REDIR (cmd : nat) (file efile mode fd : Z)
  | PIPE (left right : nat)
  | LIST (left right : nat)
  | BACK (cmd : nat).

(** The line, the nodes, how many more [malloc] can give, and fd 2. *)
Record shell := mksh { sh_buf : list Z; sh_nodes : list node; sh_room : nat; sh_err : list (list Z) }.

Definition sh_with_buf (b : list Z) (s : shell) : shell := mksh b (sh_nodes s) (sh_room s) (sh_err s).
Definition sh_with_nodes (l : list node) (s : shell) : shell := mksh (sh_buf s) l (sh_room s) (sh_err s).

(** [*s] and [*s = c] *)
Definition ldc (p : Z) : M shell Z := λ s, match zidx (sh_buf s) p with Some c => Ok (c, s) | None => Fault end.
Definition stc (p c : Z) : M shell unit := λ s,
  match zupd (sh_buf s) p c with Some b => Ok (tt, sh_with_buf b s) | None => Fault end.
Definition get_node (p : nat) : M shell node := λ s, match sh_nodes s !! p with Some n => Ok (n, s) | None => Fault end.
Definition put_node (p : nat) (n : node) : M shell unit := modify (λ s, sh_with_nodes (<[p := n]> (sh_nodes s)) s).
(** [malloc] and [memset] of a node and the assignments to its fields; without
    memory the [memset] writes at address 0. *)
Definition new_node (n : node) : M shell nat := λ s,
  match sh_room s with
  | O => Fault
  | S r => Ok (length (sh_nodes s), mksh (sh_buf s) (sh_nodes s ++ [n]) r (sh_err s))
  end.

Definition execcmd : M shell nat := new_node (EXEC (replicate MAXARGS None) (replicate MAXARGS None)).
Definition redircmd (subcmd : nat) (file efile mode fd : Z) : M shell nat := new_node (REDIR subcmd file efile mode fd).
Definition pipecmd (l r : nat) : M shell nat := new_node (PIPE l r).
Definition listcmd (l r : nat) : M shell nat := new_node (LIST l r).
Definition backcmd (subcmd : nat) : M shell nat := new_node (BACK subcmd).

(** [cmd->argv[argc] = q; cmd->eargv[argc] = eq] *)
Definition set_arg (cmd : nat) (argc : Z) (q eq : option Z) : M shell unit :=
  n ← get_node cmd;
  match n with
  | EXEC argv eargv =>
      match zupd argv argc q, zupd eargv argc eq with
      | Some argv, Some eargv => put_node cmd (EXEC argv eargv)
      | _, _ => fault
      end
  | _ => fault
  end.

(** ** Tokens *)

Definition whitespace : list Z := [32; 9; 13; 10; 11].
Definition symbols : list Z := [60; 124; 62; 38; 59; 40; 41].
(** [strchr(set, c) != 0]: the library's [strchr] never finds a NUL. *)
Definition strchr_in (set : list Z) (c : Z) : bool := bool_decide (c ≠ 0) && bool_decide (c ∈ set).

(** [while(s < es && strchr(whitespace, *s)) s++] *)
Fixpoint skip_white (fuel : nat) (s es : Z) : M shell Z :=
  match fuel with
  | O => hang
  | S fuel =>
      if bool_decide (s < es) then
        c ← ldc s;
        if strchr_in whitespace c then skip_white fuel (s + 1) es else mret s
      else mret s
  end.
Fixpoint skip_word (fuel : nat) (s es : Z) : M shell Z :=
  match fuel with
  | O => hang
  | S fuel =>
      if bool_decide (s < es) then
        c ← ldc s;
        if negb (strchr_in whitespace c) && negb (strchr_in symbols c) then skip_word fuel (s + 1) es else mret s
      else mret s
  end.
Definition left_of (s es : Z) : nat := S (Z.to_nat (es - s)).

(** The result, [*q], [*eq] and the new [*ps]. *)
Definition gettoken (s es : Z) : M shell (Z * Z * Z * Z) :=
  s ← skip_white (left_of s es) s es;
  let q := s in
  c ← ldc s;
  '(ret, s) ←
    (if bool_decide (c = 0) then mret (c, s)
     else if bool_decide (c ∈ [124; 40; 41; 59; 38; 60]) then mret (c, s + 1)
     else if bool_decide (c = 62) then
       c2 ← ldc (s + 1);
       if bool_decide (c2 = 62) then mret (43, s + 2) else mret (c, s + 1)
     else s ← skip_word (left_of s es) s es; mret (97, s));
  let eq := s in
  s ← skip_white (left_of s es) s es;
  mret (ret, q, eq, s).

(** The result and the new [*ps]. *)
Definition peek (s es : Z) (toks : list Z) : M shell (bool * Z) :=
  s ← skip_white (left_of s es) s es;
  c ← ldc s;
  mret (bool_decide (c ≠ 0) && strchr_in toks c, s).

(** ** The parser

    Each function returns its command and the new [*ps]. *)
Fixpoint parseredirs (fuel : nat) (cmd : nat) (s es : Z) : M shell (nat * Z) :=
  match fuel with
  | O => hang
  | S fuel =>
      '(b, s) ← peek s es [60; 62];
      if (b : bool) then
        '(tok, _, _, s) ← gettoken s es;
        '(t, q, eq, s) ← gettoken s es;
        if bool_decide (t ≠ 97) then panic "missing file for redirection"
        else
          cmd ← (if bool_decide (tok = 60) then redircmd cmd q eq O_RDONLY 0
                 else if bool_decide (tok = 62) then redircmd cmd q eq (Z.lor (Z.lor O_WRONLY O_CREATE) O_TRUNC) 1
                 else if bool_decide (tok = 43) then redircmd cmd q eq (Z.lor O_WRONLY O_CREATE) 1
                 else mret cmd);
          parseredirs fuel cmd s es
      else mret (cmd, s)
  end.

(** The loop of [parseexec]: [cmd] is the node of the arguments, [ret] the
    command around it. *)
Fixpoint parseargs (fuel : nat) (cmd ret : nat) (argc : Z) (s es : Z) : M shell (nat * Z * Z) :=
  match fuel with
  | O => hang
  | S fuel =>
      '(b, s) ← peek s es [124; 41; 38; 59];
      if (b : bool) then mret (ret, argc, s)
      else
        '(tok, q, eq, s) ← gettoken s es;
        if bool_decide (tok = 0) then mret (ret, argc, s)
        else if bool_decide (tok ≠ 97) then panic "syntax"
        else
          set_arg cmd argc (Some q) (Some eq) ;;
          let argc := argc + 1 in
          if bool_decide (argc >= Z.of_nat MAXARGS) then panic "too many args"
          else
            '(ret, s) ← parseredirs (left_of s es) ret s es;
            parseargs fuel cmd ret argc s es
  end.

(** [while(peek(ps, es, "&"))] of [parseline] *)
Fixpoint parseback (fuel : nat) (cmd : nat) (s es : Z) : M shell (nat * Z) :=
  match fuel with
  | O => hang
  | S fuel =>
      '(b, s) ← peek s es [38];
      if (b : bool) then
        '(_, _, _, s) ← gettoken s es;
        cmd ← backcmd cmd;
        parseback fuel cmd s es
      else mret (cmd, s)
  end.

Fixpoint parseline (fuel : nat) (s es : Z) : M shell (nat * Z) :=
  match fuel with
  | O => hang
  | S fuel =>
      '(cmd, s) ← parsepipe fuel s es;
      '(cmd, s) ← parseback (left_of s es) cmd s es;
      '(b, s) ← peek s es [59];
      if (b : bool) then
        '(_, _, _, s) ← gettoken s es;
        '(rcmd, s) ← parseline fuel s es;
        cmd ← listcmd cmd rcmd;
        mret (cmd, s)
      else mret (cmd, s)
  end
with parsepipe (fuel : nat) (s es : Z) : M shell (nat * Z) :=
  match fuel with
  | O => hang
  | S fuel =>
      '(cmd, s) ← parseexec fuel s es;
      '(b, s) ← peek s es [124];
      if (b : bool) then
        '(_, _, _, s) ← gettoken s es;
        '(rcmd, s) ← parsepipe fuel s es;
        cmd ← pipecmd cmd rcmd;
        mret (cmd, s)
      else mret (cmd, s)
  end
with parseblock (fuel : nat) (s es : Z) : M shell (nat * Z) :=
  match fuel with
  | O => hang
  | S fuel =>
      '(b, s) ← peek s es [40];
      if negb b then panic "parseblock"
      else
        '(_, _, _, s) ← gettoken s es;
        '(cmd, s) ← parseline fuel s es;
        '(b, s) ← peek s es [41];
        if negb b then panic "syntax - missing )"
        else
          '(_, _, _, s) ← gettoken s es;
          parseredirs (left_of s es) cmd s es
  end
with parseexec (fuel : nat) (s es : Z) : M shell (nat * Z) :=
  match fuel with
  | O => hang
  | S fuel =>
      '(b, s) ← peek s es [40];
      if (b : bool) then parseblock fuel s es
      else
        cmd ← execcmd;
        '(ret, s) ← parseredirs (left_of s es) cmd s es;
        '(ret, argc, s) ← parseargs (left_of s es) cmd ret 0 s es;
        set_arg cmd argc None None ;;
        mret (ret, s)
  end.

(** [for(i=0; ecmd->argv[i]; i++) *ecmd->eargv[i] = 0] *)
Fixpoint nul_args (k : nat) (argv eargv : list (option Z)) (i : Z) : M shell unit :=
  match k with
  | O => fault
  | S k =>
      a ← lift (match zidx argv i with Some a => Ok a | None => Fault end);
      match a with
      | None => mret tt
      | Some _ =>
          match zidx eargv i with
          | Some (Some e) => stc e 0 ;; nul_args k argv eargv (i + 1)
          | _ => fault
          end
      end
  end.
Fixpoint nulterminate (fuel : nat) (cmd : nat) : M shell unit :=
  match fuel with
  | O => hang
  | S fuel =>
      n ← get_node cmd;
      match n with
      | EXEC argv eargv => nul_args (S MAXARGS) argv eargv 0
      | REDIR cmd _ efile _ _ => nulterminate fuel cmd ;; stc efile 0
      | PIPE l r => nulterminate fuel l ;; nulterminate fuel r
      | LIST l r => nulterminate fuel l ;; nulterminate fuel r
      | BACK cmd => nulterminate fuel cmd
      end
  end.

(** [strlen(s)] of the line *)
Fixpoint line_len (l : list Z) : option Z :=
  match l with
  | [] => None
  | c :: l => if bool_decide (c = 0) then Some 0 else (λ n, n + 1) <$> line_len l
  end.
(** The bytes from [p] to the NUL, as [%s] prints them. *)
Fixpoint upto_nul (l : list Z) : list Z :=
  match l with
  | [] => []
  | c :: l => if bool_decide (c = 0) then [] else c :: upto_nul l
  end.
Definition str_at (b : list Z) (p : Z) : list Z := upto_nul (drop (Z.to_nat p) b).
(** The characters of a string literal. *)
Definition chars (s : string) : list Z := (λ c, Z.of_N (Ascii.N_of_ascii c)) <$> String.list_ascii_of_string s.
Definition fprintf2 (m : list Z) : M shell unit :=
  modify (λ s, mksh (sh_buf s) (sh_nodes s) (sh_room s) (sh_err s ++ [m])).

(** A line of [n] bytes needs calls at most 4([n]+1) deep.  [parsecmd] up to its
    test: the command, [s] and [es]. *)
Definition parse_front : M shell (nat * Z * Z) :=
  b ← gets sh_buf;
  es ← lift (match line_len b with Some n => Ok n | None => Fault end);
  '(cmd, s) ← parseline (4 * Z.to_nat (es + 2)) 0 es;
  '(_, s) ← peek s es [];
  mret (cmd, s, es).
Definition leftover_text (b : list Z) (s : Z) : list Z := chars "leftovers: " ++ str_at b s ++ [10].
Definition parsecmd : M shell nat :=
  '(cmd, s, es) ← parse_front;
  b ← gets sh_buf;
  if bool_decide (s ≠ es) then fprintf2 (leftover_text b s) ;; panic "syntax"
  else
    nodes ← gets sh_nodes;
    nulterminate (S (length nodes)) cmd ;;
    mret cmd.
(** What it printed when it panicked. *)
Definition leftovers (s : shell) : option (list Z) :=
  match parse_front s with
  | Ok ((_, p, es), s') => if bool_decide (p ≠ es) then Some (leftover_text (sh_buf s') p) else None
  | _ => None
  end.
