(* ===== verification/ShGrammar.v ===== *)
(** * The tokens of a command line

    [lex] cuts a line into words and symbols; [gettoken] and [peek] follow it. *)
From S2P Require Import Prelude Ulib Sh.

(** A word, or a symbol; [>>] is the symbol 43, as in the code. *)
Inductive tok := TWord (w : list Z) | TSym (c : Z).
#[global] Instance tok_eq_dec : EqDecision tok.
Proof. solve_decision. Defined.

(** Membership in one of the character sets, by evaluation. *)
Ltac in_set :=
  match goal with
  | |- ¬ ?P => refine (bool_decide_eq_false_1 P _); vm_compute; reflexivity
  | |- ?P => refine (bool_decide_eq_true_1 P _); vm_compute; reflexivity
  end.

Definition white (c : Z) : Prop := c ∈ whitespace.
#[global] Instance white_dec c : Decision (white c).
Proof. unfold white. apply _. Defined.
(** A character of a word. *)
Definition wordc (c : Z) : Prop := (c ≠ 0) ∧ (c ∉ whitespace) ∧ (c ∉ symbols).
#[global] Instance wordc_dec c : Decision (wordc c).
Proof. unfold wordc. apply _. Defined.

Definition flush (acc : list Z) : list tok := match acc with [] => [] | _ => [TWord acc] end.
(** The tokens of [l] behind the characters [acc] of a word. *)
Fixpoint lex_go (acc l : list Z) : list tok :=
  match l with
  | [] => flush acc
  | c :: r =>
      if decide (wordc c) then lex_go (acc ++ [c]) r
      else flush acc ++
        (if decide (white c) then lex_go [] r
         else if decide (c = 62) then
           match r with
           | d :: r' => if decide (d = 62) then TSym 43 :: lex_go [] r' else TSym 62 :: lex_go [] r
           | [] => [TSym 62]
           end
         else TSym c :: lex_go [] r)
  end.
Definition lex (l : list Z) : list tok := lex_go [] l.

Definition hd0 (l : list Z) : Z := match l with [] => 0 | c :: _ => c end.

(** ** [lex] by the first character *)

Lemma lex_white c l : white c → lex (c :: l) = lex l.
Proof. intros H. unfold lex. cbn [lex_go]. rewrite decide_False by (by intros (_ & ? & _)). by rewrite decide_True. Qed.

Lemma sym_not_word c : c ∈ symbols → ¬ wordc c ∧ ¬ white c.
Proof. intros H. split; [by intros (_ & _ & ?)|]. revert c H. apply Forall_forall. unfold white. in_set. Qed.

Lemma lex_sym c l : c ∈ symbols → c ≠ 62 → lex (c :: l) = TSym c :: lex l.
Proof. intros H Hc. destruct (sym_not_word _ H). unfold lex. cbn [lex_go]. by rewrite !decide_False by done. Qed.

Lemma lex_gt l : lex (62 :: l) = if decide (hd0 l = 62) then TSym 43 :: lex (drop 1 l) else TSym 62 :: lex l.
Proof.
  unfold lex. cbn [lex_go]. destruct (sym_not_word 62); [in_set|]. rewrite !decide_False by done.
  destruct l as [|d l]; [done|]. cbn. by case_decide.
Qed.

Lemma lex_word_go w : ∀ acc l, Forall wordc w → lex_go acc (w ++ l) = lex_go (acc ++ w) l.
Proof.
  induction w as [|c w IH]; intros acc l Hw; [by rewrite app_nil_r|]. apply Forall_cons in Hw as [Hc Hw].
  cbn [app lex_go]. rewrite decide_True by done. rewrite IH by done. by rewrite <-app_assoc.
Qed.
Lemma lex_flush acc l : ¬ wordc (hd0 l) → lex_go acc l = flush acc ++ lex l.
Proof.
  intros H. destruct l as [|c l]; [change (lex []) with (@nil tok); by rewrite app_nil_r|]. simpl in H. unfold lex. cbn [lex_go]. by destruct (decide (wordc c)).
Qed.
Lemma lex_word w l : w ≠ [] → Forall wordc w → ¬ wordc (hd0 l) → lex (w ++ l) = TWord w :: lex l.
Proof. intros Hn Hw Hl. unfold lex at 1. rewrite lex_word_go, lex_flush by done. by destruct w. Qed.

(** ** The scanner on a line

    The buffer holds a line without NULs, a NUL, and anything. *)
Section scan.
Context (line rest : list Z) (Hline : Forall (λ c : Z, c ≠ 0) line).
Local Abbreviation es := (Z.of_nat (length line)).

Definition has_line (s : shell) : Prop := sh_buf s = line ++ 0 :: rest.

Lemma ldc_ok i s : has_line s → (i ≤ length line)%nat → ldc (Z.of_nat i) s = Ok (hd0 (drop i line), s).
Proof.
  intros Hs Hi. unfold ldc. rewrite Hs. unfold zidx. rewrite decide_True by lia. rewrite Nat2Z.id.
  destruct (decide (i < length line)%nat) as [Hlt|].
  - destruct (lookup_lt_is_Some_2 line i Hlt) as [c Hc]. rewrite (lookup_app_l_Some _ _ _ _ Hc). by rewrite (drop_S _ _ _ Hc).
  - assert (i = length line) as -> by lia. rewrite lookup_app_r, Nat.sub_diag, drop_all by done. done.
Qed.

Lemma drop_cons i : (i < length line)%nat → ∃ c, drop i line = c :: drop (S i) line ∧ c ≠ 0.
Proof.
  intros Hi. destruct (lookup_lt_is_Some_2 line i Hi) as [c Hc]. exists c. split; [by apply drop_S|].
  by apply (Forall_lookup_1 _ _ _ _ Hline Hc).
Qed.

Lemma strchr_in_spec set c : c ≠ 0 → strchr_in set c = bool_decide (c ∈ set).
Proof. intros H. unfold strchr_in. by rewrite bool_decide_true. Qed.

Lemma skip_white_ok s : has_line s → ∀ fuel i, (i ≤ length line)%nat → (length line - i < fuel)%nat →
  ∃ j, (i ≤ j ≤ length line)%nat ∧ skip_white fuel (Z.of_nat i) es s = Ok (Z.of_nat j, s) ∧
    lex (drop j line) = lex (drop i line) ∧ ¬ white (hd0 (drop j line)).
Proof.
  intros Hs. induction fuel as [|fuel IH]; intros i Hi Hf; [lia|]. cbn [skip_white]. case_bool_decide as Hlt.
  - rewrite (bind_Ok_eq _ _ _ _ _ (ldc_ok i s Hs Hi)). destruct (drop_cons i ltac:(lia)) as (c & Ed & Hc). rewrite Ed. cbn [hd0].
    rewrite strchr_in_spec by done. case_bool_decide as Hw.
    + destruct (IH (S i) ltac:(lia) ltac:(lia)) as (j & Hj & E & L & W). exists j. split; [lia|].
      replace (Z.of_nat i + 1) with (Z.of_nat (S i)) by lia. split; [done|]. split; [|done]. rewrite L. by rewrite lex_white.
    + exists i. rewrite Ed. split; [lia|]. by split.
  - exists i. split; [lia|]. split; [done|]. split; [done|]. rewrite drop_ge by lia. in_set.
Qed.

(** The characters between two positions of the line. *)
Definition slice (q e : nat) : list Z := take (e - q) (drop q line).

Lemma slice_snoc q e c : (q ≤ e)%nat → line !! e = Some c → slice q (S e) = slice q e ++ [c].
Proof.
  intros Hq Hc. unfold slice. replace (S e - q)%nat with (S (e - q)) by lia. apply take_S_r. rewrite lookup_drop.
  by replace (q + (e - q))%nat with e by lia.
Qed.
Lemma slice_drop q e : (q ≤ e)%nat → drop q line = slice q e ++ drop e line.
Proof.
  intros Hq. unfold slice. rewrite <-(take_drop (e - q) (drop q line)) at 1. rewrite drop_drop. by replace (q + (e - q))%nat with e by lia.
Qed.

(** A whole word of the line, and that it ends. *)
Record word_at (q e : nat) (w : list Z) : Prop := {
  wa_range : (q ≤ e ≤ length line)%nat;
  wa_slice : slice q e = w;
  wa_word : Forall wordc w;
  wa_nonempty : w ≠ [];
  wa_end : ¬ wordc (hd0 (drop e line)) }.

Lemma skip_word_ok s : has_line s → ∀ fuel q i, (q ≤ i ≤ length line)%nat → (length line - i < fuel)%nat → Forall wordc (slice q i) →
  ∃ j, (i ≤ j ≤ length line)%nat ∧ skip_word fuel (Z.of_nat i) es s = Ok (Z.of_nat j, s) ∧
    Forall wordc (slice q j) ∧ ¬ wordc (hd0 (drop j line)).
Proof.
  intros Hs. induction fuel as [|fuel IH]; intros q i Hi Hf Hw; [lia|]. cbn [skip_word]. case_bool_decide as Hlt.
  - rewrite (bind_Ok_eq _ _ _ _ _ (ldc_ok i s Hs ltac:(lia))).
    destruct (lookup_lt_is_Some_2 line i) as [c Hc]; [lia|]. rewrite (drop_S _ _ _ Hc). cbn [hd0].
    assert (Hc0 : c ≠ 0) by apply (Forall_lookup_1 _ _ _ _ Hline Hc).
    rewrite !strchr_in_spec by done. case_bool_decide as H1; cbn [negb andb].
    { exists i. split; [lia|]. split; [done|]. split; [done|]. rewrite (drop_S _ _ _ Hc). by intros (_ & ? & _). }
    case_bool_decide as H2; cbn [negb].
    { exists i. split; [lia|]. split; [done|]. split; [done|]. rewrite (drop_S _ _ _ Hc). by intros (_ & _ & ?). }
    destruct (IH q (S i) ltac:(lia) ltac:(lia)) as (j & Hj & E & W & N).
    { rewrite (slice_snoc q i c) by (done || lia). apply Forall_app. split; [done|]. repeat constructor; done. }
    exists j. split; [lia|]. by replace (Z.of_nat i + 1) with (Z.of_nat (S i)) by lia.
  - exists i. split; [lia|]. split; [done|]. split; [done|]. rewrite drop_ge by lia. by intros [? _].
Qed.

(** What [gettoken] returns for the next token. *)
Definition tok_syms : list Z := 43 :: symbols.
Definition token_result (ts : list tok) (i : nat) (r : Z * Z * Z * Z) : Prop :=
  match ts with
  | [] => ∃ q e, r = (0, q, e, es)
  | TSym c :: ts' => ∃ q e j, r = (c, q, e, Z.of_nat j) ∧ (i < j ≤ length line)%nat ∧ lex (drop j line) = ts' ∧ c ∈ tok_syms
  | TWord w :: ts' => ∃ q e j, r = (97, Z.of_nat q, Z.of_nat e, Z.of_nat j) ∧ (i < j ≤ length line)%nat ∧ lex (drop j line) = ts' ∧ word_at q e w
  end.

(** After the token, white space is skipped. *)
Lemma token_end s (ret q : Z) j i ts : has_line s → (i < j ≤ length line)%nat → lex (drop j line) = ts →
  ∃ k, (s' ← skip_white (left_of (Z.of_nat j) es) (Z.of_nat j) es; mret (ret, q, Z.of_nat j, s')) s = Ok ((ret, q, Z.of_nat j, Z.of_nat k), s) ∧
    (i < k ≤ length line)%nat ∧ lex (drop k line) = ts.
Proof.
  intros Hs Hj Hl. destruct (skip_white_ok s Hs (left_of (Z.of_nat j) es) j) as (k & Hk & E & L & _); [lia|unfold left_of; lia|].
  exists k. rewrite (bind_Ok_eq _ _ _ _ _ E). split; [done|]. split; [lia|]. by rewrite L.
Qed.

Lemma special_chars c : c ∈ symbols → c ≠ 62 → bool_decide (c ∈ [124; 40; 41; 59; 38; 60]) = true.
Proof. intros H1 H2. apply bool_decide_true. unfold symbols in H1. set_solver. Qed.

Lemma gettoken_ok i s : has_line s → (i ≤ length line)%nat →
  ∃ r, gettoken (Z.of_nat i) es s = Ok (r, s) ∧ token_result (lex (drop i line)) i r.
Proof.
  intros Hs Hi. unfold gettoken. destruct (skip_white_ok s Hs (left_of (Z.of_nat i) es) i) as (p & Hp & E & L & W); [lia|unfold left_of; lia|].
  rewrite (bind_Ok_eq _ _ _ _ _ E), <-L. clear E L. cbv zeta. rewrite (bind_Ok_eq _ _ _ _ _ (ldc_ok p s Hs ltac:(lia))).
  destruct (decide (p = length line)) as [->|Hlt].
  { rewrite drop_all in *. cbn [hd0]. rewrite bool_decide_true by done. cbv beta iota.
    destruct (skip_white_ok s Hs (left_of es es) (length line)) as (k & Hk & E & _ & _); [lia|unfold left_of; lia|].
    assert (k = length line) as -> by lia.
    exists (0, es, es, es). split; [|by eexists _, _]. unfold mbind, M_bind in *. cbn -[left_of skip_white]. by rewrite E. }
  destruct (drop_cons p ltac:(lia)) as (c & Ed & Hc). rewrite Ed in *. cbn [hd0] in *. rewrite bool_decide_false by done.
  destruct (decide (c ∈ symbols)) as [Hsym|Hns].
  - destruct (decide (c = 62)) as [->|Hgt].
    + rewrite (bool_decide_false (62 ∈ _)) by in_set. rewrite bool_decide_true by done.
      replace (Z.of_nat p + 1) with (Z.of_nat (S p)) by lia. rewrite lex_gt.
      assert (E2 := ldc_ok (S p) s Hs ltac:(lia)). case_decide as Hd.
      * assert (Hlt2 : (S p < length line)%nat). { destruct (decide (S p < length line)%nat); [done|]. by rewrite drop_ge in Hd by lia. }
        destruct (token_end s 43 (Z.of_nat p) (S (S p)) i _ Hs ltac:(lia) eq_refl) as (k & Ek & Hk & Lk).
        eexists. split; [|exists (Z.of_nat p), (Z.of_nat (S (S p))), k; split; [done|]; split; [done|]; split; [|unfold tok_syms; in_set]].
        -- unfold mbind, M_bind in *. rewrite E2, Hd. rewrite bool_decide_true by done. cbn -[left_of skip_white]. by replace (Z.of_nat p + 2) with (Z.of_nat (S (S p))) by lia.
        -- rewrite Lk, drop_drop. do 2 f_equal. lia.
      * destruct (token_end s 62 (Z.of_nat p) (S p) i _ Hs ltac:(lia) eq_refl) as (k & Ek & Hk & Lk).
        eexists. split; [|exists (Z.of_nat p), (Z.of_nat (S p)), k; split; [done|]; split; [done|]; split; [done|unfold tok_syms; in_set]].
        unfold mbind, M_bind in *. rewrite E2. rewrite bool_decide_false by done. cbn -[left_of skip_white]. done.
    + rewrite special_chars by done. rewrite lex_sym by done.
      destruct (token_end s c (Z.of_nat p) (S p) i _ Hs ltac:(lia) eq_refl) as (k & Ek & Hk & Lk).
      eexists. split; [|exists (Z.of_nat p), (Z.of_nat (S p)), k; split; [done|]; split; [done|]; split; [done|by right]].
      unfold mbind, M_bind in *. cbn -[left_of skip_white]. by replace (Z.of_nat p + 1) with (Z.of_nat (S p)) by lia.
  - assert (Hwc : wordc c) by done. rewrite (bool_decide_false (c ∈ _)) by (unfold symbols in Hns; set_solver).
    rewrite (bool_decide_false (c = 62)) by (intros ->; apply Hns; in_set).
    destruct (skip_word_ok s Hs (left_of (Z.of_nat p) es) p p) as (e & He & E & Wd & Ne); [lia|unfold left_of; lia| |].
    { unfold slice. by rewrite Nat.sub_diag. }
    assert (Hpe : (p < e)%nat). { destruct (decide (p = e)) as [<-|]; [|lia]. rewrite Ed in Ne. done. }
    assert (Hne : slice p e ≠ []). { intros Hn%(f_equal length). unfold slice in Hn. rewrite length_take, length_drop in Hn. simpl in Hn. lia. }
    rewrite <-Ed, (slice_drop p e) by lia. rewrite lex_word by done.
    destruct (token_end s 97 (Z.of_nat p) e i _ Hs ltac:(lia) eq_refl) as (k & Ek & Hk & Lk).
    eexists. split; [|exists p, e, k; split; [done|]; split; [done|]; split; [done|]; constructor; try done; lia].
    unfold mbind, M_bind in *. rewrite E. done.
Qed.

(** The character that [peek] sees of a token. *)
Definition first_char (t : tok) : Z := match t with TSym c => if decide (c = 43) then 62 else c | TWord w => hd0 w end.
Definition sees (ts : list tok) (toks : list Z) : bool :=
  match ts with TSym c :: _ => bool_decide (first_char (TSym c) ∈ toks) | _ => false end.

Lemma peek_ok i s toks : has_line s → (i ≤ length line)%nat → toks ⊆ symbols →
  ∃ j, peek (Z.of_nat i) es toks s = Ok ((sees (lex (drop i line)) toks, Z.of_nat j), s) ∧ (i ≤ j ≤ length line)%nat ∧
    lex (drop j line) = lex (drop i line) ∧ (lex (drop i line) = [] ↔ j = length line).
Proof.
  intros Hs Hi Ht. unfold peek. destruct (skip_white_ok s Hs (left_of (Z.of_nat i) es) i) as (p & Hp & E & L & W); [lia|unfold left_of; lia|].
  rewrite (bind_Ok_eq _ _ _ _ _ E), <-L. exists p. rewrite (bind_Ok_eq _ _ _ _ _ (ldc_ok p s Hs ltac:(lia))).
  assert (Hb : bool_decide (hd0 (drop p line) ≠ 0) && strchr_in toks (hd0 (drop p line)) = sees (lex (drop p line)) toks ∧
    (lex (drop p line) = [] ↔ p = length line)).
  2: { destruct Hb as [-> ?]. done. }
  destruct (decide (p = length line)) as [->|Hlt]; [by rewrite drop_all|].
  destruct (drop_cons p ltac:(lia)) as (c & Ed & Hc). rewrite Ed in *. cbn [hd0] in *. rewrite bool_decide_true by done.
  rewrite strchr_in_spec by done. cbn [andb]. destruct (decide (c ∈ symbols)) as [Hsym|Hns].
  - destruct (decide (c = 62)) as [->|Hgt].
    + rewrite lex_gt. case_decide; cbn; (split; [done|split; [discriminate|lia]]).
    + rewrite lex_sym by done. cbn. rewrite decide_False by (intros ->; revert Hsym; change (43 ∉ symbols); in_set). split; [done|split; [discriminate|lia]].
  - unfold lex. cbn [lex_go]. rewrite decide_True by done. rewrite bool_decide_false by (intros H; by apply Hns, Ht).
    assert (Hw : ∀ l a x, ∃ w ts, lex_go (a ++ [x]) l = TWord w :: ts).
    { induction l as [|y l IH]; intros a x; cbn [lex_go]; [destruct a; cbn; by eexists _, _|]. case_decide; [apply IH|].
      destruct a; cbn; by eexists _, _. }
    destruct (Hw (drop (S p) line) [] c) as (w & ts & E2). cbn [app] in E2. cbn [app]. rewrite E2. split; [done|]. split; [discriminate|lia].
Qed.
Lemma peek_not_white i s toks b j s' : has_line s → (i ≤ length line)%nat → peek (Z.of_nat i) es toks s = Ok ((b, Z.of_nat j), s') →
  ¬ white (hd0 (drop j line)).
Proof.
  intros Hs Hi E. destruct (skip_white_ok s Hs (left_of (Z.of_nat i) es) i) as (p & Hp & E1 & _ & W); [lia|unfold left_of; lia|].
  unfold peek in E. rewrite (bind_Ok_eq _ _ _ _ _ E1), (bind_Ok_eq _ _ _ _ _ (ldc_ok p s Hs ltac:(lia))) in E.
  injection E as _ Hj _. by replace j with p by lia.
Qed.
End scan.

(** ** The grammar of command lines

    Commands as trees, the grammar of their token lists, and a parser on tokens
    that decides it: it accepts exactly the derivable lists, and its fuel is
    four steps per token. *)

Abbreviation word := (list Z).
Inductive shcmd :=
  | Exec (args : list word)
  | Redir (c : shcmd) (file : word) (mode fd : Z)
  | Pipe (l r : shcmd)
  | Seq (l r : shcmd)
  | Back (c : shcmd).

(** [<], [>] and [>>]: how the file is opened, and as which descriptor. *)
Definition redir_ops : list Z := [60; 62; 43].
Definition redir_how (op : Z) : Z * Z :=
  if decide (op = 60) then (O_RDONLY, 0)
  else if decide (op = 62) then (Z.lor (Z.lor O_WRONLY O_CREATE) O_TRUNC, 1)
  else (Z.lor O_WRONLY O_CREATE, 1).
Abbreviation rdr := (Z * word)%type.
Definition wrap (c : shcmd) (r : rdr) : shcmd := Redir c r.2 (redir_how r.1).1 (redir_how r.1).2.

(** Arguments and redirections of a simple command, in any order. *)
Inductive item := Arg (w : word) | Rd (r : rdr).
Definition item_toks (i : item) : list tok := match i with Arg w => [TWord w] | Rd r => [TSym r.1; TWord r.2] end.
Definition args_of (l : list item) : list word := omap (λ i, match i with Arg w => Some w | Rd _ => None end) l.
Definition rdrs_of (l : list item) : list rdr := omap (λ i, match i with Arg _ => None | Rd r => Some r end) l.
Definition item_ok (i : item) : Prop := match i with Arg _ => True | Rd r => r.1 ∈ redir_ops end.

Inductive line_of : list tok → shcmd → Prop :=
  | line_one ts c n : pipe_of ts c → line_of (ts ++ replicate n (TSym 38)) (Nat.iter n Back c)
  | line_seq ts c n us d : pipe_of ts c → line_of us d →
      line_of (ts ++ replicate n (TSym 38) ++ TSym 59 :: us) (Seq (Nat.iter n Back c) d)
with pipe_of : list tok → shcmd → Prop :=
  | pipe_one ts c : exec_of ts c → pipe_of ts c
  | pipe_more ts c us d : exec_of ts c → pipe_of us d → pipe_of (ts ++ TSym 124 :: us) (Pipe c d)
with exec_of : list tok → shcmd → Prop :=
  | exec_simple l : Forall item_ok l → (length (args_of l) < MAXARGS)%nat →
      exec_of (l ≫= item_toks) (foldl wrap (Exec (args_of l)) (rdrs_of l))
  | exec_block ts c rs : line_of ts c → Forall (λ r : rdr, r.1 ∈ redir_ops) rs →
      exec_of (TSym 40 :: ts ++ TSym 41 :: (rs ≫= λ r, item_toks (Rd r))) (foldl wrap c rs).
Scheme line_of_mut := Induction for line_of Sort Prop
  with pipe_of_mut := Induction for pipe_of Sort Prop
  with exec_of_mut := Induction for exec_of Sort Prop.
Combined Scheme grammar_ind from line_of_mut, pipe_of_mut, exec_of_mut.

(** ** The parser on tokens *)

Fixpoint t_redirs (ts : list tok) : res (list rdr * list tok) :=
  match ts with
  | TSym op :: ts' =>
      if decide (op ∈ redir_ops) then
        match ts' with
        | TWord w :: ts'' => '(rs, r) ← t_redirs ts''; Ok ((op, w) :: rs, r)
        | _ => Panic "missing file for redirection"
        end
      else Ok ([], ts)
  | _ => Ok ([], ts)
  end.

(** The items after [n] arguments. *)
Definition cmd_ends : list Z := [124; 41; 38; 59].
Fixpoint t_items (n : nat) (ts : list tok) : res (list item * list tok) :=
  match ts with
  | [] => Ok ([], [])
  | TWord w :: ts' =>
      if decide (MAXARGS ≤ S n)%nat then Panic "too many args"
      else '(l, r) ← t_items (S n) ts'; Ok (Arg w :: l, r)
  | TSym op :: ts' =>
      if decide (op ∈ redir_ops) then
        match ts' with
        | TWord w :: ts'' => '(l, r) ← t_items n ts''; Ok (Rd (op, w) :: l, r)
        | _ => Panic "missing file for redirection"
        end
      else if decide (op ∈ cmd_ends) then Ok ([], ts)
      else Panic "syntax"
  end.
Fixpoint t_backs (c : shcmd) (ts : list tok) : shcmd * list tok :=
  match ts with
  | TSym op :: ts' => if decide (op = 38) then t_backs (Back c) ts' else (c, ts)
  | _ => (c, ts)
  end.
(** The rest after symbol [op], when it is next. *)
Definition t_sym (op : Z) (ts : list tok) : option (list tok) :=
  match ts with TSym c :: ts' => if decide (c = op) then Some ts' else None | _ => None end.

Fixpoint t_line (fuel : nat) (ts : list tok) : res (shcmd * list tok) :=
  match fuel with
  | O => Hang
  | S fuel =>
      '(c, ts) ← t_pipe fuel ts;
      let '(c, ts) := t_backs c ts in
      match t_sym 59 ts with
      | Some ts => '(d, ts) ← t_line fuel ts; Ok (Seq c d, ts)
      | None => Ok (c, ts)
      end
  end
with t_pipe (fuel : nat) (ts : list tok) : res (shcmd * list tok) :=
  match fuel with
  | O => Hang
  | S fuel =>
      '(c, ts) ← t_exec fuel ts;
      match t_sym 124 ts with
      | Some ts => '(d, ts) ← t_pipe fuel ts; Ok (Pipe c d, ts)
      | None => Ok (c, ts)
      end
  end
with t_block (fuel : nat) (ts : list tok) : res (shcmd * list tok) :=
  match fuel with
  | O => Hang
  | S fuel =>
      match t_sym 40 ts with
      | None => Panic "parseblock"
      | Some ts =>
          '(c, ts) ← t_line fuel ts;
          match t_sym 41 ts with
          | None => Panic "syntax - missing )"
          | Some ts => '(rs, ts) ← t_redirs ts; Ok (foldl wrap c rs, ts)
          end
      end
  end
with t_exec (fuel : nat) (ts : list tok) : res (shcmd * list tok) :=
  match fuel with
  | O => Hang
  | S fuel =>
      match t_sym 40 ts with
      | Some _ => t_block fuel ts
      | None => '(l, ts) ← t_items 0 ts; Ok (foldl wrap (Exec (args_of l)) (rdrs_of l), ts)
      end
  end.

(** ** Soundness: what was parsed, and the rest *)

Lemma t_sym_Some op ts us : t_sym op ts = Some us → ts = TSym op :: us.
Proof. destruct ts as [|[w|c] ts]; try done. cbn. case_decide as H; [|done]. intros [= ->]. by rewrite H. Qed.
Lemma t_sym_cons op ts : t_sym op (TSym op :: ts) = Some ts.
Proof. cbn. by rewrite decide_True. Qed.

Lemma res_bind_Ok {A B} (m : res A) (f : A → res B) b : m ≫= f = Ok b → ∃ a, m = Ok a ∧ f a = Ok b.
Proof. destruct m; try (intros H; discriminate H). intros H. by eexists. Qed.

Lemma t_redirs_sound : ∀ n ts rs r, (length ts ≤ n)%nat → t_redirs ts = Ok (rs, r) →
  ts = (rs ≫= λ x, item_toks (Rd x)) ++ r ∧ Forall (λ x : rdr, x.1 ∈ redir_ops) rs.
Proof.
  induction n as [|n IH]; intros ts rs r Hn E.
  { destruct ts; [|simpl in Hn; lia]. injection E as <- <-. done. }
  destruct ts as [|[w|op] ts]; cbn [t_redirs] in E; [injection E as <- <-; done..|].
  case_decide as Hop; [|injection E as <- <-; done]. destruct ts as [|[w|o] ts]; [discriminate E| |discriminate E].
  apply res_bind_Ok in E as ([rs' r'] & E1 & E2). injection E2 as <- <-. apply IH in E1 as [-> HF]; [|simpl in Hn; lia].
  split; [done|]. by constructor.
Qed.

Lemma t_items_sound : ∀ k n ts l r, (length ts ≤ k)%nat → t_items n ts = Ok (l, r) →
  ts = (l ≫= item_toks) ++ r ∧ Forall item_ok l ∧ ((n < MAXARGS)%nat → (n + length (args_of l) < MAXARGS)%nat).
Proof.
  induction k as [|k IH]; intros n ts l r Hk E.
  { destruct ts; [|simpl in Hk; lia]. injection E as <- <-. split; [done|]. split; [done|]. cbn. lia. }
  destruct ts as [|[w|op] ts]; cbn [t_items] in E.
  - injection E as <- <-. split; [done|]. split; [done|]. cbn. lia.
  - case_decide as Hm; [discriminate E|]. apply res_bind_Ok in E as ([l' r'] & E1 & E2). injection E2 as <- <-.
    apply IH in E1 as (-> & HF & Hlt); [|simpl in Hk; lia]. split; [done|]. split; [by constructor|]. intros Hn. cbn. specialize (Hlt ltac:(lia)).
    unfold args_of in Hlt. lia.
  - case_decide as Hop.
    + destruct ts as [|[w|o] ts]; [discriminate E| |discriminate E].
      apply res_bind_Ok in E as ([l' r'] & E1 & E2). injection E2 as <- <-. apply IH in E1 as (-> & HF & Hlt); [|simpl in Hk; lia].
      split; [done|]. split; [by constructor|]. done.
    + case_decide; [|discriminate E]. injection E as <- <-. split; [done|]. split; [done|]. cbn. lia.
Qed.

Lemma t_backs_sound : ∀ ts c d r, t_backs c ts = (d, r) →
  ∃ n, ts = replicate n (TSym 38) ++ r ∧ d = Nat.iter n Back c.
Proof.
  induction ts as [|[w|op] ts IH]; intros c d r E; cbn [t_backs] in E; [injection E as <- <-; by exists O..|].
  case_decide as Hop; [|injection E as <- <-; by exists O]. subst op. apply IH in E as (n & -> & ->). exists (S n). split; [done|].
  by rewrite Nat.iter_succ_r.
Qed.

Lemma t_sound : ∀ f,
  (∀ ts c r, t_line f ts = Ok (c, r) → ∃ us, ts = us ++ r ∧ line_of us c) ∧
  (∀ ts c r, t_pipe f ts = Ok (c, r) → ∃ us, ts = us ++ r ∧ pipe_of us c) ∧
  (∀ ts c r, t_block f ts = Ok (c, r) → ∃ us, ts = us ++ r ∧ exec_of us c) ∧
  (∀ ts c r, t_exec f ts = Ok (c, r) → ∃ us, ts = us ++ r ∧ exec_of us c).
Proof.
  induction f as [|f (IHl & IHp & IHb & IHe)]; [split; [|split; [|split]]; intros ts c r E; discriminate E|]. split; [|split; [|split]]; intros ts c r E.
  - cbn [t_line] in E. apply res_bind_Ok in E as ([c1 ts1] & E1 & E). apply IHp in E1 as (us & -> & Hu).
    destruct (t_backs c1 ts1) as [c2 ts2] eqn:Eb. apply t_backs_sound in Eb as (n & -> & ->).
    destruct (t_sym 59 ts2) as [ts3|] eqn:Es.
    + apply t_sym_Some in Es as ->. apply res_bind_Ok in E as ([d ts4] & E1 & E). injection E as <- <-.
      apply IHl in E1 as (vs & -> & Hv). eexists. split; [|by apply (line_seq us c1 n vs d)]. by rewrite <-!app_assoc.
    + injection E as <- <-. eexists. split; [|by apply (line_one us c1 n)]. by rewrite <-app_assoc.
  - cbn [t_pipe] in E. apply res_bind_Ok in E as ([c1 ts1] & E1 & E). apply IHe in E1 as (us & -> & Hu).
    destruct (t_sym 124 ts1) as [ts3|] eqn:Es.
    + apply t_sym_Some in Es as ->. apply res_bind_Ok in E as ([d ts4] & E1 & E). injection E as <- <-.
      apply IHp in E1 as (vs & -> & Hv). eexists. split; [|by apply (pipe_more us c1 vs d)]. by rewrite <-!app_assoc.
    + injection E as <- <-. eexists. split; [done|]. by constructor.
  - cbn [t_block] in E. destruct (t_sym 40 ts) as [ts1|] eqn:Es; [|discriminate E]. apply t_sym_Some in Es as ->.
    apply res_bind_Ok in E as ([c1 ts2] & E1 & E). apply IHl in E1 as (us & -> & Hu).
    destruct (t_sym 41 ts2) as [ts3|] eqn:Es; [|discriminate E]. apply t_sym_Some in Es as ->.
    apply res_bind_Ok in E as ([rs ts4] & E1 & E). injection E as <- <-. apply (t_redirs_sound _ _ _ _ (Nat.le_refl _)) in E1 as [-> HF].
    eexists. split; [|by apply (exec_block us c1 rs)]. simpl. by rewrite <-!app_assoc.
  - cbn [t_exec] in E. destruct (t_sym 40 ts) as [ts1|] eqn:Es; [by apply IHb|].
    apply res_bind_Ok in E as ([l ts2] & E1 & E). injection E as <- <-. apply (t_items_sound _ _ _ _ _ (Nat.le_refl _)) in E1 as (-> & HF & Hlt).
    eexists. split; [done|]. apply exec_simple; [done|]. specialize (Hlt ltac:(unfold MAXARGS; lia)). lia.
Qed.

(** ** Completeness: a derivation is followed when the rest starts right *)

Definition stops (set : list Z) (r : list tok) : Prop :=
  match r with [] => True | TSym c :: _ => c ∈ set | TWord _ :: _ => False end.

Lemma t_redirs_rest r : (match r with TSym c :: _ => c ∉ redir_ops | _ => True end) → t_redirs r = Ok ([], r).
Proof. destruct r as [|[w|c] r]; [done..|]. intros H. cbn [t_redirs]. by rewrite decide_False. Qed.
Lemma t_redirs_complete rs r : Forall (λ x : rdr, x.1 ∈ redir_ops) rs → (match r with TSym c :: _ => c ∉ redir_ops | _ => True end) →
  t_redirs ((rs ≫= λ x, item_toks (Rd x)) ++ r) = Ok (rs, r).
Proof.
  intros HF Hr. induction HF as [|[op w] rs Hop _ IH]; [by apply t_redirs_rest|]. cbn [mbind list_bind item_toks app fst snd] in *.
  cbn [t_redirs]. rewrite decide_True by done. cbn [mbind list_bind] in IH. by rewrite IH.
Qed.

Lemma t_items_complete l : ∀ n r, Forall item_ok l → (n + length (args_of l) < MAXARGS)%nat → stops cmd_ends r →
  t_items n ((l ≫= item_toks) ++ r) = Ok (l, r).
Proof.
  induction l as [|[w|[op w]] l IH]; intros n r HF Hlt Hr.
  - destruct r as [|[w|c] r]; [done..|]. cbn -[decide]. rewrite decide_False, decide_True; [done|done|].
    simpl in Hr. intros H. unfold redir_ops, cmd_ends in *. set_unfold. lia.
  - apply Forall_cons in HF as [_ HF]. change (args_of (Arg w :: l)) with (w :: args_of l) in Hlt. simpl length in Hlt.
    cbn [mbind list_bind item_toks app t_items] in *. rewrite decide_False by lia. rewrite IH by (done || lia). done.
  - apply Forall_cons in HF as [Hop HF]. change (args_of (Rd (op, w) :: l)) with (args_of l) in Hlt.
    cbn [mbind list_bind item_toks app t_items fst snd] in *. rewrite decide_True by done. rewrite IH by (done || lia). done.
Qed.

Lemma t_backs_complete n : ∀ c r, (match r with TSym x :: _ => x ≠ 38 | _ => True end) →
  t_backs c (replicate n (TSym 38) ++ r) = (Nat.iter n Back c, r).
Proof.
  induction n as [|n IH]; intros c r Hr.
  - destruct r as [|[w|x] r]; [done..|]. cbn. by rewrite decide_False.
  - cbn [replicate app t_backs]. rewrite decide_True by done. rewrite IH by done. by rewrite Nat.iter_succ_r.
Qed.
Lemma t_sym_stops op set r : stops set r → op ∉ set → t_sym op r = None.
Proof. intros Hs Ho. destruct r as [|[w|c] r]; [done..|]. cbn. rewrite decide_False; [done|]. intros ->. done. Qed.
Lemma stops_weaken a b r : a ⊆ b → stops a r → stops b r.
Proof. intros H. destruct r as [|[w|c] r]; [done..|]. simpl. apply H. Qed.

(** Either the fuel runs out or the derivation comes back. *)
Definition follows (f : nat → list tok → res (shcmd * list tok)) (ts : list tok) (c : shcmd) (r : list tok) : Prop :=
  ∀ n, f n (ts ++ r) = Hang ∨ f n (ts ++ r) = Ok (c, r).

Lemma t_complete :
  (∀ ts c, line_of ts c → ∀ r, stops [41] r → follows t_line ts c r) ∧
  (∀ ts c, pipe_of ts c → ∀ r, stops [41; 38; 59] r → follows t_pipe ts c r) ∧
  (∀ ts c, exec_of ts c → ∀ r, stops cmd_ends r → follows t_exec ts c r).
Proof.
  assert (Hset : ∀ a b : list Z, bool_decide (a ⊆ b) = true → a ⊆ b) by (intros a b; apply bool_decide_eq_true_1).
  apply grammar_ind.
  - intros ts c n _ IH r Hr [|f]; [by left|]. cbn [t_line]. rewrite <-app_assoc.
    destruct (IH (replicate n (TSym 38) ++ r)) with (n := f) as [->| ->]; [|by left|].
    { destruct n; [|simpl; in_set]. simpl. revert Hr. apply stops_weaken. by apply Hset. }
    right. cbn [mbind res_bind]. rewrite t_backs_complete.
    + rewrite (t_sym_stops 59 [41]) by (done || in_set). done.
    + destruct r as [|[w|x] r]; [done..|]. simpl in Hr. intros ->. revert Hr. change (38 ∉ [41]). in_set.
  - intros ts c n us d _ IH _ IH2 r Hr [|f]; [by left|]. cbn [t_line]. rewrite <-!app_assoc.
    destruct (IH (replicate n (TSym 38) ++ (TSym 59 :: us) ++ r)) with (n := f) as [->| ->]; [|by left|].
    { destruct n; simpl; in_set. }
    cbn [mbind res_bind]. rewrite t_backs_complete by done. cbn [app]. rewrite t_sym_cons.
    destruct (IH2 r Hr f) as [->| ->]; [by left|by right].
  - intros ts c _ IH r Hr [|f]; [by left|]. cbn [t_pipe].
    destruct (IH r) with (n := f) as [->| ->]; [revert Hr; apply stops_weaken; by apply Hset|by left|].
    right. cbn [mbind res_bind]. rewrite (t_sym_stops 124 [41; 38; 59]) by (done || in_set). done.
  - intros ts c us d _ IH _ IH2 r Hr [|f]; [by left|]. cbn [t_pipe]. rewrite <-app_assoc.
    destruct (IH ((TSym 124 :: us) ++ r)) with (n := f) as [->| ->]; [simpl; in_set|by left|].
    cbn [mbind res_bind app]. rewrite t_sym_cons. destruct (IH2 r Hr f) as [->| ->]; [by left|by right].
  - intros l HF Hlt r Hr [|f]; [by left|]. right. cbn [t_exec].
    assert (t_sym 40 ((l ≫= item_toks) ++ r) = None) as ->.
    { destruct l as [|[w|[op w]] l]; [cbn; apply (t_sym_stops 40 cmd_ends); [done|in_set]|done|].
      apply Forall_cons in HF as [Hop _]. cbn. rewrite decide_False; [done|]. intros ->. revert Hop. change (40 ∉ redir_ops). in_set. }
    rewrite t_items_complete by done. done.
  - intros ts c rs _ IH HF r Hr [|[|f]]; [by left..|]. cbn [t_exec t_block app]. rewrite t_sym_cons. rewrite <-app_assoc.
    destruct (IH ((TSym 41 :: (rs ≫= λ x, item_toks (Rd x))) ++ r)) with (n := f) as [->| ->]; [simpl; in_set|by left|].
    right. cbn [mbind res_bind app]. rewrite t_sym_cons. cbn [mbind list_bind]. rewrite t_redirs_complete; [done|done|].
    destruct r as [|[w|x] r]; [done..|]. simpl in Hr. intros H. unfold redir_ops, cmd_ends in *. set_unfold. lia.
Qed.

(** ** Termination *)

Lemma res_bind_Hang {A B} (m : res A) (f : A → res B) : m ≫= f = Hang → m = Hang ∨ ∃ a, m = Ok a ∧ f a = Hang.
Proof. destruct m; try (intros H; discriminate H); [right; by eexists|by left]. Qed.

Lemma t_redirs_halts : ∀ n ts, (length ts ≤ n)%nat → t_redirs ts ≠ Hang ∧ t_redirs ts ≠ Fault.
Proof.
  induction n as [|n IH]; intros ts Hn; (destruct ts as [|[w|op] ts]; [done..|]); [simpl in Hn; lia|].
  cbn [t_redirs]. case_decide; [|done]. destruct ts as [|[w|o] ts]; [done| |done].
  destruct (IH ts) as [H1 H2]; [simpl in Hn; lia|]. destruct (t_redirs ts) as [[]| | |]; done.
Qed.
Lemma t_items_halts : ∀ k n ts, (length ts ≤ k)%nat → t_items n ts ≠ Hang ∧ t_items n ts ≠ Fault.
Proof.
  induction k as [|k IH]; intros n ts Hn; (destruct ts as [|[w|op] ts]; [done|..]); try (simpl in Hn; lia); cbn [t_items].
  - case_decide; [done|]. destruct (IH (S n) ts) as [H1 H2]; [simpl in Hn; lia|]. destruct (t_items (S n) ts) as [[]| | |]; done.
  - case_decide; [|by case_decide]. destruct ts as [|[w|o] ts]; [done| |done].
    destruct (IH n ts) as [H1 H2]; [simpl in Hn; lia|]. destruct (t_items n ts) as [[]| | |]; done.
Qed.

Lemma t_halts : ∀ f,
  (∀ ts, (4 * length ts + 4 ≤ f)%nat → t_line f ts ≠ Hang) ∧
  (∀ ts, (4 * length ts + 3 ≤ f)%nat → t_pipe f ts ≠ Hang) ∧
  (∀ ts, (4 * length ts + 1 ≤ f)%nat → t_block f ts ≠ Hang) ∧
  (∀ ts, (4 * length ts + 2 ≤ f)%nat → t_exec f ts ≠ Hang).
Proof.
  induction f as [|f (IHl & IHp & IHb & IHe)]; [split; [|split; [|split]]; intros; lia|].
  destruct (t_sound f) as (Sl & Sp & _ & Se). split; [|split; [|split]]; intros ts Hf E.
  - cbn [t_line] in E. apply res_bind_Hang in E as [E|([c ts1] & E1 & E)]; [by eapply IHp; [|exact E]; lia|].
    apply Sp in E1 as (us & -> & _). destruct (t_backs c ts1) as [c2 ts2] eqn:Eb. apply t_backs_sound in Eb as (n & -> & _).
    destruct (t_sym 59 ts2) as [ts3|] eqn:Es; [|discriminate E]. apply t_sym_Some in Es as ->.
    apply res_bind_Hang in E as [E|([] & E1 & E)]; [|discriminate E]. eapply IHl; [|exact E].
    rewrite !length_app in Hf. simpl in Hf. lia.
  - cbn [t_pipe] in E. apply res_bind_Hang in E as [E|([c ts1] & E1 & E)]; [by eapply IHe; [|exact E]; lia|].
    apply Se in E1 as (us & -> & _). destruct (t_sym 124 ts1) as [ts3|] eqn:Es; [|discriminate E]. apply t_sym_Some in Es as ->.
    apply res_bind_Hang in E as [E|([] & E1 & E)]; [|discriminate E]. eapply IHp; [|exact E].
    rewrite !length_app in Hf. simpl in Hf. lia.
  - cbn [t_block] in E. destruct (t_sym 40 ts) as [ts1|] eqn:Es; [|discriminate E]. apply t_sym_Some in Es as ->.
    apply res_bind_Hang in E as [E|([c ts2] & E1 & E)]; [eapply IHl; [|exact E]; simpl in Hf; lia|].
    destruct (t_sym 41 ts2) as [ts3|]; [|discriminate E]. apply res_bind_Hang in E as [E|([] & _ & E)]; [|discriminate E].
    by destruct (t_redirs_halts _ ts3 (Nat.le_refl _)).
  - cbn [t_exec] in E. destruct (t_sym 40 ts) as [ts1|] eqn:Es; [by eapply IHb; [|exact E]; lia|].
    apply res_bind_Hang in E as [E|([] & _ & E)]; [|discriminate E]. by destruct (t_items_halts _ 0%nat ts (Nat.le_refl _)).
Qed.

(** ** Items after redirections *)

Lemma t_redirs_again ts rs r : t_redirs ts = Ok (rs, r) → t_redirs r = Ok ([], r).
Proof.
  revert rs r. assert (H : ∀ n ts, (length ts ≤ n)%nat → ∀ rs r, t_redirs ts = Ok (rs, r) → t_redirs r = Ok ([], r)); [|by eapply H].
  clear ts. induction n as [|n IH]; intros ts Hn rs r E; (destruct ts as [|[w|op] ts]; [by injection E as <- <-|..]); try (simpl in Hn; lia).
  - by injection E as <- <-.
  - cbn [t_redirs] in E. case_decide as Hop; [|injection E as <- <-; by apply t_redirs_rest].
    destruct ts as [|[w|o] ts]; [discriminate E| |discriminate E]. apply res_bind_Ok in E as ([rs' r'] & E1 & E2). injection E2 as <- <-.
    eapply IH; [|exact E1]. simpl in Hn. lia.
Qed.

Lemma t_items_redirs n : ∀ k ts, (length ts ≤ k)%nat →
  t_items n ts = ('(rs, r) ← t_redirs ts; '(l, r') ← t_items n r; Ok ((Rd <$> rs) ++ l, r')).
Proof.
  assert (Hid : ∀ o : res (list item * list tok), o = ('(l, r') ← o; Ok (l, r'))) by (by intros [[]| | |]).
  induction k as [|k IH]; intros ts Hn; (destruct ts as [|[w|op] ts]; [done|..]); try (simpl in Hn; lia).
  - cbn [t_redirs mbind res_bind app fmap list_fmap]. apply Hid.
  - cbn [t_redirs]. case_decide as Hop; [|cbn [mbind res_bind app fmap list_fmap]; apply Hid].
    cbn [t_items]. rewrite decide_True by done. destruct ts as [|[w|o] ts]; [done| |done].
    rewrite IH by (simpl in Hn; lia). destruct (t_redirs ts) as [[rs r]| | |]; [|done..]. cbn [mbind res_bind].
    by destruct (t_items n r) as [[]| | |].
Qed.
Lemma args_of_redirs rs l : args_of ((Rd <$> rs) ++ l) = args_of l.
Proof. by induction rs. Qed.
Lemma rdrs_of_redirs rs l : rdrs_of ((Rd <$> rs) ++ l) = rs ++ rdrs_of l.
Proof. induction rs as [|r rs IH]; [done|]. cbn. f_equal. exact IH. Qed.

(** Nothing is put back. *)
Lemma t_redirs_length ts rs r : t_redirs ts = Ok (rs, r) → (length r ≤ length ts)%nat.
Proof. intros H. apply (t_redirs_sound _ _ _ _ (Nat.le_refl _)) in H as [-> _]. rewrite length_app. lia. Qed.
Lemma t_items_length n ts l r : t_items n ts = Ok (l, r) → (length r ≤ length ts)%nat.
Proof. intros H. apply (t_items_sound _ _ _ _ _ (Nat.le_refl _)) in H as (-> & _ & _). rewrite length_app. lia. Qed.
Lemma t_line_length f ts c r : t_line f ts = Ok (c, r) → (length r ≤ length ts)%nat.
Proof. intros H. apply t_sound in H as (us & -> & _). rewrite length_app. lia. Qed.
Lemma t_pipe_length f ts c r : t_pipe f ts = Ok (c, r) → (length r ≤ length ts)%nat.
Proof. intros H. apply t_sound in H as (us & -> & _). rewrite length_app. lia. Qed.
Lemma t_exec_length f ts c r : t_exec f ts = Ok (c, r) → (length r ≤ length ts)%nat.
Proof. intros H. apply t_sound in H as (us & -> & _). rewrite length_app. lia. Qed.
Lemma t_backs_length ts c d r : t_backs c ts = (d, r) → (length r ≤ length ts)%nat.
Proof. intros H. apply t_backs_sound in H as (n & -> & _). rewrite length_app. lia. Qed.
