(* ===== verification/ShParse.v ===== *)
(** * The shell's parser follows the grammar

    Each function of the parser does on the buffer what its counterpart of
    ShGrammar.v does on the tokens, and the nodes it allocates form the tree. *)
From S2P Require Import Ulib Prelude Sh ShGrammar.

(** ** Nodes as trees *)

(** The ten slots of an argument array. *)
Definition slots (ps : list nat) : list (option Z) := ((λ q, Some (Z.of_nat q)) <$> ps) ++ replicate (MAXARGS - length ps) None.
Definition arg_node (ws : list (nat * nat)) : node := EXEC (slots (ws.*1)) (slots (ws.*2)).

Section parse.
Context (line rest : list Z) (Hline : Forall (λ c : Z, c ≠ 0) line).
Local Abbreviation es := (Z.of_nat (length line)).
Local Abbreviation word_at := (word_at line).
Local Abbreviation has_line := (has_line line rest).
Definition is_word (p : nat * nat) (w : word) : Prop := word_at p.1 p.2 w.

Fixpoint tree (H : list node) (c : shcmd) (p : nat) : Prop :=
  match c with
  | Exec args => ∃ ws, H !! p = Some (arg_node ws) ∧ Forall2 is_word ws args ∧ (length args < MAXARGS)%nat
  | Redir c f mode fd => ∃ p' q e, H !! p = Some (REDIR p' (Z.of_nat q) (Z.of_nat e) mode fd) ∧ word_at q e f ∧ (p' < p)%nat ∧ tree H c p'
  | Pipe c d => ∃ l r, H !! p = Some (PIPE l r) ∧ (l < p)%nat ∧ (r < p)%nat ∧ tree H c l ∧ tree H d r
  | Seq c d => ∃ l r, H !! p = Some (LIST l r) ∧ (l < p)%nat ∧ (r < p)%nat ∧ tree H c l ∧ tree H d r
  | Back c => ∃ p', H !! p = Some (BACK p') ∧ (p' < p)%nat ∧ tree H c p'
  end.

(** Redirections around node [p0]. *)
Inductive chain (H : list node) (p0 : nat) : list rdr → nat → Prop :=
  | chain_nil : chain H p0 [] p0
  | chain_snoc rs r p p' q e : chain H p0 rs p' → (p' < p)%nat →
      H !! p = Some (REDIR p' (Z.of_nat q) (Z.of_nat e) (redir_how r.1).1 (redir_how r.1).2) → word_at q e r.2 →
      chain H p0 (rs ++ [r]) p.

Lemma tree_prefix H H' c p : H `prefix_of` H' → tree H c p → tree H' c p.
Proof.
  intros [k ->]. revert p. assert (Hl : ∀ p n, H !! p = Some n → (H ++ k) !! p = Some n) by (intros; by apply lookup_app_l_Some).
  induction c as [args|c IH f m fd|c1 IH1 c2 IH2|c1 IH1 c2 IH2|c IH]; intros p; cbn [tree].
  - intros (ws & ? & ? & ?). eexists. split; [by apply Hl|]. done.
  - intros (p' & q & e & ? & ? & ? & ?). eexists _, _, _. split; [by apply Hl|]. split; [done|]. split; [done|]. by apply IH.
  - intros (l & r & ? & ? & ? & ? & ?). eexists _, _. split; [by apply Hl|]. split; [done|]. split; [done|]. split; [by apply IH1|by apply IH2].
  - intros (l & r & ? & ? & ? & ? & ?). eexists _, _. split; [by apply Hl|]. split; [done|]. split; [done|]. split; [by apply IH1|by apply IH2].
  - intros (p' & ? & ? & ?). eexists. split; [by apply Hl|]. split; [done|]. by apply IH.
Qed.

Lemma chain_prefix H H' p0 rs p : H `prefix_of` H' → chain H p0 rs p → chain H' p0 rs p.
Proof. intros [k ->] Hc. induction Hc; [constructor|]. eapply chain_snoc; eauto using lookup_app_l_Some. Qed.
Lemma chain_ge H p0 rs p : chain H p0 rs p → (p0 ≤ p)%nat.
Proof. induction 1; lia. Qed.
(** The arguments may change below the redirections. *)
Lemma chain_insert H p0 n rs p : chain H p0 rs p → chain (<[p0 := n]> H) p0 rs p.
Proof.
  induction 1 as [|rs r p p' q e Hc IH Hlt Hn Hw]; [constructor|]. eapply chain_snoc; [done|done| |done].
  apply chain_ge in Hc. by rewrite list_lookup_insert_ne by lia.
Qed.
Lemma chain_tree H p0 rs p c : chain H p0 rs p → tree H c p0 → tree H (foldl wrap c rs) p.
Proof.
  intros Hc Ht. induction Hc as [|rs r p p' q e Hc IH Hlt Hn Hw]; [done|]. rewrite foldl_app. cbn. eexists _, _, _. done.
Qed.

(** ** Steps *)

Lemma bind_Panic_eq {A C} (m : M shell A) (f : A → M shell C) s e : m s = Panic e → (m ≫= f) s = Panic e.
Proof. intros H. unfold mbind, M_bind. by rewrite H. Qed.


(** A later state of the parser. *)
Definition ext (s s' : shell) : Prop := sh_buf s' = sh_buf s ∧ sh_err s' = sh_err s ∧ sh_nodes s `prefix_of` sh_nodes s'.
#[local] Instance ext_preorder : PreOrder ext.
Proof.
  split; [by intros s|]. intros s1 s2 s3 (A & B & C) (A' & B' & C'). split; [congruence|]. split; [congruence|]. by etrans.
Qed.
Lemma ext_line s s' : ext s s' → has_line s → has_line s'.
Proof. intros (E & _) H. unfold has_line, ShGrammar.has_line in *. congruence. Qed.

Definition alloc (n : node) (s : shell) : shell := mksh (sh_buf s) (sh_nodes s ++ [n]) (sh_room s - 1) (sh_err s).
Lemma new_node_ok n s : (0 < sh_room s)%nat → new_node n s = Ok (length (sh_nodes s), alloc n s).
Proof. intros H. unfold new_node, alloc. destruct (sh_room s) as [|r]; [lia|]. do 2 f_equal. f_equal. lia. Qed.
Lemma alloc_ext n s : ext s (alloc n s).
Proof. split; [done|]. split; [done|]. by apply prefix_app_r. Qed.
Lemma alloc_lookup n s : sh_nodes (alloc n s) !! length (sh_nodes s) = Some n.
Proof. cbn. rewrite lookup_app_r, Nat.sub_diag by done. done. Qed.
Lemma length_alloc n s : length (sh_nodes (alloc n s)) = S (length (sh_nodes s)).
Proof. cbn. rewrite length_app. simpl. lia. Qed.

Lemma left_ok i k : (i ≤ k ≤ length line)%nat → (length line - k < left_of (Z.of_nat i) es)%nat.
Proof. unfold left_of. lia. Qed.

Lemma sees_one op ts : op ∈ symbols → op ≠ 62 → sees ts [op] = match t_sym op ts with Some _ => true | None => false end.
Proof.
  intros Ho H62. destruct ts as [|[w|c] ts]; [done..|]. unfold sees, first_char, t_sym. case_decide as H; [|].
  - subst c. rewrite bool_decide_false by set_solver. rewrite decide_False; [done|]. intros <-. revert Ho. change (43 ∉ symbols). in_set.
  - case_decide; [apply bool_decide_true; set_solver|apply bool_decide_false; set_solver].
Qed.

Lemma sees_redir op ts : sees (TSym op :: ts) [60; 62] = bool_decide (op ∈ redir_ops).
Proof.
  unfold sees, first_char. apply bool_decide_ext. unfold redir_ops. case_decide as H; [subst op; split; intros _; in_set|]. set_solver.
Qed.

(** A symbol that was peeked at is read. *)
Lemma next_sym i s op ts : has_line s → (i ≤ length line)%nat → lex (drop i line) = TSym op :: ts →
  ∃ q e j, gettoken (Z.of_nat i) es s = Ok ((op, q, e, Z.of_nat j), s) ∧ (i < j ≤ length line)%nat ∧ lex (drop j line) = ts ∧ op ∈ tok_syms.
Proof.
  intros Hs Hi Hl. destruct (gettoken_ok line rest Hline i s Hs Hi) as (r & E & Hr). rewrite Hl in Hr.
  destruct Hr as (q & e & j & -> & ?). by exists q, e, j.
Qed.

(** What a parsing function returns, from position [i]: [R] holds of the result. *)
Definition parsed {A} (i : nat) (s : shell) (ts' : list tok) (o : res (A * Z * shell)) (R : A → shell → Prop) : Prop :=
  ∃ a j s', o = Ok (a, Z.of_nat j, s') ∧ (i ≤ j ≤ length line)%nat ∧ lex (drop j line) = ts' ∧ ext s s' ∧ R a s'.

Lemma parseredirs_ok p0 : ∀ fuel i s cmd rs0, has_line s → (i ≤ length line)%nat → (length line - i < fuel)%nat →
  chain (sh_nodes s) p0 rs0 cmd → (cmd < length (sh_nodes s))%nat → (length (lex (drop i line)) ≤ sh_room s)%nat →
  match t_redirs (lex (drop i line)) with
  | Ok (rs, ts') => parsed i s ts' (parseredirs fuel cmd (Z.of_nat i) es s) (λ p s',
      chain (sh_nodes s') p0 (rs0 ++ rs) p ∧ (p < length (sh_nodes s'))%nat ∧ (sh_room s + length ts' ≤ sh_room s' + length (lex (drop i line)))%nat)
  | Panic e => parseredirs fuel cmd (Z.of_nat i) es s = Panic e
  | _ => False
  end.
Proof.
  induction fuel as [|fuel IH]; intros i s cmd rs0 Hs Hi Hf Hc Hp Hroom; [lia|]. cbn [parseredirs].
  destruct (peek_ok line rest Hline i s [60; 62] Hs Hi) as (j & Ej & Hj & Lj & _); [in_set|].
  rewrite (bind_Ok_eq _ _ _ _ _ Ej). clear Ej.
  assert (Hstop : sees (lex (drop i line)) [60; 62] = false → parsed i s (lex (drop i line)) (Ok (cmd, Z.of_nat j, s)) (λ p s',
      chain (sh_nodes s') p0 (rs0 ++ []) p ∧ (p < length (sh_nodes s'))%nat ∧ (sh_room s + length (lex (drop i line)) ≤ sh_room s' + length (lex (drop i line)))%nat)).
  { intros _. exists cmd, j, s. rewrite app_nil_r. repeat (split; [done|]). lia. }
  destruct (lex (drop i line)) as [|[w|op] ts] eqn:L; cbn [t_redirs]; [apply Hstop; done..|].
  rewrite sees_redir in *. case_decide as Hop; [|rewrite bool_decide_false in * by done; by apply Hstop].
  rewrite bool_decide_true by done. clear Hstop.
  destruct (next_sym j s op ts Hs ltac:(lia) Lj) as (q1 & e1 & j1 & E1 & Hj1 & L1 & _). rewrite (bind_Ok_eq _ _ _ _ _ E1). clear E1.
  destruct (gettoken_ok line rest Hline j1 s Hs ltac:(lia)) as (r & E2 & Hr). rewrite (bind_Ok_eq _ _ _ _ _ E2), L1 in *. clear E2.
  destruct ts as [|[w|op2] ts]; cbn [token_result] in Hr.
  - destruct Hr as (q & e & ->). by rewrite bool_decide_true.
  - destruct Hr as (q & e & j2 & -> & Hj2 & L2 & Hw). rewrite bool_decide_false by tauto.
    set (nd := REDIR cmd (Z.of_nat q) (Z.of_nat e) (redir_how op).1 (redir_how op).2).
    simpl in Hroom. assert (En : new_node nd s = Ok (length (sh_nodes s), alloc nd s)) by (apply new_node_ok; lia).
    assert (Em : (if bool_decide (op = 60) then redircmd cmd (Z.of_nat q) (Z.of_nat e) O_RDONLY 0
                 else if bool_decide (op = 62) then redircmd cmd (Z.of_nat q) (Z.of_nat e) (Z.lor (Z.lor O_WRONLY O_CREATE) O_TRUNC) 1
                 else if bool_decide (op = 43) then redircmd cmd (Z.of_nat q) (Z.of_nat e) (Z.lor O_WRONLY O_CREATE) 1
                 else mret cmd) s = Ok (length (sh_nodes s), alloc nd s)).
    { rewrite <-En. unfold redircmd, nd, redir_how. unfold redir_ops in Hop. set_unfold. destruct Hop as [->|[->|[->|[]]]]; reflexivity. }
    rewrite (bind_Ok_eq _ _ _ _ _ Em). clear Em En.
    pose proof (IH j2 (alloc nd s) (length (sh_nodes s)) (rs0 ++ [(op, w)])) as H2. rewrite L2 in H2.
    specialize (H2 (ext_line _ _ (alloc_ext nd s) Hs) ltac:(lia) ltac:(lia)).
    assert (Hc' : chain (sh_nodes (alloc nd s)) p0 (rs0 ++ [(op, w)]) (length (sh_nodes s))).
    { eapply chain_snoc; [eapply chain_prefix; [apply (alloc_ext nd s)|exact Hc]|done|apply alloc_lookup|done]. }
    specialize (H2 Hc'). rewrite length_alloc in H2. specialize (H2 ltac:(lia) ltac:(cbn; lia)).
    destruct (t_redirs ts) as [[rs ts']| | |]; cbn [mbind res_bind]; [|done|done|done].
    destruct H2 as (p & j3 & s3 & E3 & Hj3 & L3 & X3 & C3 & P3 & R3). exists p, j3, s3. split; [done|]. split; [lia|]. split; [done|].
    split; [etrans; [apply alloc_ext|done]|]. split; [by rewrite <-app_assoc in C3|]. split; [done|]. cbn in R3 |- *. lia.
  - destruct Hr as (q & e & j2 & -> & Hj2 & L2 & Hsym). rewrite bool_decide_true; [done|]. intros ->. revert Hsym. change (97 ∉ tok_syms). unfold tok_syms. in_set.
Qed.
(** ** Arguments *)

Lemma length_slots ps : (length ps ≤ MAXARGS)%nat → length (slots ps) = MAXARGS.
Proof. intros H. unfold slots. rewrite length_app, length_fmap, length_replicate. lia. Qed.
Lemma slots_next ps : (length ps < MAXARGS)%nat → slots ps !! length ps = Some None.
Proof.
  intros H. unfold slots. rewrite lookup_app_r by (by rewrite length_fmap). rewrite length_fmap, Nat.sub_diag. apply lookup_replicate. split; [done|lia].
Qed.
Lemma slots_add ps q : (length ps < MAXARGS)%nat → <[length ps := Some (Z.of_nat q)]> (slots ps) = slots (ps ++ [q]).
Proof.
  intros H. unfold slots. rewrite insert_app_r_alt by (by rewrite length_fmap). rewrite length_fmap, Nat.sub_diag.
  replace (MAXARGS - length ps)%nat with (S (MAXARGS - length (ps ++ [q]))) by (rewrite length_app; simpl; lia).
  cbn. rewrite fmap_app. by rewrite <-app_assoc.
Qed.

Lemma set_arg_ok p0 ws q e s : sh_nodes s !! p0 = Some (arg_node ws) → (length ws < MAXARGS)%nat →
  set_arg p0 (Z.of_nat (length ws)) (Some (Z.of_nat q)) (Some (Z.of_nat e)) s =
  Ok (tt, sh_with_nodes (<[p0 := arg_node (ws ++ [(q, e)])]> (sh_nodes s)) s).
Proof.
  intros Hp Hl. unfold set_arg. rewrite (bind_Ok_eq _ _ _ (arg_node ws) s) by (unfold get_node; by rewrite Hp).
  unfold arg_node. unfold zupd. rewrite !length_slots by (rewrite length_fmap; lia). rewrite !decide_True by lia. rewrite Nat2Z.id.
  rewrite !fmap_app. cbn [fmap list_fmap].
  rewrite <-(length_fmap fst ws) at 1. rewrite slots_add by (by rewrite length_fmap).
  rewrite <-(length_fmap snd ws) at 1. by rewrite slots_add by (by rewrite length_fmap).
Qed.
Lemma set_arg_end p0 ws s : sh_nodes s !! p0 = Some (arg_node ws) → (length ws < MAXARGS)%nat →
  set_arg p0 (Z.of_nat (length ws)) None None s = Ok (tt, s).
Proof.
  intros Hp Hl. unfold set_arg. rewrite (bind_Ok_eq _ _ _ (arg_node ws) s) by (unfold get_node; by rewrite Hp).
  unfold arg_node. unfold zupd. rewrite !length_slots by (rewrite length_fmap; lia). rewrite !decide_True by lia. rewrite Nat2Z.id.
  rewrite !list_insert_id.
  - unfold put_node, modify. rewrite list_insert_id by done. by destruct s.
  - rewrite <-(length_fmap snd ws). apply slots_next. by rewrite length_fmap.
  - rewrite <-(length_fmap fst ws). apply slots_next. by rewrite length_fmap.
Qed.

(** A later state in which only node [p0] and new nodes changed. *)
Definition ext_but (p0 : nat) (s s' : shell) : Prop :=
  sh_buf s' = sh_buf s ∧ sh_err s' = sh_err s ∧ take p0 (sh_nodes s') = take p0 (sh_nodes s).
#[local] Instance ext_but_trans p0 : Transitive (ext_but p0).
Proof. intros s1 s2 s3 (A & B & C) (A' & B' & C'). split; [congruence|]. split; congruence. Qed.
Lemma ext_ext_but p0 s s' : (p0 ≤ length (sh_nodes s))%nat → ext s s' → ext_but p0 s s'.
Proof. intros Hp (A & B & [k C]). split; [done|]. split; [done|]. rewrite C. by rewrite take_app_le. Qed.
Lemma put_ext_but p0 n s : ext_but p0 s (sh_with_nodes (<[p0 := n]> (sh_nodes s)) s).
Proof. split; [done|]. split; [done|]. cbn. by apply take_insert_ge. Qed.

Lemma sees_ends ts : t_redirs ts = Ok ([], ts) →
  sees ts [124; 41; 38; 59] = match ts with TSym op :: _ => bool_decide (op ∈ cmd_ends) | _ => false end.
Proof.
  intros H. destruct ts as [|[w|op] ts]; [done..|]. cbn [t_redirs] in H. case_decide as Hop.
  - destruct ts as [|[w|o] ts]; [discriminate H| |discriminate H]. apply res_bind_Ok in H as ([] & _ & H). discriminate H.
  - unfold sees, first_char. rewrite decide_False; [done|]. intros ->. apply Hop. unfold redir_ops. in_set.
Qed.

Lemma parseargs_ok p0 : ∀ fuel i s ret rs0 ws, has_line s → (i ≤ length line)%nat → (length line - i < fuel)%nat →
  sh_nodes s !! p0 = Some (arg_node ws) → chain (sh_nodes s) p0 rs0 ret → (ret < length (sh_nodes s))%nat → (length ws < MAXARGS)%nat →
  (length (lex (drop i line)) ≤ sh_room s)%nat → t_redirs (lex (drop i line)) = Ok ([], lex (drop i line)) →
  match t_items (length ws) (lex (drop i line)) with
  | Ok (l, ts') => ∃ p ws' j s', parseargs fuel p0 ret (Z.of_nat (length ws)) (Z.of_nat i) es s = Ok (p, Z.of_nat (length (ws ++ ws')), Z.of_nat j, s') ∧
      (i ≤ j ≤ length line)%nat ∧ lex (drop j line) = ts' ∧ ext_but p0 s s' ∧ sh_nodes s' !! p0 = Some (arg_node (ws ++ ws')) ∧
      Forall2 is_word ws' (args_of l) ∧ chain (sh_nodes s') p0 (rs0 ++ rdrs_of l) p ∧ (p < length (sh_nodes s'))%nat ∧
      (length (ws ++ ws') < MAXARGS)%nat ∧ (sh_room s + length ts' ≤ sh_room s' + length (lex (drop i line)))%nat
  | Panic e => parseargs fuel p0 ret (Z.of_nat (length ws)) (Z.of_nat i) es s = Panic e
  | _ => False
  end.
Proof.
  induction fuel as [|fuel IH]; intros i s ret rs0 ws Hs Hi Hf Hp0 Hc Hp Hws Hroom Hnr; [lia|]. cbn [parseargs].
  destruct (peek_ok line rest Hline i s [124; 41; 38; 59] Hs Hi) as (j & Ej & Hj & Lj & _); [in_set|].
  rewrite (bind_Ok_eq _ _ _ _ _ Ej), sees_ends by done. clear Ej. cbv beta iota.
  assert (Hstop : ∀ r, ∃ p ws' k s', Ok (ret, Z.of_nat (length ws), Z.of_nat r, s) = Ok (p, Z.of_nat (length (ws ++ ws')), Z.of_nat k, s') ∧ k = r ∧
    ext_but p0 s s' ∧ sh_nodes s' !! p0 = Some (arg_node (ws ++ ws')) ∧ Forall2 is_word ws' [] ∧ chain (sh_nodes s') p0 (rs0 ++ []) p ∧
    (p < length (sh_nodes s'))%nat ∧ (length (ws ++ ws') < MAXARGS)%nat ∧ sh_room s' = sh_room s).
  { intros r. exists ret, [], r, s. rewrite !app_nil_r. split; [done|]. split; [done|]. split; [by split|]. split; [done|]. split; [constructor|]. done. }
  destruct (gettoken_ok line rest Hline j s Hs ltac:(lia)) as (r & Er & Hr). rewrite Lj in Hr.
  destruct (lex (drop i line)) as [|[w|op] ts] eqn:L; cbn [t_items token_result] in Hr |- *.
  - destruct Hr as (q & e & ->). rewrite (bind_Ok_eq _ _ _ _ _ Er). rewrite bool_decide_true by done.
    destruct (Hstop (length line)) as (p & ws' & k & s' & E & -> & H1 & H2 & H3 & H4 & H5 & H6 & H7). exists p, ws', (length line), s'.
    split; [done|]. split; [lia|]. split; [by rewrite drop_all|]. rewrite H7. repeat (split; [done|]). lia.
  - destruct Hr as (q & e & j2 & -> & Hj2 & L2 & Hw). rewrite (bind_Ok_eq _ _ _ _ _ Er).
    rewrite bool_decide_false, bool_decide_false by lia. rewrite (bind_Ok_eq _ _ _ _ _ (set_arg_ok p0 ws q e s Hp0 Hws)). cbv zeta.
    set (s1 := sh_with_nodes _ s). replace (Z.of_nat (length ws) + 1) with (Z.of_nat (length (ws ++ [(q, e)]))) by (rewrite length_app; simpl; lia).
    assert (Hlen : length (ws ++ [(q, e)]) = S (length ws)) by (rewrite length_app; simpl; lia).
    case_decide as Hmax; [by rewrite bool_decide_true by lia|]. rewrite bool_decide_false by lia. simpl in Hroom.
    assert (H0 : sh_nodes s1 !! p0 = Some (arg_node (ws ++ [(q, e)]))) by (cbn; apply list_lookup_insert_eq; by eapply lookup_lt_Some).
    pose proof (parseredirs_ok p0 (left_of (Z.of_nat j2) es) j2 s1 ret rs0 Hs ltac:(lia) ltac:(unfold left_of; lia)) as HR.
    rewrite L2 in HR. specialize (HR (chain_insert _ _ _ _ _ Hc) ltac:(cbn; by rewrite length_insert) ltac:(cbn; lia)).
    rewrite (t_items_redirs _ _ _ (Nat.le_refl _)). destruct (t_redirs ts) as [[rs ts1]|msg| |] eqn:Et; [|by apply bind_Panic_eq|done..].
    destruct HR as (p & j3 & s3 & E3 & Hj3 & L3 & X3 & C3 & P3 & R3). rewrite (bind_Ok_eq _ _ _ _ _ E3). clear E3.
    assert (H3 : sh_nodes s3 !! p0 = Some (arg_node (ws ++ [(q, e)]))) by (eapply prefix_lookup_Some; [exact H0|apply X3]).
    pose proof (IH j3 s3 p (rs0 ++ rs) (ws ++ [(q, e)]) (ext_line _ _ X3 Hs) ltac:(lia) ltac:(lia) H3 C3 P3 ltac:(lia)) as H4.
    rewrite L3, Hlen in H4. cbn in R3. specialize (H4 ltac:(lia) (t_redirs_again _ _ _ Et)). rewrite Hlen.
    cbn [mbind res_bind]. destruct (t_items (S (length ws)) ts1) as [[l ts2]|msg| |]; [|done..].
    destruct H4 as (p' & ws' & j4 & s4 & E4 & Hj4 & L4 & X4 & N4 & F4 & C4 & P4 & W4 & R4).
    exists p', ((q, e) :: ws'), j4, s4. rewrite (cons_middle _ ws ws'), app_assoc. split; [done|]. split; [lia|]. split; [done|]. split.
    { etrans; [apply put_ext_but|]. etrans; [|exact X4]. apply ext_ext_but; [|done]. cbn. rewrite length_insert. apply Nat.lt_le_incl. by eapply lookup_lt_Some. }
    split; [done|]. split; [cbn; rewrite args_of_redirs; by constructor|]. split; [change (rdrs_of (Arg w :: ?x)) with (rdrs_of x); rewrite rdrs_of_redirs, app_assoc; exact C4|].
    split; [done|]. split; [done|]. simpl. lia.
  - cbn [t_redirs] in Hnr. case_decide as Hop.
    { destruct ts as [|[w|o] ts]; [discriminate Hnr| |discriminate Hnr]. apply res_bind_Ok in Hnr as ([] & _ & Hnr). discriminate Hnr. }
    case_decide as Hend.
    + rewrite bool_decide_true by done. destruct (Hstop j) as (p & ws' & k & s' & E & -> & H1 & H2 & H3 & H4 & H5 & H6 & H7). exists p, ws', j, s'.
      split; [done|]. split; [lia|]. split; [done|]. rewrite H7. repeat (split; [done|]). lia.
    + rewrite bool_decide_false by done. destruct Hr as (q & e & j2 & -> & Hj2 & L2 & Hsym). rewrite (bind_Ok_eq _ _ _ _ _ Er).
      rewrite bool_decide_false by (intros ->; revert Hsym; change (0 ∉ tok_syms); unfold tok_syms; in_set).
      rewrite bool_decide_true; [done|]. intros ->; revert Hsym; change (97 ∉ tok_syms); unfold tok_syms; in_set.
Qed.
(** ** Commands *)

Lemma peek_sym i s op : has_line s → (i ≤ length line)%nat → op ∈ symbols → op ≠ 62 →
  ∃ j, peek (Z.of_nat i) es [op] s = Ok (match t_sym op (lex (drop i line)) with Some _ => true | None => false end, Z.of_nat j, s) ∧
    (i ≤ j ≤ length line)%nat ∧ lex (drop j line) = lex (drop i line).
Proof.
  intros Hs Hi Ho H62. destruct (peek_ok line rest Hline i s [op] Hs Hi) as (j & Ej & Hj & Lj & _).
  { intros x. rewrite list_elem_of_singleton. by intros ->. }
  exists j. rewrite <-sees_one by done. done.
Qed.

(** The two outcomes of a test for symbol [op], as the code goes on. *)
Lemma on_sym {C} i s op (f : bool * Z → M shell C) : has_line s → (i ≤ length line)%nat → op ∈ symbols → op ≠ 62 →
  ∃ j, (i ≤ j ≤ length line)%nat ∧ lex (drop j line) = lex (drop i line) ∧
    (peek (Z.of_nat i) es [op] ≫= f) s = f (match t_sym op (lex (drop i line)) with Some _ => true | None => false end, Z.of_nat j) s ∧
    ∀ ts, t_sym op (lex (drop i line)) = Some ts → ∃ q e k, gettoken (Z.of_nat j) es s = Ok (op, q, e, Z.of_nat k, s) ∧
      (j < k ≤ length line)%nat ∧ lex (drop k line) = ts.
Proof.
  intros Hs Hi Ho H62. destruct (peek_sym i s op Hs Hi Ho H62) as (j & Ej & Hj & Lj). exists j. split; [done|]. split; [done|].
  split; [by rewrite (bind_Ok_eq _ _ _ _ _ Ej)|]. intros ts Ht. apply t_sym_Some in Ht.
  destruct (next_sym j s op ts Hs ltac:(lia)) as (q & e & k & E & Hk & L & _); [by rewrite Lj|]. by exists q, e, k.
Qed.

Definition built (ts : list tok) (s : shell) (ts' : list tok) (c : shcmd) (k : nat) (p : nat) (s' : shell) : Prop :=
  tree (sh_nodes s') c p ∧ (p < length (sh_nodes s'))%nat ∧ (sh_room s + 2 * length ts' ≤ sh_room s' + 2 * length ts + k)%nat.
Definition psim (i : nat) (s : shell) (k : nat) (o : res (nat * Z * shell)) (r : res (shcmd * list tok)) : Prop :=
  match r with
  | Ok (c, ts') => parsed i s ts' o (built (lex (drop i line)) s ts' c k)
  | Panic e => o = Panic e
  | Fault => False
  | Hang => True
  end.

Lemma parseback_ok : ∀ fuel i s c cmd, has_line s → (i ≤ length line)%nat → (length line - i < fuel)%nat →
  tree (sh_nodes s) c cmd → (cmd < length (sh_nodes s))%nat → (2 * length (lex (drop i line)) ≤ sh_room s)%nat →
  let '(d, ts') := t_backs c (lex (drop i line)) in
  parsed i s ts' (parseback fuel cmd (Z.of_nat i) es s) (built (lex (drop i line)) s ts' d 0).
Proof.
  induction fuel as [|fuel IH]; intros i s c cmd Hs Hi Hf Ht Hp Hroom; [lia|]. cbn [parseback].
  assert (Hstop : ∀ ts, ts = lex (drop i line) → ∀ j, (i ≤ j ≤ length line)%nat → lex (drop j line) = lex (drop i line) →
    parsed i s ts (Ok (cmd, Z.of_nat j, s)) (built (lex (drop i line)) s ts c 0)).
  { intros ts -> j Hj Lj. exists cmd, j, s. repeat (split; [done|]). lia. }
  destruct (on_sym i s 38 (λ '(b, s), if (b : bool) then '(_, _, _, s) ← gettoken s es; cmd ← backcmd cmd; parseback fuel cmd s es else mret (cmd, s)))
    as (j & Hj & Lj & E & Hnext); [done|done|in_set|lia|]. rewrite E. clear E.
  destruct (lex (drop i line)) as [|[w|op] ts] eqn:L; cbn [t_backs t_sym] in *; [by apply Hstop..|].
  case_decide as Hop; [|by apply Hstop]. clear Hstop. destruct (Hnext ts eq_refl) as (q & e & k & Ek & Hk & Lk).
  rewrite (bind_Ok_eq _ _ _ _ _ Ek). clear Ek. simpl in Hroom. unfold backcmd. rewrite (bind_Ok_eq _ _ _ _ _ (new_node_ok _ s ltac:(lia))).
  set (s1 := alloc (BACK cmd) s). assert (X1 : ext s s1) by apply alloc_ext.
  pose proof (IH k s1 (Back c) (length (sh_nodes s)) (ext_line _ _ X1 Hs) ltac:(lia) ltac:(lia)) as H1. rewrite Lk in H1.
  specialize (H1 ltac:(exists cmd; split; [apply alloc_lookup|]; split; [done|]; by eapply tree_prefix; [apply X1|]) ltac:(unfold s1; rewrite length_alloc; lia) ltac:(cbn; lia)).
  destruct (t_backs (Back c) ts) as [d ts']. destruct H1 as (p & j2 & s2 & E2 & Hj2 & L2 & X2 & T2 & P2 & R2).
  exists p, j2, s2. split; [done|]. split; [lia|]. split; [done|]. split; [by etrans|]. split; [done|]. split; [done|]. cbn in R2 |- *. lia.
Qed.

Lemma exec_ok i s : has_line s → (i ≤ length line)%nat → (2 * length (lex (drop i line)) + 1 ≤ sh_room s)%nat →
  psim i s 1 ((cmd ← execcmd;
        '(ret, s) ← parseredirs (left_of (Z.of_nat i) es) cmd (Z.of_nat i) es;
        '(ret, argc, s) ← parseargs (left_of s es) cmd ret 0 s es;
        set_arg cmd argc None None ;;
        mret (ret, s)) s) ('(l, ts) ← t_items 0 (lex (drop i line)); Ok (foldl wrap (Exec (args_of l)) (rdrs_of l), ts)).
Proof.
  intros Hs Hi Hroom. unfold execcmd. rewrite (bind_Ok_eq _ _ _ _ _ (new_node_ok _ s ltac:(lia))).
  set (p0 := length (sh_nodes s)). set (s0 := alloc _ s). assert (X0 : ext s s0) by apply alloc_ext.
  assert (N0 : sh_nodes s0 !! p0 = Some (arg_node [])) by apply alloc_lookup.
  pose proof (parseredirs_ok p0 (left_of (Z.of_nat i) es) i s0 p0 [] (ext_line _ _ X0 Hs) Hi ltac:(unfold left_of; lia) (chain_nil _ _)
    ltac:(unfold s0; rewrite length_alloc; lia) ltac:(cbn; lia)) as HR.
  rewrite (t_items_redirs _ _ _ (Nat.le_refl _)). destruct (t_redirs (lex (drop i line))) as [[rs ts1]|msg| |] eqn:Et; [|by apply bind_Panic_eq|done..].
  destruct HR as (p & j & s1 & E1 & Hj & L1 & X1 & C1 & P1 & R1). rewrite (bind_Ok_eq _ _ _ _ _ E1). clear E1.
  assert (N1 : sh_nodes s1 !! p0 = Some (arg_node [])) by (eapply prefix_lookup_Some; [exact N0|apply X1]).
  pose proof (parseargs_ok p0 (left_of (Z.of_nat j) es) j s1 p rs [] (ext_line _ _ X1 (ext_line _ _ X0 Hs)) ltac:(lia) ltac:(unfold left_of; lia)
    N1 C1 P1 ltac:(unfold MAXARGS; simpl; lia)) as HA.
  rewrite L1 in HA. cbn in R1. specialize (HA ltac:(lia) (t_redirs_again _ _ _ Et)).
  cbn [mbind res_bind]. change (length []) with 0%nat in HA. destruct (t_items 0 ts1) as [[l ts2]|msg| |] eqn:Ei; [|by apply bind_Panic_eq|done..].
  apply t_redirs_length in Et. apply t_items_length in Ei. destruct HA as (p' & ws & k & s2 & E2 & Hk & L2 & X2 & N2 & F2 & C2 & P2 & W2 & R2). cbn [app] in *. change (Z.of_nat 0) with 0 in E2.
  rewrite (bind_Ok_eq _ _ _ _ _ E2). clear E2. rewrite (bind_Ok_eq _ _ _ _ _ (set_arg_end p0 ws s2 N2 W2)). cbn.
  rewrite args_of_redirs, rdrs_of_redirs. exists p', k, s2. split; [done|]. split; [lia|]. split; [done|]. split; [|split; [|split; [done|lia]]].
  - destruct X0 as (A0 & B0 & C0), X1 as (A1 & B1 & [k1 C1']), X2 as (A2 & B2 & C2'). split; [congruence|]. split; [congruence|].
    exists (drop p0 (sh_nodes s2)). rewrite <-(take_drop p0 (sh_nodes s2)) at 1. f_equal. rewrite C2', C1'. unfold s0. cbn.
    rewrite <-app_assoc. unfold p0. by rewrite take_app_length.
  - eapply chain_tree; [exact C2|]. exists ws. split; [done|]. split; [done|]. by rewrite <-(Forall2_length _ _ _ F2).
Qed.
Definition line_sim (f : nat) : Prop := ∀ i s, has_line s → (i ≤ length line)%nat → (2 * length (lex (drop i line)) + 1 ≤ sh_room s)%nat →
  psim i s 1 (parseline f (Z.of_nat i) es s) (t_line f (lex (drop i line))).
Definition pipe_sim (f : nat) : Prop := ∀ i s, has_line s → (i ≤ length line)%nat → (2 * length (lex (drop i line)) + 1 ≤ sh_room s)%nat →
  psim i s 1 (parsepipe f (Z.of_nat i) es s) (t_pipe f (lex (drop i line))).
Definition block_sim (f : nat) : Prop := ∀ i s, has_line s → (i ≤ length line)%nat → (2 * length (lex (drop i line)) + 1 ≤ sh_room s)%nat →
  psim i s 1 (parseblock f (Z.of_nat i) es s) (t_block f (lex (drop i line))).
Definition exec_sim (f : nat) : Prop := ∀ i s, has_line s → (i ≤ length line)%nat → (2 * length (lex (drop i line)) + 1 ≤ sh_room s)%nat →
  psim i s 1 (parseexec f (Z.of_nat i) es s) (t_exec f (lex (drop i line))).

(** A call whose outcome decides the rest. *)
Lemma psim_bind i s k' j s1 k (m : M shell (nat * Z)) r (g : shcmd * list tok → res (shcmd * list tok)) (f : nat * Z → M shell (nat * Z)) :
  psim j s1 k (m s1) r →
  (∀ c ts' p j' s', r = Ok (c, ts') → (j ≤ j' ≤ length line)%nat → lex (drop j' line) = ts' → ext s1 s' →
     built (lex (drop j line)) s1 ts' c k p s' → psim i s k' (f (p, Z.of_nat j') s') (g (c, ts'))) →
  psim i s k' ((m ≫= f) s1) (r ≫= g).
Proof.
  intros Hm Hf. destruct r as [[c ts']|msg| |]; [|by apply bind_Panic_eq|done|done].
  destruct Hm as (p & j' & s' & E & Hj & L & X & Hb). rewrite (bind_Ok_eq _ _ _ _ _ E). by eapply Hf.
Qed.

(** The commands with two children: the second is parsed and their node made. *)
Lemma psim_pair i s j s1 l (mk : nat → node) c (mkc : shcmd → shcmd) (m : M shell (nat * Z)) r :
  psim j s1 1 (m s1) r → (i ≤ j ≤ length line)%nat → ext s s1 → tree (sh_nodes s1) c l → (l < length (sh_nodes s1))%nat →
  (∀ d q H, tree H c l → (l < length H)%nat → tree H d q → (q < length H)%nat → tree (H ++ [mk q]) (mkc d) (length H)) →
  (2 * length (lex (drop j line)) + 2 ≤ sh_room s1)%nat →
  (sh_room s + 2 * length (lex (drop j line)) + 2 ≤ sh_room s1 + 2 * length (lex (drop i line)) + 1)%nat →
  psim i s 1 (('(q, e) ← m; cmd ← new_node (mk q); mret (cmd, e)) s1) ('(d, ts) ← r; Ok (mkc d, ts)).
Proof.
  intros Hm Hj X Tc Pc Htree Hroom Hk. eapply psim_bind; [exact Hm|]. intros d ts' q j2 s2 _ Hj2 L2 X2 (T2 & P2 & R2). cbv beta iota.
  rewrite (bind_Ok_eq _ _ _ _ _ (new_node_ok _ s2 ltac:(lia))). set (s3 := alloc (mk q) s2).
  exists (length (sh_nodes s2)), j2, s3. split; [done|]. split; [lia|]. split; [done|].
  split; [etrans; [exact X|]; etrans; [exact X2|apply alloc_ext]|]. split; [|split; [unfold s3; rewrite length_alloc; lia|cbn; lia]].
  unfold s3. cbn. assert (Hpre : sh_nodes s1 `prefix_of` sh_nodes s2) by apply X2.
  apply Htree; [by eapply tree_prefix| |done|done]. apply prefix_length in Hpre. lia.
Qed.

Lemma new_tree_pipe c l d q H : tree H c l → (l < length H)%nat → tree H d q → (q < length H)%nat →
  tree (H ++ [PIPE l q]) (Pipe c d) (length H).
Proof.
  intros Tc Hl Td Hq. exists l, q. rewrite lookup_app_r, Nat.sub_diag by done.
  repeat (split; [done|]). split; (eapply tree_prefix; [|done]); by apply prefix_app_r.
Qed.
Lemma new_tree_list c l d q H : tree H c l → (l < length H)%nat → tree H d q → (q < length H)%nat →
  tree (H ++ [LIST l q]) (Seq c d) (length H).
Proof.
  intros Tc Hl Td Hq. exists l, q. rewrite lookup_app_r, Nat.sub_diag by done.
  repeat (split; [done|]). split; (eapply tree_prefix; [|done]); by apply prefix_app_r.
Qed.

Lemma step_line f : pipe_sim f → line_sim f → line_sim (S f).
Proof.
  intros Hpipe Hline' i s Hs Hi Hroom. cbn [parseline t_line]. eapply psim_bind; [by apply Hpipe|].
  intros c ts1 p j1 s1 Er Hj1 L1 X1 (T1 & P1 & R1). cbv beta iota. apply t_pipe_length in Er. assert (Hs1 := ext_line _ _ X1 Hs).
  pose proof (parseback_ok (left_of (Z.of_nat j1) es) j1 s1 c p Hs1 ltac:(lia) ltac:(unfold left_of; lia) T1 P1) as HB.
  rewrite L1 in HB. specialize (HB ltac:(lia)). destruct (t_backs c ts1) as [c2 ts2] eqn:Eb. apply t_backs_length in Eb.
  destruct HB as (p2 & j2 & s2 & E2 & Hj2 & L2 & X2 & T2 & P2 & R2). rewrite (bind_Ok_eq _ _ _ _ _ E2). clear E2. cbv beta iota.
  assert (Hs2 := ext_line _ _ X2 Hs1). assert (X02 : ext s s2) by by etrans.
  match goal with |- context [(peek (Z.of_nat j2) es [59] ≫= ?g) s2] => destruct (on_sym j2 s2 59 g) as (j & Hj & Lj & E & Hnext) end;
    [done|lia|in_set|lia|]. rewrite E, L2 in *. clear E. cbv beta iota. destruct (t_sym 59 ts2) as [ts3|] eqn:Es.
  - destruct (Hnext ts3 eq_refl) as (q & e & k & Ek & Hk & Lk). rewrite (bind_Ok_eq _ _ _ _ _ Ek). clear Ek. cbv beta iota.
    apply t_sym_Some in Es as ->. simpl length in *. unfold listcmd.
    apply (psim_pair i s k s2 p2 (LIST p2) c2 (Seq c2) (parseline f (Z.of_nat k) es)); try done; try lia.
    + rewrite <-Lk. apply Hline'; [done|lia|rewrite Lk; lia].
    + intros d q0 H. apply new_tree_list.
    + rewrite Lk. lia.
    + rewrite Lk. lia.
  - exists p2, j, s2. repeat (split; [done || lia|]). lia.
Qed.

Lemma step_pipe f : exec_sim f → pipe_sim f → pipe_sim (S f).
Proof.
  intros Hexec Hpipe i s Hs Hi Hroom. cbn [parsepipe t_pipe]. eapply psim_bind; [by apply Hexec|].
  intros c ts1 p j1 s1 Er Hj1 L1 X1 (T1 & P1 & R1). cbv beta iota. apply t_exec_length in Er. assert (Hs1 := ext_line _ _ X1 Hs).
  match goal with |- context [(peek (Z.of_nat j1) es [124] ≫= ?g) s1] => destruct (on_sym j1 s1 124 g) as (j & Hj & Lj & E & Hnext) end;
    [done|lia|in_set|lia|]. rewrite E, L1 in *. clear E. cbv beta iota. destruct (t_sym 124 ts1) as [ts3|] eqn:Es.
  - destruct (Hnext ts3 eq_refl) as (q & e & k & Ek & Hk & Lk). rewrite (bind_Ok_eq _ _ _ _ _ Ek). clear Ek. cbv beta iota.
    apply t_sym_Some in Es as ->. simpl length in *. unfold pipecmd.
    apply (psim_pair i s k s1 p (PIPE p) c (Pipe c) (parsepipe f (Z.of_nat k) es)); try done; try lia.
    + rewrite <-Lk. apply Hpipe; [done|lia|rewrite Lk; lia].
    + intros d q0 H. apply new_tree_pipe.
    + rewrite Lk. lia.
    + rewrite Lk. lia.
  - exists p, j, s1. repeat (split; [done || lia|]). lia.
Qed.

Lemma step_block f : line_sim f → block_sim (S f).
Proof.
  intros Hl i s Hs Hi Hroom. cbn [parseblock t_block].
  match goal with |- context [(peek (Z.of_nat i) es [40] ≫= ?g) s] => destruct (on_sym i s 40 g) as (j & Hj & Lj & E & Hnext) end;
    [done|lia|in_set|lia|]. rewrite E. clear E. cbv beta iota. destruct (t_sym 40 (lex (drop i line))) as [ts1|] eqn:Es; [|done]. cbn [negb].
  destruct (Hnext ts1 eq_refl) as (q & e & k & Ek & Hk & Lk). rewrite (bind_Ok_eq _ _ _ _ _ Ek). clear Ek. cbv beta iota.
  apply t_sym_Some in Es. rewrite Es in Hroom. simpl length in Hroom.
  rewrite <-Lk. eapply (psim_bind i s 1 k s 1); [by apply Hl; [done|lia|rewrite Lk; lia]|]. rewrite Lk.
  intros c ts2 p j2 s2 Er Hj2 L2 X2 (T2 & P2 & R2). cbv beta iota. apply t_line_length in Er. assert (Hs2 := ext_line _ _ X2 Hs).
  match goal with |- context [(peek (Z.of_nat j2) es [41] ≫= ?g) s2] => destruct (on_sym j2 s2 41 g) as (j3 & Hj3 & Lj3 & E & Hnext3) end;
    [done|lia|in_set|lia|]. rewrite E, L2 in *. clear E. cbv beta iota. destruct (t_sym 41 ts2) as [ts3|] eqn:Es3; [|done]. cbn [negb].
  destruct (Hnext3 ts3 eq_refl) as (q3 & e3 & k3 & Ek3 & Hk3 & Lk3). rewrite (bind_Ok_eq _ _ _ _ _ Ek3). clear Ek3. cbv beta iota.
  apply t_sym_Some in Es3 as ->. simpl length in *.
  pose proof (parseredirs_ok p (left_of (Z.of_nat k3) es) k3 s2 p [] Hs2 ltac:(lia) ltac:(unfold left_of; lia) (chain_nil _ _) P2) as HR.
  rewrite Lk3 in HR. specialize (HR ltac:(lia)). destruct (t_redirs ts3) as [[rs ts4]|msg| |] eqn:Et; [|done..].
  destruct HR as (p4 & j4 & s4 & E4 & Hj4 & L4 & X4 & C4 & P4 & R4). apply t_redirs_length in Et. exists p4, j4, s4. rewrite E4.
  split; [done|]. split; [lia|]. split; [done|]. split; [by etrans|]. rewrite Es. split; [|split; [done|simpl; lia]].
  eapply chain_tree; [exact C4|]. eapply tree_prefix; [apply X4|done].
Qed.

Lemma step_exec f : block_sim f → exec_sim (S f).
Proof.
  intros Hb i s Hs Hi Hroom. cbn [parseexec t_exec].
  match goal with |- context [(peek (Z.of_nat i) es [40] ≫= ?g) s] => destruct (on_sym i s 40 g) as (j & Hj & Lj & E & _) end;
    [done|lia|in_set|lia|]. rewrite E. clear E. cbv beta iota. rewrite <-Lj. destruct (t_sym 40 (lex (drop j line))) as [ts1|] eqn:Es.
  - pose proof (Hb j s Hs ltac:(lia)) as H. rewrite Lj in H |- *. specialize (H Hroom). unfold psim in *.
    destruct (t_block f (lex (drop i line))) as [[c ts]|msg| |]; [|done..]. destruct H as (p & k & s' & E & Hk & L & X & Hbt). rewrite Lj in Hbt.
    exists p, k, s'. repeat (split; [done || lia|]). apply Hbt.
  - pose proof (exec_ok j s Hs ltac:(lia)) as H. rewrite Lj in H |- *. specialize (H Hroom). unfold psim in *.
    destruct (t_items 0 (lex (drop i line))) as [[l ts]|msg| |]; [|done..]. destruct H as (p & k & s' & E & Hk & L & X & Hbt). rewrite Lj in Hbt.
    exists p, k, s'. repeat (split; [done || lia|]). apply Hbt.
Qed.

Lemma parse_sim f : line_sim f ∧ pipe_sim f ∧ block_sim f ∧ exec_sim f.
Proof.
  induction f as [|f (Hl & Hp & Hb & He)]; [split; [|split; [|split]]; intros i s _ _ _; exact I|].
  split; [by apply step_line|]. split; [by apply step_pipe|]. split; [by apply step_block|by apply step_exec].
Qed.
End parse.
