(* ===== verification/ShRun.v ===== *)
(** * The shell's processes: runcmd, fork1, getcmd and main of user/sh.c

    A process of the shell is a tree of system calls: what it asks for, and how
    it goes on with the answer.  [runcmd] and [main] build such trees; what the
    kernel answers is in ShProc.v.  What one call of [fprintf] writes, one byte at a
    time, is one [PWrite].  [fork] goes on twice, in the parent with the
    child's id and in the child with 0.  A [struct cmd *] is [None] when null. *)
From S2P Require Import Ulib Prelude Sh.

Inductive prog :=
  | PExit (status : Z)
  | PFault                                           (** undefined behaviour *)
  | PMore                                            (** out of fuel: not finished *)
  | PExec (path : list Z) (argv : list (list Z)) (k : prog)
  | PWrite (fd : Z) (text : list Z) (k : prog)
  | PClose (fd : Z) (k : prog)
  | POpen (file : list Z) (mode : Z) (k : Z → prog)
  | PDup (fd : Z) (k : prog)
  | PPipe (k : Z → Z → Z → prog)                     (** the result, p[0] and p[1] *)
  | PFork (k : Z → prog)
  | PWait (k : prog)
  | PChdir (dir : list Z) (k : Z → prog)
  | PGets (max : nat) (k : list Z → prog).           (** the line that [gets(buf, max)] stores *)

(** [panic] and [fork1] *)
Definition sh_panic (msg : list Z) : prog := PWrite 2 (msg ++ [10]) (PExit 1).
Definition fork1 (k : Z → prog) : prog := PFork (λ pid, if bool_decide (pid = -1) then sh_panic (chars "fork") else k pid).

(** The arguments of [exec]: the strings up to the null pointer. *)
Fixpoint argv_strings (b : list Z) (argv : list (option Z)) : list (list Z) :=
  match argv with
  | Some q :: argv => str_at b q :: argv_strings b argv
  | _ => []
  end.

Fixpoint runcmd (fuel : nat) (nodes : list node) (b : list Z) (cmd : option nat) : prog :=
  match fuel with
  | O => PMore
  | S fuel =>
      match cmd with
      | None => PExit 1
      | Some cmd =>
          match nodes !! cmd with
          | None => PFault
          | Some (EXEC argv _) =>
              match argv with
              | Some q :: _ =>
                  if bool_decide (None ∈ argv) then
                    PExec (str_at b q) (argv_strings b argv)
                      (PWrite 2 (chars "exec " ++ str_at b q ++ chars " failed" ++ [10]) (PExit 0))
                  else PFault
              | None :: _ => PExit 1
              | [] => PFault
              end
          | Some (REDIR cmd file _ mode fd) =>
              PClose fd (POpen (str_at b file) mode (λ r,
                if bool_decide (r < 0) then PWrite 2 (chars "open " ++ str_at b file ++ chars " failed" ++ [10]) (PExit 1)
                else runcmd fuel nodes b (Some cmd)))
          | Some (LIST l r) =>
              fork1 (λ pid, if bool_decide (pid = 0) then runcmd fuel nodes b (Some l)
                            else PWait (runcmd fuel nodes b (Some r)))
          | Some (PIPE l r) =>
              PPipe (λ ret p0 p1,
                if bool_decide (ret < 0) then sh_panic (chars "pipe")
                else fork1 (λ pid,
                  if bool_decide (pid = 0) then
                    PClose 1 (PDup p1 (PClose p0 (PClose p1 (runcmd fuel nodes b (Some l)))))
                  else fork1 (λ pid,
                    if bool_decide (pid = 0) then
                      PClose 0 (PDup p0 (PClose p0 (PClose p1 (runcmd fuel nodes b (Some r)))))
                    else PClose p0 (PClose p1 (PWait (PWait (PExit 0)))))))
          | Some (BACK cmd) =>
              fork1 (λ pid, if bool_decide (pid = 0) then runcmd fuel nodes b (Some cmd) else PExit 0)
          end
      end
  end.

(** [runcmd(parsecmd(buf))], with memory for [room] nodes.  ([parsecmd] writes once
    at most, before it panics.) *)
Definition run_line (room : nat) (buf : list Z) : prog :=
  match parsecmd (mksh buf [] room []) with
  | Ok (cmd, s) => runcmd (S (length (sh_nodes s))) (sh_nodes s) (sh_buf s) (Some cmd)
  | Panic e =>
      match leftovers (mksh buf [] room []) with
      | Some text => PWrite 2 text (sh_panic (chars e))
      | None => sh_panic (chars e)
      end
  | Fault => PFault
  | Hang => PMore
  end.
(** The constructors of nodes do not look at what [malloc] returns: without memory
    [memset] writes at address 0. *)
Lemma no_memory_undefined : run_line 0 [97; 0] = PFault.
Proof. reflexivity. Qed.

(** [getcmd(buf, 100)]: the buffer after [memset] and [gets], and the result. *)
Definition BUFSZ : nat := 100.
Definition getcmd (k : list Z → Z → prog) : prog :=
  PWrite 2 (chars "$ ") (PGets BUFSZ (λ l,
    let buf := l ++ replicate (BUFSZ - length l) 0 in
    k buf (if bool_decide (zidx buf 0 = Some 0) then -1 else 0))).

(** The loop of [main], [n] rounds of it. *)
Fixpoint main_loop (n room : nat) : prog :=
  match n with
  | O => PMore
  | S n =>
      getcmd (λ buf r,
        if bool_decide (r >= 0) then
          if bool_decide (zidx buf 0 = Some 99) && bool_decide (zidx buf 1 = Some 100) && bool_decide (zidx buf 2 = Some 32) then
            match line_len buf with
            | Some len =>
                match zupd buf (len - 1) 0 with
                | Some buf =>
                    PChdir (str_at buf 3) (λ r,
                      if bool_decide (r < 0) then PWrite 2 (chars "cannot cd " ++ str_at buf 3 ++ [10]) (main_loop n room)
                      else main_loop n room)
                | None => PFault
                end
            | None => PFault
            end
          else fork1 (λ pid, if bool_decide (pid = 0) then run_line room buf else PWait (main_loop n room))
        else PExit 0)
  end.

(** [while((fd = open("console", O_RDWR)) >= 0) if(fd >= 3) { close(fd); break; }] *)
Fixpoint open_console (fuel : nat) (k : prog) : prog :=
  match fuel with
  | O => PMore
  | S fuel => POpen (chars "console") O_RDWR (λ fd,
      if bool_decide (fd >= 0) then if bool_decide (fd >= 3) then PClose fd k else open_console fuel k else k)
  end.
Definition sh_main (n room : nat) : prog := open_console 4 (main_loop n room).
