(* ===== verification/ShClaims.v ===== *)
(** * The shell's parser: what it accepts and what it returns

    [nulterminate] cuts the words out of the line without touching another
    word; with the simulation of ShParse.v the parser returns the tree of the
    line, readable as C strings, or one of its error messages. *)
From S2P Require Import Ulib Prelude Sh ShGrammar ShParse ShRun.

(** ** Commands as [runcmd] reads them *)

Fixpoint reads (H : list node) (b : list Z) (c : shcmd) (p : nat) : Prop :=
  match c with
  | Exec args => ∃ argv eargv, H !! p = Some (EXEC argv eargv) ∧ argv_strings b argv = args ∧ None ∈ argv
  | Redir c f mode fd => ∃ p' q e, H !! p = Some (REDIR p' q e mode fd) ∧ (p' < p)%nat ∧ str_at b q = f ∧ reads H b c p'
  | Pipe c d => ∃ l r, H !! p = Some (PIPE l r) ∧ (l < p)%nat ∧ (r < p)%nat ∧ reads H b c l ∧ reads H b d r
  | Seq c d => ∃ l r, H !! p = Some (LIST l r) ∧ (l < p)%nat ∧ (r < p)%nat ∧ reads H b c l ∧ reads H b d r
  | Back c => ∃ p', H !! p = Some (BACK p') ∧ (p' < p)%nat ∧ reads H b c p'
  end.

Section claims.
Context (line rest : list Z) (Hline : Forall (λ c : Z, c ≠ 0) line).
Local Abbreviation word_at := (word_at line).
Local Abbreviation is_word := (is_word line).
Local Abbreviation tree := (tree line).

(** A buffer in which the words are still there. *)
Definition words_kept (b : list Z) : Prop :=
  length b = length (line ++ 0 :: rest) ∧ ∀ i c, line !! i = Some c → wordc c → b !! i = Some c.
Definition more_zeros (b b' : list Z) : Prop := ∀ i : nat, b !! i = Some 0 → b' !! i = Some 0.
#[local] Instance more_zeros_pre : PreOrder more_zeros.
Proof. split; [by intros b i|]. intros a b c H1 H2 i H. by apply H2, H1. Qed.

Lemma upto_nul_app w l : Forall wordc w → upto_nul (w ++ 0 :: l) = w.
Proof. induction 1 as [|c w [Hc _] _ IH]; [done|]. cbn. by rewrite bool_decide_false, IH. Qed.

(** A word whose end was overwritten is a C string. *)
Lemma str_word b q e w : words_kept b → word_at q e w → b !! e = Some 0 → str_at b (Z.of_nat q) = w.
Proof.
  intros [Hl Hk] [Hr Hs Hw Hn He] Hz. unfold str_at. rewrite Nat2Z.id.
  rewrite <-(take_drop (e - q) (drop q b)), drop_drop. replace (q + (e - q))%nat with e by lia. rewrite (drop_S _ _ _ Hz).
  assert (Hsame : take (e - q) (drop q b) = w); [|by rewrite Hsame, upto_nul_app].
  rewrite <-Hs. unfold slice. apply list_eq. intros k. destruct (decide (k < e - q)%nat) as [Hlt|]; [|by rewrite !lookup_take_ge by lia].
  rewrite !lookup_take_lt, !lookup_drop by lia. destruct (lookup_lt_is_Some_2 line (q + k)) as [c Hc]; [lia|]. rewrite Hc. apply Hk; [done|].
  apply (Forall_lookup_1 _ _ k c Hw). rewrite <-Hs. unfold slice. by rewrite lookup_take_lt, lookup_drop by lia.
Qed.

(** Overwriting the end of a word. *)
Lemma stc_end s q e w : words_kept (sh_buf s) → word_at q e w →
  ∃ b, stc (Z.of_nat e) 0 s = Ok (tt, sh_with_buf b s) ∧ words_kept b ∧ more_zeros (sh_buf s) b ∧ b !! e = Some 0.
Proof.
  intros [Hl Hk] [Hr _ _ _ He]. assert (Hlt : (e < length (sh_buf s))%nat) by (rewrite Hl, length_app; simpl; lia).
  exists (<[e := 0]> (sh_buf s)). unfold stc, zupd. rewrite decide_True by lia. rewrite Nat2Z.id. split; [done|]. split; [split|split].
  - by rewrite length_insert.
  - intros i c Hi Hc. rewrite list_lookup_insert_ne; [by apply Hk|]. intros ->. apply He. by rewrite (drop_S _ _ _ Hi).
  - intros i Hi. destruct (decide (i = e)) as [->|]; [by apply list_lookup_insert_eq|by rewrite list_lookup_insert_ne].
  - by apply list_lookup_insert_eq.
Qed.

Lemma slots_at ps i q : ps !! i = Some q → zidx (slots ps) (Z.of_nat i) = Some (Some (Z.of_nat q)).
Proof.
  intros H. unfold zidx. rewrite decide_True, Nat2Z.id by lia. unfold slots. apply lookup_app_l_Some. by rewrite list_lookup_fmap, H.
Qed.
Lemma slots_stop ps : (length ps < MAXARGS)%nat → zidx (slots ps) (Z.of_nat (length ps)) = Some None.
Proof. intros H. unfold zidx. rewrite decide_True, Nat2Z.id by lia. by apply slots_next. Qed.

Definition ended (b : list Z) (ws : list (nat * nat)) : Prop := Forall (λ p, b !! p.2 = Some 0) ws.

Lemma nul_args_ok ws args : Forall2 is_word ws args → (length ws < MAXARGS)%nat → ∀ k i s, (i ≤ length ws)%nat → (length ws - i < k)%nat →
  words_kept (sh_buf s) → ended (sh_buf s) (take i ws) →
  ∃ b, nul_args k (slots (ws.*1)) (slots (ws.*2)) (Z.of_nat i) s = Ok (tt, sh_with_buf b s) ∧ words_kept b ∧ more_zeros (sh_buf s) b ∧ ended b ws.
Proof.
  intros HF Hlt. induction k as [|k IH]; intros i s Hi Hk Hw He; [lia|]. cbn [nul_args]. destruct (decide (i = length ws)) as [->|Hne].
  - rewrite <-(length_fmap fst ws). rewrite slots_stop by (by rewrite length_fmap). exists (sh_buf s). split; [by destruct s|].
    rewrite firstn_all in He. done.
  - destruct (lookup_lt_is_Some_2 ws i) as [[q e] Hqe]; [lia|]. destruct (Forall2_lookup_l _ _ _ _ _ HF Hqe) as (w & _ & Hwd).
    rewrite (slots_at (ws.*1) i q) by (by rewrite list_lookup_fmap, Hqe). rewrite (slots_at (ws.*2) i e) by (by rewrite list_lookup_fmap, Hqe).
    unfold lift, mbind at 1, M_bind at 1. destruct (stc_end s q e w Hw Hwd) as (b & Eb & Hb & Hz & H0). rewrite (bind_Ok_eq _ _ _ _ _ Eb).
    replace (Z.of_nat i + 1) with (Z.of_nat (S i)) by lia.
    destruct (IH (S i) (sh_with_buf b s) ltac:(lia) ltac:(lia) Hb) as (b2 & E2 & Hb2 & Hz2 & H2).
    { unfold ended. rewrite (take_S_r _ _ _ Hqe). apply Forall_app. split; [|by constructor]. eapply Forall_impl; [exact He|]. intros p. apply Hz. }
    exists b2. split; [done|]. split; [done|]. split; [by etrans|done].
Qed.

Lemma argv_strings_ok b ws args k : words_kept b → Forall2 is_word ws args → ended b ws →
  argv_strings b (((λ q : nat, Some (Z.of_nat q)) <$> ws.*1) ++ replicate k None) = args.
Proof.
  intros Hb HF. induction HF as [|[q e] w ws args Hw _ IH]; intros He; [by destruct k|]. apply Forall_cons in He as [H0 He].
  cbn. rewrite (str_word b q e w Hb Hw H0). f_equal. by apply IH.
Qed.

(** [nulterminate] leaves every word of the tree readable, now and after more
    words have been cut. *)
Lemma nulterminate_ok : ∀ c p fuel s, (p < fuel)%nat → tree (sh_nodes s) c p → words_kept (sh_buf s) →
  ∃ b, nulterminate fuel p s = Ok (tt, sh_with_buf b s) ∧ words_kept b ∧ more_zeros (sh_buf s) b ∧
    ∀ b', words_kept b' → more_zeros b b' → reads (sh_nodes s) b' c p.
Proof.
  induction c as [args|c IH f mode fd|c1 IH1 c2 IH2|c1 IH1 c2 IH2|c IH]; intros p fuel s Hf Ht Hw; (destruct fuel as [|fuel]; [lia|]); cbn [nulterminate].
  - destruct Ht as (ws & Hp & HF & Hlt). rewrite (bind_Ok_eq _ _ _ (arg_node ws) s) by (unfold get_node; by rewrite Hp). cbn [arg_node].
    assert (Hlt2 : (length ws < MAXARGS)%nat) by (by rewrite (Forall2_length _ _ _ HF)).
    destruct (nul_args_ok ws args HF Hlt2 (S MAXARGS) 0%nat s) as (b & E & Hb & Hz & He); [lia|lia|done|constructor|].
    change (Z.of_nat 0) with 0 in E. exists b. split; [exact E|]. split; [done|]. split; [done|]. intros b' Hb' Hz'.
    eexists _, _. split; [exact Hp|]. split.
    + unfold slots. apply argv_strings_ok; [done|done|]. eapply Forall_impl; [exact He|]. intros x. apply Hz'.
    + eapply list_elem_of_lookup_2, slots_next. by rewrite length_fmap.
  - destruct Ht as (p' & q & e & Hp & Hwd & Hlt & Ht). rewrite (bind_Ok_eq _ _ _ _ s) by (unfold get_node; by rewrite Hp).
    destruct (IH p' fuel s ltac:(lia) Ht Hw) as (b & E & Hb & Hz & Hrd). cbv beta iota. rewrite (bind_Ok_eq _ _ _ _ _ E).
    destruct (stc_end (sh_with_buf b s) q e f Hb Hwd) as (b2 & E2 & Hb2 & Hz2 & H0). exists b2. split; [exact E2|]. split; [done|].
    split; [by etrans|]. intros b' Hb' Hz'. eexists _, _, _. split; [exact Hp|]. split; [done|]. split; [|apply Hrd; [done|by etrans]].
    apply (str_word b' q e f Hb' Hwd). by apply Hz'.
  - destruct Ht as (l & r & Hp & Hl & Hr & Ht1 & Ht2). rewrite (bind_Ok_eq _ _ _ _ s) by (unfold get_node; by rewrite Hp).
    destruct (IH1 l fuel s ltac:(lia) Ht1 Hw) as (b & E & Hb & Hz & Hrd). cbv beta iota. rewrite (bind_Ok_eq _ _ _ _ _ E).
    destruct (IH2 r fuel (sh_with_buf b s) ltac:(lia) Ht2 Hb) as (b2 & E2 & Hb2 & Hz2 & Hrd2). exists b2. split; [exact E2|]. split; [done|].
    split; [by etrans|]. intros b' Hb' Hz'. eexists _, _. split; [exact Hp|]. split; [done|]. split; [done|]. split; [apply Hrd; [done|by etrans]|by apply Hrd2].
  - destruct Ht as (l & r & Hp & Hl & Hr & Ht1 & Ht2). rewrite (bind_Ok_eq _ _ _ _ s) by (unfold get_node; by rewrite Hp).
    destruct (IH1 l fuel s ltac:(lia) Ht1 Hw) as (b & E & Hb & Hz & Hrd). cbv beta iota. rewrite (bind_Ok_eq _ _ _ _ _ E).
    destruct (IH2 r fuel (sh_with_buf b s) ltac:(lia) Ht2 Hb) as (b2 & E2 & Hb2 & Hz2 & Hrd2). exists b2. split; [exact E2|]. split; [done|].
    split; [by etrans|]. intros b' Hb' Hz'. eexists _, _. split; [exact Hp|]. split; [done|]. split; [done|]. split; [apply Hrd; [done|by etrans]|by apply Hrd2].
  - destruct Ht as (p' & Hp & Hlt & Ht). rewrite (bind_Ok_eq _ _ _ _ s) by (unfold get_node; by rewrite Hp).
    destruct (IH p' fuel s ltac:(lia) Ht Hw) as (b & E & Hb & Hz & Hrd). exists b. split; [exact E|]. split; [done|]. split; [done|].
    intros b' Hb' Hz'. eexists. split; [exact Hp|]. split; [done|]. by apply Hrd.
Qed.
End claims.

(** ** The whole parser *)

Lemma line_len_ok line rest : Forall (λ c : Z, c ≠ 0) line → line_len (line ++ 0 :: rest) = Some (Z.of_nat (length line)).
Proof.
  induction 1 as [|c line Hc _ IH]; [done|]. cbn [app line_len]. rewrite bool_decide_false by done. rewrite IH. cbn. f_equal. lia.
Qed.

Lemma lex_length : ∀ n l acc, (length l ≤ n)%nat → (length (lex_go acc l) ≤ length (flush acc) + length l)%nat.
Proof.
  assert (Hf : ∀ acc : list Z, (length (flush acc) ≤ 1)%nat) by (intros [|? ?]; simpl; lia).
  induction n as [|n IH]; intros [|c l] acc Hn; cbn [lex_go length]; try (simpl in Hn; lia).
  simpl in Hn. case_decide as Hc.
  - pose proof (IH l (acc ++ [c]) ltac:(lia)). specialize (Hf (acc ++ [c])). destruct acc as [|a acc]; simpl in *; lia.
  - rewrite length_app. pose proof (IH l [] ltac:(lia)) as H1. simpl in H1. case_decide; [lia|]. case_decide; [|simpl; lia].
    destruct l as [|d l]; [simpl; lia|]. simpl in Hn. case_decide; [|simpl length in *; lia].
    pose proof (IH l [] ltac:(lia)) as H5. simpl length in *. lia.
Qed.

Definition syntax_errors : list string :=
  ["syntax"; "missing file for redirection"; "too many args"; "syntax - missing )"].

Lemma res_bind_Panic {A B} (m : res A) (f : A → res B) e : m ≫= f = Panic e → m = Panic e ∨ ∃ a, m = Ok a ∧ f a = Panic e.
Proof. destruct m; try (intros H; discriminate H); [right; by eexists|intros [= ->]; by left]. Qed.
Ltac an_error := match goal with H : _ = Panic ?e |- ?e ∈ _ => cbv beta iota in H; injection H as <-; in_set end.

Lemma t_redirs_errors : ∀ n ts e, (length ts ≤ n)%nat → t_redirs ts = Panic e → e ∈ syntax_errors.
Proof.
  induction n as [|n IH]; intros ts e Hn E; (destruct ts as [|[w|op] ts]; [discriminate E|..]); try (simpl in Hn; lia); cbn [t_redirs] in E; [discriminate E|].
  case_decide; [|discriminate E]. destruct ts as [|[w|o] ts]; [an_error| |an_error].
  apply res_bind_Panic in E as [E|([] & _ & E)]; [|discriminate E]. eapply IH; [|exact E]. simpl in Hn. lia.
Qed.
Lemma t_items_errors : ∀ k n ts e, (length ts ≤ k)%nat → t_items n ts = Panic e → e ∈ syntax_errors.
Proof.
  induction k as [|k IH]; intros n ts e Hn E; (destruct ts as [|[w|op] ts]; [discriminate E|..]); try (simpl in Hn; lia); cbn [t_items] in E.
  - case_decide; [an_error|]. apply res_bind_Panic in E as [E|([] & _ & E)]; [|discriminate E]. eapply IH; [|exact E]. simpl in Hn. lia.
  - case_decide; [|case_decide; [discriminate E|an_error]]. destruct ts as [|[w|o] ts]; [an_error| |an_error].
    apply res_bind_Panic in E as [E|([] & _ & E)]; [|discriminate E]. eapply IH; [|exact E]. simpl in Hn. lia.
Qed.
(** [parseblock] is only called on a parenthesis. *)
Lemma t_errors : ∀ f e,
  (∀ ts, t_line f ts = Panic e → e ∈ syntax_errors) ∧ (∀ ts, t_pipe f ts = Panic e → e ∈ syntax_errors) ∧
  (∀ ts, is_Some (t_sym 40 ts) → t_block f ts = Panic e → e ∈ syntax_errors) ∧ (∀ ts, t_exec f ts = Panic e → e ∈ syntax_errors).
Proof.
  induction f as [|f IH]; intros e; [split; [|split; [|split]]; intros ts; [..|intros _|]; intros E; discriminate E|].
  destruct (IH e) as (IHl & IHp & IHb & IHe). split; [|split; [|split]]; intros ts; [intros E|intros E|intros [us Hus] E|intros E].
  - cbn [t_line] in E. apply res_bind_Panic in E as [E|([c ts1] & _ & E)]; [by eapply IHp|]. destruct (t_backs c ts1) as [c2 ts2].
    destruct (t_sym 59 ts2); [|discriminate E]. apply res_bind_Panic in E as [E|([] & _ & E)]; [by eapply IHl|discriminate E].
  - cbn [t_pipe] in E. apply res_bind_Panic in E as [E|([c ts1] & _ & E)]; [by eapply IHe|].
    destruct (t_sym 124 ts1); [|discriminate E]. apply res_bind_Panic in E as [E|([] & _ & E)]; [by eapply IHp|discriminate E].
  - cbn [t_block] in E. rewrite Hus in E. apply res_bind_Panic in E as [E|([c ts1] & _ & E)]; [by eapply IHl|].
    destruct (t_sym 41 ts1); [|an_error]. apply res_bind_Panic in E as [E|([] & _ & E)]; [by eapply t_redirs_errors|discriminate E].
  - cbn [t_exec] in E. destruct (t_sym 40 ts) eqn:Es; [by eapply IHb; [|exact E]|].
    apply res_bind_Panic in E as [E|([] & _ & E)]; [by eapply t_items_errors|discriminate E].
Qed.

Section parsecmd.
Context (line rest : list Z) (room : nat) (Hl : Forall (λ c : Z, c ≠ 0) line) (Hroom : (2 * length line + 1 ≤ room)%nat).
Local Abbreviation s0 := (mksh (line ++ 0 :: rest) [] room []).
Local Abbreviation fuel := (4 * Z.to_nat (Z.of_nat (length line) + 2))%nat.

(** The fuel of [parsecmd] is enough. *)
Lemma t_line_fuel : t_line fuel (lex line) ≠ Hang.
Proof using Type.
  clear Hroom.
  pose proof (lex_length _ line [] (Nat.le_refl _)) as Hlen. change (lex_go [] line) with (lex line) in Hlen. simpl in Hlen.
  destruct (t_halts fuel) as (Hh & _). apply Hh. lia.
Qed.
Lemma t_line_derives c : line_of (lex line) c → t_line fuel (lex line) = Ok (c, []).
Proof using Type.
  intros Hc. pose proof (proj1 t_complete _ _ Hc [] I fuel) as H. rewrite app_nil_r in H. destruct H as [H|H]; [|done].
  by apply t_line_fuel in H.
Qed.

Lemma front_start : parse_front s0 = ('(cmd, s) ← parseline fuel 0 (Z.of_nat (length line));
  '(_, s) ← peek s (Z.of_nat (length line)) []; mret (cmd, s, Z.of_nat (length line))) s0.
Proof.
  unfold parse_front. rewrite (bind_Ok_eq _ _ _ (line ++ 0 :: rest) s0) by done. rewrite line_len_ok by done.
  by rewrite (bind_Ok_eq _ _ _ (Z.of_nat (length line)) s0) by done.
Qed.
Lemma start_sim : psim line 0 s0 1 (parseline fuel 0 (Z.of_nat (length line)) s0) (t_line fuel (lex line)).
Proof.
  pose proof (lex_length _ line [] (Nat.le_refl _)) as Hlen. change (lex_go [] line) with (lex line) in Hlen. simpl in Hlen.
  destruct (parse_sim line rest Hl fuel) as (Hsim & _). apply (Hsim 0%nat s0 eq_refl); [lia|]. cbn [sh_room]. rewrite drop_0. lia.
Qed.

(** Where the parser stops on a line that it can begin. *)
Lemma front_ok c ts : t_line fuel (lex line) = Ok (c, ts) → ∃ p k s1, parse_front s0 = Ok ((p, Z.of_nat k, Z.of_nat (length line)), s1) ∧
  has_line line rest s1 ∧ sh_err s1 = [] ∧ tree line (sh_nodes s1) c p ∧ (p < length (sh_nodes s1))%nat ∧
  (k ≤ length line)%nat ∧ lex (drop k line) = ts ∧ ¬ white (hd0 (drop k line)) ∧ (ts = [] ↔ k = length line).
Proof.
  intros Et. pose proof start_sim as Hsim. rewrite Et in Hsim. rewrite front_start.
  destruct Hsim as (p & j & s1 & E1 & Hj & L1 & X1 & T1 & P1 & _). rewrite (bind_Ok_eq _ _ _ _ _ E1). cbv beta iota.
  assert (Hs1 : has_line line rest s1) by (eapply ext_line; [exact X1|done]).
  destruct (peek_ok line rest Hl j s1 [] Hs1 ltac:(lia)) as (k & Ek & Hk & Lk & Hend); [by intros x ?%elem_of_nil|].
  rewrite (bind_Ok_eq _ _ _ _ _ Ek). cbv beta iota. rewrite L1 in Hend, Lk. exists p, k, s1.
  split; [done|]. split; [done|]. split; [by destruct X1 as (_ & -> & _)|]. split; [done|]. split; [done|]. split; [lia|]. split; [done|].
  split; [by eapply peek_not_white; [| | |exact Ek]; [..|lia]|done].
Qed.

Lemma parsecmd_accepts c : line_of (lex line) c →
  ∃ p s', parsecmd s0 = Ok (p, s') ∧ sh_err s' = [] ∧ reads (sh_nodes s') (sh_buf s') c p.
Proof.
  intros Hc. destruct (front_ok c [] (t_line_derives c Hc)) as (p & k & s1 & E1 & Hs1 & He & T1 & P1 & _ & _ & _ & [Hend _]).
  specialize (Hend eq_refl) as ->. unfold parsecmd. rewrite (bind_Ok_eq _ _ _ _ _ E1). cbv beta iota.
  rewrite (bind_Ok_eq _ _ _ (sh_buf s1) s1) by done. rewrite bool_decide_false by tauto. rewrite (bind_Ok_eq _ _ _ (sh_nodes s1) s1) by done.
  destruct (nulterminate_ok line rest c p (S (length (sh_nodes s1))) s1 ltac:(lia) T1) as (b & Eb & Hb & Hz & Hrd).
  { rewrite Hs1. split; [done|]. intros i x Hx _. by apply lookup_app_l_Some. }
  rewrite (bind_Ok_eq _ _ _ _ _ Eb). exists p, (sh_with_buf b s1). split; [done|]. split; [exact He|]. apply Hrd; [done|by intros i].
Qed.

(** A line that is refused: the tokens up to a point make a command, and the rest
    is printed; or there is no such point. *)
Lemma parsecmd_refuses : (∀ c, ¬ line_of (lex line) c) →
  (∃ c u v, line = u ++ v ∧ v ≠ [] ∧ ¬ white (hd0 v) ∧ t_line fuel (lex line) = Ok (c, lex v) ∧
     parsecmd s0 = Panic "syntax" ∧ leftovers s0 = Some (chars "leftovers: " ++ v ++ [10])) ∨
  (∃ e, t_line fuel (lex line) = Panic e ∧ e ∈ syntax_errors ∧ parsecmd s0 = Panic e ∧ leftovers s0 = None).
Proof.
  intros Hno. destruct (t_line fuel (lex line)) as [[c ts]|e| |] eqn:Et.
  - left. destruct (front_ok c ts Et) as (p & k & s1 & E1 & Hs1 & _ & _ & _ & Hk & Lk & Hw & Hend).
    assert (Hne : k ≠ length line).
    { intros Hkl. apply Hend in Hkl as ->. apply t_sound in Et as (us & Eu & Hu). rewrite app_nil_r in Eu. subst us. by apply Hno in Hu. }
    exists c, (take k line), (drop k line). split; [by rewrite take_drop|]. split; [intros H; apply Hne; apply (f_equal length) in H; rewrite length_drop in H; simpl in H; lia|].
    split; [done|]. split; [by rewrite Lk|]. unfold parsecmd, leftovers. rewrite (bind_Ok_eq _ _ _ _ _ E1), E1. cbv beta iota.
    rewrite (bind_Ok_eq _ _ _ (sh_buf s1) s1) by done. rewrite bool_decide_true by lia. split; [done|].
    unfold leftover_text, str_at. rewrite Hs1, Nat2Z.id, drop_app_le by done. do 3 f_equal.
    assert (HF : Forall (λ c : Z, c ≠ 0) (drop k line)) by (by apply Forall_drop). clear -HF. induction HF as [|x l Hx _ IH]; [done|]. cbn. by rewrite bool_decide_false, IH.
  - right. exists e. pose proof start_sim as Hsim. rewrite Et in Hsim. assert (Ef : parse_front s0 = Panic e) by (rewrite front_start; by apply bind_Panic_eq).
    split; [done|]. split; [by apply (proj1 (t_errors fuel e) (lex line))|]. unfold parsecmd, leftovers. rewrite Ef. split; [by apply bind_Panic_eq|done].
  - pose proof start_sim as Hsim. by rewrite Et in Hsim.
  - by apply t_line_fuel in Et.
Qed.
Lemma parsecmd_rejects : (∀ c, ¬ line_of (lex line) c) → ∃ e, parsecmd s0 = Panic e ∧ e ∈ syntax_errors.
Proof.
  intros [(c & u & v & _ & _ & _ & _ & E & _)|(e & _ & He & E & _)]%parsecmd_refuses; [exists "syntax"; split; [done|in_set]|by exists e].
Qed.

Lemma line_decided : (∃ c, line_of (lex line) c) ∨ (∀ c, ¬ line_of (lex line) c).
Proof using Type.
  destruct (t_line fuel (lex line)) as [[c [|t ts']]|e| |] eqn:Et; [left|right; intros d Hd; apply t_line_derives in Hd; congruence..].
  exists c. apply t_sound in Et as (us & Eu & Hu). rewrite app_nil_r in Eu. by subst us.
Qed.
End parsecmd.

(** C37: the shell's parser decides its grammar.  For a line of any characters but
    NUL, with memory for two nodes per character: either the tokens of the line
    derive exactly one command, and [parsecmd] returns a tree that reads as this
    command, its words being C strings in the buffer; or they derive none, and it
    stops with one of four messages.  It always terminates, and never reads or
    writes outside the line or the argument arrays. *)
Theorem parsecmd_correct line rest room :
  Forall (λ c : Z, c ≠ 0) line → (2 * length line + 1 ≤ room)%nat →
  (∃ c p s', line_of (lex line) c ∧ (∀ d, line_of (lex line) d → d = c) ∧
     parsecmd (mksh (line ++ 0 :: rest) [] room []) = Ok (p, s') ∧ sh_err s' = [] ∧ reads (sh_nodes s') (sh_buf s') c p) ∨
  ((∀ c, ¬ line_of (lex line) c) ∧ ∃ e, parsecmd (mksh (line ++ 0 :: rest) [] room []) = Panic e ∧ e ∈ syntax_errors).
Proof.
  intros Hl Hroom. destruct (line_decided line) as [[c Hc]|Hno].
  - left. destruct (parsecmd_accepts line rest room Hl Hroom c Hc) as (p & s' & ?). exists c, p, s'. split; [done|]. split; [|done].
    intros d Hd. apply t_line_derives in Hc, Hd. rewrite Hc in Hd. by injection Hd.
  - right. split; [done|]. by apply parsecmd_rejects.
Qed.

(** [ls|wc>x;] and a line with too many commands after [&]. *)
Definition demo_cmdline : list Z := [108; 115; 124; 119; 99; 62; 120; 59].
Lemma parsecmd_correct_witness :
  (∃ c p s', line_of (lex demo_cmdline) c ∧ parsecmd (mksh (demo_cmdline ++ [0]) [] 17 []) = Ok (p, s') ∧ reads (sh_nodes s') (sh_buf s') c p) ∧
  ∀ c, ¬ line_of (lex [108; 38; 108]) c.
Proof.
  split.
  - destruct (parsecmd_correct demo_cmdline [] 17) as [(c & p & s' & Hc & _ & E & _ & Hr)|[_ (e & E & _)]].
    + unfold demo_cmdline. repeat constructor; lia.
    + vm_compute. lia.
    + by exists c, p, s'.
    + vm_compute in E. discriminate E.
  - destruct (parsecmd_correct [108; 38; 108] [] 7) as [(c & p & s' & _ & _ & E & _)|[Hno _]]; [repeat constructor; lia|vm_compute; lia| |exact Hno].
    vm_compute in E. discriminate E.
Defined.

(** ** Printing commands *)

Definition redir_op (mode fd : Z) : Z := if decide (mode = O_RDONLY) then 60 else if decide (mode = Z.lor (Z.lor O_WRONLY O_CREATE) O_TRUNC) then 62 else 43.
Definition word_ok (w : word) : Prop := w ≠ [] ∧ Forall wordc w.
(** What a line can say: words of word characters, at most nine arguments, the
    three kinds of redirection. *)
Fixpoint cmd_ok (c : shcmd) : Prop :=
  match c with
  | Exec args => Forall word_ok args ∧ (length args < MAXARGS)%nat
  | Redir c f mode fd => cmd_ok c ∧ word_ok f ∧ redir_how (redir_op mode fd) = (mode, fd)
  | Pipe c d | Seq c d => cmd_ok c ∧ cmd_ok d
  | Back c => cmd_ok c
  end.
Definition parens (ts : list tok) : list tok := TSym 40 :: ts ++ [TSym 41].
Fixpoint toks_of (c : shcmd) : list tok :=
  match c with
  | Exec args => TWord <$> args
  | Redir c f mode fd => parens (toks_of c) ++ [TSym (redir_op mode fd); TWord f]
  | Pipe c d => parens (toks_of c) ++ TSym 124 :: parens (toks_of d)
  | Seq c d => parens (toks_of c) ++ TSym 59 :: parens (toks_of d)
  | Back c => parens (toks_of c) ++ [TSym 38]
  end.
Definition tok_text (t : tok) : list Z := match t with TWord w => w | TSym c => if decide (c = 43) then [62; 62] else [c] end.
(** A blank after every token. *)
Definition text_of (ts : list tok) : list Z := ts ≫= λ t, tok_text t ++ [32].

Definition tok_ok (t : tok) : Prop := match t with TWord w => word_ok w | TSym c => c ∈ tok_syms end.
Lemma lex_text ts : Forall tok_ok ts → lex (text_of ts) = ts.
Proof.
  assert (Hw : white 32) by (unfold white; in_set). assert (H32 : ¬ wordc 32) by (intros (_ & H & _); by apply H).
  induction 1 as [|t ts Ht _ IH]; [done|]. cbn [text_of mbind list_bind]. rewrite <-app_assoc. change (mbind _ ts) with (text_of ts). cbn [app].
  destruct t as [w|c]; cbn [tok_text tok_ok] in *.
  - destruct Ht as [Hn HF]. rewrite lex_word by done. by rewrite lex_white, IH.
  - case_decide as Hc; [subst c; cbn [app]; rewrite lex_gt, decide_True by done; cbn [drop]; by rewrite lex_white, IH|].
    assert (Hs : c ∈ symbols) by (unfold tok_syms in Ht; set_solver). cbn [app]. destruct (decide (c = 62)) as [->|H62].
    + rewrite lex_gt, decide_False by done. by rewrite lex_white, IH.
    + rewrite lex_sym by done. by rewrite lex_white, IH.
Qed.

Lemma toks_ok c : cmd_ok c → Forall tok_ok (toks_of c).
Proof.
  assert (Hp : ∀ ts, Forall tok_ok ts → Forall tok_ok (parens ts)).
  { intros ts H. constructor; [unfold tok_ok, tok_syms; in_set|]. apply Forall_app. split; [done|]. constructor; [unfold tok_ok, tok_syms; in_set|done]. }
  assert (Hs : ∀ op, op ∈ [124; 59; 38] → tok_ok (TSym op)) by (intros op H; unfold tok_ok, tok_syms, symbols; set_solver).
  induction c as [args|c IH f mode fd|c IHc d IHd|c IHc d IHd|c IH]; cbn [cmd_ok toks_of].
  - intros [H _]. by apply Forall_fmap.
  - intros (H & Hf & _). apply Forall_app. split; [by apply Hp, IH|]. constructor; [|by constructor].
    unfold tok_ok, redir_op. repeat case_decide; unfold tok_syms; in_set.
  - intros [H1 H2]. apply Forall_app. split; [by apply Hp, IHc|]. constructor; [apply Hs; set_solver|by apply Hp, IHd].
  - intros [H1 H2]. apply Forall_app. split; [by apply Hp, IHc|]. constructor; [apply Hs; set_solver|by apply Hp, IHd].
  - intros H. apply Forall_app. split; [by apply Hp, IH|]. constructor; [apply Hs; set_solver|done].
Qed.

Lemma block_exec ts c : line_of ts c → exec_of (parens ts) c.
Proof. intros H. apply (exec_block ts c []); [done|constructor]. Qed.
Lemma toks_derive c : cmd_ok c → line_of (toks_of c) c.
Proof.
  assert (Hline : ∀ ts d, pipe_of ts d → line_of ts d) by (intros ts d H; rewrite <-(app_nil_r ts); by apply (line_one ts d 0)).
  induction c as [args|c IH f mode fd|c IHc d IHd|c IHc d IHd|c IH]; cbn [cmd_ok toks_of].
  - intros [H Hlt]. apply Hline, pipe_one. pose proof (exec_simple (Arg <$> args)) as He.
    assert (Ha : args_of (Arg <$> args) = args) by (clear; induction args as [|w args IH]; [done|]; cbn; f_equal; exact IH).
    assert (Hr : rdrs_of (Arg <$> args) = []) by (clear; by induction args).
    assert (Ht : ((Arg <$> args) ≫= item_toks) = TWord <$> args) by (clear; induction args as [|w args IH]; [done|]; cbn; f_equal; exact IH).
    rewrite Ha, Hr, Ht in He. apply He; [|done]. apply Forall_fmap. by apply Forall_true.
  - intros (H & Hf & Hm). apply Hline, pipe_one. unfold parens. cbn [app]. rewrite <-app_assoc.
    pose proof (exec_block (toks_of c) c [(redir_op mode fd, f)] (IH H)) as He. cbn in He. unfold wrap in He. cbn in He. rewrite Hm in He.
    apply He. constructor; [|constructor]. cbn. unfold redir_op. repeat case_decide; unfold redir_ops; in_set.
  - intros [H1 H2]. apply Hline, pipe_more; [by apply block_exec, IHc|]. by apply pipe_one, block_exec, IHd.
  - intros [H1 H2]. apply (line_seq (parens (toks_of c)) c 0); [by apply pipe_one, block_exec, IHc|]. by apply Hline, pipe_one, block_exec, IHd.
  - intros H. apply (line_one (parens (toks_of c)) c 1). by apply pipe_one, block_exec, IH.
Qed.

Lemma text_no_nul ts : Forall tok_ok ts → Forall (λ c : Z, c ≠ 0) (text_of ts).
Proof.
  assert (Hs : ∀ c, c ∈ tok_syms → c ≠ 0) by (intros c H ->; revert H; change (0 ∉ tok_syms); unfold tok_syms; in_set).
  induction 1 as [|t ts Ht _ IH]; [done|]. cbn [text_of mbind list_bind]. apply Forall_app. split; [|exact IH].
  apply Forall_app. split; [|by repeat constructor]. destruct t as [w|c]; cbn [tok_text tok_ok] in *.
  - destruct Ht as [_ H]. eapply Forall_impl; [exact H|]. by intros x [? _].
  - case_decide; repeat constructor; [done|done|by apply Hs].
Qed.

(** C38: printing a command and parsing the line gives the command back: every
    command tree that a line can say is the tree of its printed form, in which
    every part is parenthesised and every token is followed by a blank. *)
Theorem command_roundtrip c rest room :
  cmd_ok c → (2 * length (text_of (toks_of c)) + 1 ≤ room)%nat →
  ∃ p s', parsecmd (mksh (text_of (toks_of c) ++ 0 :: rest) [] room []) = Ok (p, s') ∧ reads (sh_nodes s') (sh_buf s') c p.
Proof.
  intros Hc Hroom. pose proof (toks_ok c Hc) as Ht.
  destruct (parsecmd_accepts (text_of (toks_of c)) rest room (text_no_nul _ Ht) Hroom c) as (p & s' & E & _ & H); [|by exists p, s'].
  rewrite lex_text by done. by apply toks_derive.
Qed.

(** [( ( ls -l ) | ( wc ) ) > x] *)
Definition demo_cmd : shcmd :=
  Redir (Pipe (Exec [[108; 115]; [45; 108]]) (Exec [[119; 99]])) [120] 1537 1.
Lemma command_roundtrip_witness :
  cmd_ok demo_cmd ∧ ∃ p s', parsecmd (mksh (text_of (toks_of demo_cmd) ++ [0]) [] 60 []) = Ok (p, s') ∧ reads (sh_nodes s') (sh_buf s') demo_cmd p.
Proof.
  assert (Hws : ∀ l : list word, bool_decide (Forall (λ w, w ≠ [] ∧ Forall wordc w) l) = true → Forall word_ok l).
  { intros l H. by apply bool_decide_eq_true_1 in H. }
  assert (H : cmd_ok demo_cmd).
  { split; [|split; [|done]].
    - split; (split; [by apply Hws|vm_compute; lia]).
    - by apply (Forall_inv (Hws [[120]] eq_refl)). }
  split; [exact H|]. apply (command_roundtrip demo_cmd [] 60 H). vm_compute. lia.
Defined.
