(* ===== verification/File.v ===== *)
(** * The file table and file descriptors: kernel/file.c, pipealloc, and the
    descriptor calls of kernel/sysfile.c

    A [struct file *] is an index into [ftable.file], a descriptor an index into
    the [ofile] array of the running process; the pipes are those of Pipe.v, by
    the address of their page.  The page allocator, the file system, the devices
    and user memory are the class [FileEnv].  A call that goes to sleep in a pipe
    or a device ends with [PSleep]. *)
From S2P Require Import Prelude Spinlock Inode Pipe.

Definition NFILE : nat := 100.
Definition NOFILE : nat := 16.
Definition NDEV : Z := 10.

Inductive ftype := FD_NONE | FD_PIPE | FD_INODE | FD_DEVICE.
#[global] Instance ftype_eq_dec : EqDecision ftype.
Proof. solve_decision. Defined.

(** [struct file] *)
Record file := mkfile {
  fl_type : ftype; fl_ref : Z; fl_readable : Z; fl_writable : Z;
  fl_pipe : Z; fl_ip : nat; fl_off : Z; fl_major : Z }.
Definition file0 : file := mkfile FD_NONE 0 0 0 0 0 0 0.

Definition fl_with_ref (r : Z) (f : file) : file :=
  mkfile (fl_type f) r (fl_readable f) (fl_writable f) (fl_pipe f) (fl_ip f) (fl_off f) (fl_major f).
Definition fl_with_off (o : Z) (f : file) : file :=
  mkfile (fl_type f) (fl_ref f) (fl_readable f) (fl_writable f) (fl_pipe f) (fl_ip f) o (fl_major f).
Definition fl_close (f : file) : file :=
  mkfile FD_NONE 0 (fl_readable f) (fl_writable f) (fl_pipe f) (fl_ip f) (fl_off f) (fl_major f).
Definition fl_as_pipe (r w : Z) (pi : Z) (f : file) : file :=
  mkfile FD_PIPE (fl_ref f) r w pi (fl_ip f) (fl_off f) (fl_major f).

Class FileEnv (E : Type) := {
  fe_hart : E → hart;
  fe_set_hart : hart → E → E;
  fe_killed : E → bool;
  fe_kalloc : M E (option Z);
  fe_kfree : Z → M E unit;
  fe_begin_op : M E unit;
  fe_end_op : M E unit;
  fe_ilock : nat → M E unit;
  fe_iunlock : nat → M E unit;
  fe_iput : nat → M E unit;
  fe_stati : nat → M E istat;
  fe_copyout_stat : Z → istat → M E Z;
  fe_copyout_int : Z → Z → M E Z;
  fe_readi : nat → Z → Z → Z → M E Z;   (** [readi(ip, 1, addr, off, n)] *)
  fe_writei : nat → Z → Z → Z → M E Z;
  fe_copyin1 : Z → E → option Z;        (** one byte of user memory *)
  fe_copyout1 : Z → Z → E → option E;
  fe_dev_read : Z → option (Z → Z → M E presult);
  fe_dev_write : Z → option (Z → Z → M E presult) }.

(** The table and its lock, the descriptors of every process and which one runs,
    and the pipes. *)
Record ftst (E : Type) := mkft {
  ft_lock : spinlock; ft_file : list file; ft_of : list (list (option nat)); ft_cur : nat; ft_pipes : gmap Z pipe; ft_env : E }.
Arguments mkft {E}. Arguments ft_lock {E}. Arguments ft_file {E}. Arguments ft_of {E}. Arguments ft_cur {E}. Arguments ft_pipes {E}. Arguments ft_env {E}.

Section file_c.
Context {E : Type} `{!FileEnv E}.
Abbreviation T := (ftst E).

Definition ft_with_lock (lk : spinlock) (s : T) : T := mkft lk (ft_file s) (ft_of s) (ft_cur s) (ft_pipes s) (ft_env s).
Definition ft_with_file (l : list file) (s : T) : T := mkft (ft_lock s) l (ft_of s) (ft_cur s) (ft_pipes s) (ft_env s).
Definition ft_with_of (l : list (list (option nat))) (s : T) : T := mkft (ft_lock s) (ft_file s) l (ft_cur s) (ft_pipes s) (ft_env s).
Definition ft_with_cur (i : nat) (s : T) : T := mkft (ft_lock s) (ft_file s) (ft_of s) i (ft_pipes s) (ft_env s).
Definition ft_with_pipes (m : gmap Z pipe) (s : T) : T := mkft (ft_lock s) (ft_file s) (ft_of s) (ft_cur s) m (ft_env s).
Definition ft_with_env (e : E) (s : T) : T := mkft (ft_lock s) (ft_file s) (ft_of s) (ft_cur s) (ft_pipes s) e.

(** [ftable.lock] *)
#[export] Instance ft_locks : HasLocks T unit := {
  get_hart s := fe_hart (ft_env s); set_hart h s := ft_with_env (fe_set_hart h (ft_env s)) s;
  get_lock _ := ft_lock; set_lock _ := ft_with_lock }.

Definition env {A} (m : M E A) : M T A := λ s,
  match m (ft_env s) with
  | Ok (a, e) => Ok (a, ft_with_env e s)
  | Panic e => Panic e
  | Fault => Fault
  | Hang => Hang
  end.
Definition getf (f : nat) : M T file := λ s, match ft_file s !! f with Some x => Ok (x, s) | None => Fault end.
Definition updf (f : nat) (g : file → file) : M T unit := λ s,
  match ft_file s !! f with Some x => Ok (tt, ft_with_file (<[f := g x]> (ft_file s)) s) | None => Fault end.

(** A function of pipe.c on the pipe at [pi]; the page goes when it is freed. *)
Definition freed_page (l : list event) : bool := existsb (λ e, match e with EvKfree => true | _ => false end) l.
Definition on_pipe {A} (pi : Z) (m : M (pst (U := E)) A) : M T A := λ s,
  match ft_pipes s !! pi with
  | None => Fault
  | Some p =>
      match m (mkpst p (ft_env s) []) with
      | Ok (a, t) =>
          let s' := ft_with_env (um t) s in
          if freed_page (evs t) then (env (fe_kfree pi) ;; mret a) (ft_with_pipes (delete pi (ft_pipes s)) s')
          else Ok (a, ft_with_pipes (<[pi := Pipe.pi t]> (ft_pipes s)) s')
      | Panic e => Panic e
      | Fault => Fault
      | Hang => Hang
      end
  end.

Definition fileinit : M T unit := modify (ft_with_lock (initlock "ftable")).

(** The search of [filealloc] from slot [i]. *)
Fixpoint filealloc_scan (k i : nat) : M T (option nat) :=
  match k with
  | O => releaseM tt ;; mret None
  | S k =>
      f ← getf i;
      if bool_decide (fl_ref f = 0) then updf i (fl_with_ref 1) ;; releaseM tt ;; mret (Some i)
      else filealloc_scan k (S i)
  end.
Definition filealloc : M T (option nat) := acquireM tt ;; filealloc_scan NFILE 0.

Definition filedup (f : nat) : M T nat :=
  acquireM tt ;;
  x ← getf f;
  if bool_decide (fl_ref x < 1) then panic "filedup"
  else updf f (fl_with_ref (i32 (fl_ref x + 1))) ;; releaseM tt ;; mret f.

Definition fileclose (f : nat) : M T unit :=
  acquireM tt ;;
  x ← getf f;
  if bool_decide (fl_ref x < 1) then panic "fileclose"
  else
    updf f (fl_with_ref (fl_ref x - 1)) ;;
    if bool_decide (fl_ref x - 1 > 0) then releaseM tt
    else
      ff ← getf f;
      updf f fl_close ;;
      releaseM tt ;;
      match fl_type ff with
      | FD_PIPE => on_pipe (fl_pipe ff) (pipeclose (bool_decide (fl_writable ff ≠ 0)))
      | FD_INODE | FD_DEVICE => env fe_begin_op ;; env (fe_iput (fl_ip ff)) ;; env fe_end_op
      | FD_NONE => mret tt
      end.

Definition filestat (f : nat) (addr : Z) : M T Z :=
  x ← getf f;
  match fl_type x with
  | FD_INODE | FD_DEVICE =>
      env (fe_ilock (fl_ip x)) ;;
      st ← env (fe_stati (fl_ip x));
      env (fe_iunlock (fl_ip x)) ;;
      r ← env (fe_copyout_stat addr st);
      if bool_decide (r < 0) then mret (-1) else mret 0
  | _ => mret (-1)
  end.

Definition fileread (f : nat) (addr n : Z) : M T presult :=
  x ← getf f;
  if bool_decide (fl_readable x = 0) then mret (PRet (-1))
  else
    match fl_type x with
    | FD_PIPE => killed ← gets (λ s, fe_killed (ft_env s)); on_pipe (fl_pipe x) (piperead fe_copyout1 killed addr n)
    | FD_DEVICE =>
        match (if bool_decide (fl_major x < 0) || bool_decide (fl_major x >= NDEV) then None else fe_dev_read (fl_major x)) with
        | None => mret (PRet (-1))
        | Some read => env (read addr n)
        end
    | FD_INODE =>
        env (fe_ilock (fl_ip x)) ;;
        r ← env (fe_readi (fl_ip x) addr (fl_off x) n);
        (if bool_decide (r > 0) then updf f (λ x, fl_with_off (u32 (fl_off x + r)) x) else mret tt) ;;
        env (fe_iunlock (fl_ip x)) ;;
        mret (PRet r)
    | FD_NONE => panic "fileread"
    end.

(** [((MAXOPBLOCKS-1-1-2) / 2) * BSIZE] *)
Definition max_write : Z := 3072.
(** The loop of [filewrite] from [i]: a transaction for every piece. *)
Fixpoint filewrite_loop (fuel : nat) (f : nat) (addr n i : Z) : M T Z :=
  match fuel with
  | O => hang
  | S fuel =>
      if bool_decide (i < n) then
        let n1 := if bool_decide (n - i > max_write) then max_write else n - i in
        env fe_begin_op ;;
        x ← getf f;
        env (fe_ilock (fl_ip x)) ;;
        x ← getf f;
        r ← env (fe_writei (fl_ip x) (addr + i) (fl_off x) n1);
        (if bool_decide (r > 0) then updf f (λ x, fl_with_off (u32 (fl_off x + r)) x) else mret tt) ;;
        env (fe_iunlock (fl_ip x)) ;;
        env fe_end_op ;;
        if bool_decide (r ≠ n1) then mret i else filewrite_loop fuel f addr n (i + r)
      else mret i
  end.
Definition filewrite (f : nat) (addr n : Z) : M T presult :=
  x ← getf f;
  if bool_decide (fl_writable x = 0) then mret (PRet (-1))
  else
    match fl_type x with
    | FD_PIPE => killed ← gets (λ s, fe_killed (ft_env s)); on_pipe (fl_pipe x) (pipewrite fe_copyin1 killed addr n)
    | FD_DEVICE =>
        match (if bool_decide (fl_major x < 0) || bool_decide (fl_major x >= NDEV) then None else fe_dev_write (fl_major x)) with
        | None => mret (PRet (-1))
        | Some write => env (write addr n)
        end
    | FD_INODE =>
        i ← filewrite_loop (Z.to_nat (n / max_write) + 2) f addr n 0;
        mret (PRet (if bool_decide (i = n) then n else -1))
    | FD_NONE => panic "filewrite"
    end.

(** ** [pipealloc] *)

(** A new pipe; its data are the fives that [kalloc] leaves in a page. *)
Definition new_pipe : pipe := mkpipe (replicate (Z.to_nat PIPESIZE) 5) 0 0 1 1.
Definition pipealloc : M T (option (nat * nat)) :=
  f0 ← filealloc;
  match f0 with
  | None => mret None
  | Some a =>
      f1 ← filealloc;
      match f1 with
      | None => fileclose a ;; mret None
      | Some b =>
          pi ← env fe_kalloc;
          match pi with
          | None => fileclose a ;; fileclose b ;; mret None
          | Some pi =>
              modify (λ s, ft_with_pipes (<[pi := new_pipe]> (ft_pipes s)) s) ;;
              updf a (fl_as_pipe 1 0 pi) ;;
              updf b (fl_as_pipe 0 1 pi) ;;
              mret (Some (a, b))
          end
      end
  end.

(** ** Descriptors *)

(** [p->ofile[fd]] and [p->ofile[fd] = f] of process [i] *)
Definition get_of (i fd : nat) : M T (option nat) := λ s,
  match ft_of s !! i ≫= λ l, l !! fd with Some f => Ok (f, s) | None => Fault end.
Definition set_of (i fd : nat) (f : option nat) : M T unit := λ s,
  match ft_of s !! i with
  | Some l => match l !! fd with Some _ => Ok (tt, ft_with_of (<[i := <[fd := f]> l]> (ft_of s)) s) | None => Fault end
  | None => Fault
  end.

(** The descriptor as an index, with its file. *)
Definition argfd (fd : Z) : M T (option (nat * nat)) :=
  if bool_decide (fd < 0) || bool_decide (fd >= Z.of_nat NOFILE) then mret None
  else
    i ← gets ft_cur;
    f ← get_of i (Z.to_nat fd);
    match f with Some f => mret (Some (Z.to_nat fd, f)) | None => mret None end.

Fixpoint fdalloc_scan (k fd : nat) (i f : nat) : M T (option nat) :=
  match k with
  | O => mret None
  | S k =>
      x ← get_of i fd;
      match x with
      | None => set_of i fd (Some f) ;; mret (Some fd)
      | Some _ => fdalloc_scan k (S fd) i f
      end
  end.
Definition fdalloc (f : nat) : M T (option nat) := i ← gets ft_cur; fdalloc_scan NOFILE 0 i f.

Definition sys_dup (fd : Z) : M T Z :=
  a ← argfd fd;
  match a with
  | None => mret (-1)
  | Some (_, f) =>
      fd ← fdalloc f;
      match fd with
      | None => mret (-1)
      | Some fd => filedup f ;; mret (Z.of_nat fd)
      end
  end.

Definition sys_read (fd p n : Z) : M T presult :=
  a ← argfd fd;
  match a with None => mret (PRet (-1)) | Some (_, f) => fileread f p n end.
Definition sys_write (fd p n : Z) : M T presult :=
  a ← argfd fd;
  match a with None => mret (PRet (-1)) | Some (_, f) => filewrite f p n end.

Definition sys_close (fd : Z) : M T Z :=
  a ← argfd fd;
  match a with
  | None => mret (-1)
  | Some (fd, f) => i ← gets ft_cur; set_of i fd None ;; fileclose f ;; mret 0
  end.

Definition sys_fstat (fd st : Z) : M T Z :=
  a ← argfd fd;
  match a with None => mret (-1) | Some (_, f) => filestat f st end.

Definition sys_pipe (fdarray : Z) : M T Z :=
  i ← gets ft_cur;
  r ← pipealloc;
  match r with
  | None => mret (-1)
  | Some (rf, wf) =>
      fd0 ← fdalloc rf;
      match fd0 with
      | None => fileclose rf ;; fileclose wf ;; mret (-1)
      | Some fd0 =>
          fd1 ← fdalloc wf;
          match fd1 with
          | None => set_of i fd0 None ;; fileclose rf ;; fileclose wf ;; mret (-1)
          | Some fd1 =>
              r ← env (fe_copyout_int fdarray (Z.of_nat fd0));
              r ← (if bool_decide (r < 0) then mret r else env (fe_copyout_int (fdarray + 4) (Z.of_nat fd1)));
              if bool_decide (r < 0) then
                set_of i fd0 None ;; set_of i fd1 None ;; fileclose rf ;; fileclose wf ;; mret (-1)
              else mret 0
          end
      end
  end.

(** The end of [sys_open]: a file and a descriptor for inode [ip]; [dev] and
    [major] are those of the inode. *)
Definition open_file (ip : nat) (dev : bool) (major omode : Z) : M T Z :=
  f ← filealloc;
  match f with
  | None => mret (-1)
  | Some f =>
      fd ← fdalloc f;
      match fd with
      | None => fileclose f ;; mret (-1)
      | Some fd =>
          updf f (λ x, mkfile (if dev then FD_DEVICE else FD_INODE) (fl_ref x)
                         (if bool_decide (Z.land omode 1 = 0) then 1 else 0)
                         (if bool_decide (Z.land omode 1 ≠ 0) || bool_decide (Z.land omode 2 ≠ 0) then 1 else 0)
                         (fl_pipe x) ip (if dev then fl_off x else 0) (if dev then major else fl_major x)) ;;
          mret (Z.of_nat fd)
      end
  end.

(** ** The descriptors in [fork] and [exit] *)

(** [for(i = 0; i < NOFILE; i++) if(p->ofile[i]) np->ofile[i] = filedup(p->ofile[i])] *)
Definition fork_file (i j fd : nat) : M T unit :=
  f ← get_of i fd;
  match f with Some f => f' ← filedup f; set_of j fd (Some f') | None => mret tt end.
Definition fork_files (j : nat) : M T unit := i ← gets ft_cur; forM (seq 0 NOFILE) (fork_file i j).
(** [for(int fd = 0; fd < NOFILE; fd++) if(p->ofile[fd]) { fileclose; p->ofile[fd] = 0 }] *)
Definition exit_file (i fd : nat) : M T unit :=
  f ← get_of i fd;
  match f with Some f => fileclose f ;; set_of i fd None | None => mret tt end.
Definition exit_files : M T unit := i ← gets ft_cur; forM (seq 0 NOFILE) (exit_file i).
End file_c.
