(* ===== verification/FileOps.v ===== *)
(** * References to files

    The reference count of a file is the number of descriptors that hold it, in
    all processes together; [x] counts the references a call holds besides. *)
From S2P Require Import Prelude Spinlock Pipe Sleeplock Inode File.

(** ** Counting *)

Definition cnt (f : nat) (l : list (option nat)) : Z := Z.of_nat (length (filter (λ x, x = Some f) l)).
Definition is_f (f : nat) (v : option nat) : Z := if decide (v = Some f) then 1 else 0.

Lemma cnt_nil f : cnt f [] = 0.
Proof. done. Qed.
Lemma cnt_cons f v l : cnt f (v :: l) = is_f f v + cnt f l.
Proof. unfold cnt, is_f. rewrite filter_cons. case_decide; simpl; lia. Qed.
Lemma cnt_app f l k : cnt f (l ++ k) = cnt f l + cnt f k.
Proof. unfold cnt. rewrite filter_app, length_app. lia. Qed.
Lemma cnt_nonneg f l : 0 ≤ cnt f l ≤ Z.of_nat (length l).
Proof. unfold cnt. pose proof (length_filter (λ x : option nat, x = Some f) l). lia. Qed.
Lemma cnt_insert f l k old v : l !! k = Some old → cnt f (<[k := v]> l) = cnt f l - is_f f old + is_f f v.
Proof.
  intros H. rewrite <-(take_drop_middle l k old H) at 2. rewrite insert_take_drop by (by eapply lookup_lt_Some).
  rewrite !cnt_app, !cnt_cons. lia.
Qed.
Lemma cnt_pos f l k : l !! k = Some (Some f) → 1 ≤ cnt f l.
Proof.
  intros H. rewrite <-(take_drop_middle l k _ H), cnt_app, cnt_cons. unfold is_f. rewrite decide_True by done.
  pose proof (cnt_nonneg f (take k l)). pose proof (cnt_nonneg f (drop (S k) l)). lia.
Qed.
Lemma cnt_slot f l : 1 ≤ cnt f l → ∃ k, l !! k = Some (Some f).
Proof.
  induction l as [|v l IH]; [done|]. rewrite cnt_cons. unfold is_f. case_decide as Hv; [intros _; exists 0%nat; by subst|].
  intros H. destruct IH as [k Hk]; [lia|]. by exists (S k).
Qed.

(** In all processes. *)
Definition cnts (f : nat) (ls : list (list (option nat))) : Z := foldr (λ l n, cnt f l + n) 0 ls.
Arguments cnts : simpl never.
Lemma cnts_cons f l ls : cnts f (l :: ls) = cnt f l + cnts f ls.
Proof. done. Qed.
Lemma cnts_app f ls ks : cnts f (ls ++ ks) = cnts f ls + cnts f ks.
Proof. induction ls as [|l ls IH]; [done|]. rewrite <-app_comm_cons, !cnts_cons, IH. lia. Qed.
Lemma cnts_nonneg f ls : 0 ≤ cnts f ls.
Proof. induction ls as [|l ls IH]; [done|]. rewrite cnts_cons. pose proof (cnt_nonneg f l). lia. Qed.
Lemma cnts_insert f ls i l l' : ls !! i = Some l → cnts f (<[i := l']> ls) = cnts f ls - cnt f l + cnt f l'.
Proof.
  intros H. rewrite <-(take_drop_middle ls i l H) at 2. rewrite insert_take_drop by (by eapply lookup_lt_Some).
  rewrite !cnts_app, !cnts_cons. lia.
Qed.
Lemma cnts_pos f ls i l : ls !! i = Some l → cnt f l ≤ cnts f ls.
Proof.
  intros H. rewrite <-(take_drop_middle ls i l H), cnts_app, cnts_cons. pose proof (cnts_nonneg f (take i ls)). pose proof (cnts_nonneg f (drop (S i) ls)). lia.
Qed.
Lemma cnts_bound f ls n : Forall (λ l, length l = n) ls → cnts f ls ≤ Z.of_nat (length ls * n).
Proof. induction 1 as [|l ls Hl _ IH]; [done|]. rewrite cnts_cons. simpl length. pose proof (cnt_nonneg f l). lia. Qed.
Lemma cnts_slot f ls : 1 ≤ cnts f ls → ∃ i l k, ls !! i = Some l ∧ l !! k = Some (Some f).
Proof.
  induction ls as [|l ls IH]; [done|]. rewrite cnts_cons. intros H. destruct (decide (1 ≤ cnt f l)) as [Hl|Hl].
  - apply cnt_slot in Hl as [k Hk]. by exists 0%nat, l, k.
  - pose proof (cnt_nonneg f l). destruct IH as (i & l' & k & Hi & Hk); [lia|]. by exists (S i), l', k.
Qed.

(** The lowest free descriptor. *)
Definition low_free {X} (l : list (option X)) (fd : nat) : Prop := l !! fd = Some None ∧ ∀ k, (k < fd)%nat → ∃ f, l !! k = Some (Some f).

(** ** What the descriptor calls ask of the rest of the kernel

    [fe_rep e U]: the pages [U] are pipes. *)
Class FileLaws (E : Type) `{!FileEnv E} := {
  fe_rep : E → gset Z → Prop;
  fe_rep_good e U : fe_rep e U → hart_good (fe_hart e);
  fe_rep_hart e U h : fe_rep e U → hart_good h → fe_rep (fe_set_hart h e) U;
  fe_hart_set h e : fe_hart (fe_set_hart h e) = h;
  fe_hart_set2 h h' e : fe_set_hart h (fe_set_hart h' e) = fe_set_hart h e;
  fe_hart_get e : fe_set_hart (fe_hart e) e = e;
  fe_kalloc_law e U : fe_rep e U → ∃ r e', fe_kalloc e = Ok (r, e') ∧
    match r with None => fe_rep e' U | Some p => (p ∉ U) ∧ fe_rep e' ({[p]} ∪ U) end;
  fe_kfree_law e U p : fe_rep e U → p ∈ U → ∃ e', fe_kfree p e = Ok (tt, e') ∧ fe_rep e' (U ∖ {[p]});
  fe_begin_law e U : fe_rep e U → ∃ e', fe_begin_op e = Ok (tt, e') ∧ fe_rep e' U;
  fe_iput_law ip e U : fe_rep e U → ∃ e', fe_iput ip e = Ok (tt, e') ∧ fe_rep e' U;
  fe_end_law e U : fe_rep e U → ∃ e', fe_end_op e = Ok (tt, e') ∧ fe_rep e' U;
  fe_int_law a v e U : fe_rep e U → ∃ r e', fe_copyout_int a v e = Ok (r, e') ∧ fe_rep e' U }.

Definition NPROC : nat := 64.

(** The end of a pipe that a file is. *)
Definition end_open (w : bool) (p : pipe) : Prop := (if w then writeopen p else readopen p) ≠ 0.
Definition is_end (y : file) (pi : Z) (w : bool) : Prop := fl_type y = FD_PIPE ∧ fl_pipe y = pi ∧ bool_decide (fl_writable y ≠ 0) = w.
Definition open_end (m : gmap Z pipe) (pi : Z) (w : bool) : Prop := ∃ p, m !! pi = Some p ∧ end_open w p.
Definition file_end (l : list file) (pi : Z) (w : bool) : Prop := ∃ f y, l !! f = Some y ∧ is_end y pi w.
Definition ends_unique (l : list file) : Prop := ∀ f g y z pi w, l !! f = Some y → l !! g = Some z → is_end y pi w → is_end z pi w → f = g.

(** A file that stays what it is. *)
Lemma file_end_same l f y z : l !! f = Some y → (∀ pi w, is_end z pi w ↔ is_end y pi w) →
  (∀ pi w, file_end (<[f := z]> l) pi w ↔ file_end l pi w) ∧ (ends_unique l → ends_unique (<[f := z]> l)).
Proof.
  intros Hf Hz. assert (Hlt : (f < length l)%nat) by by eapply lookup_lt_Some.
  assert (Hback : ∀ g u, <[f := z]> l !! g = Some u → ∃ u', l !! g = Some u' ∧ ∀ pi w, is_end u pi w ↔ is_end u' pi w).
  { intros g u Hg. destruct (decide (g = f)) as [->|Hne].
    - rewrite list_lookup_insert_eq in Hg by done. injection Hg as <-. by exists y.
    - rewrite list_lookup_insert_ne in Hg by done. by exists u. }
  split.
  - intros pi w. split.
    + intros (g & u & Hg & Hu). destruct (Hback g u Hg) as (u' & Hu' & He). exists g, u'. split; [done|]. by apply He.
    + intros (g & u & Hg & Hu). destruct (decide (g = f)) as [->|Hne].
      * exists f, z. rewrite list_lookup_insert_eq by done. simplify_eq. split; [done|]. by apply Hz.
      * exists g, u. by rewrite list_lookup_insert_ne.
  - intros Hone g h u v pi w Hg Hh Hu Hv. destruct (Hback g u Hg) as (u' & Hu' & He1). destruct (Hback h v Hh) as (v' & Hv' & He2).
    apply He1 in Hu. apply He2 in Hv. exact (Hone g h u' v' pi w Hu' Hv' Hu Hv).
Qed.

(** A file that is no end of a pipe any more. *)
Lemma file_end_drop l f y z : l !! f = Some y → ends_unique l → (∀ pi w, ¬ is_end z pi w) →
  (∀ pi w, file_end (<[f := z]> l) pi w ↔ file_end l pi w ∧ ¬ is_end y pi w) ∧ ends_unique (<[f := z]> l).
Proof.
  intros Hf Hone Hz. assert (Hlt : (f < length l)%nat) by by eapply lookup_lt_Some.
  assert (Hback : ∀ g u pi w, <[f := z]> l !! g = Some u → is_end u pi w → g ≠ f ∧ l !! g = Some u).
  { intros g u pi w Hg Hu. destruct (decide (g = f)) as [->|Hne].
    - rewrite list_lookup_insert_eq in Hg by done. injection Hg as <-. by apply Hz in Hu.
    - by rewrite list_lookup_insert_ne in Hg by done. }
  split.
  - intros pi w. split.
    + intros (g & u & Hg & Hu). destruct (Hback g u pi w Hg Hu) as [Hne Hg']. split; [by exists g, u|]. intros Hy. apply Hne. exact (Hone g f u y pi w Hg' Hf Hu Hy).
    + intros [(g & u & Hg & Hu) Hny]. exists g, u. split; [|done]. rewrite list_lookup_insert_ne; [done|]. intros ->. simplify_eq. by apply Hny.
  - intros g h u v pi w Hg Hh Hu Hv. destruct (Hback g u pi w Hg Hu) as [_ Hg']. destruct (Hback h v pi w Hh Hv) as [_ Hh'].
    exact (Hone g h u v pi w Hg' Hh' Hu Hv).
Qed.

(** A file that becomes an end. *)
Lemma file_end_new l f y z pi0 w0 : l !! f = Some y → ends_unique l → (∀ pi w, ¬ is_end y pi w) → is_end z pi0 w0 → ¬ file_end l pi0 w0 →
  (∀ pi w, file_end (<[f := z]> l) pi w ↔ file_end l pi w ∨ (pi = pi0 ∧ w = w0)) ∧ ends_unique (<[f := z]> l).
Proof.
  intros Hf Hone Hy Hz Hno. assert (Hlt : (f < length l)%nat) by by eapply lookup_lt_Some.
  assert (Hzi : ∀ pi w, is_end z pi w → pi = pi0 ∧ w = w0) by (destruct Hz as (_ & <- & <-); by intros pi w (_ & <- & <-)).
  assert (Hback : ∀ g u pi w, <[f := z]> l !! g = Some u → is_end u pi w → (g = f ∧ pi = pi0 ∧ w = w0) ∨ (g ≠ f ∧ l !! g = Some u)).
  { intros g u pi w Hg Hu. destruct (decide (g = f)) as [->|Hne].
    - rewrite list_lookup_insert_eq in Hg by done. injection Hg as <-. left. split; [done|]. by apply Hzi.
    - rewrite list_lookup_insert_ne in Hg by done. by right. }
  split.
  - intros pi w. split.
    + intros (g & u & Hg & Hu). destruct (Hback g u pi w Hg Hu) as [(_ & ?)|[_ Hg']]; [by right|left; by exists g, u].
    + intros [(g & u & Hg & Hu)|[-> ->]].
      * exists g, u. split; [|done]. rewrite list_lookup_insert_ne; [done|]. intros ->. simplify_eq. by apply Hy in Hu.
      * exists f, z. by rewrite list_lookup_insert_eq.
  - intros g h u v pi w Hg Hh Hu Hv. destruct (Hback g u pi w Hg Hu) as [(-> & Ep & Ew)|[_ Hg']], (Hback h v pi w Hh Hv) as [(-> & Ep2 & Ew2)|[_ Hh']].
    + done.
    + exfalso. apply Hno. rewrite <-Ep, <-Ew. by exists h, v.
    + exfalso. apply Hno. rewrite <-Ep2, <-Ew2. by exists g, u.
    + exact (Hone g h u v pi w Hg' Hh' Hu Hv).
Qed.

Section inv.
Context {K : Type} `{!FileEnv K} `{!FileLaws K}.
Abbreviation T := (ftst K).
Implicit Types (s : T) (x : nat → Z).

Record finv x s : Prop := {
  fi_len : length (ft_file s) = NFILE;
  fi_of : Forall (λ l, length l = NOFILE) (ft_of s);
  fi_procs : (ft_cur s < length (ft_of s) ≤ NPROC)%nat;
  fi_range i l k f : ft_of s !! i = Some l → l !! k = Some (Some f) → (f < NFILE)%nat;
  fi_ref f y : ft_file s !! f = Some y → fl_ref y = cnts f (ft_of s) + x f;
  fi_free f y : ft_file s !! f = Some y → fl_ref y = 0 → fl_type y = FD_NONE;
  fi_ends pi w : open_end (ft_pipes s) pi w ↔ file_end (ft_file s) pi w;
  fi_live pi p : ft_pipes s !! pi = Some p → end_open true p ∨ end_open false p;
  fi_one : ends_unique (ft_file s);
  fi_lock : lock_quiet (ft_lock s);
  fi_env : fe_rep (ft_env s) (dom (ft_pipes s)) }.

Definition plus x (f : nat) (d : Z) : nat → Z := λ g, if decide (g = f) then x g + d else x g.

Lemma finv_ext x x' s : (∀ f, x' f = x f) → finv x s → finv x' s.
Proof. intros H []. constructor; try done. intros f y Hf. rewrite H. by apply fi_ref0. Qed.

(** ** The table lock *)

Definition locked s : T := ft_with_env (fe_set_hart (push_off (fe_hart (ft_env s))) (ft_env s)) (ft_with_lock (held_by (hartid (fe_hart (ft_env s))) (ft_lock s)) s).
Lemma lock_ftable x s : finv x s → acquireM tt s = Ok (tt, locked s).
Proof. intros Hi. pose proof (fi_lock _ _ Hi) as Hl. unfold acquireM, locked. cbn. by rewrite acquire_quiet. Qed.
Lemma unlock_ftable x s l : finv x s → releaseM tt (ft_with_file l (locked s)) = Ok (tt, ft_with_file l s).
Proof.
  intros Hi. pose proof (fi_lock _ _ Hi) as Hl. pose proof (fi_env _ _ Hi) as He. unfold releaseM, locked. cbn. rewrite fe_hart_set. rewrite release_quiet by (done || by eapply fe_rep_good).
  unfold ft_with_env, ft_with_lock, ft_with_file. cbn. rewrite fe_hart_set2, fe_hart_get. by destruct s.
Qed.

Lemma getf_ok s f y : ft_file s !! f = Some y → getf f s = Ok (y, s).
Proof. intros H. unfold getf. by rewrite H. Qed.
Lemma updf_ok s f y g : ft_file s !! f = Some y → updf f g s = Ok (tt, ft_with_file (<[f := g y]> (ft_file s)) s).
Proof. intros H. unfold updf. by rewrite H. Qed.

(** A file changes only in its count. *)
Lemma finv_count x s f y r : finv x s → ft_file s !! f = Some y → fl_ref y ≠ 0 → r ≠ 0 →
  finv (plus x f (r - fl_ref y)) (ft_with_file (<[f := fl_with_ref r y]> (ft_file s)) s).
Proof.
  intros [] Hf Hy Hr. assert (Hlt : (f < length (ft_file s))%nat) by by eapply lookup_lt_Some.
  destruct (file_end_same (ft_file s) f y (fl_with_ref r y) Hf) as [He Hu]; [done|].
  constructor; cbn; try done; [by rewrite length_insert| | |intros pi w; by rewrite He|by apply Hu].
  - intros g z Hg. unfold plus. destruct (decide (g = f)) as [->|Hne].
    + rewrite list_lookup_insert_eq in Hg by done. injection Hg as <-. cbn. pose proof (fi_ref0 f y Hf). lia.
    + rewrite list_lookup_insert_ne in Hg by done. by apply fi_ref0.
  - intros g z Hg. destruct (decide (g = f)) as [->|Hne].
    + rewrite list_lookup_insert_eq in Hg by done. injection Hg as <-. done.
    + rewrite list_lookup_insert_ne in Hg by done. exact (fi_free0 g z Hg).
Qed.

Lemma slots_bound x s f : finv x s → cnts f (ft_of s) ≤ 1024.
Proof. intros Hi. pose proof (fi_of _ _ Hi) as Hof. pose proof (fi_procs _ _ Hi) as Hp. pose proof (cnts_bound f _ _ Hof). unfold NPROC, NOFILE in *. lia. Qed.

Lemma filedup_ok x s f y : finv x s → ft_file s !! f = Some y → 1 ≤ fl_ref y → x f ≤ 0 →
  filedup f s = Ok (f, ft_with_file (<[f := fl_with_ref (fl_ref y + 1) y]> (ft_file s)) s) ∧
  finv (plus x f 1) (ft_with_file (<[f := fl_with_ref (fl_ref y + 1) y]> (ft_file s)) s).
Proof.
  intros Hi Hf Hy Hx. split.
  - unfold filedup. rewrite (bind_Ok_eq _ _ _ _ _ (lock_ftable x s Hi)). rewrite (bind_Ok_eq _ _ _ _ _ (getf_ok (locked s) f y Hf)).
    rewrite bool_decide_false by lia. rewrite (bind_Ok_eq _ _ _ _ _ (updf_ok (locked s) f y _ Hf)). cbn [locked ft_file ft_with_env ft_with_lock].
    rewrite (fi_ref _ _ Hi f y Hf) in *. pose proof (slots_bound x s f Hi). rewrite i32_small by lia.
    by rewrite (bind_Ok_eq _ _ _ _ _ (unlock_ftable x s _ Hi)).
  - pose proof (finv_count x s f y (fl_ref y + 1) Hi Hf ltac:(lia) ltac:(lia)) as H. eapply finv_ext; [|exact H]. intros g. unfold plus. case_decide; lia.
Qed.
(** ** Descriptors *)

Lemma get_of_ok s i fd l v : ft_of s !! i = Some l → l !! fd = Some v → get_of i fd s = Ok (v, s).
Proof. intros Hi Hl. unfold get_of. rewrite Hi. cbn. by rewrite Hl. Qed.
Definition with_slot (i : nat) (l : list (option nat)) (fd : nat) (v : option nat) s : T := ft_with_of (<[i := <[fd := v]> l]> (ft_of s)) s.
Lemma set_of_ok s i fd l v old : ft_of s !! i = Some l → l !! fd = Some old → set_of i fd v s = Ok (tt, with_slot i l fd v s).
Proof. intros Hi Hl. unfold set_of. by rewrite Hi, Hl. Qed.

Lemma finv_slot x s i l fd old v : finv x s → ft_of s !! i = Some l → l !! fd = Some old → (∀ f, v = Some f → (f < NFILE)%nat) →
  finv (λ g, x g + is_f g old - is_f g v) (with_slot i l fd v s).
Proof.
  intros [] Hi Hl Hv. assert (Hlt : (i < length (ft_of s))%nat) by by eapply lookup_lt_Some.
  constructor; cbn; try done.
  - apply Forall_insert; [done|]. rewrite length_insert. by apply (Forall_lookup_1 _ _ _ _ fi_of0 Hi).
  - by rewrite length_insert.
  - intros j k fd' f Hj Hk. destruct (decide (j = i)) as [->|Hne].
    + rewrite list_lookup_insert_eq in Hj by done. injection Hj as <-. destruct (decide (fd' = fd)) as [->|Hnf].
      * rewrite list_lookup_insert_eq in Hk by by eapply lookup_lt_Some. injection Hk as ->. by apply Hv.
      * rewrite list_lookup_insert_ne in Hk by done. by eapply fi_range0.
    + rewrite list_lookup_insert_ne in Hj by done. by eapply fi_range0.
  - intros f y Hf. rewrite (fi_ref0 f y Hf). rewrite (cnts_insert f _ _ _ _ Hi), (cnt_insert f _ _ _ _ Hl). lia.
Qed.

Lemma cur_slots x s : finv x s → ∃ l, ft_of s !! ft_cur s = Some l ∧ length l = NOFILE.
Proof.
  intros Hi. destruct (fi_procs _ _ Hi) as [Hlt _]. destruct (lookup_lt_is_Some_2 (ft_of s) (ft_cur s) Hlt) as [l Hl]. exists l. split; [done|].
  by apply (Forall_lookup_1 _ _ _ _ (fi_of _ _ Hi) Hl).
Qed.

(** [argfd] gives the file of a descriptor in use. *)
Lemma argfd_ok x s fd l : finv x s → ft_of s !! ft_cur s = Some l →
  argfd fd s = Ok (match zidx l fd with Some (Some f) => Some (Z.to_nat fd, f) | _ => None end, s).
Proof.
  intros Hi Hl. pose proof (Forall_lookup_1 _ _ _ _ (fi_of _ _ Hi) Hl) as Hlen. cbv beta in Hlen. unfold argfd.
  destruct (decide (0 ≤ fd < Z.of_nat NOFILE)) as [Hr|Hr].
  - rewrite !bool_decide_false by lia. cbn [orb]. rewrite (bind_Ok_eq _ _ _ (ft_cur s) s) by done.
    unfold zidx. rewrite decide_True by lia. destruct (lookup_lt_is_Some_2 l (Z.to_nat fd)) as [v Hv]; [lia|].
    rewrite (bind_Ok_eq _ _ _ _ _ (get_of_ok s _ _ _ _ Hl Hv)), Hv. by destruct v.
  - assert (zidx l fd = None) as ->.
    { destruct (zidx l fd) eqn:Ez; [|done]. apply zidx_Some in Ez as [? _]. lia. }
    destruct (decide (fd < 0)); [rewrite (bool_decide_true (fd < 0)) by done|rewrite (bool_decide_false (fd < 0)), (bool_decide_true (fd >= _)) by lia]; done.
Qed.

Lemma fdalloc_scan_ok s l f : ft_of s !! ft_cur s = Some l → ∀ k fd, (fd + k = length l)%nat → (∀ j, (j < fd)%nat → ∃ g, l !! j = Some (Some g)) →
  (∃ fd', low_free l fd' ∧ fdalloc_scan k fd (ft_cur s) f s = Ok (Some fd', with_slot (ft_cur s) l fd' (Some f) s)) ∨
  ((∀ j, (j < length l)%nat → ∃ g, l !! j = Some (Some g)) ∧ fdalloc_scan k fd (ft_cur s) f s = Ok (None, s)).
Proof.
  intros Hl. induction k as [|k IH]; intros fd Hk Hlow; cbn [fdalloc_scan].
  - right. split; [|done]. intros j Hj. apply Hlow. lia.
  - destruct (lookup_lt_is_Some_2 l fd) as [v Hv]; [lia|]. rewrite (bind_Ok_eq _ _ _ _ _ (get_of_ok s _ _ _ _ Hl Hv)). destruct v as [g|].
    + destruct (IH (S fd)) as [H|H]; [lia| |by left|by right]. intros j Hj. destruct (decide (j = fd)) as [->|]; [by exists g|apply Hlow; lia].
    + left. exists fd. split; [by split|]. by rewrite (bind_Ok_eq _ _ _ _ _ (set_of_ok s _ _ _ _ _ Hl Hv)).
Qed.
Lemma fdalloc_ok x s f : finv x s → (f < NFILE)%nat → ∃ l, ft_of s !! ft_cur s = Some l ∧
  ((∃ fd, low_free l fd ∧ fdalloc f s = Ok (Some fd, with_slot (ft_cur s) l fd (Some f) s) ∧
      finv (plus x f (-1)) (with_slot (ft_cur s) l fd (Some f) s)) ∨
   ((∀ j, (j < NOFILE)%nat → ∃ g, l !! j = Some (Some g)) ∧ fdalloc f s = Ok (None, s))).
Proof.
  intros Hi Hf. destruct (cur_slots x s Hi) as (l & Hl & Hlen). exists l. split; [done|].
  destruct (fdalloc_scan_ok s l f Hl NOFILE 0) as [(fd & Hlow & E)|[Hall E]]; [lia|intros; lia| |].
  - left. exists fd. split; [done|]. split; [exact E|].
    pose proof (finv_slot x s (ft_cur s) l fd None (Some f) Hi Hl (proj1 Hlow)) as H. eapply finv_ext; [|apply H; by intros g [= <-]].
    intros g. unfold plus, is_f. rewrite (decide_False (P := None = Some g)) by done. destruct (decide (g = f)) as [->|Hne].
    + rewrite decide_True by done. lia.
    + rewrite decide_False by congruence. lia.
  - right. split; [by rewrite <-Hlen|exact E].
Qed.

(** ** Allocation *)

Lemma finv_fresh x s f y : finv x s → ft_file s !! f = Some y → fl_ref y = 0 →
  finv (plus x f 1) (ft_with_file (<[f := fl_with_ref 1 y]> (ft_file s)) s).
Proof.
  intros [] Hf Hy. assert (Hlt : (f < length (ft_file s))%nat) by by eapply lookup_lt_Some.
  destruct (file_end_same (ft_file s) f y (fl_with_ref 1 y) Hf) as [He Hu]; [done|].
  constructor; cbn; try done; [by rewrite length_insert| | |intros pi w; by rewrite He|by apply Hu].
  - intros g z Hg. unfold plus. destruct (decide (g = f)) as [->|Hne].
    + rewrite list_lookup_insert_eq in Hg by done. injection Hg as <-. cbn. pose proof (fi_ref0 f y Hf). lia.
    + rewrite list_lookup_insert_ne in Hg by done. by apply fi_ref0.
  - intros g z Hg. destruct (decide (g = f)) as [->|Hne].
    + rewrite list_lookup_insert_eq in Hg by done. injection Hg as <-. done.
    + rewrite list_lookup_insert_ne in Hg by done. exact (fi_free0 g z Hg).
Qed.

Lemma filealloc_scan_ok x s : finv x s → ∀ k i, (i + k = NFILE)%nat →
  (∃ f y, ft_file s !! f = Some y ∧ fl_ref y = 0 ∧ filealloc_scan k i (locked s) = Ok (Some f, ft_with_file (<[f := fl_with_ref 1 y]> (ft_file s)) s)) ∨
  filealloc_scan k i (locked s) = Ok (None, s).
Proof.
  intros Hi. induction k as [|k IH]; intros i Hk; cbn [filealloc_scan].
  - right. pose proof (unlock_ftable x s (ft_file s) Hi) as H.
    assert (Hs : ft_with_file (ft_file s) (locked s) = locked s) by done. assert (Hs2 : ft_with_file (ft_file s) s = s) by by destruct s.
    rewrite Hs, Hs2 in H. by rewrite (bind_Ok_eq _ _ _ _ _ H).
  - destruct (lookup_lt_is_Some_2 (ft_file s) i) as [y Hy]; [rewrite (fi_len _ _ Hi); lia|]. rewrite (bind_Ok_eq _ _ _ _ _ (getf_ok (locked s) i y Hy)).
    case_bool_decide as H0; [|apply IH; lia]. left. exists i, y. split; [done|]. split; [done|].
    rewrite (bind_Ok_eq _ _ _ _ _ (updf_ok (locked s) i y _ Hy)). by rewrite (bind_Ok_eq _ _ _ _ _ (unlock_ftable x s _ Hi)).
Qed.
Lemma filealloc_ok x s : finv x s →
  (∃ f y, ft_file s !! f = Some y ∧ fl_ref y = 0 ∧ filealloc s = Ok (Some f, ft_with_file (<[f := fl_with_ref 1 y]> (ft_file s)) s) ∧
     finv (plus x f 1) (ft_with_file (<[f := fl_with_ref 1 y]> (ft_file s)) s)) ∨
  filealloc s = Ok (None, s).
Proof.
  intros Hi. unfold filealloc. rewrite (bind_Ok_eq _ _ _ _ _ (lock_ftable x s Hi)).
  destruct (filealloc_scan_ok x s Hi NFILE 0) as [(f & y & Hf & Hy & E)|E]; [lia| |by right].
  left. exists f, y. split; [done|]. split; [done|]. split; [done|]. by apply finv_fresh.
Qed.

(** ** Closing *)

Lemma finv_closed x s f y m e : finv x s → ft_file s !! f = Some y → fl_ref y = 1 →
  (∀ pi w, open_end m pi w ↔ open_end (ft_pipes s) pi w ∧ ¬ is_end y pi w) →
  (∀ pi p, m !! pi = Some p → end_open true p ∨ end_open false p) → fe_rep e (dom m) →
  finv (plus x f (-1)) (mkft (ft_lock s) (<[f := fl_close y]> (ft_file s)) (ft_of s) (ft_cur s) m e).
Proof.
  intros [] Hf Hy Hm Hlive He. assert (Hlt : (f < length (ft_file s))%nat) by by eapply lookup_lt_Some.
  destruct (file_end_drop (ft_file s) f y (fl_close y) Hf fi_one0) as [Hfe Hu]; [by intros pi w [? _]|].
  constructor; cbn; try done; [by rewrite length_insert| | |].
  - intros g z Hg. unfold plus. destruct (decide (g = f)) as [->|Hne].
    + rewrite list_lookup_insert_eq in Hg by done. injection Hg as <-. cbn. pose proof (fi_ref0 f y Hf). lia.
    + rewrite list_lookup_insert_ne in Hg by done. by apply fi_ref0.
  - intros g z Hg. destruct (decide (g = f)) as [->|Hne].
    + rewrite list_lookup_insert_eq in Hg by done. injection Hg as <-. done.
    + rewrite list_lookup_insert_ne in Hg by done. exact (fi_free0 g z Hg).
  - intros pi w. rewrite Hm, Hfe. by rewrite fi_ends0.
Qed.

(** [pipeclose] on one pipe. *)
Definition close_end (w : bool) (p : pipe) : pipe :=
  if w then mkpipe (data p) (nread p) (nwrite p) (readopen p) 0 else mkpipe (data p) (nread p) (nwrite p) 0 (writeopen p).
Lemma pipeclose_run w p (e : K) : ∃ evs, pipeclose w (mkpst p e []) = Ok (tt, mkpst (close_end w p) e evs) ∧
  freed_page evs = bool_decide (¬ end_open (negb w) p).
Proof.
  unfold pipeclose, emit, set_pi, modify, gets, mbind, M_bind, end_open, close_end. cbv beta iota zeta. cbn [pi um evs].
  destruct w; cbn [negb pi um evs readopen writeopen app].
  - rewrite (bool_decide_true (0 = 0)), andb_true_r by done. case_bool_decide as H1; cbn [pi um evs app]; (eexists; split; [reflexivity|]); cbn; symmetry.
    + apply bool_decide_true. tauto.
    + apply bool_decide_false. tauto.
  - rewrite (bool_decide_true (0 = 0)) by done. cbn [andb]. case_bool_decide as H1; cbn [pi um evs app]; (eexists; split; [reflexivity|]); cbn; symmetry.
    + apply bool_decide_true. tauto.
    + apply bool_decide_false. tauto.
Qed.
Lemma close_end_open w p w' : end_open w' (close_end w p) ↔ w' ≠ w ∧ end_open w' p.
Proof. destruct w, w'; unfold end_open; cbn; (split; [intros H; by split|by intros [? ?]]). Qed.

Lemma env_ok {A} (m : M K A) s a e : m (ft_env s) = Ok (a, e) → env m s = Ok (a, ft_with_env e s).
Proof. intros H. unfold env. by rewrite H. Qed.

(** The last close of one end of a pipe. *)
Lemma close_pipe_ok x s f y w : finv x s → ft_file s !! f = Some y → fl_ref y = 1 → is_end y (fl_pipe y) w →
  ∃ s', on_pipe (fl_pipe y) (pipeclose w) (ft_with_file (<[f := fl_close y]> (ft_file s)) s) = Ok (tt, s') ∧
    finv (plus x f (-1)) s' ∧ ft_of s' = ft_of s ∧ ft_cur s' = ft_cur s.
Proof.
  intros Hi Hf Hy Hw. set (pi := fl_pipe y) in *. destruct (proj2 (fi_ends _ _ Hi pi w)) as (p & Hp & Ho); [by exists f, y|].
  destruct (pipeclose_run w p (ft_env s)) as (l & El & Hl).
  assert (Hother : ∀ pi' w', is_end y pi' w' ↔ pi' = pi ∧ w' = w).
  { destruct Hw as (H1 & _ & <-). intros pi' w'. unfold is_end. split; [by intros (_ & <- & <-)|by intros [-> ->]]. }
  assert (Hopen := close_end_open w p).
  pose proof (fi_env _ _ Hi) as He. assert (Hin : pi ∈ dom (ft_pipes s)) by (by apply elem_of_dom_2 in Hp).
  unfold on_pipe. cbn [ft_pipes ft_with_file ft_env]. rewrite Hp, El. cbv zeta beta iota. cbn [evs um]. rewrite Hl. case_bool_decide as Hfree.
  - destruct (fe_kfree_law (ft_env s) _ pi He Hin) as (e' & Ek & Hr).
    eexists. split; [unfold mbind, M_bind, env; cbn; by rewrite Ek|]. split; [|done].
    unfold ft_with_env, ft_with_pipes, ft_with_file. cbn. apply (finv_closed x s f y); try done.
    + intros pi' w'. rewrite Hother. unfold open_end. split.
      * intros (q & Hq & Hqo). apply lookup_delete_Some in Hq as [Hne Hq]. split; [by exists q|]. by intros [-> _].
      * intros [(q & Hq & Hqo) Hn]. exists q. split; [|done]. apply lookup_delete_Some. split; [|done]. intros <-. simplify_eq.
        apply Hn. split; [done|]. destruct w, w'; try done; by apply Hfree in Hqo.
    + intros pi' q Hq. apply lookup_delete_Some in Hq as [_ Hq]. by apply (fi_live _ _ Hi pi').
    + by rewrite dom_delete_L.
  - eexists. split; [done|]. split; [|done].
    unfold ft_with_env, ft_with_pipes, ft_with_file. cbn. apply (finv_closed x s f y); try done.
    + intros pi' w'. rewrite Hother. unfold open_end. destruct (decide (pi' = pi)) as [->|Hne].
      * rewrite lookup_insert_eq. split.
        -- intros (q & [= <-] & Hqo). apply Hopen in Hqo as [Hw' Hqo]. split; [by exists p|]. by intros [_ ->].
        -- intros [(q & Hq & Hqo) Hn]. simplify_eq. eexists. split; [done|]. apply Hopen. split; [|done]. intros ->. by apply Hn.
      * rewrite lookup_insert_ne by done. split; [intros H; split; [done|by intros [? _]]|by intros [? _]].
    + intros pi' q Hq. destruct (decide (pi' = pi)) as [->|Hne].
      * rewrite lookup_insert_eq in Hq. injection Hq as <-. rewrite !Hopen. destruct w; [right|left]; done.
      * rewrite lookup_insert_ne in Hq by done. by apply (fi_live _ _ Hi pi').
    + rewrite dom_insert_L, subseteq_union_1_L; [done|]. by apply singleton_subseteq_l.
Qed.

Lemma fileclose_ok x s f y : finv x s → ft_file s !! f = Some y → 1 ≤ fl_ref y →
  ∃ s', fileclose f s = Ok (tt, s') ∧ finv (plus x f (-1)) s' ∧ ft_of s' = ft_of s ∧ ft_cur s' = ft_cur s.
Proof.
  intros Hi Hf Hy. assert (Hlt : (f < length (ft_file s))%nat) by by eapply lookup_lt_Some.
  unfold fileclose. rewrite (bind_Ok_eq _ _ _ _ _ (lock_ftable x s Hi)). rewrite (bind_Ok_eq _ _ _ _ _ (getf_ok (locked s) f y Hf)).
  rewrite bool_decide_false by lia. rewrite (bind_Ok_eq _ _ _ _ _ (updf_ok (locked s) f y _ Hf)). cbn [locked ft_file ft_with_env ft_with_lock].
  case_bool_decide as Hmany.
  - eexists. split; [apply (unlock_ftable x s _ Hi)|]. split; [|done].
    pose proof (finv_count x s f y (fl_ref y - 1) Hi Hf ltac:(lia) ltac:(lia)) as H. eapply finv_ext; [|exact H]. intros g. unfold plus. case_decide; lia.
  - assert (Hy1 : fl_ref y = 1) by lia. set (l1 := <[f := fl_with_ref (fl_ref y - 1) y]> (ft_file s)).
    assert (Hl1 : l1 !! f = Some (fl_with_ref (fl_ref y - 1) y)) by (by apply list_lookup_insert_eq).
    rewrite (bind_Ok_eq _ _ _ _ _ (getf_ok (ft_with_file l1 _) f _ Hl1)). rewrite (bind_Ok_eq _ _ _ _ _ (updf_ok (ft_with_file l1 _) f _ _ Hl1)).
    cbn [ft_file ft_with_file]. unfold l1. rewrite list_insert_insert_eq. change (fl_close (fl_with_ref (fl_ref y - 1) y)) with (fl_close y).
    change (ft_with_file ?a (ft_with_file ?b ?c)) with (ft_with_file a c).
    rewrite (bind_Ok_eq _ _ _ _ _ (unlock_ftable x s _ Hi)). cbn [fl_type fl_with_ref fl_pipe fl_writable fl_ip].
    assert (Hplain : fl_type y ≠ FD_PIPE → ∀ e, fe_rep e (dom (ft_pipes s)) →
      finv (plus x f (-1)) (ft_with_env e (ft_with_file (<[f := fl_close y]> (ft_file s)) s))).
    { intros Hnp e He. apply (finv_closed x s f y); try done; [|apply Hi]. intros pi w. split; [|by intros [? _]]. intros H. split; [done|]. by intros [? _]. }
    assert (Hio : fl_type y ≠ FD_PIPE → ∃ s', (env fe_begin_op ;; env (fe_iput (fl_ip y)) ;; env fe_end_op) (ft_with_file (<[f := fl_close y]> (ft_file s)) s) = Ok (tt, s') ∧
      finv (plus x f (-1)) s' ∧ ft_of s' = ft_of s ∧ ft_cur s' = ft_cur s).
    { intros Hnp. destruct (fe_begin_law (ft_env s) _ (fi_env _ _ Hi)) as (e1 & E1 & R1). destruct (fe_iput_law (fl_ip y) e1 _ R1) as (e2 & E2 & R2).
      destruct (fe_end_law e2 _ R2) as (e3 & E3 & R3). exists (ft_with_env e3 (ft_with_file (<[f := fl_close y]> (ft_file s)) s)).
      split; [|split; [by apply Hplain|done]]. unfold mbind, M_bind, env. cbn. rewrite E1. cbn. rewrite E2. cbn. by rewrite E3. }
    destruct (fl_type y) eqn:Et.
    + eexists. split; [done|]. split; [|done]. replace (ft_with_file _ s) with (ft_with_env (ft_env s) (ft_with_file (<[f := fl_close y]> (ft_file s)) s)) by done.
      apply Hplain; [done|apply Hi].
    + by apply close_pipe_ok.
    + by apply Hio.
    + by apply Hio.
Qed.

(** A file with a reference is in the table. *)
Lemma held_file x s f : finv x s → (f < NFILE)%nat → 1 ≤ cnts f (ft_of s) + x f → ∃ y, ft_file s !! f = Some y ∧ 1 ≤ fl_ref y.
Proof.
  intros Hi Hf Hc. destruct (lookup_lt_is_Some_2 (ft_file s) f) as [y Hy]; [by rewrite (fi_len _ _ Hi)|]. exists y. split; [done|].
  rewrite (fi_ref _ _ Hi f y Hy). done.
Qed.
End inv.

(** ** The descriptor calls keep the reference counts

    Each call of File.v that makes or drops descriptors returns, and leaves the
    table in order: no reference is held outside the descriptors. *)

Definition x0 : nat → Z := λ _, 0.

(** ** Files that change their kind *)
Section kinds.
Context {K : Type} `{!FileEnv K} `{!FileLaws K}.
Abbreviation T := (ftst K).
Implicit Types (s : T) (x : nat → Z).

Lemma not_end_none y : fl_type y = FD_NONE → ∀ pi w, ¬ is_end y pi w.
Proof. intros H pi w [Hp _]. congruence. Qed.

(** A fresh file becomes one for an inode. *)
Lemma finv_retype x s f y z : finv x s → ft_file s !! f = Some y → fl_type y = FD_NONE → fl_ref y ≠ 0 →
  fl_ref z = fl_ref y → fl_type z ≠ FD_PIPE → finv x (ft_with_file (<[f := z]> (ft_file s)) s).
Proof.
  intros [] Hf Ht Hr Hz Hzt. assert (Hlt : (f < length (ft_file s))%nat) by by eapply lookup_lt_Some.
  destruct (file_end_same (ft_file s) f y z Hf) as [He Hu].
  { intros pi w. split; [intros [? _]; done|intros [? _]; congruence]. }
  constructor; cbn; try done; [by rewrite length_insert| | |intros pi w; by rewrite He|by apply Hu].
  - intros g u Hg. destruct (decide (g = f)) as [->|Hne].
    + rewrite list_lookup_insert_eq in Hg by done. injection Hg as <-. rewrite Hz. by apply fi_ref0.
    + rewrite list_lookup_insert_ne in Hg by done. by apply fi_ref0.
  - intros g u Hg. destruct (decide (g = f)) as [->|Hne].
    + rewrite list_lookup_insert_eq in Hg by done. injection Hg as <-. intros H. congruence.
    + rewrite list_lookup_insert_ne in Hg by done. exact (fi_free0 g u Hg).
Qed.

(** Two fresh files become the ends of a new pipe. *)
Definition pipe_files (a b : nat) (ya yb : file) (p : Z) (l : list file) : list file := <[b := fl_as_pipe 0 1 p yb]> (<[a := fl_as_pipe 1 0 p ya]> l).
Lemma finv_new_pipe x s a b ya yb p e : finv x s → a ≠ b → ft_file s !! a = Some ya → ft_file s !! b = Some yb →
  fl_type ya = FD_NONE → fl_type yb = FD_NONE → fl_ref ya ≠ 0 → fl_ref yb ≠ 0 → p ∉ dom (ft_pipes s) → fe_rep e ({[p]} ∪ dom (ft_pipes s)) →
  finv x (mkft (ft_lock s) (pipe_files a b ya yb p (ft_file s)) (ft_of s) (ft_cur s) (<[p := new_pipe]> (ft_pipes s)) e).
Proof.
  intros [] Hab Ha Hb Hta Htb Hra Hrb Hp He. assert (Hla : (a < length (ft_file s))%nat) by by eapply lookup_lt_Some.
  assert (Hlb : (b < length (ft_file s))%nat) by by eapply lookup_lt_Some.
  assert (Hnone : ft_pipes s !! p = None) by by apply not_elem_of_dom.
  assert (Hfresh : ∀ w, ¬ file_end (ft_file s) p w) by (intros w Hw; apply fi_ends0 in Hw as (q & Hq & _); congruence).
  set (l1 := <[a := fl_as_pipe 1 0 p ya]> (ft_file s)).
  destruct (file_end_new (ft_file s) a ya (fl_as_pipe 1 0 p ya) p false Ha fi_one0 (not_end_none ya Hta)) as [E1 U1]; [done|apply Hfresh|].
  fold l1 in E1, U1. assert (Hb1 : l1 !! b = Some yb) by (unfold l1; by rewrite list_lookup_insert_ne).
  destruct (file_end_new l1 b yb (fl_as_pipe 0 1 p yb) p true Hb1 U1 (not_end_none yb Htb)) as [E2 U2]; [done| |].
  { rewrite E1. intros [H|[_ H]]; [by apply Hfresh in H|discriminate H]. }
  unfold pipe_files. fold l1. constructor; cbn; try done.
  - rewrite length_insert. unfold l1. by rewrite length_insert.
  - intros g u Hg. destruct (decide (g = b)) as [->|Hne].
    + rewrite list_lookup_insert_eq in Hg by (unfold l1; by rewrite length_insert). injection Hg as <-. exact (fi_ref0 b yb Hb).
    + rewrite list_lookup_insert_ne in Hg by done. unfold l1 in Hg. destruct (decide (g = a)) as [->|Hna].
      * rewrite list_lookup_insert_eq in Hg by done. injection Hg as <-. exact (fi_ref0 a ya Ha).
      * rewrite list_lookup_insert_ne in Hg by done. by apply fi_ref0.
  - intros g u Hg. destruct (decide (g = b)) as [->|Hne].
    + rewrite list_lookup_insert_eq in Hg by (unfold l1; by rewrite length_insert). injection Hg as <-. intros H. by apply Hrb in H.
    + rewrite list_lookup_insert_ne in Hg by done. unfold l1 in Hg. destruct (decide (g = a)) as [->|Hna].
      * rewrite list_lookup_insert_eq in Hg by done. injection Hg as <-. intros H. by apply Hra in H.
      * rewrite list_lookup_insert_ne in Hg by done. exact (fi_free0 g u Hg).
  - intros pi w. rewrite E2, E1, <-fi_ends0. unfold open_end. destruct (decide (pi = p)) as [->|Hne].
    + rewrite lookup_insert_eq, Hnone. split.
      * intros _. destruct w; [by right|left; by right].
      * intros _. eexists. split; [done|]. by destruct w.
    + rewrite lookup_insert_ne by done. split; [intros H; by left; left|]. by intros [[H|[? _]]|[? _]].
  - intros pi q Hq. destruct (decide (pi = p)) as [->|Hne]; [|rewrite lookup_insert_ne in Hq by done; exact (fi_live0 pi q Hq)].
    rewrite lookup_insert_eq in Hq. injection Hq as <-. by left.
  - by rewrite dom_insert_L.
Qed.
End kinds.

(** ** The calls *)
Section calls.
Context {K : Type} `{!FileEnv K} `{!FileLaws K}.
Abbreviation T := (ftst K).
Implicit Types (s : T) (x : nat → Z).

(** A call that ends in a table in order. *)
Definition tidy {A} (m : M T A) s : Prop := ∃ r s', m s = Ok (r, s') ∧ finv x0 s' ∧ ft_cur s' = ft_cur s.
Lemma tidy_ret {A} (a : A) s : finv x0 s → tidy (mret a) s.
Proof. intros H. by exists a, s. Qed.
Lemma tidy_bind {A B} (m : M T A) (f : A → M T B) s a s1 : m s = Ok (a, s1) → ft_cur s1 = ft_cur s → tidy (f a) s1 → tidy (m ≫= f) s.
Proof. intros E Hc (r & s' & Er & Hi & Hc'). exists r, s'. rewrite (bind_Ok_eq _ _ _ _ _ E). split; [done|]. split; [done|]. congruence. Qed.

Lemma plus_back x f s : finv (plus (plus x f 1) f (-1)) s → finv x s.
Proof. apply finv_ext. intros g. unfold plus. case_decide; lia. Qed.
Lemma plus_forth x f s : finv (plus (plus x f (-1)) f 1) s → finv x s.
Proof. apply finv_ext. intros g. unfold plus. case_decide; lia. Qed.

Lemma fileclose_tidy {A} f (k : M T A) s x : finv (plus x f 1) s → (f < NFILE)%nat → 0 ≤ x f →
  (∀ s', finv x s' → ft_cur s' = ft_cur s → ft_of s' = ft_of s → tidy k s') → tidy (fileclose f ;; k) s.
Proof.
  intros Hi Hf Hx Hk. destruct (held_file _ _ f Hi Hf) as (y & Hy & Hr).
  { unfold plus. rewrite decide_True by done. pose proof (cnts_nonneg f (ft_of s)). lia. }
  destruct (fileclose_ok _ _ f y Hi Hy Hr) as (s' & E & Hi' & Ho & Hc). eapply tidy_bind; [exact E|done|]. apply Hk; [by eapply plus_back|done|done].
Qed.

Lemma slot_range x s i l k f : finv x s → ft_of s !! i = Some l → l !! k = Some (Some f) → (f < NFILE)%nat ∧ 1 ≤ cnts f (ft_of s).
Proof.
  intros Hi Hl Hk. split; [by eapply (fi_range _ _ Hi)|]. pose proof (cnt_pos f l k Hk). pose proof (cnts_pos f _ _ _ Hl). lia.
Qed.

Lemma sys_dup_tidy fd s : finv x0 s → tidy (sys_dup fd) s.
Proof.
  intros Hi. destruct (cur_slots _ s Hi) as (l & Hl & Hlen). unfold sys_dup. eapply tidy_bind; [by apply (argfd_ok _ s fd l Hi Hl)|done|].
  destruct (zidx l fd) as [[f|]|] eqn:Ez; [|by apply tidy_ret..]. apply zidx_Some in Ez as [_ Ez].
  destruct (slot_range _ s _ l _ f Hi Hl Ez) as [Hf Hc].
  destruct (fdalloc_ok _ s f Hi Hf) as (l' & Hl' & [(fd' & Hlow & E & Hi')|[_ E]]).
  - eapply tidy_bind; [exact E|done|]. destruct (held_file _ _ f Hi Hf) as (y & Hy & Hr); [unfold x0; lia|].
    destruct (filedup_ok (plus x0 f (-1)) (with_slot (ft_cur s) l' fd' (Some f) s) f y Hi' Hy Hr) as [E2 Hi2]; [unfold plus, x0; rewrite decide_True by done; lia|].
    eapply tidy_bind; [exact E2|done|]. apply tidy_ret. by eapply plus_forth.
  - eapply tidy_bind; [exact E|done|]. by apply tidy_ret.
Qed.

Lemma drop_slot x s i l fd f : finv x s → ft_of s !! i = Some l → l !! fd = Some (Some f) →
  finv (plus x f 1) (with_slot i l fd None s).
Proof.
  intros Hi Hl Hfd. pose proof (finv_slot x s i l fd (Some f) None Hi Hl Hfd ltac:(done)) as H. eapply finv_ext; [|exact H].
  intros g. unfold plus, is_f. rewrite (decide_False (P := None = Some g)) by done. destruct (decide (g = f)) as [->|Hne].
  - rewrite decide_True by done. lia.
  - rewrite decide_False by congruence. lia.
Qed.

Lemma sys_close_tidy fd s : finv x0 s → tidy (sys_close fd) s.
Proof.
  intros Hi. destruct (cur_slots _ s Hi) as (l & Hl & Hlen). unfold sys_close. eapply tidy_bind; [by apply (argfd_ok _ s fd l Hi Hl)|done|].
  destruct (zidx l fd) as [[f|]|] eqn:Ez; [|by apply tidy_ret..]. apply zidx_Some in Ez as [_ Ez].
  destruct (slot_range _ s _ l _ f Hi Hl Ez) as [Hf Hc]. eapply (tidy_bind _ _ _ (ft_cur s) s); [done|done|].
  eapply tidy_bind; [exact (set_of_ok s (ft_cur s) _ l None _ Hl Ez)|done|].
  apply (fileclose_tidy f _ _ x0); [by apply drop_slot|done|done|]. intros s' Hi' Hc' _. by apply tidy_ret.
Qed.

Lemma open_file_tidy ip dev major omode s : finv x0 s → tidy (open_file ip dev major omode) s.
Proof.
  intros Hi. unfold open_file. destruct (filealloc_ok _ s Hi) as [(f & y & Hy & Hr & E & Hi1)|E].
  2: { eapply tidy_bind; [exact E|done|]. by apply tidy_ret. }
  eapply tidy_bind; [exact E|done|]. set (s1 := ft_with_file _ s) in *.
  assert (Hf : (f < NFILE)%nat) by (rewrite <-(fi_len _ _ Hi); by eapply lookup_lt_Some).
  destruct (fdalloc_ok _ s1 f Hi1 Hf) as (l & Hl & [(fd & _ & E2 & Hi2)|[_ E2]]).
  - eapply tidy_bind; [exact E2|done|]. apply plus_back in Hi2. set (s2 := with_slot _ _ _ _ s1) in *.
    assert (Hy2 : ft_file s2 !! f = Some (fl_with_ref 1 y)) by (cbn; apply list_lookup_insert_eq; by eapply lookup_lt_Some).
    eapply tidy_bind; [by apply (updf_ok s2 f _ _ Hy2)|done|]. apply tidy_ret.
    apply (finv_retype x0 s2 f (fl_with_ref 1 y)); [done|done|exact (fi_free _ _ Hi f y Hy Hr)|done|done|by destruct dev].
  - eapply tidy_bind; [exact E2|done|]. apply (fileclose_tidy f _ _ x0); [done|done|done|]. intros s' Hi' _ _. by apply tidy_ret.
Qed.

Lemma pipealloc_ok s : finv x0 s → ∃ r s', pipealloc s = Ok (r, s') ∧ ft_cur s' = ft_cur s ∧ ft_of s' = ft_of s ∧
  match r with
  | None => finv x0 s'
  | Some (a, b) => a ≠ b ∧ (a < NFILE)%nat ∧ (b < NFILE)%nat ∧ finv (plus (plus x0 a 1) b 1) s'
  end.
Proof.
  intros Hi. unfold pipealloc. destruct (filealloc_ok _ s Hi) as [(a & ya & Hya & Hra & E1 & Hi1)|E1].
  2: { exists None, s. by rewrite (bind_Ok_eq _ _ _ _ _ E1). }
  rewrite (bind_Ok_eq _ _ _ _ _ E1). set (s1 := ft_with_file _ s) in *.
  assert (Ha : (a < NFILE)%nat) by (rewrite <-(fi_len _ _ Hi); by eapply lookup_lt_Some).
  assert (Ha1 : ft_file s1 !! a = Some (fl_with_ref 1 ya)) by (cbn; apply list_lookup_insert_eq; by eapply lookup_lt_Some).
  destruct (filealloc_ok _ s1 Hi1) as [(b & yb & Hyb & Hrb & E2 & Hi2)|E2].
  2: { rewrite (bind_Ok_eq _ _ _ _ _ E2). destruct (fileclose_ok _ s1 a _ Hi1 Ha1) as (s2 & E3 & Hi3 & Ho & Hc); [done|].
       exists None, s2. rewrite (bind_Ok_eq _ _ _ _ _ E3). split; [done|]. split; [done|]. split; [done|]. by eapply plus_back. }
  rewrite (bind_Ok_eq _ _ _ _ _ E2). set (s2 := ft_with_file _ s1) in *.
  assert (Hb : (b < NFILE)%nat) by (rewrite <-(fi_len _ _ Hi1); by eapply lookup_lt_Some).
  assert (Hab : a ≠ b) by (intros ->; simplify_eq; discriminate Hrb).
  assert (Ha2 : ft_file s2 !! a = Some (fl_with_ref 1 ya)) by (unfold s2; cbn [ft_file ft_with_file]; by rewrite list_lookup_insert_ne).
  assert (Hb2 : ft_file s2 !! b = Some (fl_with_ref 1 yb)) by (unfold s2; cbn [ft_file ft_with_file]; apply list_lookup_insert_eq; by eapply lookup_lt_Some).
  destruct (fe_kalloc_law (ft_env s2) _ (fi_env _ _ Hi2)) as ([p|] & e & Ek & Hk); rewrite (bind_Ok_eq _ _ _ _ _ (env_ok _ _ _ _ Ek)).
  - destruct Hk as [Hp He]. exists (Some (a, b)). eexists. split; [|split; [|split; [|split; [exact Hab|split; [done|split; [done|]]]]]].
    + rewrite (bind_Ok_eq _ _ _ tt (ft_with_pipes (<[p := new_pipe]> (ft_pipes s2)) (ft_with_env e s2))) by done.
      set (s3 := ft_with_pipes _ _). rewrite (bind_Ok_eq _ _ _ _ _ (updf_ok s3 a _ _ Ha2)).
      rewrite (bind_Ok_eq _ _ _ _ _ (updf_ok (ft_with_file _ s3) b (fl_with_ref 1 yb) (fl_as_pipe 0 1 p) ltac:(cbn [ft_file ft_with_file]; rewrite list_lookup_insert_ne by done; exact Hb2))). reflexivity.
    + done.
    + done.
    + apply (finv_new_pipe _ s2 a b (fl_with_ref 1 ya) (fl_with_ref 1 yb) p e); try done.
      * exact (fi_free _ _ Hi a ya Hya Hra).
      * exact (fi_free _ _ Hi1 b yb Hyb Hrb).
  - set (s3 := ft_with_env e s2). assert (Hi3 : finv (plus (plus x0 a 1) b 1) s3) by (destruct Hi2; by constructor).
    destruct (fileclose_ok _ s3 a _ Hi3 Ha2) as (s4 & E4 & Hi4 & Ho4 & Hc4); [done|]. rewrite (bind_Ok_eq _ _ _ _ _ E4).
    assert (Hi4' : finv (plus x0 b 1) s4).
    { eapply finv_ext; [|exact Hi4]. intros g. unfold plus. repeat case_decide; lia. }
    destruct (held_file _ _ b Hi4' Hb) as (y & Hy & Hr). { unfold plus. rewrite decide_True by done. unfold x0. pose proof (cnts_nonneg b (ft_of s4)). lia. }
    destruct (fileclose_ok _ s4 b y Hi4' Hy Hr) as (s5 & E5 & Hi5 & Ho5 & Hc5). rewrite (bind_Ok_eq _ _ _ _ _ E5).
    exists None, s5. split; [done|]. split; [by rewrite Hc5, Hc4|]. split; [by rewrite Ho5, Ho4|]. by eapply plus_back.
Qed.
End calls.

Section calls2.
Context {K : Type} `{!FileEnv K} `{!FileLaws K}.
Abbreviation T := (ftst K).
Implicit Types (s : T) (x : nat → Z).

(** Both files of a new pipe are dropped. *)
Lemma close_both_tidy {A} a b (k : M T A) s : finv (plus (plus x0 a 1) b 1) s → a ≠ b → (a < NFILE)%nat → (b < NFILE)%nat →
  (∀ s', finv x0 s' → tidy k s') → tidy (fileclose a ;; fileclose b ;; k) s.
Proof.
  intros Hi Hab Ha Hb Hk. apply (fileclose_tidy a _ s (plus x0 b 1)).
  - eapply finv_ext; [|exact Hi]. intros g. unfold plus. repeat case_decide; lia.
  - done.
  - unfold plus. case_decide; unfold x0; lia.
  - intros s1 Hi1 _ _. apply (fileclose_tidy b _ s1 x0); [done|done|done|]. intros s2 Hi2 _ _. by apply Hk.
Qed.

Lemma with_slot_cur i l fd v s : ft_cur (with_slot i l fd v s) = ft_cur s.
Proof. done. Qed.

Lemma sys_pipe_tidy addr s : finv x0 s → tidy (sys_pipe addr) s.
Proof.
  intros Hi. unfold sys_pipe. eapply (tidy_bind _ _ _ (ft_cur s) s); [done|done|].
  destruct (pipealloc_ok s Hi) as (r & s1 & E1 & Hc1 & _ & H1). eapply tidy_bind; [exact E1|done|].
  destruct r as [[a b]|]; [|by apply tidy_ret]. destruct H1 as (Hab & Ha & Hb & Hi1). rewrite <-Hc1.
  destruct (fdalloc_ok _ s1 a Hi1 Ha) as (l & Hl & [(fd0 & Hlow0 & E2 & Hi2)|[_ E2]]).
  2: { eapply tidy_bind; [exact E2|done|]. apply close_both_tidy; [done..|]. intros s' Hi'. by apply tidy_ret. }
  eapply tidy_bind; [exact E2|done|]. set (s2 := with_slot _ _ _ _ s1) in *.
  assert (Hi2' : finv (plus x0 b 1) s2). { eapply finv_ext; [|exact Hi2]. intros g. unfold plus. repeat case_decide; lia. }
  assert (Hlt : (fd0 < length l)%nat) by (by eapply lookup_lt_Some, Hlow0).
  assert (Hl2 : ft_of s2 !! ft_cur s2 = Some (<[fd0 := Some a]> l)) by (cbn; apply list_lookup_insert_eq; by eapply lookup_lt_Some).
  assert (Hs0 : <[fd0 := Some a]> l !! fd0 = Some (Some a)) by (by apply list_lookup_insert_eq).
  destruct (fdalloc_ok _ s2 b Hi2' Hb) as (l2 & Hl2' & [(fd1 & Hlow1 & E3 & Hi3)|[_ E3]]).
  2: { eapply tidy_bind; [exact E3|done|].
       eapply tidy_bind; [exact (set_of_ok s2 (ft_cur s1) fd0 _ None _ Hl2 Hs0)|done|]. apply close_both_tidy; [|done..|].
       - pose proof (drop_slot _ s2 _ _ fd0 a Hi2' Hl2 Hs0) as H. eapply finv_ext; [|exact H]. intros g. unfold plus. repeat case_decide; lia.
       - intros s' Hi'. by apply tidy_ret. }
  rewrite Hl2 in Hl2'. injection Hl2' as <-. eapply tidy_bind; [exact E3|done|]. apply plus_back in Hi3. set (s3 := with_slot _ _ _ _ s2) in *.
  assert (Hne : fd1 ≠ fd0). { intros ->. destruct Hlow1 as [H _]. rewrite Hs0 in H. discriminate H. }
  assert (Hlt1 : (fd1 < length (<[fd0 := Some a]> l))%nat) by (by eapply lookup_lt_Some, Hlow1).
  assert (Hl3 : ft_of s3 !! ft_cur s3 = Some (<[fd1 := Some b]> (<[fd0 := Some a]> l))) by (cbn; apply list_lookup_insert_eq; by eapply lookup_lt_Some).
  assert (Hback : ∀ e r, fe_rep e (dom (ft_pipes s3)) → r < 0 →
    tidy (set_of (ft_cur s1) fd0 None ;; set_of (ft_cur s1) fd1 None ;; fileclose a ;; fileclose b ;; mret (-1)) (ft_with_env e s3)).
  { intros e r He _. assert (Hi4 : finv x0 (ft_with_env e s3)) by (destruct Hi3; by constructor).
    assert (H0 : <[fd1 := Some b]> (<[fd0 := Some a]> l) !! fd0 = Some (Some a)) by (by rewrite list_lookup_insert_ne).
    eapply tidy_bind; [exact (set_of_ok (ft_with_env e s3) (ft_cur s1) fd0 _ None _ Hl3 H0)|done|].
    pose proof (drop_slot _ (ft_with_env e s3) _ _ fd0 a Hi4 Hl3 H0) as Hi5. set (s5 := with_slot _ _ fd0 None _) in *.
    set (l5 := <[fd0 := None]> (<[fd1 := Some b]> (<[fd0 := Some a]> l))) in *.
    assert (Hl5 : ft_of s5 !! ft_cur s5 = Some l5) by (cbn; apply list_lookup_insert_eq; by eapply lookup_lt_Some).
    assert (H1 : l5 !! fd1 = Some (Some b)) by (unfold l5; rewrite list_lookup_insert_ne by done; by apply list_lookup_insert_eq).
    eapply tidy_bind; [exact (set_of_ok s5 (ft_cur s1) fd1 l5 None _ Hl5 H1)|done|].
    pose proof (drop_slot _ s5 _ _ fd1 b Hi5 Hl5 H1) as Hi6.
    apply close_both_tidy; [exact Hi6|done..|]. intros s' Hi'. by apply tidy_ret. }
  destruct (fe_int_law addr (Z.of_nat fd0) (ft_env s3) _ (fi_env _ _ Hi3)) as (r & e & Er & Re).
  eapply tidy_bind; [exact (env_ok _ s3 _ _ Er)|done|].
  assert (Hnext : ∃ r2 e2, (if bool_decide (r < 0) then mret r else env (fe_copyout_int (addr + 4) (Z.of_nat fd1))) (ft_with_env e s3) = Ok (r2, ft_with_env e2 s3) ∧
    fe_rep e2 (dom (ft_pipes s3))).
  { case_bool_decide; [by exists r, e|]. destruct (fe_int_law (addr + 4) (Z.of_nat fd1) e _ Re) as (r2 & e2 & Er2 & Re2). exists r2, e2. split; [|done].
    exact (env_ok _ (ft_with_env e s3) _ _ Er2). }
  destruct Hnext as (r2 & e2 & Er2 & Re2). eapply tidy_bind; [exact Er2|done|]. clear Er2.
  case_bool_decide as Hneg; [by apply (Hback e2 r2)|].
  apply tidy_ret. destruct Hi3; by constructor.
Qed.

(** ** [fork] and [exit] *)

Lemma fork_files_loop i j s0 : i ≠ j → ∀ n fd s, finv x0 s → ft_cur s = ft_cur s0 → (fd + n = NOFILE)%nat →
  (∃ l, ft_of s !! i = Some l) → (∃ l, ft_of s !! j = Some l ∧ ∀ k, (fd ≤ k < NOFILE)%nat → l !! k = Some None) →
  tidy (forM (seq fd n) (fork_file i j)) s.
Proof.
  intros Hij. induction n as [|n IH]; intros fd s Hi Hcur Hn [l Hl] (lj & Hlj & Hfree); [by apply tidy_ret|]. cbn [seq forM].
  pose proof (Forall_lookup_1 _ _ _ _ (fi_of _ _ Hi) Hl) as Hlen. cbv beta in Hlen.
  destruct (lookup_lt_is_Some_2 l fd) as [v Hv]; [lia|].
  assert (Hstep : ∃ s', fork_file i j fd s = Ok (tt, s') ∧ finv x0 s' ∧ ft_cur s' = ft_cur s ∧ ft_of s' !! i = Some l ∧
    ∃ l', ft_of s' !! j = Some l' ∧ ∀ k, (S fd ≤ k < NOFILE)%nat → l' !! k = Some None).
  { unfold fork_file. rewrite (bind_Ok_eq _ _ _ _ _ (get_of_ok s i fd l v Hl Hv)). destruct v as [f|].
    2: { exists s. split; [done|]. split; [done|]. split; [done|]. split; [done|]. exists lj. split; [done|]. intros k Hk. apply Hfree. lia. }
    destruct (slot_range _ s i l fd f Hi Hl Hv) as [Hf Hc]. destruct (held_file _ _ f Hi Hf) as (y & Hy & Hr); [unfold x0; lia|].
    destruct (filedup_ok x0 s f y Hi Hy Hr ltac:(done)) as [Ed Hd]. rewrite (bind_Ok_eq _ _ _ _ _ Ed). set (s1 := ft_with_file _ s) in *.
    assert (Hjf : lj !! fd = Some None) by (apply Hfree; lia).
    rewrite (set_of_ok s1 j fd lj (Some f) None Hlj Hjf). exists (with_slot j lj fd (Some f) s1). split; [done|]. split; [|split; [done|split]].
    - pose proof (finv_slot _ s1 j lj fd None (Some f) Hd Hlj Hjf) as H. eapply finv_ext; [|apply H; by intros g [= <-]].
      intros g. unfold plus, is_f, x0. rewrite (decide_False (P := None = Some g)) by done. destruct (decide (g = f)) as [->|Hne].
      + rewrite decide_True by done. lia.
      + rewrite decide_False by congruence. lia.
    - cbn. by rewrite list_lookup_insert_ne.
    - eexists. split; [cbn; apply list_lookup_insert_eq; by eapply lookup_lt_Some|]. intros k Hk. rewrite list_lookup_insert_ne by lia. apply Hfree. lia. }
  destruct Hstep as (s' & Es & Hi' & Hc' & Hl' & Hj'). eapply tidy_bind; [exact Es|done|]. apply IH; [done|congruence|lia|by exists l|done].
Qed.
Lemma fork_files_tidy j l s : finv x0 s → j ≠ ft_cur s → ft_of s !! j = Some l → l = replicate NOFILE None → tidy (fork_files j) s.
Proof.
  intros Hi Hj Hl ->. unfold fork_files. eapply (tidy_bind _ _ _ (ft_cur s) s); [done|done|].
  apply (fork_files_loop (ft_cur s) j s); [done|done|done|done| |].
  - destruct (cur_slots _ s Hi) as (l & ? & _). by exists l.
  - eexists. split; [exact Hl|]. intros k Hk. apply lookup_replicate. split; [done|lia].
Qed.

Lemma exit_files_loop i s0 : ∀ n fd s, finv x0 s → ft_cur s = ft_cur s0 → (fd + n = NOFILE)%nat →
  (∃ l, ft_of s !! i = Some l ∧ ∀ k, (k < fd)%nat → l !! k = Some None) →
  ∃ s', forM (seq fd n) (exit_file i) s = Ok (tt, s') ∧ finv x0 s' ∧ ft_cur s' = ft_cur s ∧ ft_of s' !! i = Some (replicate NOFILE None) ∧
    ∀ j, j ≠ i → ft_of s' !! j = ft_of s !! j.
Proof.
  induction n as [|n IH]; intros fd s Hi Hcur Hn (l & Hl & Hdone).
  - exists s. split; [done|]. split; [done|]. split; [done|]. split; [|done]. rewrite Hl. f_equal. apply list_eq. intros k.
    pose proof (Forall_lookup_1 _ _ _ _ (fi_of _ _ Hi) Hl) as Hlen. cbv beta in Hlen.
    destruct (decide (k < NOFILE)%nat).
    + rewrite Hdone by lia. symmetry. apply lookup_replicate. split; [done|lia].
    + rewrite !lookup_ge_None_2; [done|rewrite length_replicate; lia|lia].
  - cbn [seq forM]. pose proof (Forall_lookup_1 _ _ _ _ (fi_of _ _ Hi) Hl) as Hlen. cbv beta in Hlen.
    destruct (lookup_lt_is_Some_2 l fd) as [v Hv]; [lia|].
    assert (Hstep : ∃ s', exit_file i fd s = Ok (tt, s') ∧ finv x0 s' ∧ ft_cur s' = ft_cur s ∧ (∀ j, j ≠ i → ft_of s' !! j = ft_of s !! j) ∧
      ∃ l', ft_of s' !! i = Some l' ∧ ∀ k, (k < S fd)%nat → l' !! k = Some None).
    { unfold exit_file. rewrite (bind_Ok_eq _ _ _ _ _ (get_of_ok s i fd l v Hl Hv)). destruct v as [f|].
      2: { exists s. split; [done|]. split; [done|]. split; [done|]. split; [done|]. exists l. split; [done|]. intros k Hk.
           destruct (decide (k = fd)) as [->|]; [done|apply Hdone; lia]. }
      destruct (slot_range _ s i l fd f Hi Hl Hv) as [Hf Hc]. destruct (held_file _ _ f Hi Hf) as (y & Hy & Hr); [unfold x0; lia|].
      destruct (fileclose_ok _ s f y Hi Hy Hr) as (s1 & E1 & Hi1 & Ho & Hc1). rewrite (bind_Ok_eq _ _ _ _ _ E1).
      assert (Hl1 : ft_of s1 !! i = Some l) by (by rewrite Ho). rewrite (set_of_ok s1 i fd l None (Some f) Hl1 Hv).
      exists (with_slot i l fd None s1). split; [done|]. split; [by eapply plus_forth, drop_slot|]. split; [done|]. split.
      - intros j Hj. cbn. rewrite list_lookup_insert_ne by done. by rewrite Ho.
      - eexists. split; [cbn; apply list_lookup_insert_eq; by eapply lookup_lt_Some|]. intros k Hk. destruct (decide (k = fd)) as [->|Hne].
        + apply list_lookup_insert_eq. lia.
        + rewrite list_lookup_insert_ne by done. apply Hdone. lia. }
    destruct Hstep as (s' & Es & Hi' & Hc' & Ho' & Hl'). rewrite (bind_Ok_eq _ _ _ _ _ Es).
    destruct (IH (S fd) s' Hi' ltac:(congruence) ltac:(lia) Hl') as (s2 & E2 & Hi2 & Hc2 & Hr2 & Ho2).
    exists s2. split; [done|]. split; [done|]. split; [congruence|]. split; [done|]. intros j Hj. rewrite Ho2, Ho' by done. done.
Qed.
Lemma exit_files_tidy s : finv x0 s → tidy exit_files s.
Proof.
  intros Hi. unfold exit_files. eapply (tidy_bind _ _ _ (ft_cur s) s); [done|done|]. destruct (cur_slots _ s Hi) as (l & Hl & _).
  destruct (exit_files_loop (ft_cur s) s NOFILE 0 s Hi eq_refl eq_refl) as (s' & E & Hi' & Hc & _); [exists l; split; [done|lia]|].
  by exists tt, s'.
Qed.
End calls2.
