(* ===== verification/FileClaims.v ===== *)
(** * Descriptors, files and pipes of all processes

    The system of the descriptor calls of every process in any order, and what
    holds in each of its states: reference counts, and the ends of pipes. *)
From S2P Require Import Prelude Spinlock Sleeplock Inode Pipe File FileOps.

(** A call of the running process, or another process running. *)
Inductive fdop :=
  | ODup (fd : Z) | OClose (fd : Z) | OPipe (addr : Z) | OOpen (ip : nat) (dev : bool) (major omode : Z)
  | OFork (j : nat) | OExit | OSwitch (i : nat).

Section system.
Context {K : Type} `{!FileEnv K}.
Abbreviation T := (ftst K).

Definition run_fdop (op : fdop) : M T Z :=
  match op with
  | ODup fd => sys_dup fd
  | OClose fd => sys_close fd
  | OPipe addr => sys_pipe addr
  | OOpen ip dev major omode => open_file ip dev major omode
  | OFork j => fork_files j ;; mret 0
  | OExit => exit_files ;; mret 0
  | OSwitch i => modify (ft_with_cur i) ;; mret 0
  end.
(** [fork] takes a process without descriptors. *)
Definition enabled (op : fdop) (s : T) : Prop :=
  match op with
  | OFork j => j ≠ ft_cur s ∧ ft_of s !! j = Some (replicate NOFILE None)
  | OSwitch i => (i < length (ft_of s))%nat
  | _ => True
  end.
#[export] Instance enabled_dec op s : Decision (enabled op s).
Proof. destruct op; unfold enabled; apply _. Defined.

Inductive fd_reach (s0 : T) : T → Prop :=
  | fd_start : fd_reach s0 s0
  | fd_step s op r s' : fd_reach s0 s → enabled op s → run_fdop op s = Ok (r, s') → fd_reach s0 s'.

(** The tables at boot. *)
Definition fd_boot (e : K) : T :=
  mkft (initlock "ftable") (replicate NFILE file0) (replicate NPROC (replicate NOFILE None)) 0 ∅ e.

(** A run of enabled calls. *)
Fixpoint fd_run (ops : list fdop) : M T unit :=
  match ops with
  | [] => mret tt
  | op :: ops => λ s, if decide (enabled op s) then (run_fdop op ;; fd_run ops) s else Fault
  end.
Lemma fd_run_reach s0 : ∀ ops s s', fd_reach s0 s → fd_run ops s = Ok (tt, s') → fd_reach s0 s'.
Proof.
  induction ops as [|op ops IH]; intros s s' Hs E; cbn [fd_run] in E; [by injection E as <-|].
  case_decide as He; [|discriminate E]. unfold mbind, M_bind in E. destruct (run_fdop op s) as [[r s1]| | |] eqn:Er; [|discriminate E..].
  eapply IH; [|exact E]. by eapply fd_step.
Qed.
End system.

Section claims.
Context {K : Type} `{!FileEnv K} `{!FileLaws K}.
Abbreviation T := (ftst K).
Implicit Types (s : T).

Lemma boot_inv e : fe_rep e ∅ → finv x0 (fd_boot e).
Proof.
  intros He. assert (Hc : ∀ f n, cnts f (replicate n (replicate NOFILE None)) = 0).
  { intros f. induction n as [|n IH]; [done|]. rewrite replicate_S, cnts_cons, IH. reflexivity. }
  assert (Hend : ∀ pi w, ¬ file_end (replicate NFILE file0) pi w).
  { intros pi w (f & y & Hf & Ht & _). apply lookup_replicate in Hf as [-> _]. discriminate Ht. }
  constructor; cbn [fd_boot ft_file ft_of ft_cur ft_pipes ft_lock ft_env].
  - apply length_replicate.
  - apply Forall_replicate, length_replicate.
  - rewrite length_replicate. unfold NPROC. lia.
  - intros i l k f Hi Hk. apply lookup_replicate in Hi as [-> _]. apply lookup_replicate in Hk as [Hk _]. discriminate Hk.
  - intros f y Hf. apply lookup_replicate in Hf as [-> _]. by rewrite Hc.
  - intros f y Hf _. by apply lookup_replicate in Hf as [-> _].
  - intros pi w. split; [intros (p & Hp & _); by rewrite lookup_empty in Hp|intros H; by apply Hend in H].
  - intros pi p Hp. by rewrite lookup_empty in Hp.
  - intros f g y z pi w Hf _ Hy. exfalso. apply (Hend pi w). by exists f, y.
  - done.
  - by rewrite dom_empty_L.
Qed.

Lemma tidy_then {A B} (m : M T A) (b : B) s : tidy m s → tidy (m ;; mret b) s.
Proof. intros (r & s' & E & Hi & Hc). exists b, s'. by rewrite (bind_Ok_eq _ _ _ _ _ E). Qed.

Lemma fdop_ok op s : finv x0 s → enabled op s → ∃ r s', run_fdop op s = Ok (r, s') ∧ finv x0 s'.
Proof.
  intros Hi He. assert (H : ∀ m : M T Z, tidy m s → ∃ r s', m s = Ok (r, s') ∧ finv x0 s') by (intros m (r & s' & ? & ? & _); by exists r, s').
  destruct op as [fd|fd|addr|ip dev major omode|j| |i]; cbn [run_fdop].
  - by apply H, sys_dup_tidy.
  - by apply H, sys_close_tidy.
  - by apply H, sys_pipe_tidy.
  - by apply H, open_file_tidy.
  - destruct He as [Hj Hl]. by eapply H, tidy_then, fork_files_tidy.
  - by apply H, tidy_then, exit_files_tidy.
  - exists 0, (ft_with_cur i s). split; [done|]. destruct Hi. constructor; try done. cbn. unfold enabled in He. lia.
Qed.

Lemma reach_inv e s : fe_rep e ∅ → fd_reach (fd_boot e) s → finv x0 s.
Proof.
  intros He. induction 1 as [|s op r s' _ IH Hen Er]; [by apply boot_inv|]. destruct (fdop_ok op s IH Hen) as (r' & s2 & E2 & Hi).
  rewrite E2 in Er. by injection Er as _ <-.
Qed.

(** Descriptor [k] of process [i] is an end of pipe [pi]. *)
Definition descriptor_of s (i k : nat) (pi : Z) (w : bool) : Prop :=
  ∃ l f y, ft_of s !! i = Some l ∧ l !! k = Some (Some f) ∧ ft_file s !! f = Some y ∧ is_end y pi w.

(** C35: descriptors and files agree, whatever the processes do.  From boot, with
    any order of dup, close, pipe, open, fork and exit of any process: no call
    panics or leaves an array; the count of every file is the number of
    descriptors that hold it, and a file without descriptors is free; an end of
    a pipe is open exactly as long as some process has a descriptor for it, so
    that readers see the end of the data exactly when no writer is left; and no
    pipe with both ends closed keeps its page. *)
Theorem descriptor_references (e : K) s :
  fe_rep e ∅ → fd_reach (fd_boot e) s →
  (∀ op, enabled op s → ∃ r s', run_fdop op s = Ok (r, s')) ∧
  (∀ f y, ft_file s !! f = Some y → fl_ref y = cnts f (ft_of s) ∧ (fl_ref y = 0 → fl_type y = FD_NONE)) ∧
  (∀ pi w, open_end (ft_pipes s) pi w ↔ ∃ i k, descriptor_of s i k pi w) ∧
  (∀ pi p, ft_pipes s !! pi = Some p → end_open true p ∨ end_open false p).
Proof.
  intros He Hs. pose proof (reach_inv e s He Hs) as Hi. split; [|split; [|split]].
  - intros op Hen. destruct (fdop_ok op s Hi Hen) as (r & s' & E & _). by exists r, s'.
  - intros f y Hf. split; [rewrite (fi_ref _ _ Hi f y Hf); unfold x0; lia|exact (fi_free _ _ Hi f y Hf)].
  - intros pi w. rewrite (fi_ends _ _ Hi). split.
    + intros (f & y & Hf & Hy). assert (Hr : fl_ref y ≠ 0).
      { intros H0. apply (fi_free _ _ Hi f y Hf) in H0. destruct Hy as [Ht _]. congruence. }
      rewrite (fi_ref _ _ Hi f y Hf) in Hr. unfold x0 in Hr. pose proof (cnts_nonneg f (ft_of s)).
      destruct (cnts_slot f (ft_of s)) as (i & l & k & Hl & Hk); [lia|]. by exists i, k, l, f, y.
    + intros (i & k & l & f & y & _ & _ & Hf & Hy). by exists f, y.
  - exact (fi_live _ _ Hi).
Qed.
End claims.

(** ** A kernel around the table

    Pages are handed out one after the other; inodes need nothing. *)
Record demo_env := mkdenv { de_hart : hart; de_next : Z }.
#[export] Instance demo_file_env : FileEnv demo_env := {
  fe_hart := de_hart; fe_set_hart h e := mkdenv h (de_next e); fe_killed _ := false;
  fe_kalloc e := Ok (Some (de_next e), mkdenv (de_hart e) (de_next e + 4096));
  fe_kfree _ := mret tt; fe_begin_op := mret tt; fe_end_op := mret tt;
  fe_ilock _ := mret tt; fe_iunlock _ := mret tt; fe_iput _ := mret tt;
  fe_stati _ := mret (mkistat 1 1 2 1 0); fe_copyout_stat _ _ := mret 0; fe_copyout_int _ _ := mret 0;
  fe_readi _ _ _ _ := mret 0; fe_writei _ _ _ n := mret n;
  fe_copyin1 _ _ := Some 97; fe_copyout1 _ _ e := Some e; fe_dev_read _ := None; fe_dev_write _ := None }.
#[export] Program Instance demo_file_laws : FileLaws demo_env := {
  fe_rep e U := hart_good (de_hart e) ∧ ∀ p, p ∈ U → p < de_next e }.
Next Obligation. by intros e U [H _]. Qed.
Next Obligation. by intros e U h [_ H] Hh. Qed.
Next Obligation. done. Qed.
Next Obligation. done. Qed.
Next Obligation. by intros []. Qed.
Next Obligation.
  intros e U [Hh Hp]. exists (Some (de_next e)), (mkdenv (de_hart e) (de_next e + 4096)). split; [done|]. split; [intros H; apply Hp in H; lia|].
  split; [done|]. cbn. intros p [->%elem_of_singleton|H]%elem_of_union; [lia|]. apply Hp in H. lia.
Qed.
Next Obligation. intros e U p [Hh Hp] _. exists e. split; [done|]. split; [done|]. intros q [Hq _]%elem_of_difference. by apply Hp. Qed.
Next Obligation. intros e U H. by exists e. Qed.
Next Obligation. intros ip e U H. by exists e. Qed.
Next Obligation. intros e U H. by exists e. Qed.
Next Obligation. intros a v e U H. by exists 0, e. Qed.

(** A process makes a pipe and forks; the writer closes its end, the child still
    has one; after the child's exit none is left. *)
Definition demo_fd0 : demo_env := mkdenv (mkhart 0 true 0 true) 4096.
Lemma descriptor_references_witness :
  ∃ s1 s2, fd_run [OPipe 0; OFork 1; OClose 1] (fd_boot demo_fd0) = Ok (tt, s1) ∧
    (∃ i k, descriptor_of s1 i k 4096 true) ∧
    fd_run [OSwitch 1; OExit] s1 = Ok (tt, s2) ∧ ¬ (∃ i k, descriptor_of s2 i k 4096 true).
Proof.
  assert (He : fe_rep demo_fd0 ∅).
  { split; [split; [split; [cbn; lia|intros H; cbn in H; lia]|reflexivity]|]. intros p Hp. by apply not_elem_of_empty in Hp. }
  destruct (fd_run [OPipe 0; OFork 1; OClose 1] (fd_boot demo_fd0)) as [[[] s1]| | |] eqn:E1; [|vm_compute in E1; discriminate E1..].
  destruct (fd_run [OSwitch 1; OExit] s1) as [[[] s2]| | |] eqn:E2.
  2-4: exfalso; vm_compute in E1; injection E1 as <-; vm_compute in E2; discriminate E2.
  exists s1, s2. split; [done|].
  pose proof (fd_run_reach (fd_boot demo_fd0) _ _ _ (fd_start _) E1) as R1. pose proof (fd_run_reach _ _ _ _ R1 E2) as R2.
  destruct (descriptor_references demo_fd0 s1 He R1) as (_ & _ & H1 & _). destruct (descriptor_references demo_fd0 s2 He R2) as (_ & _ & H2 & _).
  split; [|split; [done|]].
  - apply H1. vm_compute in E1. injection E1 as <-. eexists. split; [reflexivity|]. vm_compute. discriminate.
  - rewrite <-H2. vm_compute in E1. injection E1 as <-. vm_compute in E2. injection E2 as <-.
    intros (p & Hp & Ho). vm_compute in Hp. injection Hp as <-. by apply Ho.
Defined.
