(* ===== verification/ShProc.v ===== *)
(** * What the shell's processes do

    The traces of a process under the answers that the kernel can give, and what
    a command is meant to do with the descriptors it gets. *)
From S2P Require Import Ulib Prelude File FileOps Sh ShGrammar ShParse ShRun ShClaims.

(** What a descriptor stands for: something inherited, a file that was opened,
    or an end of the pipe that process [π] made as its [n]-th fork or pipe. *)
Inductive obj := Inherited (i : nat) | Opened (file : word) (mode : Z) | PipeEnd (π : list nat) (n : nat) (w : bool).
Abbreviation fds := (list (option obj)).

Inductive event :=
  | Run (path : word) (argv : list word) (t : fds)      (** the process becomes this program *)
  | Exit (status : Z)
  | Undefined
  | Write (to : option obj) (text : word)
  | Open (file : word) (mode : Z) (ok : bool)
  | Child (l : list event)                              (** a child that does [l] *)
  | Wait
  | Chdir (dir : word) (ok : bool)
  | Line (s : word).

Fixpoint lowest {X} (l : list (option X)) : option nat :=
  match l with
  | [] => None
  | None :: _ => Some 0%nat
  | Some _ :: l => S <$> lowest l
  end.
(** The kernel's [fdalloc]. *)
Lemma lowest_free {X} (l : list (option X)) fd : lowest l = Some fd ↔ low_free l fd.
Proof.
  unfold low_free. revert fd. induction l as [|[x|] l IH]; intros fd; cbn [lowest].
  - split; [done|]. intros [H _]. done.
  - destruct fd as [|fd].
    + split; [by destruct (lowest l)|]. intros [H _]. done.
    + transitivity (lowest l = Some fd); [destruct (lowest l); cbn; split; congruence|]. rewrite IH. cbn. split; intros [H1 H2]; (split; [done|]).
      * intros [|k] Hk; [by exists x|]. apply (H2 k). lia.
      * intros k Hk. apply (H2 (S k)). lia.
  - split; [intros [= <-]; split; [done|lia]|]. intros [_ H]. destruct fd as [|fd]; [done|]. destruct (H 0%nat) as [f Hf]; [lia|done].
Qed.

Definition obj_at (t : fds) (fd : Z) : option obj := zidx t fd ≫= id.
Definition closed (t : fds) (fd : Z) : fds := default t (zupd t fd None).

(** The events [l] of process [π] that has made [n] forks and pipes and holds the
    descriptors [t]. *)
Fixpoint emits (p : prog) (π : list nat) (n : nat) (t : fds) (l : list event) : Prop :=
  match p with
  | PExit st => l = [Exit st]
  | PFault => l = [Undefined]
  | PMore => l = []
  | PExec path argv k => l = [Run path argv t] ∨ emits k π n t l
  | PWrite fd s k => ∃ l', l = Write (obj_at t fd) s :: l' ∧ emits k π n t l'
  | PClose fd k => emits k π n (closed t fd) l
  | POpen f m k =>
      (∃ fd l', lowest t = Some fd ∧ l = Open f m true :: l' ∧ emits (k (Z.of_nat fd)) π n (<[fd := Some (Opened f m)]> t) l') ∨
      (∃ l', l = Open f m false :: l' ∧ emits (k (-1)) π n t l')
  | PDup fd k =>
      match obj_at t fd, lowest t with
      | Some o, Some fd' => emits k π n (<[fd' := Some o]> t) l
      | _, _ => emits k π n t l
      end
  | PPipe k =>
      (∃ a b, lowest t = Some a ∧ lowest (<[a := Some (PipeEnd π n false)]> t) = Some b ∧
         emits (k 0 (Z.of_nat a) (Z.of_nat b)) π (S n) (<[b := Some (PipeEnd π n true)]> (<[a := Some (PipeEnd π n false)]> t)) l) ∨
      (∃ a b, emits (k (-1) a b) π n t l)
  | PFork k =>
      (∃ pid lc lp, 0 < pid ∧ l = Child lc :: lp ∧ emits (k 0) (π ++ [n]) 0 t lc ∧ emits (k pid) π (S n) t lp) ∨
      emits (k (-1)) π n t l
  | PWait k => ∃ l', l = Wait :: l' ∧ emits k π n t l'
  | PChdir d k => ∃ ok l', l = Chdir d ok :: l' ∧ emits (k (if ok : bool then 0 else -1)) π n t l'
  | PGets m k => ∃ s l', (length s < m)%nat ∧ l = Line s :: l' ∧ emits (k s) π n t l'
  end.

(** No answer of the kernel and no line leads to undefined behaviour. *)
Fixpoint safe (p : prog) : Prop :=
  match p with
  | PExit _ | PMore => True
  | PFault => False
  | PExec _ _ k | PWrite _ _ k | PClose _ k | PDup _ k | PWait k => safe k
  | POpen _ _ k | PFork k | PChdir _ k => ∀ r, safe (k r)
  | PPipe k => ∀ r a b, safe (k r a b)
  | PGets m k => ∀ s, (length s < m)%nat → safe (k s)
  end.
Lemma safe_fork1 k : (∀ pid, safe (k pid)) → safe (fork1 k).
Proof. intros H pid. by case_bool_decide. Qed.
Lemma runcmd_safe H b : ∀ c p fuel, reads H b c p → (p < fuel)%nat → safe (runcmd fuel H b (Some p)).
Proof.
  induction c as [args|c IH f mode fd|c IH1 d IH2|c IH1 d IH2|c IH]; intros p [|fuel] Hr Hf; try lia; cbn [runcmd].
  - destruct Hr as (argv & eargv & -> & _ & HN). destruct argv as [|[q|] argv]; [by apply elem_of_nil in HN| |done]. by rewrite bool_decide_true.
  - destruct Hr as (p' & q & e & -> & Hlt & _ & Hr). intros r. case_bool_decide; [done|]. apply IH; [done|lia].
  - destruct Hr as (p1 & p2 & -> & Hp1 & Hp2 & Hr1 & Hr2). intros r a1 a2. case_bool_decide; [done|]. apply safe_fork1. intros pid. case_bool_decide; [apply IH1; [done|lia]|].
    apply safe_fork1. intros pid2. case_bool_decide; [apply IH2; [done|lia]|done].
  - destruct Hr as (p1 & p2 & -> & Hp1 & Hp2 & Hr1 & Hr2). apply safe_fork1. intros pid. case_bool_decide; [apply IH1; [done|lia]|apply IH2; [done|lia]].
  - destruct Hr as (p' & -> & Hlt & Hr). apply safe_fork1. intros pid. case_bool_decide; [apply IH; [done|lia]|done].
Qed.

(** ** What a command means *)

Definition says (t : fds) (s : word) : event := Write (obj_at t 2) (s ++ [10]).
Definition gives_up (t : fds) (s : word) : list event := [says t s; Exit 1].

(** [c] run by a process with the descriptors [t]: a simple command becomes its
    program with exactly these descriptors; a redirection replaces one of them;
    a pipe gives one end to each of two children and waits for both; a sequence
    waits for its first part; a background command is not waited for. *)
Fixpoint does (c : shcmd) (π : list nat) (n : nat) (t : fds) (l : list event) : Prop :=
  match c with
  | Exec [] => l = [Exit 1]
  | Exec (w :: ws) => l = [Run w (w :: ws) t] ∨ l = [says t (chars "exec " ++ w ++ chars " failed"); Exit 0]
  | Redir c f m fd =>
      (∃ l', l = Open f m true :: l' ∧ does c π n (<[Z.to_nat fd := Some (Opened f m)]> t) l') ∨
      l = Open f m false :: gives_up t (chars "open " ++ f ++ chars " failed")
  | Seq c d => (∃ lc ld, does c (π ++ [n]) 0 t lc ∧ does d π (S n) t ld ∧ l = Child lc :: Wait :: ld) ∨ l = gives_up t (chars "fork")
  | Pipe c d =>
      (∃ lc ld, does c (π ++ [S n]) 0 (<[1%nat := Some (PipeEnd π n true)]> t) lc ∧
         does d (π ++ [S (S n)]) 0 (<[0%nat := Some (PipeEnd π n false)]> t) ld ∧ l = [Child lc; Child ld; Wait; Wait; Exit 0]) ∨
      (∃ lc, does c (π ++ [S n]) 0 (<[1%nat := Some (PipeEnd π n true)]> t) lc ∧ l = Child lc :: gives_up t (chars "fork")) ∨
      l = gives_up t (chars "fork") ∨ l = gives_up t (chars "pipe")
  | Back c => (∃ lc, does c (π ++ [n]) 0 t lc ∧ l = [Child lc; Exit 0]) ∨ l = gives_up t (chars "fork")
  end.

(** Standard descriptors: 0, 1 and 2 open, all others closed. *)
Definition std (t : fds) : Prop := ∃ a b c, t = Some a :: Some b :: Some c :: replicate (NOFILE - 3) None.

(** A redirection is of descriptor 0 or 1. *)
Fixpoint redirs_std (c : shcmd) : Prop :=
  match c with
  | Exec _ => True
  | Redir c _ _ fd => (fd = 0 ∨ fd = 1) ∧ redirs_std c
  | Pipe c d | Seq c d => redirs_std c ∧ redirs_std d
  | Back c => redirs_std c
  end.

Lemma emits_panic msg π n t l : emits (sh_panic msg) π n t l ↔ l = gives_up t msg.
Proof. unfold sh_panic, gives_up. cbn [emits]. split; [by intros (l' & -> & ->)|by intros ->; eexists]. Qed.
Lemma emits_fork1 k π n t l : emits (fork1 k) π n t l ↔
  (∃ pid lc lp, 0 < pid ∧ l = Child lc :: lp ∧ emits (k 0) (π ++ [n]) 0 t lc ∧ emits (k pid) π (S n) t lp) ∨ l = gives_up t (chars "fork").
Proof.
  unfold fork1. cbn [emits]. rewrite (bool_decide_true (-1 = -1)) by done. rewrite emits_panic.
  split; (intros [(pid & lc & lp & Hp & -> & H1 & H2)|H]; [left; exists pid, lc, lp; split; [done|split; [done|]]; revert H1 H2; by rewrite !bool_decide_false by lia|by right]).
Qed.
(** The parent and the child of [fork1] go different ways. *)
Lemma emits_both (child parent : prog) π n t l :
  emits (fork1 (λ pid, if bool_decide (pid = 0) then child else parent)) π n t l ↔
  (∃ lc lp, l = Child lc :: lp ∧ emits child (π ++ [n]) 0 t lc ∧ emits parent π (S n) t lp) ∨ l = gives_up t (chars "fork").
Proof.
  rewrite emits_fork1. rewrite (bool_decide_true (0 = 0)) by done. split.
  - intros [(pid & lc & lp & Hp & -> & H1 & H2)|H]; [|by right]. left. exists lc, lp. rewrite bool_decide_false in H2 by lia. done.
  - intros [(lc & lp & -> & H1 & H2)|H]; [|by right]. left. exists 1, lc, lp. rewrite bool_decide_false by lia. done.
Qed.

(** ** [runcmd] *)

Lemma or_iff (A B C D : Prop) : (A ↔ B) → (C ↔ D) → (A ∨ C ↔ B ∨ D).
Proof. tauto. Qed.

Lemma std_intro (a b c : obj) : std (Some a :: Some b :: Some c :: replicate (NOFILE - 3) None).
Proof. by exists a, b, c. Qed.

(** A pipe from a process with standard descriptors: its ends are descriptors 3
    and 4, and the two children end up with one of them in its place. *)
Lemma emits_pipe left right π n x y z l (t := Some x :: Some y :: Some z :: replicate (NOFILE - 3) None : fds) :
  emits (PPipe (λ ret p0 p1,
    if bool_decide (ret < 0) then sh_panic (chars "pipe")
    else fork1 (λ pid,
      if bool_decide (pid = 0) then PClose 1 (PDup p1 (PClose p0 (PClose p1 left)))
      else fork1 (λ pid,
        if bool_decide (pid = 0) then PClose 0 (PDup p0 (PClose p0 (PClose p1 right)))
        else PClose p0 (PClose p1 (PWait (PWait (PExit 0)))))))) π n t l ↔
  ((∃ lc lp, l = Child lc :: lp ∧ emits left (π ++ [S n]) 0 (<[1%nat := Some (PipeEnd π n true)]> t) lc ∧
     ((∃ ld lp', lp = Child ld :: lp' ∧ emits right (π ++ [S (S n)]) 0 (<[0%nat := Some (PipeEnd π n false)]> t) ld ∧
        emits (PWait (PWait (PExit 0))) π (S (S (S n))) t lp') ∨ lp = gives_up t (chars "fork"))) ∨ l = gives_up t (chars "fork")) ∨
  l = gives_up t (chars "pipe").
Proof.
  cbn [emits]. apply or_iff.
  - split.
    + intros (a & b & Ha & Hb & H). cbn in Ha, Hb. injection Ha as <-. injection Hb as <-. revert H.
      rewrite (bool_decide_false (0 < 0)) by lia. rewrite emits_both. intros [(lc & lp & -> & H1 & H2)|H2]; [left; exists lc, lp; split; [done|]; split; [exact H1|]|by right].
      apply emits_both in H2 as [(ld & lp' & -> & H2 & H3)|H2]; [left|by right]. exists ld, lp'. split; [done|]. by split.
    + intros H. exists 3%nat, 4%nat. split; [done|]. split; [done|]. rewrite (bool_decide_false (0 < 0)) by lia. rewrite emits_both.
      destruct H as [(lc & lp & -> & H1 & H2)|H2]; [left; exists lc, lp; split; [done|]; split; [exact H1|]|by right].
      rewrite emits_both. destruct H2 as [(ld & lp' & -> & H2 & H3)|H2]; [left|by right]. exists ld, lp'. split; [done|]. by split.
  - rewrite (bool_decide_true (-1 < 0)) by done. setoid_rewrite emits_panic. split; [by intros (? & ? & ?)|intros H; by exists 0, 0].
Qed.

Lemma runcmd_ok H b : ∀ c p fuel π n t, reads H b c p → (p < fuel)%nat → redirs_std c → std t →
  ∀ l, emits (runcmd fuel H b (Some p)) π n t l ↔ does c π n t l.
Proof.
  induction c as [args|c IH f mode fd|c IH1 d IH2|c IH1 d IH2|c IH]; intros p fuel π n t Hr Hf Hs Ht l; (destruct fuel as [|fuel]; [lia|]); cbn [runcmd].
  - destruct Hr as (argv & eargv & -> & Ha & HN). destruct argv as [|[q|] argv]; [by apply elem_of_nil in HN|..].
    + rewrite bool_decide_true by done. cbn in Ha. subst args. cbn [emits does]. split.
      * intros [->|(l' & -> & ->)]; [by left|right]. unfold says. by rewrite <-!app_assoc.
      * intros [->| ->]; [by left|right]. eexists. unfold says. rewrite <-!app_assoc. done.
    + cbn in Ha. subst args. done.
  - destruct Hr as (p' & q & e & -> & Hlt & Hq & Hr). destruct Hs as [Hfd Hs]. cbn [emits does]. rewrite Hq.
    destruct Ht as (x & y & z & ->).
    assert (Hl : lowest (closed (Some x :: Some y :: Some z :: replicate (NOFILE - 3) None) fd) = Some (Z.to_nat fd)) by (destruct Hfd as [-> | ->]; done).
    assert (Hins : ∀ o : option obj, <[Z.to_nat fd := o]> (closed (Some x :: Some y :: Some z :: replicate (NOFILE - 3) None) fd) = <[Z.to_nat fd := o]> (Some x :: Some y :: Some z :: replicate (NOFILE - 3) None))
      by (intros o; destruct Hfd as [-> | ->]; done).
    rewrite Hl. assert (Hstd : ∀ o : obj, std (<[Z.to_nat fd := Some o]> (Some x :: Some y :: Some z :: replicate (NOFILE - 3) None)))
      by (intros o; destruct Hfd as [-> | ->]; eexists _, _, _; done).
    apply or_iff.
    + split; [intros (k & l' & [= <-] & -> & H')|intros (l' & -> & H')]; [exists l'|exists (Z.to_nat fd), l'; split; [done|]]; (split; [done|]); revert H'; rewrite bool_decide_false by lia;
        rewrite Hins; apply (IH p' fuel π n _ Hr ltac:(lia) Hs (Hstd _) l').
    + rewrite bool_decide_true by done. unfold gives_up, says. rewrite <-!app_assoc.
      assert (Hob : obj_at (closed (Some x :: Some y :: Some z :: replicate (NOFILE - 3) None) fd) 2 = obj_at (Some x :: Some y :: Some z :: replicate (NOFILE - 3) None) 2)
        by (destruct Hfd as [-> | ->]; done).
      split; [intros (l' & -> & l2 & -> & ->); by rewrite Hob|intros ->; eexists; split; [done|]]. rewrite <-Hob. by eexists.
  - destruct Hr as (p1 & p2 & -> & Hp1 & Hp2 & Hr1 & Hr2). destruct Hs as [Hs1 Hs2]. cbn [does]. destruct Ht as (x & y & z & ->).
    rewrite emits_pipe. cbn [emits].
    setoid_rewrite (λ π n l, IH1 p1 fuel π n _ Hr1 ltac:(lia) Hs1 (std_intro _ _ _) l). setoid_rewrite (λ π n l, IH2 p2 fuel π n _ Hr2 ltac:(lia) Hs2 (std_intro _ _ _) l).
    split.
    + intros [[(lc & lp & -> & H1 & [(ld & lp' & -> & H2 & l1 & -> & l2 & -> & ->)| ->])| ->]| ->]; [left; by exists lc, ld|right; left; by exists lc|by do 2 right; left|by do 3 right].
    + intros [(lc & ld & H1 & H2 & ->)|[(lc & H1 & ->)|[->| ->]]]; [left; left|left; left|left; by right|by right]; (eexists lc, _; split; [done|]; split; [exact H1|]).
      * left. eexists ld, _. split; [done|]. split; [exact H2|]. by do 2 (eexists; split; [done|]).
      * by right.
  - destruct Hr as (p1 & p2 & -> & Hp1 & Hp2 & Hr1 & Hr2). destruct Hs as [Hs1 Hs2]. cbn [does]. rewrite emits_both. apply or_iff; [|done].
    split; [intros (lc & lp & -> & H1 & l' & -> & H2)|intros (lc & ld & H1 & H2 & ->)].
    + exists lc, l'. split; [by apply (IH1 p1 fuel _ _ _ Hr1 ltac:(lia) Hs1 Ht)|]. split; [by apply (IH2 p2 fuel _ _ _ Hr2 ltac:(lia) Hs2 Ht)|done].
    + eexists lc, _. split; [done|]. split; [by apply (IH1 p1 fuel _ _ _ Hr1 ltac:(lia) Hs1 Ht)|]. eexists. split; [done|]. by apply (IH2 p2 fuel _ _ _ Hr2 ltac:(lia) Hs2 Ht).
  - destruct Hr as (p' & -> & Hlt & Hr). cbn [does]. rewrite emits_both. apply or_iff; [|done].
    split; [intros (lc & lp & -> & H1 & ->)|intros (lc & H1 & ->)]; apply (IH p' fuel _ _ _ Hr ltac:(lia) Hs Ht) in H1; [by exists lc|by exists lc, [Exit 0]].
Qed.
