(* ===== verification/ShSession.v ===== *)
(** * A session of the shell

    From the characters of a line to the programs that run: the parser, the
    processes that [runcmd] makes, and the loop of [main]. *)
From S2P Require Import Ulib Prelude File FileOps Sh ShGrammar ShParse ShRun ShClaims ShProc.

(** ** Programs and the descriptors they get *)

Inductive launched : list event → list word → fds → Prop :=
  | launched_here l path argv t : Run path argv t ∈ l → launched l argv t
  | launched_child l lc argv t : Child lc ∈ l → launched lc argv t → launched l argv t.

Lemma launched_nil a t : ¬ launched [] a t.
Proof. intros H. inversion H as [? p ? ? He|? lc ? ? He]; by apply elem_of_nil in He. Qed.
Lemma launched_cons e l a t : launched (e :: l) a t ↔ (∃ p, e = Run p a t) ∨ (∃ lc, e = Child lc ∧ launched lc a t) ∨ launched l a t.
Proof.
  split.
  - intros H. inversion H as [? p ? ? He|? lc ? ? He Hl]; subst; apply elem_of_cons in He as [He|He].
    + left. by exists p.
    + do 2 right. by eapply launched_here.
    + right; left. by exists lc.
    + do 2 right. by eapply launched_child.
  - intros [[p ->]|[(lc & -> & H)|H]].
    + by eapply launched_here, elem_of_cons; left.
    + eapply launched_child; [|exact H]. by apply elem_of_cons; left.
    + inversion H as [? p ? ? He|? lc ? ? He Hl]; subst; [eapply launched_here|eapply launched_child; [|exact Hl]]; apply elem_of_cons; by right.
Qed.

(** An event that launches nothing. *)
Definition quiet (e : event) : Prop := match e with Run _ _ _ | Child _ => False | _ => True end.
Lemma launched_quiet e l a t : quiet e → launched (e :: l) a t ↔ launched l a t.
Proof.
  intros He. rewrite launched_cons. split; [intros [[p ->]|[(lc & -> & _)|H]]; done|]. intros H. by do 2 right.
Qed.
Lemma launched_quiets l a t : Forall quiet l → ¬ launched l a t.
Proof. induction 1 as [|e l He _ IH]; [by apply launched_nil|]. by rewrite launched_quiet. Qed.
Lemma launched_of l lc a t : launched (Child lc :: l) a t ↔ launched lc a t ∨ launched l a t.
Proof.
  rewrite launched_cons. split; [intros [[p [=]]|[(l' & [= <-] & H)|H]]; [by left|by right]|]. intros [H|H]; right; [left; by exists lc|by right].
Qed.
Lemma gives_up_quiet t s : Forall quiet (gives_up t s).
Proof. by repeat constructor. Qed.
Ltac no_launch H := exfalso; revert H; apply launched_quiets; repeat first [apply gives_up_quiet|constructor]; done.

(** [t] has a descriptor for an end of the pipe of [π] and [n]. *)
Definition has_end (t : fds) (π : list nat) (n : nat) (w : bool) : Prop := Some (PipeEnd π n w) ∈ t.

Lemma has_end_insert t i o π n w : has_end (<[i := Some o]> t) π n w → o = PipeEnd π n w ∨ has_end t π n w.
Proof.
  unfold has_end. rewrite !list_elem_of_lookup. intros [j Hj]. destruct (decide (j = i)) as [->|Hne].
  - destruct (decide (i < length t)%nat); [rewrite list_lookup_insert_eq in Hj by done; left; congruence|].
    rewrite list_insert_ge in Hj by lia. right. by exists i.
  - rewrite list_lookup_insert_ne in Hj by done. right. by exists j.
Qed.

(** A pipe made by process [π] from its [n]-th fork on, or by a child of it. *)
Definition made_by (π : list nat) (n : nat) (π2 : list nat) (m : nat) : Prop := π `prefix_of` π2 ∧ (π2 = π → (n ≤ m)%nat).
Lemma made_child π n k π2 m : made_by (π ++ [k]) 0 π2 m → made_by π n π2 m.
Proof.
  intros [[u ->] _]. split; [exists (k :: u); by rewrite <-app_assoc|]. intros H. apply (f_equal length) in H. rewrite !length_app in H. simpl in H. lia.
Qed.
Lemma made_later π n n' π2 m : (n ≤ n')%nat → made_by π n' π2 m → made_by π n π2 m.
Proof. intros Hn [H1 H2]. split; [done|]. intros H. specialize (H2 H). lia. Qed.
Lemma made_here π n : made_by π n π n.
Proof. by split. Qed.
Lemma not_made π n k w m (t : fds) : ¬ has_end t π n w → ¬ (has_end t π n w ∨ made_by (π ++ [k]) m π n).
Proof. intros H [?|[[u Hu] _]]; [done|]. apply (f_equal length) in Hu. rewrite !length_app in Hu. simpl in Hu. lia. Qed.

(** What a program of [c] holds comes from the descriptors of [c] or from a pipe
    made on the way. *)
Lemma launched_holds : ∀ c π n t l a t', does c π n t l → launched l a t' →
  ∀ π2 m w, has_end t' π2 m w → has_end t π2 m w ∨ made_by π n π2 m.
Proof.
  induction c as [args|c IH f mode fd|c IHc d IHd|c IHc d IHd|c IH]; intros π n t l a t' Hd Hl π2 m w Hh; cbn [does] in Hd.
  - destruct args as [|x ws]; [subst; no_launch Hl|]. destruct Hd as [->| ->]; [|no_launch Hl].
    apply launched_cons in Hl as [[p [= _ _ <-]]|[(lc & [=] & _)|Hl]]; [by left|no_launch Hl].
  - destruct Hd as [(l' & -> & Hd)| ->]; [|no_launch Hl]. apply launched_quiet in Hl; [|done].
    destruct (IH _ _ _ _ _ _ Hd Hl _ _ _ Hh) as [H|H]; [|by right]. apply has_end_insert in H as [H|H]; [done|by left].
  - assert (Hend : ∀ i b k, has_end (<[i := Some (PipeEnd π n b)]> t) π2 m w ∨ made_by (π ++ [k]) 0 π2 m → has_end t π2 m w ∨ made_by π n π2 m).
    { intros i b k [H|H]; [|by right; eapply made_child]. apply has_end_insert in H as [[= <- <- _]|H]; [right; apply made_here|by left]. }
    destruct Hd as [(lc & ld & H1 & H2 & ->)|[(lc & H1 & ->)|[->| ->]]]; [| |no_launch Hl|no_launch Hl]; apply launched_of in Hl as [Hl|Hl].
    + exact (Hend _ _ _ (IHc _ _ _ _ _ _ H1 Hl _ _ _ Hh)).
    + apply launched_of in Hl as [Hl|Hl]; [exact (Hend _ _ _ (IHd _ _ _ _ _ _ H2 Hl _ _ _ Hh))|no_launch Hl].
    + exact (Hend _ _ _ (IHc _ _ _ _ _ _ H1 Hl _ _ _ Hh)).
    + no_launch Hl.
  - destruct Hd as [(lc & ld & H1 & H2 & ->)| ->]; [|no_launch Hl]. apply launched_of in Hl as [Hl|Hl].
    + destruct (IHc _ _ _ _ _ _ H1 Hl _ _ _ Hh) as [H|H]; [by left|right; by eapply made_child].
    + apply launched_quiet in Hl; [|done]. destruct (IHd _ _ _ _ _ _ H2 Hl _ _ _ Hh) as [H|H]; [by left|right; eapply made_later; [|exact H]; lia].
  - destruct Hd as [(lc & H1 & ->)| ->]; [|no_launch Hl]. apply launched_of in Hl as [Hl|Hl]; [|no_launch Hl].
    destruct (IH _ _ _ _ _ _ H1 Hl _ _ _ Hh) as [H|H]; [by left|right; by eapply made_child].
Qed.

Lemma std_insert t i o : std t → (i < 3)%nat → std (<[i := Some o]> t).
Proof. intros (a & b & c & ->) Hi. destruct i as [|[|[|i]]]; [by exists o, b, c|by exists a, o, c|by exists a, b, o|lia]. Qed.

(** Programs get the three standard descriptors and no others. *)
Lemma launched_std : ∀ c π n t l a t', does c π n t l → redirs_std c → std t → launched l a t' → std t'.
Proof.
  induction c as [args|c IH f mode fd|c IHc d IHd|c IHc d IHd|c IH]; intros π n t l a t' Hd Hs Ht Hl; cbn [does redirs_std] in *.
  - destruct args as [|x ws]; [subst; no_launch Hl|]. destruct Hd as [->| ->]; [|no_launch Hl].
    apply launched_cons in Hl as [[p [= _ _ <-]]|[(lc & [=] & _)|Hl]]; [done|no_launch Hl].
  - destruct Hs as [Hfd Hs]. destruct Hd as [(l' & -> & Hd)| ->]; [|no_launch Hl]. apply launched_quiet in Hl; [|done].
    eapply (IH _ _ _ _ _ _ Hd Hs); [|exact Hl]. apply std_insert; [done|lia].
  - destruct Hs as [Hs1 Hs2]. assert (H0 : ∀ o, std (<[0%nat := Some o]> t)) by (intros; apply std_insert; [done|lia]).
    assert (H3 : ∀ o, std (<[1%nat := Some o]> t)) by (intros; apply std_insert; [done|lia]).
    destruct Hd as [(lc & ld & H1 & H2 & ->)|[(lc & H1 & ->)|[->| ->]]]; [| |no_launch Hl|no_launch Hl]; apply launched_of in Hl as [Hl|Hl].
    + exact (IHc _ _ _ _ _ _ H1 Hs1 (H3 _) Hl).
    + apply launched_of in Hl as [Hl|Hl]; [exact (IHd _ _ _ _ _ _ H2 Hs2 (H0 _) Hl)|no_launch Hl].
    + exact (IHc _ _ _ _ _ _ H1 Hs1 (H3 _) Hl).
    + no_launch Hl.
  - destruct Hs as [Hs1 Hs2]. destruct Hd as [(lc & ld & H1 & H2 & ->)| ->]; [|no_launch Hl]. apply launched_of in Hl as [Hl|Hl]; [exact (IHc _ _ _ _ _ _ H1 Hs1 Ht Hl)|].
    apply launched_quiet in Hl; [|done]. exact (IHd _ _ _ _ _ _ H2 Hs2 Ht Hl).
  - destruct Hd as [(lc & H1 & ->)| ->]; [|no_launch Hl]. apply launched_of in Hl as [Hl|Hl]; [exact (IH _ _ _ _ _ _ H1 Hs Ht Hl)|no_launch Hl].
Qed.

(** ** A line *)

Lemma wraps_std rs c : redirs_std c → Forall (λ r : rdr, r.1 ∈ redir_ops) rs → redirs_std (foldl wrap c rs).
Proof.
  intros Hc HF. revert c Hc. induction HF as [|[op f] rs Hop _ IH]; intros c Hc; [done|]. cbn [foldl]. apply IH. split; [|done].
  cbn. unfold redir_how. repeat case_decide; [by left|by right..].
Qed.
Lemma line_redirs : (∀ ts c, line_of ts c → redirs_std c) ∧ (∀ ts c, pipe_of ts c → redirs_std c) ∧ (∀ ts c, exec_of ts c → redirs_std c).
Proof.
  assert (Hb : ∀ n c, redirs_std c → redirs_std (Nat.iter n Back c)) by (induction n as [|n IH]; intros c Hc; [done|by apply IH in Hc]).
  apply grammar_ind.
  - intros ts c n _ IH. by apply Hb.
  - intros ts c n us d _ IHc _ IHd. split; [by apply Hb|done].
  - done.
  - intros ts c us d _ IHc _ IHd. by split.
  - intros l Hl _. apply wraps_std; [done|]. clear -Hl. induction Hl as [|[w|r] l Hi _ IH]; [constructor|done|by constructor].
  - intros ts c rs _ IH Hrs. by apply wraps_std.
Qed.

Lemma reads_lt H b c p : reads H b c p → (p < length H)%nat.
Proof.
  destruct c; cbn [reads]; [intros (? & ? & E & _)|intros (? & ? & ? & E & _)|intros (? & ? & E & _)|intros (? & ? & E & _)|intros (? & E & _)]; by eapply lookup_lt_Some.
Qed.

(** What happens with a line that derives no command.  [t_line] is the parser on
    tokens of ShGrammar.v.  Either the first tokens of the line make a command, and
    the characters from there on are printed, with a message; or they do not, and
    only the message is. *)
Inductive refused (s : list Z) (t : fds) : list event → Prop :=
  | refused_left c us u v : s = u ++ v → v ≠ [] → ¬ white (hd0 v) → lex s = us ++ lex v → line_of us c →
      t_line (4 * (length s + 2)) (lex s) = Ok (c, lex v) →
      refused s t (says t (chars "leftovers: " ++ v) :: gives_up t (chars "syntax"))
  | refused_error e : e ∈ syntax_errors → t_line (4 * (length s + 2)) (lex s) = Panic e → refused s t (gives_up t (chars e)).

(** The line [s] run by a process: its command, or an error message. *)
Definition line_does (s : list Z) (π : list nat) (n : nat) (t : fds) (l : list event) : Prop :=
  (∃ c, line_of (lex s) c ∧ does c π n t l) ∨ ((∀ c, ¬ line_of (lex s) c) ∧ refused s t l).

Section line.
Context (s rest : list Z) (room : nat) (Hs : Forall (λ c : Z, c ≠ 0) s) (Hroom : (2 * length s + 1 ≤ room)%nat).
Local Abbreviation run := (run_line room (s ++ 0 :: rest)).

Lemma run_line_error t : (∀ c, ¬ line_of (lex s) c) → ∃ l0, refused s t l0 ∧ safe run ∧ ∀ π n l, emits run π n t l ↔ l = l0.
Proof.
  intros Hno. assert (Hfuel : Z.to_nat (Z.of_nat (length s) + 2) = (length s + 2)%nat) by lia. unfold run_line.
  destruct (parsecmd_refuses s rest room Hs Hroom Hno) as [(c & u & v & Eu & Hv & Hw & Et & -> & ->)|(e & Et & He & -> & ->)]; rewrite Hfuel in Et.
  - pose proof Et as (us & Elex & Hus)%t_sound. eexists. split; [by eapply (refused_left s t c us u v)|]. split; [done|]. intros π n l. cbn [emits].
    setoid_rewrite emits_panic. unfold says. rewrite <-app_assoc. split; [by intros (l' & -> & ->)|intros ->; by eexists].
  - eexists. split; [by apply (refused_error s t e)|]. split; [done|]. intros π n l. apply emits_panic.
Qed.
Lemma run_line_safe : safe run.
Proof.
  destruct (line_decided s) as [[c Hc]|Hno].
  - destruct (parsecmd_accepts s rest room Hs Hroom c Hc) as (p & s' & E & _ & Hr). unfold run_line. rewrite E.
    apply (runcmd_safe _ _ c); [done|]. apply reads_lt in Hr. lia.
  - by destruct (run_line_error [] Hno) as (_ & _ & ? & _).
Qed.

Context (π : list nat) (n : nat) (t : fds) (Ht : std t).
Lemma run_line_command c : line_of (lex s) c → ∀ l, emits run π n t l ↔ does c π n t l.
Proof using Hs Hroom Ht.
  intros Hc l. destruct (parsecmd_accepts s rest room Hs Hroom c Hc) as (p & s' & E & _ & Hr). unfold run_line. rewrite E.
  apply runcmd_ok; [done| |by apply (proj1 line_redirs (lex s))|done]. apply reads_lt in Hr. lia.
Qed.
Lemma run_line_does l : emits run π n t l → line_does s π n t l.
Proof using Hs Hroom Ht.
  destruct (line_decided s) as [[c Hc]|Hno].
  - intros H. left. exists c. split; [done|]. by apply run_line_command.
  - destruct (run_line_error t Hno) as (l0 & He & _ & H). intros ->%H. by right.
Qed.
End line.

(** C39: a line of the shell does what its grammar says, with the kernel free to
    fail any call but the [sbrk] of [malloc]: [room] is the memory for the parser,
    two nodes per character (without it the shell writes at address 0, see
    [no_memory_undefined]).  For a line whose tokens derive the command [c], the
    traces of the process that runs it, with descriptors 0, 1 and 2 open and no
    others, are exactly those of [c]; every program it starts has exactly these
    three open.  Of a pipe made for [c | d] the programs of [c] hold no read end and
    the programs of [d] no write end, so that the reader meets the end of the data
    when the writers are done.  A line that derives no command has one trace: the
    characters after the last command that could be parsed ("leftovers: ..."), when
    there is one, then one of four messages, and exit with status 1. *)
Theorem run_line_correct s rest room π n t :
  Forall (λ c : Z, c ≠ 0) s → (2 * length s + 1 ≤ room)%nat → std t →
  (∀ c, line_of (lex s) c →
     (∀ l, emits (run_line room (s ++ 0 :: rest)) π n t l ↔ does c π n t l) ∧
     (∀ l argv t', emits (run_line room (s ++ 0 :: rest)) π n t l → launched l argv t' → std t')) ∧
  (∀ c d lc ld l, line_of (lex s) (Pipe c d) → (∀ w, ¬ has_end t π n w) →
     emits (run_line room (s ++ 0 :: rest)) π n t (Child lc :: Child ld :: l) →
     (∀ argv t', launched lc argv t' → ¬ has_end t' π n false) ∧ (∀ argv t', launched ld argv t' → ¬ has_end t' π n true)) ∧
  ((∀ c, ¬ line_of (lex s) c) → ∃ l0, refused s t l0 ∧ ∀ l, emits (run_line room (s ++ 0 :: rest)) π n t l ↔ l = l0).
Proof.
  intros Hs Hroom Ht. split; [|split].
  - intros c Hc. pose proof (run_line_command s rest room Hs Hroom π n t Ht c Hc) as H. split; [exact H|].
    intros l argv t' Hl. apply H in Hl. apply (launched_std c π n t l argv t' Hl); [by apply (proj1 line_redirs (lex s))|done].
  - intros c d lc ld l Hc Hfree Hl. apply (run_line_command s rest room Hs Hroom π n t Ht _ Hc) in Hl. cbn [does] in Hl.
    destruct Hl as [(lc' & ld' & H1 & H2 & [= <- <- ->])|[(lc' & _ & [=])|[[=]|[=]]]].
    assert (Hone : ∀ i b w, b ≠ w → ¬ has_end (<[i := Some (PipeEnd π n b)]> t) π n w).
    { intros i b w Hb H. apply has_end_insert in H as [[= H]|H]; [done|by apply Hfree in H]. }
    split; intros argv t' Hl Hh.
    + apply (launched_holds _ _ _ _ _ _ _ H1 Hl) in Hh. by apply not_made in Hh; [|apply Hone].
    + apply (launched_holds _ _ _ _ _ _ _ H2 Hl) in Hh. by apply not_made in Hh; [|apply Hone].
  - intros Hno. destruct (run_line_error s rest room Hs Hroom t Hno) as (l0 & H & _ & He). by exists l0.
Qed.

(** ** The loop of [main] *)

(** The characters of [gets] up to the first NUL. *)
Lemma buffer_line (s : list Z) : (length s < BUFSZ)%nat →
  Forall (λ c : Z, c ≠ 0) (upto_nul s) ∧ ∃ rest, s ++ replicate (BUFSZ - length s) 0 = upto_nul s ++ 0 :: rest.
Proof.
  generalize BUFSZ. induction s as [|c s IH]; intros N HN.
  - split; [constructor|]. destruct N as [|N]; [simpl in HN; lia|]. by exists (replicate N 0).
  - simpl in HN. destruct N as [|N]; [lia|]. cbn [upto_nul]. case_bool_decide as Hc.
    + subst c. split; [constructor|]. by eexists.
    + destruct (IH N ltac:(lia)) as [HF (rest & E)]. split; [by constructor|]. exists rest. cbn. f_equal. exact E.
Qed.

Definition prompt (t : fds) : event := Write (obj_at t 2) (chars "$ ").
Definition cd_ : word := [99; 100; 32].

(** What the shell does in [r] rounds of its loop, as process [π] with
    descriptors [t]. *)
Inductive session (t : fds) (π : list nat) : nat → nat → list event → Prop :=
  | ses_more n : session t π 0 n []
  | ses_eof r n s : upto_nul s = [] → session t π (S r) n [prompt t; Line s; Exit 0]
  | ses_cd r n s w l : upto_nul s = cd_ ++ w → session t π r n l →
      session t π (S r) n (prompt t :: Line s :: Chdir (removelast w) true :: l)
  | ses_no_cd r n s w l : upto_nul s = cd_ ++ w → session t π r n l →
      session t π (S r) n (prompt t :: Line s :: Chdir (removelast w) false :: says t (chars "cannot cd " ++ removelast w) :: l)
  | ses_run r n s lc l : upto_nul s ≠ [] → ¬ cd_ `prefix_of` upto_nul s → line_does (upto_nul s) (π ++ [n]) 0 t lc → session t π r (S n) l →
      session t π (S r) n (prompt t :: Line s :: Child lc :: Wait :: l)
  | ses_fork r n s : upto_nul s ≠ [] → ¬ cd_ `prefix_of` upto_nul s → session t π (S r) n (prompt t :: Line s :: gives_up t (chars "fork")).

(** The test for [cd] on a buffer with line [u]. *)
Lemma cd_test (u rest : list Z) : Forall (λ c : Z, c ≠ 0) u →
  (bool_decide (zidx (u ++ 0 :: rest) 0 = Some 99) && bool_decide (zidx (u ++ 0 :: rest) 1 = Some 100) && bool_decide (zidx (u ++ 0 :: rest) 2 = Some 32) = true ↔ cd_ `prefix_of` u).
Proof.
  intros Hu. rewrite !andb_true_iff, !bool_decide_eq_true. change (zidx ?l 0) with (l !! 0%nat). change (zidx ?l 1) with (l !! 1%nat). change (zidx ?l 2) with (l !! 2%nat). unfold cd_. split.
  - intros [[H0 H1] H2]. clear Hu. destruct u as [|a [|b [|c v]]]; cbn in H0, H1, H2; try congruence. exists v. cbn. congruence.
  - intros [w ->]. done.
Qed.

(** [buf[strlen(buf)-1] = 0] and the directory after it. *)
Lemma chop_line (w rest : list Z) : Forall (λ c : Z, c ≠ 0) w →
  ∃ b, line_len (cd_ ++ w ++ 0 :: rest) = Some (Z.of_nat (length (cd_ ++ w))) ∧
    zupd (cd_ ++ w ++ 0 :: rest) (Z.of_nat (length (cd_ ++ w)) - 1) 0 = Some b ∧ str_at b 3 = removelast w.
Proof.
  intros Hw. eexists. split; [rewrite app_assoc; apply line_len_ok; unfold cd_; by repeat (constructor; [done|])|].
  unfold zupd. rewrite decide_True by (rewrite !length_app; simpl; lia). split; [done|].
  destruct w as [|x w' _] using rev_ind; [done|]. rewrite removelast_last. rewrite length_app, length_app. unfold str_at.
  replace (Z.to_nat (Z.of_nat (length cd_ + (length w' + length [x])) - 1)) with (length cd_ + (length w' + 0))%nat by (simpl; lia).
  rewrite insert_app_r, <-app_assoc, insert_app_r. change (Z.to_nat 3) with (length cd_ + 0)%nat. rewrite drop_app_add. cbn.
  apply Forall_app in Hw as [Hw _]. rewrite drop_0. clear -Hw. induction Hw as [|c w' Hc _ IH]; [done|]. cbn. rewrite bool_decide_false by done. f_equal. exact IH.
Qed.

Lemma upto_nul_length (s : list Z) : (length (upto_nul s) ≤ length s)%nat.
Proof. induction s as [|c s IH]; [done|]. cbn. case_bool_decide; cbn; lia. Qed.
Lemma main_loop_ok room t π : (2 * BUFSZ ≤ room)%nat → std t → ∀ r n l, emits (main_loop r room) π n t l → session t π r n l.
Proof.
  intros Hroom Ht. induction r as [|r IH]; intros n l; [intros ->; constructor|]. cbn [main_loop]. unfold getcmd. cbn [emits].
  intros (l1 & -> & s & l2 & Hlen & -> & H). change (Write (obj_at t 2) (chars "$ ")) with (prompt t).
  destruct (buffer_line s Hlen) as [Hu (rest & Ebuf)]. rewrite Ebuf in H. clear Ebuf.
  destruct (decide (upto_nul s = [])) as [Hnil|Hne].
  { rewrite Hnil in H. change (zidx ([] ++ 0 :: rest) 0) with (Some 0) in H. rewrite (bool_decide_true (Some 0 = Some 0)) in H by done.
    rewrite (bool_decide_false (-1 >= 0)) in H by lia. cbn [emits] in H. subst. by apply ses_eof. }
  assert (Hfirst : zidx (upto_nul s ++ 0 :: rest) 0 ≠ Some 0).
  { destruct Hu as [|c u Hc _]; [done|]. change (zidx ((c :: u) ++ 0 :: rest) 0) with (Some c). congruence. }
  rewrite (bool_decide_false _ Hfirst) in H. rewrite (bool_decide_true (0 >= 0)) in H by lia.
  destruct (_ && _) eqn:Ecd in H.
  - apply cd_test in Ecd as [w Ew]; [|done]. assert (Hw : Forall (λ c : Z, c ≠ 0) w) by (rewrite Ew in Hu; by apply Forall_app in Hu as [_ ?]).
    destruct (chop_line w rest Hw) as (b & E1 & E2 & E3). rewrite Ew, <-app_assoc, E1, E2, E3 in H. cbn [emits] in H.
    destruct H as (ok & l3 & -> & H). destruct ok.
    + rewrite bool_decide_false in H by lia. by apply ses_cd, IH.
    + rewrite bool_decide_true in H by lia. cbn [emits] in H. destruct H as (l4 & -> & H). rewrite app_assoc. by apply ses_no_cd, IH.
  - assert (Hcd : ¬ cd_ `prefix_of` upto_nul s) by (intros Hp; apply (cd_test _ rest Hu) in Hp; congruence).
    apply emits_both in H as [(lc & lp & -> & Hc & H)| ->]; [|by apply ses_fork]. cbn [emits] in H. destruct H as (l3 & -> & H).
    apply ses_run; [done|done| |by apply IH]. eapply run_line_does; [exact Hu| |exact Ht|exact Hc].
    pose proof (upto_nul_length s). lia.
Qed.

Lemma main_loop_safe room : (2 * BUFSZ ≤ room)%nat → ∀ r, safe (main_loop r room).
Proof.
  intros Hroom. induction r as [|r IH]; [done|]. cbn [main_loop]. unfold getcmd. cbn [safe]. intros s Hlen.
  destruct (buffer_line s Hlen) as [Hu (rest & Ebuf)]. rewrite Ebuf. clear Ebuf. destruct (bool_decide (_ >= 0)); [|done]. destruct (_ && _) eqn:Ecd.
  - apply cd_test in Ecd as [w Ew]; [|done]. assert (Hw : Forall (λ c : Z, c ≠ 0) w) by (rewrite Ew in Hu; by apply Forall_app in Hu as [_ ?]).
    destruct (chop_line w rest Hw) as (b & E1 & E2 & _). rewrite Ew, <-app_assoc, E1, E2. intros ok. destruct (bool_decide (ok < 0)); exact IH.
  - apply safe_fork1. intros pid. destruct (bool_decide (pid = 0)); [|exact IH]. apply run_line_safe; [exact Hu|]. pose proof (upto_nul_length s). lia.
Qed.

(** *** The console *)

Definition tty : obj := Opened (chars "console") O_RDWR.
Definition opens_tty : event := Open (chars "console") O_RDWR true.
Definition no_tty : event := Open (chars "console") O_RDWR false.
(** The first descriptors are open, the others closed. *)
Definition first_open (os : list obj) : fds := (Some <$> os) ++ replicate (NOFILE - length os) None.

Lemma first_open_lowest os : (length os < NOFILE)%nat → lowest (first_open os) = Some (length os) ∧ ∀ o, <[length os := Some o]> (first_open os) = first_open (os ++ [o]).
Proof.
  intros H. unfold first_open. destruct (NOFILE - length os)%nat as [|k] eqn:Ek; [lia|]. split.
  - clear. induction os as [|x os IH]; [done|]. cbn in *. by rewrite IH.
  - intros o. rewrite fmap_app, length_app. simpl length. replace (NOFILE - (length os + 1))%nat with k by lia.
    replace (length os) with (length (Some <$> os) + 0)%nat by (rewrite length_fmap; lia). by rewrite insert_app_r, <-app_assoc.
Qed.
Lemma first_open_std os : length os = 3%nat → std (first_open os).
Proof. destruct os as [|a [|b [|c [|? ?]]]]; intros [=]. by exists a, b, c. Qed.

Lemma open_console_ok k π n : ∀ f os l, (4 ≤ f + length os)%nat → (length os ≤ 3)%nat → emits (open_console f k) π n (first_open os) l →
  (∃ l', l = replicate (4 - length os) opens_tty ++ l' ∧ emits k π n (first_open (os ++ replicate (3 - length os) tty)) l') ∨
  (∃ i l', (i < 4 - length os)%nat ∧ l = replicate i opens_tty ++ no_tty :: l' ∧ emits k π n (first_open (os ++ replicate i tty)) l').
Proof.
  induction f as [|f IH]; intros os l Hf Hos H; [lia|]. cbn [open_console emits] in H.
  destruct (first_open_lowest os) as [Hlow Hins]; [unfold NOFILE; lia|]. rewrite Hlow in H. destruct H as [(fd & l' & [= <-] & -> & H)|(l' & -> & H)].
  - rewrite Hins in H. rewrite (bool_decide_true (_ >= 0)) in H by lia. fold tty opens_tty in *. destruct (decide (length os = 3)%nat) as [H3|H3].
    + left. rewrite bool_decide_true in H by lia. rewrite H3, app_nil_r. exists l'. split; [done|]. cbn [emits] in H.
      assert (Hc : closed (first_open (os ++ [tty])) (Z.of_nat (length os)) = first_open os); [|by rewrite Hc in H].
      clear -H3. by destruct os as [|a [|b [|c [|? ?]]]].
    + rewrite bool_decide_false in H by lia. apply IH in H; [|rewrite length_app; simpl; lia..]. rewrite length_app in H. simpl length in H.
      destruct H as [(l2 & -> & H)|(i & l2 & Hi & -> & H)]; [left; exists l2; split; [by replace (4 - length os)%nat with (S (4 - (length os + 1))) by lia|]|right; exists (S i), l2; split; [lia|split; [done|]]].
      * rewrite <-app_assoc in H. by replace (3 - length os)%nat with (S (3 - (length os + 1))) by lia.
      * by rewrite <-app_assoc in H.
  - right. exists 0%nat, l'. split; [lia|]. split; [done|]. rewrite bool_decide_false in H by lia. by rewrite app_nil_r.
Qed.

Lemma open_console_safe k : safe k → ∀ f, safe (open_console f k).
Proof. intros Hk. induction f as [|f IH]; [done|]. intros fd. destruct (bool_decide (fd >= 0)); [|exact Hk]. destruct (bool_decide (fd >= 3)); [exact Hk|exact IH]. Qed.

(** C40: a session of the shell, with memory for the parser ([room], as in C39).
    Started with its first descriptors open, at most three of them, the shell fills
    the others up to 2 with the console, or finds that it cannot open it.  Then,
    with the three open, every trace of any number of rounds of its loop is a
    session: it prompts and reads a line of at most 99 characters; at the end of
    input it exits; [cd] runs in the shell itself and a failure is reported; any
    other line runs in a child as its grammar says, and is waited for; without
    memory for a child the shell gives up.  When the console cannot be opened the
    loop runs with the descriptors there are, and with fewer than three no more is
    said of it than that.  The shell and its children never reach undefined
    behaviour, whatever the user types, the kernel answers and the descriptors are. *)
Theorem shell_session os r room π n l :
  (length os ≤ 3)%nat → (2 * BUFSZ ≤ room)%nat → emits (sh_main r room) π n (first_open os) l →
  ((∃ l', l = replicate (4 - length os) opens_tty ++ l' ∧ session (first_open (os ++ replicate (3 - length os) tty)) π r n l') ∨
   (∃ i l', (i < 4 - length os)%nat ∧ l = replicate i opens_tty ++ no_tty :: l' ∧
      emits (main_loop r room) π n (first_open (os ++ replicate i tty)) l' ∧
      ((length os + i)%nat = 3%nat → session (first_open (os ++ replicate i tty)) π r n l'))) ∧
  safe (sh_main r room).
Proof.
  intros Hos Hroom H. split; [|by apply open_console_safe, main_loop_safe].
  apply open_console_ok in H as [(l' & -> & H)|(i & l' & Hi & -> & H)]; [left|right|lia|done].
  - exists l'. split; [done|]. apply (main_loop_ok room _ π Hroom); [|done]. apply first_open_std. rewrite length_app, length_replicate. lia.
  - exists i, l'. split; [done|]. split; [done|]. split; [done|]. intros Hl. apply (main_loop_ok room _ π Hroom); [|done]. apply first_open_std. rewrite length_app, length_replicate. lia.
Qed.

(** [a|b>x], and [ls)] *)
Definition demo_line : list Z := [97; 124; 98; 62; 120].
Definition demo_pipe : shcmd := Pipe (Exec [[97]]) (Redir (Exec [[98]]) [120] 1537 1).
Definition demo_fds : fds := first_open [Inherited 0; Inherited 1; Inherited 2].
Definition demo_left : fds := first_open [Inherited 0; PipeEnd [] 0 true; Inherited 2].
Definition demo_right : fds := first_open [PipeEnd [] 0 false; Opened [120] 1537; Inherited 2].
Lemma run_line_correct_witness :
  emits (run_line 11 (demo_line ++ [0])) [] 0 demo_fds
    [Child [Run [97] [[97]] demo_left]; Child [Open [120] 1537 true; Run [98] [[98]] demo_right]; Wait; Wait; Exit 0] ∧
  (∀ argv t', launched [Open [120] 1537 true; Run [98] [[98]] demo_right] argv t' → ¬ has_end t' [] 0 true) ∧
  (∀ l, emits (run_line 11 ([108; 115; 41] ++ [0])) [] 0 demo_fds l ↔
     l = [says demo_fds (chars "leftovers: )"); says demo_fds (chars "syntax"); Exit 1]).
Proof.
  destruct (run_line_correct demo_line [] 11 [] 0 demo_fds) as (H1 & H2 & _).
  { unfold demo_line. by repeat (constructor; [done|]). }
  { vm_compute. lia. }
  { by eexists _, _, _. }
  assert (Hc : line_of (lex demo_line) demo_pipe).
  { destruct (proj1 (t_sound 30) (lex demo_line) demo_pipe []) as (us & E & Hu); [reflexivity|]. rewrite app_nil_r in E. by subst us. }
  assert (He : emits (run_line 11 (demo_line ++ [0])) [] 0 demo_fds
    [Child [Run [97] [[97]] demo_left]; Child [Open [120] 1537 true; Run [98] [[98]] demo_right]; Wait; Wait; Exit 0]).
  { apply (H1 demo_pipe Hc). left. eexists _, _. split; [by left|]. split; [|done]. left. eexists. split; [done|]. by left. }
  split; [exact He|]. split; [refine (proj2 (H2 _ _ _ _ _ Hc _ He))|].
  2: { destruct (run_line_correct [108; 115; 41] [] 11 [] 0 demo_fds) as (H3 & _ & H4); [by repeat (constructor; [done|])|vm_compute; lia|by eexists _, _, _|].
       destruct (line_decided [108; 115; 41]) as [[c Hl]|Hno].
       { exfalso. apply t_line_derives in Hl. vm_compute in Hl. discriminate Hl. }
       destruct (H4 Hno) as (l0 & Hl0 & H5). intros l. rewrite H5.
       assert (l0 = [says demo_fds (chars "leftovers: )"); says demo_fds (chars "syntax"); Exit 1]) as ->; [|done].
       destruct (proj2 (H5 l0) eq_refl) as (l1 & E1 & l2 & E2 & E3). rewrite E1, E2, E3. reflexivity. }
  intros w H. unfold has_end, demo_fds in H. apply list_elem_of_lookup in H as [i Hi]. do 16 (destruct i as [|i]; [discriminate Hi|]). discriminate Hi.
Defined.

(** [cd /], then the end of input. *)
Definition demo_session (t : fds) : list event :=
  [prompt t; Line [99; 100; 32; 47; 10]; Chdir [47] true; prompt t; Line []; Exit 0].
Lemma shell_session_witness :
  emits (sh_main 2 200) [] 0 demo_fds (opens_tty :: demo_session demo_fds) ∧ session demo_fds [] 2 0 (demo_session demo_fds).
Proof.
  assert (H : emits (sh_main 2 200) [] 0 demo_fds (opens_tty :: demo_session demo_fds)).
  { left. exists 3%nat, (demo_session demo_fds). split; [done|]. split; [done|]. eexists. split; [done|]. exists [99; 100; 32; 47; 10]. eexists.
    split; [vm_compute; lia|]. split; [done|]. exists true. eexists. split; [reflexivity|]. eexists. split; [done|]. exists []. eexists. split; [vm_compute; lia|]. by split. }
  split; [exact H|]. destruct (shell_session [Inherited 0; Inherited 1; Inherited 2] 2 200 [] 0 _ ltac:(simpl; lia) ltac:(vm_compute; lia) H) as [[(l' & E & Hs)|(i & l' & Hi & E & _)] _].
  - injection E as ->. exact Hs.
  - destruct i as [|i]; [discriminate E|simpl in Hi; lia].
Defined.
