(* ===== verification/Malloc.v ===== *)
(** * The user allocator: user/umalloc.c

    Memory as [free] and [malloc] see it: a [Header] (a next pointer and a size in
    units of 16 bytes) at every multiple of 16 below the break, and [base] in the
    program's data.  The break moves by [sbrk], which the kernel grants up to a
    limit of its own. *)
From S2P Require Import Prelude.

(** [hdr]: the headers written so far, all others are zero; [freep]; the break
    and the kernel's limit for it. *)
Record uheap := mkuheap { hdr : gmap Z (Z * Z); freep : Z; brk : Z; limit : Z }.
Definition set_hdr (h : gmap Z (Z * Z)) (s : uheap) : uheap := mkuheap h (freep s) (brk s) (limit s).
Definition set_freep (p : Z) (s : uheap) : uheap := mkuheap (hdr s) p (brk s) (limit s).
Definition set_brk (b : Z) (s : uheap) : uheap := mkuheap (hdr s) (freep s) b (limit s).
Definition set_limit (l : Z) (s : uheap) : uheap := mkuheap (hdr s) (freep s) (brk s) l.

Definition UNIT : Z := 16.
Definition NALLOC : Z := 4096.

Section umalloc_c.
(** The address of [base], and the break at the start. *)
Context (base heap0 : Z).

(** A header the program may touch. *)
Definition at_header (s : uheap) (a : Z) : Prop := a = base ∨ (heap0 ≤ a ∧ a + UNIT ≤ brk s ∧ a mod UNIT = 0).
#[export] Instance at_header_dec s a : Decision (at_header s a).
Proof. unfold at_header. apply _. Defined.

Definition load (a : Z) : M uheap (Z * Z) := λ s,
  if decide (at_header s a) then Ok (default (0, 0) (hdr s !! a), s) else Fault.
Definition store_ptr (a p : Z) : M uheap unit := '(_, n) ← load a; modify (λ s, set_hdr (<[a := (p, n)]> (hdr s)) s).
Definition store_size (a n : Z) : M uheap unit := '(p, _) ← load a; modify (λ s, set_hdr (<[a := (p, n)]> (hdr s)) s).

(** [sbrk(n)] for an int [n]: the old break or -1, as [growproc] does it on its
    unsigned [sz]. *)
Definition sbrk (n : Z) : M uheap Z := λ s,
  if bool_decide (n > 0) then
    if bool_decide (brk s + n ≤ limit s) then Ok (brk s, set_brk (brk s + n) s) else Ok (-1, s)
  else
    let b := u32 (brk s + n) in
    Ok (brk s, if bool_decide (b < brk s) then set_brk b (set_hdr (filter (λ x, x.1 < b) (hdr s)) s) else s).

(** The search of [free] from [p]: [!(bp > p && bp < p->s.ptr)], and the break
    out of the loop at the end of the arena. *)
Fixpoint free_find (fuel : nat) (bp p : Z) : M uheap Z :=
  match fuel with
  | O => hang
  | S fuel =>
      '(next, _) ← load p;
      if bool_decide (bp > p) && bool_decide (bp < next) then mret p
      else if bool_decide (p >= next) && (bool_decide (bp > p) || bool_decide (bp < next)) then mret p
      else free_find fuel bp next
  end.
(** Two rounds of the free list; every block on it has been written. *)
Definition rounds (s : uheap) : nat := 2 * S (size (hdr s)).

Definition free (ap : Z) : M uheap unit :=
  let bp := ap - UNIT in
  fuel ← gets rounds;
  p0 ← gets freep;
  p ← free_find fuel bp p0;
  '(_, bsz) ← load bp;
  '(next, _) ← load p;
  (if bool_decide (bp + UNIT * bsz = next) then
     '(_, nsz) ← load next;
     store_size bp (u32 (bsz + nsz)) ;;
     '(next, _) ← load p;
     '(nn, _) ← load next;
     store_ptr bp nn
   else store_ptr bp next) ;;
  '(_, psz) ← load p;
  (if bool_decide (p + UNIT * psz = bp) then
     '(_, bsz) ← load bp;
     store_size p (u32 (psz + bsz)) ;;
     '(bnext, _) ← load bp;
     store_ptr p bnext
   else store_ptr p bp) ;;
  modify (set_freep p).

Definition morecore (nu : Z) : M uheap Z :=
  let nu := if bool_decide (nu < NALLOC) then NALLOC else nu in
  p ← sbrk (i32 (nu * UNIT));
  if bool_decide (p = -1) then mret 0
  else store_size p nu ;; free (p + UNIT) ;; gets freep.

(** A block that is large enough: all of it, or its tail. *)
Definition malloc_take (nunits prevp p next sz : Z) : M uheap Z :=
  p ← (if bool_decide (sz = nunits) then store_ptr prevp next ;; mret p
       else store_size p (sz - nunits) ;;
            let p := p + UNIT * (sz - nunits) in
            store_size p nunits ;; mret p);
  modify (set_freep prevp) ;;
  mret (p + UNIT).
Fixpoint malloc_loop (fuel : nat) (nunits prevp p : Z) : M uheap Z :=
  match fuel with
  | O => hang
  | S fuel =>
      '(next, sz) ← load p;
      if bool_decide (sz >= nunits) then malloc_take nunits prevp p next sz
      else
        f ← gets freep;
        if bool_decide (p = f) then
          p ← morecore nunits;
          if bool_decide (p = 0) then mret 0
          else '(next, _) ← load p; malloc_loop fuel nunits p next
        else malloc_loop fuel nunits p next
  end.

Definition units_of (nbytes : Z) : Z := u32 ((nbytes + UNIT - 1) / UNIT + 1).
Definition malloc (nbytes : Z) : M uheap Z :=
  let nunits := units_of nbytes in
  f ← gets freep;
  prevp ← (if bool_decide (f = 0) then
             store_ptr base base ;; modify (set_freep base) ;; store_size base 0 ;; mret base
           else mret f);
  '(p, _) ← load prevp;
  fuel ← gets rounds;
  malloc_loop fuel nunits prevp p.
End umalloc_c.
