(* ===== verification/MallocInv.v ===== *)
(** * The free list of malloc

    The circular list in memory as a list of blocks sorted by address, [base]
    first, with gaps between neighbours; what [free] and [malloc] do to it. *)
From stdpp Require Import sorting.
From S2P Require Import Prelude Malloc.

Abbreviation block := (Z * Z)%type.

(** The address of the first block, or where the list ends. *)
Definition haddr (L : list block) (stop : Z) : Z := match L with [] => stop | x :: _ => x.1 end.
Fixpoint chain (h : gmap Z (Z * Z)) (L : list block) (stop : Z) : Prop :=
  match L with
  | [] => True
  | x :: L => h !! x.1 = Some (haddr L stop, x.2) ∧ chain h L stop
  end.
Definition before (x y : block) : Prop := x.1 + UNIT * x.2 < y.1.
(** An address of a block. *)
Definition inside (x : block) (u : Z) : Prop := x.1 ≤ u < x.1 + UNIT * x.2.
Definition in_free (L : list block) (u : Z) : Prop := ∃ x, x ∈ L ∧ inside x u.
Definition total (L : list block) : Z := foldr (λ x t, x.2 + t) 0 L.
Arguments total : simpl never.

Lemma haddr_app L K stop : haddr (L ++ K) stop = haddr L (haddr K stop).
Proof. by destruct L. Qed.
Lemma chain_app h L K stop : chain h (L ++ K) stop ↔ chain h L (haddr K stop) ∧ chain h K stop.
Proof. induction L as [|x L IH]; cbn; [tauto|]. rewrite IH, haddr_app. tauto. Qed.
Lemma seg_frame h h' L stop : (∀ x, x ∈ L → h' !! x.1 = h !! x.1) → chain h L stop → chain h' L stop.
Proof.
  induction L as [|x L IH]; intros Hh; [done|]. intros [H1 H2]. split; [rewrite Hh by (by left); done|]. apply IH; [|done]. intros y Hy. apply Hh. by right.
Qed.
Lemma total_nil : total [] = 0.
Proof. done. Qed.
Lemma total_cons x L : total (x :: L) = x.2 + total L.
Proof. done. Qed.
Lemma total_app L K : total (L ++ K) = total L + total K.
Proof. induction L as [|x L IH]; [done|]. cbn [app]. rewrite !total_cons, IH. lia. Qed.

Lemma in_free_nil u : ¬ in_free [] u.
Proof. by intros (x & H%elem_of_nil & _). Qed.
Lemma in_free_cons x L u : in_free (x :: L) u ↔ inside x u ∨ in_free L u.
Proof.
  unfold in_free. setoid_rewrite elem_of_cons. split.
  - intros (y & [->|Hy] & Hu); [by left|right; by exists y].
  - intros [Hu|(y & Hy & Hu)]; [exists x|exists y]; tauto.
Qed.
Lemma in_free_app L K u : in_free (L ++ K) u ↔ in_free L u ∨ in_free K u.
Proof. induction L as [|x L IH]; cbn [app]; [pose proof (in_free_nil u); tauto|]. rewrite !in_free_cons, IH. tauto. Qed.
Create Rewrite HintDb heap.
#[export] Hint Rewrite total_app total_cons total_nil : heap.
#[export] Hint Rewrite in_free_app in_free_cons : heap.

Set Default Proof Using "All".
Section inv.
Context (base heap0 : Z) (Hbase : 0 < base) (Hheap0 : base + UNIT ≤ heap0) (Halign : heap0 mod UNIT = 0).
Local Abbreviation load := (load base heap0).
Local Abbreviation store_ptr := (store_ptr base heap0).
Local Abbreviation store_size := (store_size base heap0).

Definition is_block (s : uheap) (x : block) : Prop := 1 ≤ x.2 ∧ heap0 ≤ x.1 ∧ x.1 + UNIT * x.2 ≤ brk s ∧ x.1 mod UNIT = 0.
Definition BRKMAX : Z := 2 ^ 31.

Record flist (s : uheap) (L : list block) : Prop := {
  fl_base : ∃ F, L = (base, 0) :: F ∧ Forall (is_block s) F;
  fl_chain : chain (hdr s) L base;
  fl_sorted : StronglySorted before L;
  fl_freep : freep s ∈ L.*1;
  fl_brk : heap0 ≤ brk s ≤ BRKMAX ∧ brk s mod UNIT = 0 }.

(** ** Loads and stores *)

Lemma load_ok s a v : at_header base heap0 s a → hdr s !! a = Some v → load a s = Ok (v, s).
Proof. intros H E. unfold Malloc.load. by rewrite decide_True, E. Qed.
Lemma store_ptr_ok s a p v : at_header base heap0 s a → hdr s !! a = Some v → store_ptr a p s = Ok (tt, set_hdr (<[a := (p, v.2)]> (hdr s)) s).
Proof. intros H E. unfold Malloc.store_ptr. rewrite (bind_Ok_eq _ _ _ _ _ (load_ok s a v H E)). by destruct v. Qed.
Lemma store_size_ok s a n : at_header base heap0 s a → store_size a n s = Ok (tt, set_hdr (<[a := ((default (0, 0) (hdr s !! a)).1, n)]> (hdr s)) s).
Proof.
  intros H. unfold Malloc.store_size. rewrite (bind_Ok_eq _ _ _ (default (0, 0) (hdr s !! a)) s) by (unfold Malloc.load; by rewrite decide_True).
  by destruct (default (0, 0) (hdr s !! a)).
Qed.

Lemma block_header s x : is_block s x → at_header base heap0 s x.1.
Proof. intros (H1 & H2 & H3 & H4). right. unfold UNIT in *. lia. Qed.
Lemma block_inside s x u : is_block s x → inside x u → heap0 ≤ u < brk s.
Proof. unfold is_block, inside. lia. Qed.
Lemma block_first s x : is_block s x → inside x x.1.
Proof. unfold is_block, inside, UNIT. lia. Qed.

Section flist.
Context (s : uheap) (L : list block) (HL : flist s L).

Lemma fl_elem x : x ∈ L → x = (base, 0) ∨ is_block s x.
Proof.
  destruct (fl_base s L HL) as (F & -> & HF). intros [->|H]%elem_of_cons; [by left|right]. rewrite Forall_forall in HF. by apply HF.
Qed.
Lemma fl_header x : x ∈ L → at_header base heap0 s x.1.
Proof. intros [->|H]%fl_elem; [by left|by apply block_header]. Qed.
Lemma fl_size x : x ∈ L → 0 ≤ x.2 ∧ base ≤ x.1.
Proof. intros [->|H]%fl_elem; [done|]. unfold is_block, UNIT in *. lia. Qed.
Lemma in_free_range u : in_free L u → heap0 ≤ u < brk s.
Proof.
  intros (x & Hx & Hu). apply fl_elem in Hx as [->|Hx]; [unfold inside in Hu; cbn in Hu; lia|by eapply block_inside].
Qed.
Lemma fl_load U x V : L = U ++ x :: V → load x.1 s = Ok ((haddr V base, x.2), s).
Proof.
  intros E. apply load_ok; [apply fl_header; rewrite E; set_solver|]. pose proof (fl_chain s L HL) as Hc. rewrite E in Hc. apply chain_app in Hc as [_ [Hc _]]. exact Hc.
Qed.
(** Every block on the list has been written. *)
Lemma fl_length : (length L ≤ size (hdr s))%nat.
Proof.
  assert (Hn : NoDup L.*1).
  { pose proof (fl_sorted s L HL) as Hs. assert (Hsz : ∀ x, x ∈ L → 0 ≤ x.2) by (intros x Hx; apply fl_size in Hx; lia). clear HL. induction Hs as [|x L Hs IH Hx]; [constructor|].
    cbn. constructor; [|apply IH; intros y Hy; apply Hsz; by right]. intros (y & Ey & Hy)%list_elem_of_fmap. rewrite Forall_forall in Hx. specialize (Hx y Hy).
    unfold before in Hx. specialize (Hsz x ltac:(by left)). unfold UNIT in Hx. lia. }
  rewrite <-(length_fmap fst L), <-(size_dom (hdr s)), <-(size_list_to_set (C := gset Z) L.*1 Hn). apply subseteq_size. intros a Ha.
  apply elem_of_list_to_set, list_elem_of_fmap in Ha as (x & -> & Hx). apply elem_of_dom. apply list_elem_of_split in Hx as (U & V & E).
  pose proof (fl_chain s L HL) as Hc. rewrite E in Hc. apply chain_app in Hc as [_ [Hc _]]. by eexists.
Qed.
Lemma fl_rounds : (2 * length L < rounds s)%nat.
Proof. pose proof fl_length. unfold rounds. lia. Qed.

(** ** The search of [free] *)

Section find.
Context (X Y : list block) (p : block) (bp : Z) (E : L = X ++ p :: Y) (Hp : p.1 < bp) (HY : ∀ y, y ∈ Y → bp < y.1).

Lemma find_here fuel : free_find base heap0 (S fuel) bp p.1 s = Ok (p.1, s).
Proof.
  cbn [free_find]. rewrite (bind_Ok_eq _ _ _ _ _ (fl_load X p Y E)). rewrite (bool_decide_true (bp > p.1)) by lia. destruct Y as [|y Y']; cbn [haddr].
  - assert (Hb : base ≤ p.1) by (apply fl_size; rewrite E; set_solver). rewrite (bool_decide_false (bp < base)) by lia. by rewrite (bool_decide_true (p.1 >= base)) by lia.
  - rewrite bool_decide_true; [done|]. apply HY. by left.
Qed.
(** The search moves on below the place and above it. *)
Lemma find_pass fuel U x V : L = U ++ x :: V →
  (x.1 < haddr V base < bp) ∨ (bp < x.1 ∧ (haddr V base = base ∨ x.1 < haddr V base)) →
  free_find base heap0 (S fuel) bp x.1 s = free_find base heap0 fuel bp (haddr V base) s.
Proof.
  intros EV H. cbn [free_find]. rewrite (bind_Ok_eq _ _ _ _ _ (fl_load U x V EV)).
  assert (Hb : base ≤ p.1) by (apply fl_size; rewrite E; set_solver).
  assert (bool_decide (bp > x.1) && bool_decide (bp < haddr V base) = false) as ->.
  { apply andb_false_iff. rewrite !bool_decide_eq_false. lia. }
  assert (bool_decide (x.1 >= haddr V base) && (bool_decide (bp > x.1) || bool_decide (bp < haddr V base)) = false) as ->; [|done].
  apply andb_false_iff. rewrite orb_false_iff, !bool_decide_eq_false. lia.
Qed.
Lemma sorted_next U x y V : L = U ++ x :: y :: V → x.1 < y.1.
Proof.
  intros EV. pose proof (fl_sorted s L HL) as Hs. rewrite EV in Hs. apply StronglySorted_app in Hs as (_ & _ & Hs). apply StronglySorted_cons in Hs as [Hs _].
  apply Forall_inv in Hs. unfold before, UNIT in Hs. assert (0 ≤ x.2) by (apply fl_size; rewrite EV; set_solver). lia.
Qed.
Lemma find_below : ∀ W U x, L = U ++ x :: W ++ p :: Y → x.1 < bp.
Proof.
  induction W as [|w W IH]; intros U x EW; [pose proof (sorted_next U x p Y EW); lia|].
  pose proof (sorted_next U x w _ EW). enough (w.1 < bp) by lia. apply (IH (U ++ [x])). by rewrite <-app_assoc.
Qed.
Lemma find_up : ∀ W fuel U x, L = U ++ x :: W ++ p :: Y → (length W < fuel)%nat → free_find base heap0 (S fuel) bp x.1 s = Ok (p.1, s).
Proof.
  induction W as [|w W IH]; intros fuel U x EW Hf; (destruct fuel as [|fuel]; [simpl in Hf; lia|]).
  - rewrite (find_pass _ U x _ EW); [apply find_here|]. left. split; [by apply (sorted_next U x p Y)|done].
  - simpl in Hf. rewrite (find_pass _ U x _ EW); [apply (IH fuel (U ++ [x])); [by rewrite <-app_assoc|lia]|]. left. split; [by apply (sorted_next U x w (W ++ p :: Y))|].
    cbn. apply (find_below W (U ++ [x])). by rewrite <-app_assoc.
Qed.
Lemma find_base fuel : (length X < fuel)%nat → free_find base heap0 (S fuel) bp base s = Ok (p.1, s).
Proof.
  intros Hf. assert (HX : (X = [] ∧ base = p.1) ∨ ∃ x X', X = x :: X' ∧ base = x.1).
  { destruct (fl_base s L HL) as (F & EF & _). rewrite E in EF. destruct X as [|x X']; injection EF as -> _; [by left|right]. by exists (base, 0), X'. }
  destruct HX as [[_ Hb]|(x & X' & EX & Hb)].
  - pose proof (find_here fuel) as H. by rewrite <-Hb in H |- *.
  - assert (H : free_find base heap0 (S fuel) bp x.1 s = Ok (p.1, s)); [|by rewrite <-Hb in H].
    apply (find_up X' fuel []); [by rewrite E, EX|]. rewrite EX in Hf. simpl in Hf. lia.
Qed.
Lemma find_down : ∀ W fuel U x, L = U ++ x :: W → bp < x.1 → (length W + length X + 1 < fuel)%nat → free_find base heap0 (S fuel) bp x.1 s = Ok (p.1, s).
Proof.
  induction W as [|w W IH]; intros fuel U x EW Hx Hf; (destruct fuel as [|fuel]; [simpl in Hf; lia|]); simpl in Hf; rewrite (find_pass _ U x _ EW).
  - apply find_base. lia.
  - right. split; [done|by left].
  - pose proof (sorted_next _ _ _ _ EW). apply (IH fuel (U ++ [x])); [by rewrite <-app_assoc|cbn in *; lia|lia].
  - right. split; [done|right]. by apply (sorted_next U x w W).
Qed.
Lemma find_ok f : f ∈ L.*1 → free_find base heap0 (rounds s) bp f s = Ok (p.1, s).
Proof.
  intros (x & -> & Hx)%list_elem_of_fmap. pose proof fl_rounds as Hr. rewrite E, length_app in Hr. simpl in Hr. destruct (rounds s) as [|fuel]; [lia|].
  rewrite E in Hx. apply elem_of_app in Hx as [Hx|[->|Hx]%elem_of_cons].
  - apply list_elem_of_split in Hx as (U & V & EX). apply (find_up V fuel U); [by rewrite E, EX, <-app_assoc|]. rewrite EX, length_app in Hr. simpl in Hr. lia.
  - apply find_here.
  - pose proof (HY x Hx). apply list_elem_of_split in Hx as (U & V & EY). apply (find_down V fuel (X ++ p :: U)); [by rewrite E, EY, <-app_assoc|done|].
    rewrite EY, length_app in Hr. simpl in Hr. lia.
Qed.
End find.
End flist.
End inv.
