(* ===== verification/MallocOps.v ===== *)
(** * [free] and [malloc] on the free list *)
From stdpp Require Import sorting.
From S2P Require Import Prelude Malloc MallocInv.

(** The list with a block put in its place, joined with its neighbours. *)
Definition join_right (b : block) (Y : list block) : list block :=
  match Y with
  | q :: Y' => if decide (b.1 + UNIT * b.2 = q.1) then (b.1, b.2 + q.2) :: Y' else b :: Y
  | [] => [b]
  end.
Definition join_left (p : block) (Z : list block) : list block :=
  match Z with
  | b :: Z' => if decide (p.1 + UNIT * p.2 = b.1) then (p.1, p.2 + b.2) :: Z' else p :: Z
  | [] => [p]
  end.

Section ops.
Context (base heap0 : Z) (Hbase : 0 < base) (Hheap0 : base + UNIT ≤ heap0) (Halign : heap0 mod UNIT = 0).
Local Abbreviation load := (load base heap0).
Local Abbreviation store_ptr := (store_ptr base heap0).
Local Abbreviation store_size := (store_size base heap0).
Local Abbreviation flist := (flist base heap0).
Local Abbreviation is_block := (is_block heap0).


Section free.
Context (s : uheap) (L X Y : list block) (p : block) (bp n q0 : Z).
Context (HL : flist s L) (E : L = X ++ p :: Y) (Hp : p.1 < bp) (HY : ∀ y, y ∈ Y → bp < y.1).
Context (Hb : is_block s (bp, n)) (Hh : hdr s !! bp = Some (q0, n)) (Hfree : ∀ u, inside (bp, n) u → ¬ in_free L u).

Lemma fr_p_end : p.1 + UNIT * p.2 ≤ bp.
Proof.
  destruct (Z.le_gt_cases (p.1 + UNIT * p.2) bp) as [H|H]; [done|]. exfalso. apply (Hfree bp); [by apply (block_first base heap0 Hbase Hheap0 Halign s (bp, n))|].
  exists p. split; [rewrite E; set_solver|]. split; [lia|done].
Qed.
Lemma fr_bp_end y : y ∈ Y → bp + UNIT * n ≤ y.1.
Proof.
  intros Hy. destruct (Z.le_gt_cases (bp + UNIT * n) y.1) as [H|H]; [done|]. exfalso. apply (Hfree y.1); [specialize (HY y Hy); split; cbn; lia|].
  assert (HyL : y ∈ L) by (rewrite E; set_solver). exists y. split; [done|]. apply (fl_elem base heap0 Hbase Hheap0 Halign s L HL) in HyL as [->|HyL]; [|by apply (block_first base heap0 Hbase Hheap0 Halign s)].
  exfalso. specialize (HY (base, 0) Hy). destruct Hb as (_ & Hge & _). cbn in *. unfold UNIT in *. lia.
Qed.

(** Joining to the right: one store, or the size and the pointer of [bp]. *)
Definition m_right : Z := (match join_right (bp, n) Y with x :: _ => x.2 | [] => 0 end).
Definition y_right : list block := tail (join_right (bp, n) Y).
Lemma join_right_cons : join_right (bp, n) Y = (bp, m_right) :: y_right.
Proof. unfold m_right, y_right, join_right. destruct Y as [|q Y']; [done|]. by case_decide. Qed.
Lemma y_right_suffix : ∃ Y1, Y = Y1 ++ y_right ∧ total Y1 = m_right - n ∧ (∀ u, inside (bp, m_right) u ↔ inside (bp, n) u ∨ in_free Y1 u).
Proof.
  unfold y_right, m_right, join_right. destruct Y as [|q Y'] eqn:EY; [exists []|cbn [fst snd]; case_decide as Hq; [exists [q]|exists []]]; cbn [tail fst snd app]; (split; [done|]).
  - split; [rewrite total_nil; lia|]. intros u. pose proof (in_free_nil u). tauto.
  - split; [rewrite total_cons, total_nil; lia|]. intros u. rewrite in_free_cons. pose proof (in_free_nil u).
    assert (Hqs : 0 ≤ q.2) by (apply (fl_size base heap0 Hbase Hheap0 Halign s L HL); rewrite E; set_solver). destruct Hb as [Hn _]. cbn in Hn. unfold inside, UNIT in *. cbn. split; [|intros [?|[?|?]]; [lia|lia|done]].
    intros Hu. destruct (decide (u < q.1)); [left; lia|right; left; lia].
  - split; [rewrite total_nil; lia|]. intros u. pose proof (in_free_nil u). tauto.
Qed.

Definition free_list : list block := X ++ join_left p (join_right (bp, n) Y).
Lemma join_left_cases : (p.1 + UNIT * p.2 = bp ∧ free_list = X ++ (p.1, p.2 + m_right) :: y_right) ∨ (p.1 + UNIT * p.2 < bp ∧ free_list = X ++ p :: (bp, m_right) :: y_right).
Proof.
  pose proof fr_p_end. unfold free_list. rewrite join_right_cons. unfold join_left. cbn [fst snd]. case_decide; [by left|right]. split; [lia|done].
Qed.

Lemma bp_not_in x : x ∈ L → x.1 ≠ bp.
Proof. rewrite E. intros [H|[->|H]%elem_of_cons]%elem_of_app Hx; [|lia|specialize (HY x H); lia].
  apply list_elem_of_split in H as (U & V & EX). enough (x.1 < bp) by lia. apply (find_below base heap0 Hbase Hheap0 Halign s L HL X Y p bp E Hp HY V U x). by rewrite E, EX, <-app_assoc.
Qed.
Lemma right_end : bp + UNIT * m_right ≤ brk s ∧ n ≤ m_right.
Proof.
  destruct y_right_suffix as (Y1 & EY & Ht & Hin). assert (HnR : n ≤ m_right).
  { unfold m_right, join_right. destruct Y as [|q Y'] eqn:EY2; [cbn; lia|]. case_decide; cbn; [|lia].
    assert (0 ≤ q.2) by (apply (fl_size base heap0 Hbase Hheap0 Halign s L HL); rewrite E; set_solver). lia. }
  split; [|done]. destruct Hb as (H1 & H2 & H3 & _). cbn in H1, H2, H3. unfold UNIT in *.
  destruct (proj1 (Hin (bp + 16 * m_right - 1))) as [H|H]; [unfold inside, UNIT; cbn; lia|unfold inside, UNIT in H; cbn in H; lia|].
  assert (H' : in_free L (bp + 16 * m_right - 1)) by (rewrite E, EY; rewrite !in_free_app, in_free_cons, in_free_app; tauto).
  apply (in_free_range base heap0 Hbase Hheap0 Halign s L HL) in H'. lia.
Qed.

(** The state of memory that [free] leaves. *)
Definition free_state : uheap :=
  let h := <[bp := (haddr y_right base, m_right)]> (hdr s) in
  set_freep p.1 (set_hdr (<[p.1 := if decide (p.1 + UNIT * p.2 = bp) then (haddr y_right base, p.2 + m_right) else (bp, p.2)]> h) s).

Lemma next_in y Y1 : Y = y :: Y1 → y ∈ L ∧ is_block s y.
Proof.
  intros EY. assert (Hy : y ∈ L) by (rewrite E, EY; set_solver). split; [done|]. apply (fl_elem base heap0 Hbase Hheap0 Halign s L HL) in Hy as [->|Hy]; [|done].
  exfalso. assert (H : bp < (base, 0).1) by (apply HY; rewrite EY; by left). destruct Hb as (_ & Hge & _). cbn in *. unfold UNIT in *. lia.
Qed.
Lemma bp_header : at_header base heap0 s bp.
Proof. by apply (block_header base heap0 Hbase Hheap0 Halign s (bp, n)). Qed.
Lemma p_header : at_header base heap0 s p.1.
Proof. apply (fl_header base heap0 Hbase Hheap0 Halign s L HL). rewrite E. set_solver. Qed.
Lemma right_run :
  (if bool_decide (bp + UNIT * n = haddr Y base) then
     '(_, nsz) ← load (haddr Y base);
     store_size bp (u32 (n + nsz)) ;;
     '(next, _) ← load p.1;
     '(nn, _) ← load next;
     store_ptr bp nn
   else store_ptr bp (haddr Y base)) s = Ok (tt, set_hdr (<[bp := (haddr y_right base, m_right)]> (hdr s)) s).
Proof.
  pose proof bp_header as Hbh. pose proof p_header as Hph. pose proof right_end as [Hend _].
  pose proof Hb as (Hn & Hge & Hle & _). cbn in Hn, Hge, Hle. pose proof (fl_brk _ _ _ _ HL) as [[_ Hmax] _]. unfold BRKMAX in Hmax.
  revert Hend. unfold m_right at 2, y_right, join_right. cbn [fst snd]. case_eq Y; [intros EY|intros q Y' EY]; cbn [haddr tail snd]; intros Hend.
  - rewrite bool_decide_false by (unfold UNIT in *; lia). by rewrite (store_ptr_ok base heap0 Hbase Hheap0 Halign s bp base (q0, n) Hbh Hh).
  - destruct (next_in q Y' EY) as [Hq Hqb]. case_decide as Hjoin; cbn [haddr tail snd].
    + rewrite bool_decide_true by done. rewrite (bind_Ok_eq _ _ _ _ _ (fl_load base heap0 Hbase Hheap0 Halign s L HL (X ++ [p]) q Y' ltac:(by rewrite E, EY, <-app_assoc))).
      cbv iota beta. rewrite (bind_Ok_eq _ _ _ _ _ (store_size_ok base heap0 Hbase Hheap0 Halign s bp (u32 (n + q.2)) Hbh)). rewrite Hh. cbn [default fst].
      assert (Hcp : hdr s !! p.1 = Some (q.1, p.2)). { pose proof (fl_chain _ _ _ _ HL) as Hc. rewrite E, EY in Hc. by apply chain_app in Hc as [_ [Hc _]]. }
      assert (Hcq : hdr s !! q.1 = Some (haddr Y' base, q.2)). { pose proof (fl_chain _ _ _ _ HL) as Hc. rewrite E, EY in Hc. by apply chain_app in Hc as (_ & _ & Hc & _). }
      rewrite (bind_Ok_eq _ _ _ (q.1, p.2) (set_hdr (<[bp := (q0, u32 (n + q.2))]> (hdr s)) s)) by (apply load_ok; [done..|]; cbn; by rewrite lookup_insert_ne by lia).
      rewrite (bind_Ok_eq _ _ _ (haddr Y' base, q.2) (set_hdr (<[bp := (q0, u32 (n + q.2))]> (hdr s)) s)).
      2:{ apply load_ok; [done..|by apply (block_header base heap0 Hbase Hheap0 Halign s q)|]. cbn. rewrite lookup_insert_ne; [done|]. intros Heq. by apply (bp_not_in q Hq). }
      rewrite (store_ptr_ok base heap0 Hbase Hheap0 Halign _ bp (haddr Y' base) (q0, u32 (n + q.2))); [|done|cbn; by rewrite lookup_insert_eq].
      cbn. rewrite insert_insert_eq. unfold u32. rewrite Z.mod_small; [done|]. destruct Hqb as (Hq2 & _ & Hq3 & _). unfold UNIT in *. lia.
    + rewrite bool_decide_false by done. by rewrite (store_ptr_ok base heap0 Hbase Hheap0 Halign s bp q.1 (q0, n) Hbh Hh).
Qed.

Lemma free_run : free base heap0 (bp + UNIT) s = Ok (tt, free_state).
Proof.
  unfold free. replace (bp + UNIT - UNIT) with bp by lia. pose proof bp_header as Hbh. pose proof p_header as Hph.
  rewrite (bind_Ok_eq _ _ _ (rounds s) s) by done. rewrite (bind_Ok_eq _ _ _ (freep s) s) by done.
  rewrite (bind_Ok_eq _ _ _ _ _ (find_ok base heap0 Hbase Hheap0 Halign s L HL X Y p bp E Hp HY (freep s) (fl_freep _ _ _ _ HL))).
  rewrite (bind_Ok_eq _ _ _ _ _ (load_ok base heap0 Hbase Hheap0 Halign s bp (q0, n) Hbh Hh)). cbv iota beta.
  rewrite (bind_Ok_eq _ _ _ _ _ (fl_load base heap0 Hbase Hheap0 Halign s L HL X p Y E)). cbv iota beta.
  rewrite (bind_Ok_eq _ _ _ _ _ right_run). set (s1 := set_hdr _ s).
  assert (Hcp : hdr s1 !! p.1 = Some (haddr Y base, p.2)).
  { pose proof (fl_chain _ _ _ _ HL) as Hc. rewrite E in Hc. apply chain_app in Hc as [_ [Hc _]]. unfold s1. cbn. by rewrite lookup_insert_ne by lia. }
  assert (Hcb : hdr s1 !! bp = Some (haddr y_right base, m_right)) by (unfold s1; cbn; by rewrite lookup_insert_eq).
  rewrite (bind_Ok_eq _ _ _ (haddr Y base, p.2) s1) by (by apply load_ok). cbv iota beta.
  unfold free_state. case_decide as Hjoin.
  - rewrite (bool_decide_true _ Hjoin). rewrite (bind_Ok_eq _ _ _ tt (set_hdr (<[p.1 := (haddr y_right base, p.2 + m_right)]> (hdr s1)) s1)); [done|].
    rewrite (bind_Ok_eq _ _ _ (haddr y_right base, m_right) s1) by (by apply load_ok). cbv iota beta.
    rewrite (bind_Ok_eq _ _ _ _ _ (store_size_ok base heap0 Hbase Hheap0 Halign s1 p.1 (u32 (p.2 + m_right)) Hph)). rewrite Hcp. cbn [default fst].
    rewrite (bind_Ok_eq _ _ _ (haddr y_right base, m_right) (set_hdr (<[p.1 := (haddr Y base, u32 (p.2 + m_right))]> (hdr s1)) s1)).
    2:{ apply load_ok; [done..|]. cbn. rewrite lookup_insert_ne by lia. exact Hcb. }
    rewrite (store_ptr_ok base heap0 Hbase Hheap0 Halign _ p.1 (haddr y_right base) (haddr Y base, u32 (p.2 + m_right))); [|done|cbn; by rewrite lookup_insert_eq].
    cbn. rewrite insert_insert_eq. unfold u32. rewrite Z.mod_small; [done|]. pose proof right_end as [Hend Hnm]. pose proof Hb as (Hn & Hge & Hle & _). cbn in Hn, Hge, Hle.
    pose proof (fl_brk _ _ _ _ HL) as [[_ Hmax] _]. unfold BRKMAX in Hmax. assert (0 ≤ p.2 ∧ base ≤ p.1) by (apply (fl_size base heap0 Hbase Hheap0 Halign s L HL); rewrite E; set_solver).
    unfold UNIT in *. lia.
  - rewrite (bool_decide_false _ Hjoin). by rewrite (bind_Ok_eq _ _ _ _ _ (store_ptr_ok base heap0 Hbase Hheap0 Halign s1 p.1 bp (haddr Y base, p.2) Hph Hcp)).
Qed.

(** The list after [free]: the same addresses and those of the block, in order,
    with gaps. *)
Lemma free_inside u : in_free free_list u ↔ in_free L u ∨ inside (bp, n) u.
Proof.
  destruct y_right_suffix as (Y1 & EY & _ & Hin). specialize (Hin u). rewrite E, EY.
  destruct join_left_cases as [[Hj ->]|[_ ->]]; rewrite ?in_free_app, ?in_free_cons, ?in_free_app; [|tauto].
  assert (Hm : inside (p.1, p.2 + m_right) u ↔ inside p u ∨ inside (bp, m_right) u).
  { pose proof right_end as [_ Hnm]. destruct Hb as [Hn _]. cbn in Hn. assert (0 ≤ p.2 ∧ base ≤ p.1) by (apply (fl_size base heap0 Hbase Hheap0 Halign s L HL); rewrite E; set_solver).
    unfold inside, UNIT in *. cbn. lia. }
  tauto.
Qed.
Lemma free_total : total free_list = total L + n.
Proof.
  destruct y_right_suffix as (Y1 & EY & Ht & _). rewrite E, EY. destruct join_left_cases as [[Hj ->]|[_ ->]]; rewrite ?total_app, ?total_cons, ?total_app; cbn [fst snd]; lia.
Qed.
Lemma free_length : (length free_list ≤ S (length L))%nat.
Proof.
  destruct y_right_suffix as (Y1 & EY & _). rewrite E, EY. destruct join_left_cases as [[_ ->]|[_ ->]]; rewrite !length_app; simpl; rewrite length_app; lia.
Qed.
Lemma free_large : ∃ x, x ∈ free_list ∧ n ≤ x.2.
Proof.
  pose proof right_end as [_ Hnm]. destruct join_left_cases as [[_ ->]|[_ ->]].
  - exists (p.1, p.2 + m_right). split; [set_solver|]. cbn. assert (0 ≤ p.2 ∧ base ≤ p.1) by (apply (fl_size base heap0 Hbase Hheap0 Halign s L HL); rewrite E; set_solver). lia.
  - exists (bp, m_right). split; [set_solver|done].
Qed.
Lemma y_right_in y : y ∈ y_right → y ∈ L ∧ y.1 ≠ p.1 ∧ bp + UNIT * m_right < y.1.
Proof.
  intros Hy. destruct y_right_suffix as (Y1 & EY & _ & Hin). assert (HyY : y ∈ Y) by (rewrite EY; set_solver). split; [rewrite E; set_solver|].
  split; [pose proof (HY y HyY); lia|]. pose proof (fl_sorted _ _ _ _ HL) as Hs. rewrite E in Hs. apply StronglySorted_app in Hs as (_ & _ & Hs). apply StronglySorted_cons in Hs as [_ Hs].
  revert Hy Hs. unfold y_right, m_right, join_right. cbn [fst snd]. case_eq Y; [intros ->; by intros ?%elem_of_nil|]. intros q Y' EY2 Hy Hs.
  apply StronglySorted_cons in Hs as [Hq _]. rewrite Forall_forall in Hq. revert Hy. case_decide as Hj; cbn [tail snd]; intros Hy.
  - specialize (Hq y Hy). unfold before in Hq. unfold UNIT in *. lia.
  - assert (Hqe : bp + UNIT * n ≤ q.1) by (apply fr_bp_end; rewrite EY2; by left). apply elem_of_cons in Hy as [->|Hy]; [lia|]. specialize (Hq y Hy). unfold before in Hq.
    assert (0 ≤ q.2 ∧ base ≤ q.1) by (apply (fl_size base heap0 Hbase Hheap0 Halign s L HL); rewrite E, EY2; set_solver). unfold UNIT in *. lia.
Qed.
Lemma x_left x : x ∈ X → x.1 + UNIT * x.2 < p.1 ∧ x.1 < p.1.
Proof.
  intros Hx. pose proof (fl_sorted _ _ _ _ HL) as Hs. rewrite E in Hs. apply StronglySorted_app in Hs as (Hs & _ & _). specialize (Hs x p Hx ltac:(by left)). unfold before in Hs.
  assert (0 ≤ x.2 ∧ base ≤ x.1) by (apply (fl_size base heap0 Hbase Hheap0 Halign s L HL); rewrite E; set_solver). unfold UNIT in *. lia.
Qed.
Lemma y_right_tail : StronglySorted before y_right ∧ chain (hdr s) y_right base.
Proof.
  destruct y_right_suffix as (Y1 & EY & _ & _). pose proof (fl_sorted _ _ _ _ HL) as Hs. pose proof (fl_chain _ _ _ _ HL) as Hc. rewrite E, EY in Hs, Hc. split.
  - apply StronglySorted_app in Hs as (_ & _ & Hs). apply StronglySorted_cons in Hs as [_ Hs]. by apply StronglySorted_app in Hs as (_ & _ & Hs).
  - apply chain_app in Hc as (_ & _ & Hc). by apply chain_app in Hc as [_ Hc].
Qed.
Lemma free_sorted : StronglySorted before free_list.
Proof.
  destruct y_right_tail as [Hs _]. pose proof right_end as [_ Hnm]. destruct Hb as [Hn _]. cbn in Hn.
  pose proof (fl_sorted _ _ _ _ HL) as HsL. rewrite E in HsL. apply StronglySorted_app in HsL as (_ & HsX & _).
  assert (Hbm : Forall (before (bp, m_right)) y_right) by (apply Forall_forall; intros y Hy; apply y_right_in in Hy; unfold before; cbn; tauto).
  destruct join_left_cases as [[Hj ->]|[Hj ->]]; apply StronglySorted_app; (split; [|split; [done|]]).
  - intros x y Hx Hy. apply x_left in Hx. unfold before. apply elem_of_cons in Hy as [->|Hy]; [cbn; lia|]. apply y_right_in in Hy. unfold UNIT in *. lia.
  - apply StronglySorted_cons. split; [|done]. apply Forall_forall. intros y Hy. apply y_right_in in Hy. unfold before. cbn. unfold UNIT in *. lia.
  - intros x y Hx Hy. apply x_left in Hx. unfold before. apply elem_of_cons in Hy as [->|Hy]; [lia|]. apply elem_of_cons in Hy as [->|Hy]; [cbn; lia|]. apply y_right_in in Hy. unfold UNIT in *. lia.
  - apply StronglySorted_cons. split; [|by apply StronglySorted_cons]. constructor; [done|]. apply Forall_forall. intros y Hy. apply y_right_in in Hy. unfold before. unfold UNIT in *. lia.
Qed.
Lemma free_chain : chain (hdr free_state) free_list base.
Proof.
  pose proof (fl_chain _ _ _ _ HL) as Hc. rewrite E in Hc. apply chain_app in Hc as (HcX & _ & _). destruct y_right_tail as [_ HcY]. cbn [haddr] in HcX.
  assert (HY2 : chain (hdr free_state) y_right base).
  { eapply seg_frame; [|exact HcY]. intros y Hy. apply y_right_in in Hy as (HyL & Hy1 & _). cbn. rewrite !lookup_insert_ne; [done|intros Heq; by apply (bp_not_in y HyL)|done]. }
  assert (HX2 : chain (hdr free_state) X p.1).
  { eapply seg_frame; [|exact HcX]. intros x Hx. pose proof (x_left x Hx) as [_ Hlt]. cbn. rewrite !lookup_insert_ne; [done|lia|lia]. }
  assert (Hp2 : hdr free_state !! p.1 = Some (if decide (p.1 + UNIT * p.2 = bp) then (haddr y_right base, p.2 + m_right) else (bp, p.2))) by (cbn; by rewrite lookup_insert_eq).
  assert (Hbp2 : hdr free_state !! bp = Some (haddr y_right base, m_right)) by (cbn; rewrite lookup_insert_ne by lia; by rewrite lookup_insert_eq).
  destruct join_left_cases as [[Hj ->]|[Hj ->]]; apply chain_app; (split; [exact HX2|]).
  - split; [|done]. cbn [fst snd]. by rewrite decide_True in Hp2.
  - split; [|by split]. cbn [haddr fst]. by rewrite decide_False in Hp2 by lia.
Qed.

(** Blocks of the new list: an old one, or one that the freed block grew into. *)
Lemma free_blocks x : x ∈ free_list → x.1 ≠ base → is_block free_state x.
Proof.
  pose proof right_end as [Hend Hnm]. pose proof Hb as (Hn & Hge & Hle & Hal). cbn in Hn, Hge, Hle, Hal. intros Hx Hxb.
  assert (HxL : ∀ z, z ∈ L → z.1 ≠ base → is_block s z) by (intros z Hz Hzb; apply (fl_elem base heap0 Hbase Hheap0 Halign s L HL) in Hz as [->|Hz]; [by cbn in Hzb|exact Hz]).
  assert (Hx2 : x ∈ L ∨ x = (bp, m_right) ∨ (x = (p.1, p.2 + m_right) ∧ p.1 + UNIT * p.2 = bp)).
  { destruct join_left_cases as [[Hj Ef]|[Hj Ef]]; rewrite Ef in Hx; apply elem_of_app in Hx as [Hx|Hx]; [left; rewrite E; set_solver| |left; rewrite E; set_solver|].
    - apply elem_of_cons in Hx as [->|Hx]; [by do 2 right|left; by apply y_right_in in Hx as [? _]].
    - apply elem_of_cons in Hx as [->|Hx]; [left; rewrite E; set_solver|]. apply elem_of_cons in Hx as [->|Hx]; [by right; left|left; by apply y_right_in in Hx as [? _]]. }
  destruct Hx2 as [Hx2|[->|[-> Hj]]]; [by apply (HxL x Hx2)|repeat split; cbn; try done; lia|].
  cbn in Hxb. assert (Hp3 : p ∈ L) by (rewrite E; set_solver). destruct (HxL p Hp3 Hxb) as (H1 & H2 & H3 & H4). repeat split; cbn; try done; unfold UNIT in *; lia.
Qed.
Lemma free_head : ∃ F, free_list = (base, 0) :: F.
Proof.
  destruct (fl_base _ _ _ _ HL) as (F & EF & _). pose proof Hb as (Hn & Hge & Hle & Hal). cbn in Hge. case_eq X; [intros EX|intros x X' EX]; rewrite E, EX in EF; injection EF as Ep _.
  - destruct join_left_cases as [[Hj _]|[_ ->]]; [exfalso; rewrite Ep in Hj; cbn in Hj; unfold UNIT in *; lia|]. rewrite EX, Ep. by eexists.
  - destruct join_left_cases as [[Hj ->]|[Hj ->]]; rewrite EX, Ep; by eexists.
Qed.
Lemma free_flist : flist free_state free_list.
Proof.
  constructor; [|apply free_chain|apply free_sorted| |exact (fl_brk _ _ _ _ HL)].
  - destruct free_head as (F & EF). exists F. split; [done|]. apply Forall_forall. intros x Hx. apply free_blocks; [rewrite EF; by right|].
    pose proof free_sorted as Hs. rewrite EF in Hs. apply StronglySorted_cons in Hs as [Hs _]. rewrite Forall_forall in Hs. specialize (Hs x Hx). unfold before, UNIT in Hs. cbn in Hs. lia.
  - cbn. destruct join_left_cases as [[Hj ->]|[Hj ->]]; rewrite fmap_app; set_solver.
Qed.
End free.

(** The place of an address that is not on the list. *)
Lemma split_at s L bp : flist s L → base < bp → (∀ x, x ∈ L → x.1 ≠ bp) → ∃ X p Y, L = X ++ p :: Y ∧ p.1 < bp ∧ ∀ y, y ∈ Y → bp < y.1.
Proof.
  intros HL Hbp Hne. destruct (fl_base _ _ _ _ HL) as (F & EF & _). pose proof (fl_sorted _ _ _ _ HL) as Hs. pose proof (fl_size base heap0 Hbase Hheap0 Halign s L HL) as Hsz. clear HL. revert EF Hs Hne Hsz.
  assert (Hind : ∀ F p, p.1 < bp → StronglySorted before (p :: F) → (∀ x, x ∈ F → x.1 ≠ bp) → (∀ x, x ∈ F → 0 ≤ x.2) →
    ∃ X q Y, p :: F = X ++ q :: Y ∧ q.1 < bp ∧ ∀ y, y ∈ Y → bp < y.1).
  { clear. induction F as [|q F IH]; intros p Hp Hs Hne Hsz; [exists [], p, []; split; [done|split; [done|by intros y ?%elem_of_nil]]|].
    apply StronglySorted_cons in Hs as [Hps Hs]. destruct (decide (q.1 < bp)) as [Hq|Hq].
    - destruct (IH q Hq Hs) as (X & r & Y & EX & Hr & HY); [intros x Hx; apply Hne; by right|intros x Hx; apply Hsz; by right|]. exists (p :: X), r, Y. by rewrite EX.
    - exists [], p, (q :: F). split; [done|]. split; [done|]. apply StronglySorted_cons in Hs as [Hqs _]. rewrite Forall_forall in Hqs.
      assert (bp < q.1) by (pose proof (Hne q ltac:(by left)); lia). intros y [->|Hy]%elem_of_cons; [done|]. specialize (Hqs y Hy). unfold before, UNIT in Hqs.
      specialize (Hsz q ltac:(by left)). lia. }
  intros -> Hs Hne Hsz. apply (Hind F (base, 0)); [done|done|intros x Hx; apply Hne; by right|intros x Hx; apply Hsz; by right].
Qed.

(** [free] of a block that no free block overlaps. *)
Lemma free_ok s L bp n q0 : flist s L → is_block s (bp, n) → hdr s !! bp = Some (q0, n) → (∀ u, inside (bp, n) u → ¬ in_free L u) →
  ∃ s' L', free base heap0 (bp + UNIT) s = Ok (tt, s') ∧ flist s' L' ∧ brk s' = brk s ∧ limit s' = limit s ∧
    (∀ u, in_free L' u ↔ in_free L u ∨ inside (bp, n) u) ∧ total L' = total L + n ∧ (∃ x, x ∈ L' ∧ n ≤ x.2) ∧ (length L' ≤ S (length L))%nat ∧
    (∀ a, a ≠ base → ¬ in_free L a → a ≠ bp → hdr s' !! a = hdr s !! a).
Proof.
  intros HL Hb Hh Hfree. pose proof Hb as (Hn & Hge & _). cbn in Hn, Hge. assert (Hbb : base < bp) by (unfold UNIT in *; lia).
  assert (HinL : ∀ x, x ∈ L → x.1 ≠ base → in_free L x.1).
  { intros x Hx Hxb. exists x. split; [done|]. apply (fl_elem base heap0 Hbase Hheap0 Halign s L HL) in Hx as [->|Hx]; [done|]. by apply (block_first base heap0 Hbase Hheap0 Halign s). }
  assert (Hbpf : ¬ in_free L bp) by (apply Hfree; by apply (block_first base heap0 Hbase Hheap0 Halign s (bp, n))).
  destruct (split_at s L bp HL Hbb) as (X & p & Y & E & Hp & HY).
  { intros x Hx Heq. apply Hbpf. rewrite <-Heq. apply HinL; [done|]. lia. }
  exists (free_state s Y p bp n), (free_list X Y p bp n). split; [by apply (free_run s L X Y p bp n q0)|]. split; [by apply (free_flist s L X Y p bp n q0)|].
  split; [done|]. split; [done|]. split; [by apply (free_inside s L X Y p bp n q0)|]. split; [by apply (free_total s L X Y p bp n q0)|]. split; [by apply (free_large s L X Y p bp n q0)|].
  split; [by apply (free_length s L X Y p bp n q0)|].
  intros a Hab Haf Hap. cbn. rewrite !lookup_insert_ne; [done|done|]. intros Heq. apply Haf. rewrite <-Heq. apply HinL; [rewrite E; set_solver|congruence].
Qed.
End ops.

(** ** The search of [malloc] and what it takes *)

(** An element of two lists put together is in one of them. *)
Lemma app_cons_split {A} (l1 l2 C1 C2 : list A) x : l1 ++ l2 = C1 ++ x :: C2 →
  (∃ k, l1 = C1 ++ x :: k ∧ C2 = k ++ l2) ∨ (∃ k, C1 = l1 ++ k ∧ l2 = k ++ x :: C2).
Proof.
  revert C1. induction l1 as [|y l1 IH]; intros C1 E; [right; by exists C1|]. destruct C1 as [|z C1]; injection E as -> E.
  - left. by exists l1.
  - destruct (IH C1 E) as [(k & -> & ->)|(k & -> & ->)]; [left|right]; by exists k.
Qed.

Set Default Proof Using "All".
Section take.
Context (base heap0 : Z) (Hbase : 0 < base) (Hheap0 : base + UNIT ≤ heap0) (Halign : heap0 mod UNIT = 0).
Local Abbreviation load := (load base heap0).
Local Abbreviation flist := (flist base heap0).
Local Abbreviation is_block := (is_block heap0).
Local Abbreviation malloc_take := (malloc_take base heap0).
Local Abbreviation malloc_loop := (malloc_loop base heap0).

(** ** Taking a block *)

Definition without (x : block) (n : Z) (Q : list block) : list block :=
  if decide (x.2 = n) then Q else (x.1, x.2 - n) :: Q.

(** Blocks of a list that is part of another. *)
Lemma listed_block s L P q R x : flist s L → L = P ++ q :: R → x ∈ R → is_block s x ∧ base < x.1.
Proof.
  intros HL E Hx. pose proof (fl_size base heap0 Hbase Hheap0 Halign s L HL) as Hsz. pose proof (fl_sorted _ _ _ _ HL) as Hs. rewrite E in Hs. apply StronglySorted_app in Hs as (_ & _ & Hs).
  apply StronglySorted_cons in Hs as [Hs _]. rewrite Forall_forall in Hs. specialize (Hs x Hx). unfold before, UNIT in Hs. assert (0 ≤ q.2 ∧ base ≤ q.1) by (apply Hsz; rewrite E; set_solver).
  assert (Hlt : base < x.1) by lia. split; [|done]. assert (HxL : x ∈ L) by (rewrite E; set_solver).
  apply (fl_elem base heap0 Hbase Hheap0 Halign s L HL) in HxL as [->|HxL]; [cbn in Hlt; lia|done].
Qed.

Section taken.
Context (s : uheap) (L P Q : list block) (q x : block) (n : Z).
Context (HL : flist s L) (E : L = P ++ q :: x :: Q) (Hn : 1 ≤ n ≤ x.2).
Definition taken : Z := x.1 + UNIT * (x.2 - n).
Definition take_list : list block := P ++ q :: without x n Q.
Definition take_state : uheap :=
  set_freep q.1 (set_hdr (if decide (x.2 = n) then <[q.1 := (haddr Q base, q.2)]> (hdr s)
    else <[taken := ((default (0, 0) (hdr s !! taken)).1, n)]> (<[x.1 := (haddr Q base, x.2 - n)]> (hdr s))) s).

Lemma tk_block : is_block s x ∧ base < x.1.
Proof. apply (listed_block s L P q (x :: Q)); [done..|by left]. Qed.
Lemma tk_cells : hdr s !! q.1 = Some (x.1, q.2) ∧ hdr s !! x.1 = Some (haddr Q base, x.2) ∧ chain (hdr s) P q.1 ∧ chain (hdr s) Q base.
Proof. pose proof (fl_chain _ _ _ _ HL) as Hc. rewrite E in Hc. apply chain_app in Hc as (H1 & H2 & H3 & H4). done. Qed.
Lemma tk_taken_block : is_block s (taken, n).
Proof.
  destruct tk_block as [(H1 & H2 & H3 & H4) _]. unfold taken, MallocInv.is_block. cbn. unfold UNIT in *. repeat split; try lia.
  rewrite <-Zplus_mod_idemp_r, (Z.mul_comm 16), Z.mod_mul, Z.add_0_r by lia. done.
Qed.

Lemma take_run : malloc_take n q.1 x.1 (haddr Q base) x.2 s = Ok (taken + UNIT, take_state).
Proof.
  destruct tk_block as [Hb Hlt]. destruct tk_cells as (Hcq & Hcx & _ & _). unfold Malloc.malloc_take, take_state.
  assert (Hqh : at_header base heap0 s q.1) by (apply (fl_header base heap0 Hbase Hheap0 Halign s L HL); rewrite E; set_solver).
  pose proof (block_header base heap0 Hbase Hheap0 Halign s x Hb) as Hxh.
  case_decide as Hx.
  - rewrite bool_decide_true by done. rewrite (bind_Ok_eq _ _ _ x.1 (set_hdr (<[q.1 := (haddr Q base, q.2)]> (hdr s)) s)).
    2:{ by rewrite (bind_Ok_eq _ _ _ _ _ (store_ptr_ok base heap0 Hbase Hheap0 Halign s q.1 (haddr Q base) (x.1, q.2) Hqh Hcq)). }
    rewrite (bind_Ok_eq _ _ _ tt (set_freep q.1 (set_hdr (<[q.1 := (haddr Q base, q.2)]> (hdr s)) s))) by done. unfold mret, M_ret, taken. repeat f_equal. lia.
  - rewrite bool_decide_false by done.
    rewrite (bind_Ok_eq _ _ _ taken (set_hdr (<[taken := ((default (0, 0) (hdr s !! taken)).1, n)]> (<[x.1 := (haddr Q base, x.2 - n)]> (hdr s))) s)); [done|].
    rewrite (bind_Ok_eq _ _ _ _ _ (store_size_ok base heap0 Hbase Hheap0 Halign s x.1 (x.2 - n) Hxh)). rewrite Hcx. cbn [default fst]. fold taken.
    assert (Hth : at_header base heap0 s taken) by (apply (block_header base heap0 Hbase Hheap0 Halign s (taken, n)), tk_taken_block).
    rewrite (bind_Ok_eq _ _ _ _ _ (store_size_ok base heap0 Hbase Hheap0 Halign (set_hdr (<[x.1 := (haddr Q base, x.2 - n)]> (hdr s)) s) taken n Hth)). cbn.
    rewrite lookup_insert_ne; [done|]. unfold taken, UNIT. lia.
Qed.

Lemma take_inside u : in_free L u ↔ in_free take_list u ∨ inside (taken, n) u.
Proof.
  destruct tk_block as [(H1 & _) _]. rewrite E. unfold take_list, without, taken. case_decide as Hx; rewrite !in_free_app, !in_free_cons.
  - assert (inside x u ↔ inside (x.1 + UNIT * (x.2 - n), n) u) by (unfold inside, UNIT; cbn; lia). tauto.
  - assert (inside x u ↔ inside (x.1, x.2 - n) u ∨ inside (x.1 + UNIT * (x.2 - n), n) u) by (unfold inside, UNIT; cbn; lia). tauto.
Qed.
Lemma take_total : total L = total take_list + n.
Proof. rewrite E. unfold take_list, without. case_decide; rewrite !total_app, !total_cons; cbn [fst snd]; lia. Qed.

Lemma tk_order : (∀ z, z ∈ P → z.1 < q.1 ∧ z.1 + UNIT * z.2 < q.1) ∧ q.1 + UNIT * q.2 < x.1 ∧ q.1 < x.1 ∧ (∀ z, z ∈ Q → x.1 + UNIT * x.2 < z.1) ∧ StronglySorted before P ∧ StronglySorted before Q.
Proof.
  pose proof (fl_sorted _ _ _ _ HL) as Hs. rewrite E in Hs. apply StronglySorted_app in Hs as (HPq & HP & Hs). rewrite !StronglySorted_cons in Hs. destruct Hs as (Hq & Hx & HQ).
  rewrite Forall_forall in Hq, Hx. pose proof (Hq x ltac:(by left)) as Hqx. unfold before in Hqx. pose proof (fl_size base heap0 Hbase Hheap0 Halign s L HL) as Hsz.
  assert (0 ≤ q.2 ∧ base ≤ q.1) by (apply Hsz; rewrite E; set_solver). split; [|split; [done|split; [unfold UNIT in *; lia|split; [exact Hx|by split]]]].
  intros z Hz. specialize (HPq z q Hz ltac:(by left)). unfold before in HPq. assert (0 ≤ z.2 ∧ base ≤ z.1) by (apply Hsz; rewrite E; set_solver). unfold UNIT in *. lia.
Qed.
Lemma take_sorted : StronglySorted before take_list.
Proof.
  destruct tk_order as (HP & Hqx & Hqx2 & HQ & HsP & HsQ). destruct tk_block as [(H1 & _) _]. unfold take_list, without. apply StronglySorted_app. split; [|split; [done|]].
  - intros z w Hz Hw. apply HP in Hz as [Hz1 Hz2]. unfold before. apply elem_of_cons in Hw as [->|Hw]; [done|].
    assert (q.1 < w.1); [|lia]. revert Hw. case_decide; [|intros [->|Hw]%elem_of_cons; [done|]]; [intros Hw|]; specialize (HQ w Hw); unfold UNIT in *; lia.
  - apply StronglySorted_cons. split.
    + apply Forall_forall. intros w Hw. unfold before. revert Hw. case_decide; [|intros [->|Hw]%elem_of_cons; [done|]]; [intros Hw|]; specialize (HQ w Hw); unfold UNIT in *; lia.
    + case_decide; [done|]. apply StronglySorted_cons. split; [|done]. apply Forall_forall. intros w Hw. specialize (HQ w Hw). unfold before. cbn. unfold UNIT in *. lia.
Qed.
Lemma take_chain : chain (hdr take_state) take_list base.
Proof.
  destruct tk_cells as (Hcq & Hcx & HcP & HcQ). destruct tk_order as (HP & Hqx & Hqx2 & HQ & _ & _). destruct tk_block as [(H1 & _) _].
  unfold take_list, without, take_state. cbn [hdr set_freep set_hdr]. case_decide as Hx; apply chain_app; cbn [chain haddr].
  - split; [|split].
    + eapply seg_frame; [|exact HcP]. intros z Hz. apply HP in Hz as [Hz _]. rewrite lookup_insert_ne by lia. done.
    + by rewrite lookup_insert_eq.
    + eapply seg_frame; [|exact HcQ]. intros z Hz. specialize (HQ z Hz). rewrite lookup_insert_ne by (unfold UNIT in *; lia). done.
  - assert (Ht : x.1 < taken < x.1 + UNIT * x.2) by (unfold taken, UNIT; lia). cbn [fst snd].
    assert (Hsame : ∀ z : Z, z ≠ taken → z ≠ x.1 → <[taken := ((default (0, 0) (hdr s !! taken)).1, n)]> (<[x.1 := (haddr Q base, x.2 - n)]> (hdr s)) !! z = hdr s !! z)
      by (intros z Hz1 Hz2; by rewrite !lookup_insert_ne by done).
    split; [|split; [|split]].
    + eapply seg_frame; [|exact HcP]. intros z Hz. apply HP in Hz as [Hz _]. apply Hsame; lia.
    + by rewrite Hsame by lia.
    + rewrite lookup_insert_ne by lia. by rewrite lookup_insert_eq.
    + eapply seg_frame; [|exact HcQ]. intros z Hz. specialize (HQ z Hz). apply Hsame; lia.
Qed.
Lemma take_flist : flist take_state take_list.
Proof.
  constructor; [|exact take_chain|exact take_sorted| |exact (fl_brk _ _ _ _ HL)].
  - destruct (fl_base _ _ _ _ HL) as (F & EF & HF). assert (HR : Forall (is_block s) (without x n Q)).
    { apply Forall_forall. intros z Hz. destruct tk_block as [(H1 & H2 & H3 & H4) _]. unfold without in Hz. case_decide as Hx; [|apply elem_of_cons in Hz as [->|Hz]].
      - apply (listed_block s L P q (x :: Q) z HL E). by right.
      - unfold MallocInv.is_block, UNIT in *. cbn. repeat split; try done; lia.
      - apply (listed_block s L P q (x :: Q) z HL E). by right. }
    rewrite E in EF. case_eq P; [intros EP|intros z P' EP]; rewrite EP in EF; injection EF as Hz EF; unfold take_list; rewrite EP, Hz; (eexists; split; [reflexivity|]).
    + exact HR.
    + rewrite <-EF in HF. apply Forall_app in HF as [HF1 HF2]. apply Forall_app. split; [exact HF1|]. apply Forall_cons in HF2 as [HF2 _]. by constructor.
  - cbn. unfold take_list. rewrite fmap_app. set_solver.
Qed.
End taken.

(** ** The search *)

Fixpoint last_addr (prev : Z) (C : list block) : Z := match C with [] => prev | z :: C => last_addr z.1 C end.
Lemma last_addr_snoc prev C q : last_addr prev (C ++ [q]) = q.1.
Proof. revert prev. induction C as [|z C IH]; intros prev; [done|apply IH]. Qed.

(** A miss: the whole round has been searched. *)
Definition miss (fuel : nat) (n : Z) : M uheap Z :=
  p ← morecore base heap0 n;
  if bool_decide (p = 0) then mret 0 else '(next, _) ← load p; malloc_loop fuel n p next.

Lemma scan s f n n0 : freep s = f.1 → ∀ C prev fuel, chain (hdr s) (C ++ [f]) n0 → (∀ z, z ∈ C → z.1 ≠ f.1) → (∀ z, z ∈ C ++ [f] → at_header base heap0 s z.1) →
  (length C < fuel)%nat →
  (∃ C1 x C2, C ++ [f] = C1 ++ x :: C2 ∧ n ≤ x.2 ∧ malloc_loop fuel n prev (haddr (C ++ [f]) n0) s = malloc_take n (last_addr prev C1) x.1 (haddr C2 n0) x.2 s) ∨
  ((∀ z, z ∈ C ++ [f] → z.2 < n) ∧ ∃ fuel', fuel = (S (length C) + fuel')%nat ∧ malloc_loop fuel n prev (haddr (C ++ [f]) n0) s = miss fuel' n s).
Proof.
  intros Hf. induction C as [|z C IH]; intros prev fuel Hc Hne Hat Hfuel; (destruct fuel as [|fuel]; [simpl in Hfuel; lia|]); cbn [app haddr] in *; destruct Hc as [Hz Hc].
  - cbn [Malloc.malloc_loop]. rewrite (bind_Ok_eq _ _ _ _ _ (load_ok base heap0 Hbase Hheap0 Halign s f.1 _ (Hat f ltac:(by left)) Hz)). cbv iota beta.
    destruct (decide (n ≤ f.2)) as [Hn|Hn].
    + left. exists [], f, []. split; [done|]. split; [done|]. by rewrite bool_decide_true by lia.
    + right. split; [intros z ->%list_elem_of_singleton; lia|]. exists fuel. split; [done|]. rewrite bool_decide_false by lia. rewrite (bind_Ok_eq _ _ _ (freep s) s) by done.
      by rewrite bool_decide_true by done.
  - cbn [Malloc.malloc_loop]. rewrite (bind_Ok_eq _ _ _ _ _ (load_ok base heap0 Hbase Hheap0 Halign s z.1 _ (Hat z ltac:(by left)) Hz)). cbv iota beta.
    destruct (decide (n ≤ z.2)) as [Hn|Hn].
    + left. exists [], z, (C ++ [f]). split; [done|]. split; [done|]. by rewrite bool_decide_true by lia.
    + rewrite bool_decide_false by lia. rewrite (bind_Ok_eq _ _ _ (freep s) s) by done. rewrite bool_decide_false by (rewrite Hf; apply Hne; by left).
      destruct (IH z.1 fuel Hc) as [(C1 & x & C2 & E & Hx & Er)|(Hall & fuel' & Ef & Er)].
      * intros w Hw. apply Hne. by right.
      * intros w Hw. apply Hat. by right.
      * simpl in Hfuel. lia.
      * left. exists (z :: C1), x, C2. split; [by rewrite E|by split].
      * right. split; [intros w [->|Hw]%elem_of_cons; [lia|by apply Hall]|]. exists fuel'. split; [simpl; lia|done].
Qed.

Section round.
Context (s : uheap) (L X Y : list block) (f : block) (HL : flist s L) (E : L = X ++ f :: Y) (Hf : freep s = f.1).

Lemma round_base stop : haddr (X ++ [f]) stop = base.
Proof.
  destruct (fl_base _ _ _ _ HL) as (F & EF & _). rewrite E in EF. case_eq X; [intros EX|intros z X' EX]; rewrite EX in EF; injection EF as Hz _; cbn; by rewrite Hz.
Qed.
Lemma round_chain : chain (hdr s) ((Y ++ X) ++ [f]) (haddr Y base).
Proof.
  pose proof (fl_chain _ _ _ _ HL) as Hc. rewrite E in Hc. apply chain_app in Hc as (HX & Hfc & HY). cbn [haddr] in HX. rewrite <-app_assoc. apply chain_app. rewrite round_base. split; [done|].
  apply chain_app. by split.
Qed.
Lemma round_other z : z ∈ Y ++ X → z.1 ≠ f.1.
Proof.
  pose proof (fl_sorted _ _ _ _ HL) as Hs. pose proof (fl_size base heap0 Hbase Hheap0 Halign s L HL) as Hsz. rewrite E in Hs. apply StronglySorted_app in Hs as (HX & _ & HY). apply StronglySorted_cons in HY as [HY _].
  rewrite Forall_forall in HY. assert (Hfs : 0 ≤ f.2 ∧ base ≤ f.1) by (apply Hsz; rewrite E; set_solver). intros [Hz|Hz]%elem_of_app.
  - specialize (HY z Hz). unfold before, UNIT in HY. lia.
  - specialize (HX z f Hz ltac:(by left)). unfold before, UNIT in HX. assert (0 ≤ z.2 ∧ base ≤ z.1) by (apply Hsz; rewrite E; set_solver). lia.
Qed.
Lemma round_header z : z ∈ (Y ++ X) ++ [f] → at_header base heap0 s z.1.
Proof. intros Hz. apply (fl_header base heap0 Hbase Hheap0 Halign s L HL). rewrite E. set_solver. Qed.

(** The block before one that was found is its neighbour on the list. *)
Lemma round_split C1 x C2 : (Y ++ X) ++ [f] = C1 ++ x :: C2 → 1 ≤ x.2 →
  ∃ P q Q, L = P ++ q :: x :: Q ∧ q.1 = last_addr f.1 C1 ∧ haddr C2 (haddr Y base) = haddr Q base.
Proof.
  intros EC Hx. assert (Hhead : ∀ R, L ≠ x :: R). { intros R ER. destruct (fl_base _ _ _ _ HL) as (F & EF & _). rewrite ER in EF. injection EF as -> _. cbn in Hx. lia. }
  assert (Hprev : ∀ V R, L = V ++ x :: R → ∃ P q, V = P ++ [q]).
  { intros V R EV. destruct V as [|q P _] using rev_ind; [by apply Hhead in EV|]. by exists P, q. }
  apply app_cons_split in EC as [(k & EYX & ->)|(k & -> & Ek)]; [apply app_cons_split in EYX as [(k2 & EY & ->)|(k2 & -> & EX)]|].
  - (* before [f] in the round, behind it on the list *)
    destruct (Hprev (X ++ f :: C1) k2) as (P & q & EP); [by rewrite E, EY, <-app_assoc|]. exists P, q, k2. split; [by rewrite E, EY, (cons_middle q P), (app_assoc P), <-EP, <-app_assoc|].
    split; [|by rewrite <-app_assoc, haddr_app, round_base].
    destruct C1 as [|z C1 _] using rev_ind; [apply app_inj_tail in EP as [_ ->]; done|]. rewrite app_comm_cons, app_assoc in EP. apply app_inj_tail in EP as [_ ->]. by rewrite last_addr_snoc.
  - destruct (Hprev k2 (k ++ f :: Y)) as (P & q & Eq); [by rewrite E, EX, <-app_assoc|]. exists P, q, (k ++ f :: Y). split; [by rewrite E, EX, Eq, <-!app_assoc|].
    split; [by rewrite Eq, app_assoc, last_addr_snoc|]. by rewrite !haddr_app.
  - assert (k = [] ∧ x = f ∧ C2 = []) as (-> & -> & ->). { destruct k as [|? k]; injection Ek; [done|]. intros Ek2 _. by destruct k. }
    destruct (Hprev X Y E) as (P & q & EX). exists P, q, Y. rewrite app_nil_r. split; [by rewrite E, EX, <-app_assoc|]. split; [|done]. by rewrite EX, app_assoc, last_addr_snoc.
Qed.
End round.

(** ** [malloc] *)

(** What [malloc] leaves when it hands out the [n] units at [b]. *)
Record allocated (s : uheap) (L : list block) (n b : Z) (s' : uheap) (L' : list block) : Prop := {
  al_flist : flist s' L';
  al_brk : brk s ≤ brk s';
  al_limit : limit s' = limit s;
  al_block : is_block s' (b, n);
  al_header : ∃ q, hdr s' !! b = Some (q, n);
  al_apart u : inside (b, n) u → ¬ in_free L' u;
  al_units u : in_free L' u ∨ inside (b, n) u ↔ in_free L u ∨ brk s ≤ u < brk s';
  al_total : UNIT * (total L' + n) = UNIT * total L + (brk s' - brk s);
  al_frame a : a ≠ base → ¬ in_free L a → a < brk s → hdr s' !! a = hdr s !! a }.

Lemma listed_in_free s L x : flist s L → x ∈ L → x.1 ≠ base → in_free L x.1.
Proof.
  intros HL Hx Hxb. exists x. split; [done|]. apply (fl_elem base heap0 Hbase Hheap0 Halign s L HL) in Hx as [->|Hx]; [done|]. by apply (block_first base heap0 Hbase Hheap0 Halign s).
Qed.

Lemma take_allocated s L P q x Q n : flist s L → L = P ++ q :: x :: Q → 1 ≤ n ≤ x.2 → allocated s L n (taken x n) (take_state s Q q x n) (take_list P Q q x n).
Proof.
  intros HL E Hn. destruct (tk_order s L P Q q x n HL E Hn) as (HP & Hqx & Hqx2 & HQ & _ & _). destruct (tk_block s L P Q q x n HL E Hn) as [Hbx Hxb].
  destruct (tk_cells s L P Q q x n HL E Hn) as (Hcq & Hcx & _). pose proof (take_inside s L P Q q x n HL E Hn) as Hin.
  assert (HqL : q ∈ L ∧ x ∈ L) by (rewrite E; set_solver). destruct HqL as [HqL HxL].
  constructor.
  - by apply (take_flist s L P Q q x n).
  - done.
  - done.
  - by apply (tk_taken_block s L P Q q x n).
  - unfold take_state. cbn. case_decide as Hx; [exists (haddr Q base)|eexists; by rewrite lookup_insert_eq].
    rewrite lookup_insert_ne by (unfold taken, UNIT; lia). unfold taken. replace (x.1 + UNIT * (x.2 - n)) with x.1 by lia. by rewrite Hcx, Hx.
  - intros u Hu. unfold take_list. rewrite in_free_app, in_free_cons. unfold inside, taken, UNIT in Hu. cbn in Hu.
    assert (HnQ : ¬ in_free Q u) by (intros (z & Hz & Hzu); specialize (HQ z Hz); unfold inside, UNIT in *; lia).
    intros [(z & Hz & Hzu)|[Hqu|Hw]]; [apply HP in Hz; unfold inside in Hzu; lia|unfold inside, UNIT in *; lia|]. unfold without in Hw. case_decide; [by apply HnQ|].
    apply in_free_cons in Hw as [Hw|Hw]; [|by apply HnQ]. unfold inside, UNIT in Hw. cbn in Hw. lia.
  - intros u. rewrite (Hin u). cbn. split; [by left|intros [?|?]; [done|lia]].
  - rewrite (take_total s L P Q q x n HL E Hn). cbn. lia.
  - intros a Hab Haf _. assert (Haq : a ≠ q.1) by (intros ->; apply Haf; by apply (listed_in_free s)). assert (Hax : a ≠ x.1) by (intros ->; apply Haf; by apply (listed_in_free s)).
    unfold take_state. cbn. case_decide; [by rewrite lookup_insert_ne|]. rewrite lookup_insert_ne; [by rewrite lookup_insert_ne|].
    intros <-. apply Haf. apply Hin. right. unfold inside, UNIT. cbn. lia.
Qed.

(** One round of the search: a block is taken, or none is large enough. *)
Lemma search s L X f Y n fuel : flist s L → L = X ++ f :: Y → freep s = f.1 → 1 ≤ n → (length L ≤ fuel)%nat →
  (∃ b s' L', malloc_loop fuel n f.1 (haddr Y base) s = Ok (b + UNIT, s') ∧ allocated s L n b s' L' ∧ brk s' = brk s) ∨
  ((∀ z, z ∈ L → z.2 < n) ∧ ∃ fuel', fuel = (length L + fuel')%nat ∧ malloc_loop fuel n f.1 (haddr Y base) s = miss fuel' n s).
Proof.
  intros HL E Hf Hn Hfuel. assert (Hlen : length L = S (length (Y ++ X))) by (rewrite E, !length_app; simpl; lia).
  assert (Hfirst : haddr ((Y ++ X) ++ [f]) (haddr Y base) = haddr Y base) by (by rewrite <-app_assoc, haddr_app, (round_base s L X Y f)).
  destruct (scan s f n (haddr Y base) Hf (Y ++ X) f.1 fuel) as [(C1 & x & C2 & EC & Hx & Er)|(Hall & fuel' & Ef & Er)].
  - by apply (round_chain s L X Y f).
  - by apply (round_other s L X Y f).
  - by apply (round_header s L X Y f).
  - lia.
  - left. destruct (round_split s L X Y f HL E Hf C1 x C2 EC ltac:(lia)) as (P & q & Q & EL & Eq & EQ). rewrite Hfirst, <-Eq, EQ in Er.
    exists (taken x n), (take_state s Q q x n), (take_list P Q q x n). split; [rewrite Er; by apply (take_run s L P Q q x n)|]. split; [by apply take_allocated|done].
  - right. rewrite Hfirst in Er. split; [|exists fuel'; split; [lia|done]]. intros z Hz. apply Hall. rewrite E in Hz. set_solver.
Qed.

(** [sbrk] of [nu] units and [free] of what it gives. *)
Lemma morecore_ok s L n (nu := Z.max n NALLOC) : flist s L → 1 ≤ n → UNIT * nu < BRKMAX → limit s ≤ BRKMAX →
  (morecore base heap0 n s = Ok (0, s) ∧ limit s < brk s + UNIT * nu) ∨
  (∃ s' L', morecore base heap0 n s = Ok (freep s', s') ∧ flist s' L' ∧ brk s' = brk s + UNIT * nu ∧ limit s' = limit s ∧
     (∀ u, in_free L' u ↔ in_free L u ∨ brk s ≤ u < brk s') ∧ total L' = total L + nu ∧ (∃ x, x ∈ L' ∧ n ≤ x.2) ∧ (length L' ≤ S (length L))%nat ∧
     (∀ a, a ≠ base → ¬ in_free L a → a < brk s → hdr s' !! a = hdr s !! a)).
Proof.
  intros HL Hn Hnu Hlim. unfold morecore. assert (Hmax : (if bool_decide (n < NALLOC) then NALLOC else n) = nu) by (unfold nu; case_bool_decide; lia). rewrite Hmax.
  pose proof (fl_brk _ _ _ _ HL) as [[Hb1 Hb2] Hb3]. unfold BRKMAX in *. assert (H1 : 1 ≤ nu) by lia.
  assert (Hi : i32 (nu * UNIT) = UNIT * nu) by (unfold i32, UNIT in *; rewrite Z.mod_small by lia; lia). rewrite Hi.
  destruct (decide (brk s + UNIT * nu ≤ limit s)) as [Hle|Hle].
  2:{ left. split; [|lia]. rewrite (bind_Ok_eq _ _ _ (-1) s); [done|]. unfold sbrk. rewrite bool_decide_true by (unfold UNIT in *; lia). by rewrite bool_decide_false. }
  right. rewrite (bind_Ok_eq _ _ _ (brk s) (set_brk (brk s + UNIT * nu) s)).
  2:{ unfold sbrk. rewrite bool_decide_true by (unfold UNIT in *; lia). by rewrite bool_decide_true. }
  rewrite bool_decide_false by (unfold UNIT in *; lia). set (s1 := set_brk (brk s + UNIT * nu) s).
  assert (Hblk : is_block s1 (brk s, nu)) by (repeat split; cbn; try done; lia).
  rewrite (bind_Ok_eq _ _ _ _ _ (store_size_ok base heap0 Hbase Hheap0 Halign s1 (brk s) nu (block_header base heap0 Hbase Hheap0 Halign s1 (brk s, nu) Hblk))).
  set (s2 := set_hdr _ s1). assert (HL2 : flist s2 L).
  { constructor; [|eapply seg_frame; [|exact (fl_chain _ _ _ _ HL)]|exact (fl_sorted _ _ _ _ HL)|exact (fl_freep _ _ _ _ HL)|].
    - destruct (fl_base _ _ _ _ HL) as (F & EF & HF). exists F. split; [done|]. eapply Forall_impl; [exact HF|]. intros x (? & ? & ? & ?). repeat split; try done. cbn. unfold UNIT in *. lia.
    - intros x Hx. cbn. rewrite lookup_insert_ne; [done|]. intros Heq. apply (fl_elem base heap0 Hbase Hheap0 Halign s L HL) in Hx as [->|(? & ? & ? & ?)]; [cbn in Heq; unfold UNIT in *; lia|unfold UNIT in *; lia].
    - cbn. split; [unfold UNIT, BRKMAX in *; lia|]. rewrite Z.mul_comm. by rewrite Z.mod_add by done. }
  destruct (free_ok base heap0 Hbase Hheap0 Halign s2 L (brk s) nu (default (0, 0) (hdr s1 !! brk s)).1 HL2) as (s3 & L3 & E3 & HL3 & Hbrk3 & Hlim3 & Hin3 & Htot3 & (x & Hx & Hxn) & Hlen3 & Hfr3).
  { exact Hblk. } { cbn. by rewrite lookup_insert_eq. }
  { intros u Hu Hf. apply (in_free_range base heap0 Hbase Hheap0 Halign s L HL) in Hf. unfold inside in Hu. cbn in Hu. lia. }
  exists s3, L3. rewrite (bind_Ok_eq _ _ _ _ _ E3). split; [done|]. split; [done|]. split; [by rewrite Hbrk3|]. split; [by rewrite Hlim3|].
  split; [|split; [done|split; [|split; [done|]]]].
  - intros u. rewrite Hin3, Hbrk3. unfold inside. cbn. tauto.
  - exists x. split; [done|]. lia.
  - intros a Hab Haf Hlt. rewrite Hfr3; [|done|done|lia]. cbn. by rewrite lookup_insert_ne by lia.
Qed.

Lemma fl_split s L : flist s L → ∃ X f Y, L = X ++ f :: Y ∧ freep s = f.1 ∧ hdr s !! f.1 = Some (haddr Y base, f.2) ∧ at_header base heap0 s f.1.
Proof.
  intros HL. pose proof (fl_freep _ _ _ _ HL) as (f & Ef & Hf)%list_elem_of_fmap. pose proof (fl_header base heap0 Hbase Hheap0 Halign s L HL f Hf) as Hh.
  apply list_elem_of_split in Hf as (X & Y & E). exists X, f, Y. split; [done|]. split; [done|]. split; [|done].
  pose proof (fl_chain _ _ _ _ HL) as Hc. rewrite E in Hc. by apply chain_app in Hc as (_ & Hc & _).
Qed.

(** [malloc_loop] from the free pointer, with fuel for two rounds. *)
Lemma malloc_loop_ok s L n X f Y fuel : flist s L → L = X ++ f :: Y → freep s = f.1 → 1 ≤ n → UNIT * Z.max n NALLOC < BRKMAX → limit s ≤ BRKMAX → (2 * length L + 1 < fuel)%nat →
  (malloc_loop fuel n f.1 (haddr Y base) s = Ok (0, s) ∧ (∀ z, z ∈ L → z.2 < n) ∧ limit s < brk s + UNIT * Z.max n NALLOC) ∨
  (∃ b s' L', malloc_loop fuel n f.1 (haddr Y base) s = Ok (b + UNIT, s') ∧ allocated s L n b s' L').
Proof.
  intros HL E Hf Hn Hnu Hlim Hfuel. destruct (search s L X f Y n fuel HL E Hf Hn ltac:(lia)) as [(b & s' & L' & Er & Ha & _)|(Hall & fuel' & Ef & Er)].
  { right. by exists b, s', L'. }
  rewrite Er. unfold miss. destruct (morecore_ok s L n HL Hn Hnu Hlim) as [[Em Hm]|(s1 & L1 & Em & HL1 & Hb1 & Hl1 & Hin1 & Ht1 & (x & Hx & Hxn) & Hlen1 & Hfr1)].
  { left. rewrite (bind_Ok_eq _ _ _ _ _ Em). by rewrite bool_decide_true by done. }
  right. rewrite (bind_Ok_eq _ _ _ _ _ Em). destruct (fl_split s1 L1 HL1) as (X1 & f1 & Y1 & E1 & Hf1 & Hc1 & Hh1). rewrite Hf1.
  assert (Hf10 : base ≤ f1.1) by (apply (fl_size base heap0 Hbase Hheap0 Halign s1 L1 HL1); rewrite E1; set_solver). rewrite bool_decide_false by lia.
  rewrite (bind_Ok_eq _ _ _ _ _ (load_ok base heap0 Hbase Hheap0 Halign s1 f1.1 _ Hh1 Hc1)). cbv iota beta.
  destruct (search s1 L1 X1 f1 Y1 n fuel' HL1 E1 Hf1 Hn ltac:(lia)) as [(b & s' & L' & Er1 & Ha & Hbs)|(Hall1 & _)].
  2:{ specialize (Hall1 x Hx). lia. }
  exists b, s', L'. split; [exact Er1|]. destruct Ha as [A1 A2 A3 A4 A5 A6 A7 A8 A9]. constructor; try done.
  - unfold NALLOC, UNIT in *. lia.
  - by rewrite A3.
  - intros u. rewrite A7, Hin1, Hbs. split; [intros [?|?]; [done|lia]|]. by left.
  - rewrite A8, Ht1, Hbs. lia.
  - intros a Hab Haf Hlt. rewrite A9; [by apply Hfr1|done| |unfold NALLOC, UNIT in *; lia]. rewrite Hin1. intros [?|?]; [done|lia].
Qed.

(** The first call of [malloc] makes the list of [base]. *)
Definition started (s : uheap) : Prop := freep s = 0 ∧ heap0 ≤ brk s ≤ BRKMAX ∧ brk s mod UNIT = 0.
Definition start_state (s : uheap) : uheap := set_freep base (set_hdr (<[base := (base, 0)]> (hdr s)) s).
Lemma start_flist s : started s → flist (start_state s) [(base, 0)].
Proof.
  intros (H1 & H2 & H3). constructor; cbn; [|split; [by rewrite lookup_insert_eq|done]|by repeat constructor|by left|done]. exists []. by split.
Qed.

Lemma malloc_from s L nbytes (n := units_of nbytes) : flist s L → 0 ≤ nbytes < BRKMAX - 2 * UNIT → limit s ≤ BRKMAX →
  ('(p, _) ← load (freep s); fuel ← gets rounds; malloc_loop fuel n (freep s) p) s = Ok (0, s) ∧ (∀ z, z ∈ L → z.2 < n) ∧ limit s < brk s + UNIT * Z.max n NALLOC ∨
  ∃ b s' L', ('(p, _) ← load (freep s); fuel ← gets rounds; malloc_loop fuel n (freep s) p) s = Ok (b + UNIT, s') ∧ allocated s L n b s' L'.
Proof.
  intros HL Hnb Hlim. destruct (fl_split s L HL) as (X & f & Y & E & Hf & Hc & Hh). rewrite Hf.
  assert (Hn : 1 ≤ n ∧ UNIT * n < BRKMAX).
  { unfold n, units_of, u32, BRKMAX, UNIT in *. assert (0 ≤ (nbytes + 16 - 1) / 16 < 2 ^ 27) by (split; [apply Z.div_pos; lia|apply Z.div_lt_upper_bound; lia]).
    rewrite Z.mod_small by lia. pose proof (Z.mul_div_le (nbytes + 16 - 1) 16 ltac:(lia)). lia. }
  rewrite !(bind_Ok_eq _ _ _ _ _ (load_ok base heap0 Hbase Hheap0 Halign s f.1 _ Hh Hc)). cbv iota beta. rewrite !(bind_Ok_eq _ _ _ (rounds s) s) by done.
  apply (malloc_loop_ok s L n X f Y); [done|done|done|lia|unfold NALLOC, UNIT, BRKMAX in *; lia|done|].
  pose proof (fl_length base heap0 Hbase Hheap0 Halign s L HL). unfold rounds. lia.
Qed.

(** [malloc]: null when no free block is large enough and the kernel refuses
    more, else the units after a header. *)
Lemma malloc_ok s L nbytes (n := units_of nbytes) : (flist s L ∨ started s ∧ L = []) → 0 ≤ nbytes < BRKMAX - 2 * UNIT → limit s ≤ BRKMAX →
  (∃ s' L', malloc base heap0 nbytes s = Ok (0, s') ∧ flist s' L' ∧ total L' = total L ∧ (∀ u, in_free L' u ↔ in_free L u) ∧ brk s' = brk s ∧ limit s' = limit s ∧
     (∀ a, a ≠ base → hdr s' !! a = hdr s !! a) ∧ (∀ z, z ∈ L → z.2 < n) ∧ limit s < brk s + UNIT * Z.max n NALLOC) ∨
  (∃ b s' L', malloc base heap0 nbytes s = Ok (b + UNIT, s') ∧ allocated s L n b s' L').
Proof.
  intros [HL|[Hs ->]] Hnb Hlim; unfold malloc; fold n; rewrite (bind_Ok_eq _ _ _ (freep s) s) by done.
  - assert (Hf0 : freep s ≠ 0). { destruct (fl_split s L HL) as (X & f & Y & E & -> & _). assert (base ≤ f.1) by (apply (fl_size base heap0 Hbase Hheap0 Halign s L HL); rewrite E; set_solver). lia. }
    rewrite bool_decide_false by done. rewrite (bind_Ok_eq _ _ _ (freep s) s) by done.
    destruct (malloc_from s L nbytes HL Hnb Hlim) as [(Er & Hall & Hm)|(b & s' & L' & Er & Ha)]; [left; exists s, L; done|right; by exists b, s', L'].
  - destruct Hs as (Hf0 & Hs). rewrite bool_decide_true by done.
    assert (Hinit : (store_ptr base heap0 base base ;; modify (set_freep base) ;; store_size base heap0 base 0 ;; mret base) s = Ok (base, start_state s)).
    { unfold store_ptr at 1. rewrite (bind_Ok_eq _ _ _ tt (set_hdr (<[base := (base, (default (0, 0) (hdr s !! base)).2)]> (hdr s)) s)).
      2:{ rewrite (bind_Ok_eq _ _ _ (default (0, 0) (hdr s !! base)) s); [by destruct (default (0, 0) (hdr s !! base))|]. unfold Malloc.load. rewrite decide_True; [done|by left]. }
      rewrite (bind_Ok_eq _ _ _ tt (set_freep base (set_hdr (<[base := (base, (default (0, 0) (hdr s !! base)).2)]> (hdr s)) s))) by done.
      rewrite (bind_Ok_eq _ _ _ _ _ (store_size_ok base heap0 Hbase Hheap0 Halign _ base 0 ltac:(by left))). cbn. rewrite lookup_insert_eq. cbn. by rewrite insert_insert_eq. }
    rewrite (bind_Ok_eq _ _ _ _ _ Hinit).
    assert (Hst : ∀ u, in_free [(base, 0)] u ↔ in_free [] u). { intros u. rewrite in_free_cons. unfold inside, UNIT. cbn. split; [intros [?|?]; [lia|done]|by right]. }
    destruct (malloc_from (start_state s) [(base, 0)] nbytes (start_flist s (conj Hf0 Hs)) Hnb Hlim) as [(Er & Hall & Hm)|(b & s' & L' & Er & Ha)]; [left|right].
    + exists (start_state s), [(base, 0)]. split; [exact Er|]. split; [by apply start_flist|]. split; [done|]. split; [exact Hst|]. split; [done|]. split; [done|].
      split; [intros a Ha; cbn; by rewrite lookup_insert_ne by done|]. split; [by intros z ?%elem_of_nil|exact Hm].
    + exists b, s', L'. split; [exact Er|]. destruct Ha as [A1 A2 A3 A4 A5 A6 A7 A8 A9]. constructor; try done.
      * intros u. etransitivity; [apply A7|]. by rewrite Hst.
      * intros a Hab Haf Hlt. rewrite A9; [cbn; by rewrite lookup_insert_ne by done|done|by rewrite Hst|done].
Qed.
End take.
