(* ===== verification/MallocClaims.v ===== *)
(** * Programs on the allocator

    Any sequence of calls of [malloc] and [free], with the program writing into its
    blocks, moving the break itself, and the kernel changing its mind about how
    much it gives. *)
From stdpp Require Import sorting.
From S2P Require Import Prelude Malloc MallocInv MallocOps.

Section system.
Context (base heap0 : Z) (Hbase : 0 < base) (Hheap0 : base + UNIT ≤ heap0) (Halign : heap0 mod UNIT = 0).
Local Abbreviation flist := (flist base heap0).
Local Abbreviation is_block := (is_block heap0).
Local Abbreviation started := (started heap0).

(** Memory, the blocks in use (their headers with their units), and the bytes that
    [malloc] got from the kernel. *)
Record mstate := mkms { ms_heap : uheap; ms_live : gmap Z Z; ms_got : Z }.

(** What a program may do: [malloc] of a size below 2^31 - 32, [free] of a block in
    use, writes into one, and [sbrk] by a multiple of 16, upwards. *)
Inductive mstep : mstate → mstate → Prop :=
  | step_malloc nbytes p s s' A G : 0 ≤ nbytes < BRKMAX - 2 * UNIT → malloc base heap0 nbytes s = Ok (p, s') → p ≠ 0 →
      mstep (mkms s A G) (mkms s' (<[p - UNIT := units_of nbytes]> A) (G + (brk s' - brk s)))
  | step_null nbytes s s' A G : 0 ≤ nbytes < BRKMAX - 2 * UNIT → malloc base heap0 nbytes s = Ok (0, s') →
      mstep (mkms s A G) (mkms s' A G)
  | step_free b n s s' A G : A !! b = Some n → free base heap0 (b + UNIT) s = Ok (tt, s') → mstep (mkms s A G) (mkms s' (delete b A) G)
  | step_write b n a v s A G : A !! b = Some n → b + UNIT ≤ a < b + UNIT * n → mstep (mkms s A G) (mkms (set_hdr (<[a := v]> (hdr s)) s) A G)
  | step_sbrk k s A G : 0 ≤ k → k mod UNIT = 0 → brk s + k ≤ limit s → mstep (mkms s A G) (mkms (set_brk (brk s + k) s) A G)
  | step_limit l s A G : l ≤ BRKMAX → mstep (mkms s A G) (mkms (set_limit l s) A G).

Inductive mreach (s0 : uheap) : mstate → Prop :=
  | mreach_start : mreach s0 (mkms s0 ∅ 0)
  | mreach_step t t' : mreach s0 t → mstep t t' → mreach s0 t'.

Definition sum (A : gmap Z Z) : Z := map_fold (λ _ n t, n + t) 0 A.
Lemma sum_insert A b n : A !! b = None → sum (<[b := n]> A) = n + sum A.
Proof. intros H. unfold sum. rewrite map_fold_insert_L; [done|intros; lia|done]. Qed.
Lemma sum_delete A b n : A !! b = Some n → sum A = n + sum (delete b A).
Proof. intros H. rewrite <-(insert_delete_id A b n H) at 1. by rewrite sum_insert by (by rewrite lookup_delete_eq). Qed.

(** The free list [L] and the blocks in use share the memory of [malloc]. *)
Record minv (t : mstate) (L : list block) : Prop := {
  mi_list : flist (ms_heap t) L ∨ started (ms_heap t) ∧ L = [] ∧ ms_live t = ∅;
  mi_limit : limit (ms_heap t) ≤ BRKMAX;
  mi_block b n : ms_live t !! b = Some n → is_block (ms_heap t) (b, n);
  mi_header b n : ms_live t !! b = Some n → ∃ q, hdr (ms_heap t) !! b = Some (q, n);
  mi_free b n u : ms_live t !! b = Some n → inside (b, n) u → ¬ in_free L u;
  mi_apart b n b' n' u : ms_live t !! b = Some n → ms_live t !! b' = Some n' → inside (b, n) u → inside (b', n') u → b = b';
  mi_got : ms_got t = UNIT * (total L + sum (ms_live t)) }.

Lemma is_block_mono s s' x : brk s ≤ brk s' → is_block s x → is_block s' x.
Proof. intros Hb (? & ? & ? & ?). repeat split; try done. lia. Qed.

Lemma first_in s b n : is_block s (b, n) → inside (b, n) b.
Proof. exact (block_first base heap0 Hbase Hheap0 Halign s (b, n)). Qed.

(** Addresses of a block in use are not headers of the free list. *)
Lemma live_below t L b n u : minv t L → ms_live t !! b = Some n → inside (b, n) u → base < u < brk (ms_heap t).
Proof. intros Hi Hb Hu. destruct (mi_block _ _ Hi b n Hb) as (? & ? & ? & ?). unfold inside in Hu. cbn in *. unfold UNIT in *. lia. Qed.

Lemma malloc_inv t L nbytes b s' L' (n := units_of nbytes) : minv t L → allocated base heap0 (ms_heap t) L n b s' L' →
  minv (mkms s' (<[b := n]> (ms_live t)) (ms_got t + (brk s' - brk (ms_heap t)))) L' ∧ ms_live t !! b = None.
Proof.
  intros Hi [A1 A2 A3 A4 A5 A6 A7 A8 A9].
  assert (Hnew : ∀ b' n' u, ms_live t !! b' = Some n' → inside (b', n') u → ¬ inside (b, n) u).
  { intros b' n' u Hb' Hu Hub. destruct (proj1 (A7 u) (or_intror Hub)) as [H|H]; [by apply (mi_free _ _ Hi b' n' u) in H|]. pose proof (live_below t L b' n' u Hi Hb' Hu). lia. }
  assert (Hnone : ms_live t !! b = None).
  { destruct (ms_live t !! b) as [n'|] eqn:Eb; [|done]. exfalso. apply (Hnew b n' b Eb); [apply (first_in _ _ _ (mi_block _ _ Hi b n' Eb))|by apply (first_in s')]. }
  split; [|done]. constructor; cbn [ms_heap ms_live ms_got].
  - by left.
  - rewrite A3. exact (mi_limit _ _ Hi).
  - intros b' n' [[<- <-]|[_ Hb']]%lookup_insert_Some; [done|]. eapply is_block_mono; [exact A2|exact (mi_block _ _ Hi b' n' Hb')].
  - intros b' n' [[<- <-]|[_ Hb']]%lookup_insert_Some; [done|]. pose proof (first_in _ _ _ (mi_block _ _ Hi b' n' Hb')) as Hin.
    rewrite A9; [exact (mi_header _ _ Hi b' n' Hb')| | |].
    + pose proof (live_below t L b' n' b' Hi Hb' Hin). lia.
    + exact (mi_free _ _ Hi b' n' b' Hb' Hin).
    + pose proof (live_below t L b' n' b' Hi Hb' Hin). lia.
  - intros b' n' u [[<- <-]|[_ Hb']]%lookup_insert_Some Hu; [by apply A6|]. intros Hf. destruct (proj1 (A7 u) (or_introl Hf)) as [H|H]; [by apply (mi_free _ _ Hi b' n' u) in H|].
    pose proof (live_below t L b' n' u Hi Hb' Hu). lia.
  - intros b1 n1 b2 n2 u [[<- <-]|[_ H1]]%lookup_insert_Some [[<- <-]|[_ H2]]%lookup_insert_Some Hu1 Hu2; [done| | |].
    + by apply (Hnew b2 n2 u) in Hu1.
    + by apply (Hnew b1 n1 u) in Hu2.
    + exact (mi_apart _ _ Hi b1 n1 b2 n2 u H1 H2 Hu1 Hu2).
  - rewrite sum_insert by done. rewrite (mi_got _ _ Hi). lia.
Qed.

Lemma free_inv t L b n : minv t L → ms_live t !! b = Some n →
  ∃ s' L', free base heap0 (b + UNIT) (ms_heap t) = Ok (tt, s') ∧ minv (mkms s' (delete b (ms_live t)) (ms_got t)) L'.
Proof.
  intros Hi Hb. pose proof (mi_block _ _ Hi b n Hb) as Hblk. destruct (mi_header _ _ Hi b n Hb) as [q Hh].
  destruct (mi_list _ _ Hi) as [HL|(_ & _ & Hno)]; [|by rewrite Hno, lookup_empty in Hb].
  destruct (free_ok base heap0 Hbase Hheap0 Halign (ms_heap t) L b n q HL Hblk Hh) as (s' & L' & E & HL' & Hbrk & Hlim & Hin & Htot & _ & _ & Hfr).
  { intros u Hu. exact (mi_free _ _ Hi b n u Hb Hu). }
  exists s', L'. split; [done|]. constructor; cbn [ms_heap ms_live ms_got].
  - by left.
  - rewrite Hlim. exact (mi_limit _ _ Hi).
  - intros b' n' [_ Hb']%lookup_delete_Some. eapply is_block_mono; [|exact (mi_block _ _ Hi b' n' Hb')]. lia.
  - intros b' n' [Hne Hb']%lookup_delete_Some. pose proof (first_in _ _ _ (mi_block _ _ Hi b' n' Hb')) as Hin'.
    rewrite Hfr; [exact (mi_header _ _ Hi b' n' Hb')| |exact (mi_free _ _ Hi b' n' b' Hb' Hin')|done]. pose proof (live_below t L b' n' b' Hi Hb' Hin'). lia.
  - intros b' n' u [Hne Hb']%lookup_delete_Some Hu. rewrite Hin. intros [H|H]; [by apply (mi_free _ _ Hi b' n' u) in H|]. apply Hne. exact (mi_apart _ _ Hi b n b' n' u Hb Hb' H Hu).
  - intros b1 n1 b2 n2 u [_ H1]%lookup_delete_Some [_ H2]%lookup_delete_Some. by apply (mi_apart _ _ Hi).
  - rewrite (mi_got _ _ Hi), (sum_delete _ _ _ Hb). lia.
Qed.

(** The program writes between the header and the end of a block. *)
Lemma write_inv t L b n a v : minv t L → ms_live t !! b = Some n → b + UNIT ≤ a < b + UNIT * n →
  minv (mkms (set_hdr (<[a := v]> (hdr (ms_heap t))) (ms_heap t)) (ms_live t) (ms_got t)) L.
Proof.
  intros Hi Hb Ha. assert (Hain : inside (b, n) a) by (unfold inside, UNIT in *; cbn; lia).
  assert (Hal : ∀ b' n', ms_live t !! b' = Some n' → b' ≠ a).
  { intros b' n' Hb' ->. pose proof (mi_apart _ _ Hi b n a n' a Hb Hb' Hain (first_in _ _ _ (mi_block _ _ Hi a n' Hb'))). unfold UNIT in *. lia. }
  constructor; cbn [ms_heap ms_live ms_got]; try apply Hi.
  - destruct (mi_list _ _ Hi) as [HL|(_ & _ & Hno)]; [left|by rewrite Hno, lookup_empty in Hb]. constructor; try apply HL. cbn. eapply seg_frame; [|exact (fl_chain _ _ _ _ HL)].
    intros x Hx. rewrite lookup_insert_ne; [done|]. intros ->. apply (mi_free _ _ Hi b n x.1 Hb Hain). apply (listed_in_free base heap0 Hbase Hheap0 Halign (ms_heap t)); [done|done|].
    pose proof (live_below t L b n x.1 Hi Hb Hain). lia.
  - intros b' n' Hb'. cbn. rewrite lookup_insert_ne by (by apply not_eq_sym, (Hal b' n')). exact (mi_header _ _ Hi b' n' Hb').
Qed.

Lemma flist_brk s b L : flist s L → brk s ≤ b ≤ BRKMAX → b mod UNIT = 0 → flist (set_brk b s) L.
Proof.
  intros HL Hb Hm. constructor; try apply HL.
  - destruct (fl_base _ _ _ _ HL) as (F & EF & HF). exists F. split; [done|]. eapply Forall_impl; [exact HF|]. intros x. apply is_block_mono. cbn. lia.
  - pose proof (fl_brk _ _ _ _ HL) as [? _]. cbn. split; [lia|done].
Qed.

Lemma step_inv t t' L : minv t L → mstep t t' → ∃ L', minv t' L'.
Proof.
  intros Hi Hs. destruct Hs as [nbytes p s s' A G Hn E Hp|nbytes s s' A G Hn E|b n s s' A G Hb E|b n a v s A G Hb Ha|k s A G Hk Hkm Hkl|l s A G Hl].
  - assert (HL : flist s L ∨ started s ∧ L = []) by (destruct (mi_list _ _ Hi) as [?|(? & ? & _)]; [by left|by right]).
    destruct (malloc_ok base heap0 Hbase Hheap0 Halign s L nbytes HL Hn (mi_limit _ _ Hi)) as [(s2 & L' & E2 & _)|(b & s2 & L' & E2 & Ha)]; rewrite E2 in E; injection E as <- <-; [done|].
    exists L'. replace (b + UNIT - UNIT) with b by lia. exact (proj1 (malloc_inv (mkms s A G) L nbytes b s2 L' Hi Ha)).
  - assert (HL : flist s L ∨ started s ∧ L = []) by (destruct (mi_list _ _ Hi) as [?|(? & ? & _)]; [by left|by right]).
    destruct (malloc_ok base heap0 Hbase Hheap0 Halign s L nbytes HL Hn (mi_limit _ _ Hi)) as [(s2 & L' & E2 & HL' & Ht & Hin & Hbrk & Hlim & Hfr & _)|(b & s2 & L' & E2 & Ha)]; rewrite E2 in E.
    2:{ injection E as E _. pose proof (al_block _ _ _ _ _ _ _ _ Ha) as (? & ? & _). cbn in *. unfold UNIT in *. lia. }
    injection E as <-. exists L'. constructor; cbn [ms_heap ms_live ms_got].
    + by left.
    + rewrite Hlim. exact (mi_limit _ _ Hi).
    + intros b n Hb. eapply is_block_mono; [|exact (mi_block _ _ Hi b n Hb)]. cbn. lia.
    + intros b n Hb. rewrite Hfr; [exact (mi_header _ _ Hi b n Hb)|]. pose proof (live_below _ L b n b Hi Hb (first_in _ _ _ (mi_block _ _ Hi b n Hb))). lia.
    + intros b n u Hb Hu. rewrite Hin. exact (mi_free _ _ Hi b n u Hb Hu).
    + exact (mi_apart _ _ Hi).
    + rewrite Ht. exact (mi_got _ _ Hi).
  - destruct (free_inv (mkms s A G) L b n Hi Hb) as (s2 & L' & E2 & Hi'). cbn [ms_heap] in E2. rewrite E2 in E. injection E as <-. by exists L'.
  - exists L. exact (write_inv (mkms s A G) L b n a v Hi Hb Ha).
  - exists L. pose proof (mi_limit _ _ Hi) as Hlim. cbn in Hlim. assert (Hmod : (brk s + k) mod UNIT = 0 ↔ brk s mod UNIT = 0).
    { rewrite <-Zplus_mod_idemp_r, Hkm, Z.add_0_r. done. }
    constructor; cbn [ms_heap ms_live ms_got]; try apply Hi.
    + destruct (mi_list _ _ Hi) as [HL|((H1 & H2 & H3) & HL & Hno)]; [left|right].
      * apply flist_brk; [done|lia|]. apply Hmod. exact (proj2 (fl_brk _ _ _ _ HL)).
      * split; [|done]. split; [done|]. cbn in *. split; [lia|]. by apply Hmod.
    + intros b n Hb. eapply is_block_mono; [|exact (mi_block _ _ Hi b n Hb)]. cbn. lia.
  - exists L. constructor; cbn [ms_heap ms_live ms_got]; try apply Hi; [|done].
    destruct (mi_list _ _ Hi) as [HL|HL]; [left|by right]. constructor; apply HL.
Qed.

Lemma start_inv s : started s → limit s ≤ BRKMAX → minv (mkms s ∅ 0) [].
Proof.
  intros Hs Hl. constructor; cbn [ms_heap ms_live ms_got]; [by right|done| | | | |done].
  - intros b n [=].
  - intros b n [=].
  - intros b n u [=].
  - intros b n b' n' u [=].
Qed.
Lemma mreach_inv s0 t : started s0 → limit s0 ≤ BRKMAX → mreach s0 t → ∃ L, minv t L.
Proof. intros Hs Hl. induction 1 as [|t t' _ [L Hi] Hst]; [exists []; by apply start_inv|by eapply step_inv]. Qed.

Lemma units_bytes nbytes : 0 ≤ nbytes < BRKMAX → nbytes ≤ UNIT * (units_of nbytes - 1) ∧ 1 ≤ units_of nbytes.
Proof.
  intros Hn. unfold units_of, u32, BRKMAX, UNIT in *. assert (0 ≤ (nbytes + 16 - 1) / 16 ≤ 2 ^ 28) by (split; [apply Z.div_pos; lia|apply Z.div_le_upper_bound; lia]).
  rewrite Z.mod_small by lia. pose proof (Z.div_mod (nbytes + 16 - 1) 16 ltac:(lia)). pose proof (Z.mod_pos_bound (nbytes + 16 - 1) 16 ltac:(lia)). lia.
Qed.
(** Blocks without a common address. *)
Definition apart (x y : block) : Prop := x.1 + UNIT * x.2 ≤ y.1 ∨ y.1 + UNIT * y.2 ≤ x.1.
Lemma points_apart s s' x y : is_block s x → is_block s' y → (∀ u, inside x u → ¬ inside y u) → apart x y.
Proof.
  intros (Hx & _) (Hy & _) H. unfold apart. destruct (decide (x.1 ≤ y.1)) as [Hle|Hle].
  - destruct (decide (x.1 + UNIT * x.2 ≤ y.1)) as [|Hn]; [by left|]. exfalso. apply (H y.1); unfold inside, UNIT in *; lia.
  - destruct (decide (y.1 + UNIT * y.2 ≤ x.1)) as [|Hn]; [by right|]. exfalso. apply (H x.1); unfold inside, UNIT in *; lia.
Qed.

(** C36: the allocator is correct in any program that keeps to three rules: it asks
    [malloc] for less than 2^31 - 32 bytes at a time, it frees only blocks in use, and
    its own calls of [sbrk] grow its memory by multiples of 16 bytes.  (The code
    checks none of them: a larger size wraps around, see [malloc_overflow], and
    another [sbrk] misaligns or takes away the memory of later blocks.)  Whatever
    the sequence of such calls, of writes into blocks in use and of changes of the
    kernel's limit: [malloc] returns; it returns null only when no free block is
    large enough and the kernel refuses to give more, else a multiple of 16 whose
    bytes lie inside the program's memory, in a block apart from all blocks in use
    and their headers; [free] of a block in use returns; blocks in use never overlap;
    the free list is sorted and has no two adjacent blocks; and no byte got from the
    kernel is lost. *)
Theorem malloc_correct s0 t :
  started s0 → limit s0 ≤ BRKMAX → mreach s0 t → ∃ L,
  (flist (ms_heap t) L ∨ started (ms_heap t) ∧ L = [] ∧ ms_live t = ∅) ∧ ms_got t = UNIT * (total L + sum (ms_live t)) ∧
  (∀ nbytes, 0 ≤ nbytes < BRKMAX - 2 * UNIT → ∃ p s', malloc base heap0 nbytes (ms_heap t) = Ok (p, s') ∧
     ((p = 0 ∧ (∀ x, x ∈ L → x.2 < units_of nbytes) ∧ limit (ms_heap t) < brk (ms_heap t) + UNIT * Z.max (units_of nbytes) NALLOC) ∨
      (p mod UNIT = 0 ∧ heap0 < p ∧ p + nbytes ≤ brk s' ∧ nbytes ≤ UNIT * (units_of nbytes - 1) ∧
       ∀ b n, ms_live t !! b = Some n → apart (p - UNIT, units_of nbytes) (b, n)))) ∧
  (∀ b n, ms_live t !! b = Some n → ∃ s', free base heap0 (b + UNIT) (ms_heap t) = Ok (tt, s')) ∧
  (∀ b n b' n', ms_live t !! b = Some n → ms_live t !! b' = Some n' → b ≠ b' → apart (b, n) (b', n')).
Proof.
  intros Hs Hl Hr. destruct (mreach_inv s0 t Hs Hl Hr) as [L Hi]. exists L. split; [exact (mi_list _ _ Hi)|]. split; [exact (mi_got _ _ Hi)|]. split; [|split].
  - intros nbytes Hn. assert (HL : flist (ms_heap t) L ∨ started (ms_heap t) ∧ L = []) by (destruct (mi_list _ _ Hi) as [?|(? & ? & _)]; [by left|by right]).
    destruct (units_bytes nbytes) as [Hub Hu1]; [unfold UNIT in *; lia|].
    destruct (malloc_ok base heap0 Hbase Hheap0 Halign (ms_heap t) L nbytes HL Hn (mi_limit _ _ Hi)) as [(s' & L' & E & _ & _ & _ & _ & _ & _ & Hall & Hlim)|(b & s' & L' & E & Ha)].
    + exists 0, s'. split; [done|]. by left.
    + exists (b + UNIT), s'. split; [done|]. right. destruct (malloc_inv t L nbytes b s' L' Hi Ha) as [Hi' Hnone]. pose proof (al_block _ _ _ _ _ _ _ _ Ha) as Hb.
      pose proof Hb as (_ & Hb2 & Hb3 & Hb4). cbn in Hb2, Hb3, Hb4. replace (b + UNIT - UNIT) with b by lia.
      split; [rewrite <-Zplus_mod_idemp_r, Z.mod_same, Z.add_0_r by done; done|]. split; [unfold UNIT in *; lia|]. split; [unfold UNIT in *; lia|]. split; [done|].
      intros b' n' Hb'. assert (Hne : b ≠ b') by (intros ->; congruence).
      apply (points_apart s' (ms_heap t) _ _ Hb (mi_block _ _ Hi b' n' Hb')). intros u Hu Hu'. apply Hne.
      apply (mi_apart _ _ Hi' b (units_of nbytes) b' n' u); cbn [ms_live]; [apply lookup_insert_eq|by rewrite lookup_insert_ne|done|done].
  - intros b n Hb. destruct (free_inv t L b n Hi Hb) as (s' & _ & E & _). by exists s'.
  - intros b n b' n' Hb Hb' Hne. apply (points_apart (ms_heap t) (ms_heap t)); [exact (mi_block _ _ Hi b n Hb)|exact (mi_block _ _ Hi b' n' Hb')|].
    intros u Hu Hu'. apply Hne. exact (mi_apart _ _ Hi b n b' n' u Hb Hb' Hu Hu').
Qed.
End system.

(** A program that starts with its break at one page. *)
Definition demo_heap : uheap := mkuheap ∅ 0 4096 (2 ^ 27).
(** Two blocks, the first freed: the next one is apart from the second. *)
Lemma malloc_correct_witness :
  ∃ s1 s2 s3 p q, malloc 2048 4096 100 demo_heap = Ok (p, s1) ∧ malloc 2048 4096 200 s1 = Ok (q, s2) ∧ free 2048 4096 p s2 = Ok (tt, s3) ∧
    ∃ r s4, malloc 2048 4096 5000 s3 = Ok (r, s4) ∧ apart (r - UNIT, 314) (q - UNIT, 14).
Proof.
  destruct (malloc 2048 4096 100 demo_heap) as [[p s1]| | |] eqn:E1; [|vm_compute in E1; discriminate E1..].
  destruct (malloc 2048 4096 200 s1) as [[q s2]| | |] eqn:E2; [|exfalso; vm_compute in E1; injection E1 as <- <-; vm_compute in E2; discriminate E2..].
  destruct (free 2048 4096 p s2) as [[[] s3]| | |] eqn:E3; [|exfalso; vm_compute in E1; injection E1 as <- <-; vm_compute in E2; injection E2 as <- <-; vm_compute in E3; discriminate E3..].
  assert (Hp : p = 69520 ∧ q = 69296) by (vm_compute in E1; injection E1 as <- <-; vm_compute in E2; by injection E2 as <- _). destruct Hp as [-> ->].
  exists s1, s2, s3, 69520, 69296. split; [done|]. split; [done|]. split; [done|].
  pose proof (mreach_start 2048 4096 demo_heap) as R0.
  pose proof (mreach_step _ _ _ _ _ R0 (step_malloc 2048 4096 100 69520 demo_heap s1 ∅ 0 ltac:(unfold BRKMAX, UNIT; lia) E1 ltac:(done))) as R1.
  pose proof (mreach_step _ _ _ _ _ R1 (step_malloc 2048 4096 200 69296 s1 s2 _ _ ltac:(unfold BRKMAX, UNIT; lia) E2 ltac:(done))) as R2.
  assert (Hlive : (<[69296 - UNIT := units_of 200]> (<[69520 - UNIT := units_of 100]> ∅) : gmap Z Z) !! 69504 = Some 8) by (vm_compute; reflexivity).
  pose proof (mreach_step _ _ _ _ _ R2 (step_free 2048 4096 69504 8 s2 s3 _ _ Hlive E3)) as R3.
  destruct (malloc_correct 2048 4096 ltac:(lia) ltac:(unfold UNIT; lia) ltac:(done) demo_heap _ ltac:(unfold started, BRKMAX; cbn; split; [done|split; [lia|done]]) ltac:(unfold BRKMAX; cbn; lia) R3) as (L & _ & _ & Hm & _).
  destruct (Hm 5000 ltac:(unfold BRKMAX, UNIT; lia)) as (r & s4 & E4 & [(_ & _ & Hlim)|(_ & _ & _ & _ & Ha)]).
  - exfalso. vm_compute in E1. injection E1 as <-. vm_compute in E2. injection E2 as <-. vm_compute in E3. injection E3 as <-. vm_compute in Hlim. discriminate Hlim.
  - exists r, s4. split; [exact E4|]. apply (Ha (69296 - UNIT) 14). vm_compute. reflexivity.
Defined.

(** A size near 4 GB: the product of the units with 16 does not fit the int of
    [sbrk], which gets 16 bytes, and [malloc] returns the address after them. *)
Example malloc_overflow : ∃ s, malloc 2048 4096 (2 ^ 32 - 15) demo_heap = Ok (4112, s) ∧ brk s = 4112.
Proof. eexists. split; [vm_compute; reflexivity|reflexivity]. Qed.
