(* ===== verification/Virtio.v ===== *)
(** * The disk driver: kernel/virtio_disk.c

    The driver shares three arrays with the device: descriptors, the ring of
    requests that it makes available, and the ring of requests that the device has
    used.  [virtio_disk_rw] runs up to the point where it returns or sleeps
    ([VSleepFree], [VSleepBuf]); the spin lock is held from its start, or from its
    waking, to that point.  A pointer that the device follows is a [dptr]; a
    [struct buf *] is an index into the buffers.  The device's registers are the
    class [VirtioRegs]. *)
From S2P Require Import Prelude Layout Spinlock Sleeplock.

Definition NUM : nat := 8.
Definition BSIZE : Z := 1024.
Definition VRING_DESC_F_NEXT : Z := 1.
Definition VRING_DESC_F_WRITE : Z := 2.
Definition VIRTIO_BLK_T_IN : Z := 0.
Definition VIRTIO_BLK_T_OUT : Z := 1.

(** Null, a request header, the data of a buffer, a status byte. *)
Inductive dptr := DNull | DReq (i : nat) | DData (b : nat) | DStatus (i : nat).
(** [struct virtq_desc], [struct virtio_blk_req], [disk.info], and the part of
    [struct buf] that the driver uses. *)
Record vdesc := mkdesc { d_addr : dptr; d_len : Z; d_flags : Z; d_next : Z }.
Record vreq := mkreq { q_type : Z; q_reserved : Z; q_sector : Z }.
Record vinfo := mkinfo { i_b : option nat; i_status : Z }.
Record vbuf := mkvbuf { vb_blockno : Z; vb_data : list Z; vb_disk : Z }.

Inductive vchan := ChFree | ChBuf (b : nat).

Class VirtioRegs (E : Type) := {
  vr_read : Z → E → Z * E;
  vr_write : Z → Z → E → E;
  vr_kalloc : E → Z * E }.   (** [kalloc()] *)

(** [disk], the buffers, and the channels that were woken. *)
Record vdisk (E : Type) := mkvd {
  v_desc : list vdesc; v_avail : list Z; v_avail_idx : Z; v_used : list Z; v_uidx : Z;
  v_free : list Z; v_used_idx : Z; v_info : list vinfo; v_ops : list vreq;
  v_buf : list vbuf; v_wakes : list vchan; v_regs : E }.
Arguments mkvd {E}. Arguments v_desc {E}. Arguments v_avail {E}. Arguments v_avail_idx {E}. Arguments v_used {E}. Arguments v_uidx {E}.
Arguments v_free {E}. Arguments v_used_idx {E}. Arguments v_info {E}. Arguments v_ops {E}. Arguments v_buf {E}. Arguments v_wakes {E}. Arguments v_regs {E}.

Section virtio_c.
Context {E : Type} `{!VirtioRegs E}.
Abbreviation V := (vdisk E).

Definition w_desc (x : list vdesc) (s : V) : V := mkvd x (v_avail s) (v_avail_idx s) (v_used s) (v_uidx s) (v_free s) (v_used_idx s) (v_info s) (v_ops s) (v_buf s) (v_wakes s) (v_regs s).
Definition w_avail (x : list Z) (i : Z) (s : V) : V := mkvd (v_desc s) x i (v_used s) (v_uidx s) (v_free s) (v_used_idx s) (v_info s) (v_ops s) (v_buf s) (v_wakes s) (v_regs s).
Definition w_used (x : list Z) (i : Z) (s : V) : V := mkvd (v_desc s) (v_avail s) (v_avail_idx s) x i (v_free s) (v_used_idx s) (v_info s) (v_ops s) (v_buf s) (v_wakes s) (v_regs s).
Definition w_free (x : list Z) (s : V) : V := mkvd (v_desc s) (v_avail s) (v_avail_idx s) (v_used s) (v_uidx s) x (v_used_idx s) (v_info s) (v_ops s) (v_buf s) (v_wakes s) (v_regs s).
Definition w_used_idx (x : Z) (s : V) : V := mkvd (v_desc s) (v_avail s) (v_avail_idx s) (v_used s) (v_uidx s) (v_free s) x (v_info s) (v_ops s) (v_buf s) (v_wakes s) (v_regs s).
Definition w_info (x : list vinfo) (s : V) : V := mkvd (v_desc s) (v_avail s) (v_avail_idx s) (v_used s) (v_uidx s) (v_free s) (v_used_idx s) x (v_ops s) (v_buf s) (v_wakes s) (v_regs s).
Definition w_ops (x : list vreq) (s : V) : V := mkvd (v_desc s) (v_avail s) (v_avail_idx s) (v_used s) (v_uidx s) (v_free s) (v_used_idx s) (v_info s) x (v_buf s) (v_wakes s) (v_regs s).
Definition w_buf (x : list vbuf) (s : V) : V := mkvd (v_desc s) (v_avail s) (v_avail_idx s) (v_used s) (v_uidx s) (v_free s) (v_used_idx s) (v_info s) (v_ops s) x (v_wakes s) (v_regs s).
Definition w_wakes (x : list vchan) (s : V) : V := mkvd (v_desc s) (v_avail s) (v_avail_idx s) (v_used s) (v_uidx s) (v_free s) (v_used_idx s) (v_info s) (v_ops s) (v_buf s) x (v_regs s).
Definition w_regs (x : E) (s : V) : V := mkvd (v_desc s) (v_avail s) (v_avail_idx s) (v_used s) (v_uidx s) (v_free s) (v_used_idx s) (v_info s) (v_ops s) (v_buf s) (v_wakes s) x.

(** Access to an array of the driver. *)
Definition arr_get {A} (f : V → list A) (i : nat) : M V A := λ s, match f s !! i with Some x => Ok (x, s) | None => Fault end.
Definition arr_set {A} (f : V → list A) (w : list A → V → V) (i : nat) (x : A) : M V unit := λ s,
  match f s !! i with Some _ => Ok (tt, w (<[i := x]> (f s)) s) | None => Fault end.
Definition get_desc := arr_get v_desc.
Definition set_desc := arr_set v_desc w_desc.
Definition get_free := arr_get v_free.
Definition set_free := arr_set v_free w_free.
Definition get_info := arr_get v_info.
Definition set_info := arr_set v_info w_info.
Definition set_op := arr_set v_ops w_ops.
Definition get_buf := arr_get v_buf.
Definition set_buf := arr_set v_buf w_buf.

(** Registers: [*R(r)] and [*R(r) = v], 32 bits wide. *)
Definition rd_reg (r : Z) : M V Z := λ s, let '(v, e) := vr_read r (v_regs s) in Ok (v, w_regs e s).
Definition wr_reg (r v : Z) : M V unit := λ s, Ok (tt, w_regs (vr_write r (u32 v) (v_regs s)) s).
Definition wakeup_on (c : vchan) : M V unit := λ s, Ok (tt, w_wakes (v_wakes s ++ [c]) s).

(** ** Descriptors *)

Fixpoint alloc_desc_from (k i : nat) : M V (option nat) :=
  match k with
  | O => mret None
  | S k =>
      f ← get_free i;
      if bool_decide (f ≠ 0) then set_free i 0 ;; mret (Some i) else alloc_desc_from k (S i)
  end.
Definition alloc_desc : M V (option nat) := alloc_desc_from NUM 0.

Definition free_desc (i : nat) : M V unit :=
  if bool_decide (NUM ≤ i)%nat then panic "free_desc 1"
  else
    f ← get_free i;
    if bool_decide (f ≠ 0) then panic "free_desc 2"
    else
      set_desc i (mkdesc DNull 0 0 0) ;;
      set_free i 1 ;;
      wakeup_on ChFree.

Fixpoint free_chain (fuel : nat) (i : nat) : M V unit :=
  match fuel with
  | O => hang
  | S fuel =>
      d ← get_desc i;
      free_desc i ;;
      if bool_decide (Z.land (d_flags d) VRING_DESC_F_NEXT ≠ 0) then free_chain fuel (Z.to_nat (d_next d))
      else mret tt
  end.

(** [idx] are the descriptors got so far. *)
Fixpoint alloc3_from (k : nat) (idx : list nat) : M V (option (list nat)) :=
  match k with
  | O => mret (Some idx)
  | S k =>
      d ← alloc_desc;
      match d with
      | None => forM idx free_desc ;; mret None
      | Some d => alloc3_from k (idx ++ [d])
      end
  end.
Definition alloc3_desc : M V (option (list nat)) := alloc3_from 3 [].

(** ** [virtio_disk_rw] *)

Inductive vresult := VDone | VSleepFree | VSleepBuf (i0 i1 i2 : nat).

Definition VIRTIO_MMIO_QUEUE_NOTIFY : Z := 80.
(** From the formatting of the descriptors to the notification: the stores in the
    order of the code, one entry for the assignments to one element.  The device
    runs on its own between any two of them. *)
Definition submit_stores (b : nat) (x : vbuf) (write : bool) (i0 i1 i2 : nat) : list (M V unit) :=
  let sector := u32 (vb_blockno x * (BSIZE / 512)) in
  [ set_op i0 (mkreq (if write then VIRTIO_BLK_T_OUT else VIRTIO_BLK_T_IN) 0 sector);
    set_desc i0 (mkdesc (DReq i0) 16 VRING_DESC_F_NEXT (Z.of_nat i1));
    set_desc i1 (mkdesc (DData b) BSIZE (Z.lor (if write then 0 else VRING_DESC_F_WRITE) VRING_DESC_F_NEXT) (Z.of_nat i2));
    (inf ← get_info i0; set_info i0 (mkinfo (i_b inf) 255));
    set_desc i2 (mkdesc (DStatus i0) 1 VRING_DESC_F_WRITE 0);
    set_buf b (mkvbuf (vb_blockno x) (vb_data x) 1);
    set_info i0 (mkinfo (Some b) 255);
    (n ← gets v_avail_idx; arr_set v_avail (λ r s, w_avail r (v_avail_idx s) s) (Z.to_nat (n mod Z.of_nat NUM)) (Z.of_nat i0));
    modify (λ s, w_avail (v_avail s) (u16 (v_avail_idx s + 1)) s);
    wr_reg VIRTIO_MMIO_QUEUE_NOTIFY 0 ].
Fixpoint do_all (l : list (M V unit)) : M V unit :=
  match l with [] => mret tt | m :: l => m ;; do_all l end.
Definition submit (b : nat) (write : bool) (i0 i1 i2 : nat) : M V unit :=
  x ← get_buf b; do_all (submit_stores b x write i0 i1 i2).

(** [while(b->disk == 1)] and what follows it. *)
Definition rw_wait (b i0 i1 i2 : nat) : M V vresult :=
  x ← get_buf b;
  if bool_decide (vb_disk x = 1) then mret (VSleepBuf i0 i1 i2)
  else
    inf ← get_info i0;
    set_info i0 (mkinfo None (i_status inf)) ;;
    free_chain (S NUM) i0 ;;
    mret VDone.
(** The loop around [alloc3_desc], from its head. *)
Definition rw_alloc (b : nat) (write : bool) : M V vresult :=
  idx ← alloc3_desc;
  match idx with
  | Some [i0; i1; i2] => submit b write i0 i1 i2 ;; rw_wait b i0 i1 i2
  | _ => mret VSleepFree
  end.

(** ** [virtio_disk_intr] *)

Definition VIRTIO_MMIO_INTERRUPT_STATUS : Z := 96.
Definition VIRTIO_MMIO_INTERRUPT_ACK : Z := 100.
Fixpoint intr_loop (fuel : nat) : M V unit :=
  match fuel with
  | O => hang
  | S fuel =>
      n ← gets v_used_idx;
      m ← gets v_uidx;
      if bool_decide (n = m) then mret tt
      else
        id ← arr_get v_used (Z.to_nat (n mod Z.of_nat NUM));
        inf ← get_info (Z.to_nat id);
        if bool_decide (i_status inf ≠ 0) then panic "virtio_disk_intr status"
        else
          match i_b inf with
          | None => fault
          | Some b =>
              x ← get_buf b;
              set_buf b (mkvbuf (vb_blockno x) (vb_data x) 0) ;;
              wakeup_on (ChBuf b) ;;
              modify (λ s, w_used_idx (u16 (v_used_idx s + 1)) s) ;;
              intr_loop fuel
          end
  end.
(** As many rounds as the two counters differ. *)
Definition intr_body : M V unit :=
  st ← rd_reg VIRTIO_MMIO_INTERRUPT_STATUS;
  wr_reg VIRTIO_MMIO_INTERRUPT_ACK (Z.land st 3) ;;
  k ← gets (λ s, u16 (v_uidx s - v_used_idx s));
  intr_loop (S (Z.to_nat k)).

(** ** [virtio_disk_init], after [initlock] *)

Definition kallocV : M V Z := λ s, let '(p, e) := vr_kalloc (v_regs s) in Ok (p, w_regs e s).
Definition desc0 : vdesc := mkdesc DNull 0 0 0.
(** [features &= ~(1 << bit)] for the seven bits the driver does not want. *)
Definition FEATURES_OFF : list Z := [5; 7; 11; 12; 27; 29; 28].
Definition drop_features (f : Z) : Z := foldl (λ f b, Z.land f (Z.lnot (Z.shiftl 1 b))) f FEATURES_OFF.
Definition init_body : M V unit :=
  magic ← rd_reg 0;
  version ← rd_reg 4;
  device ← rd_reg 8;
  vendor ← rd_reg 12;
  if bool_decide (magic ≠ 0x74726976) || bool_decide (version ≠ 2) || bool_decide (device ≠ 2) || bool_decide (vendor ≠ 0x554d4551)
  then panic "could not find virtio disk"
  else
    wr_reg 112 0 ;;
    wr_reg 112 1 ;;
    wr_reg 112 3 ;;
    features ← rd_reg 16;
    wr_reg 32 (drop_features features) ;;
    wr_reg 112 11 ;;
    status ← rd_reg 112;
    if bool_decide (Z.land status 8 = 0) then panic "virtio disk FEATURES_OK unset"
    else
      wr_reg 48 0 ;;
      ready ← rd_reg 68;
      if bool_decide (ready ≠ 0) then panic "virtio disk should not be ready"
      else
        max ← rd_reg 52;
        if bool_decide (max = 0) then panic "virtio disk has no queue 0"
        else if bool_decide (max < Z.of_nat NUM) then panic "virtio disk max queue too short"
        else
          pdesc ← kallocV;
          pavail ← kallocV;
          pused ← kallocV;
          if bool_decide (pdesc = 0) || bool_decide (pavail = 0) || bool_decide (pused = 0) then panic "virtio disk kalloc"
          else
            modify (w_desc (replicate NUM desc0)) ;;
            modify (w_avail (replicate NUM 0) 0) ;;
            modify (w_used (replicate NUM 0) 0) ;;
            wr_reg 56 (Z.of_nat NUM) ;;
            wr_reg 128 pdesc ;; wr_reg 132 (Z.shiftr pdesc 32) ;;
            wr_reg 144 pavail ;; wr_reg 148 (Z.shiftr pavail 32) ;;
            wr_reg 160 pused ;; wr_reg 164 (Z.shiftr pused 32) ;;
            wr_reg 68 1 ;;
            forM (seq 0 NUM) (λ i, set_free i 1) ;;
            wr_reg 112 (Z.lor status 4).
End virtio_c.

(** ** The lock *)

Record vst (E : Type) := mkvst { v_lock : spinlock; v_hart : hart; v_disk : vdisk E }.
Arguments mkvst {E}. Arguments v_lock {E}. Arguments v_hart {E}. Arguments v_disk {E}.
#[export] Instance virtio_locks E : HasLocks (vst E) unit := {
  get_hart := v_hart; set_hart h s := mkvst (v_lock s) h (v_disk s);
  get_lock _ := v_lock; set_lock _ l s := mkvst l (v_hart s) (v_disk s) }.

Section locked.
Context {E : Type} `{!VirtioRegs E}.

Definition inV {A} (m : M (vdisk E) A) : M (vst E) A := λ s,
  match m (v_disk s) with
  | Ok (a, d) => Ok (a, mkvst (v_lock s) (v_hart s) d)
  | Panic e => Panic e
  | Fault => Fault
  | Hang => Hang
  end.
(** [acquire], the body, and [release] or the [release] in [sleep]. *)
Definition locked {A} (m : M (vdisk E) A) : M (vst E) A := acquireM tt ;; r ← inV m; releaseM tt ;; mret r.

(** [virtio_disk_rw] from its start or after it slept on [disk.free], and after it
    slept on its buffer. *)
Definition virtio_disk_rw (b : nat) (write : bool) : M (vst E) vresult := locked (rw_alloc b write).
Definition rw_resume (b i0 i1 i2 : nat) : M (vst E) vresult := locked (rw_wait b i0 i1 i2).
Definition virtio_disk_intr : M (vst E) unit := locked intr_body.

Definition virtio_disk_init : M (vst E) unit :=
  modify (set_lock tt (initlock "virtio_disk")) ;;
  inV init_body.
End locked.
