(* ===== verification/VirtioInv.v ===== *)
(** * Processes, the driver and the device

    Any number of processes in [virtio_disk_rw], interrupts, and a device that
    works on its own.  [abstract] below is what the buffer cache assumes of
    [virtio_disk_rw]: one transfer of one block. *)
From S2P Require Import Prelude Layout Spinlock Sleeplock ByteRing Virtio.

(** Where a process is that has entered [virtio_disk_rw]: asleep on [disk.free] or
    on its buffer, with its [idx] array; [woken] once it may run again.  [served]
    is set when the device completes the request. *)
Inductive phase :=
  | WaitFree (b : nat) (write : bool) (woken : bool)
  | WaitBuf (b : nat) (write : bool) (i0 i1 i2 : nat) (served : bool) (woken : bool).
Definition phase_buf (x : phase) : nat := match x with WaitFree b _ _ | WaitBuf b _ _ _ _ _ _ => b end.

(** The driver, the blocks of the disk, and the device: the requests it has seen
    of the available ring, and those it works on. *)
Record sys (E : Type) := mksys {
  s_drv : vst E; s_disk : gmap Z (list Z); s_seen : Z; s_busy : list nat; s_procs : gmap nat phase }.
Arguments mksys {E}. Arguments s_drv {E}. Arguments s_disk {E}. Arguments s_seen {E}. Arguments s_busy {E}. Arguments s_procs {E}.

#[export] Instance vchan_eq_dec : EqDecision vchan.
Proof. solve_decision. Defined.

Section sys.
Context {E : Type} `{!VirtioRegs E}.
Abbreviation V := (vdisk E).

(** ** The device, as its specification says *)

(** It takes the next request of the available ring. *)
Definition dev_take (s : V) (seen : Z) : option (nat * Z) :=
  if decide (seen = v_avail_idx s) then None
  else id ← v_avail s !! Z.to_nat (seen mod Z.of_nat NUM); Some (Z.to_nat id, u16 (seen + 1)).

Definition block_at (disk : gmap Z (list Z)) (b : Z) : list Z := default (replicate (Z.to_nat BSIZE) 0) (disk !! b).
(** The end of a request: the status, and the request on the used ring. *)
Definition dev_report (s : V) (bufs : list vbuf) (id st : nat) (status : Z) : option V :=
  inf ← v_info s !! st;
  let k := Z.to_nat (v_uidx s mod Z.of_nat NUM) in
  _ ← v_used s !! k;
  Some (w_used (<[k := Z.of_nat id]> (v_used s)) (u16 (v_uidx s + 1)) (w_info (<[st := mkinfo (i_b inf) status]> (v_info s)) (w_buf bufs s))).
(** A finished transfer: status 0. *)
Definition dev_finish (s : V) (bufs : list vbuf) (id st : nat) : option V := dev_report s bufs id st 0.
(** A transfer that failed: another status, and anything in the buffer. *)
Definition dev_fail (s : V) (id : nat) (status : Z) (data : list Z) : option V :=
  d0 ← v_desc s !! id;
  d1 ← v_desc s !! Z.to_nat (d_next d0);
  d2 ← v_desc s !! Z.to_nat (d_next d1);
  match d_addr d1, d_addr d2 with
  | DData b, DStatus st =>
      x ← v_buf s !! b; dev_report s (<[b := mkvbuf (vb_blockno x) data (vb_disk x)]> (v_buf s)) id st status
  | _, _ => None
  end.
(** It follows the chain from descriptor [id] and transfers one block, between the
    disk and the buffer that the second descriptor points to. *)
Definition dev_complete (s : V) (disk : gmap Z (list Z)) (id : nat) : option (V * gmap Z (list Z)) :=
  d0 ← v_desc s !! id;
  match d0 with
  | mkdesc (DReq r) 16 1 n1 =>
      q ← v_ops s !! r;
      d1 ← v_desc s !! Z.to_nat n1;
      match d1 with
      | mkdesc (DData b) 1024 fl n2 =>
          d2 ← v_desc s !! Z.to_nat n2;
          x ← v_buf s !! b;
          match d2 with
          | mkdesc (DStatus st) 1 2 _ =>
              if decide (q_sector q mod 2 = 0) then
                if decide (q_type q = VIRTIO_BLK_T_OUT ∧ fl = 1) then
                  s' ← dev_finish s (v_buf s) id st; Some (s', <[q_sector q / 2 := vb_data x]> disk)
                else if decide (q_type q = VIRTIO_BLK_T_IN ∧ fl = 3) then
                  s' ← dev_finish s (<[b := mkvbuf (vb_blockno x) (block_at disk (q_sector q / 2)) (vb_disk x)]> (v_buf s)) id st; Some (s', disk)
                else None
              else None
          | _ => None
          end
      | _ => None
      end
  | _ => None
  end.

Definition served (id : nat) (x : phase) : phase :=
  match x with WaitBuf b w i0 i1 i2 sv wk => WaitBuf b w i0 i1 i2 (sv || bool_decide (i0 = id)) wk | _ => x end.
(** It takes requests in any number and finishes them in any order.  (It may fail
    one, too: then the next interrupt panics, see [fails_badly] in VirtioClaims.v.) *)
Inductive documented : sys E → sys E → Prop :=
  | doc_take lk h v disk seen busy procs id seen' : dev_take v seen = Some (id, seen') →
      documented (mksys (mkvst lk h v) disk seen busy procs) (mksys (mkvst lk h v) disk seen' (busy ++ [id]) procs)
  | doc_complete lk h v disk seen l1 id l2 procs v' disk' : dev_complete v disk id = Some (v', disk') →
      documented (mksys (mkvst lk h v) disk seen (l1 ++ id :: l2) procs) (mksys (mkvst lk h v') disk' seen (l1 ++ l2) (served id <$> procs)).

(** ** The system *)

(** [wakeup] of the channels [cs]: sleepers on them may run. *)
Definition woken_by (cs : list vchan) (x : phase) : phase :=
  match x with
  | WaitFree b w wk => WaitFree b w (wk || bool_decide (ChFree ∈ cs))
  | WaitBuf b w i0 i1 i2 sv wk => WaitBuf b w i0 i1 i2 sv (wk || bool_decide (ChBuf b ∈ cs))
  end.
(** A handler from state [d]: its result, and the sleepers it woke among [procs]. *)
Definition runs {A} (m : M (vst E) A) (d : vst E) (a : A) (d' : vst E) (procs procs' : gmap nat phase) : Prop :=
  ∃ d1, m (mkvst (v_lock d) (v_hart d) (w_wakes [] (v_disk d))) = Ok (a, d1) ∧
    d' = mkvst (v_lock d1) (v_hart d1) (w_wakes [] (v_disk d1)) ∧ procs' = woken_by (v_wakes (v_disk d1)) <$> procs.

(** Where the caller is after its handler. *)
Definition after (p b : nat) (w sv : bool) (r : vresult) (procs : gmap nat phase) : gmap nat phase :=
  match r with
  | VDone => procs
  | VSleepFree => <[p := WaitFree b w false]> procs
  | VSleepBuf i0 i1 i2 => <[p := WaitBuf b w i0 i1 i2 sv false]> procs
  end.
Definition buf_ok (x : vbuf) : Prop := 0 ≤ vb_blockno x < 2 ^ 31 ∧ Z.of_nat (length (vb_data x)) = BSIZE.
(** No process is inside with buffer [b]; the caller holds its sleep lock. *)
Definition idle (procs : gmap nat phase) (b : nat) : Prop := ∀ q x, procs !! q = Some x → phase_buf x ≠ b.
Definition put_buf (b : nat) (x : vbuf) (d : vst E) : vst E := mkvst (v_lock d) (v_hart d) (w_buf (<[b := x]> (v_buf (v_disk d))) (v_disk d)).

Inductive vstep (device : sys E → sys E → Prop) : sys E → sys E → Prop :=
  | st_call p b w r d d' disk seen busy procs procs' : procs !! p = None → idle procs b → is_Some (v_buf (v_disk d) !! b) →
      runs (virtio_disk_rw b w) d r d' procs procs' →
      vstep device (mksys d disk seen busy procs) (mksys d' disk seen busy (after p b w false r procs'))
  | st_retry p b w r d d' disk seen busy procs procs' : procs !! p = Some (WaitFree b w true) →
      runs (virtio_disk_rw b w) d r d' (delete p procs) procs' →
      vstep device (mksys d disk seen busy procs) (mksys d' disk seen busy (after p b w false r procs'))
  | st_resume p b w i0 i1 i2 sv r d d' disk seen busy procs procs' : procs !! p = Some (WaitBuf b w i0 i1 i2 sv true) →
      runs (rw_resume b i0 i1 i2) d r d' (delete p procs) procs' →
      vstep device (mksys d disk seen busy procs) (mksys d' disk seen busy (after p b w sv r procs'))
  | st_intr d d' disk seen busy procs procs' : runs virtio_disk_intr d tt d' procs procs' →
      vstep device (mksys d disk seen busy procs) (mksys d' disk seen busy procs')
  | st_device s s' : device s s' → vstep device s s'
  | st_owner b x d disk seen busy procs : idle procs b → buf_ok x → vb_disk x = 0 →
      vstep device (mksys d disk seen busy procs) (mksys (put_buf b x d) disk seen busy procs).

(** ** What a disk promises *)

Record abstract := mkabs { a_disk : gmap Z (list Z); a_buf : list (Z * list Z); a_reqs : gmap nat (nat * bool * bool) }.
Definition a_idle (reqs : gmap nat (nat * bool * bool)) (b : nat) : Prop := ∀ q x, reqs !! q = Some x → x.1.1 ≠ b.
Inductive astep : abstract → abstract → Prop :=
  | a_call p b w disk buf reqs : reqs !! p = None → a_idle reqs b → astep (mkabs disk buf reqs) (mkabs disk buf (<[p := (b, w, false)]> reqs))
  | a_write p b k data disk buf reqs : reqs !! p = Some (b, true, false) → buf !! b = Some (k, data) →
      astep (mkabs disk buf reqs) (mkabs (<[k := data]> disk) buf (<[p := (b, true, true)]> reqs))
  | a_read p b k data disk buf reqs : reqs !! p = Some (b, false, false) → buf !! b = Some (k, data) →
      astep (mkabs disk buf reqs) (mkabs disk (<[b := (k, block_at disk k)]> buf) (<[p := (b, false, true)]> reqs))
  | a_return p b w disk buf reqs : reqs !! p = Some (b, w, true) → astep (mkabs disk buf reqs) (mkabs disk buf (delete p reqs))
  | a_owner b x disk buf reqs : a_idle reqs b → astep (mkabs disk buf reqs) (mkabs disk (<[b := x]> buf) reqs).

Definition abs_phase (x : phase) : nat * bool * bool := match x with WaitFree b w _ => (b, w, false) | WaitBuf b w _ _ _ sv _ => (b, w, sv) end.
Definition abs (s : sys E) : abstract :=
  mkabs (s_disk s) ((λ x, (vb_blockno x, vb_data x)) <$> v_buf (v_disk (s_drv s))) (abs_phase <$> s_procs s).
End sys.

(** ** What the functions of the disk driver do to their arrays *)

(** The number of free descriptors. *)
Definition nfree (l : list Z) : nat := length (filter (λ f, f ≠ 0) l).
Lemma nfree_take l i f : l !! i = Some f → f ≠ 0 → nfree l = S (nfree (<[i := 0]> l)).
Proof.
  intros Hi Hf. unfold nfree. rewrite <-(take_drop_middle l i f Hi) at 1. rewrite insert_take_drop by (by eapply lookup_lt_Some).
  rewrite !filter_app, !length_app, filter_cons_True by done. cbn [length]. rewrite filter_cons_False by (by intros []). simpl. lia.
Qed.
Lemma nfree_none l : nfree l = 0%nat → ∀ i f, l !! i = Some f → f = 0.
Proof.
  intros H i f Hi. destruct (decide (f = 0)) as [|Hf]; [done|]. by rewrite (nfree_take l i f Hi Hf) in H.
Qed.

Section fn.
Context {E : Type} `{!VirtioRegs E}.
Abbreviation V := (vdisk E).
Implicit Types (s : V).

Lemma arr_get_ok {A} (f : V → list A) i s x : f s !! i = Some x → arr_get f i s = Ok (x, s).
Proof. intros H. unfold arr_get. by rewrite H. Qed.
Lemma arr_set_ok {A} (f : V → list A) w i x y s : f s !! i = Some y → arr_set f w i x s = Ok (tt, w (<[i := x]> (f s)) s).
Proof. intros H. unfold arr_set. by rewrite H. Qed.

Lemma alloc_desc_scan s : ∀ k i, (k + i = length (v_free s))%nat → (∀ j f, (j < i)%nat → v_free s !! j = Some f → f = 0) →
  (∃ j f, alloc_desc_from k i s = Ok (Some j, w_free (<[j := 0]> (v_free s)) s) ∧ v_free s !! j = Some f ∧ f ≠ 0) ∨
  (alloc_desc_from k i s = Ok (None, s) ∧ nfree (v_free s) = 0%nat).
Proof.
  induction k as [|k IH]; intros i Hk Hz; cbn [alloc_desc_from].
  - right. split; [done|]. unfold nfree. assert (HF : Forall (λ f, ¬ f ≠ 0) (v_free s)).
    { apply Forall_lookup. intros j f Hj. assert (j < length (v_free s))%nat by (by eapply lookup_lt_Some). intros Hf. apply Hf. apply (Hz j f); [lia|done]. }
    clear -HF. by induction HF as [|f l Hf _ IH]; [|rewrite filter_cons_False].
  - destruct (lookup_lt_is_Some_2 (v_free s) i) as [f Hf]; [lia|]. unfold get_free. rewrite (bind_Ok_eq _ _ _ _ _ (arr_get_ok v_free i s f Hf)).
    destruct (decide (f = 0)) as [->|Hne].
    + rewrite (bool_decide_false (0 ≠ 0)) by (by intros []). apply IH; [lia|]. intros j g Hj Hg. destruct (decide (j = i)) as [->|]; [congruence|]. apply (Hz j g); [lia|done].
    + left. exists i, f. rewrite bool_decide_true by done. unfold set_free. by rewrite (bind_Ok_eq _ _ _ _ _ (arr_set_ok v_free w_free i 0 f s Hf)).
Qed.
Lemma alloc_desc_ok s : length (v_free s) = NUM →
  (∃ j f, alloc_desc s = Ok (Some j, w_free (<[j := 0]> (v_free s)) s) ∧ v_free s !! j = Some f ∧ f ≠ 0) ∨
  (alloc_desc s = Ok (None, s) ∧ nfree (v_free s) = 0%nat).
Proof. intros H. apply alloc_desc_scan; [by rewrite H|]. intros j f Hj. lia. Qed.

Lemma free_desc_ok s i d : v_free s !! i = Some 0 → v_desc s !! i = Some d → (i < NUM)%nat →
  free_desc i s = Ok (tt, w_wakes (v_wakes s ++ [ChFree]) (w_free (<[i := 1]> (v_free s)) (w_desc (<[i := desc0]> (v_desc s)) s))).
Proof.
  intros Hf Hd Hi. unfold free_desc. rewrite bool_decide_false by lia. unfold get_free. rewrite (bind_Ok_eq _ _ _ _ _ (arr_get_ok v_free i s 0 Hf)).
  rewrite bool_decide_false by (by intros []). unfold set_desc, set_free. rewrite (bind_Ok_eq _ _ _ _ _ (arr_set_ok v_desc w_desc i (mkdesc DNull 0 0 0) d s Hd)).
  by rewrite (bind_Ok_eq _ _ _ _ _ (arr_set_ok v_free w_free i 1 0 (w_desc (<[i := desc0]> (v_desc s)) s) Hf)).
Qed.

(** ** Three descriptors or none *)

(** Free marks are 0 and 1. *)
Definition marks (l : list Z) : Prop := length l = NUM ∧ ∀ i f, l !! i = Some f → f = 0 ∨ f = 1.
Lemma marks_set l i b : marks l → b = 0 ∨ b = 1 → marks (<[i := b]> l).
Proof.
  intros [Hl Hm] Hb. split; [by rewrite length_insert|]. intros j f. rewrite list_lookup_insert_Some. intros [(_ & -> & _)|[_ H]]; [done|by apply (Hm j)].
Qed.

(** Descriptors that were got are given back. *)
Lemma give_back : ∀ idx s, length (v_desc s) = NUM → (∀ i, i ∈ idx → (i < NUM)%nat ∧ v_free s !! i = Some 0) → NoDup idx →
  ∃ free' desc' cs, forM idx free_desc s = Ok (tt, w_wakes (v_wakes s ++ cs) (w_free free' (w_desc desc' s))) ∧
    length desc' = NUM ∧ (∀ j, j ∉ idx → desc' !! j = v_desc s !! j ∧ free' !! j = v_free s !! j) ∧ (∀ j, j ∈ idx → free' !! j = Some 1) ∧ (∀ c, c ∈ cs → c = ChFree).
Proof.
  induction idx as [|i idx IH]; intros s Hl Hi Hn.
  - exists (v_free s), (v_desc s), []. split; [cbn; rewrite app_nil_r; by destruct s|]. split; [done|]. split; [done|]. split; by intros c ?%elem_of_nil.
  - apply NoDup_cons in Hn as [Hni Hn]. destruct (Hi i ltac:(by left)) as [Hlt Hf]. destruct (lookup_lt_is_Some_2 (v_desc s) i) as [d Hd]; [lia|].
    cbn [forM]. rewrite (bind_Ok_eq _ _ _ _ _ (free_desc_ok s i d Hf Hd Hlt)). set (s1 := w_wakes _ _).
    destruct (IH s1) as (free' & desc' & cs & E1 & Hl1 & Hd1 & Hf1 & Hc1); [by cbn; rewrite length_insert| |done|].
    { intros j Hj. destruct (Hi j ltac:(by right)) as [Hjl Hjf]. split; [done|]. cbn. rewrite list_lookup_insert_ne; [done|]. intros ->. done. }
    exists free', desc', (ChFree :: cs). rewrite E1. split; [cbn; by rewrite <-app_assoc|]. split; [done|]. split; [|split].
    + intros j [Hj1 Hj2]%not_elem_of_cons. destruct (Hd1 j Hj2) as [-> ->]. cbn. by rewrite !list_lookup_insert_ne by done.
    + intros j [->|Hj]%elem_of_cons; [|by apply Hf1]. destruct (Hd1 i Hni) as [_ ->]. cbn. apply list_lookup_insert_eq. by eapply lookup_lt_Some.
    + intros c [->|Hc]%elem_of_cons; [done|by apply Hc1].
Qed.

(** The search with [idx] got so far from the marks [l]. *)
Definition got (l l' : list Z) (idx : list nat) : Prop :=
  NoDup idx ∧ (∀ i, i ∈ idx → l !! i = Some 1 ∧ l' !! i = Some 0) ∧ (∀ i, i ∉ idx → l' !! i = l !! i) ∧ nfree l = (length idx + nfree l')%nat.
Lemma got_more l l' idx i : marks l → got l l' idx → (∃ f, l' !! i = Some f ∧ f ≠ 0) → got l (<[i := 0]> l') (idx ++ [i]).
Proof.
  intros [Hlen Hm] (Hn & Hi & Ho & Hc) (f & Hf & Hf0). assert (Hni : i ∉ idx) by (intros H; apply Hi in H as [_ H]; congruence).
  assert (Hli : l !! i = Some 1) by (rewrite <-Ho by done; destruct (Hm i f) as [->| ->]; [by rewrite <-Ho|done|done]).
  split; [apply NoDup_app; split; [done|split; [by intros j Hj ->%list_elem_of_singleton|apply NoDup_singleton]]|]. split; [|split].
  - intros j [Hj| ->%list_elem_of_singleton]%elem_of_app.
    + destruct (Hi j Hj) as [H1 H2]. split; [done|]. rewrite list_lookup_insert_ne; [done|]. by intros ->.
    + split; [done|]. apply list_lookup_insert_eq. by eapply lookup_lt_Some.
  - intros j [Hj1 Hj2%not_elem_of_cons]%not_elem_of_app. rewrite list_lookup_insert_ne by (symmetry; tauto). by apply Ho.
  - rewrite Hc, (nfree_take l' i f Hf Hf0), length_app. simpl. lia.
Qed.

Lemma alloc3_scan s0 : marks (v_free s0) → length (v_desc s0) = NUM → ∀ k idx l', got (v_free s0) l' idx → length l' = NUM →
  (∃ idx' l'', alloc3_from k idx (w_free l' s0) = Ok (Some (idx ++ idx'), w_free l'' s0) ∧ length idx' = k ∧ got (v_free s0) l'' (idx ++ idx')) ∨
  (∃ desc' cs, alloc3_from k idx (w_free l' s0) = Ok (None, w_wakes (v_wakes s0 ++ cs) (w_desc desc' s0)) ∧ length desc' = NUM ∧
     (∀ i, v_free s0 !! i = Some 0 → desc' !! i = v_desc s0 !! i) ∧ (∀ c, c ∈ cs → c = ChFree) ∧ (nfree (v_free s0) < length idx + k)%nat).
Proof.
  intros Hm Hld. induction k as [|k IH]; intros idx l' Hg Hl'; cbn [alloc3_from].
  - left. exists [], l'. rewrite app_nil_r. done.
  - destruct (alloc_desc_ok (w_free l' s0) Hl') as [(j & f & E1 & Hj & Hf)|[E1 H0]]; rewrite (bind_Ok_eq _ _ _ _ _ E1).
    + cbn [v_free w_free] in *. destruct (IH (idx ++ [j]) (<[j := 0]> l')) as [(idx' & l'' & E2 & Hlen & Hg2)|(desc' & cs & E2 & H2 & H3 & H4 & H5)].
      * apply got_more; [done|done|by exists f].
      * by rewrite length_insert.
      * left. exists (j :: idx'), l''. rewrite <-app_assoc in E2, Hg2. split; [exact E2|]. split; [simpl; lia|done].
      * right. exists desc', cs. split; [exact E2|]. rewrite length_app in H5. simpl in H5. split; [done|]. split; [done|]. split; [done|lia].
    + right. cbn [v_free w_free] in H0. destruct Hg as (Hn & Hi & Ho & Hc).
      destruct (give_back idx (w_free l' s0) Hld) as (free' & desc' & cs & E2 & Hl2 & Hd2 & Hf2 & Hcs); [|done|].
      { intros i Hidx. destruct (Hi i Hidx) as [H1 H2]. split; [|done]. apply lookup_lt_Some in H2. by rewrite Hl' in H2. }
      assert (free' = v_free s0) as ->.
      { apply list_eq. intros i. destruct (decide (i ∈ idx)) as [Hin|Hin]; [rewrite Hf2 by done; by destruct (Hi i Hin) as [-> _]|]. destruct (Hd2 i Hin) as [_ ->]. by apply Ho. }
      exists desc', cs. rewrite (bind_Ok_eq _ _ _ _ _ E2). split; [by destruct s0|]. split; [done|]. split; [|split; [done|lia]].
      intros i Hi0. apply Hd2. intros Hin. destruct (Hi i Hin) as [H1 _]. congruence.
Qed.
Lemma alloc3_ok s : marks (v_free s) → length (v_desc s) = NUM →
  (∃ i0 i1 i2 l', alloc3_desc s = Ok (Some [i0; i1; i2], w_free l' s) ∧ got (v_free s) l' [i0; i1; i2]) ∨
  (∃ desc' cs, alloc3_desc s = Ok (None, w_wakes (v_wakes s ++ cs) (w_desc desc' s)) ∧ length desc' = NUM ∧
     (∀ i, v_free s !! i = Some 0 → desc' !! i = v_desc s !! i) ∧ (∀ c, c ∈ cs → c = ChFree) ∧ (nfree (v_free s) < 3)%nat).
Proof.
  intros Hm Hl. assert (Hs : w_free (v_free s) s = s) by (by destruct s).
  destruct (alloc3_scan s Hm Hl 3 [] (v_free s)) as [(idx & l' & E1 & Hlen & Hg)|H]; [|by destruct Hm| |].
  - split; [constructor|]. split; [by intros i ?%elem_of_nil|done].
  - left. rewrite Hs in E1. destruct idx as [|i0 [|i1 [|i2 [|? ?]]]]; try discriminate Hlen. by exists i0, i1, i2, l'.
  - right. by rewrite Hs in H.
Qed.

(** ** Requests *)

(** The arrays describe the request of a process for buffer [b]. *)
Record links_ok s (b : nat) (w : bool) (i0 i1 i2 : nat) : Prop := {
  ln_d0 : v_desc s !! i0 = Some (mkdesc (DReq i0) 16 1 (Z.of_nat i1));
  ln_d1 : v_desc s !! i1 = Some (mkdesc (DData b) 1024 (if w then 1 else 3) (Z.of_nat i2));
  ln_d2 : v_desc s !! i2 = Some (mkdesc (DStatus i0) 1 2 0);
  ln_ids : NoDup [i0; i1; i2];
  ln_used i : i ∈ [i0; i1; i2] → v_free s !! i = Some 0 }.
Record chain_ok s (b : nat) (w : bool) (i0 i1 i2 : nat) (sv : bool) : Prop := {
  ch_links : links_ok s b w i0 i1 i2;
  ch_info : v_info s !! i0 = Some (mkinfo (Some b) (if sv then 0 else 255));
  ch_op : ∃ x, v_buf s !! b = Some x ∧ v_ops s !! i0 = Some (mkreq (if w then VIRTIO_BLK_T_OUT else VIRTIO_BLK_T_IN) 0 (2 * vb_blockno x)) }.

Definition lengths s : Prop :=
  length (v_desc s) = NUM ∧ marks (v_free s) ∧ length (v_info s) = NUM ∧ length (v_ops s) = NUM ∧ length (v_avail s) = NUM ∧ length (v_used s) = NUM.

Definition request_bufs s (b : nat) (x : vbuf) : list vbuf := <[b := mkvbuf (vb_blockno x) (vb_data x) 1]> (v_buf s).
Definition submitted s (b : nat) (x : vbuf) (w : bool) (i0 i1 i2 : nat) : V :=
  w_regs (vr_write VIRTIO_MMIO_QUEUE_NOTIFY (u32 0) (v_regs s))
  (w_avail (<[Z.to_nat (v_avail_idx s mod Z.of_nat NUM) := Z.of_nat i0]> (v_avail s)) (u16 (v_avail_idx s + 1))
  (w_info (<[i0 := mkinfo (Some b) 255]> (v_info s))
  (w_buf (request_bufs s b x)
  (w_desc (<[i2 := mkdesc (DStatus i0) 1 2 0]> (<[i1 := mkdesc (DData b) 1024 (if w then 1 else 3) (Z.of_nat i2)]> (<[i0 := mkdesc (DReq i0) 16 1 (Z.of_nat i1)]> (v_desc s))))
  (w_ops (<[i0 := mkreq (if w then VIRTIO_BLK_T_OUT else VIRTIO_BLK_T_IN) 0 (2 * vb_blockno x)]> (v_ops s)) s))))).

Lemma lookup_NUM {A} (l : list A) i : length l = NUM → (i < NUM)%nat → ∃ x, l !! i = Some x.
Proof. intros Hl Hi. destruct (lookup_lt_is_Some_2 l i) as [x Hx]; [lia|]. by exists x. Qed.
Lemma submit_ok s b x w i0 i1 i2 : lengths s → v_buf s !! b = Some x → 0 ≤ vb_blockno x < 2 ^ 31 → (∀ i, i ∈ [i0; i1; i2] → (i < NUM)%nat) → NoDup [i0; i1; i2] →
  submit b w i0 i1 i2 s = Ok (tt, submitted s b x w i0 i1 i2).
Proof.
  intros (Hd & Hm & Hi & Ho & Ha & _) Hb Hx Hlt Hn. assert (H0 : (i0 < NUM)%nat) by (apply Hlt; set_solver). assert (H1 : (i1 < NUM)%nat) by (apply Hlt; set_solver).
  assert (H2 : (i2 < NUM)%nat) by (apply Hlt; set_solver).
  destruct (lookup_NUM _ i0 Hd H0) as [d0 E0]. destruct (lookup_NUM _ i1 Hd H1) as [d1 E1]. destruct (lookup_NUM _ i2 Hd H2) as [d2 E2].
  destruct (lookup_NUM _ i0 Hi H0) as [inf Einf]. destruct (lookup_NUM _ i0 Ho H0) as [o Eo].
  destruct (lookup_NUM _ (Z.to_nat (v_avail_idx s mod Z.of_nat NUM)) Ha) as [av Eav].
  { pose proof (Z.mod_pos_bound (v_avail_idx s) (Z.of_nat NUM) ltac:(done)). unfold NUM in *. lia. }
  assert (Hsec : u32 (vb_blockno x * (BSIZE / 512)) = 2 * vb_blockno x) by (unfold u32, BSIZE; change (1024 / 512) with 2; rewrite Z.mod_small by lia; lia).
  apply NoDup_cons in Hn as [Hn0 Hn]. apply NoDup_cons in Hn as [Hn1 _].
  unfold submit, submit_stores, get_buf, set_op, set_desc, set_info, set_buf. rewrite (bind_Ok_eq _ _ _ _ _ (arr_get_ok v_buf b s x Hb)). rewrite Hsec.
  cbn [do_all]. rewrite (bind_Ok_eq _ _ _ _ _ (arr_set_ok v_ops w_ops i0 _ o s Eo)).
  erewrite bind_Ok_eq; [|eapply arr_set_ok; exact E0].
  erewrite bind_Ok_eq; [|eapply arr_set_ok; cbn; rewrite list_lookup_insert_ne by set_solver; exact E1].
  erewrite bind_Ok_eq; [|unfold get_info; erewrite bind_Ok_eq; [|eapply arr_get_ok; exact Einf]; eapply arr_set_ok; exact Einf].
  erewrite bind_Ok_eq; [|eapply arr_set_ok; cbn; rewrite !list_lookup_insert_ne by set_solver; exact E2].
  erewrite bind_Ok_eq; [|eapply arr_set_ok; exact Hb].
  erewrite bind_Ok_eq; [|eapply arr_set_ok; cbn; apply list_lookup_insert_eq; by eapply lookup_lt_Some].
  erewrite bind_Ok_eq; [|rewrite gets_bind; eapply arr_set_ok; exact Eav].
  erewrite bind_Ok_eq; [|reflexivity]. unfold wr_reg, submitted, request_bufs. cbn. rewrite list_insert_insert_eq. by destruct w.
Qed.

Lemma free_chain_step fuel s i d : v_free s !! i = Some 0 → v_desc s !! i = Some d → (i < NUM)%nat →
  free_chain (S fuel) i s = (if bool_decide (Z.land (d_flags d) VRING_DESC_F_NEXT ≠ 0) then free_chain fuel (Z.to_nat (d_next d)) else mret tt)
    (w_wakes (v_wakes s ++ [ChFree]) (w_free (<[i := 1]> (v_free s)) (w_desc (<[i := desc0]> (v_desc s)) s))).
Proof.
  intros Hf Hd Hi. cbn [free_chain]. unfold get_desc. rewrite (bind_Ok_eq _ _ _ _ _ (arr_get_ok v_desc i s d Hd)). by rewrite (bind_Ok_eq _ _ _ _ _ (free_desc_ok s i d Hf Hd Hi)).
Qed.
Definition chain_freed s (i0 i1 i2 : nat) : V :=
  w_wakes (v_wakes s ++ [ChFree; ChFree; ChFree]) (w_free (<[i2 := 1]> (<[i1 := 1]> (<[i0 := 1]> (v_free s))))
    (w_desc (<[i2 := desc0]> (<[i1 := desc0]> (<[i0 := desc0]> (v_desc s)))) s)).
Lemma free_chain_ok s b w i0 i1 i2 : length (v_free s) = NUM → links_ok s b w i0 i1 i2 → free_chain (S NUM) i0 s = Ok (tt, chain_freed s i0 i1 i2).
Proof.
  intros Hlf [H0 H1 H2 Hn Hu]. apply NoDup_cons in Hn as [Hn0 Hn]. apply NoDup_cons in Hn as [Hn1 _].
  assert (Hlt : ∀ i, i ∈ [i0; i1; i2] → (i < NUM)%nat) by (intros i Hi; rewrite <-Hlf; eapply lookup_lt_Some; by apply Hu).
  assert (i0 ≠ i1 ∧ i0 ≠ i2 ∧ i1 ≠ i2) as (Hn01 & Hn02 & Hn12) by set_solver.
  assert (i0 ∈ [i0; i1; i2] ∧ i1 ∈ [i0; i1; i2] ∧ i2 ∈ [i0; i1; i2]) as (He0 & He1 & He2) by set_solver.
  rewrite (free_chain_step NUM s i0 _ (Hu i0 He0) H0 (Hlt i0 He0)). cbn [d_flags d_next]. rewrite bool_decide_true by done. rewrite Nat2Z.id.
  change NUM with (S 7) at 1. erewrite free_chain_step; [|cbn; rewrite list_lookup_insert_ne by done; by apply Hu|cbn; rewrite list_lookup_insert_ne by done; exact H1|by apply Hlt].
  cbn [d_flags d_next]. rewrite bool_decide_true by (by destruct w). rewrite Nat2Z.id.
  erewrite (free_chain_step 6); [|cbn; rewrite !list_lookup_insert_ne by done; by apply Hu|cbn; rewrite !list_lookup_insert_ne by done; exact H2|by apply Hlt].
  cbn. unfold chain_freed. by rewrite <-!app_assoc.
Qed.

(** The part of [virtio_disk_rw] after the loop that waits. *)
Lemma rw_wait_done s b w i0 i1 i2 sv x : lengths s → chain_ok s b w i0 i1 i2 sv → v_buf s !! b = Some x → vb_disk x ≠ 1 →
  rw_wait b i0 i1 i2 s = Ok (VDone, chain_freed (w_info (<[i0 := mkinfo None (if sv then 0 else 255)]> (v_info s)) s) i0 i1 i2).
Proof.
  intros Hl Hc Hb Hx. unfold rw_wait, get_buf. rewrite (bind_Ok_eq _ _ _ _ _ (arr_get_ok v_buf b s x Hb)). rewrite bool_decide_false by done.
  unfold get_info, set_info. rewrite (bind_Ok_eq _ _ _ _ _ (arr_get_ok v_info i0 s _ (ch_info _ _ _ _ _ _ _ Hc))). cbn [i_status].
  rewrite (bind_Ok_eq _ _ _ _ _ (arr_set_ok v_info w_info i0 _ _ s (ch_info _ _ _ _ _ _ _ Hc))). set (s1 := w_info _ s).
  assert (Hf : free_chain (S NUM) i0 s1 = Ok (tt, chain_freed s1 i0 i1 i2)); [|by rewrite (bind_Ok_eq _ _ _ _ _ Hf)].
  destruct Hl as (_ & [Hlf _] & _). destruct Hc as [[H0 H1 H2 Hn Hu] _ _]. by apply (free_chain_ok s1 b w).
Qed.
End fn.

(** ** The invariant of the disk driver

    It relates the three arrays, the counters of the two rings, the processes
    inside [virtio_disk_rw] and the requests that the device has. *)

(** ** Rings *)

(** The entries from counter [r] to counter [n] are [q]. *)
Definition queued (l : list Z) (r n : Z) (q : list nat) : Prop :=
  ring_at 8 l r (Z.of_nat <$> q) ∧ 0 ≤ r < 65536 ∧ n = u16 (r + Z.of_nat (length q)).

Lemma zidx_nat {A} (l : list A) i x : zidx l i = Some x → l !! Z.to_nat i = Some x.
Proof. by intros [_ H]%zidx_Some. Qed.

Lemma queued_nil l r : length l = NUM → 0 ≤ r < 65536 → queued l r r [].
Proof. intros Hl Hr. split; [apply (ring_nil 8); [done|by rewrite Hl]|]. split; [done|]. unfold u16. simpl. rewrite Z.add_0_r. symmetry. by apply Z.mod_small. Qed.
Lemma queued_len l r n q : queued l r n q → (length q ≤ 8)%nat.
Proof. intros [(_ & H & _) _]. rewrite length_fmap in H. lia. Qed.
Lemma queued_end l r n q : queued l r n q → r = n ↔ q = [].
Proof.
  intros Hq. pose proof (queued_len _ _ _ _ Hq) as Hl. destruct Hq as (_ & Hr & ->). split.
  - intros H. apply nil_length_inv. assert (H1 : (r + 0) mod 65536 = (r + Z.of_nat (length q)) mod 65536).
    { rewrite Z.add_0_r, (Z.mod_small r) by done. exact H. }
    apply (mod_same 8 65536) in H1; lia.
  - intros ->. unfold u16. simpl. rewrite Z.add_0_r. symmetry. by apply Z.mod_small.
Qed.
Lemma queued_diff l r n q : queued l r n q → u16 (n - r) = Z.of_nat (length q).
Proof. intros Hq. pose proof (queued_len _ _ _ _ Hq) as Hl. destruct Hq as (_ & Hr & ->). apply (mod_diff 8 65536); lia. Qed.
Lemma queued_get l r n id q : queued l r n (id :: q) → l !! Z.to_nat (r mod Z.of_nat NUM) = Some (Z.of_nat id) ∧ queued l (u16 (r + 1)) n q.
Proof.
  intros (Hq & Hr & ->). cbn [fmap list_fmap] in Hq. destruct (ring_get 8 65536 ltac:(by exists 8192) _ _ _ _ Hq) as [H1 H2].
  split; [by apply zidx_nat|]. split; [exact H2|]. split; [apply Z.mod_pos_bound; lia|].
  unfold u16. rewrite Zplus_mod_idemp_l. f_equal. simpl length. lia.
Qed.
Lemma queued_put l r n q id : queued l r n q → (length q < 8)%nat → queued (<[Z.to_nat (n mod Z.of_nat NUM) := Z.of_nat id]> l) r (u16 (n + 1)) (q ++ [id]).
Proof.
  intros (Hq & Hr & ->) Hlt. destruct (ring_put 8 65536 ltac:(lia) ltac:(by exists 8192) l r (Z.of_nat <$> q) (Z.of_nat id) Hq) as (l' & E & H).
  { rewrite length_fmap. lia. }
  rewrite length_fmap in E. apply zupd_Some in E as [_ ->]. split; [|split; [done|]].
  - rewrite fmap_app. exact H.
  - unfold u16. rewrite Zplus_mod_idemp_l, length_app. f_equal. simpl. lia.
Qed.

(** ** [virtio_disk_intr] *)

Definition done_buf (x : vbuf) : vbuf := mkvbuf (vb_blockno x) (vb_data x) 0.
Definition done_at (l : list vbuf) (b : nat) : list vbuf := match l !! b with Some x => <[b := done_buf x]> l | None => l end.
Definition done_all (bs : list nat) (l : list vbuf) : list vbuf := foldl done_at l bs.

Lemma done_at_lookup l b c : done_at l b !! c = if decide (c = b) then done_buf <$> l !! c else l !! c.
Proof.
  unfold done_at. destruct (l !! b) as [x|] eqn:E; case_decide as H; subst; rewrite ?E; try done.
  - apply list_lookup_insert_eq. by eapply lookup_lt_Some.
  - by apply list_lookup_insert_ne.
Qed.
Lemma done_all_lookup bs : ∀ l c, done_all bs l !! c = if decide (c ∈ bs) then done_buf <$> l !! c else l !! c.
Proof.
  induction bs as [|b bs IH]; intros l c; [done|]. cbn [done_all foldl]. fold (done_all bs (done_at l b)). rewrite IH, done_at_lookup.
  repeat case_decide; try set_solver; by destruct (l !! c).
Qed.

Section inv.
Context {E : Type} `{!VirtioRegs E}.
Abbreviation V := (vdisk E).
Implicit Types (s v : V) (procs : gmap nat phase).

(** One round of the loop. *)
Definition acked (b : nat) s : V := w_used_idx (u16 (v_used_idx s + 1)) (w_wakes (v_wakes s ++ [ChBuf b]) (w_buf (done_at (v_buf s) b) s)).
Lemma intr_loop_one s fuel id ids b : queued (v_used s) (v_used_idx s) (v_uidx s) (id :: ids) →
  v_info s !! id = Some (mkinfo (Some b) 0) → is_Some (v_buf s !! b) →
  intr_loop (S fuel) s = intr_loop fuel (acked b s) ∧ queued (v_used (acked b s)) (v_used_idx (acked b s)) (v_uidx (acked b s)) ids.
Proof.
  intros Hq Hi [x Hb]. cbn [intr_loop]. rewrite !gets_bind. cbv beta.
  rewrite bool_decide_false by (intros H; by apply (proj1 (queued_end _ _ _ _ Hq)) in H). apply queued_get in Hq as [Hg Hq].
  rewrite (bind_Ok_eq _ _ _ _ _ (arr_get_ok v_used _ s _ Hg)), Nat2Z.id. unfold get_info. rewrite (bind_Ok_eq _ _ _ _ _ (arr_get_ok v_info id s _ Hi)). cbn [i_status i_b].
  rewrite bool_decide_false by (by intros []). unfold get_buf, set_buf. rewrite (bind_Ok_eq _ _ _ _ _ (arr_get_ok v_buf b s x Hb)), (bind_Ok_eq _ _ _ _ _ (arr_set_ok v_buf w_buf b _ x s Hb)).
  erewrite bind_Ok_eq; [|reflexivity]. rewrite modify_bind. split; [|exact Hq]. unfold acked, done_at. by rewrite Hb.
Qed.
Lemma acked_bufs b s (ids bs : list nat) : Forall2 (λ id c, v_info s !! id = Some (mkinfo (Some c) 0) ∧ is_Some (v_buf s !! c)) ids bs →
  Forall2 (λ id c, v_info (acked b s) !! id = Some (mkinfo (Some c) 0) ∧ is_Some (v_buf (acked b s) !! c)) ids bs.
Proof.
  intros HF. eapply Forall2_impl; [exact HF|]. intros i c [Hi [y Hc]]. split; [exact Hi|]. cbn. rewrite done_at_lookup, Hc. case_decide; by eexists.
Qed.
Lemma intr_loop_ok : ∀ ids bs s fuel, queued (v_used s) (v_used_idx s) (v_uidx s) ids →
  Forall2 (λ id b, v_info s !! id = Some (mkinfo (Some b) 0) ∧ is_Some (v_buf s !! b)) ids bs → (length ids < fuel)%nat →
  intr_loop fuel s = Ok (tt, w_used_idx (v_uidx s) (w_wakes (v_wakes s ++ (ChBuf <$> bs)) (w_buf (done_all bs (v_buf s)) s))).
Proof.
  induction ids as [|id ids IH]; intros bs s [|fuel] Hq HF Hfu; try (simpl in Hfu; lia).
  - cbn [intr_loop]. rewrite !gets_bind. cbv beta. apply Forall2_nil_inv_l in HF as ->. pose proof (proj2 (queued_end _ _ _ _ Hq) eq_refl) as Heq. rewrite bool_decide_true by done.
    cbn. rewrite app_nil_r, <-Heq. by destruct s.
  - apply Forall2_cons_inv_l in HF as (b & bs' & [Hi Hb] & HF & ->). destruct (intr_loop_one s fuel id ids b Hq Hi Hb) as [-> Hq'].
    rewrite (IH bs'); [|exact Hq'|by apply acked_bufs|simpl in Hfu; lia]. cbn. by rewrite <-app_assoc.
Qed.
(** A status that is not 0. *)
Lemma intr_loop_status id inf : i_status inf ≠ 0 → ∀ ids bs s fuel, queued (v_used s) (v_used_idx s) (v_uidx s) (ids ++ [id]) →
  Forall2 (λ id b, v_info s !! id = Some (mkinfo (Some b) 0) ∧ is_Some (v_buf s !! b)) ids bs → v_info s !! id = Some inf →
  (length ids < fuel)%nat → intr_loop fuel s = Panic "virtio_disk_intr status".
Proof.
  intros Hne. induction ids as [|i ids IH]; intros bs s [|fuel] Hq HF Hid Hfu; try (simpl in Hfu; lia); cbn [app] in Hq.
  - cbn [intr_loop]. rewrite !gets_bind. cbv beta. rewrite bool_decide_false by (intros H; by apply (proj1 (queued_end _ _ _ _ Hq)) in H).
    apply queued_get in Hq as [Hg _]. rewrite (bind_Ok_eq _ _ _ _ _ (arr_get_ok v_used _ s _ Hg)), Nat2Z.id.
    unfold get_info. rewrite (bind_Ok_eq _ _ _ _ _ (arr_get_ok v_info id s _ Hid)). by rewrite bool_decide_true.
  - apply Forall2_cons_inv_l in HF as (b & bs' & [Hi Hb] & HF & ->). destruct (intr_loop_one s fuel i (ids ++ [id]) b Hq Hi Hb) as [-> Hq'].
    apply (IH bs'); [exact Hq'|by apply acked_bufs|exact Hid|simpl in Hfu; lia].
Qed.

(** ** The lock and the wakeups *)

Lemma locked_ok {A} (m : M V A) d a v : lock_quiet (v_lock d) → hart_good (v_hart d) → m (v_disk d) = Ok (a, v) → locked m d = Ok (a, mkvst (v_lock d) (v_hart d) v).
Proof.
  intros Hl Hh Hm. unfold locked, acquireM, releaseM, inV. mstep. rewrite acquire_quiet by done. cbn. rewrite Hm. cbn. by rewrite release_quiet.
Qed.
Lemma runs_ok {A} (m : M V A) d a v procs : lock_quiet (v_lock d) → hart_good (v_hart d) → m (w_wakes [] (v_disk d)) = Ok (a, v) →
  runs (locked m) d a (mkvst (v_lock d) (v_hart d) (w_wakes [] v)) procs (woken_by (v_wakes v) <$> procs).
Proof. intros Hl Hh Hm. eexists. split; [by apply locked_ok|done]. Qed.
Lemma runs_det {A} (m : M (vst E) A) d a1 d1 a2 d2 procs p1 p2 : runs m d a1 d1 procs p1 → runs m d a2 d2 procs p2 → a1 = a2 ∧ d1 = d2 ∧ p1 = p2.
Proof. intros (e1 & E1 & -> & ->) (e2 & E2 & -> & ->). rewrite E1 in E2. by injection E2 as -> ->. Qed.

(** ** The invariant *)

(** The descriptors that a process owns. *)
Definition ids (x : phase) : list nat := match x with WaitFree _ _ _ => [] | WaitBuf _ _ i0 i1 i2 _ _ => [i0; i1; i2] end.
(** [id] is the head of a request at this stage. *)
Definition at_stage procs (id : nat) (sv wk : bool) : Prop := ∃ p b w i1 i2, procs !! p = Some (WaitBuf b w id i1 i2 sv wk).

Record queues (v : V) (seen : Z) (busy : list nat) (procs : gmap nat phase) (pend used : list nat) : Prop := {
  qs_avail : queued (v_avail v) seen (v_avail_idx v) pend;
  qs_used : queued (v_used v) (v_used_idx v) (v_uidx v) used;
  qs_nodup : NoDup (pend ++ busy ++ used);
  qs_unserved id : id ∈ pend ++ busy ↔ at_stage procs id false false;
  qs_served id : id ∈ used ↔ at_stage procs id true false }.

Record vinv (v : V) (seen : Z) (busy : list nat) (procs : gmap nat phase) : Prop := {
  iv_len : lengths v;
  iv_bufs b x : v_buf v !! b = Some x → buf_ok x;
  iv_free p b w wk : procs !! p = Some (WaitFree b w wk) → is_Some (v_buf v !! b) ∧ (wk = false → (nfree (v_free v) < 3)%nat);
  iv_req p b w i0 i1 i2 sv wk : procs !! p = Some (WaitBuf b w i0 i1 i2 sv wk) → chain_ok v b w i0 i1 i2 sv;
  iv_flag p b w i0 i1 i2 sv wk : procs !! p = Some (WaitBuf b w i0 i1 i2 sv wk) →
    (wk = true → sv = true) ∧ ∃ x, v_buf v !! b = Some x ∧ vb_disk x = if wk then 0 else 1;
  iv_own i : v_free v !! i = Some 0 → ∃ p x, procs !! p = Some x ∧ i ∈ ids x;
  iv_disj p q x y i : procs !! p = Some x → procs !! q = Some y → i ∈ ids x → i ∈ ids y → p = q;
  iv_buf p q x y : procs !! p = Some x → procs !! q = Some y → phase_buf x = phase_buf y → p = q;
  iv_queues : ∃ pend used, queues v seen busy procs pend used }.

(** A request is not touched by what others do to their descriptors. *)
Definition same_at s v (i : nat) : Prop := v_desc v !! i = v_desc s !! i ∧ v_free v !! i = v_free s !! i ∧ v_ops v !! i = v_ops s !! i.
Lemma request_frame s v b w i0 i1 i2 sv (sv' : bool) : chain_ok s b w i0 i1 i2 sv → (∀ i, i ∈ [i0; i1; i2] → same_at s v i) →
  v_info v !! i0 = Some (mkinfo (Some b) (if sv' then 0 else 255)) → (∀ x, v_buf s !! b = Some x → ∃ x', v_buf v !! b = Some x' ∧ vb_blockno x' = vb_blockno x) →
  chain_ok v b w i0 i1 i2 sv'.
Proof.
  intros [[H0 H1 H2 Hn Hu] _ (x & Hx & Ho)] Hs Hi Hb. destruct (Hb x Hx) as (x' & Hx' & Hbn).
  destruct (Hs i0) as (Hd0 & Hf0 & Ho0); [set_solver|]. destruct (Hs i1) as (Hd1 & Hf1 & _); [set_solver|]. destruct (Hs i2) as (Hd2 & Hf2 & _); [set_solver|].
  split; [split; [by rewrite Hd0|by rewrite Hd1|by rewrite Hd2|done|]|done|exists x'; split; [done|by rewrite Ho0, Hbn]].
  intros i Hin. destruct (Hs i Hin) as (_ & -> & _). by apply Hu.
Qed.
Lemma chain_ids s b w i0 i1 i2 sv i : length (v_free s) = NUM → chain_ok s b w i0 i1 i2 sv → i ∈ [i0; i1; i2] → (i < NUM)%nat.
Proof. intros Hl [[_ _ _ _ Hu] _ _] Hi. rewrite <-Hl. eapply lookup_lt_Some. by apply Hu. Qed.
End inv.
