(* ===== verification/VirtioSteps.v ===== *)
(** * Each step of the disk driver and of the device keeps the invariant *)
From S2P Require Import Prelude Layout Spinlock Sleeplock ByteRing Virtio VirtioInv.

Section steps.
Context {E : Type} `{!VirtioRegs E}.
Abbreviation V := (vdisk E).
Implicit Types (s v : V) (procs : gmap nat phase).

(** ** Sleepers on [disk.free] *)

(** Processes that own no request come, go and are woken. *)
Lemma vinv_sleepers v seen busy procs procs' : vinv v seen busy procs →
  (∀ p b w i0 i1 i2 sv wk, procs' !! p = Some (WaitBuf b w i0 i1 i2 sv wk) ↔ procs !! p = Some (WaitBuf b w i0 i1 i2 sv wk)) →
  (∀ p b w wk, procs' !! p = Some (WaitFree b w wk) → is_Some (v_buf v !! b) ∧ (wk = false → (nfree (v_free v) < 3)%nat)) →
  (∀ p q x y, procs' !! p = Some x → procs' !! q = Some y → phase_buf x = phase_buf y → p = q) →
  vinv v seen busy procs'.
Proof.
  intros [Hl Hb _ Hr Hfl Ho Hd _ (pend & used & [Q1 Q2 Q3 Q4 Q5])] Hw Hf Hbd. split; try done.
  - intros p b w i0 i1 i2 sv wk Hp%Hw. by eapply Hr.
  - intros p b w i0 i1 i2 sv wk Hp%Hw. by eapply Hfl.
  - intros i Hi. destruct (Ho i Hi) as (p & [|] & Hp & Hin); [by apply elem_of_nil in Hin|]. eexists p, _. split; [by apply Hw|done].
  - intros p q [|] [|] i Hp Hq Hi Hj; try (by apply elem_of_nil in Hi); try (by apply elem_of_nil in Hj). apply Hw in Hp, Hq. by eapply (Hd p q).
  - exists pend, used. split; try done; intros id; unfold at_stage; setoid_rewrite Hw; [apply Q4|apply Q5].
Qed.

Definition only_free (cs : list vchan) : Prop := ∀ c, c ∈ cs → c = ChFree.
Lemma woken_buf cs procs p b w i0 i1 i2 sv wk : only_free cs → (woken_by cs <$> procs) !! p = Some (WaitBuf b w i0 i1 i2 sv wk) ↔ procs !! p = Some (WaitBuf b w i0 i1 i2 sv wk).
Proof.
  intros Hc. assert (Hno : ∀ c, bool_decide (ChBuf c ∈ cs) = false) by (intros c; apply bool_decide_false; intros H; by apply Hc in H).
  rewrite lookup_fmap_Some. split.
  - intros ([b' w' wk'|b' w' j0 j1 j2 sv' wk'] & Heq & Hp); [discriminate Heq|]. cbn [woken_by] in Heq. rewrite Hno, orb_false_r in Heq. by injection Heq as -> -> -> -> -> -> ->.
  - intros Hp. eexists. split; [|exact Hp]. cbn [woken_by]. by rewrite Hno, orb_false_r.
Qed.
Lemma woken_free cs procs p b w wk : (woken_by cs <$> procs) !! p = Some (WaitFree b w wk) → ∃ wk0, procs !! p = Some (WaitFree b w wk0) ∧ wk = wk0 || bool_decide (ChFree ∈ cs).
Proof. rewrite lookup_fmap_Some. intros ([b' w' wk'|b' w' j0 j1 j2 sv' wk'] & Heq & Hp); [|discriminate Heq]. cbn [woken_by] in Heq. simplify_eq. by exists wk'. Qed.
Lemma woken_phase_buf cs x : phase_buf (woken_by cs x) = phase_buf x.
Proof. by destruct x. Qed.
Lemma fmap_phase_buf (f : phase → phase) procs : (∀ x, phase_buf (f x) = phase_buf x) → (∀ p q x y, procs !! p = Some x → procs !! q = Some y → phase_buf x = phase_buf y → p = q) →
  ∀ p q x y, (f <$> procs) !! p = Some x → (f <$> procs) !! q = Some y → phase_buf x = phase_buf y → p = q.
Proof. intros Hf H p q x y (x' & <- & Hp)%lookup_fmap_Some (y' & <- & Hq)%lookup_fmap_Some. rewrite !Hf. by apply H. Qed.

Lemma vinv_wake v seen busy procs cs : vinv v seen busy procs → only_free cs → vinv v seen busy (woken_by cs <$> procs).
Proof.
  intros Hv Hc. apply (vinv_sleepers v seen busy procs); [done| | |].
  - intros. by apply woken_buf.
  - intros p b w wk (wk0 & Hp & ->)%woken_free. destruct (iv_free _ _ _ _ Hv _ _ _ _ Hp) as [H1 H2]. split; [done|]. intros [-> _]%orb_false_elim. by apply H2.
  - apply fmap_phase_buf; [apply woken_phase_buf|apply (iv_buf _ _ _ _ Hv)].
Qed.
Lemma vinv_drop v seen busy procs p b w wk : vinv v seen busy procs → procs !! p = Some (WaitFree b w wk) → vinv v seen busy (delete p procs) ∧ idle (delete p procs) b.
Proof.
  intros Hv Hp. split.
  - apply (vinv_sleepers v seen busy procs); [done| | |].
    + intros q c w' i0 i1 i2 sv wk'. rewrite lookup_delete_Some. split; [by intros []|]. intros H. split; [|done]. intros ->. by rewrite Hp in H.
    + intros q c w' wk' [_ Hq]%lookup_delete_Some. by eapply (iv_free _ _ _ _ Hv).
    + intros q r x y [_ Hq]%lookup_delete_Some [_ Hr]%lookup_delete_Some. by eapply (iv_buf _ _ _ _ Hv).
  - intros q x [Hne Hq]%lookup_delete_Some Hb. apply Hne. by eapply (iv_buf _ _ _ _ Hv).
Qed.
Lemma insert_phase_buf procs p x : procs !! p = None → idle procs (phase_buf x) → (∀ p q x y, procs !! p = Some x → procs !! q = Some y → phase_buf x = phase_buf y → p = q) →
  ∀ p1 p2 x1 x2, <[p := x]> procs !! p1 = Some x1 → <[p := x]> procs !! p2 = Some x2 → phase_buf x1 = phase_buf x2 → p1 = p2.
Proof.
  intros Hp Hi H p1 p2 x1 x2 [[<- <-]|[Hn1 H1]]%lookup_insert_Some [[<- <-]|[Hn2 H2]]%lookup_insert_Some Heq; try done.
  - exfalso. by eapply Hi.
  - exfalso. by eapply Hi.
  - by eapply H.
Qed.
Lemma vinv_sleep v seen busy procs p b w : vinv v seen busy procs → procs !! p = None → idle procs b → is_Some (v_buf v !! b) → (nfree (v_free v) < 3)%nat →
  vinv v seen busy (<[p := WaitFree b w false]> procs).
Proof.
  intros Hv Hp Hi Hb Hn. apply (vinv_sleepers v seen busy procs); [done| | |].
  - intros q c w' i0 i1 i2 sv wk. rewrite lookup_insert_Some. split; [by intros [[_ H]|[_ H]]|]. intros Hq. right. split; [|done]. intros ->. by rewrite Hp in Hq.
  - intros q c w' wk [[<- Heq]|[_ Hq]]%lookup_insert_Some; [by simplify_eq|by eapply (iv_free _ _ _ _ Hv)].
  - apply insert_phase_buf; [done|done|apply (iv_buf _ _ _ _ Hv)].
Qed.

(** ** Arrays *)

(** Changes of the state that leave the requests alone. *)
Lemma vinv_frame s v seen busy procs : vinv s seen busy procs → lengths v → (∀ i, v_free s !! i = Some 0 → same_at s v i) →
  v_free v = v_free s → v_info v = v_info s → v_avail v = v_avail s → v_avail_idx v = v_avail_idx s → v_used v = v_used s → v_uidx v = v_uidx s → v_used_idx v = v_used_idx s →
  (∀ b x, v_buf v !! b = Some x → buf_ok x) → (∀ b, is_Some (v_buf s !! b) → is_Some (v_buf v !! b)) → (∀ p x, procs !! p = Some x → v_buf v !! phase_buf x = v_buf s !! phase_buf x) →
  vinv v seen busy procs.
Proof.
  intros [Hl Hb Hf Hr Hfl Ho Hd Hbd (pend & used & [Q1 Q2 Q3 Q4 Q5])] Hl' Hs Efr Ein Eav Eai Eus Eui Eux Hb' Hbs Hbp. split; try done.
  - intros p b w wk Hp. destruct (Hf _ _ _ _ Hp) as [H1 H2]. split; [by apply Hbs|by rewrite Efr].
  - intros p b w i0 i1 i2 sv wk Hp. pose proof (Hr _ _ _ _ _ _ _ _ Hp) as Hc. apply (request_frame s v b w i0 i1 i2 sv sv Hc).
    + intros i Hi. apply Hs. by apply (ln_used _ _ _ _ _ _ (ch_links _ _ _ _ _ _ _ Hc)).
    + rewrite Ein. apply (ch_info _ _ _ _ _ _ _ Hc).
    + intros x Hx. exists x. split; [|done]. etrans; [exact (Hbp p _ Hp)|exact Hx].
  - intros p b w i0 i1 i2 sv wk Hp. destruct (Hfl _ _ _ _ _ _ _ _ Hp) as [H1 (x & Hx & Hdk)]. split; [done|]. exists x. split; [|done]. etrans; [exact (Hbp p _ Hp)|exact Hx].
  - intros i Hi. apply Ho. by rewrite <-Efr.
  - exists pend, used. split; [by rewrite Eav, Eai|by rewrite Eus, Eui, Eux|done|done|done].
Qed.
Lemma vinv_wakes s seen busy procs cs : vinv s seen busy procs → vinv (w_wakes cs s) seen busy procs.
Proof. intros Hv. apply (vinv_frame s); try done; by destruct Hv. Qed.

(** ** A request is submitted *)

Lemma heads_short l : NoDup l → (∀ i, i ∈ l → (i < NUM)%nat) → (length l ≤ 8)%nat.
Proof.
  intros Hn Hl. change 8%nat with (length (seq 0 8)). apply submseteq_length, NoDup_submseteq; [done|]. intros i Hi. apply elem_of_seq. apply Hl in Hi. unfold NUM in Hi. lia.
Qed.

Lemma got_marks l l' idx : marks l → got l l' idx → marks l'.
Proof.
  intros [Hl Hm] (_ & Hi & Ho & _). split.
  - apply Nat.le_antisymm; apply Nat.le_ngt; intros Hlt.
    + destruct (lookup_lt_is_Some_2 l' (length l)) as [f Hf]; [lia|]. destruct (decide (length l ∈ idx)) as [Hin|Hn]; [destruct (Hi _ Hin) as [H _]|rewrite Ho in Hf by done; rename Hf into H];
        apply lookup_lt_Some in H; lia.
    + destruct (lookup_lt_is_Some_2 l (length l')) as [f Hf]; [lia|]. destruct (decide (length l' ∈ idx)) as [Hin|Hn]; [destruct (Hi _ Hin) as [_ H]|rewrite <-Ho in Hf by done; rename Hf into H];
        apply lookup_lt_Some in H; lia.
  - intros i f Hf. destruct (decide (i ∈ idx)) as [Hin|Hn]; [destruct (Hi _ Hin) as [_ H]; left; congruence|]. apply (Hm i). by rewrite <-Ho.
Qed.

Section submit.
Context s seen busy procs b x (w : bool) i0 i1 i2 l' p (Hv : vinv s seen busy procs) (Hg : got (v_free s) l' [i0; i1; i2])
  (Hx : v_buf s !! b = Some x) (Hp : procs !! p = None) (Hidle : idle procs b).
Let v : V := submitted (w_free l' s) b x w i0 i1 i2.
Let new := WaitBuf b w i0 i1 i2 false false.

Lemma sub_lt i : i ∈ [i0; i1; i2] → (i < NUM)%nat.
Proof. intros Hi. destruct Hg as (_ & H & _). destruct (H i Hi) as [H1 _]. apply lookup_lt_Some in H1. destruct (iv_len _ _ _ _ Hv) as (_ & [Hl _] & _). lia. Qed.
Lemma sub_lengths : lengths v.
Proof.
  destruct (iv_len _ _ _ _ Hv) as (H1 & H2 & H3 & H4 & H5 & H6). unfold v, submitted, lengths. cbn. rewrite !length_insert.
  repeat (split; [done || by eapply got_marks|]). done.
Qed.
(** The requests of others own none of the new descriptors. *)
Lemma sub_others q y i : procs !! q = Some y → i ∈ ids y → i ∉ [i0; i1; i2].
Proof.
  intros Hq Hi Hin. destruct y as [|b' w' j0 j1 j2 sv wk]; [by apply elem_of_nil in Hi|].
  pose proof (ln_used _ _ _ _ _ _ (ch_links _ _ _ _ _ _ _ (iv_req _ _ _ _ Hv _ _ _ _ _ _ _ _ Hq)) i Hi) as H0. destruct Hg as (_ & H & _). destruct (H i Hin) as [H1 _]. congruence.
Qed.
Lemma sub_same i : i ∉ [i0; i1; i2] → same_at s v i ∧ v_info v !! i = v_info s !! i.
Proof.
  intros Hi. assert (i ≠ i0 ∧ i ≠ i1 ∧ i ≠ i2) as (Hn0 & Hn1 & Hn2) by set_solver. unfold same_at, v, submitted. cbn. rewrite !list_lookup_insert_ne by done.
  destruct Hg as (_ & _ & H & _). by rewrite H.
Qed.
Lemma sub_buf c : v_buf v !! c = if decide (c = b) then Some (mkvbuf (vb_blockno x) (vb_data x) 1) else v_buf s !! c.
Proof.
  unfold v, submitted, request_bufs. cbn. case_decide as Hc; [subst c; apply list_lookup_insert_eq; by eapply lookup_lt_Some|by apply list_lookup_insert_ne].
Qed.
Lemma sub_chain : chain_ok v b w i0 i1 i2 false.
Proof.
  destruct (iv_len _ _ _ _ Hv) as (H1 & H2 & H3 & H4 & _). destruct Hg as (Hn & Hi & _). pose proof sub_lt as Hlt.
  assert (i0 ≠ i1 ∧ i0 ≠ i2 ∧ i1 ≠ i2) as (Hn01 & Hn02 & Hn12) by (rewrite !NoDup_cons in Hn; set_solver).
  assert (i0 ∈ [i0; i1; i2] ∧ i1 ∈ [i0; i1; i2] ∧ i2 ∈ [i0; i1; i2]) as (He0 & He1 & He2) by set_solver.
  apply Hlt in He0, He1, He2. rewrite <-H1 in He1, He2. split; [split|..]; unfold v, submitted; cbn.
  - rewrite !list_lookup_insert_ne by done. apply list_lookup_insert_eq. lia.
  - rewrite list_lookup_insert_ne by done. apply list_lookup_insert_eq. by rewrite length_insert.
  - apply list_lookup_insert_eq. by rewrite !length_insert.
  - done.
  - intros i Hin. by apply Hi.
  - apply list_lookup_insert_eq. lia.
  - exists (mkvbuf (vb_blockno x) (vb_data x) 1). split; [unfold request_bufs; apply list_lookup_insert_eq; by eapply lookup_lt_Some|]. apply list_lookup_insert_eq. lia.
Qed.
Lemma sub_queues : ∃ pend used, queues v seen busy (<[p := new]> procs) pend used.
Proof.
  destruct (iv_queues _ _ _ _ Hv) as (pend & used & [Q1 Q2 Q3 Q4 Q5]). exists (pend ++ [i0]), used.
  assert (Hold : ∀ id sv, id ∈ pend ++ busy ++ used ∨ at_stage procs id sv false → id ≠ i0 ∧ (id < NUM)%nat).
  { assert (Hst : ∀ id sv, at_stage procs id sv false → id ≠ i0 ∧ (id < NUM)%nat).
    { intros id sv (q & c & w' & j1 & j2 & Hq). split.
      - intros ->. eapply (sub_others q _ i0 Hq); [by left|by left].
      - destruct (iv_len _ _ _ _ Hv) as (_ & [Hl _] & _). eapply (chain_ids s); [done|eapply (iv_req _ _ _ _ Hv); exact Hq|by left]. }
    intros id sv [Hin|H]; [|by eapply Hst]. rewrite app_assoc in Hin. apply elem_of_app in Hin as [Hin|Hin]; [apply Q4 in Hin|apply Q5 in Hin]; by eapply Hst. }
  assert (Hni : i0 ∉ pend ++ busy ++ used) by (intros Hin; by destruct (Hold i0 false (or_introl Hin)) as [[] _]).
  assert (Hlen : (length pend < 8)%nat).
  { change (length (i0 :: pend) ≤ 8)%nat. apply heads_short.
    - apply NoDup_app in Q3 as (Hn & _ & _). constructor; [|done]. intros H. apply Hni, elem_of_app. by left.
    - intros i [->|Hi]%elem_of_cons; [apply sub_lt; by left|]. apply (Hold i false). left. apply elem_of_app. by left. }
  assert (Hst : ∀ id sv, at_stage (<[p := new]> procs) id sv false ↔ (id = i0 ∧ sv = false) ∨ at_stage procs id sv false).
  { intros id sv. unfold at_stage, new. split.
    - intros (q & c & w' & j1 & j2 & [[_ Heq]|[_ Hq]]%lookup_insert_Some); [left; by injection Heq|right; by eexists _, _, _, _, _].
    - intros [[-> ->]|(q & c & w' & j1 & j2 & Hq)]; [exists p, b, w, i1, i2; apply lookup_insert_eq|]. exists q, c, w', j1, j2. rewrite lookup_insert_ne; [done|]. intros ->. congruence. }
  split.
  - apply (queued_put (v_avail s) seen (v_avail_idx s) pend i0 Q1 Hlen).
  - exact Q2.
  - rewrite <-app_assoc, (Permutation_app_comm [i0]), <-!app_assoc. rewrite !app_assoc. apply NoDup_app. rewrite <-!app_assoc. split; [done|]. split; [|apply NoDup_singleton].
    intros i Hi ->%list_elem_of_singleton. done.
  - intros id. rewrite Hst, <-Q4. rewrite !elem_of_app, list_elem_of_singleton. tauto.
  - intros id. rewrite Hst, <-Q5. split; [by right|by intros [[_ ?]|?]].
Qed.

Lemma vinv_submit : vinv v seen busy (<[p := new]> procs).
Proof.
  split; [apply sub_lengths|..].
  - intros c y. rewrite sub_buf. case_decide as Hc; [|by apply (iv_bufs _ _ _ _ Hv)]. intros [= <-]. destruct (iv_bufs _ _ _ _ Hv b x Hx) as [H1 H2]. by split.
  - intros q c w' wk [[_ Heq]|[_ Hq]]%lookup_insert_Some; [discriminate Heq|]. destruct (iv_free _ _ _ _ Hv _ _ _ _ Hq) as [H1 H2]. split.
    + rewrite sub_buf. by case_decide.
    + intros Hwk%H2. destruct Hg as (_ & _ & _ & Hc). simpl in Hc. unfold v, submitted. cbn. lia.
  - intros q c w' j0 j1 j2 sv wk [[<- Heq]|[_ Hq]]%lookup_insert_Some; [injection Heq as <- <- <- <- <- <- <-; apply sub_chain|].
    pose proof (iv_req _ _ _ _ Hv _ _ _ _ _ _ _ _ Hq) as Hc. apply (request_frame s v c w' j0 j1 j2 sv sv Hc).
    + intros i Hi. by apply sub_same, (sub_others q _ i Hq).
    + destruct (sub_same j0) as [_ ->]; [apply (sub_others q _ j0 Hq); by left|]. apply (ch_info _ _ _ _ _ _ _ Hc).
    + intros y Hy. exists y. split; [|done]. rewrite sub_buf. rewrite decide_False; [done|]. by apply (Hidle q _ Hq).
  - intros q c w' j0 j1 j2 sv wk [[<- Heq]|[_ Hq]]%lookup_insert_Some.
    + injection Heq as <- <- <- <- <- <- <-. split; [done|]. rewrite sub_buf, decide_True by done. by eexists.
    + destruct (iv_flag _ _ _ _ Hv _ _ _ _ _ _ _ _ Hq) as [H1 (y & Hy & Hd)]. split; [done|]. exists y. split; [|done]. rewrite sub_buf, decide_False; [done|]. by apply (Hidle q _ Hq).
  - intros i Hi. destruct (decide (i ∈ [i0; i1; i2])) as [Hin|Hn]; [exists p, new; split; [apply lookup_insert_eq|done]|].
    destruct (sub_same i Hn) as [(_ & Hfr & _) _]. rewrite Hfr in Hi. destruct (iv_own _ _ _ _ Hv i Hi) as (q & y & Hq & Hy). exists q, y. split; [|done]. rewrite lookup_insert_ne; [done|]. intros ->. congruence.
  - intros q r y z i [[<- <-]|[_ Hq]]%lookup_insert_Some [[<- <-]|[_ Hr]]%lookup_insert_Some Hy Hz; [done|exfalso; by apply (sub_others r z i Hr Hz)|exfalso; by apply (sub_others q y i Hq Hy)|by apply (iv_disj _ _ _ _ Hv q r y z i)].
  - apply insert_phase_buf; [done|done|apply (iv_buf _ _ _ _ Hv)].
  - apply sub_queues.
Qed.
End submit.
End steps.

(** ** The steps that end a request: the device, the interrupt, the waking process *)

Section done.
Context {E : Type} `{!VirtioRegs E}.
Abbreviation V := (vdisk E).
Implicit Types (s v : V) (procs : gmap nat phase).

(** Two requests do not share a descriptor. *)
Lemma ids_apart s seen busy procs p q x y i j : vinv s seen busy procs → procs !! p = Some x → procs !! q = Some y → p ≠ q → i ∈ ids x → j ∈ ids y → i ≠ j.
Proof. intros Hv Hp Hq Hne Hi Hj ->. apply Hne. by eapply (iv_disj _ _ _ _ Hv). Qed.
Lemma same_head s seen busy procs p q b w b' w' i0 i1 i2 j1 j2 sv wk sv' wk' : vinv s seen busy procs →
  procs !! p = Some (WaitBuf b w i0 i1 i2 sv wk) → procs !! q = Some (WaitBuf b' w' i0 j1 j2 sv' wk') → p = q.
Proof. intros Hv Hp Hq. eapply (iv_disj _ _ _ _ Hv); [exact Hp|exact Hq|by left|by left]. Qed.

(** ** The waking process *)

Section finish.
Context s seen busy procs p b (w : bool) i0 i1 i2 cs (Hv : vinv s seen busy procs) (Hp : procs !! p = Some (WaitBuf b w i0 i1 i2 true true))
  (Hc : only_free cs) (Hcs : ChFree ∈ cs).
Let v : V := chain_freed (w_info (<[i0 := mkinfo None 0]> (v_info s)) s) i0 i1 i2.
Let procs' := woken_by cs <$> delete p procs.

Lemma fin_buf q c w' j0 j1 j2 sv wk : procs' !! q = Some (WaitBuf c w' j0 j1 j2 sv wk) ↔ q ≠ p ∧ procs !! q = Some (WaitBuf c w' j0 j1 j2 sv wk).
Proof. unfold procs'. rewrite woken_buf by done. rewrite lookup_delete_Some. split; intros [H1 H2]; by split. Qed.
Lemma fin_free q c w' wk : procs' !! q = Some (WaitFree c w' wk) → wk = true ∧ ∃ wk0, procs !! q = Some (WaitFree c w' wk0).
Proof. intros (wk0 & [_ H1]%lookup_delete_Some & ->)%woken_free. rewrite bool_decide_true, orb_true_r by done. by eauto. Qed.
Lemma fin_same i : i ∉ [i0; i1; i2] → same_at s v i ∧ v_info v !! i = v_info s !! i.
Proof.
  intros Hi. assert (i ≠ i0 ∧ i ≠ i1 ∧ i ≠ i2) as (Hn0 & Hn1 & Hn2) by set_solver. unfold same_at, v, chain_freed. cbn. by rewrite !list_lookup_insert_ne by done.
Qed.
Lemma fin_others q y i : q ≠ p → procs !! q = Some y → i ∈ ids y → i ∉ [i0; i1; i2].
Proof. intros Hne Hq Hi Hin. by apply (ids_apart s seen busy procs p q _ y i i Hv Hp Hq (not_eq_sym Hne) Hin Hi). Qed.
Lemma fin_freed i : i ∈ [i0; i1; i2] → v_free v !! i = Some 1.
Proof.
  intros Hi. assert (Hlt : ∀ j, j ∈ [i0; i1; i2] → (j < length (v_free s))%nat).
  { intros j Hj. eapply lookup_lt_Some. apply (ln_used _ _ _ _ _ _ (ch_links _ _ _ _ _ _ _ (iv_req _ _ _ _ Hv _ _ _ _ _ _ _ _ Hp)) j Hj). }
  unfold v, chain_freed. cbn. apply list_lookup_insert_Some. rewrite !length_insert. destruct (decide (i = i2)) as [->|H2]; [left; by auto|right; split; [done|]].
  apply list_lookup_insert_Some. rewrite !length_insert. destruct (decide (i = i1)) as [->|H1]; [left; by auto|right; split; [done|]].
  assert (i = i0) as -> by set_solver. apply list_lookup_insert_eq. by auto.
Qed.

Lemma vinv_finish : vinv v seen busy procs'.
Proof.
  destruct Hv as [Hl Hb Hf Hr Hfl Ho Hd Hbd (pend & used & [Q1 Q2 Q3 Q4 Q5])]. split.
  - destruct Hl as (H1 & H2 & H3 & H4 & H5 & H6). unfold lengths, v, chain_freed. cbn. rewrite !length_insert. split; [done|]. split; [|done]. repeat (apply marks_set; [|by right]). done.
  - exact Hb.
  - intros q c w' wk (-> & wk0 & Hq)%fin_free. split; [by eapply Hf|done].
  - intros q c w' j0 j1 j2 sv wk [Hne Hq]%fin_buf. pose proof (Hr _ _ _ _ _ _ _ _ Hq) as Hch. apply (request_frame s v c w' j0 j1 j2 sv sv Hch).
    + intros i Hi. by apply fin_same, (fin_others q _ i Hne Hq).
    + destruct (fin_same j0) as [_ ->]; [apply (fin_others q _ j0 Hne Hq); by left|]. apply (ch_info _ _ _ _ _ _ _ Hch).
    + intros y Hy. by exists y.
  - intros q c w' j0 j1 j2 sv wk [Hne Hq]%fin_buf. by eapply Hfl.
  - intros i Hi. assert (Hn : i ∉ [i0; i1; i2]) by (intros H; apply fin_freed in H; congruence). destruct (fin_same i Hn) as [(_ & Hfr & _) _]. rewrite Hfr in Hi.
    destruct (Ho i Hi) as (q & y & Hq & Hy). destruct y as [|c w' j0 j1 j2 sv wk]; [by apply elem_of_nil in Hy|]. eexists q, _. split; [|exact Hy]. apply fin_buf. split; [|done].
    intros ->. rewrite Hp in Hq. by injection Hq as <- <- <- <- <- <- <-.
  - intros q r [|] [|] i Hq Hq' Hi Hj; try (by apply elem_of_nil in Hi); try (by apply elem_of_nil in Hj). apply fin_buf in Hq as [_ Hq], Hq' as [_ Hq']. by eapply (Hd q r).
  - apply fmap_phase_buf; [apply woken_phase_buf|]. intros q r x y [_ Hq]%lookup_delete_Some [_ Hq']%lookup_delete_Some. by eapply Hbd.
  - exists pend, used. assert (Hst : ∀ id sv, at_stage procs' id sv false ↔ at_stage procs id sv false).
    { intros id sv. unfold at_stage. setoid_rewrite fin_buf. split; [by intros (q & c & w' & j1 & j2 & _ & Hq); eexists _, _, _, _, _|].
      intros (q & c & w' & j1 & j2 & Hq). exists q, c, w', j1, j2. split; [|done]. intros ->. by rewrite Hp in Hq. }
    split; [done|done|done|intros id; by rewrite Hst|intros id; by rewrite Hst].
Qed.
End finish.

(** ** The interrupt *)

(** Every request that the device has served is woken. *)
Definition settle (x : phase) : phase := match x with WaitBuf b w i0 i1 i2 sv _ => WaitBuf b w i0 i1 i2 sv sv | _ => x end.
Definition served_bufs procs (used : list nat) (bs : list nat) : Prop := Forall2 (λ id b, ∃ p w i1 i2, procs !! p = Some (WaitBuf b w id i1 i2 true false)) used bs.

Lemma served_bufs_ex procs used : (∀ id, id ∈ used → at_stage procs id true false) → ∃ bs, served_bufs procs used bs.
Proof.
  induction used as [|id used IH]; intros H; [exists []; constructor|]. destruct IH as [bs Hbs]; [intros i Hi; apply H; by right|].
  destruct (H id ltac:(by left)) as (p & b & w & i1 & i2 & Hp). exists (b :: bs). constructor; [by exists p, w, i1, i2|done].
Qed.
Lemma served_bufs_in s seen busy procs used bs : vinv s seen busy procs → (∀ id, id ∈ used ↔ at_stage procs id true false) → served_bufs procs used bs →
  ∀ p b w i0 i1 i2 sv wk, procs !! p = Some (WaitBuf b w i0 i1 i2 sv wk) → b ∈ bs ↔ sv = true ∧ wk = false.
Proof.
  intros Hv Hu HF p b w i0 i1 i2 sv wk Hp. split.
  - intros [k Hk]%list_elem_of_lookup. destruct (Forall2_lookup_r _ _ _ _ _ HF Hk) as (id & _ & q & w' & j1 & j2 & Hq).
    assert (p = q) as -> by (by eapply (iv_buf _ _ _ _ Hv)). rewrite Hp in Hq. by injection Hq as _ _ _ _ -> ->.
  - intros [-> ->]. assert (Hin : i0 ∈ used) by (apply Hu; by exists p, b, w, i1, i2). apply list_elem_of_lookup in Hin as [k Hk].
    destruct (Forall2_lookup_l _ _ _ _ _ HF Hk) as (b' & Hb' & q & w' & j1 & j2 & Hq). assert (p = q) as <- by (by eapply same_head).
    rewrite Hp in Hq. injection Hq as <- _ _ _. by eapply list_elem_of_lookup_2.
Qed.
Lemma woken_settle s seen busy procs used bs : vinv s seen busy procs → (∀ id, id ∈ used ↔ at_stage procs id true false) → served_bufs procs used bs →
  woken_by (ChBuf <$> bs) <$> procs = settle <$> procs.
Proof.
  intros Hv Hu HF. apply map_eq. intros p. rewrite !lookup_fmap. destruct (procs !! p) as [x|] eqn:Hp; [|done]. cbn. f_equal. destruct x as [b w wk|b w i0 i1 i2 sv wk]; cbn.
  - rewrite bool_decide_false; [by rewrite orb_false_r|]. intros (? & [=] & _)%list_elem_of_fmap.
  - f_equal. pose proof (served_bufs_in s seen busy procs used bs Hv Hu HF p b w i0 i1 i2 sv wk Hp) as Hin. destruct (iv_flag _ _ _ _ Hv _ _ _ _ _ _ _ _ Hp) as [Hwk _].
    assert (Hb : ChBuf b ∈ ChBuf <$> bs ↔ sv = true ∧ wk = false) by (rewrite <-Hin, list_elem_of_fmap; split; [by intros (? & [= ->] & ?)|by eauto]).
    destruct wk; [by rewrite Hwk|]. destruct sv; cbn; [apply bool_decide_true, Hb; done|apply bool_decide_false; rewrite Hb; by intros [? _]].
Qed.

Lemma settle_buf procs p b w i0 i1 i2 sv wk : (settle <$> procs) !! p = Some (WaitBuf b w i0 i1 i2 sv wk) ↔ wk = sv ∧ ∃ wk0, procs !! p = Some (WaitBuf b w i0 i1 i2 sv wk0).
Proof.
  rewrite lookup_fmap_Some. split.
  - intros ([|b' w' j0 j1 j2 sv' wk'] & Heq & Hp); [discriminate Heq|]. injection Heq as -> -> -> -> -> <- <-. by eauto.
  - intros (-> & wk0 & Hp). exists (WaitBuf b w i0 i1 i2 sv wk0). by split.
Qed.
Lemma settle_free procs p b w wk : (settle <$> procs) !! p = Some (WaitFree b w wk) → procs !! p = Some (WaitFree b w wk).
Proof. rewrite lookup_fmap_Some. intros ([|] & Heq & Hp); [|discriminate Heq]. by injection Heq as -> -> ->. Qed.

Definition intr_done s bs v : Prop :=
  v_desc v = v_desc s ∧ v_avail v = v_avail s ∧ v_avail_idx v = v_avail_idx s ∧ v_used v = v_used s ∧ v_uidx v = v_uidx s ∧ v_free v = v_free s ∧
  v_used_idx v = v_uidx s ∧ v_info v = v_info s ∧ v_ops v = v_ops s ∧ v_buf v = done_all bs (v_buf s).
Lemma done_all_blockno bs l b x : l !! b = Some x → ∃ x', done_all bs l !! b = Some x' ∧ vb_blockno x' = vb_blockno x ∧ vb_data x' = vb_data x.
Proof. intros Hx. rewrite done_all_lookup, Hx. case_decide; by eexists. Qed.

Lemma vinv_intr s v seen busy procs pend used bs : vinv s seen busy procs → queues s seen busy procs pend used → served_bufs procs used bs → intr_done s bs v →
  vinv v seen busy (settle <$> procs).
Proof.
  intros Hv [Q1 Q2 Q3 Q4 Q5] HF (Ed & Ea & Eai & Eu & Eui & Ef & Eux & Ei & Eo & Eb). pose proof (served_bufs_in s seen busy procs used bs Hv Q5 HF) as Hin.
  destruct Hv as [Hl Hb Hf Hr Hfl Ho Hd Hbd _]. split.
  - unfold lengths. by rewrite Ed, Ea, Eu, Ef, Ei, Eo.
  - intros b x. rewrite Eb, done_all_lookup. case_decide; [|by apply Hb]. rewrite fmap_Some. intros (y & Hy & ->). destruct (Hb b y Hy) as [H1 H2]. by split.
  - intros p b w wk Hp%settle_free. destruct (Hf _ _ _ _ Hp) as [[x Hx] H2]. rewrite Eb, Ef. split; [|done]. destruct (done_all_blockno bs _ _ _ Hx) as (x' & -> & _). by eexists.
  - intros p b w i0 i1 i2 sv wk (-> & wk0 & Hp)%settle_buf. pose proof (Hr _ _ _ _ _ _ _ _ Hp) as Hch. apply (request_frame s v b w i0 i1 i2 sv sv Hch).
    + intros i Hi. unfold same_at. by rewrite Ed, Ef, Eo.
    + rewrite Ei. apply (ch_info _ _ _ _ _ _ _ Hch).
    + intros x Hx. rewrite Eb. destruct (done_all_blockno bs _ _ _ Hx) as (x' & H1 & H2 & _). by exists x'.
  - intros p b w i0 i1 i2 sv wk (-> & wk0 & Hp)%settle_buf. split; [done|]. destruct (Hfl _ _ _ _ _ _ _ _ Hp) as [Hwk (x & Hx & Hdk)]. specialize (Hin _ _ _ _ _ _ _ _ Hp).
    rewrite Eb, done_all_lookup, Hx. case_decide as Hbs.
    + apply Hin in Hbs as [-> ->]. cbn. by eexists.
    + exists x. split; [done|]. rewrite Hdk. destruct wk0; [by rewrite Hwk|]. destruct sv; [|done]. by destruct Hbs; apply Hin.
  - intros i. rewrite Ef. intros (p & [|b w i0 i1 i2 sv wk] & Hp & Hi)%Ho; [by apply elem_of_nil in Hi|]. eexists p, _. split; [apply settle_buf; split; [done|by eexists]|exact Hi].
  - intros p q [|] [|] i Hp Hq Hi Hj; try (by apply elem_of_nil in Hi); try (by apply elem_of_nil in Hj). apply settle_buf in Hp as (-> & ? & Hp), Hq as (-> & ? & Hq). by eapply (Hd p q).
  - apply fmap_phase_buf; [by intros []|done].
  - exists pend, []. assert (Hst : ∀ id, at_stage (settle <$> procs) id false false ↔ at_stage procs id false false).
    { intros id. unfold at_stage. setoid_rewrite settle_buf. split.
      - intros (p & b & w & i1 & i2 & _ & wk0 & Hp). exists p, b, w, i1, i2. destruct (Hfl _ _ _ _ _ _ _ _ Hp) as [Hwk _]. destruct wk0; [by specialize (Hwk eq_refl)|done].
      - intros (p & b & w & i1 & i2 & Hp). exists p, b, w, i1, i2. split; [done|by eexists]. }
    split.
    + by rewrite Ea, Eai.
    + rewrite Eu, Eui, Eux. apply queued_nil; [by destruct Hl as (_ & _ & _ & _ & _ & ?)|]. destruct Q2 as (_ & _ & ->). apply Z.mod_pos_bound. lia.
    + rewrite app_nil_r. rewrite app_assoc in Q3. by apply NoDup_app in Q3 as [? _].
    + intros id. by rewrite Hst.
    + intros id. split; [by intros ?%elem_of_nil|]. intros (p & b & w & i1 & i2 & [? _]%settle_buf). done.
Qed.
End done.

(** ** The steps of the device and of the owners of buffers *)

Definition disk_ok (disk : gmap Z (list Z)) : Prop := ∀ k d, disk !! k = Some d → Z.of_nat (length d) = BSIZE.
Lemma block_at_len disk k : disk_ok disk → Z.of_nat (length (block_at disk k)) = BSIZE.
Proof.
  intros H. unfold block_at. destruct (disk !! k) as [d|] eqn:Hk; [by eapply H|]. cbn [default]. by rewrite length_replicate.
Qed.

Section dev.
Context {E : Type} `{!VirtioRegs E}.
Abbreviation V := (vdisk E).
Implicit Types (s v : V) (procs : gmap nat phase) (disk : gmap Z (list Z)).

Lemma vinv_take s seen busy procs id seen' : vinv s seen busy procs → dev_take s seen = Some (id, seen') → vinv s seen' (busy ++ [id]) procs.
Proof.
  intros [Hl Hb Hf Hr Hfl Ho Hd Hbd (pend & used & [Q1 Q2 Q3 Q4 Q5])]. unfold dev_take. case_decide as Hne; [done|].
  destruct pend as [|i pend]; [by destruct Hne; apply (queued_end _ _ _ _ Q1)|]. apply queued_get in Q1 as [Hg Q1]. rewrite Hg. cbn. rewrite Nat2Z.id. intros [= <- <-].
  split; try done. exists pend, used. split; [done|done| | |done].
  - rewrite <-!app_assoc. cbn. rewrite (app_assoc pend), <-Permutation_middle. rewrite <-app_assoc. exact Q3.
  - intros j. rewrite <-Q4. set_solver.
Qed.
(** What is on the available ring can be taken. *)
Lemma take_ex s seen busy procs id pend used : queues s seen busy procs (id :: pend) used → is_Some (dev_take s seen).
Proof.
  intros [Q1 _ _ _ _]. unfold dev_take. rewrite decide_False by (intros H; by apply (queued_end _ _ _ _ Q1) in H). apply queued_get in Q1 as [-> _]. by eexists.
Qed.

(** ** A transfer *)

Section complete.
Context s seen l1 id l2 procs disk p b (w : bool) i1 i2 x (Hv : vinv s seen (l1 ++ id :: l2) procs) (Hdk : disk_ok disk)
  (Hp : procs !! p = Some (WaitBuf b w id i1 i2 false false)) (Hx : v_buf s !! b = Some x).

Definition moved_bufs s disk b (w : bool) (x : vbuf) : list vbuf :=
  if w then v_buf s else <[b := mkvbuf (vb_blockno x) (block_at disk (vb_blockno x)) (vb_disk x)]> (v_buf s).
Definition moved s disk b (w : bool) (x : vbuf) (id : nat) : V :=
  w_used (<[Z.to_nat (v_uidx s mod Z.of_nat NUM) := Z.of_nat id]> (v_used s)) (u16 (v_uidx s + 1)) (w_info (<[id := mkinfo (Some b) 0]> (v_info s)) (w_buf (moved_bufs s disk b w x) s)).
Definition moved_disk disk (w : bool) (x : vbuf) : gmap Z (list Z) := if w then <[vb_blockno x := vb_data x]> disk else disk.
Let v := moved s disk b w x id.
Let new := WaitBuf b w id i1 i2 true false.

Lemma complete_eq : dev_complete s disk id = Some (v, moved_disk disk w x).
Proof.
  pose proof (iv_req _ _ _ _ Hv _ _ _ _ _ _ _ _ Hp) as [[H0 H1 H2 _ _] Hi (x' & Hx' & Ho)]. rewrite Hx in Hx'. injection Hx' as <-.
  assert (Hfin : ∀ bufs, dev_finish s bufs id id = Some (w_used (<[Z.to_nat (v_uidx s mod Z.of_nat NUM) := Z.of_nat id]> (v_used s)) (u16 (v_uidx s + 1)) (w_info (<[id := mkinfo (Some b) 0]> (v_info s)) (w_buf bufs s)))).
  { intros bufs. unfold dev_finish, dev_report. rewrite Hi. cbn. destruct (iv_len _ _ _ _ Hv) as (_ & _ & _ & _ & _ & Hlu).
    destruct (lookup_NUM (v_used s) (Z.to_nat (v_uidx s mod Z.of_nat NUM)) Hlu) as [u ->]; [|done].
    pose proof (Z.mod_pos_bound (v_uidx s) (Z.of_nat NUM) ltac:(done)). unfold NUM in *. lia. }
  unfold dev_complete. rewrite H0. cbn [mbind option_bind]. rewrite Ho. cbn [mbind option_bind]. rewrite Nat2Z.id, H1. cbn [mbind option_bind]. rewrite Nat2Z.id, H2. cbn [mbind option_bind].
  rewrite Hx. cbn [mbind option_bind q_sector q_type]. rewrite decide_True by (rewrite Z.mul_comm; apply Z.mod_mul; lia).
  assert (Hdiv : 2 * vb_blockno x / 2 = vb_blockno x) by (rewrite Z.mul_comm; apply Z.div_mul; lia). rewrite !Hdiv.
  unfold v, moved, moved_bufs, moved_disk. destruct w.
  - rewrite decide_True by done. by rewrite Hfin.
  - rewrite decide_False by (intros [? _]; done). rewrite decide_True by done. by rewrite Hfin.
Qed.

Lemma served_insert : served id <$> procs = <[p := new]> procs.
Proof.
  apply map_eq. intros q. rewrite lookup_fmap. destruct (decide (q = p)) as [->|Hne].
  - rewrite Hp, lookup_insert_eq. cbn. by rewrite bool_decide_true.
  - rewrite lookup_insert_ne by done. destruct (procs !! q) as [[|c w' j0 j1 j2 sv wk]|] eqn:Hq; [done| |done]. cbn. do 2 f_equal.
    rewrite bool_decide_false; [by rewrite orb_false_r|]. intros ->. apply Hne. by eapply same_head.
Qed.
Lemma com_buf c : v_buf v !! c = if decide (c = b ∧ w = false) then Some (mkvbuf (vb_blockno x) (block_at disk (vb_blockno x)) (vb_disk x)) else v_buf s !! c.
Proof.
  unfold v, moved, moved_bufs. cbn. destruct w; [by rewrite decide_False by (by intros [_ [=]])|]. case_decide as Hc.
  - destruct Hc as [-> _]. apply list_lookup_insert_eq. by eapply lookup_lt_Some.
  - apply list_lookup_insert_ne. intros ->. by apply Hc.
Qed.
Lemma com_new q y : <[p := new]> procs !! q = Some y → (q = p ∧ y = new) ∨ (q ≠ p ∧ procs !! q = Some y).
Proof. intros [[<- <-]|[Hn Hq]]%lookup_insert_Some; [by left|right; by split]. Qed.
Lemma com_other q y : procs !! q = Some y → q ≠ p → phase_buf y ≠ b.
Proof. intros Hq Hne Hb. apply Hne. by eapply (iv_buf _ _ _ _ Hv). Qed.
Lemma com_other_buf q y : procs !! q = Some y → q ≠ p → v_buf v !! phase_buf y = v_buf s !! phase_buf y.
Proof. intros Hq Hne. rewrite com_buf, decide_False; [done|]. intros [Hb _]. by apply (com_other q y). Qed.
Lemma com_own q y i : <[p := new]> procs !! q = Some y → i ∈ ids y → ∃ y', procs !! q = Some y' ∧ i ∈ ids y'.
Proof. intros [[-> ->]|[_ Hq]]%com_new Hi; eauto. Qed.
Lemma com_stage j sv : at_stage (<[p := new]> procs) j sv false ↔ (if sv then j = id ∨ at_stage procs j true false else j ≠ id ∧ at_stage procs j false false).
Proof.
  assert (Hold : ∀ c w' j1 j2 sv', procs !! p = Some (WaitBuf c w' j j1 j2 sv' false) → j = id ∧ sv' = false) by (intros c w' j1 j2 sv' Hq; rewrite Hp in Hq; by injection Hq as <- <- <- <- <- <-).
  unfold at_stage, new. split.
  - intros (q & c & w' & j1 & j2 & [[_ Heq]|[Hne Hq]]%com_new); [injection Heq as _ _ -> _ _ ->; by left|]. destruct sv; [right; by eexists _, _, _, _, _|].
    split; [intros ->; apply Hne; by eapply same_head|by eexists _, _, _, _, _].
  - destruct sv.
    + intros [->|(q & c & w' & j1 & j2 & Hq)]; [exists p, b, w, i1, i2; apply lookup_insert_eq|]. exists q, c, w', j1, j2. rewrite lookup_insert_ne; [done|]. intros <-. by apply Hold in Hq as [_ ?].
    + intros (Hne & q & c & w' & j1 & j2 & Hq). exists q, c, w', j1, j2. rewrite lookup_insert_ne; [done|]. intros <-. by apply Hold in Hq as [? _].
Qed.

Lemma vinv_moved : vinv v seen (l1 ++ l2) (served id <$> procs).
Proof.
  rewrite served_insert. destruct (iv_queues _ _ _ _ Hv) as (pend & used & [Q1 Q2 Q3 Q4 Q5]). destruct (iv_len _ _ _ _ Hv) as (H1 & H2 & H3 & H4 & H5 & H6).
  pose proof (iv_req _ _ _ _ Hv _ _ _ _ _ _ _ _ Hp) as Hch. split.
  - unfold lengths, v, moved. cbn. by rewrite !length_insert.
  - intros c y. rewrite com_buf. case_decide; [|by apply (iv_bufs _ _ _ _ Hv)]. intros [= <-]. destruct (iv_bufs _ _ _ _ Hv b x Hx) as [Hb1 _]. split; [done|by apply block_at_len].
  - intros q c w' wk [[_ Heq]|[Hne Hq]]%com_new; [discriminate Heq|]. pose proof (com_other_buf q _ Hq Hne) as Hob. cbn [phase_buf] in Hob. rewrite Hob. by apply (iv_free _ _ _ _ Hv q c w').
  - intros q c w' j0 j1 j2 sv wk [[-> Heq]|[Hne Hq]]%com_new.
    + injection Heq as -> -> -> -> -> -> ->. apply (request_frame s v b w id i1 i2 false true Hch); [done|unfold v, moved; cbn; apply list_lookup_insert_eq; rewrite H3; eapply chain_ids; [by destruct H2|exact Hch|by left]|].
      intros y Hy. rewrite com_buf. rewrite Hx in Hy. injection Hy as <-. case_decide; by eexists.
    + pose proof (iv_req _ _ _ _ Hv _ _ _ _ _ _ _ _ Hq) as Hcq. apply (request_frame s v c w' j0 j1 j2 sv sv Hcq); [done| |].
      * unfold v, moved. cbn. rewrite list_lookup_insert_ne; [apply (ch_info _ _ _ _ _ _ _ Hcq)|]. intros ->. apply Hne. by eapply same_head.
      * intros y Hy. exists y. split; [|done]. pose proof (com_other_buf q _ Hq Hne) as Hob. cbn [phase_buf] in Hob. by rewrite Hob.
  - intros q c w' j0 j1 j2 sv wk [[-> Heq]|[Hne Hq]]%com_new.
    + injection Heq as -> -> -> -> -> -> ->. split; [done|]. destruct (iv_flag _ _ _ _ Hv _ _ _ _ _ _ _ _ Hp) as [_ (y & Hy & Hd)]. rewrite Hx in Hy. injection Hy as <-.
      rewrite com_buf. case_decide; by eexists.
    + destruct (iv_flag _ _ _ _ Hv _ _ _ _ _ _ _ _ Hq) as [Hwk (y & Hy & Hd)]. split; [done|]. exists y. pose proof (com_other_buf q _ Hq Hne) as Hob. cbn [phase_buf] in Hob. by rewrite Hob.
  - intros i Hi. destruct (iv_own _ _ _ _ Hv i Hi) as (q & y & Hq & Hy). destruct (decide (q = p)) as [->|Hne].
    + exists p, new. split; [apply lookup_insert_eq|]. rewrite Hp in Hq. by injection Hq as <-.
    + exists q, y. by rewrite lookup_insert_ne.
  - intros q r y z i Hq Hr Hi Hj. destruct (com_own q y i Hq Hi) as (y' & Hq' & Hi'). destruct (com_own r z i Hr Hj) as (z' & Hr' & Hj'). by eapply (iv_disj _ _ _ _ Hv).
  - intros q r y z Hq Hr Heq. assert (Hold : ∀ q y, <[p := new]> procs !! q = Some y → ∃ y', procs !! q = Some y' ∧ phase_buf y' = phase_buf y) by (intros ? ? [[-> ->]|[_ ?]]%com_new; eauto).
    destruct (Hold q y Hq) as (y' & Hq' & Hy'). destruct (Hold r z Hr) as (z' & Hr' & Hz'). eapply (iv_buf _ _ _ _ Hv); [exact Hq'|exact Hr'|congruence].
  - exists pend, (used ++ [id]).
    assert (Q3' : NoDup (id :: pend ++ l1 ++ l2 ++ used)).
    { revert Q3. rewrite <-app_assoc. cbn. rewrite (app_assoc pend), <-Permutation_middle, <-app_assoc. done. }
    assert (Hni : id ∉ pend ++ l1 ++ l2 ++ used) by (by apply NoDup_cons in Q3' as [? _]).
    assert (Hlen : (length used < 8)%nat).
    { change (length (id :: used) ≤ 8)%nat. apply heads_short.
      - constructor; [set_solver|]. apply NoDup_app in Q3 as (_ & _ & Q3). by apply NoDup_app in Q3 as (_ & _ & ?).
      - assert (Hlt : ∀ j sv, at_stage procs j sv false → (j < NUM)%nat).
        { intros j sv (q & c & w' & j1 & j2 & Hq). eapply chain_ids; [by destruct H2|by eapply (iv_req _ _ _ _ Hv)|by left]. }
        intros j [->|Hj%Q5]%elem_of_cons; [eapply (Hlt id false); by exists p, b, w, i1, i2|by eapply Hlt]. }
    split; [exact Q1|by apply queued_put| | |].
    + revert Q3'. rewrite Permutation_cons_append, <-!app_assoc. done.
    + intros j. rewrite (com_stage j false), <-Q4. split; [intros Hj; split; [intros ->; set_solver|set_solver]|intros [Hne Hj]; set_solver].
    + intros j. rewrite (com_stage j true), <-Q5. set_solver.
Qed.
End complete.

(** ** The owner of a buffer *)

Lemma vinv_owner s seen busy procs b x : vinv s seen busy procs → idle procs b → buf_ok x → vinv (w_buf (<[b := x]> (v_buf s)) s) seen busy procs.
Proof.
  intros Hv Hi Hx. apply (vinv_frame s); try done.
  - by destruct Hv.
  - intros c y. cbn. intros [(_ & -> & _)|[_ H]]%list_lookup_insert_Some; [done|by apply (iv_bufs _ _ _ _ Hv c)].
  - intros c. cbn. rewrite <-!lookup_lt_is_Some, length_insert || rewrite !lookup_lt_is_Some, length_insert. done.
  - intros q y Hq. cbn. apply list_lookup_insert_ne. intros ->. by apply (Hi q y).
Qed.
End dev.
