(* ===== verification/VirtioClaims.v ===== *)
(** * The handlers of the disk driver on a good state, its start, and the device
    while a request is being made *)
From S2P Require Import Prelude Layout Spinlock Sleeplock ByteRing Virtio VirtioInv VirtioSteps.

Section ops.
Context {E : Type} `{!VirtioRegs E}.
Abbreviation V := (vdisk E).
Implicit Types (s v : V) (d : vst E) (procs : gmap nat phase) (disk : gmap Z (list Z)).

Definition calm d : Prop := lock_quiet (v_lock d) ∧ hart_good (v_hart d).
(** Contents of the buffers, as the callers see them. *)
Definition contents (l : list vbuf) : list (Z * list Z) := (λ x, (vb_blockno x, vb_data x)) <$> l.

Lemma contents_set l b x y : l !! b = Some x → vb_blockno y = vb_blockno x → vb_data y = vb_data x → contents (<[b := y]> l) = contents l.
Proof.
  intros Hx Hn Hd. unfold contents. rewrite list_fmap_insert, Hn, Hd. apply list_insert_id. by rewrite list_lookup_fmap, Hx.
Qed.
Lemma contents_done bs : ∀ l, contents (done_all bs l) = contents l.
Proof.
  induction bs as [|b bs IH]; intros l; [done|]. cbn [done_all foldl]. fold (done_all bs (done_at l b)). rewrite IH. unfold done_at.
  destruct (l !! b) as [x|] eqn:Hx; [|done]. by apply (contents_set l b x).
Qed.
Lemma abs_phase_woken cs procs : abs_phase <$> (woken_by cs <$> procs) = abs_phase <$> procs.
Proof. rewrite <-map_fmap_compose. apply map_fmap_ext. by intros p [|] _. Qed.

Lemma idle_woken cs procs b : idle procs b → idle (woken_by cs <$> procs) b.
Proof. intros H q x (y & <- & Hq)%lookup_fmap_Some. rewrite woken_phase_buf. by eapply H. Qed.
Lemma woken_none cs procs p : procs !! p = None → (woken_by cs <$> procs) !! p = None.
Proof. intros H. by rewrite lookup_fmap, H. Qed.

(** ** [virtio_disk_rw], until it sleeps *)

Lemma submit_got s seen busy procs b x w i0 i1 i2 l' : vinv s seen busy procs → got (v_free s) l' [i0; i1; i2] → v_buf s !! b = Some x →
  submit b w i0 i1 i2 (w_free l' s) = Ok (tt, submitted (w_free l' s) b x w i0 i1 i2).
Proof.
  intros Hv Hg Hx. destruct (iv_len _ _ _ _ Hv) as (Hld & Hm & Hrest). apply submit_ok; [split; [done|split; [by eapply got_marks|done]]|done| | |by destruct Hg].
  - apply (iv_bufs _ _ _ _ Hv b x Hx).
  - intros i Hin. by eapply sub_lt.
Qed.
Lemma rw_alloc_ok s seen busy procs p b w : vinv s seen busy procs → v_wakes s = [] → procs !! p = None → idle procs b → is_Some (v_buf s !! b) →
  ∃ r v, rw_alloc b w s = Ok (r, v) ∧ r ≠ VDone ∧ contents (v_buf v) = contents (v_buf s) ∧ vinv v seen busy (after p b w false r (woken_by (v_wakes v) <$> procs)).
Proof.
  intros Hv Hw Hp Hi [x Hx]. destruct (iv_len _ _ _ _ Hv) as (Hld & Hm & Hrest). unfold rw_alloc.
  destruct (alloc3_ok s Hm Hld) as [(i0 & i1 & i2 & l' & E1 & Hg)|(desc' & cs & E1 & Hl & Hd & Hcs & Hn)]; rewrite (bind_Ok_eq _ _ _ _ _ E1).
  - pose proof (submit_got s seen busy procs b x w i0 i1 i2 l' Hv Hg Hx) as Hsub.
    rewrite (bind_Ok_eq _ _ _ _ _ Hsub). unfold rw_wait, get_buf. erewrite bind_Ok_eq; [|apply arr_get_ok; unfold submitted, request_bufs; cbn; apply list_lookup_insert_eq; by eapply lookup_lt_Some].
    rewrite bool_decide_true by done. eexists _, _. split; [reflexivity|]. split; [done|]. split; [by apply (contents_set _ b x)|].
    cbn [after]. apply vinv_submit; [|done|done|by apply woken_none|by apply idle_woken].
    apply vinv_wake; [done|]. unfold submitted. cbn. rewrite Hw. by intros c ?%elem_of_nil.
  - eexists _, _. split; [reflexivity|]. split; [done|]. split; [done|]. cbn [after].
    assert (Hcs' : only_free (v_wakes (w_wakes (v_wakes s ++ cs) (w_desc desc' s)))) by (cbn; rewrite Hw; exact Hcs).
    apply vinv_sleep; [|by apply woken_none|by apply idle_woken|by exists x|done]. apply vinv_wake; [|done]. apply vinv_wakes.
    apply (vinv_frame s); try done; [|by apply (iv_bufs _ _ _ _ Hv)]. intros i Hi0. split; [by apply Hd|done].
Qed.

(** The part after the sleep on the buffer. *)
Lemma rw_wait_ok s seen busy procs p b w i0 i1 i2 sv : vinv s seen busy procs → v_wakes s = [] → procs !! p = Some (WaitBuf b w i0 i1 i2 sv true) →
  ∃ v, rw_wait b i0 i1 i2 s = Ok (VDone, v) ∧ sv = true ∧ v_buf v = v_buf s ∧ vinv v seen busy (woken_by (v_wakes v) <$> delete p procs).
Proof.
  intros Hv Hw Hp. destruct (iv_flag _ _ _ _ Hv _ _ _ _ _ _ _ _ Hp) as [Hsv (x & Hx & Hdk)]. specialize (Hsv eq_refl) as ->.
  eexists. split; [apply (rw_wait_done s b w i0 i1 i2 true x); [by destruct Hv|by eapply (iv_req _ _ _ _ Hv)|done|by rewrite Hdk]|]. split; [done|]. split; [done|].
  assert (Hcs : v_wakes (chain_freed (w_info (<[i0:=mkinfo None 0]> (v_info s)) s) i0 i1 i2) = [ChFree; ChFree; ChFree]) by (unfold chain_freed; cbn; by rewrite Hw).
  rewrite Hcs. apply (vinv_finish s seen busy procs p b w); [done|done| |by left]. intros c. rewrite !elem_of_cons, elem_of_nil. tauto.
Qed.

(** ** [virtio_disk_intr] *)

(** The loop, after the registers. *)
Lemma intr_body_loop s : ∃ e, intr_body s = intr_loop (Datatypes.S (Z.to_nat (u16 (v_uidx s - v_used_idx s)))) (w_regs e s).
Proof.
  destruct (vr_read VIRTIO_MMIO_INTERRUPT_STATUS (v_regs s)) as [st e] eqn:Hr.
  assert (Hrd : rd_reg VIRTIO_MMIO_INTERRUPT_STATUS s = Ok (st, w_regs e s)) by (unfold rd_reg; by rewrite Hr).
  unfold intr_body. rewrite (bind_Ok_eq _ _ _ _ _ Hrd). erewrite bind_Ok_eq; [|reflexivity]. rewrite gets_bind. by eexists.
Qed.
Lemma used_good s seen busy procs used bs : vinv s seen busy procs → Forall2 (λ id b, ∃ p w i1 i2, procs !! p = Some (WaitBuf b w id i1 i2 true false)) used bs →
  Forall2 (λ id b, v_info s !! id = Some (mkinfo (Some b) 0) ∧ is_Some (v_buf s !! b)) used bs.
Proof.
  intros Hv Hbs. eapply Forall2_impl; [exact Hbs|]. intros id b (p & w & i1 & i2 & Hp). split; [apply (ch_info _ _ _ _ _ _ _ (iv_req _ _ _ _ Hv _ _ _ _ _ _ _ _ Hp))|].
  destruct (iv_flag _ _ _ _ Hv _ _ _ _ _ _ _ _ Hp) as [_ (x & Hx & _)]. by exists x.
Qed.
Lemma intr_ok s seen busy procs : vinv s seen busy procs → v_wakes s = [] →
  ∃ v, intr_body s = Ok (tt, v) ∧ contents (v_buf v) = contents (v_buf s) ∧ v_used_idx v = v_uidx v ∧ woken_by (v_wakes v) <$> procs = settle <$> procs ∧ vinv v seen busy (settle <$> procs).
Proof.
  intros Hv Hw. destruct (iv_queues _ _ _ _ Hv) as (pend & used & Q). destruct (served_bufs_ex procs used) as [bs Hbs]; [intros id; apply (qs_served _ _ _ _ _ _ Q)|].
  destruct (intr_body_loop s) as [e Hb]. set (s1 := w_regs e s) in *. pose proof (qs_used _ _ _ _ _ _ Q) as Qu.
  pose proof (used_good s seen busy procs used bs Hv Hbs) as HF. rewrite Hb.
  rewrite (intr_loop_ok used bs s1); [|exact Qu|exact HF|].
  - eexists. split; [reflexivity|]. split; [apply contents_done|]. split; [done|]. split.
    + cbn. rewrite Hw. cbn. eapply woken_settle; [exact Hv|apply (qs_served _ _ _ _ _ _ Q)|done].
    + by eapply (vinv_intr s); [exact Hv|exact Q|exact Hbs|].
  - rewrite (queued_diff _ _ _ _ Qu). lia.
Qed.
End ops.

(** ** The device while a request is being submitted *)
Section inside.
Context {E : Type} `{!VirtioRegs E}.
Abbreviation V := (vdisk E).
Implicit Types (s u v : V) (disk : gmap Z (list Z)).

(** What the arrays say of the request with head [id]. *)
Record readable v (c : nat) (w : bool) (id i1 i2 : nat) (y : vbuf) : Prop := {
  rb_d0 : v_desc v !! id = Some (mkdesc (DReq id) 16 1 (Z.of_nat i1));
  rb_d1 : v_desc v !! i1 = Some (mkdesc (DData c) 1024 (if w then 1 else 3) (Z.of_nat i2));
  rb_d2 : v_desc v !! i2 = Some (mkdesc (DStatus id) 1 2 0);
  rb_info : v_info v !! id = Some (mkinfo (Some c) 255);
  rb_op : v_ops v !! id = Some (mkreq (if w then VIRTIO_BLK_T_OUT else VIRTIO_BLK_T_IN) 0 (2 * vb_blockno y));
  rb_buf : v_buf v !! c = Some y;
  rb_used : length (v_used v) = NUM }.

Lemma report_ok v c bufs id status : v_info v !! id = Some (mkinfo (Some c) 255) → length (v_used v) = NUM →
  dev_report v bufs id id status = Some (w_used (<[Z.to_nat (v_uidx v mod Z.of_nat NUM) := Z.of_nat id]> (v_used v)) (u16 (v_uidx v + 1))
    (w_info (<[id := mkinfo (Some c) status]> (v_info v)) (w_buf bufs v))).
Proof.
  intros Hi Hu. unfold dev_report. rewrite Hi. cbn.
  destruct (lookup_NUM (v_used v) (Z.to_nat (v_uidx v mod Z.of_nat NUM)) Hu) as [u ->]; [|done].
  pose proof (Z.mod_pos_bound (v_uidx v) (Z.of_nat NUM) ltac:(done)). unfold NUM in *. lia.
Qed.
Lemma complete_readable v disk c w id i1 i2 y : readable v c w id i1 i2 y →
  dev_complete v disk id = Some (moved v disk c w y id, moved_disk disk w y).
Proof.
  intros [H0 H1 H2 Hi Ho Hb Hu].
  unfold dev_complete. rewrite H0. cbn [mbind option_bind]. rewrite Ho. cbn [mbind option_bind]. rewrite Nat2Z.id, H1. cbn [mbind option_bind]. rewrite Nat2Z.id, H2. cbn [mbind option_bind].
  rewrite Hb. cbn [mbind option_bind q_sector q_type]. rewrite decide_True by (rewrite Z.mul_comm; apply Z.mod_mul; lia).
  assert (Hdiv : 2 * vb_blockno y / 2 = vb_blockno y) by (rewrite Z.mul_comm; apply Z.div_mul; lia). rewrite !Hdiv.
  unfold dev_finish, moved, moved_bufs, moved_disk. destruct w.
  - rewrite decide_True by done. by rewrite (report_ok v c).
  - rewrite decide_False by (intros [? _]; done). rewrite decide_True by done. by rewrite (report_ok v c).
Qed.

(** A store is out of the way of the request with head [id] and buffer [c], and of
    the available ring up to counter [n]: what the device reads of them stays, and
    the store comes to the same before and after the transfer. *)
Record apart (m : M V unit) (c : nat) (w : bool) (id i1 i2 : nat) (y : vbuf) (slot : nat) : Prop := {
  ap_reads u v : m u = Ok (tt, v) → readable u c w id i1 i2 y → readable v c w id i1 i2 y;
  ap_avail u v t : m u = Ok (tt, v) → v_avail_idx v = v_avail_idx u ∧ (t ≠ slot → Z.to_nat (v_avail_idx u mod Z.of_nat NUM) = slot → v_avail v !! t = v_avail u !! t);
  ap_moved u v disk : m u = Ok (tt, v) → m (moved u disk c w y id) = Ok (tt, moved v disk c w y id) }.

Ltac take_arr H :=
  unfold set_op, set_desc, set_info, get_info, set_buf, arr_set, arr_get, mbind, M_bind, gets in H; cbn in H;
  repeat (case_match; try discriminate H; simplify_eq).

Lemma apart_store b x w0 i0 j1 j2 c w id i1 i2 y slot m :
  i0 ∉ [id; i1; i2] → j1 ∉ [id; i1; i2] → j2 ∉ [id; i1; i2] → b ≠ c →
  m ∈ take 8 (submit_stores b x w0 i0 j1 j2) → apart m c w id i1 i2 y slot.
Proof.
  intros H0 H1 H2 Hb Hm. rewrite !not_elem_of_cons in H0, H1, H2.
  destruct H0 as (H01 & H02 & H03 & _), H1 as (H11 & H12 & H13 & _), H2 as (H21 & H22 & H23 & _).
  unfold submit_stores in Hm. cbn [take] in Hm.
  repeat (apply elem_of_cons in Hm as [->|Hm]); [..|by apply elem_of_nil in Hm]; split.
  all: try (intros u v Hs [R0 R1 R2 R3 R4 R5 R6]; take_arr Hs; split; cbn; rewrite ?list_lookup_insert_ne by done; done).
  all: try (intros u v t Hs; take_arr Hs; cbn; by (split; [done|]; intros Ht <-; rewrite ?list_lookup_insert_ne by congruence)).
  all: intros u v disk Hs; take_arr Hs; unfold moved, moved_bufs;
    unfold set_op, set_desc, set_info, get_info, set_buf, arr_set, arr_get, mbind, M_bind, gets; destruct w; cbn;
    rewrite ?list_lookup_insert_ne by congruence;
    repeat match goal with H : ?l !! ?i = Some _ |- context [?l !! ?i] => rewrite H; cbn end;
    rewrite ?list_lookup_insert_ne by congruence;
    repeat match goal with H : ?l !! ?i = Some _ |- context [?l !! ?i] => rewrite H; cbn end;
    rewrite ?(list_insert_insert_ne _ i0 id), ?(list_insert_insert_ne _ b c) by congruence; done.
Qed.

Lemma do_all_apart c w id i1 i2 y slot l : Forall (λ m, apart m c w id i1 i2 y slot) l → ∀ u v, do_all l u = Ok (tt, v) →
  readable u c w id i1 i2 y → readable v c w id i1 i2 y ∧
  (∀ disk, do_all l (moved u disk c w y id) = Ok (tt, moved v disk c w y id)).
Proof.
  induction 1 as [|m l Hm Hl IH]; intros u v Hd Hr; cbn [do_all] in *.
  - injection Hd as <-. done.
  - unfold mbind, M_bind in Hd; destruct (m _) as [[[] u1]| | |] eqn:E1; [|done..]. destruct (IH u1 v Hd) as [H1 H2]; [by eapply (ap_reads _ _ _ _ _ _ _ _ Hm)|].
    split; [done|]. intros disk. rewrite (bind_Ok_eq _ _ _ _ _ (ap_moved _ _ _ _ _ _ _ _ Hm u u1 disk E1)). apply H2.
Qed.
Lemma do_all_avail c w id i1 i2 y l u : Forall (λ m, apart m c w id i1 i2 y (Z.to_nat (v_avail_idx u mod Z.of_nat NUM))) l → ∀ v, do_all l u = Ok (tt, v) →
  v_avail_idx v = v_avail_idx u ∧ ∀ t, t ≠ Z.to_nat (v_avail_idx u mod Z.of_nat NUM) → v_avail v !! t = v_avail u !! t.
Proof.
  intros Hl. assert (H : ∀ u1 v, v_avail_idx u1 = v_avail_idx u → do_all l u1 = Ok (tt, v) → v_avail_idx v = v_avail_idx u ∧
    ∀ t, t ≠ Z.to_nat (v_avail_idx u mod Z.of_nat NUM) → v_avail v !! t = v_avail u1 !! t); [|by intros v; apply H].
  induction Hl as [|m l Hm Hl IH]; intros u1 v Hi Hd; cbn [do_all] in *.
  - injection Hd as <-. done.
  - unfold mbind, M_bind in Hd; destruct (m _) as [[[] u2]| | |] eqn:E1; [|done..]. destruct (ap_avail _ _ _ _ _ _ _ _ Hm u1 u2 0%nat E1) as [Ei _].
    destruct (IH u2 v) as [H1 H2]; [congruence|done|]. split; [done|]. intros t Ht. rewrite H2 by done.
    destruct (ap_avail _ _ _ _ _ _ _ _ Hm u1 u2 t E1) as [_ Ht2]. apply Ht2; [done|by rewrite Hi].
Qed.
Lemma do_all_app l1 l2 u : do_all (l1 ++ l2) u = (do_all l1 ;; do_all l2) u.
Proof.
  revert u. induction l1 as [|m l1 IH]; intros u; [done|]. cbn [do_all app]. unfold mbind, M_bind in *.
  destruct (m u) as [[[] u1]| | |]; [|done..]. apply IH.
Qed.

(** The registers are no part of what the device reads of the arrays. *)
Lemma take_regs v e seen : dev_take (w_regs e v) seen = dev_take v seen.
Proof. done. Qed.
Lemma complete_regs v e disk id v' disk' : dev_complete v disk id = Some (v', disk') →
  dev_complete (w_regs e v) disk id = Some (w_regs e v', disk') ∧ v_regs v' = v_regs v.
Proof.
  assert (Hf : ∀ bufs i st r, dev_finish v bufs i st = Some r → dev_finish (w_regs e v) bufs i st = Some (w_regs e r) ∧ v_regs r = v_regs v).
  { intros bufs i st r. unfold dev_finish, dev_report. cbn. destruct (v_info v !! st); [|done]. cbn. destruct (v_used v !! _); [|done]. cbn. by intros [= <-]. }
  unfold dev_complete. cbn [w_regs v_desc v_ops v_buf]. intros H.
  repeat match type of H with
  | dev_finish _ _ _ _ ≫= _ = _ => fail 1
  | ?x ≫= _ = _ => destruct x eqn:?; cbn [mbind option_bind] in H |- *; [|discriminate H]
  | match ?x with _ => _ end = _ => destruct x eqn:?; try discriminate H
  | (if ?x then _ else _) = _ => destruct x eqn:?; try discriminate H
  end.
  all: match type of H with dev_finish ?u ?bufs ?i ?st ≫= _ = _ => destruct (dev_finish u bufs i st) as [r|] eqn:Hr; [|discriminate H] end.
  all: destruct (Hf _ _ _ _ Hr) as [-> Hg]; cbn [mbind option_bind] in H |- *; injection H as <- <-; done.
Qed.

(** The device sees the request that is being submitted, with stores done up to
    the [k]-th of [submit_stores], exactly as before the call or as after it: a step
    of the device at that point is a step before it, and the stores that were done
    give the same state on top of it; or a step after it, with the stores that are
    left done first. *)
Definition as_before_or_after (seen : Z) (busy : list nat) disk (l : list (M V unit)) (v0 ve : V) : Prop :=
  ∀ k v, do_all (take k l) v0 = Ok (tt, v) → do_all (drop k l) v = Ok (tt, ve) ∧
    (∀ r, dev_take v seen = Some r → dev_take v0 seen = Some r ∨ dev_take ve seen = Some r) ∧
    (∀ id v' disk', id ∈ busy ∨ v_avail_idx v ≠ v_avail_idx v0 → dev_complete v disk id = Some (v', disk') →
       (∃ v0', dev_complete v0 disk id = Some (v0', disk') ∧ do_all (take k l) v0' = Ok (tt, v')) ∨
       (∃ ve', dev_complete ve disk id = Some (ve', disk') ∧ do_all (drop k l) v' = Ok (tt, ve'))).

Section submit_point.
Context s seen busy procs b x (w : bool) i0 i1 i2 l' (Hv : vinv s seen busy procs) (Hg : got (v_free s) l' [i0; i1; i2])
  (Hx : v_buf s !! b = Some x) (Hidle : idle procs b).
Let v0 : V := w_free l' s.
Let stores := submit_stores b x w i0 i1 i2.
Let slot := Z.to_nat (v_avail_idx s mod Z.of_nat NUM).

Lemma sp_new i c w' id j1 j2 sv : i ∈ [i0; i1; i2] → chain_ok s c w' id j1 j2 sv → i ∉ [id; j1; j2].
Proof.
  intros Hi Hc Hin. pose proof (ln_used _ _ _ _ _ _ (ch_links _ _ _ _ _ _ _ Hc) i Hin) as H0.
  destruct Hg as (_ & H & _). destruct (H i Hi) as [H1 _]. congruence.
Qed.
Lemma sp_apart q c w' id j1 j2 y m : procs !! q = Some (WaitBuf c w' id j1 j2 false false) → m ∈ take 8 stores → apart m c w' id j1 j2 y slot.
Proof.
  intros Hq Hm. pose proof (iv_req _ _ _ _ Hv _ _ _ _ _ _ _ _ Hq) as Hc.
  eapply (apart_store b x w i0 i1 i2); [..|exact Hm]; try (eapply sp_new; [|exact Hc]; set_solver).
  intros ->. by apply (Hidle q _ Hq).
Qed.
Lemma sp_readable q c w' id j1 j2 : procs !! q = Some (WaitBuf c w' id j1 j2 false false) → ∃ y, readable v0 c w' id j1 j2 y.
Proof.
  intros Hq. pose proof (iv_req _ _ _ _ Hv _ _ _ _ _ _ _ _ Hq) as [[H0 H1 H2 _ _] Hi (y & Hy & Ho)].
  exists y. split; try done. by destruct (iv_len _ _ _ _ Hv) as (_ & _ & _ & _ & _ & ?).
Qed.
Lemma sp_pend pend used : queues s seen busy procs pend used → (length pend < 8)%nat.
Proof.
  intros [_ _ Q3 Q4 _]. assert (Hst : ∀ id, id ∈ pend → id ≠ i0 ∧ (id < NUM)%nat).
  { intros id Hid. assert (Hs : at_stage procs id false false) by (apply Q4, elem_of_app; by left). destruct Hs as (q & c & w' & j1 & j2 & Hq).
    pose proof (iv_req _ _ _ _ Hv _ _ _ _ _ _ _ _ Hq) as Hc. split.
    - intros ->. eapply (sp_new i0); [by left|exact Hc|by left].
    - destruct (iv_len _ _ _ _ Hv) as (_ & [Hl _] & _). eapply (chain_ids s); [done|exact Hc|by left]. }
  change (length (i0 :: pend) ≤ 8)%nat. apply heads_short.
  - apply NoDup_app in Q3 as (Hn & _ & _). constructor; [|done]. intros H. by destruct (Hst i0 H).
  - intros i [->|Hi]%elem_of_cons; [|by apply Hst]. destruct Hg as (_ & H & _). destruct (H i0) as [H1 _]; [by left|].
    apply lookup_lt_Some in H1. destruct (iv_len _ _ _ _ Hv) as (_ & [Hl _] & _). lia.
Qed.

Lemma submit_point ve : submit b w i0 i1 i2 v0 = Ok (tt, ve) → ∀ disk, as_before_or_after seen busy disk stores v0 ve.
Proof.
  intros He disk k v Hk.
  assert (Hall : do_all stores v0 = Ok (tt, ve)).
  { unfold submit in He. unfold get_buf in He. by rewrite (bind_Ok_eq _ _ _ _ _ (arr_get_ok v_buf b v0 x Hx)) in He. }
  assert (Hrest : do_all (drop k stores) v = Ok (tt, ve)).
  { rewrite <- (take_drop k stores), do_all_app in Hall. by rewrite (bind_Ok_eq _ _ _ _ _ Hk) in Hall. }
  split; [done|]. destruct (decide (k ≤ 8)%nat) as [Hle|Hgt].
  - assert (Hsub : ∀ m, m ∈ take k stores → m ∈ take 8 stores).
    { intros m. replace k with (k `min` 8)%nat by lia. rewrite <- take_take. intros Hm. apply list_elem_of_lookup in Hm as [i Hm].
      rewrite take_take in Hm. apply lookup_take_Some in Hm as [Hm Hi]. apply list_elem_of_lookup. exists i. apply lookup_take_Some. split; [done|lia]. }
    set (id0 := S (i0 + i1 + i2)).
    assert (Hav : Forall (λ m, apart m (S b) w id0 id0 id0 x slot) (take k stores)).
    { apply Forall_forall. intros m Hm%Hsub. eapply (apart_store b x w i0 i1 i2); [..|exact Hm]; unfold id0; rewrite ?not_elem_of_cons; try lia; split_and!; try lia; apply not_elem_of_nil. }
    destruct (do_all_avail (S b) w id0 id0 id0 x (take k stores) v0 Hav v Hk) as [Hi Ha]. split.
    + intros r Hr. left. rewrite <- Hr. unfold dev_take. rewrite Hi. case_decide as Hs; [done|]. rewrite Ha; [done|].
      destruct (iv_queues _ _ _ _ Hv) as (pend & used & Q). pose proof (sp_pend pend used Q) as Hlp. destruct (qs_avail _ _ _ _ _ _ Q) as (_ & Hr0 & Hn).
      change (v_avail_idx v0) with (v_avail_idx s) in *. intros Heq. destruct pend as [|i pend].
      { apply Hs. rewrite Hn. unfold u16. cbn [length]. rewrite Z.add_0_r. symmetry. by apply Z.mod_small. }
      rewrite Hn in Heq. unfold u16, NUM in Heq. cbn [length] in Hlp, Heq.
      assert (Hm : seen mod 8 = (seen + Z.of_nat (S (length pend))) mod 65536 mod 8).
      { pose proof (Z.mod_pos_bound seen 8 ltac:(lia)). pose proof (Z.mod_pos_bound ((seen + Z.of_nat (S (length pend))) mod 65536) 8 ltac:(lia)). change (Z.of_nat 8) with 8 in Heq. apply (Z2Nat.inj); [lia|lia|]. exact Heq. }
      rewrite Z.mod_mod_divide in Hm by (by exists 8192). pose proof (Z.div_mod seen 8 ltac:(lia)). pose proof (Z.div_mod (seen + Z.of_nat (S (length pend))) 8 ltac:(lia)). lia.
    + intros id v' disk' [Hb|Hne] Hc; [|by destruct Hne]. left. destruct (iv_queues _ _ _ _ Hv) as (pend & used & Q).
      assert (Hs : at_stage procs id false false) by (apply (qs_unserved _ _ _ _ _ _ Q), elem_of_app; by right). destruct Hs as (q & c & w' & j1 & j2 & Hq).
      destruct (sp_readable q c w' id j1 j2 Hq) as [y Hr].
      assert (Hap : Forall (λ m, apart m c w' id j1 j2 y slot) (take k stores)) by (apply Forall_forall; intros m Hm%Hsub; by eapply sp_apart).
      destruct (do_all_apart c w' id j1 j2 y slot _ Hap v0 v Hk Hr) as [Hrv Hmv]. rewrite (complete_readable _ _ _ _ _ _ _ _ Hrv) in Hc. injection Hc as <- <-.
      exists (moved v0 disk c w' y id). split; [by eapply complete_readable|apply Hmv].
  - assert (Hreg : ∃ e, ∀ u, v_regs u = v_regs v → do_all (drop k stores) u = Ok (tt, w_regs e u)).
    { destruct (decide (k = 9)%nat) as [->|Hne].
      - exists (vr_write VIRTIO_MMIO_QUEUE_NOTIFY (u32 0) (v_regs v)). intros u Hu. cbn [drop stores submit_stores do_all]. unfold wr_reg, mbind, M_bind. by rewrite Hu.
      - exists (v_regs v). intros u Hu. rewrite drop_ge by (cbn; lia). rewrite <- Hu. by destruct u. }
    destruct Hreg as [e Hreg]. pose proof (Hreg v eq_refl) as Hve. rewrite Hrest in Hve. injection Hve as ->. split.
    + intros r Hr. by right.
    + intros id v' disk' _ Hc. right. destruct (complete_regs v e disk id v' disk' Hc) as [Hc' Hrg]. exists (w_regs e v'). split; [done|by apply Hreg].
Qed.
End submit_point.
End inside.

(** ** A transfer that fails *)
Section failing.
Context {E : Type} `{!VirtioRegs E}.
Abbreviation V := (vdisk E).
Implicit Types (s v : V).

Lemma stage_id s seen busy procs id sv : vinv s seen busy procs → at_stage procs id sv false → (id < NUM)%nat.
Proof.
  intros Hv (q & b & w & i1 & i2 & Hq). destruct (iv_len _ _ _ _ Hv) as (_ & [Hl _] & _). eapply (chain_ids s); [done|by eapply (iv_req _ _ _ _ Hv)|by left].
Qed.
Lemma intr_status s seen busy procs id status data v : vinv s seen busy procs → id ∈ busy → status ≠ 0 → dev_fail s id status data = Some v →
  intr_body v = Panic "virtio_disk_intr status".
Proof.
  intros Hv Hid Hst Hf. destruct (iv_queues _ _ _ _ Hv) as (pend & used & Q).
  assert (Hs : at_stage procs id false false) by (apply (qs_unserved _ _ _ _ _ _ Q); set_solver). pose proof Hs as (p & b & w & i1 & i2 & Hp).
  pose proof (iv_req _ _ _ _ Hv _ _ _ _ _ _ _ _ Hp) as [[H0 H1 H2 _ _] Hi (x & Hx & _)].
  unfold dev_fail in Hf. rewrite H0 in Hf. cbn [mbind option_bind d_next] in Hf. rewrite Nat2Z.id, H1 in Hf. cbn [mbind option_bind d_next] in Hf. rewrite Nat2Z.id, H2 in Hf. cbn [mbind option_bind d_addr] in Hf.
  rewrite Hx in Hf. cbn [mbind option_bind] in Hf. unfold dev_report in Hf. rewrite Hi in Hf. cbn [mbind option_bind] in Hf.
  destruct (v_used s !! Z.to_nat (v_uidx s mod Z.of_nat NUM)) as [z|] eqn:Hz; [|discriminate Hf]. cbn [mbind option_bind] in Hf. injection Hf as <-.
  assert (Hni : id ∉ used) by (intros Hu%(qs_served _ _ _ _ _ _ Q); destruct Hu as (q & c & w' & j1 & j2 & Hq); assert (p = q) as <- by (by eapply same_head); congruence).
  assert (Hlen : (length used < 8)%nat).
  { change (length (id :: used) ≤ 8)%nat. apply heads_short.
    - constructor; [done|]. pose proof (qs_nodup _ _ _ _ _ _ Q) as (_ & _ & Hn)%NoDup_app. by apply NoDup_app in Hn as (_ & _ & ?).
    - intros j [->|Hj%(qs_served _ _ _ _ _ _ Q)]%elem_of_cons; by eapply stage_id. }
  pose proof (queued_put _ _ _ _ id (qs_used _ _ _ _ _ _ Q) Hlen) as Qu.
  destruct (served_bufs_ex procs used) as [bs Hbs]; [intros i; apply (qs_served _ _ _ _ _ _ Q)|]. pose proof (used_good s seen busy procs used bs Hv Hbs) as HF.
  match goal with |- intr_body ?v = _ => destruct (intr_body_loop v) as [e ->] end.
  eapply (intr_loop_status id (mkinfo (Some b) status) Hst used bs); [exact Qu| | |].
  - assert (HF' : Forall (λ i, i ≠ id) used) by (apply Forall_forall; congruence).
    revert HF'. clear -HF. induction HF as [|i c l1 l2 [Hi [y Hy]] _ IH]; [by constructor|]. intros [Hne HF']%Forall_cons. constructor; [|by apply IH].
    cbn. rewrite list_lookup_insert_ne by done. split; [done|]. destruct (decide (b = c)) as [<-|Hbc]; [rewrite list_lookup_insert_eq by (by eapply lookup_lt_Some)|rewrite list_lookup_insert_ne by done]; by eexists.
  - cbn. apply list_lookup_insert_eq. by eapply lookup_lt_Some.
  - cbn. rewrite (queued_diff _ _ _ _ Qu), length_app. cbn. lia.
Qed.
End failing.

(** ** [virtio_disk_init] *)

(** [m] changes the registers, and the state from [x] to [y] apart from them. *)
Definition takes {E A} (x : vdisk E) (m : M (vdisk E) A) (y : vdisk E) : Prop := ∀ e a s, m (w_regs e x) = Ok (a, s) → ∃ e', s = w_regs e' y.
Section init.
Context {E : Type} `{!VirtioRegs E}.
Abbreviation V := (vdisk E).
Implicit Types (s v x y z : V).

Lemma takes_bind {A B} x y z (m : M V A) (f : A → M V B) : takes x m y → (∀ a, takes y (f a) z) → takes x (m ≫= f) z.
Proof.
  intros Hm Hf e b s. unfold mbind, M_bind. destruct (m (w_regs e x)) as [[a s1]| | |] eqn:E1; try done. destruct (Hm e a s1 E1) as [e' ->]. apply Hf.
Qed.
Lemma takes_rd x r : takes x (rd_reg r) x.
Proof. intros e a s. unfold rd_reg. destruct (vr_read _ _) as [u e']. intros [= _ <-]. by exists e'. Qed.
Lemma takes_wr x r u : takes x (wr_reg r u) x.
Proof. intros e a s [= _ <-]. by eexists. Qed.
Lemma takes_kalloc x : takes x kallocV x.
Proof. intros e a s. unfold kallocV. destruct (vr_kalloc _) as [u e']. intros [= _ <-]. by exists e'. Qed.
Lemma takes_panic {A} x y msg : takes x (panic msg : M V A) y.
Proof. intros e a s. discriminate. Qed.
Lemma takes_if {A} x y (c : bool) (m m' : M V A) : takes x m y → takes x m' y → takes x (if c then m else m') y.
Proof. by destruct c. Qed.
Lemma takes_modify x (g : V → V) : (∀ e, g (w_regs e x) = w_regs e (g x)) → takes x (modify g) (g x).
Proof. intros H e a s [= _ <-]. exists e. apply H. Qed.
Lemma free_all : ∀ k i s, (i + k)%nat = length (v_free s) → forM (seq i k) (λ i, set_free i 1) s = Ok (tt, w_free (take i (v_free s) ++ replicate k 1) s).
Proof.
  induction k as [|k IH]; intros i s Hk.
  - cbn. rewrite app_nil_r, take_ge by lia. by destruct s.
  - destruct (lookup_lt_is_Some_2 (v_free s) i) as [f Hf]; [lia|]. cbn [seq forM]. unfold set_free at 1. rewrite (bind_Ok_eq _ _ _ _ _ (arr_set_ok v_free w_free i 1 f s Hf)).
    rewrite IH by (cbn; rewrite length_insert; lia). cbn.
    rewrite (take_S_r _ i 1) by (apply list_lookup_insert_eq; lia). by rewrite take_insert_ge, <-app_assoc by lia.
Qed.
Lemma takes_marks x : length (v_free x) = NUM → takes x (forM (seq 0 NUM) (λ i, set_free i 1)) (w_free (replicate NUM 1) x).
Proof. intros Hl e a s. rewrite free_all by (cbn; by rewrite Hl). intros H. exists e. by injection H as _ <-. Qed.

Definition init_arrays s : V := w_free (replicate NUM 1) (w_used (replicate NUM 0) 0 (w_avail (replicate NUM 0) 0 (w_desc (replicate NUM desc0) s))).
Lemma init_body_takes s : length (v_free s) = NUM → takes s init_body (init_arrays s).
Proof.
  intros Hl. unfold init_body, init_arrays.
  repeat first
    [ apply takes_panic | apply takes_wr
    | eapply takes_bind; [apply takes_rd|intros ?] | eapply takes_bind; [apply takes_wr|intros ?] | eapply takes_bind; [apply takes_kalloc|intros ?]
    | eapply takes_bind; [apply takes_modify; done|intros ?] | eapply takes_bind; [by apply takes_marks|intros ?] | apply takes_if ].
Qed.

Definition static s : Prop := length (v_free s) = NUM ∧ length (v_info s) = NUM ∧ length (v_ops s) = NUM ∧ v_used_idx s = 0.
Lemma vinv_init s e : static s → (∀ b (y : vbuf), v_buf s !! b = Some y → buf_ok y) → vinv (w_regs e (init_arrays s)) 0 [] ∅.
Proof.
  intros (H1 & H2 & H3 & H4) Hb. split; try done; cbn.
  - split; [done|]. split; [split; [done|]|done]. intros i f. cbn. intros Hf. apply (elem_of_list_lookup_2 _ i f) in Hf || apply (list_elem_of_lookup_2 _ i f) in Hf.
    repeat (apply elem_of_cons in Hf as [->|Hf]; [by right|]). by apply elem_of_nil in Hf.
  - intros i Hi. exfalso. apply list_elem_of_lookup_2 in Hi. by repeat (apply elem_of_cons in Hi as [Heq|Hi]; [discriminate Heq|]); apply elem_of_nil in Hi.
  - exists [], []. assert (Hst : ∀ id sv, ¬ at_stage ∅ id sv false) by (intros id sv (p & b & w & i1 & i2 & Hp); by rewrite lookup_empty in Hp).
    split; [by apply queued_nil|cbn; rewrite H4; by apply queued_nil|constructor| |]; intros id; split; try (by intros ?%elem_of_nil); by intros ?%Hst.
Qed.
End init.

(** ** The disk driver implements a disk

    Whatever the interleaving of processes, interrupts and device: the driver does
    one transfer of a block for each call, its handlers return, and nothing is
    lost: no descriptor, no wakeup. *)

Definition awake (x : phase) : bool := match x with WaitFree _ _ wk | WaitBuf _ _ _ _ _ _ wk => wk end.

Lemma nfree_all l : marks l → (∀ i, l !! i ≠ Some 0) → nfree l = NUM.
Proof.
  intros [Hl _] H. unfold nfree. rewrite <-Hl. f_equal. assert (HF : Forall (λ f, f ≠ 0) l) by (apply Forall_lookup; intros i f Hi ->; by apply (H i)).
  clear -HF. induction HF as [|f l Hf _ IH]; [done|]. by rewrite filter_cons_True, IH.
Qed.

Section claims.
Context {E : Type} `{!VirtioRegs E}.
Abbreviation V := (vdisk E).
Implicit Types (s : sys E) (d : vst E) (procs : gmap nat phase) (disk : gmap Z (list Z)).

(** A handler called where the kernel calls it returns; a process that was woken
    from its buffer is done, and was served; an interrupt looks at everything on
    the used ring, and wakes every process that was served. *)
Record handled s : Prop := {
  hd_call p b w : s_procs s !! p = None → idle (s_procs s) b → is_Some (v_buf (v_disk (s_drv s)) !! b) →
    ∃ r d' ps, runs (virtio_disk_rw b w) (s_drv s) r d' (s_procs s) ps;
  hd_retry p b w : s_procs s !! p = Some (WaitFree b w true) → ∃ r d' ps, runs (virtio_disk_rw b w) (s_drv s) r d' (delete p (s_procs s)) ps;
  hd_resume p b w i0 i1 i2 sv : s_procs s !! p = Some (WaitBuf b w i0 i1 i2 sv true) →
    sv = true ∧ ∃ d' ps, runs (rw_resume b i0 i1 i2) (s_drv s) VDone d' (delete p (s_procs s)) ps;
  hd_intr : ∃ d' ps, runs virtio_disk_intr (s_drv s) tt d' (s_procs s) ps ∧ v_used_idx (v_disk d') = v_uidx (v_disk d') ∧
    ∀ p b w i0 i1 i2 wk, s_procs s !! p = Some (WaitBuf b w i0 i1 i2 true wk) → ps !! p = Some (WaitBuf b w i0 i1 i2 true true) }.
(** While a process is inside, somebody can go on: a process, the interrupt
    handler, or the device. *)
Definition moves s : Prop :=
  s_procs s ≠ ∅ → (∃ p x, s_procs s !! p = Some x ∧ awake x = true) ∨ v_used_idx (v_disk (s_drv s)) ≠ v_uidx (v_disk (s_drv s)) ∨ ∃ s', documented s s'.
(** When no process is inside, all descriptors are free. *)
Definition all_back s : Prop := s_procs s = ∅ → nfree (v_free (v_disk (s_drv s))) = NUM ∧ s_busy s = [].

(** The driver's stores for a request, one at a time: whatever the device does
    between two of them is what it could have done before the first or after the
    last one.  (In [submits], [procs] are the other processes.) *)
Definition submits s procs : Prop := ∀ b w x i0 i1 i2 v0,
  idle procs b → v_buf (v_disk (s_drv s)) !! b = Some x → alloc3_desc (w_wakes [] (v_disk (s_drv s))) = Ok (Some [i0; i1; i2], v0) →
  ∃ ve, submit b w i0 i1 i2 v0 = Ok (tt, ve) ∧ as_before_or_after (s_seen s) (s_busy s) (s_disk s) (submit_stores b x w i0 i1 i2) v0 ve.
Definition submit_atomic s : Prop :=
  submits s (s_procs s) ∧ ∀ p b w, s_procs s !! p = Some (WaitFree b w true) → submits s (delete p (s_procs s)).
(** A device may also report an error, which [documented] leaves out: a transfer
    that it works on fails, with a status that is not 0.  Then the next interrupt
    panics. *)
Definition fails_badly s : Prop := ∀ id status data v, id ∈ s_busy s → status ≠ 0 → dev_fail (v_disk (s_drv s)) id status data = Some v →
  virtio_disk_intr (mkvst (v_lock (s_drv s)) (v_hart (s_drv s)) v) = Panic "virtio_disk_intr status".

Definition sysinv s : Prop := calm (s_drv s) ∧ vinv (v_disk (s_drv s)) (s_seen s) (s_busy s) (s_procs s) ∧ disk_ok (s_disk s).

(** ** The handlers *)

Lemma call_runs d seen busy procs p b w : calm d → vinv (v_disk d) seen busy procs → procs !! p = None → idle procs b → is_Some (v_buf (v_disk d) !! b) →
  ∃ r d' ps, runs (virtio_disk_rw b w) d r d' procs ps ∧ r ≠ VDone ∧ calm d' ∧ vinv (v_disk d') seen busy (after p b w false r ps) ∧
    contents (v_buf (v_disk d')) = contents (v_buf (v_disk d)) ∧ abs_phase <$> ps = abs_phase <$> procs.
Proof.
  intros [Hl Hh] Hv Hp Hi Hb. destruct (rw_alloc_ok (w_wakes [] (v_disk d)) seen busy procs p b w) as (r & v & E1 & Hr & Hc & Hv'); [by apply vinv_wakes|done..|].
  eexists r, _, _. split; [by apply runs_ok|]. split; [done|]. split; [done|]. split; [by apply vinv_wakes|]. split; [exact Hc|]. apply abs_phase_woken.
Qed.
Lemma resume_runs d seen busy procs p b w i0 i1 i2 sv : calm d → vinv (v_disk d) seen busy procs → procs !! p = Some (WaitBuf b w i0 i1 i2 sv true) →
  ∃ d' ps, runs (rw_resume b i0 i1 i2) d VDone d' (delete p procs) ps ∧ sv = true ∧ calm d' ∧ vinv (v_disk d') seen busy ps ∧
    v_buf (v_disk d') = v_buf (v_disk d) ∧ abs_phase <$> ps = delete p (abs_phase <$> procs).
Proof.
  intros [Hl Hh] Hv Hp. destruct (rw_wait_ok (w_wakes [] (v_disk d)) seen busy procs p b w i0 i1 i2 sv) as (v & E1 & Hsv & Hc & Hv'); [by apply vinv_wakes|done..|].
  eexists _, _. split; [by apply runs_ok|]. split; [done|]. split; [done|]. split; [by apply vinv_wakes|]. split; [exact Hc|]. by rewrite abs_phase_woken, fmap_delete.
Qed.
Lemma intr_runs d seen busy procs : calm d → vinv (v_disk d) seen busy procs →
  ∃ d' , runs virtio_disk_intr d tt d' procs (settle <$> procs) ∧ calm d' ∧ vinv (v_disk d') seen busy (settle <$> procs) ∧
    contents (v_buf (v_disk d')) = contents (v_buf (v_disk d)) ∧ v_used_idx (v_disk d') = v_uidx (v_disk d').
Proof.
  intros [Hl Hh] Hv. destruct (intr_ok (w_wakes [] (v_disk d)) seen busy procs) as (v & E1 & Hc & Hu & Hw & Hv'); [by apply vinv_wakes|done|].
  eexists. split; [rewrite <-Hw; by apply runs_ok|]. split; [done|]. split; [by apply vinv_wakes|]. done.
Qed.

Lemma sysinv_handled s : sysinv s → handled s.
Proof.
  destruct s as [d disk seen busy procs]. intros (Hc & Hv & _). cbn in *. split; cbn.
  - intros p b w Hp Hi Hb. destruct (call_runs d seen busy procs p b w) as (r & d' & ps & H & _); [done..|]. by exists r, d', ps.
  - intros p b w Hp. destruct (vinv_drop _ _ _ _ _ _ _ _ Hv Hp) as [Hv' Hi]. destruct (iv_free _ _ _ _ Hv _ _ _ _ Hp) as [Hb _].
    destruct (call_runs d seen busy (delete p procs) p b w) as (r & d' & ps & H & _); [done|done|apply lookup_delete_eq|done|done|]. by exists r, d', ps.
  - intros p b w i0 i1 i2 sv Hp. destruct (resume_runs d seen busy procs p b w i0 i1 i2 sv) as (d' & ps & H & Hsv & _); [done..|]. split; [done|]. by exists d', ps.
  - destruct (intr_runs d seen busy procs) as (d' & H & _ & _ & _ & Hu); [done..|]. exists d', (settle <$> procs). split; [done|]. split; [done|].
    intros p b w i0 i1 i2 wk Hp. apply settle_buf. by eauto.
Qed.

(** ** Every step *)

Lemma abs_after p b w r procs : r ≠ VDone → abs_phase <$> after p b w false r procs = <[p := (b, w, false)]> (abs_phase <$> procs).
Proof. by destruct r; [done| |]; intros _; cbn; rewrite fmap_insert. Qed.
Lemma abs_idle procs b : idle procs b → a_idle (abs_phase <$> procs) b.
Proof. intros H q y (x & <- & Hq)%lookup_fmap_Some. specialize (H q x Hq). by destruct x. Qed.

Lemma documented_ok s s' : sysinv s → documented s s' → sysinv s' ∧ rtc astep (abs s) (abs s').
Proof.
  intros (Hc & Hv & Hdk) Hs. destruct Hs as [lk h v disk seen busy procs id seen' Ht|lk h v disk seen l1 id l2 procs v' disk' Hcm]; unfold sysinv in *; cbn in *.
  - split; [|apply rtc_refl]. split; [done|]. split; [by eapply vinv_take|done].
  - destruct (iv_queues _ _ _ _ Hv) as (pend & used & Q). assert (Hin : at_stage procs id false false) by (apply (qs_unserved _ _ _ _ _ _ Q); set_solver).
    destruct Hin as (p & b & w & i1 & i2 & Hp). destruct (iv_flag _ _ _ _ Hv _ _ _ _ _ _ _ _ Hp) as [_ (x & Hx & _)].
    rewrite (complete_eq v seen l1 id l2 procs disk p b w i1 i2 x Hv Hp Hx) in Hcm. injection Hcm as <- <-. split.
    + split; [done|]. split; [by eapply vinv_moved|]. destruct w; [|done]. unfold moved_disk. intros k dt [[_ <-]|[_ Hk]]%lookup_insert_Some; [apply (iv_bufs _ _ _ _ Hv b x Hx)|by eapply Hdk].
    + apply rtc_once. unfold abs. cbn. rewrite (served_insert v seen l1 id l2 procs p b w i1 i2 Hv Hp), fmap_insert. cbn.
      assert (Hr : (abs_phase <$> procs) !! p = Some (b, w, false)) by (by rewrite lookup_fmap, Hp).
      assert (Hb : ((λ x, (vb_blockno x, vb_data x)) <$> v_buf v) !! b = Some (vb_blockno x, vb_data x)) by (by rewrite list_lookup_fmap, Hx).
      destruct w; unfold moved_disk, moved_bufs; [by apply a_write|]. rewrite list_fmap_insert. cbn. by eapply a_read.
Qed.

Lemma vstep_ok device s s' : (∀ s s', device s s' → documented s s') → sysinv s → vstep device s s' → sysinv s' ∧ rtc astep (abs s) (abs s').
Proof.
  intros Hdev Hi Hs. destruct Hs as [p b w r d d' disk seen busy procs procs' Hp Hid Hb Hr|p b w r d d' disk seen busy procs procs' Hp Hr|
    p b w i0 i1 i2 sv r d d' disk seen busy procs procs' Hp Hr|d d' disk seen busy procs procs' Hr|s s' Hs|b x d disk seen busy procs Hid Hx H0];
    [| | | |by apply documented_ok, Hdev|]; destruct Hi as (Hc & Hv & Hdk); unfold sysinv, abs; cbn in *.
  - destruct (call_runs d seen busy procs p b w) as (r2 & d2 & ps & H2 & Hr2 & Hc2 & Hv2 & Hct & Hab); [done..|]. destruct (runs_det _ _ _ _ _ _ _ _ _ Hr H2) as (-> & -> & ->).
    split; [done|]. rewrite abs_after, Hab by done. apply rtc_once. unfold contents in Hct. rewrite Hct. apply a_call; [by rewrite lookup_fmap, Hp|by apply abs_idle].
  - destruct (vinv_drop _ _ _ _ _ _ _ _ Hv Hp) as [Hv' Hi]. destruct (iv_free _ _ _ _ Hv _ _ _ _ Hp) as [Hb _].
    destruct (call_runs d seen busy (delete p procs) p b w) as (r2 & d2 & ps & H2 & Hr2 & Hc2 & Hv2 & Hct & Hab); [done|done|apply lookup_delete_eq|done|done|].
    destruct (runs_det _ _ _ _ _ _ _ _ _ Hr H2) as (-> & -> & ->). split; [done|]. rewrite abs_after, Hab by done. unfold contents in Hct. rewrite Hct, fmap_delete, insert_delete_eq, insert_id; [apply rtc_refl|].
    by rewrite lookup_fmap, Hp.
  - destruct (resume_runs d seen busy procs p b w i0 i1 i2 sv) as (d2 & ps & H2 & -> & Hc2 & Hv2 & Hct & Hab); [done..|]. destruct (runs_det _ _ _ _ _ _ _ _ _ Hr H2) as (-> & -> & ->).
    split; [done|]. cbn [after]. rewrite Hab, Hct. apply rtc_once. eapply a_return. by rewrite lookup_fmap, Hp.
  - destruct (intr_runs d seen busy procs) as (d2 & H2 & Hc2 & Hv2 & Hct & _); [done..|]. destruct (runs_det _ _ _ _ _ _ _ _ _ Hr H2) as (_ & -> & ->).
    split; [done|]. unfold contents in Hct. rewrite Hct, <-map_fmap_compose. replace (abs_phase ∘ settle <$> procs) with (abs_phase <$> procs); [apply rtc_refl|].
    apply map_fmap_ext. by intros q [|] _.
  - split; [split; [done|split; [by apply vinv_owner|done]]|]. apply rtc_once. rewrite list_fmap_insert. apply a_owner. by apply abs_idle.
Qed.

(** ** Progress and leaks *)

Lemma sysinv_moves s : sysinv s → moves s.
Proof.
  destruct s as [[lk h v] disk seen busy procs]. intros (_ & Hv & _) Hne. cbn in *. destruct (map_choose _ Hne) as (p & x & Hp).
  destruct (iv_queues _ _ _ _ Hv) as (pend & used & Q). destruct used as [|u used].
  2: { right. left. intros Heq. by apply (queued_end _ _ _ _ (qs_used _ _ _ _ _ _ Q)) in Heq. }
  destruct pend as [|i pend].
  2: { right. right. destruct (take_ex _ _ _ _ _ _ _ Q) as [[id seen'] Ht]. eexists. by apply doc_take. }
  destruct busy as [|i busy].
  2: { right. right. assert (Hin : at_stage procs i false false) by (apply (qs_unserved _ _ _ _ _ _ Q); by left). destruct Hin as (q & b & w & i1 & i2 & Hq).
       destruct (iv_flag _ _ _ _ Hv _ _ _ _ _ _ _ _ Hq) as [_ (y & Hy & _)]. eexists. apply (doc_complete lk h v disk seen [] i busy).
       by apply (complete_eq v seen [] i busy procs disk q b w i1 i2 y). }
  assert (Hreq : ∀ q b w i0 i1 i2 sv wk, procs !! q = Some (WaitBuf b w i0 i1 i2 sv wk) → wk = true).
  { intros q b w i0 i1 i2 sv [|] Hq; [done|]. exfalso. assert (Hs : at_stage procs i0 sv false) by (by exists q, b, w, i1, i2).
    destruct sv; [apply (qs_served _ _ _ _ _ _ Q) in Hs|apply (qs_unserved _ _ _ _ _ _ Q) in Hs]; by apply elem_of_nil in Hs. }
  left. destruct (decide (∃ q y, procs !! q = Some y ∧ awake y = true)) as [|Hno]; [done|]. exfalso.
  assert (Hnone : ∀ q b w i0 i1 i2 sv wk, procs !! q ≠ Some (WaitBuf b w i0 i1 i2 sv wk)) by (intros q b w i0 i1 i2 sv wk Hq; apply Hno; eexists _, _; split; [exact Hq|by eapply Hreq]).
  destruct x as [b w wk|b w i0 i1 i2 sv wk]; [|by apply Hnone in Hp]. destruct wk; [by apply Hno; eexists _, _|].
  destruct (iv_free _ _ _ _ Hv _ _ _ _ Hp) as [_ Hlt]. specialize (Hlt eq_refl). rewrite (nfree_all (v_free v)) in Hlt; [unfold NUM in Hlt; lia|apply (iv_len _ _ _ _ Hv)|].
  intros i (q & [|] & Hq & Hin)%(iv_own _ _ _ _ Hv); [by apply elem_of_nil in Hin|by apply Hnone in Hq].
Qed.
Lemma sysinv_all_back s : sysinv s → all_back s.
Proof.
  destruct s as [d disk seen busy procs]. intros (_ & Hv & _) Hp. cbn in *. subst procs. split.
  - apply nfree_all; [apply (iv_len _ _ _ _ Hv)|]. intros i (q & y & Hq & _)%(iv_own _ _ _ _ Hv). by rewrite lookup_empty in Hq.
  - destruct (iv_queues _ _ _ _ Hv) as (pend & used & Q). destruct busy as [|i busy]; [done|]. exfalso.
    assert (Hin : at_stage ∅ i false false) by (apply (qs_unserved _ _ _ _ _ _ Q); set_solver). destruct Hin as (q & b & w & i1 & i2 & Hq). by rewrite lookup_empty in Hq.
Qed.

(** ** Inside a request, and errors *)

Lemma submits_ok d disk seen busy procs : vinv (v_disk d) seen busy procs → ∀ all, submits (mksys d disk seen busy all) procs.
Proof.
  intros Hd all b w x i0 i1 i2 v0 Hi Hx Ha. cbn [s_drv s_seen s_busy s_disk] in *. assert (Hv : vinv (w_wakes [] (v_disk d)) seen busy procs) by by apply vinv_wakes. destruct (iv_len _ _ _ _ Hv) as (Hld & Hm & _).
  destruct (alloc3_ok (w_wakes [] (v_disk d)) Hm Hld) as [(k0 & k1 & k2 & l' & E1 & Hg)|(desc' & cs & E1 & _)]; rewrite E1 in Ha; [|discriminate Ha].
  injection Ha as -> -> -> <-. pose proof (submit_got _ seen busy procs b x w i0 i1 i2 l' Hv Hg Hx) as Hs. eexists. split; [exact Hs|].
  by apply (submit_point (w_wakes [] (v_disk d)) seen busy procs b x w i0 i1 i2 l').
Qed.
Lemma sysinv_submit s : sysinv s → submit_atomic s.
Proof.
  destruct s as [d disk seen busy procs]. intros (_ & Hv & _). cbn in *. split; [by apply submits_ok|].
  intros p b w Hp. by apply submits_ok, (vinv_drop _ _ _ _ _ _ _ _ Hv Hp).
Qed.
Lemma sysinv_fails s : sysinv s → fails_badly s.
Proof.
  destruct s as [[lk h v] disk seen busy procs]. intros ([Hl Hh] & Hv & _) id status data v' Hid Hst Hf. cbn in *.
  pose proof (intr_status v seen busy procs id status data v' Hv Hid Hst Hf) as Hp.
  unfold virtio_disk_intr, locked, acquireM, inV. mstep. rewrite acquire_quiet by done. cbn. by rewrite Hp.
Qed.

(** ** The claim *)

(** After [virtio_disk_init] on the zeroed [disk]. *)
Definition started s : Prop :=
  ∃ d, virtio_disk_init d = Ok (tt, s_drv s) ∧ hart_good (v_hart d) ∧ static (v_disk d) ∧ (∀ b x, v_buf (v_disk d) !! b = Some x → buf_ok x) ∧
    disk_ok (s_disk s) ∧ s_seen s = 0 ∧ s_busy s = [] ∧ s_procs s = ∅.
Lemma started_inv s : started s → sysinv s.
Proof.
  destruct s as [d' disk seen busy procs]. intros (d & Hinit & Hh & Hst & Hb & Hdk & H1 & H2 & H3). cbn in *. subst seen busy procs.
  unfold virtio_disk_init in Hinit. rewrite modify_bind in Hinit. unfold inV in Hinit. cbn in Hinit.
  destruct (init_body (v_disk d)) as [[[] v]| | |] eqn:E1; try done. injection Hinit as <-.
  destruct (init_body_takes (v_disk d) (proj1 Hst) (v_regs (v_disk d)) tt v) as [e ->]; [by destruct (v_disk d)|].
  split; [done|]. split; [by apply vinv_init|done].
Qed.

(** C34: from the end of [virtio_disk_init], for any device that does what its
    specification says and finishes every transfer without an error (status 0),
    any number of processes and any interleaving of calls, wakings, interrupts and
    transfers (in any order), the driver does what a disk promises: each call of
    [virtio_disk_rw] transfers its own block once, between its call and its return.
    No handler panics, faults or loops; while a process is inside, a process, the
    interrupt handler or the device can go on; when none is, all descriptors are
    free.  The device takes no step inside a handler, but where it matters it could:
    between two stores of a request that is being made, it can do only what it
    could have done before the first store or after the last one.  If it reports an
    error (a status that is not 0), the next interrupt panics. *)
Theorem virtio_refines (device : sys E → sys E → Prop) s0 s :
  (∀ s1 s2, device s1 s2 → documented s1 s2) → started s0 → rtc (vstep device) s0 s →
  rtc astep (abs s0) (abs s) ∧ handled s ∧ moves s ∧ all_back s ∧ submit_atomic s ∧ fails_badly s.
Proof.
  intros Hdev H0%started_inv Hs. assert (H : sysinv s ∧ rtc astep (abs s0) (abs s)).
  { induction Hs as [s|s1 s2 s3 H12 H23 IH]; [by split; [|apply rtc_refl]|]. destruct (vstep_ok device s1 s2 Hdev H0 H12) as [H2 Ha]. destruct (IH H2) as [H3 Hb]. split; [done|]. by etrans. }
  destruct H as [Hi Ha]. split; [done|]. split; [by apply sysinv_handled|]. split; [by apply sysinv_moves|]. split; [by apply sysinv_all_back|].
  split; [by apply sysinv_submit|by apply sysinv_fails].
Qed.
End claims.

(** ** An example: one write *)

Section demo.
(** Registers of a disk that is there and ready. *)
#[local] Instance demo_regs : VirtioRegs unit := {
  vr_read r e := (match r with 0 => 0x74726976 | 4 => 2 | 8 => 2 | 12 => 0x554d4551 | 52 => 8 | 112 => 11 | _ => 0 end, e);
  vr_write _ _ e := e;
  vr_kalloc e := (0x87fff000, e) }.
Definition demo_data : list Z := replicate 1024 7.
Definition demo_zero : vst unit :=
  mkvst (initlock "") (mkhart 0 true 0 true)
    (mkvd [] [] 0 [] 0 (replicate NUM 0) 0 (replicate NUM (mkinfo None 0)) (replicate NUM (mkreq 0 0 0)) [mkvbuf 3 demo_data 0] [] tt).
Definition demo_after {A} (m : M (vst unit) A) (d : vst unit) : vst unit :=
  match m (mkvst (v_lock d) (v_hart d) (w_wakes [] (v_disk d))) with Ok (_, d1) => mkvst (v_lock d1) (v_hart d1) (w_wakes [] (v_disk d1)) | _ => d end.
Definition demo_d0 : vst unit := match virtio_disk_init demo_zero with Ok (_, d) => d | _ => demo_zero end.
Definition demo_d1 := demo_after (virtio_disk_rw 0 true) demo_d0.
Definition demo_d2 : vst unit := match dev_complete (v_disk demo_d1) ∅ 0 with Some (v, _) => mkvst (v_lock demo_d1) (v_hart demo_d1) v | None => demo_d1 end.
Definition demo_d3 := demo_after virtio_disk_intr demo_d2.
Definition demo_d4 := demo_after (rw_resume 0 0 1 2) demo_d3.
Definition demo_wait (sv wk : bool) : gmap nat phase := {[ 5%nat := WaitBuf 0 true 0 1 2 sv wk ]}.
Definition demo0 := mksys demo_d0 ∅ 0 [] ∅.
Definition demo_end := mksys demo_d4 {[ 3 := demo_data ]} 1 [] ∅.

Lemma vst_eta (d : vst unit) : mkvst (v_lock d) (v_hart d) (v_disk d) = d.
Proof. by destruct d. Qed.
Lemma demo_run : rtc (vstep documented) demo0 demo_end.
Proof.
  eapply (rtc_l _ _ (mksys demo_d1 ∅ 0 [] (demo_wait false false))).
  { apply (st_call documented 5 0 true (VSleepBuf 0 1 2) demo_d0 demo_d1 ∅ 0 [] ∅ ∅); [done|by intros q x ?%lookup_empty_Some|by eexists|].
    eexists. split; [by vm_compute|]. split; [by vm_compute|done]. }
  eapply (rtc_l _ _ (mksys demo_d1 ∅ 1 [0%nat] (demo_wait false false))).
  { apply st_device. rewrite <-(vst_eta demo_d1). apply (doc_take _ _ (v_disk demo_d1) ∅ 0 [] (demo_wait false false) 0%nat 1). by vm_compute. }
  eapply (rtc_l _ _ (mksys demo_d2 {[ 3 := demo_data ]} 1 [] (demo_wait true false))).
  { apply st_device. rewrite <-(vst_eta demo_d1). assert (Hd : demo_d2 = mkvst (v_lock demo_d1) (v_hart demo_d1) (v_disk demo_d2)) by by vm_compute. rewrite Hd.
    apply (doc_complete _ _ (v_disk demo_d1) ∅ 1 [] 0%nat [] (demo_wait false false) (v_disk demo_d2) {[ 3 := demo_data ]}). by vm_compute. }
  eapply (rtc_l _ _ (mksys demo_d3 {[ 3 := demo_data ]} 1 [] (demo_wait true true))).
  { apply st_intr. eexists. split; [by vm_compute|]. split; by vm_compute. }
  apply rtc_once. apply (st_resume documented 5 0 true 0 1 2 true VDone demo_d3 demo_d4 {[ 3 := demo_data ]} 1 [] (demo_wait true true) ∅); [done|].
  eexists. split; [by vm_compute|]. split; by vm_compute.
Qed.

(** A process that writes block 3: it returns, and the block is on the disk. *)
Lemma virtio_refines_witness : rtc (vstep documented) demo0 demo_end ∧ s_disk demo_end !! 3 = Some demo_data ∧
  rtc astep (abs demo0) (abs demo_end) ∧ handled demo_end ∧ moves demo_end ∧ all_back demo_end ∧ submit_atomic demo_end ∧ fails_badly demo_end.
Proof.
  split; [apply demo_run|]. split; [done|]. apply (virtio_refines documented demo0 demo_end); [done| |apply demo_run].
  exists demo_zero. split; [by vm_compute|]. split; [|split; [by repeat split|split]].
  - by vm_compute.
  - intros [|b] x; [|done]. intros [= <-]. by vm_compute.
  - by split.
Defined.
End demo.
